(* ===== verification/_CoqProject ===== *)
-Q . S2P
Prelude.v
QtMap.v
Install.v
InstallFacts.v
CText.v
Web.v
WebFacts.v
WebServe.v
Qt.v
Sys.v
Boot.v
OsInfo.v
PreSetup.v
Write.v
Recovery.v
BootFacts.v
WriteFacts.v
RestFacts.v
RunFacts.v
RecoveryDemo.v
KExpr.v
KExprFacts.v
KExprDups.v
KExprDemo.v
KSym.v
KSymFacts.v
KSymFrame.v
KSymValue.v
KSymText.v
KConf.v
KConfFacts.v
KDemo.v
KSymKeep.v
KHelp.v
KMenu.v
KParse.v
KMenuFacts.v
KParseFacts.v
KScan.v
KScanFacts.v
KText.v
KGrammar.v
KReadBack.v
KMenuDemo.v
KVisible.v
Conf.v
ConfMain.v
ConfFacts.v
ConfList.v
ConfAsk.v
ConfDemo.v
Exc.v
QrBits.v
ReedSolomon.v
ReedSolomonFacts.v
QrCode.v
QrBitsFacts.v
QrRead.v
QrSegFacts.v
QrStreamFacts.v
QrBlocksFacts.v
QrDrawFacts.v
QrGridFacts.v
QrMaskFacts.v
QrCodeFacts.v
QrPrint.v
Md5.v
Md5Spec.v
Md5Facts.v
MakeDevs.v
MakeDevsFacts.v
MakeDevsTable.v
Wrapper.v
WrapperFacts.v
Mkpasswd.v
MkpasswdFacts.v
LxDialog.v
LxDialogFacts.v
Mconf.v
MconfFacts.v
