(* ===== verification/Prelude.v ===== *)
(** * Verification of NOOBS4IoT

    NOOBS4IoT provisions Raspberry Pis remotely: a small Linux image boots a
    recovery program that offers a REST interface over which operating systems are
    installed on the SD card.  These bodies of code carry logic of their own, and this
    development models them:

    - the recovery program (C++ with Qt, src/recovery): a boot manager, an HTTP
      layer, descriptions of operating systems read from JSON, the preparation and
      the partitioning of the card, the writing of images; and the QR encoder with
      which it shows its address on the console;
    - the configuration tool that decides what goes into the image (C,
      src/buildroot/support/kconfig): dependency expressions, symbols and their
      values, configuration files, the menu tree, the scanner and the grammar of
      Kconfig files, the line-oriented front end conf, and the menu-driven one,
      mconf, with its dialogs;
    - four programs of their own (C): mcookie, makedevs, mkpasswd and the wrapper of
      external toolchains.

    ** The recovery program and its files

    - [QtMap], [Qt]: the Qt and QJson functions the program calls, as interfaces
      with the documented laws its theorems need.  They are not in the repository;
      RecoveryDemo implements them.
    - [Web] (libs/Web/Web.cpp, WebServer.cpp, WebClient.cpp): messages over sockets.
      A [Socket] is the answers of the kernel to come and the bytes written so far;
      [send], [readReceive], [parseReceive], [receive], [receiveRequest],
      [sendResponse], [matchRoute], [start] and [webclient_get] are the methods of
      the same names.  The 4096 byte buffers are real: leaving one is [Fault].
      [serve_connection] is one turn of the loop of [start].
    - [Sys] (Utility_Sys.cpp, Utility_Json.cpp, Utility.h, the mounting of
      PartitionInfo.cpp): a [World] of partition objects, files and devices by path,
      the actions done so far, the served connection.  What a started process does
      to the files, its exit code and its output are a parameter (class [System]),
      a function of everything started before, so the theorems hold for every
      behaviour of the tools and every failure of files.
    - [Boot] (BootManager.cpp: default partition, reboot, boot decision), [OsInfo]
      (OSInfo.cpp, the parsing of PartitionInfo.cpp), [PreSetup] (PreSetup.cpp),
      [Install] (InstallManager.cpp and PartitionInfo.h: the checks, the layout and
      the partition table, as a pure planner over a store of objects), [Write]
      (InstallManager.cpp, InstallManager_Utility.cpp: partitioning, images, setup
      script, [installOS]), [Recovery] (BootManager.cpp: REST handlers, menu, [run]).
    - Theorems.  [InstallFacts]: an accepted plan of plain partitions is aligned,
      disjoint and inside the card ([prepareImage_layout]; a raw partition may leave
      it, [raw_partition_overruns]), the numbering rules hold.  [WebFacts],
      [WebServe]: what the client writes the server reads, in whatever pieces
      ([request_roundtrip]); downloads, and the reasons of a status line that are
      refused ([download_document]); the bound of the header buffer; exactly
      when reading ends ([receive_returns_iff]); URLs.  [BootFacts]: the default
      partition is the one rebooted into; the boot decision.  [RestFacts]: the REST
      interface from request bytes to answer bytes and files.  [WriteFacts]: writing
      refines the plan of the partitions ([writes] and [carries] are the
      specification: the exit code of each process decides what follows); where
      partition objects come from; what installation reports; the table of a fresh
      card (in [RestFacts]).  [RunFacts]: a machine that boots leaves its card and
      the network alone.
      [RecoveryDemo] and the end of [WebServe]: concrete runs.

    ** The QR encoder and its files

    - [Exc]: the monad of C++ exceptions ([exc]), [std::vector::at] and the [for]
      loops over ranges, with the rule of invariants for them.
    - [QrBits] (libs/QRCode: BitBuffer.cpp, QrSegment.cpp), [ReedSolomon] (the class
      of that name in QrCode.cpp), [QrCode] (the rest of QrCode.cpp), [QrPrint]
      (toSvgString, Utility.cpp's printQrCode): the definitions.
    - [QrRead]: the specification, a reader by the rules of ISO 18004 that shares no
      code with the encoder: regions of function patterns, the path of the data
      modules, masks by row and column, blocks, segments.
    - Theorems.  [QrBitsFacts], [QrSegFacts], [QrStreamFacts]: the bits of segments
      and streams.  [ReedSolomonFacts]: the field of 256 elements by
      carry-less product and reduction, and with [QrBlocksFacts]: every block is a
      codeword ([appendErrorCorrection_read]).  [QrDrawFacts], [QrGridFacts], [QrMaskFacts]:
      drawing, the zigzag, masks and the penalty.  [QrCodeFacts]: symbols and texts
      read back ([newQrCode_read], [encodeText_read]).  [QrPrint]: scanning the
      console gives the address ([printed_address_read]); examples.

    ** The configuration tool and its files

    - [KExpr] (expr.c, expr.h): expressions as trees; the in-place rewriting through
      [struct expr **] is a function on trees with slots as paths.  [KExprFacts],
      [KExprDups]: every rewriting keeps the value (or loses exactly what the
      findings say), equality is sound, duplicate elimination ends at a fixed point.
    - [KSym] (symbol.c): the heap of symbols with their flag words, as programs of the
      state monad; value calculation recurses through the heap.  [KSymFacts]: the
      calculation ends for every configuration, recursive ones included.
      [KSymFrame]: a valid symbol keeps its value.  [KSymValue]: what the value is.
      [KSymText]: numbers, escapes, the symbol table.
    - [KConf] (confdata.c, part of menu.c): reading and writing configurations as
      text.  [KConfFacts]: what is written is read back; the walk over the menus.
    - [KMenu] (menu.c): the entries as a heap of pointers with the address the next
      one is stored at; adding entries and properties, [menu_finalize].  [KParse]
      (zconf.y): a file as its statements, the action of each, [conf_parse].
      [KMenuFacts]: finalising keeps the entries linked as a forest, in their order
      ([seg] is a list of entries between two pointers), and calculations on
      symbols leave the pointers alone ([KSymKeep] says what else they keep, and that
      the setters of values store the user's value; [KVisible] that visibility is a
      calculation).  [KParseFacts]: reading builds the forest
      of the statements; the tree of a whole file and the walk over it
      ([read_menus_order], [conf_parse_walk]).
    - [KHelp] (util.c, part of menu.c and expr.c): growing strings, help texts, the
      list of files and the dependency file.
    - [KScan] (zconf.l, zconf.gperf): start conditions, the rule that matches next,
      the stack of files.  [KScanFacts]: every call ends ([yylex_ends]).  [KGrammar]
      (zconf.y, zconf.l): a parser with one token ahead, its actions, included files,
      and [conf_parse_file] from the name of a file.  [KText]: how statements are
      written down (a specification).  [KReadBack]: the text of any statements is
      read as those statements ([conf_parse_file_reads]), which carries the theorems
      on [conf_parse] over to files.
    - [Conf], [ConfMain] (conf.c): questions and answers, modes, the whole program
      over input and output texts.  [ConfFacts]: who reads the standard input;
      [ConfList]: the modes that list and that only update, from the bytes of the
      Kconfig file; [ConfAsk]: which lines are answers, what value they
      leave behind ([conf_sym_answered], [conf_string_answered]), and the question that
      never ends.
    - [LxDialog] (lxdialog/*.c): the list of items and a Module for each dialog, as a
      loop over the events of the terminal; what curses shows is the rows of a list
      or text and the cells of the input line.  [LxDialogFacts]: a menu follows its
      keys like a list without a window, however it scrolls ([menu_navigates]), and
      stays in its list ([menu_safe]); the input line edits a text ([inputbox_edits]).
    - [Mconf] (mconf.c): the items of a menu, what keys do to symbols, questions,
      files, the search, the whole program.  [MconfFacts]: the list of a menu
      ([build_conf_lists]), what a typed answer does ([conf_string_typed]) and the
      screen on which the question never ends ([conf_string_small_screen]).
    - [KExprDemo], [KDemo], [KMenuDemo], [ConfDemo]: concrete configurations, and
      files that are read otherwise than they look.
    - [CText]: characters, numbers and searches of C, shared by both programs.

    ** The small programs and their files

    - [Md5] (mcookie.c): the context of MD5 in memory, the gathering of what the
      machine offers.  [Md5Spec]: RFC 1321 with its sine table computed.
      [Md5Facts]: the code computes MD5 of the concatenated input ([MD5_streams])
      and prints it ([mcookie_digest]).
    - [MakeDevs] (makedevs.c): reading lines into a growing buffer, [sscanf], and the
      system calls made for an entry; the kernel answers as it likes (class
      [Kernel]).  [MakeDevsFacts]: the lines are those of the text; no undefined
      behaviour ([makedevs_in_bounds]).  [MakeDevsTable]: the text of a table of
      entries makes its nodes ([device_table_nodes]); the exit status.
    - [Wrapper] (ext-toolchain-wrapper.c): arguments in, arguments out.
      [WrapperFacts]: what is passed on ([wrapper_options]), what is refused
      ([paranoid_refuses]), how the toolchain is found ([found_through_path]).
    - [Mkpasswd] (mkpasswd.c, utils.c): options, salt, password, hash, over parameters
      for getopt_long, crypt and the sources of chance.  [MkpasswdFacts]: the arguments
      of the environment come first, in an array that is never left
      ([merge_args_prepends]); a hash is made with a well-formed salt, information is
      printed when an option asks for it, and failures print nothing
      ([mkpasswd_hashes]); three runs that surprise.

    ** Conventions

    A C [int] is a [Z] with its conversion [i32] written where the code computes;
    the layout theorem proves that nothing overflows within its bounds.  Results of
    a program are [Ok], [Fault] (undefined behaviour or an uncaught exception) or
    [NoFuel].  Fuel appears in ten places.  [KExpr]'s rewritings take the size of
    their arguments, and theorems show it is enough.  [sym_calc_value] takes the
    potential of the state, shown enough by [sym_calc_value_terminates].  Reading a
    message takes any number above the number of coming rounds; [receive_returns_iff]
    shows that more never helps.  Waiting for the network, for a card and at the menu
    is unbounded in the code as well.  The loops of the QR encoder take the number
    of versions, columns, missing bits and percent steps; its theorems prove results,
    not mere absence of wrong ones, so that fuel is enough, too.  The loops over
    entries and the nesting of [menu_finalize] take the number of entries, enough by
    [read_menus_order]; the check for recursive dependencies behind them takes twice
    the symbols not checked, for which no theorem is stated.  A call of the scanner takes twice the text and
    three ([yylex_ends]); the parser takes the cost of the text, which
    [conf_parse_file_reads] shows is enough for every text of statements; conf.c walks
    as deep as there are entries ([listnewconfig_lists]), and its questions repeat
    without end in the code as well ([conf_string_never_ends]).  A dialog takes the
    number of events to come and one, of which each round reads at least one; mconf.c's list
    of a menu goes as deep as there are entries ([build_conf_lists]), and its questions
    and menus are repeated as often as a bound of the model allows, which the code does
    not have.

    ** Not modelled

    easylogging++ (third party); opening sockets, the clock,
    console texts; the overloads for lists of systems, which nothing calls; the other
    graphical front ends of kconfig (nconf, gconf, qconf), which show the same core with
    the curses menu and form libraries, GTK and Qt; what the dialogs of mconf draw around
    their lists and texts (frames, titles, prompts, buttons, colours), locales, its signal
    handler; how bison goes on after a syntax error to report further
    ones before the same exit; the debugging dump of zconf.y; Makefiles, patches and
    scripts of Buildroot.

    This file: machine integers, the state monads and their rules, automation. *)
From stdpp Require Export prelude list strings gmap.
From stdpp Require Export sorting.
From Stdlib Require Export ZArith Lia Sorting.Sorted.

Open Scope Z_scope.

(** ** Machine integers *)

(** Conversion of a mathematical integer to a C [int] (two's complement, 32
    bits), [unsigned int] and 64-bit unsigned values. *)
Definition i32 (z : Z) : Z := (z + 2147483648) mod 4294967296 - 2147483648.
Definition u32 (z : Z) : Z := z mod 4294967296.
Definition u64 (z : Z) : Z := z mod 18446744073709551616.
Definition u8 (z : Z) : Z := z mod 256.

Definition is_i32 (z : Z) : Prop := -2147483648 <= z <= 2147483647.
Definition is_u32 (z : Z) : Prop := 0 <= z < 4294967296.
Definition is_byte (z : Z) : Prop := 0 <= z < 256.

Lemma i32_id z : is_i32 z -> i32 z = z.
Proof. unfold is_i32, i32. intros H. rewrite Z.mod_small; lia. Qed.

Lemma i32_range z : is_i32 (i32 z).
Proof.
  unfold is_i32, i32.
  pose proof (Z.mod_pos_bound (z + 2147483648) 4294967296 eq_refl). lia.
Qed.

Lemma u32_range z : is_u32 (u32 z).
Proof. unfold is_u32, u32. apply Z.mod_pos_bound. reflexivity. Qed.

Lemma u32_id z : is_u32 z -> u32 z = z.
Proof. unfold is_u32, u32. apply Z.mod_small. Qed.

Create HintDb noobs discriminated.
#[export] Hint Resolve i32_range u32_range : noobs.

(** ** A state monad with undefined behaviour *)

(** A stateful C routine that returns an [A] and changes an [S]; [None] stands
    for undefined behaviour (a dangling or null pointer is followed). *)
Definition SM (S A : Type) : Type := S -> option (A * S).

#[export] Instance SM_ret S : MRet (SM S) := fun A a s => Some (a, s).
#[export] Instance SM_bind S : MBind (SM S) := fun A B f m s =>
  match m s with Some (a, s') => f a s' | None => None end.

Section SM.
Context {S : Type}.
Definition get : SM S S := fun s => Some (s, s).
Definition put (s : S) : SM S unit := fun _ => Some (tt, s).
Definition modify (f : S -> S) : SM S unit := fun s => Some (tt, f s).
Definition lift {A} (o : option A) : SM S A := fun s =>
  match o with Some a => Some (a, s) | None => None end.

Lemma SM_bind_inv {A B} (m : SM S A) (f : A -> SM S B) s b s' :
  (a ← m; f a) s = Some (b, s') ->
  exists a s1, m s = Some (a, s1) /\ f a s1 = Some (b, s').
Proof.
  unfold mbind, SM_bind. destruct (m s) as [[a s1]|] eqn:E; [|done].
  intros H. by exists a, s1.
Qed.

Lemma SM_bind_Some {A B} (m : SM S A) (f : A -> SM S B) s a s1 :
  m s = Some (a, s1) -> (a ← m; f a) s = f a s1.
Proof. unfold mbind, SM_bind. by intros ->. Qed.
End SM.

(** ** Programs with faults and bounded recursion *)

(** The outcome of a run: a result, undefined behaviour, or a recursion deeper
    than the fuel. *)
Inductive outcome (S A : Type) : Type :=
| Ok (a : A) (s : S)
| Fault
| NoFuel.
Arguments Ok {S A} a s.
Arguments Fault {S A}.
Arguments NoFuel {S A}.

Definition PM (S A : Type) : Type := S -> outcome S A.

#[export] Instance PM_ret S : MRet (PM S) := fun A a s => Ok a s.
#[export] Instance PM_bind S : MBind (PM S) := fun A B f m s =>
  match m s with Ok a s' => f a s' | Fault => Fault | NoFuel => NoFuel end.

Section PM.
Context {S : Type}.
Definition pget : PM S S := fun s => Ok s s.
Definition pmodify (f : S -> S) : PM S unit := fun s => Ok tt (f s).
Definition plift {A} (o : option A) : PM S A := fun s =>
  match o with Some a => Ok a s | None => Fault end.
Definition pfault {A} : PM S A := fun _ => Fault.
Definition pnofuel {A} : PM S A := fun _ => NoFuel.
Definition pwhen (b : bool) (m : PM S unit) : PM S unit := if b then m else mret tt.
Fixpoint pforeach {A} (f : A -> PM S unit) (l : list A) : PM S unit :=
  match l with [] => mret tt | a :: l => f a;; pforeach f l end.

(** [wp m Q s]: run from [s], [m] does not exhaust its fuel, and if it does not
    fault its result and final state satisfy [Q]. *)
Definition wp {A} (m : PM S A) (Q : A -> S -> Prop) (s : S) : Prop :=
  match m s with Ok a s' => Q a s' | Fault => True | NoFuel => False end.

Lemma wp_bind {A B} (m : PM S A) (f : A -> PM S B) Q s :
  wp m (fun a s' => wp (f a) Q s') s -> wp (m ≫= f) Q s.
Proof. unfold wp, mbind, PM_bind. by destruct (m s). Qed.
Lemma run_bind {A B} (m : PM S A) (f : A -> PM S B) s a s' : m s = Ok a s' -> (m ≫= f) s = f a s'.
Proof. unfold mbind, PM_bind. by intros ->. Qed.
Lemma wp_ret {A} (a : A) Q s : Q a s -> wp (mret a : PM S A) Q s.
Proof. done. Qed.
Lemma wp_get Q s : Q s s -> wp pget Q s.
Proof. done. Qed.
Lemma wp_modify f Q s : Q tt (f s) -> wp (pmodify f) Q s.
Proof. done. Qed.
Lemma wp_lift {A} (o : option A) Q s : (forall a, o = Some a -> Q a s) -> wp (plift o) Q s.
Proof. unfold wp, plift. destruct o; auto. Qed.
Lemma wp_fault {A} Q s : wp (pfault : PM S A) Q s.
Proof. done. Qed.
Lemma wp_mono {A} (m : PM S A) (Q Q' : A -> S -> Prop) s :
  wp m Q s -> (forall a s', Q a s' -> Q' a s') -> wp m Q' s.
Proof. unfold wp. destruct (m s); auto. Qed.
Lemma wp_Ok {A} (m : PM S A) Q s a s' : wp m Q s -> m s = Ok a s' -> Q a s'.
Proof. unfold wp. intros H E. by rewrite E in H. Qed.
Lemma wp_when b m Q s : (b = true -> wp m Q s) -> (b = false -> Q tt s) -> wp (pwhen b m) Q s.
Proof. destruct b; intros H1 H2; [by apply H1|exact (H2 eq_refl)]. Qed.

(** A loop keeps what every iteration keeps. *)
Lemma wp_foreach {A} (f : A -> PM S unit) (I : S -> Prop) l s :
  I s -> (forall a s, a ∈ l -> I s -> wp (f a) (fun _ => I) s) -> wp (pforeach f l) (fun _ => I) s.
Proof.
  revert s. induction l as [|a l IH]; intros s Hs Hf; [done|].
  apply wp_bind. eapply wp_mono; [apply Hf; [left|done]|]. cbn. intros _ s' Hs'.
  apply IH; [done|]. intros b s'' Hb. apply Hf. by right.
Qed.

(** [total m Q s]: run from [s], [m] gives a result, and it satisfies [Q]. *)
Definition total {A} (m : PM S A) (Q : A -> S -> Prop) (s : S) : Prop :=
  match m s with Ok a s' => Q a s' | _ => False end.

Lemma total_bind {A B} (m : PM S A) (f : A -> PM S B) Q s :
  total m (fun a s' => total (f a) Q s') s -> total (m ≫= f) Q s.
Proof. unfold total, mbind, PM_bind. by destruct (m s). Qed.
Lemma total_ret {A} (a : A) Q s : Q a s -> total (mret a : PM S A) Q s.
Proof. done. Qed.
Lemma total_get Q s : Q s s -> total pget Q s.
Proof. done. Qed.
Lemma total_modify f Q s : Q tt (f s) -> total (pmodify f) Q s.
Proof. done. Qed.
Lemma total_lift {A} (o : option A) a Q s : o = Some a -> Q a s -> total (plift o) Q s.
Proof. unfold total, plift. by intros ->. Qed.
Lemma total_mono {A} (m : PM S A) (Q Q' : A -> S -> Prop) s :
  total m Q s -> (forall a s', Q a s' -> Q' a s') -> total m Q' s.
Proof. unfold total. destruct (m s); auto. Qed.
Lemma total_Ok {A} (m : PM S A) Q s : total m Q s <-> exists a s', m s = Ok a s' /\ Q a s'.
Proof.
  unfold total. split; [destruct (m s); [eauto|done..]|]. by intros (a & s' & -> & H).
Qed.

(** [keeps I Q m]: whenever [m], started with the invariant [I], gives a
    result, the invariant holds again and the result satisfies [Q]. *)
Definition keeps {A} (I : S -> Prop) (Q : A -> Prop) (m : PM S A) : Prop :=
  forall s, I s -> match m s with Ok a s' => I s' /\ Q a | _ => True end.
Definition any {A} (_ : A) : Prop := True.

Lemma keeps_bind {A B} I (Q : A -> Prop) (Q' : B -> Prop) (m : PM S A) (f : A -> PM S B) :
  keeps I Q m -> (forall a, Q a -> keeps I Q' (f a)) -> keeps I Q' (m ≫= f).
Proof.
  intros Hm Hf s Hs. unfold mbind, PM_bind. specialize (Hm s Hs). destruct (m s) as [a s'| |]; [|done..].
  destruct Hm as [Hi Ha]. by apply Hf.
Qed.
Lemma keeps_ret {A} I (Q : A -> Prop) (a : A) : Q a -> keeps I Q (mret a).
Proof. by intros H s Hs. Qed.
Lemma keeps_get I : keeps I I pget.
Proof. by intros s Hs. Qed.
Lemma keeps_lift {A} I (o : option A) : keeps I (fun a => o = Some a) (plift o).
Proof. intros s Hs. unfold plift. by destruct o. Qed.
Lemma keeps_fault {A} I (Q : A -> Prop) : keeps I Q pfault.
Proof. by intros s Hs. Qed.
Lemma keeps_modify I f : (forall s, I s -> I (f s)) -> keeps I any (pmodify f).
Proof. intros H s Hs. split; [by apply H|done]. Qed.
Lemma keeps_when I b m : (b = true -> keeps I any m) -> keeps I any (pwhen b m).
Proof. destruct b; intros H; [by apply H|by apply keeps_ret]. Qed.
Lemma keeps_foreach {A} I (f : A -> PM S unit) l :
  (forall a, a ∈ l -> keeps I any (f a)) -> keeps I any (pforeach f l).
Proof.
  induction l as [|a l IH]; intros H; [by apply keeps_ret|]. cbn.
  eapply keeps_bind; [apply H; left|]. intros _ _. apply IH. intros b Hb. apply H. by right.
Qed.
Lemma keeps_weaken {A} I (Q Q' : A -> Prop) m : keeps I Q m -> (forall a, Q a -> Q' a) -> keeps I Q' m.
Proof. intros H HQ s Hs. specialize (H s Hs). destruct (m s); [|done..]. split; [apply H|apply HQ, H]. Qed.

(** The same with a different property of the final state. *)
Definition leads {A} (I : S -> Prop) (J : A -> S -> Prop) (m : PM S A) : Prop :=
  forall s, I s -> match m s with Ok a s' => J a s' | _ => True end.

Lemma leads_bind {A B} I (J : A -> S -> Prop) (K : B -> S -> Prop) (m : PM S A) (f : A -> PM S B) :
  leads I J m -> (forall a, leads (J a) K (f a)) -> leads I K (m ≫= f).
Proof.
  intros Hm Hf s Hs. unfold mbind, PM_bind. specialize (Hm s Hs). destruct (m s) as [a s'| |]; [|done..].
  by apply Hf.
Qed.
Lemma keeps_leads {A} I (Q : A -> Prop) (m : PM S A) : keeps I Q m -> leads I (fun a s => I s /\ Q a) m.
Proof. done. Qed.
Lemma leads_ex {A B} (I : B -> S -> Prop) (J : A -> S -> Prop) (m : PM S A) :
  (forall b, leads (I b) J m) -> leads (fun s => exists b, I b s) J m.
Proof. intros H s [b Hb]. by apply (H b). Qed.
Lemma leads_pure {A} (P : Prop) (I : S -> Prop) (J : A -> S -> Prop) (m : PM S A) :
  (P -> leads I J m) -> leads (fun s => I s /\ P) J m.
Proof. intros H s [Hi Hp]. by apply H. Qed.
End PM.

(** ** Programs that may end early *)

(** A routine either returns or ends the program with a status ([exit]). *)
Inductive ended (A : Type) := Returned (a : A) | Exited (status : Z).
Arguments Returned {A} a.
Arguments Exited {A} status.
Definition EM (S A : Type) : Type := PM S (ended A).

#[export] Instance EM_ret S : MRet (EM S) := fun A a s => Ok (Returned a) s.
#[export] Instance EM_bind S : MBind (EM S) := fun A B f m s =>
  match m s with
  | Ok (Returned a) s' => f a s'
  | Ok (Exited n) s' => Ok (Exited n) s'
  | Fault => Fault
  | NoFuel => NoFuel
  end.

Section EM.
Context {S : Type}.
Definition eget : EM S S := fun s => Ok (Returned s) s.
Definition emodify (f : S -> S) : EM S unit := fun s => Ok (Returned tt) (f s).
Definition elift {A} (o : option A) : EM S A := fun s => match o with Some a => Ok (Returned a) s | None => Fault end.
Definition efault {A} : EM S A := fun _ => Fault.
Definition enofuel {A} : EM S A := fun _ => NoFuel.
Definition eexit {A} (status : Z) : EM S A := fun s => Ok (Exited status) s.
Definition ewhen (b : bool) (m : EM S unit) : EM S unit := if b then m else mret tt.
Lemma erun {A B} (m : EM S A) (f : A -> EM S B) s a s1 : m s = Ok (Returned a) s1 -> (m ≫= f) s = f a s1.
Proof. unfold mbind, EM_bind. by intros ->. Qed.
Lemma erun_get {B} (f : S -> EM S B) s : (eget ≫= f) s = f s s.
Proof. done. Qed.
End EM.

(** Case analysis on the scrutinee of the innermost [match] or [if] of the goal
    or of a hypothesis, keeping the equation. *)
Ltac dmatch :=
  match goal with
  | H : context [match ?x with _ => _ end] |- _ =>
      lazymatch x with context [match _ with _ => _ end] => fail | _ => destruct x eqn:? end
  | |- context [match ?x with _ => _ end] =>
      lazymatch x with context [match _ with _ => _ end] => fail | _ => destruct x eqn:? end
  end.

(** Turn boolean comparisons in the context into propositions. *)
Ltac bool_to_prop :=
  repeat match goal with
  | H : andb _ _ = true |- _ => apply andb_true_iff in H as [? ?]
  | H : orb _ _ = false |- _ => apply orb_false_iff in H as [? ?]
  | H : negb _ = true |- _ => apply negb_true_iff in H
  | H : negb _ = false |- _ => apply negb_false_iff in H
  | H : Z.eqb _ _ = true |- _ => apply Z.eqb_eq in H
  | H : Z.eqb _ _ = false |- _ => apply Z.eqb_neq in H
  | H : Z.ltb _ _ = true |- _ => apply Z.ltb_lt in H
  | H : Z.ltb _ _ = false |- _ => apply Z.ltb_ge in H
  | H : Z.leb _ _ = true |- _ => apply Z.leb_le in H
  | H : Z.leb _ _ = false |- _ => apply Z.leb_gt in H
  | H : bool_decide _ = true |- _ => apply bool_decide_eq_true in H
  | H : bool_decide _ = false |- _ => apply bool_decide_eq_false in H
  end.

(** Truncating division and remainder of C on [int], on the non-negative
    operands the partition arithmetic uses. *)
Lemma quot_nonneg a b : 0 <= a -> 0 < b -> Z.quot a b = a / b.
Proof. intros. apply Z.quot_div_nonneg; lia. Qed.
Lemma rem_nonneg a b : 0 <= a -> 0 < b -> Z.rem a b = a mod b.
Proof. intros. apply Z.rem_mod_nonneg; lia. Qed.
