(* ===== verification/QtMap.v ===== *)
(** The interface of Qt's [QMap<int, T>] that the install manager relies on,
    and an implementation of it (stdpp's [gmap], enumerated in key order) that shows
    the interface can be met.  Qt is not part of the repository: everything proved about its
    clients is proved against the interface. *)
From S2P Require Import Prelude.

(** Documented behaviour of [QMap]: [insert] replaces, [value]/[contains] look
    up, and [keys()]/[values()] enumerate in ascending order of the key. *)
Class QMapOps (M : Type -> Type) := {
  qm_empty : forall {V}, M V;
  qm_insert : forall {V}, Z -> V -> M V -> M V;
  qm_lookup : forall {V}, Z -> M V -> option V;
  qm_items : forall {V}, M V -> list (Z * V);
}.

Class QMapLaws (M : Type -> Type) `{QMapOps M} : Prop := {
  qm_lookup_empty : forall V k, qm_lookup k (qm_empty (V:=V)) = None;
  qm_lookup_insert : forall V k k' (v : V) m,
    qm_lookup k' (qm_insert k v m) = if decide (k = k') then Some v else qm_lookup k' m;
  qm_items_sorted : forall V (m : M V), StronglySorted Z.lt (map fst (qm_items m));
  qm_items_lookup : forall V (m : M V) k v, (k, v) ∈ qm_items m <-> qm_lookup k m = Some v;
}.

Section Derived.
Context {M : Type -> Type} `{QMapLaws M} {V : Type}.
Implicit Types m : M V.

Definition qm_contains (k : Z) m : bool :=
  match qm_lookup k m with Some _ => true | None => false end.
Definition qm_keys m : list Z := map fst (qm_items m).
Definition qm_values m : list V := map snd (qm_items m).
Definition qm_isEmpty m : bool :=
  match qm_items m with [] => true | _ => false end.

Lemma qm_contains_true k m : qm_contains k m = true <-> is_Some (qm_lookup k m).
Proof. unfold qm_contains. destruct (qm_lookup k m); split; intros; try done; eauto. Qed.

Lemma qm_elem_keys k m : k ∈ qm_keys m <-> is_Some (qm_lookup k m).
Proof.
  unfold qm_keys. rewrite list_elem_of_In, in_map_iff. split.
  - intros ([k' v] & <- & Hin%list_elem_of_In). cbn.
    exists v. by apply qm_items_lookup.
  - intros [v Hv]. exists (k, v). split; [done|].
    by apply list_elem_of_In, qm_items_lookup.
Qed.

Lemma qm_keys_NoDup m : NoDup (qm_keys m).
Proof.
  unfold qm_keys. pose proof (qm_items_sorted V m) as Hs.
  induction Hs as [|k l Hs IH Hk]; constructor; [|done].
  intros Hin. rewrite Forall_forall in Hk. specialize (Hk _ Hin). lia.
Qed.

Lemma qm_items_NoDup m : NoDup (qm_items m).
Proof. eapply NoDup_fmap_1. apply (qm_keys_NoDup m). Qed.

(** Inserting a fresh key adds one item. *)
Lemma qm_items_insert_fresh k v m :
  qm_lookup k m = None -> qm_items (qm_insert k v m) ≡ₚ (k, v) :: qm_items m.
Proof.
  intros Hk. apply NoDup_Permutation.
  - apply qm_items_NoDup.
  - constructor; [|apply qm_items_NoDup].
    intros Hin%qm_items_lookup. congruence.
  - intros [k' v']. rewrite elem_of_cons, !qm_items_lookup, qm_lookup_insert.
    case_decide as E; subst; split.
    + intros [= <-]. by left.
    + intros [[= <-]|]; [done|congruence].
    + by right.
    + intros [[= -> ->]|]; congruence.
Qed.

Lemma qm_values_insert_fresh k v m :
  qm_lookup k m = None -> qm_values (qm_insert k v m) ≡ₚ v :: qm_values m.
Proof. intros Hk. unfold qm_values. by rewrite (qm_items_insert_fresh k v m Hk). Qed.

Lemma qm_items_empty : qm_items (qm_empty (V:=V)) = [].
Proof.
  destruct (qm_items qm_empty) as [|[k v] l] eqn:E; [done|].
  assert (Hin : (k, v) ∈ qm_items (qm_empty (V:=V))) by (rewrite E; left).
  apply qm_items_lookup in Hin. by rewrite qm_lookup_empty in Hin.
Qed.

(** [keys().last()] is the greatest key. *)
Lemma qm_last_key_max k k' m :
  last (qm_keys m) = Some k -> k' ∈ qm_keys m -> k' <= k.
Proof.
  unfold qm_keys. pose proof (qm_items_sorted V m) as Hs. revert k.
  induction Hs as [|x l Hs IH Hx]; [by inversion 2|].
  intros k Hl Hin. rewrite Forall_forall in Hx. apply elem_of_cons in Hin as [->|Hin].
  - destruct l as [|y l]; cbn in Hl; [injection Hl; lia|].
    assert (Hk : k ∈ y :: l) by (apply last_Some_elem_of; exact Hl).
    specialize (Hx k Hk). lia.
  - destruct l as [|y l]; [by inversion Hin|]. by apply IH.
Qed.
End Derived.

(** ** A concrete map: stdpp's [gmap], enumerated in key order *)

Definition key_le {V} (a b : Z * V) : Prop := a.1 <= b.1.
#[export] Instance key_le_dec {V} (a b : Z * V) : Decision (key_le a b).
Proof. unfold key_le. apply _. Defined.
#[export] Instance key_le_total {V} : Total (@key_le V).
Proof. intros [a ?] [b ?]. unfold key_le. cbn. lia. Qed.

Lemma sorted_le_lt (l : list Z) : StronglySorted Z.le l -> NoDup l -> StronglySorted Z.lt l.
Proof.
  induction 1 as [|x l Hs IH Hx]; intros Hnd; constructor; inversion_clear Hnd as [|? ? Hni Hnd'].
  - by apply IH.
  - rewrite Forall_forall in Hx |- *. intros y Hy. specialize (Hx y Hy).
    destruct (decide (x = y)); [subst; done | lia].
Qed.

#[export] Instance gmap_qmap_ops : QMapOps (gmap Z) := {
  qm_empty := fun V => ∅;
  qm_insert := fun V k v m => <[k := v]> m;
  qm_lookup := fun V k m => m !! k;
  qm_items := fun V m => merge_sort key_le (map_to_list m);
}.

#[export] Instance gmap_qmap_laws : QMapLaws (gmap Z).
Proof.
  split; cbn.
  - done.
  - intros V k k' v m. by rewrite lookup_insert.
  - intros V m. apply sorted_le_lt.
    + assert (Hs : StronglySorted key_le (merge_sort key_le (map_to_list m))).
      { apply StronglySorted_merge_sort; try apply _. intros [? ?] [? ?] [? ?]. unfold key_le. cbn. lia. }
      induction Hs as [|[k v] l Hs IH Hx]; cbn; constructor; [done|].
      rewrite Forall_forall. rewrite Forall_forall in Hx. intros y (p & -> & Hp)%list_elem_of_fmap.
      exact (Hx p Hp).
    + rewrite (merge_sort_Permutation key_le). apply NoDup_fst_map_to_list.
  - intros V m k v. rewrite (merge_sort_Permutation key_le). apply elem_of_map_to_list.
Qed.
