(* ===== verification/Install.v ===== *)
(** The partition planner of the recovery program: [PartitionInfo] and the
    checks and the layout computation of [InstallManager]
    (src/recovery/InstallManager.cpp, PartitionInfo.h, Utility.h).

    [PartitionInfo] objects are shared by pointer between the [OSInfo] that owns
    them and the install manager's [_partitionMap], so they live in an explicit
    store.  [int] arithmetic is written with its 32-bit conversion. *)
From stdpp Require Import pretty.
From Stdlib Require Import SpecFloat.
From S2P Require Import Prelude QtMap.

(** Utility.h *)
Definition PARTITION_ALIGNMENT : Z := 8192.
Definition PARTITION_GAP : Z := 2.
Definition RISCOS_OFFSET : Z := 1760.
Definition RISCOS_SECTOR_OFFSET : Z := RISCOS_OFFSET * 2048.
Definition SETTINGS_PARTITION_SIZE : Z := 32 * 2048 - PARTITION_GAP.

(** The members of [PartitionInfo] (PartitionInfo.h). *)
Record PartitionInfo := mkPartitionInfo {
  fstype : string;
  mkfsOptions : string;
  label : string;
  partitionDevice : string;
  partitionType : string;
  tarball : string;
  mountedDir : string;
  partitionSizeNominal : Z;
  requiresPartitionNumber : Z;
  offset : Z;
  uncompressedTarballSize : Z;
  partitionSizeSectors : Z;
  emptyFS : bool;
  wantMaximised : bool;
  active : bool;
}.

(** The inline setters and [endSector] of PartitionInfo.h. *)
Definition setPartitionDevice (d : string) (p : PartitionInfo) : PartitionInfo :=
  mkPartitionInfo (fstype p) (mkfsOptions p) (label p) d (partitionType p) (tarball p)
    (mountedDir p) (partitionSizeNominal p) (requiresPartitionNumber p) (offset p)
    (uncompressedTarballSize p) (partitionSizeSectors p) (emptyFS p) (wantMaximised p) (active p).
Definition setRequiresPartitionNumber (n : Z) (p : PartitionInfo) : PartitionInfo :=
  mkPartitionInfo (fstype p) (mkfsOptions p) (label p) (partitionDevice p) (partitionType p)
    (tarball p) (mountedDir p) (partitionSizeNominal p) n (offset p)
    (uncompressedTarballSize p) (partitionSizeSectors p) (emptyFS p) (wantMaximised p) (active p).
Definition setPartitionSizeSectors (n : Z) (p : PartitionInfo) : PartitionInfo :=
  mkPartitionInfo (fstype p) (mkfsOptions p) (label p) (partitionDevice p) (partitionType p)
    (tarball p) (mountedDir p) (partitionSizeNominal p) (requiresPartitionNumber p) (offset p)
    (uncompressedTarballSize p) n (emptyFS p) (wantMaximised p) (active p).
Definition setOffset (n : Z) (p : PartitionInfo) : PartitionInfo :=
  mkPartitionInfo (fstype p) (mkfsOptions p) (label p) (partitionDevice p) (partitionType p)
    (tarball p) (mountedDir p) (partitionSizeNominal p) (requiresPartitionNumber p) n
    (uncompressedTarballSize p) (partitionSizeSectors p) (emptyFS p) (wantMaximised p) (active p).
Definition endSector (p : PartitionInfo) : Z := i32 (offset p + partitionSizeSectors p).

(** ** Double arithmetic of the meta data overhead *)

(** [acc += 0.01 * n] on [int] operands: binary64 product and sum, truncated. *)
Definition double_of_int (z : Z) : spec_float := binary_normalize 53 1024 z 0 false.
Definition double_0_01 : spec_float := S754_finite false 5764607523034235 (-59).
Definition int_of_double (f : spec_float) : Z :=
  match f with
  | S754_finite s m e =>
      let a := if 0 <=? e then Z.shiftl (Zpos m) e else Z.shiftr (Zpos m) (- e) in
      if s then - a else a
  | _ => 0
  end.
Definition add_overhead (acc n : Z) : Z :=
  i32 (int_of_double (SFadd 53 1024 (double_of_int acc)
                        (SFmul 53 1024 double_0_01 (double_of_int n)))).

(** ** The install manager *)

Definition nl : string := String (Ascii.ascii_of_nat 10) EmptyString.

Definition ptr := nat.

(** The part of [OSInfo] the planner reads. *)
Record OSInfo := mkOSInfo { name : string; partitions : list ptr }.

(** ** One step of the layout loop of [calculateSpaceRequirements] *)

(** The start sector of a partition, from the running [offset]; [None] is
    "Fixed partition offset too low". *)
Definition start_of (p : PartitionInfo) (off : Z) : option Z :=
  if negb (offset p =? 0) then
    if offset p <=? off then None else Some (offset p)
  else
    let off := i32 (off + PARTITION_GAP) in
    Some (if negb (Z.rem off PARTITION_ALIGNMENT =? 0)
          then i32 (off + (PARTITION_ALIGNMENT - Z.rem off PARTITION_ALIGNMENT)) else off).

(** The size in sectors of a partition that starts at [off]. *)
Definition sectors_of (extra total : Z) (is_last : bool) (p : PartitionInfo) (off : Z) : Z :=
  let mb := if wantMaximised p then i32 (partitionSizeNominal p + extra)
            else partitionSizeNominal p in
  let sec := i32 (mb * 2048) in
  if is_last then
    let left := i32 (i32 (total - off) - sec) in
    if (0 <? left) && wantMaximised p then i32 (sec + left) else sec
  else
    let sec := if (Z.rem sec PARTITION_ALIGNMENT =? 0) && negb (bool_decide (fstype p = "raw"))
               then i32 (sec - PARTITION_GAP) else sec in
    let r := Z.rem (i32 (sec + PARTITION_GAP)) PARTITION_ALIGNMENT in
    if wantMaximised p && negb (r =? 0) then i32 (sec + (PARTITION_ALIGNMENT - r)) else sec.

(** [setOffset] is only called when the partition has no fixed offset; storing
    the value it already has is the same. *)
Definition place (extra total : Z) (is_last : bool) (p : PartitionInfo) (off : Z)
  : option PartitionInfo :=
  match start_of p off with
  | None => None
  | Some o => Some (setPartitionSizeSectors (sectors_of extra total is_last p o) (setOffset o p))
  end.

Section InstallManager.
Context {M : Type -> Type} `{QMapOps M}.
(** [QByteArray::number] and [QString::contains(_, Qt::CaseInsensitive)]. *)
Variable number : Z -> string.
Variable contains_ci : string -> string -> bool.

(** Members of [InstallManager], and the store of partition objects. *)
Record InstallManager := mkIM {
  extraSpacePerPartition : Z;
  totalnominalsize : Z;
  totaluncompressedsize : Z;
  numparts : Z;
  numexpandparts : Z;
  startSector : Z;
  totalSectors : Z;
  availableMB : Z;
  partitionMap : M ptr;
  heap : gmap ptr PartitionInfo;
}.

(** [InstallManager::InstallManager], given the numbers read from
    [mmcblk0p5/start], [mmcblk0p5/size] and [mmcblk0/size]. *)
Definition newInstallManager (start5 size5 total : Z) (h : gmap ptr PartitionInfo)
  : InstallManager :=
  let start := i32 (u64 (start5 + size5)) in
  let total := i32 (u64 total) in
  mkIM 0 0 0 0 0 start total (Z.quot (i32 (total - start)) 2048) qm_empty h.

Definition set_heap (h : gmap ptr PartitionInfo) (s : InstallManager) : InstallManager :=
  mkIM (extraSpacePerPartition s) (totalnominalsize s) (totaluncompressedsize s) (numparts s)
    (numexpandparts s) (startSector s) (totalSectors s) (availableMB s) (partitionMap s) h.
Definition set_totalnominalsize (n : Z) (s : InstallManager) : InstallManager :=
  mkIM (extraSpacePerPartition s) n (totaluncompressedsize s) (numparts s)
    (numexpandparts s) (startSector s) (totalSectors s) (availableMB s) (partitionMap s) (heap s).
Definition set_extra (n : Z) (s : InstallManager) : InstallManager :=
  mkIM n (totalnominalsize s) (totaluncompressedsize s) (numparts s)
    (numexpandparts s) (startSector s) (totalSectors s) (availableMB s) (partitionMap s) (heap s).
Definition set_partitionMap (m : M ptr) (s : InstallManager) : InstallManager :=
  mkIM (extraSpacePerPartition s) (totalnominalsize s) (totaluncompressedsize s) (numparts s)
    (numexpandparts s) (startSector s) (totalSectors s) (availableMB s) m (heap s).

(** The counters [checkPartition] updates before it looks at the number. *)
Definition count_partition (p : PartitionInfo) (s : InstallManager) : InstallManager :=
  let nominal := i32 (totalnominalsize s + partitionSizeNominal p) in
  let uncompressed := i32 (totaluncompressedsize s + uncompressedTarballSize p) in
  mkIM (extraSpacePerPartition s) nominal
    (if bool_decide (fstype p = "ext4") then add_overhead uncompressed nominal else uncompressed)
    (i32 (numparts s + 1))
    (if wantMaximised p then i32 (numexpandparts s + 1) else numexpandparts s)
    (startSector s) (totalSectors s) (availableMB s) (partitionMap s) (heap s).

(** The partition number: the required one, or the next logical one. *)
Definition required_number (p : PartitionInfo) (m : M ptr) : Z :=
  if requiresPartitionNumber p =? 0 then
    match last (qm_keys m) with
    | None => 6
    | Some k => i32 (Z.max k 5 + 1)
    end
  else requiresPartitionNumber p.

(** The three rejections of [checkPartition]. *)
Definition number_refused (n : Z) (m : M ptr) : bool :=
  qm_contains n m
  || ((n =? 1) || (n =? 5))
  || (((n =? 2) && qm_contains 4 m) || ((n =? 4) && qm_contains 2 m)).

(** [wantMaximised() || (partitionSizeNominal()*2048) % PARTITION_ALIGNMENT != 0] *)
Definition alignment_charge (p : PartitionInfo) : Z :=
  if wantMaximised p
     || negb (Z.rem (i32 (partitionSizeNominal p * 2048)) PARTITION_ALIGNMENT =? 0)
  then Z.quot PARTITION_ALIGNMENT 2048 else 0.

Definition checkPartition (q : ptr) (s : InstallManager) : option (bool * InstallManager) :=
  match heap s !! q with
  | None => None
  | Some p =>
      let s1 := count_partition p s in
      let n := required_number p (partitionMap s1) in
      if number_refused n (partitionMap s1) then Some (false, s1)
      else
        let s2 := set_heap
          (<[q := setPartitionDevice ("/dev/mmcblk0p" +:+ number n) p]> (heap s1)) s1 in
        let s3 := set_partitionMap (qm_insert n q (partitionMap s2)) s2 in
        Some (true, set_totalnominalsize (i32 (totalnominalsize s3 + alignment_charge p)) s3)
  end.

(** The loop over the partitions of an image. *)
Fixpoint checkPartitions (qs : list ptr) (s : InstallManager) : option (bool * InstallManager) :=
  match qs with
  | [] => Some (true, s)
  | q :: qs =>
      match checkPartition q s with
      | None => None
      | Some (false, s) => Some (false, s)
      | Some (true, s) => checkPartitions qs s
      end
  end.

Definition alter_partition (q : ptr) (f : PartitionInfo -> PartitionInfo) (s : InstallManager)
  : option InstallManager :=
  match heap s !! q with
  | None => None
  | Some p => Some (set_heap (<[q := f p]> (heap s)) s)
  end.

Definition checkImage (os : OSInfo) (s : InstallManager) : option (bool * InstallManager) :=
  match partitions os, last (partitions os) with
  | first :: _, Some lst =>
      if contains_ci (name os) "risc" then
        if RISCOS_SECTOR_OFFSET - 2048 <? startSector s then Some (false, s)
        else
          let s := set_totalnominalsize
            (i32 (totalnominalsize s
                  + Z.quot (i32 (RISCOS_SECTOR_OFFSET - startSector s)) 2048)) s in
          s ← alter_partition first (setRequiresPartitionNumber 6) s;
          s ← alter_partition first (setOffset RISCOS_SECTOR_OFFSET) s;
          s ← alter_partition lst (setRequiresPartitionNumber 7) s;
          checkPartitions (partitions os) s
      else checkPartitions (partitions os) s
  | _, _ => Some (false, s)
  end.

(** The three rotations that move primary partitions behind the logical ones. *)
Definition rotate_primary (h : gmap ptr PartitionInfo) (n : Z) (l : list ptr)
  : option (list ptr) :=
  match l with
  | [] => Some []
  | q :: l' =>
      match h !! q with
      | None => None
      | Some p => Some (if requiresPartitionNumber p =? n then l' ++ [q] else l)
      end
  end.

(** [foreach (PartitionInfo *p, log_before_prim)]: [lst] is
    [log_before_prim.last()]. *)
Fixpoint place_all (extra total : Z) (lst : ptr) (qs : list ptr) (off : Z)
  (h : gmap ptr PartitionInfo) : option (bool * gmap ptr PartitionInfo) :=
  match qs with
  | [] => Some (true, h)
  | q :: qs =>
      match h !! q with
      | None => None
      | Some p =>
          match place extra total (bool_decide (q = lst)) p off with
          | None => Some (false, h)
          | Some p' =>
              place_all extra total lst qs (i32 (offset p' + partitionSizeSectors p'))
                (<[q := p']> h)
          end
      end
  end.

Definition calculateSpaceRequirements (s : InstallManager) : option (bool * InstallManager) :=
  let s :=
    if negb (numexpandparts s =? 0) then
      set_extra (Z.quot (i32 (availableMB s - totalnominalsize s)) (numexpandparts s)) s
    else s in
  if availableMB s <? totalnominalsize s then Some (false, s)
  else
    l ← rotate_primary (heap s) 2 (qm_values (partitionMap s));
    l ← rotate_primary (heap s) 3 l;
    l ← rotate_primary (heap s) 4 l;
    '(ok, h) ← place_all (extraSpacePerPartition s) (totalSectors s)
                 (default 0%nat (last l)) l (startSector s) (heap s);
    Some (ok, set_heap h s).

(** [prepareImage(OSInfo &)] *)
Definition prepareImage (os : OSInfo) (s : InstallManager) : option (bool * InstallManager) :=
  '(ok, s) ← checkImage os s;
  if ok : bool then calculateSpaceRequirements s else Some (false, s).

(** *** The partition table written by [writePartitionTable] *)

(** The constructor [PartitionInfo(int, int, int, const QByteArray &)]; the
    members it leaves unset are given arbitrary values [j]. *)
Definition tablePartition (j : PartitionInfo) (nr off sectors : Z) (ptype : string)
  : PartitionInfo :=
  mkPartitionInfo "" "" "" "" ptype "" "" (partitionSizeNominal j) nr off
    (uncompressedTarballSize j) sectors (emptyFS j) (wantMaximised j) false.

Definition table_line (p : PartitionInfo) : string :=
  number (offset p) +:+ "," +:+ number (partitionSizeSectors p) +:+ "," +:+ partitionType p
  +:+ (if active p then " *" else "") +:+ nl.

(** The clone of the partition map with the system partitions added. *)
Definition full_partition_map (j : PartitionInfo) (startP1 sizeP1 startP5 sizeP5 : Z)
  (m : M PartitionInfo) : M PartitionInfo :=
  let startExtended := i32 (startP1 + sizeP1) in
  let m := qm_insert 1 (tablePartition j 1 startP1 sizeP1 "0E") m in
  let m := qm_insert 5 (tablePartition j 5 startP5 sizeP5 "L") m in
  let sizeExtended := i32 (match last (qm_values m) with
                           | Some p => endSector p | None => 0 end - startExtended) in
  if negb (qm_contains 2 m)
  then qm_insert 2 (tablePartition j 2 startExtended sizeExtended "E") m
  else qm_insert 4 (tablePartition j 4 startExtended sizeExtended "E") m.

(** The lines handed to sfdisk: [for (i = 1; i <= keys().last(); i++)]. *)
Definition partition_table (m : M PartitionInfo) : list string :=
  map (fun i : nat =>
         match qm_lookup (Z.of_nat i) m with
         | Some p => table_line p
         | None => "0,0" +:+ nl
         end)
    (seq 1 (Z.to_nat (default 0 (last (qm_keys m))))).

(** The text [writePartitionTable] pipes into sfdisk, or [None] when one of
    the sysfs numbers is missing ("Error reading existing partition table"). *)
Definition writePartitionTable_input (j : PartitionInfo) (startP1 sizeP1 startP5 sizeP5 : Z)
  (m : M PartitionInfo) : option (list string) :=
  if (startP1 =? 0) || (sizeP1 =? 0) || (startP5 =? 0) || (sizeP5 =? 0) then None
  else Some (partition_table (full_partition_map j startP1 sizeP1 startP5 sizeP5 m)).
End InstallManager.
Arguments mkIM {M} _ _ _ _ _ _ _ _ _ _.
Arguments extraSpacePerPartition {M} _.
Arguments totalnominalsize {M} _.
Arguments totaluncompressedsize {M} _.
Arguments numparts {M} _.
Arguments numexpandparts {M} _.
Arguments startSector {M} _.
Arguments totalSectors {M} _.
Arguments availableMB {M} _.
Arguments partitionMap {M} _.
Arguments heap {M} _.

(** A concrete run: a boot and a maximised root partition on a 8 GiB card. *)
Module Demo.
Definition part (fs : string) (mb req off : Z) (wm : bool) : PartitionInfo :=
  mkPartitionInfo fs "" "" "" "" "" "" mb req off 0 0 false wm false.
Definition no_risc (_ _ : string) : bool := false.
Definition has (a b : string) : bool := bool_decide (a = b).
Definition h2 : gmap ptr PartitionInfo :=
  {[ 0%nat := part "FAT" 63 0 0 false; 1%nat := part "ext4" 1024 0 0 true ]}.
Definition s2 : InstallManager := newInstallManager (M:=gmap Z) 122880 65534 15523840 h2.
Definition spans (r : option (bool * @InstallManager (gmap Z))) : option (bool * list (Z * Z)) :=
  match r with
  | None => None
  | Some (b, s) => Some (b, map (fun kp => (offset kp.2, partitionSizeSectors kp.2))
                               (map_to_list (heap s)))
  end.
End Demo.
