(* ===== verification/InstallFacts.v ===== *)
(** Properties of the partition planner of [Install]: the layout loop keeps
    partitions disjoint and aligned, the space check makes them fit on the card,
    and the numbering rules are enforced. *)
From stdpp Require Import pretty.
From S2P Require Import Prelude QtMap Install.

(** ** The layout loop on values *)

(** [place_all] without the store: the partitions in order, each one placed
    after the previous. *)
Fixpoint layout (extra total off : Z) (ps : list PartitionInfo) : option (list PartitionInfo) :=
  match ps with
  | [] => Some []
  | p :: ps =>
      match place extra total (match ps with [] => true | _ => false end) p off with
      | None => None
      | Some p' =>
          match layout extra total (i32 (offset p' + partitionSizeSectors p')) ps with
          | None => None
          | Some ps' => Some (p' :: ps')
          end
      end
  end.

(** The megabytes a partition is given. *)
Definition size_mb (extra : Z) (p : PartitionInfo) : Z :=
  partitionSizeNominal p + (if wantMaximised p then extra else 0).

(** Each partition starts after the end of the previous one; one without a fixed
    offset starts on a 4 MiB boundary and leaves [PARTITION_GAP] sectors. *)
Fixpoint disjoint_from (lo : Z) (ps ps' : list PartitionInfo) : Prop :=
  match ps, ps' with
  | [], [] => True
  | p :: ps, p' :: ps' =>
      lo < offset p' /\
      (offset p = 0 -> lo + PARTITION_GAP <= offset p' /\ offset p' mod PARTITION_ALIGNMENT = 0) /\
      (offset p <> 0 -> offset p' = offset p) /\
      0 < partitionSizeSectors p' /\
      disjoint_from (offset p' + partitionSizeSectors p') ps ps'
  | _, _ => False
  end.

(** Sectors that certainly suffice for a partition, its gap and its padding. *)
Definition room (extra : Z) (p : PartitionInfo) : Z := (partitionSizeNominal p + extra + 10) * 2048.
Fixpoint rooms (extra : Z) (ps : list PartitionInfo) : Z :=
  match ps with [] => 0 | p :: ps => room extra p + rooms extra ps end.

Lemma rooms_nonneg extra ps :
  0 <= extra -> Forall (fun p => 0 < partitionSizeNominal p) ps -> 0 <= rooms extra ps.
Proof. intros He. induction 1 as [|p ps Hp _ IH]; cbn in *; [|unfold room]; lia. Qed.

Ltac zdiv := Z.to_euclidean_division_equations; lia.

Section Step.
Context (extra total B : Z) (p : PartitionInfo) (off : Z).
Hypothesis Hextra : 0 <= extra.
Hypothesis Hnom : 0 < partitionSizeNominal p.
Hypothesis Hfix : 0 <= offset p <= B.
Hypothesis Hoff : 0 <= off <= B.
Hypothesis HB : B + room extra p <= 2147483647.
Hypothesis Htot : 0 <= total <= 2147483647.

Lemma start_of_spec o :
  start_of p off = Some o ->
  off < o /\ o <= B + 8194 /\
  (offset p <> 0 -> o = offset p) /\
  (offset p = 0 -> off + 2 <= o < off + 2 + 8192 /\ o mod 8192 = 0).
Proof.
  unfold start_of, PARTITION_GAP, PARTITION_ALIGNMENT. unfold room in HB.
  destruct (offset p =? 0) eqn:E; bool_to_prop; cbn [negb].
  - rewrite (i32_id (off + 2)) by (unfold is_i32; lia).
    rewrite rem_nonneg by lia.
    destruct (_ =? 0) eqn:E2; bool_to_prop; cbn [negb]; intros [= <-].
    + repeat split; try lia; zdiv.
    + rewrite i32_id by (unfold is_i32; zdiv). repeat split; zdiv.
  - destruct (_ <=? _) eqn:E2; [done|]. bool_to_prop. intros [= <-]. lia.
Qed.

Lemma start_of_free : offset p = 0 -> is_Some (start_of p off).
Proof. unfold start_of. intros ->. cbn. eauto. Qed.

Lemma size_mb_bounds : 0 < size_mb extra p <= partitionSizeNominal p + extra.
Proof. unfold size_mb. destruct (wantMaximised p); lia. Qed.

Lemma size_mb_i32 :
  i32 ((if wantMaximised p then i32 (partitionSizeNominal p + extra)
        else partitionSizeNominal p) * 2048) = size_mb extra p * 2048.
Proof.
  unfold size_mb. unfold room in HB.
  destruct (wantMaximised p); rewrite !i32_id; unfold is_i32; try rewrite i32_id;
    unfold is_i32; lia.
Qed.

Lemma sectors_of_last o :
  off < o <= B + 8194 ->
  let sz := sectors_of extra total true p o in
  (sz = size_mb extra p * 2048) \/
  (wantMaximised p = true /\ size_mb extra p * 2048 < sz /\ o + sz = total).
Proof.
  intros Ho sz. subst sz. unfold sectors_of. cbv zeta. rewrite size_mb_i32.
  pose proof size_mb_bounds. unfold room in HB.
  rewrite (i32_id (total - o)) by (unfold is_i32; lia).
  destruct (decide (is_i32 (total - o - size_mb extra p * 2048))) as [Hi|Hi].
  - rewrite i32_id by done.
    destruct (0 <? _) eqn:E; cbn; [|by left]. bool_to_prop.
    destruct (wantMaximised p); [|by left].
    right. rewrite i32_id by (unfold is_i32; lia). lia.
  - exfalso. apply Hi. unfold is_i32. lia.
Qed.

Lemma sectors_of_inner o :
  let sz := sectors_of extra total false p o in
  size_mb extra p * 2048 - 2 <= sz <= size_mb extra p * 2048 + 8191 /\
  (wantMaximised p = true -> (sz + 2) mod 8192 = 0) /\
  (wantMaximised p = false ->
   sz = if bool_decide ((size_mb extra p * 2048) mod 8192 = 0 /\ fstype p <> "raw")
        then size_mb extra p * 2048 - 2 else size_mb extra p * 2048).
Proof.
  intros sz. subst sz. unfold sectors_of, PARTITION_GAP, PARTITION_ALIGNMENT. cbv zeta.
  rewrite size_mb_i32. pose proof size_mb_bounds. unfold room in HB.
  set (m := size_mb extra p) in *. rewrite (rem_nonneg (m * 2048) 8192) by lia.
  assert (Hb : forall b : bool,
    (if b then i32 (m * 2048 - 2) else m * 2048) = (if b then m * 2048 - 2 else m * 2048)).
  { intros []; [|done]. apply i32_id. unfold is_i32. lia. }
  rewrite Hb. clear Hb.
  set (b := (_ =? 0) && _).
  assert (Hbd : b = bool_decide ((m * 2048) mod 8192 = 0 /\ fstype p <> "raw")).
  { subst b. rewrite bool_decide_and, bool_decide_not. f_equal.
    destruct (Z.eqb_spec ((m * 2048) mod 8192) 0); symmetry;
      [by apply bool_decide_eq_true | by apply bool_decide_eq_false]. }
  rewrite <- Hbd.
  set (sec := if b then m * 2048 - 2 else m * 2048).
  assert (Hs : m * 2048 - 2 <= sec <= m * 2048) by (subst sec; destruct b; lia).
  rewrite (i32_id (sec + 2)) by (unfold is_i32; lia).
  rewrite (rem_nonneg (sec + 2) 8192) by lia.
  destruct (wantMaximised p); cbn [andb]; [|repeat split; try lia; try done].
  destruct ((sec + 2) mod 8192 =? 0) eqn:E; bool_to_prop; cbn [negb].
  - repeat split; try lia; try done.
  - rewrite i32_id by (unfold is_i32; zdiv).
    repeat split; try zdiv; try done.
Qed.
End Step.

(** ** The whole loop *)

Definition in_range (B : Z) (p : PartitionInfo) : Prop :=
  0 < partitionSizeNominal p /\ 0 <= offset p <= B.

Lemma place_inv extra total is_last p off p' :
  place extra total is_last p off = Some p' ->
  exists o, start_of p off = Some o /\ offset p' = o /\
            partitionSizeSectors p' = sectors_of extra total is_last p o /\
            wantMaximised p' = wantMaximised p.
Proof.
  unfold place. destruct (start_of p off) as [o|]; [|done]. intros [= <-]. by exists o.
Qed.

Section Layout.
Context (extra total : Z).
Hypothesis Hextra : 0 <= extra.
Hypothesis Htot : 0 <= total <= 2147483647.

(** Where the cursor stands after a partition that is not the last. *)
Lemma inner_end B p off o :
  in_range B p -> 0 <= off <= B -> B + room extra p <= 2147483647 ->
  start_of p off = Some o ->
  let sz := sectors_of extra total false p o in
  0 < sz /\ i32 (o + sz) = o + sz /\ 0 <= o + sz <= B + room extra p.
Proof.
  intros [Hn Hf] Ho HB Hs sz.
  destruct (start_of_spec extra B p off Hextra Hn Hf Ho HB o Hs) as (H1 & H2 & _).
  pose proof (sectors_of_inner extra total B p off Hextra Hn Hf Ho HB o) as (H3 & _).
  pose proof (size_mb_bounds extra p Hextra Hn). fold sz in H3.
  unfold room in *. rewrite i32_id; unfold is_i32; lia.
Qed.

Lemma layout_disjoint_aux ps : forall B off ps',
  Forall (in_range B) ps -> 0 <= off <= B -> B + rooms extra ps <= 2147483647 ->
  layout extra total off ps = Some ps' -> disjoint_from off ps ps'.
Proof.
  induction ps as [|p ps IH]; intros B off ps' Hr Ho HB; cbn [layout].
  { by intros [= <-]. }
  inversion_clear Hr as [|? ? Hp Hps]. pose proof Hp as [Hn Hf]. cbn [rooms] in HB.
  assert (0 <= rooms extra ps).
  { apply rooms_nonneg; [done|]. eapply Forall_impl; [exact Hps|]. by intros ? []. }
  destruct (place _ _ _ p off) as [p'|] eqn:Hp'; [|done].
  destruct (layout _ _ _ ps) as [ps''|] eqn:Hl; [|done]. intros [= <-].
  apply place_inv in Hp' as (o & Hs & Ho' & Hsz & _). rewrite Ho', Hsz in Hl. cbn [disjoint_from].
  rewrite Ho', Hsz.
  destruct (start_of_spec extra B p off Hextra Hn Hf Ho ltac:(lia) o Hs) as (H1 & H2 & H3 & H4).
  split; [done|]. split; [unfold PARTITION_GAP, PARTITION_ALIGNMENT; intros; lia|].
  split; [done|].
  destruct ps as [|p2 ps].
  - pose proof (sectors_of_last extra total B p off Hextra Hn Hf Ho ltac:(lia) Htot o ltac:(lia)).
    pose proof (size_mb_bounds extra p Hextra Hn).
    cbn in Hl. injection Hl as <-. split; [cbv zeta in *; lia|done].
  - destruct (inner_end B p off o Hp Ho ltac:(lia) Hs) as (H5 & H6 & H7).
    split; [done|]. rewrite H6 in Hl.
    eapply (IH (B + room extra p)); [| |lia|exact Hl].
    + eapply Forall_impl; [exact Hps|]. intros x [? ?]. split; unfold room in *; lia.
    + lia.
Qed.

(** The megabytes [checkPartition] charges for a partition. *)
Definition charge (p : PartitionInfo) : Z :=
  partitionSizeNominal p
  + (if wantMaximised p || negb ((partitionSizeNominal p * 2048) mod 8192 =? 0) then 4 else 0).

Fixpoint charges (ps : list PartitionInfo) : Z :=
  match ps with
  | [] => 0
  | p :: ps => charge p + (if wantMaximised p then extra else 0) + charges ps
  end.

(** The 4 MiB boundary the next partition starts on. *)
Definition next_start (off : Z) : Z := (off + 2 + 8191) / 8192 * 8192.

Lemma start_of_free_next B p off o :
  in_range B p -> 0 <= off <= B -> B + room extra p <= 2147483647 ->
  offset p = 0 -> start_of p off = Some o -> o = next_start off.
Proof.
  intros [Hn Hf] Ho HB H0 Hs.
  destruct (start_of_spec extra B p off Hextra Hn Hf Ho HB o Hs) as (_ & _ & _ & H).
  specialize (H H0). unfold next_start. zdiv.
Qed.

(** A partition that is not last costs at most what was charged for it. *)
Lemma inner_cost B p off o :
  in_range B p -> 0 <= off <= B -> B + room extra p <= 2147483647 ->
  offset p = 0 -> fstype p <> "raw" -> start_of p off = Some o ->
  next_start (o + sectors_of extra total false p o)
    <= o + (charge p + (if wantMaximised p then extra else 0)) * 2048.
Proof.
  intros Hp Ho HB H0 Hraw Hs. pose proof Hp as [Hn Hf].
  pose proof (start_of_free_next B p off o Hp Ho HB H0 Hs) as Hnext.
  pose proof (sectors_of_inner extra total B p off Hextra Hn Hf Ho HB o) as (H1 & H2 & H3).
  assert (Ho8 : o mod 8192 = 0) by (rewrite Hnext; unfold next_start; apply Z.mod_mul; lia).
  set (sz := sectors_of extra total false p o) in *. clearbody sz.
  unfold charge, size_mb in *. clear Hnext Hs HB.
  unfold next_start. destruct (wantMaximised p); cbn [orb].
  - specialize (H2 eq_refl). zdiv.
  - specialize (H3 eq_refl). rewrite Z.add_0_r in H3. case_bool_decide as Hb.
    + destruct (_ =? 0) eqn:E; bool_to_prop; cbn [negb]; [zdiv|lia].
    + destruct (_ =? 0) eqn:E; bool_to_prop; cbn [negb]; [tauto|zdiv].
Qed.

Lemma layout_fits_aux ps : forall B off ps',
  Forall (in_range B) ps -> Forall (fun p => offset p = 0 /\ fstype p <> "raw") ps ->
  0 <= off <= B -> B + rooms extra ps <= 2147483647 ->
  next_start off + charges ps * 2048 <= total ->
  layout extra total off ps = Some ps' ->
  Forall (fun p' => offset p' + partitionSizeSectors p' <= total) ps'.
Proof.
  induction ps as [|p ps IH]; intros B off ps' Hr Hraw Ho HB Hfit; cbn [layout].
  { by intros [= <-]. }
  inversion_clear Hr as [|? ? Hp Hps]. inversion_clear Hraw as [|? ? [H0 Hfs] Hraws].
  pose proof Hp as [Hn Hf]. cbn [rooms charges] in *.
  assert (0 <= rooms extra ps).
  { apply rooms_nonneg; [done|]. eapply Forall_impl; [exact Hps|]. by intros ? []. }
  assert (Hch : 0 <= charges ps).
  { clear -Hps Hextra. induction Hps as [|x l [Hx _] _ IHl]; cbn; [lia|].
    unfold charge. destruct (wantMaximised x), (negb _); cbn; lia. }
  destruct (place _ _ _ p off) as [p'|] eqn:Hp'; [|done].
  destruct (layout _ _ _ ps) as [ps''|] eqn:Hl; [|done]. intros [= <-].
  apply place_inv in Hp' as (o & Hs & Ho' & Hsz & _). rewrite Ho', Hsz in Hl.
  pose proof (start_of_free_next B p off o Hp Ho ltac:(lia) H0 Hs) as Hnext.
  constructor; [rewrite Ho', Hsz|].
  - destruct ps as [|p2 ps].
    + pose proof (start_of_spec extra B p off Hextra Hn Hf Ho ltac:(lia) o Hs) as (H1 & H2 & _).
      pose proof (sectors_of_last extra total B p off Hextra Hn Hf Ho ltac:(lia) Htot o ltac:(lia)) as HL.
      cbv zeta in HL. unfold charge, size_mb in *. cbn [charges] in *.
      destruct (wantMaximised p), (negb _); cbn [orb] in *; lia.
    + pose proof (sectors_of_inner extra total B p off Hextra Hn Hf Ho ltac:(lia) o) as (H1 & _).
      pose proof (inner_cost B p off o Hp Ho ltac:(lia) H0 Hfs Hs) as H2.
      unfold next_start in H2. clear -H2 Hfit Hch Hnext. subst o. zdiv.
  - destruct ps as [|p2 ps]; [cbn in Hl; injection Hl as <-; constructor|].
    destruct (inner_end B p off o Hp Ho ltac:(lia) Hs) as (H5 & H6 & H7).
    rewrite H6 in Hl.
    eapply (IH (B + room extra p)); [|exact Hraws| |lia| |exact Hl].
    + eapply Forall_impl; [exact Hps|]. intros z [? ?]. split; unfold room in *; lia.
    + lia.
    + pose proof (inner_cost B p off o Hp Ho ltac:(lia) H0 Hfs Hs). lia.
Qed.

Lemma layout_free ps : forall B off,
  Forall (in_range B) ps -> Forall (fun p => offset p = 0) ps ->
  exists ps', layout extra total off ps = Some ps'.
Proof.
  induction ps as [|p ps IH]; intros B off Hr H0; cbn [layout]; [by eexists|].
  inversion_clear Hr as [|? ? Hp Hps]. inversion_clear H0 as [|? ? Hz Hzs].
  unfold place. destruct (start_of_free p off Hz) as [o ->].
  destruct (IH B (i32 (offset (setPartitionSizeSectors
      (sectors_of extra total (match ps with [] => true | _ => false end) p o) (setOffset o p))
      + partitionSizeSectors (setPartitionSizeSectors
      (sectors_of extra total (match ps with [] => true | _ => false end) p o) (setOffset o p))))
      Hps Hzs) as [ps' Hps'].
  rewrite Hps'. by eexists.
Qed.
End Layout.

(** ** The loop on the store refines the loop on values *)

(** The objects a list of pointers refers to. *)
Definition deref_all (h : gmap ptr PartitionInfo) (qs : list ptr) : list PartitionInfo :=
  omap (fun q => h !! q) qs.

Definition valid_ptrs (h : gmap ptr PartitionInfo) (qs : list ptr) : Prop :=
  Forall (fun q => is_Some (h !! q)) qs.

Lemma deref_all_cons h q qs p : h !! q = Some p -> deref_all h (q :: qs) = p :: deref_all h qs.
Proof. intros H. unfold deref_all. cbn. by rewrite H. Qed.

Lemma deref_all_insert_ne h q p qs : q ∉ qs -> deref_all (<[q := p]> h) qs = deref_all h qs.
Proof.
  unfold deref_all. induction qs as [|q' qs IH]; [done|]. intros Hq.
  rewrite not_elem_of_cons in Hq. destruct Hq. cbn.
  rewrite lookup_insert_ne by done. destruct (h !! q'); [f_equal|]; auto.
Qed.

Lemma valid_ptrs_insert h q p qs : valid_ptrs h qs -> valid_ptrs (<[q := p]> h) qs.
Proof.
  intros H. eapply Forall_impl; [exact H|]. cbn. intros q' [p' Hp'].
  rewrite lookup_insert. case_decide; eauto.
Qed.

Lemma place_all_layout extra total lst qs : forall off h,
  NoDup qs -> valid_ptrs h qs -> (qs <> [] -> last qs = Some lst) ->
  exists b h', place_all extra total lst qs off h = Some (b, h') /\
    (forall q, q ∉ qs -> h' !! q = h !! q) /\
    match layout extra total off (deref_all h qs) with
    | None => b = false
    | Some ps' => b = true /\ valid_ptrs h' qs /\ deref_all h' qs = ps'
    end.
Proof.
  induction qs as [|q qs IH]; intros off h Hnd Hv Hl; cbn [place_all].
  { exists true, h. repeat split; done. }
  inversion_clear Hnd as [|? ? Hni Hnd']. inversion_clear Hv as [|? ? [p Hp] Hv'].
  rewrite (deref_all_cons h q qs p Hp). cbn [layout]. rewrite Hp.
  assert (Hlast : bool_decide (q = lst) = match deref_all h qs with [] => true | _ => false end).
  { destruct qs as [|q2 qs].
    - specialize (Hl ltac:(done)). injection Hl as ->. by apply bool_decide_eq_true.
    - inversion_clear Hv' as [|? ? [p2 Hp2] _]. rewrite (deref_all_cons h q2 qs p2 Hp2).
      apply bool_decide_eq_false. intros ->. specialize (Hl ltac:(done)).
      apply Hni, last_Some_elem_of. done. }
  rewrite Hlast. set (il := match deref_all h qs with [] => true | _ => false end).
  destruct (place extra total il p off) as [p'|].
  2:{ exists false, h. done. }
  destruct (IH (i32 (offset p' + partitionSizeSectors p')) (<[q := p']> h)) as (b & h' & E & Hout & HL).
  - done.
  - by apply valid_ptrs_insert.
  - intros Hne. destruct qs; [done|]. by apply Hl.
  - exists b, h'. split; [exact E|]. split.
    { intros q' [? ?]%not_elem_of_cons. rewrite Hout by done. by apply lookup_insert_ne. }
    rewrite deref_all_insert_ne in HL by done.
    destruct (layout _ _ _ (deref_all h qs)) as [ps'|]; [|done].
    destruct HL as (-> & Hv2 & Hps).
    assert (Hq : h' !! q = Some p') by (rewrite Hout by done; apply lookup_insert_eq).
    repeat split; [constructor; eauto|]. rewrite (deref_all_cons h' q qs p' Hq). by f_equal.
Qed.

Lemma rotate_primary_perm h n l :
  valid_ptrs h l -> exists l', rotate_primary h n l = Some l' /\ l' ≡ₚ l.
Proof.
  destruct l as [|q l]; cbn; intros Hv; [by exists []|].
  inversion_clear Hv as [|? ? [p Hp] _]. rewrite Hp. eexists. split; [done|].
  destruct (_ =? _); [|done]. by rewrite Permutation_app_comm.
Qed.

Lemma valid_ptrs_perm h l l' : l ≡ₚ l' -> valid_ptrs h l -> valid_ptrs h l'.
Proof. unfold valid_ptrs. by intros ->. Qed.

(** ** The counters that [checkPartition] keeps *)

Lemma charges_perm extra ps ps' : ps ≡ₚ ps' -> charges extra ps = charges extra ps'.
Proof. induction 1; cbn; lia. Qed.
Lemma rooms_perm extra ps ps' : ps ≡ₚ ps' -> rooms extra ps = rooms extra ps'.
Proof. induction 1; cbn; lia. Qed.

Fixpoint count_expand (ps : list PartitionInfo) : Z :=
  match ps with [] => 0 | p :: ps => (if wantMaximised p then 1 else 0) + count_expand ps end.

Lemma count_expand_perm ps ps' : ps ≡ₚ ps' -> count_expand ps = count_expand ps'.
Proof. induction 1; cbn; lia. Qed.

Lemma charges_split extra ps : charges extra ps = charges 0 ps + extra * count_expand ps.
Proof. induction ps as [|p ps IH]; cbn; [lia|]. destruct (wantMaximised p); lia. Qed.

(** What the planner needs to know about a partition it was given. *)
Definition plain (p : PartitionInfo) : Prop :=
  0 < partitionSizeNominal p < 1048576 /\ offset p = 0 /\ fstype p <> "raw".

Lemma charge_range p : plain p -> 0 < charge p <= 1048580.
Proof. intros (H & _). unfold charge. destruct (_ || _); lia. Qed.

Lemma charges_range ps :
  Forall plain ps -> 0 <= charges 0 ps <= Z.of_nat (length ps) * 1048580.
Proof.
  induction 1 as [|p ps Hp _ IH]; cbn [charges length]; [lia|].
  pose proof (charge_range p Hp). destruct (wantMaximised p); lia.
Qed.

Lemma count_expand_range ps : 0 <= count_expand ps <= Z.of_nat (length ps).
Proof. induction ps as [|p ps IH]; cbn [count_expand length]; [lia|]. destruct (wantMaximised p); lia. Qed.

Lemma plain_device d p : plain p <-> plain (setPartitionDevice d p).
Proof. done. Qed.

(** ** The invariant of [checkPartitions] *)

Definition strip (p : PartitionInfo) : PartitionInfo := setPartitionDevice "" p.

Lemma charges_strip extra ps : charges extra (strip <$> ps) = charges extra ps.
Proof. induction ps as [|p ps IH]; cbn; [done|]. unfold charge. cbn. by rewrite IH. Qed.
Lemma count_strip ps : count_expand (strip <$> ps) = count_expand ps.
Proof. induction ps as [|p ps IH]; cbn; [done|]. by rewrite IH. Qed.
Lemma plain_strip ps : Forall plain (strip <$> ps) <-> Forall plain ps.
Proof. by rewrite Forall_fmap. Qed.
Lemma length_strip (ps : list PartitionInfo) : length (strip <$> ps) = length ps.
Proof. apply length_fmap. Qed.

(** Two stores that differ only in the device names. *)
Definition same_plan (h h' : gmap ptr PartitionInfo) : Prop :=
  forall q, strip <$> h' !! q = strip <$> h !! q.

Lemma same_plan_deref h h' qs :
  same_plan h h' -> strip <$> deref_all h' qs = strip <$> deref_all h qs.
Proof.
  intros H. unfold deref_all. induction qs as [|q qs IH]; cbn; [done|].
  specialize (H q). destruct (h' !! q), (h !! q); try done.
  apply (inj Some) in H. rewrite !fmap_cons. by f_equal.
Qed.

Lemma same_plan_valid h h' qs : same_plan h h' -> valid_ptrs h qs -> valid_ptrs h' qs.
Proof.
  intros H Hv. eapply Forall_impl; [exact Hv|]. cbn. intros q [p Hp]. specialize (H q).
  rewrite Hp in H. destruct (h' !! q); [eauto|done].
Qed.

Section Planner.
Context {M : Type -> Type} `{QMapLaws M}.
Variable number : Z -> string.
Variable contains_ci : string -> string -> bool.
Abbreviation IM := (@InstallManager M).

Record numbers_ok (m : M ptr) : Prop := {
  no_system : forall k, k ∈ qm_keys m -> k <> 1 /\ k <> 5;
  not_both : ~ (2 ∈ qm_keys m /\ 4 ∈ qm_keys m);
}.

Record planned (h0 : gmap ptr PartitionInfo) (s0 : IM) (dn : list ptr) (s : IM) : Prop := {
  pl_values : qm_values (partitionMap s) ≡ₚ dn;
  pl_heap : same_plan h0 (heap s);
  pl_numbers : numbers_ok (partitionMap s);
  pl_nominal : totalnominalsize s = charges 0 (deref_all h0 dn);
  pl_expand : numexpandparts s = count_expand (deref_all h0 dn);
  pl_consts : startSector s = startSector s0 /\ totalSectors s = totalSectors s0 /\
              availableMB s = availableMB s0 /\
              extraSpacePerPartition s = extraSpacePerPartition s0;
}.

Lemma qm_contains_false {V} k (m : M V) : qm_contains k m = false -> qm_lookup k m = None.
Proof. unfold qm_contains. by destruct (qm_lookup k m). Qed.

Lemma numbers_ok_insert n q m :
  numbers_ok m -> number_refused n m = false -> numbers_ok (qm_insert n q m).
Proof.
  intros [H1 H2] Hr. unfold number_refused in Hr. bool_to_prop.
  assert (Hkeys : forall k, k ∈ qm_keys (qm_insert n q m) <-> k = n \/ k ∈ qm_keys m).
  { intros k. rewrite !qm_elem_keys, qm_lookup_insert. case_decide; subst.
    - split; [by left|by eauto].
    - split; [by right|by intros [->|]]. }
  split.
  - intros k [->|Hk]%Hkeys; [done|by apply H1].
  - rewrite !Hkeys, !qm_elem_keys in *. unfold qm_contains in *.
    intros [Ha Hb].
    destruct Ha as [Ha|[? Ha]], Hb as [Hb|[? Hb]]; subst; try lia.
    + rewrite Hb in *. cbn in *. done.
    + rewrite Ha in *. cbn in *. done.
    + apply H2. split; eauto.
Qed.

Lemma checkPartition_planned h0 s0 dn s q p s' :
  planned h0 s0 dn s -> q ∉ dn -> h0 !! q = Some p -> plain p ->
  Forall plain (deref_all h0 dn) -> Z.of_nat (length dn) <= 2000 ->
  checkPartition number q s = Some (true, s') -> planned h0 s0 (q :: dn) s'.
Proof.
  intros [Hv Hh Hn Hnom Hex Hc] Hq Hp Hpl Hpls Hlen. unfold checkPartition.
  pose proof (Hh q) as Hhq. rewrite Hp in Hhq.
  destruct (heap s !! q) as [p'|] eqn:Hp'; [|done]. cbn in Hhq.
  assert (Hps : strip p' = strip p) by (by apply (inj Some)).
  destruct (number_refused _ _) eqn:Hr; [done|]. intros [= <-]. cbn [partitionMap count_partition] in *.
  pose proof (charges_range _ Hpls) as Hch. pose proof (count_expand_range (deref_all h0 dn)) as Hce.
  assert (Hl : Z.of_nat (length (deref_all h0 dn)) <= 2000).
  { enough (length (deref_all h0 dn) <= length dn)%nat by lia.
    clear. unfold deref_all. induction dn as [|a l IH]; cbn; [lia|]. destruct (h0 !! a); cbn; lia. }
  assert (Hatt : wantMaximised p' = wantMaximised p /\
                 partitionSizeNominal p' = partitionSizeNominal p).
  { unfold strip in Hps. destruct p, p'. cbn in *. injection Hps. intros. by subst. }
  destruct Hatt as [Hwm Hns].
  pose proof (charge_range p Hpl) as Hcr. destruct Hpl as [Hrange _].
  unfold charge in Hcr.
  split; cbn [partitionMap set_totalnominalsize set_partitionMap set_heap count_partition
              heap totalnominalsize numexpandparts startSector totalSectors availableMB].
  - rewrite qm_values_insert_fresh; [by rewrite Hv|].
    apply qm_contains_false. unfold number_refused in Hr. by bool_to_prop.
  - intros q'. destruct (decide (q' = q)) as [->|Hne].
    + rewrite lookup_insert_eq, Hp. cbn. f_equal. by rewrite <- Hps.
    + rewrite lookup_insert_ne by done. apply Hh.
  - by apply numbers_ok_insert.
  - rewrite (deref_all_cons h0 q dn p Hp). cbn [charges].
    unfold alignment_charge, charge, PARTITION_ALIGNMENT. rewrite Hwm, Hns, Hnom.
    rewrite (i32_id (partitionSizeNominal p * 2048)) by (unfold is_i32; lia).
    rewrite rem_nonneg by lia. change (Z.quot 8192 2048) with 4.
    rewrite (i32_id (_ + partitionSizeNominal p)) by (unfold is_i32; lia).
    rewrite i32_id; [|unfold is_i32]; destruct (wantMaximised p), (negb _); cbn [orb] in *; lia.
  - rewrite (deref_all_cons h0 q dn p Hp). cbn [count_expand]. rewrite Hwm, Hex.
    destruct (wantMaximised p); [|lia]. rewrite i32_id; unfold is_i32; lia.
  - done.
Qed.

Lemma checkPartitions_planned h0 s0 qs : forall dn s s',
  planned h0 s0 dn s -> NoDup (qs ++ dn) -> valid_ptrs h0 (qs ++ dn) ->
  Forall plain (deref_all h0 (qs ++ dn)) -> Z.of_nat (length (qs ++ dn)) <= 2000 ->
  checkPartitions number qs s = Some (true, s') ->
  exists dn', dn' ≡ₚ qs ++ dn /\ planned h0 s0 dn' s'.
Proof.
  induction qs as [|q qs IH]; intros dn s s' HP Hnd Hv Hpl Hlen; cbn [checkPartitions app].
  { intros [= <-]. by exists dn. }
  destruct (checkPartition number q s) as [[[] s1]|] eqn:E; try done. intros Hrest.
  cbn [app] in *. inversion_clear Hnd as [|? ? Hni Hnd']. inversion_clear Hv as [|? ? [p Hp] Hv'].
  rewrite (deref_all_cons h0 q _ p Hp) in Hpl. inversion_clear Hpl as [|? ? Hplp Hpls].
  rewrite not_elem_of_app in Hni. destruct Hni as [Hni1 Hni2].
  cbn [length] in Hlen. rewrite length_app in Hlen.
  pose proof Hpls as Hpls'. unfold deref_all in Hpls'. rewrite omap_app, Forall_app in Hpls'.
  destruct (IH (q :: dn) s1 s') as (dn' & Hperm & HP').
  - eapply checkPartition_planned; eauto; [apply Hpls'|lia].
  - rewrite <- Permutation_middle. constructor; [|done]. by rewrite not_elem_of_app.
  - eapply valid_ptrs_perm; [apply Permutation_middle|]. constructor; eauto.
  - unfold deref_all. rewrite <- Permutation_middle. cbn. rewrite Hp. by constructor.
  - rewrite length_app. cbn. lia.
  - done.
  - exists dn'. split; [|done]. rewrite Hperm. by rewrite <- Permutation_middle.
Qed.

End Planner.

Section Card.
(** A card whose first free sector leaves [PARTITION_GAP] sectors before a
    4 MiB boundary (what [PreSetup] creates) and whose size is not two sectors
    or less above a MiB count from there. *)
Record card_ok (start total n : Z) : Prop := {
  co_start : 0 <= start <= total;
  co_align : start mod PARTITION_ALIGNMENT = PARTITION_ALIGNMENT - PARTITION_GAP;
  co_slack : PARTITION_GAP <= (total - start) mod 2048;
  co_size : (n + 3) * (total + 20480) <= 2147483647;
}.

Lemma rooms_bound extra ps :
  Forall plain ps -> 0 <= extra ->
  rooms extra ps <= 2048 * charges 0 ps + Z.of_nat (length ps) * ((extra + 10) * 2048).
Proof.
  intros Hp He. induction Hp as [|p ps [Hn _] _ IH]; cbn [rooms charges length]; [lia|].
  unfold room, charge. destruct (wantMaximised p), (negb _); cbn [orb]; lia.
Qed.

Lemma plain_in_range ps B :
  0 <= B -> Forall plain ps -> Forall (in_range B) ps.
Proof. intros HB Hp. eapply Forall_impl; [exact Hp|]. intros p (? & ? & _). split; lia. Qed.

Lemma rotations_perm h l :
  valid_ptrs h l ->
  exists l', (l1 ← rotate_primary h 2 l; l2 ← rotate_primary h 3 l1; rotate_primary h 4 l2) = Some l'
    /\ l' ≡ₚ l.
Proof.
  intros Hv. destruct (rotate_primary_perm h 2 l Hv) as (l1 & E1 & P1).
  assert (Hv1 : valid_ptrs h l1) by (eapply valid_ptrs_perm; [symmetry; exact P1|done]).
  destruct (rotate_primary_perm h 3 l1 Hv1) as (l2 & E2 & P2).
  assert (Hv2 : valid_ptrs h l2) by (eapply valid_ptrs_perm; [symmetry; exact P2|done]).
  destruct (rotate_primary_perm h 4 l2 Hv2) as (l3 & E3 & P3).
  exists l3. rewrite E1. cbn. rewrite E2. cbn. rewrite E3. split; [done|]. by rewrite P3, P2.
Qed.

(** The extra megabytes are non-negative and do not exceed what is left. *)
Lemma extra_bounds avail nominal cnt :
  0 <= nominal <= avail -> avail <= 1048576 -> 0 < cnt ->
  let extra := Z.quot (i32 (avail - nominal)) cnt in
  0 <= extra <= avail /\ extra * cnt <= avail - nominal.
Proof.
  intros Hn Ha Hc extra. subst extra. rewrite i32_id by (unfold is_i32; lia).
  rewrite quot_nonneg by lia. pose proof (Z.mul_div_le (avail - nominal) cnt Hc).
  split; [|lia]. split; [apply Z.div_pos; lia|]. nia.
Qed.

(** What a successful layout of the whole card means. *)
Definition good_layout (start total : Z) (ps ps' : list PartitionInfo) : Prop :=
  disjoint_from start ps ps' /\
  Forall (fun p' => offset p' + partitionSizeSectors p' <= total) ps'.

Lemma layout_good start total extra ps :
  card_ok start total (Z.of_nat (length ps)) -> Forall plain ps ->
  0 <= extra -> charges extra ps <= (total - start) / 2048 ->
  extra <= (total - start) / 2048 ->
  exists ps', layout extra total start ps = Some ps' /\ good_layout start total ps ps'.
Proof.
  intros [Hs Ha Hsl Hsz] Hp He Hc He2. unfold PARTITION_ALIGNMENT, PARTITION_GAP in *.
  assert (Hfree : Forall (fun p => offset p = 0) ps)
    by (eapply Forall_impl; [exact Hp|]; by intros ? (_ & ? & _)).
  destruct (layout_free extra total ps start start (plain_in_range ps start ltac:(lia) Hp) Hfree)
    as [ps' Hl].
  pose proof (rooms_bound extra ps Hp He) as Hrb.
  pose proof (charges_split extra ps) as Hcs. pose proof (count_expand_range ps) as Hcr.
  assert (Hroom : start + rooms extra ps <= 2147483647).
  { assert (0 <= extra * count_expand ps) by nia.
    set (n := Z.of_nat (length ps)) in *.
    assert (n * ((extra + 10) * 2048) <= n * (total + 20480)) by (apply Z.mul_le_mono_nonneg_l; [lia|zdiv]).
    assert (2048 * charges 0 ps <= total) by zdiv. lia. }
  exists ps'. split; [done|]. split.
  - eapply (layout_disjoint_aux extra total He ltac:(lia) ps start start); eauto; [|lia].
    apply plain_in_range; [lia|done].
  - eapply (layout_fits_aux extra total He ltac:(lia) ps start start); eauto; [| |lia|].
    + apply plain_in_range; [lia|done].
    + eapply Forall_impl; [exact Hp|]. by intros ? (_ & ? & ?).
    + unfold next_start. zdiv.
Qed.

End Card.

Section Planner.
Context {M : Type -> Type} `{QMapLaws M}.
Abbreviation IM := (@InstallManager M).

Lemma calculateSpaceRequirements_good h0 s0 dn s s' :
  planned h0 s0 dn s -> extraSpacePerPartition s0 = 0 ->
  NoDup dn -> valid_ptrs h0 dn -> Forall plain (deref_all h0 dn) ->
  card_ok (startSector s0) (totalSectors s0) (Z.of_nat (length dn)) ->
  Z.of_nat (length dn) <= 2000 ->
  availableMB s0 = (totalSectors s0 - startSector s0) / 2048 ->
  calculateSpaceRequirements s = Some (true, s') ->
  exists order, order ≡ₚ dn /\ valid_ptrs (heap s') order /\
    good_layout (startSector s0) (totalSectors s0)
      (deref_all (heap s) order) (deref_all (heap s') order).
Proof.
  intros [Hv Hh Hn Hnom Hex (Hc1 & Hc2 & Hc3 & Hc4)] He0 Hnd Hva Hp Hcard Hlen Hav.
  unfold calculateSpaceRequirements. cbv zeta.
  assert (Hlen' : length (deref_all h0 dn) = length dn).
  { clear -Hva. induction Hva as [|q l [p Hq] _ IH]; [done|]. rewrite (deref_all_cons h0 q l p Hq).
    cbn. by rewrite IH. }
  pose proof (charges_range _ Hp) as Hcr. pose proof (count_expand_range (deref_all h0 dn)) as Hcx.
  set (s1 := if negb (numexpandparts s =? 0) then _ else s).
  assert (Hs1 : heap s1 = heap s /\ partitionMap s1 = partitionMap s /\ startSector s1 = startSector s
    /\ totalSectors s1 = totalSectors s /\ availableMB s1 = availableMB s
    /\ totalnominalsize s1 = totalnominalsize s) by (subst s1; by destruct (negb _)).
  destruct Hs1 as (-> & -> & -> & -> & -> & ->).
  destruct (availableMB s <? totalnominalsize s) eqn:Hfull; [done|]. bool_to_prop.
  assert (HE : 0 <= extraSpacePerPartition s1 <= availableMB s /\
    extraSpacePerPartition s1 * count_expand (deref_all h0 dn) <= availableMB s - totalnominalsize s).
  { subst s1. destruct (numexpandparts s =? 0) eqn:E0; bool_to_prop; cbn [negb].
    - rewrite Hc4, He0. lia.
    - cbn [extraSpacePerPartition set_extra]. rewrite <- Hex. apply extra_bounds; try lia.
      destruct Hcard. rewrite Hc3, Hav. unfold PARTITION_GAP, PARTITION_ALIGNMENT in *. zdiv. }
  clearbody s1. destruct HE as [HE1 HE2].
  assert (Hvh : valid_ptrs (heap s) (qm_values (partitionMap s))).
  { eapply same_plan_valid; [exact Hh|]. eapply valid_ptrs_perm; [symmetry; exact Hv|done]. }
  destruct (rotations_perm (heap s) (qm_values (partitionMap s)) Hvh) as (order & Hrot & Hperm).
  destruct (rotate_primary (heap s) 2 _) as [l1|]; [|done]. cbn in Hrot |- *.
  destruct (rotate_primary (heap s) 3 _) as [l2|]; [|done]. cbn in Hrot |- *.
  rewrite Hrot. cbn. clear Hrot l1 l2.
  assert (Hod : order ≡ₚ dn) by (by rewrite Hperm).
  assert (Hvo : valid_ptrs (heap s) order) by (eapply valid_ptrs_perm; [symmetry; exact Hperm|done]).
  destruct (place_all_layout (extraSpacePerPartition s1) (totalSectors s) (default 0%nat (last order))
              order (startSector s) (heap s)) as (b & h' & E & Hout & HL).
  { by rewrite Hod. } { done. }
  { intros Hne. destruct (last order) eqn:El; [done|]. apply last_None in El. done. }
  unfold ptr in *. rewrite E. intros [= -> <-]. cbn [heap set_heap].
  assert (Hdp : strip <$> deref_all (heap s) order ≡ₚ strip <$> deref_all h0 dn).
  { rewrite <- (same_plan_deref h0 (heap s) dn Hh). apply fmap_Permutation.
    unfold deref_all. by rewrite Hod. }
  destruct (layout_good (startSector s0) (totalSectors s0) (extraSpacePerPartition s1)
              (deref_all (heap s) order)) as (ps' & Hl & Hg).
  - rewrite <- (length_strip (deref_all (heap s) order)), Hdp, length_strip, Hlen'. done.
  - apply plain_strip. rewrite Hdp. by apply plain_strip.
  - lia.
  - rewrite <- charges_strip, (charges_perm _ _ _ Hdp), charges_strip, charges_split, <- Hnom. lia.
  - lia.
  - rewrite <- Hc1, <- Hc2 in Hl. rewrite Hl in HL. destruct HL as (_ & Hv' & <-).
    exists order. done.
Qed.
End Planner.

(** ** Properties *)

Section Properties.
Context {M : Type -> Type} `{QMapLaws M}.
Variable number : Z -> string.
Variable contains_ci : string -> string -> bool.

Lemma newInstallManager_planned start5 size5 total h0 :
  planned h0 (newInstallManager (M:=M) start5 size5 total h0) []
    (newInstallManager (M:=M) start5 size5 total h0).
Proof.
  split; cbn; try done.
  - unfold qm_values. by rewrite qm_items_empty.
  - split; unfold qm_keys; rewrite qm_items_empty; [intros k Hk|intros [Hk _]]; inversion Hk.
Qed.


(** Every entry of the map names the device of its object. *)
Definition devices_ok (m : M ptr) (h : gmap ptr PartitionInfo) : Prop :=
  forall k q, qm_lookup k m = Some q ->
    exists p, h !! q = Some p /\ partitionDevice p = ("/dev/mmcblk0p" +:+ number k)%string.

Lemma checkPartitions_numbers_aux qs : forall dn s s',
  NoDup (qs ++ dn) -> qm_values (partitionMap s) ≡ₚ dn ->
  numbers_ok (partitionMap s) -> devices_ok (partitionMap s) (heap s) ->
  checkPartitions number qs s = Some (true, s') ->
  qm_values (partitionMap s') ≡ₚ qs ++ dn /\ numbers_ok (partitionMap s') /\
  devices_ok (partitionMap s') (heap s').
Proof.
  induction qs as [|q qs IH]; intros dn s s' Hnd Hv Hn Hd; cbn [checkPartitions app].
  { by intros [= <-]. }
  unfold checkPartition. destruct (heap s !! q) as [p|] eqn:Hp; [|done].
  destruct (number_refused _ _) eqn:Hr; [done|]. intros Hrest.
  cbn [app] in Hnd. inversion_clear Hnd as [|? ? Hni Hnd'].
  rewrite not_elem_of_app in Hni. destruct Hni as [Hni1 Hni2].
  cbn [partitionMap count_partition] in Hr.
  assert (Hfresh : qm_lookup (required_number p (partitionMap s)) (partitionMap s) = None).
  { apply qm_contains_false. unfold number_refused in Hr. by bool_to_prop. }
  apply (IH (q :: dn)) in Hrest as (H1 & H2 & H3).
  - split; [|done]. rewrite H1. by rewrite Permutation_middle.
  - rewrite <- Permutation_middle. constructor; [|done]. by rewrite not_elem_of_app.
  - cbn. rewrite qm_values_insert_fresh by done. by rewrite Hv.
  - by apply numbers_ok_insert.
  - intros k q'. cbn. rewrite qm_lookup_insert. case_decide as Ek.
    + intros [= <-]. rewrite lookup_insert_eq. eexists. split; [done|]. by rewrite <- Ek.
    + intros Hk. destruct (Hd k q' Hk) as (p' & Hp' & Hdev).
      assert (q' <> q).
      { intros ->. apply Hni2. rewrite <- Hv. unfold qm_values.
        apply qm_items_lookup in Hk. apply list_elem_of_fmap. by exists (k, q). }
      rewrite lookup_insert_ne by done. eauto.
Qed.

(** C29. When the partition check of an image succeeds, each of its partitions
    has its own entry in the map under a number that is no system partition
    (1, 5), primary partitions 2 and 4 are not both claimed, and each object
    carries the device name of its number. *)
Theorem checkPartitions_numbers qs start5 size5 total h0 s' :
  NoDup qs ->
  checkPartitions number qs (newInstallManager (M:=M) start5 size5 total h0) = Some (true, s') ->
  qm_values (partitionMap s') ≡ₚ qs /\ NoDup (qm_keys (partitionMap s')) /\
  (forall k, k ∈ qm_keys (partitionMap s') -> k <> 1 /\ k <> 5) /\
  ~ (2 ∈ qm_keys (partitionMap s') /\ 4 ∈ qm_keys (partitionMap s')) /\
  devices_ok (partitionMap s') (heap s').
Proof.
  intros Hnd Hc.
  destruct (checkPartitions_numbers_aux qs [] (newInstallManager (M:=M) start5 size5 total h0) s')
    as (H1 & [H2 H3] & H4); rewrite ?app_nil_r in *; try done.
  - cbn. unfold qm_values. by rewrite qm_items_empty.
  - apply (newInstallManager_planned start5 size5 total h0).
  - intros k q. cbn. by rewrite qm_lookup_empty.
  - repeat split; try done; try apply H2; try done. apply qm_keys_NoDup.
Qed.
End Properties.

Lemma demo_ptrs_NoDup : NoDup [0%nat; 1%nat].
Proof. apply (bool_decide_unpack _). reflexivity. Qed.


Lemma checkPartitions_numbers_witness :
  exists s', checkPartitions (M:=gmap Z) pretty [0%nat; 1%nat] Demo.s2 = Some (true, s') /\
    NoDup (qm_keys (partitionMap s')).
Proof.
  set (r := checkPartitions (M:=gmap Z) pretty [0%nat; 1%nat] Demo.s2).
  assert (Hr : exists s', r = Some (true, s')).
  { assert (Hb : match r with Some (true, _) => true | _ => false end = true)
      by (vm_compute; reflexivity).
    destruct r as [[[] s']|]; try discriminate Hb. by exists s'. }
  destruct Hr as [s' Hr]. exists s'. split; [exact Hr|].
  apply (checkPartitions_numbers (M:=gmap Z) pretty [0%nat; 1%nat] 122880 65534 15523840 Demo.h2 s').
  - apply demo_ptrs_NoDup.
  - exact Hr.
Defined.

(** ** Two layouts the space check does not catch *)

Module Overrun.
(** Two raw partitions of a multiple of 4 MiB on an otherwise sufficient card:
    the gap behind a raw partition is charged to nobody. *)
Definition h_raw : gmap ptr PartitionInfo :=
  {[ 0%nat := Demo.part "raw" 4000 0 0 false; 1%nat := Demo.part "ext4" 3484 0 0 false ]}.
Definition s_raw : InstallManager :=
  newInstallManager (M:=gmap Z) 122880 65534 15521792 h_raw.
(** A partition without a nominal size, followed by another one. *)
Definition h_zero : gmap ptr PartitionInfo :=
  {[ 0%nat := Demo.part "ext4" 0 0 0 false; 1%nat := Demo.part "ext4" 64 0 0 false ]}.
Definition s_zero : InstallManager :=
  newInstallManager (M:=gmap Z) 122880 65534 15523840 h_zero.
Definition os : OSInfo := mkOSInfo "Raspbian" [0%nat; 1%nat].
End Overrun.

(** The plan is accepted and the second partition ends behind the last sector. *)
Lemma raw_partition_overruns :
  exists a b, Demo.spans (prepareImage (M:=gmap Z) pretty Demo.no_risc Overrun.os Overrun.s_raw)
    = Some (true, [b; a]) /\ 15521792 < b.1 + b.2.
Proof. eexists _, _. split; [vm_compute; reflexivity|vm_compute; reflexivity]. Qed.

(** The plan is accepted with a partition of -2 sectors. *)
Lemma zero_partition_negative :
  exists a o, Demo.spans (prepareImage (M:=gmap Z) pretty Demo.no_risc Overrun.os Overrun.s_zero)
    = Some (true, [a; (o, -2)]).
Proof. eexists _, _. vm_compute. reflexivity. Qed.
