(* ===== verification/CText.v ===== *)
(** Text as the C code handles it: character classes of the "C" locale, the
    conversions [strtoll] and [printf] make between numbers and digits, and the
    searches of <string.h>, on [string] values without the closing NUL. *)
From S2P Require Import Prelude.
From Stdlib Require Export (notations) Ascii.

Open Scope char_scope.
Open Scope string_scope.
Open Scope Z_scope.

(** [a +:+ b] computes on the constructors of [a]. *)
#[global] Arguments String.append : simpl nomatch.

(** ** Characters *)

Definition code (c : Ascii.ascii) : Z := Z.of_N (Ascii.N_of_ascii c).
Definition chr (z : Z) : Ascii.ascii := Ascii.ascii_of_N (Z.to_N z).
Definition char_eqb (a b : Ascii.ascii) : bool := Ascii.eqb a b.
Arguments char_eqb (_ _)%_char.

Definition in_range (lo hi : Z) (c : Ascii.ascii) : bool := (lo <=? code c) && (code c <=? hi).
Definition isdigit (c : Ascii.ascii) : bool := in_range 48 57 c.
Definition isxdigit (c : Ascii.ascii) : bool := isdigit c || in_range 65 70 c || in_range 97 102 c.
Definition isalnum (c : Ascii.ascii) : bool := isdigit c || in_range 65 90 c || in_range 97 122 c.
Definition isspace (c : Ascii.ascii) : bool := (code c =? 32) || in_range 9 13 c.
Definition tolower (c : Ascii.ascii) : Ascii.ascii := if in_range 65 90 c then chr (code c + 32) else c.
Definition toupper (c : Ascii.ascii) : Ascii.ascii := if in_range 97 122 c then chr (code c - 32) else c.

Definition nl : Ascii.ascii := chr 10.
Definition cr : Ascii.ascii := chr 13.
Definition quote : Ascii.ascii := chr 34.
Definition backslash : Ascii.ascii := chr 92.
Definition str1 (c : Ascii.ascii) : string := String c EmptyString.
Definition NL : string := str1 nl.

Fixpoint string_map (f : Ascii.ascii -> Ascii.ascii) (s : string) : string :=
  match s with EmptyString => EmptyString | String c s => String (f c) (string_map f s) end.
Fixpoint string_all (f : Ascii.ascii -> bool) (s : string) : bool :=
  match s with EmptyString => true | String c s => f c && string_all f s end.

(** The character [*str], 0 at the end. *)
Definition head_is (f : Ascii.ascii -> bool) (s : string) : bool :=
  match s with String c _ => f c | EmptyString => false end.

(** The longest prefix whose characters satisfy [f], and the rest. *)
Fixpoint span (f : Ascii.ascii -> bool) (s : string) : string * string :=
  match s with
  | EmptyString => (EmptyString, EmptyString)
  | String c t => if f c then let '(a, b) := span f t in (String c a, b) else (EmptyString, s)
  end.

(** [strchr]: the text before the first [c] and the text behind it. *)
Fixpoint strchr (c : Ascii.ascii) (s : string) : option (string * string) :=
  match s with
  | EmptyString => None
  | String d t =>
      if char_eqb d c then Some (EmptyString, t)
      else match strchr c t with Some (a, b) => Some (String d a, b) | None => None end
  end.

(** The rest of [s] behind the prefix [p]. *)
Fixpoint strip_prefix (p s : string) : option string :=
  match p, s with
  | EmptyString, _ => Some s
  | String c p, String d s => if char_eqb c d then strip_prefix p s else None
  | _, EmptyString => None
  end.
Definition starts_with (p s : string) : bool :=
  match strip_prefix p s with Some _ => true | None => false end.

(** [strcmp] on NUL-free strings, by unsigned characters: negative, 0, positive. *)
Fixpoint strcmp (a b : string) : Z :=
  match a, b with
  | EmptyString, EmptyString => 0
  | EmptyString, String d _ => - code d
  | String c _, EmptyString => code c
  | String c a, String d b => if char_eqb c d then strcmp a b else code c - code d
  end.

(** [std::string]'s order: by unsigned characters, a prefix first. *)
Fixpoint string_ltb (a b : string) : bool :=
  match a, b with
  | EmptyString, EmptyString => false
  | EmptyString, _ => true
  | _, EmptyString => false
  | String c a, String d b => if char_eqb c d then string_ltb a b else code c <? code d
  end.

(** ** Lines *)

(** [fgets]: at most [n] characters, up to and with the first newline. *)
Fixpoint fgets (n : nat) (s : string) : string * string :=
  match n, s with
  | O, _ | _, EmptyString => ("", s)
  | S n, String c t =>
      if char_eqb c nl then (str1 c, t) else let '(a, b) := fgets n t in (String c a, b)
  end.

(** ** Numbers *)

Definition LLONG_MAX : Z := 9223372036854775807.
Definition LLONG_MIN : Z := -9223372036854775808.
Definition is_i64 (z : Z) : Prop := LLONG_MIN <= z <= LLONG_MAX.
Definition sat64 (z : Z) : Z := Z.max LLONG_MIN (Z.min LLONG_MAX z).

Definition digit_value (c : Ascii.ascii) : option Z :=
  if isdigit c then Some (code c - 48)
  else if in_range 97 122 c then Some (code c - 87)
  else if in_range 65 90 c then Some (code c - 55)
  else None.

(** The digits of [base] at the front of the text, read behind [acc]. *)
Fixpoint read_digits (base acc : Z) (s : string) : Z :=
  match s with
  | EmptyString => acc
  | String c t =>
      match digit_value c with
      | Some d => if d <? base then read_digits base (acc * base + d) t else acc
      | None => acc
      end
  end.

(** The same with the text behind the digits. *)
Fixpoint scan_digits (base acc : Z) (s : string) : Z * string :=
  match s with
  | EmptyString => (acc, EmptyString)
  | String c t =>
      match digit_value c with
      | Some d => if d <? base then scan_digits base (acc * base + d) t else (acc, s)
      | None => (acc, s)
      end
  end.

Fixpoint skip_space (s : string) : string :=
  match s with String c t => if isspace c then skip_space t else s | EmptyString => s end.

(** The [0x] of a hexadecimal number counts when a digit follows. *)
Definition skip_0x (s : string) : string :=
  match s with
  | String z (String x ((String d _) as t)) =>
      if char_eqb z "0" && (char_eqb x "x" || char_eqb x "X") && isxdigit d then t else s
  | _ => s
  end.

(** [strtoll(s, NULL, base)] for the bases 10 and 16. *)
Definition strtoll (base : Z) (s : string) : Z :=
  let s := skip_space s in
  let '(neg, s) := match s with
                   | String c t => if char_eqb c "-" then (true, t)
                                   else if char_eqb c "+" then (false, t) else (false, s)
                   | EmptyString => (false, s)
                   end in
  let s := if base =? 16 then skip_0x s else s in
  let v := read_digits base 0 s in
  sat64 (if neg then - v else v).

(** [strtol(s, &end, 10)]: the number and what is left. *)
Fixpoint skip_digits (s : string) : string :=
  match s with String c t => if isdigit c then skip_digits t else s | EmptyString => s end.
Definition strtol_end (s : string) : Z * string :=
  let t := skip_space s in
  let u := match t with String c r => if char_eqb c "-" || char_eqb c "+" then r else t | _ => t end in
  if head_is isdigit u then (strtoll 10 s, skip_digits u) else (0, s).

Definition digit_char (d : Z) : Ascii.ascii := chr (if d <? 10 then 48 + d else 87 + d).

(** The digits of [n >= 0] before [acc]. *)
Fixpoint write_digits (fuel : nat) (base n : Z) (acc : string) : string :=
  match fuel with
  | O => acc
  | S k =>
      let acc := String (digit_char (n mod base)) acc in
      if n / base =? 0 then acc else write_digits k base (n / base) acc
  end.
Definition digits (base n : Z) : string := write_digits (S (Z.to_nat (Z.log2 n))) base n EmptyString.

(** [printf] of [%lld] and of [%llx] (whose argument is taken modulo 2^64). *)
Definition fmt_d (z : Z) : string :=
  if z <? 0 then String "-"%char (digits 10 (- z)) else digits 10 z.
Definition fmt_x (z : Z) : string := digits 16 (u64 z).

(** A text as the library functions see it: up to the first NUL. *)
Fixpoint until_nul (s : string) : string :=
  match s with
  | String c t => if code c =? 0 then EmptyString else String c (until_nul t)
  | EmptyString => EmptyString
  end.

(** ** Lemmas *)

Lemma code_range c : 0 <= code c < 256.
Proof. unfold code. pose proof (Ascii.N_ascii_bounded c). lia. Qed.
Lemma chr_code c : chr (code c) = c.
Proof. unfold chr, code. rewrite N2Z.id. apply Ascii.ascii_N_embedding. Qed.

Lemma char_eqb_spec a b : reflect (a = b) (char_eqb a b).
Proof. apply Ascii.eqb_spec. Qed.

Lemma char_eqb_refl a : char_eqb a a = true.
Proof. apply Ascii.eqb_refl. Qed.

Lemma app_assoc_s (a b c : string) : a +:+ (b +:+ c) = (a +:+ b) +:+ c.
Proof. induction a as [|x a IH]; [done|]. cbn. by rewrite IH. Qed.
Lemma app_nil_s (a : string) : a +:+ EmptyString = a.
Proof. induction a as [|x a IH]; [done|]. cbn. by rewrite IH. Qed.
Lemma length_app_s (a b : string) : String.length (a +:+ b) = (String.length a + String.length b)%nat.
Proof. induction a as [|x a IH]; [done|]. cbn. by rewrite IH. Qed.

Lemma span_app f s : let '(a, b) := span f s in s = a +:+ b /\ string_all f a = true.
Proof.
  induction s as [|c s IH]; cbn; [done|]. destruct (f c) eqn:E; [|done].
  destruct (span f s) as [a b]. destruct IH as [-> Ha]. cbn. by rewrite E.
Qed.

Lemma strchr_spec c s :
  match strchr c s with
  | Some (a, b) => s = a +:+ String c b /\ string_all (fun d => negb (char_eqb d c)) a = true
  | None => string_all (fun d => negb (char_eqb d c)) s = true
  end.
Proof.
  induction s as [|d s IH]; cbn; [done|]. destruct (char_eqb_spec d c) as [->|Hd]; [done|].
  destruct (strchr c s) as [[a b]|]; cbn; [|done]. destruct IH as [-> Ha]. split; [done|].
  destruct (char_eqb_spec d c); [done|]. exact Ha.
Qed.

Lemma strip_prefix_Some p s t : strip_prefix p s = Some t <-> s = p +:+ t.
Proof.
  revert s. induction p as [|c p IH]; intros s; cbn; [split; congruence|].
  destruct s as [|d s]; [done|]. destruct (char_eqb_spec c d) as [->|Hne].
  - rewrite IH. split; [by intros ->|by intros [= ->]].
  - split; [done|]. by intros [= -> _].
Qed.
Lemma strip_prefix_app p s : strip_prefix p (p +:+ s) = Some s.
Proof. by apply strip_prefix_Some. Qed.
Lemma span_length f s : String.length s = (String.length (span f s).1 + String.length (span f s).2)%nat.
Proof. pose proof (span_app f s) as H. destruct (span f s) as [a b]. destruct H as [-> _]. apply length_app_s. Qed.
Lemma string_all_impl (f g : Ascii.ascii -> bool) s :
  (forall c, f c = true -> g c = true) -> string_all f s = true -> string_all g s = true.
Proof.
  intros H. induction s as [|c s IH]; [done|]. cbn. intros [Hc Hs]%andb_true_iff. by rewrite (H c Hc), (IH Hs).
Qed.
Lemma substring_all s : String.substring 0 (String.length s) s = s.
Proof. induction s as [|c s IH]; [done|]. cbn. by rewrite IH. Qed.
Lemma substring_long s n : (String.length s <= n)%nat -> String.substring 0 n s = s.
Proof.
  revert n. induction s as [|c s IH]; intros n Hn; [by destruct n|].
  destruct n as [|n]; cbn in *; [lia|]. by rewrite IH by lia.
Qed.
Lemma string_all_app f a b : string_all f (a +:+ b) = string_all f a && string_all f b.
Proof. induction a as [|c a IH]; [done|]. cbn. by rewrite IH, andb_assoc. Qed.

(** *** Numbers written and read back *)

Lemma base_digits (P : Z -> Prop) d : (forall k, (k < 16)%nat -> P (Z.of_nat k)) -> 0 <= d < 16 -> P d.
Proof. intros H Hd. rewrite <- (Z2Nat.id d) by lia. apply H. lia. Qed.

Ltac each_digit := do 16 (try match goal with k : nat |- _ => destruct k as [|k]; [reflexivity|] end); lia.

Lemma digit_value_char d : 0 <= d < 16 -> digit_value (digit_char d) = Some d.
Proof.
  intros Hd. apply (base_digits (fun d => digit_value (digit_char d) = Some d)); [|done].
  intros k Hk. each_digit.
Qed.

Lemma digit_char_plain d : 0 <= d < 16 ->
  (isspace (digit_char d) || char_eqb (digit_char d) "-" || char_eqb (digit_char d) "+")%bool = false.
Proof.
  apply (base_digits (fun d => (isspace (digit_char d) || char_eqb (digit_char d) "-"
    || char_eqb (digit_char d) "+")%bool = false)). intros k Hk. each_digit.
Qed.

Lemma digit_char_xdigit d : 0 <= d < 16 -> isxdigit (digit_char d) = true.
Proof. apply (base_digits (fun d => isxdigit (digit_char d) = true)). intros k Hk. each_digit. Qed.

Lemma digit_char_digit d : 0 <= d < 10 -> isdigit (digit_char d) = true.
Proof.
  intros Hd. apply (base_digits (fun d => d < 10 -> isdigit (digit_char d) = true)); [|lia|lia].
  intros k Hk H. clear Hd. do 10 (destruct k as [|k]; [reflexivity|]). lia.
Qed.

Lemma read_digits_scan base s : forall acc, read_digits base acc s = (scan_digits base acc s).1.
Proof.
  induction s as [|c s IH]; intros acc; cbn; [done|]. destruct (digit_value c); [|done]. by destruct (_ <? _).
Qed.
Lemma scan_write fuel base n acc : 2 <= base <= 16 -> 0 <= n < 2 ^ Z.of_nat fuel ->
  exists k, 0 <= k /\ forall a,
    scan_digits base a (write_digits fuel base n acc) = scan_digits base (a * base ^ k + n) acc.
Proof.
  intros Hb. revert n acc. induction fuel as [|fuel IH]; intros n acc Hn.
  - exists 0. split; [done|]. intros a. cbn. f_equal. replace n with 0 by (cbn in Hn; lia). lia.
  - cbn [write_digits]. pose proof (Z.mod_pos_bound n base) as Hm. pose proof (Z.div_mod n base) as Hd.
    assert (Hread : forall a acc, scan_digits base a (String (digit_char (n mod base)) acc)
                              = scan_digits base (a * base + n mod base) acc).
    { intros a acc'. cbn [scan_digits]. rewrite digit_value_char by lia.
      by replace (n mod base <? base) with true by (symmetry; apply Z.ltb_lt; lia). }
    destruct (Z.eqb_spec (n / base) 0) as [E|E].
    + exists 1. split; [done|]. intros a. rewrite Hread. f_equal. lia.
    + rewrite Nat2Z.inj_succ, Z.pow_succ_r in Hn by lia.
      assert (Hq : 0 <= n / base < 2 ^ Z.of_nat fuel).
      { split; [apply Z.div_pos; lia|]. apply Z.div_lt_upper_bound; [lia|]. nia. }
      destruct (IH (n / base) (String (digit_char (n mod base)) acc) Hq) as (k & Hk & H).
      exists (k + 1). split; [lia|]. intros a. rewrite H, Hread. f_equal.
      rewrite Z.pow_add_r by lia. nia.
Qed.
Lemma read_write fuel base n acc : 2 <= base <= 16 -> 0 <= n < 2 ^ Z.of_nat fuel ->
  exists k, 0 <= k /\ forall a,
    read_digits base a (write_digits fuel base n acc) = read_digits base (a * base ^ k + n) acc.
Proof.
  intros Hb Hn. destruct (scan_write fuel base n acc Hb Hn) as (k & Hk & H). exists k. split; [done|].
  intros a. by rewrite !read_digits_scan, H.
Qed.

Lemma fuel_enough n : 0 <= n -> 0 <= n < 2 ^ Z.of_nat (S (Z.to_nat (Z.log2 n))).
Proof.
  intros Hn. split; [done|]. pose proof (Z.log2_nonneg n).
  rewrite Nat2Z.inj_succ, Z2Nat.id by done.
  destruct (Z.eq_dec n 0) as [->|]; [done|]. by apply Z.log2_spec; lia.
Qed.

Lemma read_digits_digits base n : 2 <= base <= 16 -> 0 <= n ->
  read_digits base 0 (digits base n) = n.
Proof.
  intros Hb Hn. destruct (read_write _ base n EmptyString Hb (fuel_enough n Hn)) as (k & _ & H).
  unfold digits. rewrite H. cbn. lia.
Qed.

Lemma write_digits_head fuel base n acc : 2 <= base <= 16 ->
  exists d t, 0 <= d < base /\ write_digits (S fuel) base n acc = String (digit_char d) t.
Proof.
  intros Hb. revert n acc. induction fuel as [|fuel IH]; intros n acc;
    pose proof (Z.mod_pos_bound n base ltac:(lia)).
  - exists (n mod base), acc. split; [lia|]. cbn. by destruct (_ =? 0).
  - cbn [write_digits]. destruct (_ =? 0); [by eexists _, _|]. apply IH.
Qed.

Lemma digits_head base n : 2 <= base <= 16 ->
  exists d t, 0 <= d < base /\ digits base n = String (digit_char d) t.
Proof. apply write_digits_head. Qed.

Lemma sat64_id z : is_i64 z -> sat64 z = z.
Proof. unfold is_i64, sat64. lia. Qed.

Lemma strtoll_fmt_d z : is_i64 z -> strtoll 10 (fmt_d z) = z.
Proof.
  intros Hz. unfold strtoll, fmt_d. destruct (Z.ltb_spec z 0) as [Hneg|Hpos].
  - change (sat64 (- read_digits 10 0 (digits 10 (- z))) = z). rewrite read_digits_digits by lia.
    rewrite Z.opp_involutive. by apply sat64_id.
  - destruct (digits_head 10 z ltac:(lia)) as (d & t & Hd & E).
    pose proof (digit_char_plain d ltac:(lia)) as Hp. apply orb_false_iff in Hp as [Hp P3].
    apply orb_false_iff in Hp as [P1 P2]. rewrite E. cbn [skip_space]. rewrite P1, P2, P3.
    change (sat64 (read_digits 10 0 (String (digit_char d) t)) = z). rewrite <- E, read_digits_digits by lia.
    by apply sat64_id.
Qed.

Lemma strtoll_fmt_x z : 0 <= z <= LLONG_MAX -> strtoll 16 ("0x" +:+ fmt_x z) = z.
Proof.
  intros Hz. unfold strtoll, fmt_x. unfold LLONG_MAX in Hz.
  replace (u64 z) with z by (unfold u64; rewrite Z.mod_small; lia).
  destruct (digits_head 16 z ltac:(lia)) as (d & t & Hd & E). rewrite E.
  change (sat64 (read_digits 16 0 (if isxdigit (digit_char d) then String (digit_char d) t else "0x" +:+ String (digit_char d) t)) = z).
  rewrite digit_char_xdigit by lia. rewrite <- E, read_digits_digits by lia.
  apply sat64_id. unfold is_i64, LLONG_MIN, LLONG_MAX. lia.
Qed.

Example fmt_d_min : fmt_d LLONG_MIN = "-9223372036854775808".
Proof. reflexivity. Qed.
Example fmt_x_255 : fmt_x 255 = "ff".
Proof. reflexivity. Qed.
Example strtoll_hex : strtoll 16 " 0xFfz" = 255 /\ strtoll 16 "0xz" = 0 /\ strtoll 10 "-12a" = -12
  /\ strtoll 10 "99999999999999999999" = LLONG_MAX.
Proof. repeat split. Qed.
