(* ===== verification/Web.v ===== *)
(** The HTTP layer of the recovery program (src/recovery/libs/Web): [Web.cpp]
    (messages over a socket), [WebServer.cpp] (requests, responses, routing, the
    accept loop) and [WebClient.cpp] (URL handling, requests, responses).

    A socket is what the kernel answers to [select]/[read]/[write]; everything
    above it is translated.  Buffers keep their C size: writing behind the end of
    [header_buffer], or appending a full [buffer] without a NUL, is [Fault].
    [receive]'s outer loop has fuel. *)
From S2P Require Import Prelude CText.

(** ** Text *)

Definition NUL : Ascii.ascii := chr 0.
Definition colon : Ascii.ascii := ":"%char.
Definition CRLF : string := String cr (String nl EmptyString).

(** [std::string::c_str]: what C functions see of the string. *)
Definition c_str (s : string) : string := match strchr NUL s with Some (a, _) => a | None => s end.

(** [Web::split]. *)
Fixpoint split (text : string) (sep : Ascii.ascii) : list string :=
  match text with
  | EmptyString => [EmptyString]
  | String c t =>
      if char_eqb c sep then EmptyString :: split t sep
      else match split t sep with [] => [str1 c] | w :: ws => String c w :: ws end
  end.

(** [getline] until the end of the stream: a last line needs no line end, but an
    empty one is not there. *)
Fixpoint drop_empty_last (l : list string) : list string :=
  match l with
  | [] => []
  | [w] => match w with EmptyString => [] | _ => [w] end
  | w :: ws => w :: drop_empty_last ws
  end.
Definition getlines (s : string) : list string := drop_empty_last (split s nl).

(** [std::stoi]; [None] is the exception ([invalid_argument], [out_of_range]). *)
Definition stoi (s : string) : option Z :=
  let s := skip_space s in
  let digits := match s with
                | String c t => if char_eqb c "-" || char_eqb c "+" then t else s
                | EmptyString => s
                end in
  match digits with
  | String d _ =>
      if isdigit d then
        let v := strtoll 10 s in
        if (-2147483648 <=? v) && (v <=? 2147483647) then Some v else None
      else None
  | EmptyString => None
  end.

(** [std::map<string, string>]: sorted by key, one entry per key. *)
Definition header_map : Type := list (string * string).
Fixpoint map_set (k v : string) (m : header_map) : header_map :=
  match m with
  | [] => [(k, v)]
  | (k', v') :: r =>
      if String.eqb k k' then (k, v) :: r
      else if string_ltb k k' then (k, v) :: m
      else (k', v') :: map_set k v r
  end.
Fixpoint map_find (k : string) (m : header_map) : option string :=
  match m with [] => None | (k', v) :: r => if String.eqb k k' then Some v else map_find k r end.

(** ** Sockets *)

(** What one round of [select] and [read] gives.  The peer's close is final. *)
Inductive recv_event : Type :=
| SelectError
| SelectTimeout
| ReadError
| PeerClosed
| Received (bytes : string).

(** The rounds to come, the bytes written so far, and the results of the coming
    [write] calls (all bytes are taken when the list is empty). *)
Record Socket := mkSocket {
  incoming : list recv_event;
  sent : string;
  write_results : list Z;
}.

Definition sock_write (bytes : string) : PM Socket Z := fun s =>
  match write_results s with
  | [] => Ok (Z.of_nat (String.length bytes)) (mkSocket (incoming s) (sent s +:+ bytes) [])
  | r :: rs => Ok r (mkSocket (incoming s) (sent s +:+ String.substring 0 (Z.to_nat r) bytes) rs)
  end.

(** ** Web *)

Definition BUFFER_SIZE : Z := 4096.
Definition HEADER_BUFFER : Z := 4096.

Record Web := mkWeb {
  header : header_map;
  body : string;
  headerLine : string;
  bytesRead : Z;
}.
Definition newWeb : Web := mkWeb [] "" "" 0.
Definition set_header (h : header_map) (w : Web) : Web := mkWeb h (body w) (headerLine w) (bytesRead w).
Definition set_body (b : string) (w : Web) : Web := mkWeb (header w) b (headerLine w) (bytesRead w).
Definition set_headerLine (l : string) (w : Web) : Web := mkWeb (header w) (body w) l (bytesRead w).
Definition set_bytesRead (n : Z) (w : Web) : Web := mkWeb (header w) (body w) (headerLine w) n.

(** [sprintf]/[strcat] behind the text of [header_buffer], the closing NUL
    included; [None] when it does not fit. *)
Definition buffer_append (buf text : string) : option string :=
  let r := buf +:+ c_str text in
  if Z.of_nat (String.length r) + 1 <=? HEADER_BUFFER then Some r else None.

Definition header_field (x : string * string) : string := c_str x.1 +:+ ": " +:+ c_str x.2 +:+ CRLF.
Fixpoint append_headers (m : header_map) (buf : string) : option string :=
  match m with [] => Some buf | x :: m => buf ← buffer_append buf (header_field x); append_headers m buf end.

(** [Web::send]: the header in one write, the body in another. *)
Definition send (w : Web) : PM Socket bool :=
  buf ← plift (buffer_append "" (c_str (headerLine w) +:+ CRLF));
  buf ← plift (append_headers (header w) buf);
  buf ← plift (buffer_append buf CRLF);
  t ← sock_write buf;
  t' ← sock_write (c_str (body w));
  mret (negb (t + t' <=? 0)).

(** [Web::readReceive]: read until a round gives nothing.  [append(buffer)]
    takes the bytes before the first NUL; a full [buffer] without one is overrun. *)
Fixpoint read_rounds (ev : list recv_event) (buf : string) (n : Z)
  : option (bool * string * Z * list recv_event) :=
  match ev with
  | [] => Some (true, buf, n, [])
  | SelectTimeout :: ev => Some (true, buf, n, ev)
  | PeerClosed :: _ => Some (true, buf, n, ev)
  | SelectError :: ev => Some (false, buf, n - 1, ev)
  | ReadError :: ev => Some (false, buf, n - 1, ev)
  | Received EmptyString :: ev => Some (true, buf, n, ev)
  | Received s :: ev =>
      if (BUFFER_SIZE <=? Z.of_nat (String.length s)) && negb (bool_decide (is_Some (strchr NUL s)))
      then None else read_rounds ev (buf +:+ c_str s) (n + Z.of_nat (String.length s))
  end.
Definition readReceive (buf : string) (w : Web) : PM Socket (bool * string * Web) :=
  s ← pget;
  r ← plift (read_rounds (incoming s) buf (bytesRead w));
  let '(ok, buf, n, ev) := r in
  pmodify (fun s => mkSocket ev (sent s) (write_results s));;
  mret (ok, buf, set_bytesRead n w).

(** [Web::parseHeaderLine]: always succeeds, a line without a colon is ignored. *)
Fixpoint remerge (value : string) (rest : list string) : string :=
  match rest with [] => value | x :: r => remerge (value +:+ ":" +:+ x) r end.
Definition parseHeaderLine (line : string) (w : Web) : Web :=
  match split line colon with
  | key :: value :: rest =>
      let value := remerge value rest in
      let value := match value with String c t => if char_eqb c " " then t else value | _ => value end in
      set_header (map_set key value (header w)) w
  | _ => w
  end.

(** [Web::parseBodyLine]. *)
Definition parseBodyLine (line : string) (w : Web) : Web := set_body (body w +:+ line +:+ NL) w.

(** The loop of [Web::parseReceive]: [hdr] and [methodLine] are its flags. *)
Fixpoint parse_lines (lines : list string) (hdr methodLine : bool) (w : Web) : bool * Web :=
  match lines with
  | [] => (negb hdr, w)
  | line :: rest =>
      if hdr then
        if methodLine then parse_lines rest true false (set_headerLine line w)
        else if String.eqb line (str1 cr) then parse_lines rest false false w
        else parse_lines rest true false (parseHeaderLine line w)
      else parse_lines rest false methodLine (parseBodyLine line w)
  end.
Definition parseReceive (buf : string) (skipHeader : bool) (w : Web) : bool * Web :=
  parse_lines (getlines buf) (negb skipHeader) true w.

(** The [do]/[while] of [Web::receive]. *)
Fixpoint continue_read (fuel : nat) (messageSize : Z) (buf : string) (w : Web)
  : PM Socket (bool * string * Web) :=
  match fuel with
  | O => pnofuel
  | S k =>
      r ← readReceive buf w;
      let '(ok, buf, w) := r in
      if negb ok then mret (false, buf, w)
      else if negb (messageSize =? -1) && (bytesRead w <? messageSize)
      then continue_read k messageSize buf w
      else mret (true, buf, w)
  end.

Definition pop_back (s : string) : string := String.substring 0 (String.length s - 1) s.

(** [Web::receive]. *)
Definition receive (fuel : nat) (w : Web) : PM Socket (bool * Web) :=
  r ← readReceive "" (set_bytesRead 0 w);
  let '(ok, buf, w) := r in
  if negb ok then mret (false, w) else
  let '(ok, w) := parseReceive buf false w in
  if negb ok then mret (false, w) else
  let expect := match map_find "Expect" (header w) with
                | Some v => String.eqb v ("100-continue" +:+ str1 cr) | None => false end in
  pwhen expect (send (set_headerLine "HTTP/1.0 100 Continue" newWeb);; mret tt);;
  size ← match map_find "Content-Length" (header w) with
         | None => mret None
         | Some v => n ← plift (stoi v); mret (if bytesRead w <? n then Some n else None)
         end;
  let w := match size with Some _ => set_body (pop_back (body w)) w | None => w end in
  let messageSize := match size with Some n => n | None => -1 end in
  if expect || match size with Some _ => true | None => false end then
    r ← continue_read fuel messageSize "" w;
    let '(ok, buf, w) := r in
    if negb ok then mret (false, w) else mret (parseReceive buf true w)
  else mret (true, w).

(** ** WebServer *)

(** A world that holds the socket of the current connection. *)
Class HasSocket (W : Type) := { socket_of : W -> Socket; with_socket : Socket -> W -> W }.
Class HasSocketLaws (W : Type) `{HasSocket W} : Prop := {
  socket_of_with : forall s w, socket_of (with_socket s w) = s;
  with_socket_with : forall s s' w, with_socket s (with_socket s' w) = with_socket s w;
}.
#[export] Instance Socket_HasSocket : HasSocket Socket := {| socket_of := id; with_socket s _ := s |}.
#[export] Instance Socket_HasSocketLaws : HasSocketLaws Socket.
Proof. by split. Qed.

Definition on_socket {W A} `{HasSocket W} (m : PM Socket A) : PM W A := fun w =>
  match m (socket_of w) with Ok a s => Ok a (with_socket s w) | Fault => Fault | NoFuel => NoFuel end.

Module Server.
Record Request := mkRequest { web : Web; method : string; path : string }.
Record Response := mkResponse { rweb : Web; code : Z; phrase : string; type : string; date : string }.

(** [Response::Response]; [now] is the formatted date. *)
Definition newResponse (now : string) : Response := mkResponse newWeb 200 "OK" "text/plain" now.

(** The assignments of the handlers: code, phrase, type and body. *)
Definition answer (c : Z) (p b : string) (r : Response) : Response :=
  mkResponse (set_body b (rweb r)) c p "text/plain" (date r).

(** [Request::receiveRequest]. *)
Definition receiveRequest (fuel : nat) : PM Socket (bool * Request) :=
  r ← receive fuel newWeb;
  let '(ok, w) := r in
  if negb ok then mret (false, mkRequest w "" "")
  else match split (headerLine w) " "%char with
       | [m; p; v] =>
           if String.eqb v ("HTTP/1.1" +:+ str1 cr) then mret (true, mkRequest w m p)
           else mret (false, mkRequest w "" "")
       | _ => mret (false, mkRequest w "" "")
       end.

(** [Response::sendResponse]. *)
Definition response_message (r : Response) : Web :=
  let h := header (rweb r) in
  let h := map_set "Server" "NOOBS4IoT 0.1a" h in
  let h := map_set "Date" (date r) h in
  let h := map_set "Content-Type" (type r) h in
  let h := map_set "Content-Length" (fmt_d (Z.of_nat (String.length (c_str (body (rweb r)))))) h in
  set_header h (set_headerLine ("HTTP/1.0 " +:+ fmt_d (code r) +:+ " " +:+ phrase r) (rweb r)).
Definition sendResponse (r : Response) : PM Socket bool := send (response_message r).
End Server.

Section WebServer.
Context {W : Type} `{HasSocket W}.
Import Server.

(** A callback gives the response it filled in, or [None] when the process is
    gone ([exit], [reboot]). *)
Record Route := mkRoute {
  route_path : string;
  route_method : string;
  callback : Request -> Response -> PM W (option Response);
}.

Definition addRoute (p m : string) cb (routes : list Route) : list Route := routes ++ [mkRoute p m cb].
Definition webserver_get (p : string) cb routes : list Route := addRoute p "GET" cb routes.
Definition webserver_post (p : string) cb routes : list Route := addRoute p "POST" cb routes.
Definition webserver_all (p : string) cb routes : list Route := addRoute p "ALL" cb routes.

Definition route_matches (req : Request) (r : Route) : bool :=
  String.eqb (route_path r) (path req) &&
  (String.eqb (route_method r) (method req) || String.eqb (route_method r) "ALL").

(** [WebServer::matchRoute]: the first matching route handles the request; the
    boolean is the function's result. *)
Fixpoint matchRoute (routes : list Route) (req : Request) (res : Response)
  : PM W (option (bool * Response)) :=
  match routes with
  | [] => mret (Some (false, res))
  | r :: rs =>
      if route_matches req r then
        o ← callback r req res;
        mret (match o with Some res => Some (true, res) | None => None end)
      else matchRoute rs req res
  end.

(** One turn of the loop of [WebServer::start]; the result says whether the
    process is still there. *)
Definition serve_connection (fuel : nat) (now : string) (routes : list Route) : PM W bool :=
  q ← on_socket (receiveRequest fuel);
  let '(ok, req) := q in
  let res := newResponse now in
  if negb ok then on_socket (sendResponse (answer 400 "Bad Request" "Bad Request" res));; mret true
  else
    o ← matchRoute routes req res;
    match o with
    | None => mret false
    | Some (matched, res) =>
        let res := if matched : bool then res else answer 404 "Not Found" "Not found" res in
        on_socket (sendResponse res);; mret true
    end.

(** [WebServer::start] on the connections [accept] gives ([None]: it fails),
    with the date at each; [_stopServer] is never set. *)
Fixpoint start (fuel : nat) (routes : list Route) (conns : list (option (Socket * string))) : PM W bool :=
  match conns with
  | [] => mret true
  | None :: conns => start fuel routes conns
  | Some (s, now) :: conns =>
      pmodify (with_socket s);;
      alive ← serve_connection fuel now routes;
      if alive : bool then start fuel routes conns else mret false
  end.
End WebServer.
Arguments Route W : clear implicits.

(** ** WebClient *)

Module Client.
Record Request := mkRequest { web : Web; method : string; path : string; host : string; accept : string }.

(** [Request::sendRequest]. *)
Definition request_message (r : Request) : Web :=
  let h := map_set "Host" (host r) (header (web r)) in
  let h := map_set "User-Agent" "NOOBS4IoT 0.1a" h in
  let h := map_set "Accept" (accept r) h in
  set_header h (set_headerLine (method r +:+ " " +:+ path r +:+ " HTTP/1.1") (web r)).
Definition sendRequest (r : Request) : PM Socket bool := send (request_message r).

Record Response := mkResponse { rweb : Web; code : Z; phrase : string }.

(** [Response::receiveResponse]; [stoi] throws on a code that is no number. *)
Definition receiveResponse (fuel : nat) : PM Socket (bool * Response) :=
  r ← receive fuel newWeb;
  let '(ok, w) := r in
  if negb ok then mret (false, mkResponse w 0 "")
  else match split (headerLine w) " "%char with
       | [v; c; p] =>
           if String.eqb v "HTTP/1.1" then
             n ← plift (stoi c);
             mret (true, mkResponse w n (pop_back p))
           else mret (false, mkResponse w 0 "")
       | _ => mret (false, mkResponse w 0 "")
       end.
End Client.

(** The network: the socket a host and a port are connected by; [None] when the
    name or the connection fails. *)
Definition network : Type := string -> Z -> option Socket.

(** [WebClient::get] on a host, a path and a port: the body of the response,
    empty on failure, and the socket after the exchange. *)
Definition get_exchange (fuel : nat) (host path : string) : PM Socket string :=
  ok ← Client.sendRequest (Client.mkRequest newWeb "GET" path host "*/*");
  if negb ok then mret "" else
  r ← Client.receiveResponse fuel;
  let '(ok, res) := r in
  mret (if ok : bool then body (Client.rweb res) else "").
Definition get_host (fuel : nat) (net : network) (host path : string) (port : Z) : outcome unit string :=
  match net host port with
  | None => Ok ""%string tt
  | Some s => match get_exchange fuel host path s with Ok b _ => Ok b tt | Fault => Fault | NoFuel => NoFuel end
  end.

(** The host and the path of a URL in [WebClient::get]; [urlVector[1]] is read
    even when there is no slash. *)
Inductive url_parts : Type :=
| HostPath (host path : string)
| HttpsRefused
| NoPath.
Definition url_split (url : string) : url_parts :=
  match strip_prefix "http://" (c_str url), strip_prefix "https://" (c_str url) with
  | None, Some _ => HttpsRefused
  | stripped, _ =>
      let url := match stripped with Some _ => String.substring 7 (String.length url) url | None => url end in
      match split url "/"%char with
      | host :: first :: rest => HostPath host (foldl (fun p x => p +:+ ("/" +:+ x)) ("/" +:+ first) rest)
      | _ => NoPath
      end
  end.

(** [WebClient::get] on a URL. *)
Definition webclient_get (fuel : nat) (net : network) (url : string) : outcome unit string :=
  match url_split url with
  | HostPath host path => get_host fuel net host path 80
  | HttpsRefused => Ok ""%string tt
  | NoPath => Fault
  end.
