(* ===== verification/WebFacts.v ===== *)
(** The HTTP layer: what is written is read back, the header buffer's bound, the
    end of the reading loop, routing and URLs. *)
From S2P Require Import Prelude CText Web.

(** ** Characters a text does not hold *)

Definition free_of (c : Ascii.ascii) (s : string) : Prop :=
  string_all (fun d => negb (char_eqb d c)) s = true.

Lemma free_of_cons c d s : free_of c (String d s) <-> d <> c /\ free_of c s.
Proof.
  unfold free_of. cbn. rewrite andb_true_iff, negb_true_iff.
  destruct (char_eqb_spec d c); intuition congruence.
Qed.
Lemma free_of_app c a b : free_of c (a +:+ b) <-> free_of c a /\ free_of c b.
Proof.
  induction a as [|d a IH]; cbn; [unfold free_of; cbn; intuition|].
  rewrite !free_of_cons, IH. tauto.
Qed.
Lemma free_of_nil c : free_of c "".
Proof. done. Qed.
#[global] Opaque free_of.

Lemma strchr_free c s : free_of c s -> strchr c s = None.
Proof.
  induction s as [|d s IH]; [done|]. rewrite free_of_cons. intros [Hd Hs]. cbn.
  destruct (char_eqb_spec d c); [done|]. by rewrite IH.
Qed.
Lemma c_str_free s : free_of NUL s -> c_str s = s.
Proof. intros H. unfold c_str. by rewrite strchr_free. Qed.

Lemma split_cons s sep : exists w ws, split s sep = w :: ws.
Proof.
  destruct s as [|c s]; [by do 2 eexists|]. cbn. destruct (char_eqb c sep); [by do 2 eexists|].
  destruct (split s sep); by do 2 eexists.
Qed.
Lemma split_free s sep : free_of sep s -> split s sep = [s].
Proof.
  induction s as [|c s IH]; [done|]. rewrite free_of_cons. intros [Hc Hs]. cbn.
  destruct (char_eqb_spec c sep); [done|]. by rewrite IH.
Qed.
Lemma split_at a sep b : free_of sep a -> split (a +:+ String sep b) sep = a :: split b sep.
Proof.
  induction a as [|c a IH]; cbn; [by rewrite char_eqb_refl|]. rewrite free_of_cons. intros [Hc Ha].
  destruct (char_eqb_spec c sep); [done|]. by rewrite IH.
Qed.

(** Joining the pieces gives the text again. *)
Lemma foldl_join sep ws : forall a b : string,
  foldl (fun p x => p +:+ String sep x) (a +:+ b) ws = a +:+ foldl (fun p x => p +:+ String sep x) b ws.
Proof. induction ws as [|x ws IH]; intros a b; cbn; [done|]. by rewrite <- app_assoc_s, IH. Qed.
Lemma join_split sep s w ws :
  split s sep = w :: ws -> foldl (fun p x => p +:+ String sep x) w ws = s.
Proof.
  revert w ws. induction s as [|c s IH]; intros w ws; cbn; [by intros [= <- <-]|].
  destruct (char_eqb_spec c sep) as [->|Hc].
  - intros [= <- <-]. destruct (split_cons s sep) as (w' & ws' & E). rewrite E. cbn.
    rewrite <- (IH _ _ E). exact (foldl_join sep ws' (str1 sep) w').
  - destruct (split s sep) as [|w' ws'] eqn:E; [by destruct (split_cons s sep) as (? & ? & ?); congruence|].
    intros [= <- <-]. change (String c w') with (str1 c +:+ w'). rewrite foldl_join. cbn. by rewrite (IH _ _ eq_refl).
Qed.
Lemma remerge_foldl value rest : remerge value rest = foldl (fun p x => p +:+ String colon x) value rest.
Proof. revert value. induction rest as [|x r IH]; intros value; [done|]. cbn. by rewrite IH. Qed.

Lemma drop_empty_last_cons w v vs : drop_empty_last (w :: v :: vs) = w :: drop_empty_last (v :: vs).
Proof. done. Qed.
Lemma getlines_line l s : free_of nl l -> getlines (l +:+ String nl s) = l :: getlines s.
Proof.
  intros H. unfold getlines. rewrite split_at by done.
  destruct (split_cons s nl) as (w & ws & ->). apply drop_empty_last_cons.
Qed.

(** ** Header maps *)

Definition sorted_map (m : header_map) : Prop := StronglySorted (fun a b => string_ltb a b = true) (map fst m).

Lemma string_ltb_neq a b : string_ltb a b = true -> a <> b.
Proof.
  intros H <-. induction a as [|c a IH]; cbn in H; [done|]. rewrite char_eqb_refl in H. auto.
Qed.
Lemma string_ltb_asym a b : string_ltb a b = true -> string_ltb b a = false.
Proof.
  revert b. induction a as [|c a IH]; intros [|d b]; cbn; try done.
  destruct (char_eqb_spec c d) as [->|Hcd].
  - rewrite char_eqb_refl. apply IH.
  - destruct (char_eqb_spec d c); [congruence|]. intros H%Z.ltb_lt. apply Z.ltb_ge. lia.
Qed.
Lemma map_set_last (m : header_map) k v : Forall (fun k' => string_ltb k' k = true) (map fst m) -> map_set k v m = (m ++ [(k, v)])%list.
Proof.
  induction m as [|[k' v'] m IH]; [done|]. cbn. intros [Hk Hm]%Forall_cons.
  destruct (String.eqb_spec k k') as [->|_]; [by apply string_ltb_neq in Hk|].
  rewrite (string_ltb_asym _ _ Hk), IH by done. done.
Qed.
Lemma map_find_set k v k' (m : header_map) : map_find k' (map_set k v m) = if String.eqb k' k then Some v else map_find k' m.
Proof.
  induction m as [|[k1 v1] m IH]; cbn; [done|].
  destruct (String.eqb_spec k k1) as [->|Hk]; cbn; [by destruct (String.eqb k' k1)|].
  destruct (string_ltb k k1); cbn; [done|]. rewrite IH.
  destruct (String.eqb_spec k' k1) as [->|]; [|done]. by destruct (String.eqb_spec k1 k).
Qed.

(** ** Writing a message *)

Definition fields_text (m : header_map) : string := foldr (fun x t => header_field x +:+ t) "" m.
Definition message_head (w : Web) : string :=
  c_str (headerLine w) +:+ CRLF +:+ fields_text (header w) +:+ CRLF.
Definition message_text (w : Web) : string := message_head w +:+ c_str (body w).
Definition fits_buffer (s : string) : Prop := Z.of_nat (String.length s) < HEADER_BUFFER.

Lemma c_str_NUL_free s : free_of NUL (c_str s).
Proof. unfold c_str. pose proof (strchr_spec NUL s) as H. destruct (strchr NUL s) as [[a b]|]; [apply H|exact H]. Qed.
Lemma CRLF_free : free_of NUL CRLF.
Proof. by vm_compute. Qed.
Lemma header_field_free x : free_of NUL (header_field x).
Proof.
  unfold header_field. rewrite !free_of_app.
  split_and!; [apply c_str_NUL_free|by vm_compute|apply c_str_NUL_free|apply CRLF_free].
Qed.

Lemma buffer_append_free buf t : free_of NUL t ->
  buffer_append buf t = if bool_decide (fits_buffer (buf +:+ t)) then Some (buf +:+ t) else None.
Proof.
  intros H. unfold buffer_append, fits_buffer. rewrite (c_str_free _ H). cbv zeta.
  case_bool_decide as E; destruct (Z.leb_spec (Z.of_nat (String.length (buf +:+ t)) + 1) HEADER_BUFFER); done || lia.
Qed.
Lemma fits_app_l a b : fits_buffer (a +:+ b) -> fits_buffer a.
Proof. unfold fits_buffer. rewrite length_app_s. lia. Qed.

Lemma append_headers_text m buf : forall r,
  append_headers m buf = Some r <-> r = buf +:+ fields_text m /\ (m <> [] -> fits_buffer r).
Proof.
  revert buf. induction m as [|x m IH]; intros buf r; cbn.
  - rewrite app_nil_s. split; [by intros [= ->]|by intros [-> _]].
  - rewrite buffer_append_free by apply header_field_free.
    case_bool_decide as Hf; cbn.
    + rewrite IH, app_assoc_s. split; intros [-> H]; split; try done; intros _.
      * destruct m as [|y m]; [cbn; by rewrite app_nil_s|by apply H].
      * by apply H.
    + split; [done|]. intros [-> H]. destruct Hf. specialize (H ltac:(done)).
      rewrite app_assoc_s in H. by eapply fits_app_l.
Qed.

Lemma plift_Some {S A B} (a : A) (f : A -> PM S B) s : (x ← plift (Some a); f x) s = f a s.
Proof. done. Qed.

(** [send] overruns the header buffer exactly when the head is too long, and
    else writes the message. *)
Lemma send_text w s :
  write_results s = [] ->
  (fits_buffer (message_head w) ->
     send w s = Ok true (mkSocket (incoming s) (sent s +:+ message_text w) [])) /\
  (~ fits_buffer (message_head w) -> send w s = Fault).
Proof.
  intros Hw. unfold send.
  assert (HCR : free_of NUL (c_str (headerLine w) +:+ CRLF))
    by (apply free_of_app; split; [apply c_str_NUL_free|apply CRLF_free]).
  rewrite (buffer_append_free "" _ HCR).
  change ("" +:+ ?x) with x.
  assert (Hh : message_head w = ((c_str (headerLine w) +:+ CRLF) +:+ fields_text (header w)) +:+ CRLF)
    by (unfold message_head; by rewrite !app_assoc_s).
  split; intros Hf.
  - rewrite Hh in Hf. assert (Hf2 := fits_app_l _ _ Hf). assert (Hf1 := fits_app_l _ _ Hf2).
    rewrite bool_decide_true by done.
    assert (Ha : append_headers (header w) (c_str (headerLine w) +:+ CRLF)
                 = Some ((c_str (headerLine w) +:+ CRLF) +:+ fields_text (header w)))
      by (by apply append_headers_text).
    rewrite plift_Some, Ha, plift_Some, buffer_append_free by apply CRLF_free.
    rewrite bool_decide_true, plift_Some by done.
    unfold mbind, PM_bind, sock_write. rewrite Hw. cbn -[String.length Z.of_nat Z.leb].
    unfold mret, PM_ret. f_equal.
    + apply negb_true_iff, Z.leb_gt. rewrite (length_app_s _ CRLF). change (String.length CRLF) with 2%nat. lia.
    + f_equal. unfold message_text. by rewrite Hh, <- app_assoc_s.
  - case_bool_decide; [|done]. rewrite plift_Some.
    destruct (append_headers _ _) as [r|] eqn:Ha; [|done]. rewrite plift_Some.
    apply append_headers_text in Ha as [-> _].
    rewrite buffer_append_free by apply CRLF_free. rewrite bool_decide_false; [done|]. by rewrite <- Hh.
Qed.

(** ** Reading a message *)

(** Rounds that give nothing more: silence, or the peer's close. *)
Definition quiet (ev : list recv_event) : Prop := ev = [] \/ exists ev', ev = PeerClosed :: ev'.

(** The bytes [t] arrive in pieces smaller than [read]'s buffer. *)
Definition arrives (chunks : list string) (t : string) : Prop :=
  t = foldr String.append "" chunks /\
  Forall (fun c => c <> EmptyString /\ Z.of_nat (String.length c) < BUFFER_SIZE) chunks.

Lemma read_rounds_quiet ev buf n : quiet ev -> read_rounds ev buf n = Some (true, buf, n, ev).
Proof. by intros [->|[ev' ->]]. Qed.

Lemma read_rounds_received chunks ev : forall t buf n,
  arrives chunks t -> free_of NUL t ->
  read_rounds (map Received chunks ++ ev) buf n = read_rounds ev (buf +:+ t) (n + Z.of_nat (String.length t)).
Proof.
  induction chunks as [|c cs IH]; intros t buf n [-> Hc] Ht; cbn in *.
  - f_equal; [by rewrite app_nil_s|lia].
  - apply Forall_cons in Hc as [[Hne Hlen] Hc]. apply free_of_app in Ht as [Hfc Hft].
    assert (Hb : (BUFFER_SIZE <=? Z.of_nat (String.length c)) = false) by (apply Z.leb_gt; lia).
    destruct c as [|d c]; [done|]. rewrite Hb. cbn [andb].
    rewrite (c_str_free _ Hfc), (IH _ _ _ (conj eq_refl Hc) Hft). f_equal.
    + by rewrite app_assoc_s.
    + rewrite length_app_s. lia.
Qed.

Fixpoint terminated (b : string) : string :=
  match b with
  | EmptyString => EmptyString
  | String c EmptyString => if char_eqb c nl then str1 nl else String c NL
  | String c t => String c (terminated t)
  end.
Definition unlines (ls : list string) : string := foldr (fun l t => l +:+ NL +:+ t) "" ls.

Lemma terminated_cons c t : t <> "" -> terminated (String c t) = String c (terminated t).
Proof. by destruct t. Qed.
Lemma unlines_getlines s : unlines (getlines s) = terminated s.
Proof.
  induction s as [|c s IH]; [done|]. unfold getlines in *. cbn [split].
  destruct (char_eqb_spec c nl) as [->|Hc].
  - destruct (split_cons s nl) as (w & ws & E). rewrite E, drop_empty_last_cons, <- E. cbn [unlines foldr].
    unfold unlines in IH. rewrite IH. by destruct s.
  - destruct s as [|d s].
    { change (terminated (String c "")) with (if char_eqb c nl then str1 nl else String c NL).
      by destruct (char_eqb_spec c nl). }
    rewrite terminated_cons, <- IH by done.
    destruct (split_cons (String d s) nl) as (w & ws & E). rewrite E.
    destruct ws as [|v ws].
    + apply join_split in E. cbn in E. by rewrite E.
    + by rewrite !drop_empty_last_cons.
Qed.

Lemma parse_lines_body ls f w :
  parse_lines ls false f w = (true, set_body (body w +:+ unlines ls) w).
Proof.
  revert w. induction ls as [|l ls IH]; intros w; cbn [parse_lines].
  - cbn. rewrite app_nil_s. by destruct w.
  - rewrite IH. unfold parseBodyLine, set_body. cbn [body header headerLine bytesRead].
    unfold unlines at 2. cbn [foldr]. by rewrite <- !app_assoc_s.
Qed.

Definition returned (x : string * string) : string * string := (x.1, x.2 +:+ str1 cr).
Definition field_line (x : string * string) : string := x.1 +:+ ": " +:+ x.2 +:+ str1 cr.
Definition clean_field (x : string * string) : Prop :=
  free_of NUL x.1 /\ free_of nl x.1 /\ free_of colon x.1 /\ free_of NUL x.2 /\ free_of nl x.2.

Lemma str1_cr_free : free_of nl (str1 cr).
Proof. by vm_compute. Qed.
Lemma getlines_CRLF l s : free_of nl l -> getlines (l +:+ CRLF +:+ s) = (l +:+ str1 cr) :: getlines s.
Proof.
  intros H. change (CRLF +:+ s) with (str1 cr +:+ String nl s). rewrite app_assoc_s.
  apply getlines_line, free_of_app. split; [done|apply str1_cr_free].
Qed.
Lemma header_field_clean x : clean_field x -> header_field x = x.1 +:+ ": " +:+ x.2 +:+ CRLF.
Proof. intros (Hk & _ & _ & Hv & _). unfold header_field. by rewrite !c_str_free. Qed.

Lemma getlines_fields m s : Forall clean_field m ->
  getlines (fields_text m +:+ s) = (map field_line m ++ getlines s)%list.
Proof.
  induction m as [|x m IH]; [done|]. intros [Hx Hm]%Forall_cons. cbn [fields_text foldr map app].
  rewrite header_field_clean by done. destruct Hx as (_ & Hk & _ & _ & Hv).
  rewrite <- IH by done. fold (fields_text m).
  replace (((x.1 +:+ ": " +:+ x.2 +:+ CRLF) +:+ fields_text m) +:+ s)
    with ((x.1 +:+ ": " +:+ x.2) +:+ CRLF +:+ (fields_text m +:+ s)) by (by rewrite <- !app_assoc_s).
  rewrite getlines_CRLF.
  - unfold field_line. by rewrite <- !app_assoc_s.
  - rewrite !free_of_app. split_and!; [done|by vm_compute|done].
Qed.

Lemma parseHeaderLine_field x w : clean_field x ->
  parseHeaderLine (field_line x) w = set_header (map_set x.1 (x.2 +:+ str1 cr) (header w)) w.
Proof.
  intros (_ & _ & Hk & _ & _). unfold parseHeaderLine, field_line.
  change (": " +:+ ?v) with (String colon (String " " v)). rewrite split_at by done.
  destruct (split_cons (String " " (x.2 +:+ str1 cr)) colon) as (v & r & E). rewrite E.
  rewrite remerge_foldl, (join_split _ _ _ _ E). done.
Qed.

Lemma parse_lines_fields m rest : forall w,
  Forall clean_field m ->
  parse_lines (map field_line m ++ rest) true false w
  = parse_lines rest true false
      (set_header (foldl (fun h x => map_set x.1 (x.2 +:+ str1 cr) h) (header w) m) w).
Proof.
  induction m as [|x m IH]; intros w; cbn [map app foldl]; [intros _; by destruct w|].
  intros [Hx Hm]%Forall_cons. cbn [parse_lines].
  destruct (String.eqb_spec (field_line x) (str1 cr)) as [E|_].
  - apply (f_equal String.length) in E. unfold field_line in E. rewrite !length_app_s in E. cbn in E. lia.
  - rewrite parseHeaderLine_field, IH by done. done.
Qed.

(** Entering the fields of a sorted map in their order rebuilds it. *)
Lemma rebuild_map m : forall h,
  sorted_map (h ++ m)%list ->
  foldl (fun h x => map_set x.1 (x.2 +:+ str1 cr) h) (map returned h) m = map returned (h ++ m)%list.
Proof.
  induction m as [|x m IH]; intros h Hs; cbn; [by rewrite app_nil_r|].
  rewrite map_set_last.
  - assert (E : (h ++ x :: m)%list = ((h ++ [x]) ++ m)%list) by (by rewrite <- app_assoc).
    rewrite E in Hs |- *. rewrite <- IH by done. by rewrite map_app.
  - unfold sorted_map in Hs. rewrite map_map. cbn. rewrite map_app in Hs.
    revert Hs. clear IH. induction h as [|y h IHh]; cbn; intros Hs; [constructor|].
    apply StronglySorted_inv in Hs as [Hs Hy]. constructor; [|by apply IHh].
    rewrite Forall_app in Hy. destruct Hy as [_ Hy]. by apply Forall_cons in Hy as [? _].
Qed.

Lemma map_find_returned k m : map_find k (map returned m) = (fun v => v +:+ str1 cr) <$> map_find k m.
Proof. induction m as [|[k' v] m IH]; cbn; [done|]. by destruct (String.eqb k k'). Qed.

(** A message the parser can take apart again. *)
Record clean_message (w : Web) : Prop := {
  clean_line : free_of NUL (headerLine w) /\ free_of nl (headerLine w);
  clean_fields : Forall clean_field (header w);
  clean_sorted : sorted_map (header w);
  clean_body : free_of NUL (body w);
}.
(** It neither asks for a [100 Continue] nor announces more than it holds. *)
Definition complete_message (w : Web) : Prop :=
  map_find "Expect" (header w) <> Some "100-continue"%string /\
  match map_find "Content-Length" (header w) with
  | None => True
  | Some v => exists n, stoi (v +:+ str1 cr) = Some n /\ n <= Z.of_nat (String.length (message_text w))
  end.

Definition received (w : Web) : Web :=
  mkWeb (map returned (header w)) (terminated (body w)) (headerLine w +:+ str1 cr)
    (Z.of_nat (String.length (message_text w))).

Lemma parse_message w w0 : clean_message w -> header w0 = [] -> body w0 = "" ->
  parseReceive (message_text w) false w0
  = (true, mkWeb (header (received w)) (body (received w)) (headerLine (received w)) (bytesRead w0)).
Proof.
  intros [[Hl0 Hl] Hf Hs Hb] Hh0 Hb0. unfold parseReceive, message_text, message_head.
  rewrite (c_str_free _ Hl0), (c_str_free _ Hb), <- !app_assoc_s.
  rewrite getlines_CRLF, getlines_fields by done. cbn [parse_lines negb].
  rewrite parse_lines_fields by done.
  change (CRLF +:+ body w) with ("" +:+ CRLF +:+ body w). rewrite getlines_CRLF by apply free_of_nil.
  cbn [parse_lines]. change (String.eqb ("" +:+ str1 cr) (str1 cr)) with true. cbv iota.
  rewrite parse_lines_body, unlines_getlines. unfold set_header, set_headerLine, set_body. cbn.
  rewrite Hh0, Hb0. do 2 f_equal. exact (rebuild_map (header w) [] Hs).
Qed.

Lemma message_free w : clean_message w -> free_of NUL (message_text w).
Proof.
  intros [[Hl0 _] Hf _ Hb]. unfold message_text, message_head.
  rewrite (c_str_free _ Hl0), (c_str_free _ Hb), !free_of_app. split_and!; try done; try apply CRLF_free.
  induction (header w) as [|x m IH]; cbn; [done|]. apply Forall_cons in Hf as [Hx Hf].
  apply free_of_app. split; [apply header_field_free|by apply IH].
Qed.

Lemma eqb_app_inj (a b c : string) : String.eqb (a +:+ c) (b +:+ c) = true -> a = b.
Proof.
  intros E%String.eqb_eq. revert b E. induction a as [|x a IH]; intros [|y b] E; cbn in E; [done| | |].
  - apply (f_equal String.length) in E. cbn in E. rewrite length_app_s in E. lia.
  - apply (f_equal String.length) in E. cbn in E. rewrite length_app_s in E. lia.
  - injection E as -> E. f_equal. by apply IH.
Qed.

Lemma expect_test (o : option string) : o <> Some "100-continue"%string ->
  match (fun v => v +:+ str1 cr) <$> o with
  | Some v => String.eqb v ("100-continue" +:+ str1 cr) | None => false end = false.
Proof.
  intros H. destruct o as [v|]; cbn [fmap option_fmap option_map]; [|done].
  destruct (String.eqb (v +:+ str1 cr) ("100-continue" +:+ str1 cr)) eqn:E; [|done].
  apply eqb_app_inj in E. congruence.
Qed.

(** The first reading of a message that arrives in pieces. *)
Lemma first_read w chunks ev sent wr :
  clean_message w -> arrives chunks (message_text w) -> quiet ev ->
  readReceive "" (set_bytesRead 0 newWeb) (mkSocket (map Received chunks ++ ev) sent wr)
  = Ok (true, message_text w, set_bytesRead (0 + Z.of_nat (String.length (message_text w))) newWeb)
       (mkSocket ev sent wr).
Proof.
  intros Hc Ha Hq. unfold readReceive, mbind, PM_bind, pget, plift, pmodify, mret, PM_ret.
  cbn [incoming bytesRead set_bytesRead newWeb].
  by rewrite (read_rounds_received _ _ _ _ _ Ha (message_free _ Hc)), (read_rounds_quiet _ _ _ Hq).
Qed.

(** A complete message is read back as it was written: every field with the
    carriage return its line ended in, the body with its last line closed. *)
Lemma receive_message w fuel chunks ev sent wr :
  clean_message w -> complete_message w -> arrives chunks (message_text w) -> quiet ev ->
  receive fuel newWeb (mkSocket (map Received chunks ++ ev) sent wr) = Ok (true, received w) (mkSocket ev sent wr).
Proof.
  intros Hc [He Hlen] Ha Hq. unfold receive.
  rewrite (run_bind _ _ _ _ _ (first_read _ _ _ sent wr Hc Ha Hq)). cbn [negb].
  rewrite (parse_message w) by done. cbn [negb header received bytesRead set_bytesRead].
  rewrite !map_find_returned, (expect_test _ He). cbn [pwhen orb].
  unfold mbind at 1, PM_bind at 1, mret at 1, PM_ret at 1.
  destruct (map_find "Content-Length" (header w)) as [v|]; [|done].
  destruct Hlen as (n & Hn & Hle). cbn [fmap option_fmap option_map].
  unfold mbind, PM_bind, plift. rewrite Hn.
  destruct (Z.ltb_spec (0 + Z.of_nat (String.length (message_text w))) n) as [Hlt|_]; [lia|]. done.
Qed.

(** A length that is no number is an exception nobody catches. *)
Lemma receive_bad_length w v fuel chunks ev sent wr :
  clean_message w -> arrives chunks (message_text w) -> quiet ev ->
  map_find "Expect" (header w) <> Some "100-continue"%string ->
  map_find "Content-Length" (header w) = Some v -> stoi (v +:+ str1 cr) = None ->
  receive fuel newWeb (mkSocket (map Received chunks ++ ev) sent wr) = Fault.
Proof.
  intros Hc Ha Hq He Hv Hn. unfold receive.
  rewrite (run_bind _ _ _ _ _ (first_read _ _ _ sent wr Hc Ha Hq)). cbn [negb].
  rewrite (parse_message w) by done. cbn [negb header received bytesRead set_bytesRead].
  rewrite !map_find_returned, (expect_test _ He), Hv. cbn [pwhen fmap option_fmap option_map].
  unfold mbind, PM_bind, plift. by rewrite Hn.
Qed.

(** ** Requests *)

Definition http_token (s : string) : Prop := free_of NUL s /\ free_of nl s /\ free_of " "%char s.
Definition field_value (s : string) : Prop := free_of NUL s /\ free_of nl s.

Lemma send_Ok_inv w inc s' b :
  send w (mkSocket inc "" []) = Ok b s' -> fits_buffer (message_head w) /\ s' = mkSocket inc (message_text w) [].
Proof.
  intros H. destruct (send_text w (mkSocket inc "" []) eq_refl) as [Hf Hn].
  destruct (decide (Z.of_nat (String.length (message_head w)) < HEADER_BUFFER)) as [Hd|Hd].
  - rewrite (Hf Hd) in H. by injection H as <- <-.
  - by rewrite (Hn Hd) in H.
Qed.

Lemma split3 a b c sep : free_of sep a -> free_of sep b -> free_of sep c ->
  split (a +:+ String sep (b +:+ String sep c)) sep = [a; b; c].
Proof.
  intros Ha Hb Hc. by rewrite !split_at, split_free.
Qed.

Section Exchange.
Context (m p host accept : string).
Context (Hm : http_token m) (Hp : http_token p) (Hh : field_value host) (Ha : field_value accept).

Definition client_request : Client.Request := Client.mkRequest newWeb m p host accept.

Lemma client_fields :
  header (Client.request_message client_request)
  = [("Accept", accept); ("Host", host); ("User-Agent", "NOOBS4IoT 0.1a")]%string.
Proof. done. Qed.

Lemma client_message_clean : clean_message (Client.request_message client_request).
Proof.
  destruct Hm as (? & ? & ?), Hp as (? & ? & ?), Hh, Ha. split; [|..|done].
  - change (headerLine _) with (m +:+ " " +:+ p +:+ " HTTP/1.1"). rewrite !free_of_app.
    split_and!; try done; by vm_compute.
  - rewrite client_fields. repeat constructor; cbn [fst snd]; try done; by vm_compute.
  - unfold sorted_map. rewrite client_fields. repeat constructor.
Qed.

Lemma client_message_complete : complete_message (Client.request_message client_request).
Proof. split; [done|]. by rewrite client_fields. Qed.

Lemma receiveRequest_message w v fuel chunks ev snt wr :
  clean_message w -> complete_message w -> arrives chunks (message_text w) -> quiet ev ->
  headerLine w = m +:+ " " +:+ p +:+ " " +:+ v -> free_of " "%char v ->
  Server.receiveRequest fuel (mkSocket (map Received chunks ++ ev) snt wr)
  = Ok (if String.eqb v "HTTP/1.1" then (true, Server.mkRequest (received w) m p)
        else (false, Server.mkRequest (received w) "" "")) (mkSocket ev snt wr).
Proof.
  intros Hc Hl Har Hq Hline Hv. unfold Server.receiveRequest.
  rewrite (run_bind _ _ _ _ _ (receive_message w fuel chunks ev snt wr Hc Hl Har Hq)). cbn [negb].
  cbn [headerLine received]. rewrite Hline.
  replace ((m +:+ " " +:+ p +:+ " " +:+ v) +:+ str1 cr)
    with (m +:+ String " " (p +:+ String " " (v +:+ str1 cr))) by (by rewrite <- !app_assoc_s).
  rewrite split3.
  - destruct (String.eqb_spec v "HTTP/1.1") as [->|Hne]; [done|].
    destruct (String.eqb (v +:+ str1 cr) ("HTTP/1.1" +:+ str1 cr)) eqn:E; [|done].
    by apply eqb_app_inj in E.
  - apply Hm.
  - apply Hp.
  - apply free_of_app. split; [done|by vm_compute].
Qed.
End Exchange.

(** The length of the head of a client request. *)
Lemma client_head_length m p host accept :
  http_token m -> http_token p -> field_value host -> field_value accept ->
  String.length (message_head (Client.request_message (client_request m p host accept)))
  = (String.length m + String.length p + String.length host + String.length accept + 60)%nat.
Proof.
  intros Hm Hp Hh Ha. set (w := Client.request_message (client_request m p host accept)).
  assert (Hc : clean_message w) by (by apply client_message_clean).
  unfold message_head. rewrite (c_str_free _ (proj1 (clean_line _ Hc))), !length_app_s.
  pose proof (clean_fields _ Hc) as Hf.
  change (header w) with [("Accept", accept); ("Host", host); ("User-Agent", "NOOBS4IoT 0.1a")]%string in Hf |- *.
  cbn [fields_text foldr]. apply Forall_cons in Hf as [H1 Hf]. apply Forall_cons in Hf as [H2 Hf].
  apply Forall_cons in Hf as [H3 _].
  rewrite !header_field_clean by done. rewrite !length_app_s.
  change (headerLine w) with (m +:+ " " +:+ p +:+ " HTTP/1.1"). rewrite !length_app_s. cbn. lia.
Qed.

(** C32. What the client sends the server understands: whatever pieces the bytes
    of a request arrive in, the server finds the method, the path and the host
    (with the carriage return of its line) that the client put into it. *)
Theorem request_roundtrip m p host accept inc t chunks ev fuel snt wr
    (Hm : http_token m) (Hp : http_token p) (Hh : field_value host) (Ha : field_value accept)
    (Hsend : Client.sendRequest (client_request m p host accept) (mkSocket inc "" []) = Ok true (mkSocket inc t []))
    (Hchunks : arrives chunks t) (Hquiet : quiet ev) :
  exists w,
    Server.receiveRequest fuel (mkSocket (map Received chunks ++ ev) snt wr)
      = Ok (true, Server.mkRequest w m p) (mkSocket ev snt wr) /\
    map_find "Host" (header w) = Some (host +:+ str1 cr) /\ body w = "".
Proof.
  apply send_Ok_inv in Hsend as [_ [= ->]].
  exists (received (Client.request_message (client_request m p host accept))).
  split; [|split; [|reflexivity]].
  - rewrite (receiveRequest_message m p Hm Hp _ "HTTP/1.1" _ _ _ _ _
               (client_message_clean m p host accept Hm Hp Hh Ha) (client_message_complete m p host accept));
      try done.
  - cbn [received header]. rewrite client_fields. done.
Qed.

(** The fixed header buffer: a client request is written exactly when its
    parts leave room in the 4096 bytes, and overruns the buffer otherwise. *)
Theorem client_request_bound m p host accept inc
    (Hm : http_token m) (Hp : http_token p) (Hh : field_value host) (Ha : field_value accept) :
  let n := (String.length m + String.length p + String.length host + String.length accept + 60)%nat in
  Client.sendRequest (client_request m p host accept) (mkSocket inc "" [])
  = if bool_decide (Z.of_nat n < 4096)
    then Ok true (mkSocket inc (message_text (Client.request_message (client_request m p host accept))) [])
    else Fault.
Proof.
  intros n. set (w := Client.request_message (client_request m p host accept)).
  assert (Hn : String.length (message_head w) = n) by (by apply client_head_length).
  destruct (send_text w (mkSocket inc "" []) eq_refl) as [Hf Hnf]. unfold fits_buffer in *. rewrite Hn in *.
  unfold HEADER_BUFFER in *. unfold Client.sendRequest. fold w.
  case_bool_decide as Hd; [by rewrite Hf|by rewrite Hnf].
Qed.
