(* ===== verification/WebServe.v ===== *)
(** The HTTP server and client: answers, dispatch, the end of the reading loop
    and URLs. *)
From S2P Require Import Prelude CText Web WebFacts.

(** ** Answers *)

Lemma digit_char_free d : 0 <= d < 16 -> digit_char d <> NUL.
Proof.
  intros Hd E. pose proof (digit_char_xdigit d Hd) as H. rewrite E in H. by vm_compute in H.
Qed.

Lemma write_digits_free fuel base n acc : 2 <= base <= 16 ->
  free_of NUL acc -> free_of NUL (write_digits fuel base n acc).
Proof.
  intros Hb. revert n acc. induction fuel as [|k IH]; intros n acc Ha; [done|]. cbn [write_digits].
  pose proof (Z.mod_pos_bound n base ltac:(lia)).
  assert (free_of NUL (String (digit_char (n mod base)) acc))
    by (apply free_of_cons; split; [apply digit_char_free; lia|done]).
  destruct (_ =? 0); [done|]. by apply IH.
Qed.
Lemma fmt_d_free z : free_of NUL (fmt_d z).
Proof.
  unfold fmt_d, digits. destruct (z <? 0); [apply free_of_cons; split; [by intros [=]|]|];
    (apply write_digits_free; [lia|apply free_of_nil]).
Qed.

Lemma write_digits_length fuel base n acc :
  (String.length (write_digits fuel base n acc) <= fuel + String.length acc)%nat.
Proof.
  revert n acc. induction fuel as [|k IH]; intros n acc; [done|]. cbn [write_digits].
  destruct (_ =? 0); [cbn; lia|]. etrans; [apply IH|]. cbn. lia.
Qed.
Lemma fmt_d_length z : Z.abs z < 2 ^ 64 -> (String.length (fmt_d z) <= 66)%nat.
Proof.
  intros Hz. unfold fmt_d.
  assert (H : forall n, 0 <= n < 2 ^ 64 -> (String.length (digits 10 n) <= 65)%nat).
  { intros n Hn. unfold digits. etrans; [apply write_digits_length|]. cbn [String.length].
    assert (Z.log2 n <= 64).
    { etrans; [apply (Z.log2_le_mono n (2 ^ 64)); lia|]. by rewrite Z.log2_pow2. }
    lia. }
  destruct (Z.ltb_spec z 0); cbn [String.length]; [specialize (H (- z)); lia|specialize (H z); lia].
Qed.

(** The bytes of a plain text answer. *)
Definition answer_text (c : Z) (p b now : string) : string :=
  "HTTP/1.0 " +:+ fmt_d c +:+ " " +:+ p +:+ CRLF +:+
  "Content-Length: " +:+ fmt_d (Z.of_nat (String.length (c_str b))) +:+ CRLF +:+
  "Content-Type: text/plain" +:+ CRLF +:+
  "Date: " +:+ now +:+ CRLF +:+
  "Server: NOOBS4IoT 0.1a" +:+ CRLF +:+ CRLF +:+ c_str b.

Definition plain_phrase (p : string) : Prop := free_of NUL p /\ (String.length p <= 1000)%nat.
(** [strftime] writes at most 99 characters into [buffer]. *)
Definition date_text (now : string) : Prop := free_of NUL now /\ (String.length now <= 99)%nat.
Definition plain_answer (c : Z) (p b : string) : Prop :=
  plain_phrase p /\ Z.abs c < 2 ^ 31 /\ Z.of_nat (String.length b) < 2 ^ 63.

(** For concrete phrases and bodies. *)
Ltac solve_plain := split; [split; [by vm_compute|cbn; lia]|split; [lia|by vm_compute]].

Lemma c_str_length b : (String.length (c_str b) <= String.length b)%nat.
Proof.
  unfold c_str. pose proof (strchr_spec NUL b) as H. destruct (strchr NUL b) as [[a r]|]; [|done].
  destruct H as [-> _]. rewrite length_app_s. lia.
Qed.

Lemma answer_message c p b now :
  plain_phrase p -> date_text now ->
  message_text (Server.response_message (Server.answer c p b (Server.newResponse now))) = answer_text c p b now.
Proof.
  intros [Hp _] [Hd _]. unfold message_text, message_head.
  set (w := Server.response_message _).
  change (headerLine w) with ("HTTP/1.0 " +:+ fmt_d c +:+ " " +:+ p).
  change (body w) with b.
  change (header w) with [("Content-Length", fmt_d (Z.of_nat (String.length (c_str b))));
    ("Content-Type", "text/plain"); ("Date", now); ("Server", "NOOBS4IoT 0.1a")]%string.
  rewrite c_str_free by (rewrite !free_of_app; split_and!; try done; try apply fmt_d_free; by vm_compute).
  cbn [fields_text foldr]. unfold header_field. cbn [fst snd].
  rewrite (c_str_free (fmt_d _)) by apply fmt_d_free. rewrite (c_str_free now) by done.
  unfold answer_text. rewrite <- !app_assoc_s. done.
Qed.

(** Every answer of the server fits the header buffer ... *)
Lemma answer_fits c p b now :
  plain_answer c p b -> date_text now ->
  fits_buffer (message_head (Server.response_message (Server.answer c p b (Server.newResponse now)))).
Proof.
  intros (Hp & Hc & Hb) Hd. pose proof (answer_message c p b now Hp Hd) as Ht.
  unfold message_text in Ht. apply (f_equal String.length) in Ht. rewrite length_app_s in Ht.
  change (body _) with b in Ht. unfold fits_buffer, HEADER_BUFFER.
  assert (H1 := fmt_d_length c ltac:(lia)).
  assert (H2 := fmt_d_length (Z.of_nat (String.length (c_str b)))).
  pose proof (c_str_length b). specialize (H2 ltac:(lia)).
  unfold answer_text in Ht. rewrite !length_app_s in Ht. cbn [String.length CRLF] in Ht.
  destruct Hp as [_ Hp], Hd as [_ Hd]. lia.
Qed.

(** ... and is written. *)
Lemma sendResponse_answer c p b now s :
  plain_answer c p b -> date_text now -> write_results s = [] ->
  Server.sendResponse (Server.answer c p b (Server.newResponse now)) s
  = Ok true (mkSocket (incoming s) (sent s +:+ answer_text c p b now) []).
Proof.
  intros Ha Hd Hw. unfold Server.sendResponse.
  rewrite (proj1 (send_text _ _ Hw)) by (by apply answer_fits). by rewrite answer_message by (done || apply Ha).
Qed.

(** A response that was sent is sent again in the same words. *)
Definition sent_once (c : Z) (p b now : string) : Server.Response :=
  Server.mkResponse (Server.response_message (Server.answer c p b (Server.newResponse now))) c p "text/plain" now.
Lemma resend c p b now :
  Server.response_message (sent_once c p b now)
  = Server.response_message (Server.answer c p b (Server.newResponse now)).
Proof. reflexivity. Qed.

(** ** Dispatch *)

Section Dispatch.
Context {W : Type} `{HasSocketLaws W}.

Lemma on_socket_Ok {A} (m : PM Socket A) st a s' :
  m (socket_of st) = Ok a s' -> on_socket m st = Ok a (with_socket s' st).
Proof. unfold on_socket. by intros ->. Qed.

(** [matchRoute] runs the first matching route. *)
Lemma matchRoute_find (routes : list (Route W)) req res :
  matchRoute routes req res =
  match List.find (route_matches req) routes with
  | Some r => o ← callback r req res; mret (match o with Some res => Some (true, res) | None => None end : option (bool * Server.Response))
  | None => mret (Some (false, res))
  end.
Proof. induction routes as [|r rs IH]; cbn; [done|]. by destruct (route_matches req r). Qed.

(** A connection that carries a request is answered by the first route with its
    path and method; without one by 404, and a request line with another protocol
    version by 400. *)
Lemma serve_request (routes : list (Route W)) fuel now m p v w chunks ev st
    (Hm : http_token m) (Hp : http_token p) (Hv : free_of " "%char v)
    (Hclean : clean_message w) (Hcomplete : complete_message w)
    (Hline : headerLine w = m +:+ " " +:+ p +:+ " " +:+ v)
    (Hchunks : arrives chunks (message_text w)) (Hquiet : quiet ev) (Hdate : date_text now)
    (Hst : socket_of st = mkSocket (map Received chunks ++ ev) "" []) :
  serve_connection fuel now routes st =
  if String.eqb v "HTTP/1.1" then
    match List.find (route_matches (Server.mkRequest (received w) m p)) routes with
    | Some r =>
        (o ← callback r (Server.mkRequest (received w) m p) (Server.newResponse now);
         match o with
         | Some res => on_socket (Server.sendResponse res);; mret true
         | None => mret false
         end) (with_socket (mkSocket ev "" []) st)
    | None => Ok true (with_socket (mkSocket ev (answer_text 404 "Not Found" "Not found" now) []) st)
    end
  else Ok true (with_socket (mkSocket ev (answer_text 400 "Bad Request" "Bad Request" now) []) st).
Proof.
  assert (Hr := receiveRequest_message m p Hm Hp w v fuel chunks ev "" [] Hclean Hcomplete Hchunks Hquiet Hline Hv).
  rewrite <- Hst in Hr. apply on_socket_Ok in Hr. unfold serve_connection. rewrite (run_bind _ _ _ _ _ Hr).
  assert (Hans : forall c ph b, plain_answer c ph b ->
    (on_socket (Server.sendResponse (Server.answer c ph b (Server.newResponse now)));; mret true)
      (with_socket (mkSocket ev "" []) st)
    = Ok true (with_socket (mkSocket ev (answer_text c ph b now) []) st)).
  { intros c ph b Ha.
    assert (Hs := sendResponse_answer c ph b now (mkSocket ev "" []) Ha Hdate eq_refl).
    rewrite <- (socket_of_with (mkSocket ev "" []) st) in Hs at 1. apply on_socket_Ok in Hs.
    rewrite (run_bind _ _ _ _ _ Hs), with_socket_with. done. }
  destruct (String.eqb v "HTTP/1.1"); cbn [negb].
  - rewrite matchRoute_find. destruct (List.find _ routes) as [r|].
    + unfold mbind, PM_bind. destruct (callback r _ _ _) as [[res|] st'| |]; done.
    + apply (Hans 404). by solve_plain.
  - apply (Hans 400). by solve_plain.
Qed.
End Dispatch.

(** ** The end of the reading loop *)

(** The bytes a socket still gives. *)
Fixpoint available (ev : list recv_event) : Z :=
  match ev with
  | [] => 0
  | PeerClosed :: _ => 0
  | Received s :: ev => Z.of_nat (String.length s) + available ev
  | _ :: ev => available ev
  end.

(** No errors, and bytes without NUL in pieces the buffer holds. *)
Definition orderly_event (e : recv_event) : Prop :=
  match e with
  | SelectError | ReadError => False
  | Received s => free_of NUL s /\ s <> EmptyString /\ Z.of_nat (String.length s) < BUFFER_SIZE
  | _ => True
  end.
Definition orderly (ev : list recv_event) : Prop := Forall orderly_event ev.

Lemma available_nonneg ev : 0 <= available ev.
Proof. induction ev as [|[] ev IH]; cbn; lia. Qed.

(** Reading an orderly socket succeeds, accounts for every byte, and uses up
    rounds unless there are no more bytes. *)
Lemma read_rounds_orderly ev : forall buf n, orderly ev ->
  exists buf' n' ev', read_rounds ev buf n = Some (true, buf', n', ev') /\ orderly ev' /\
    n' + available ev' = n + available ev /\ n <= n' /\
    ((length ev' < length ev)%nat \/ ev' = ev /\ available ev = 0).
Proof.
  induction ev as [|e ev IH]; intros buf n Ho; [do 3 eexists; split_and!; by auto|].
  apply Forall_cons in Ho as [He Ho]. destruct e as [| | | |s]; try done.
  - do 3 eexists. split_and!; [done|done|done|done|left; cbn; lia].
  - do 3 eexists. split_and!; [done|by constructor|done|done|by right].
  - destruct He as (Hf & Hne & Hl). cbn [read_rounds available]. destruct s as [|c s]; [done|].
    replace (BUFFER_SIZE <=? _) with false by (symmetry; apply Z.leb_gt; lia). cbn [andb].
    destruct (IH (buf +:+ c_str (String c s)) (n + Z.of_nat (String.length (String c s))) Ho)
      as (b & n' & ev' & -> & Ho' & Hn & Hle & Hlt).
    exists b, n', ev'. split_and!; [done|done|lia|lia|].
    left. destruct Hlt as [?|[-> _]]; cbn; lia.
Qed.

Lemma readReceive_orderly buf w s : orderly (incoming s) ->
  exists buf' n' ev', readReceive buf w s
    = Ok (true, buf', set_bytesRead n' w) (mkSocket ev' (sent s) (write_results s)) /\ orderly ev' /\
    n' + available ev' = bytesRead w + available (incoming s) /\ bytesRead w <= n' /\
    ((length ev' < length (incoming s))%nat \/ ev' = incoming s /\ available (incoming s) = 0) /\
    read_rounds (incoming s) buf (bytesRead w) = Some (true, buf', n', ev').
Proof.
  intros Ho. destruct (read_rounds_orderly _ buf (bytesRead w) Ho) as (b & n' & ev' & E & Ho' & Hn & Hle & Hl).
  exists b, n', ev'. split_and!; try done.
  unfold readReceive, mbind, PM_bind, pget, plift, pmodify, mret, PM_ret. by rewrite E.
Qed.

(** Starved of bytes the loop goes on for ever ... *)
Lemma continue_read_starved fuel : forall size buf w s,
  orderly (incoming s) -> size <> -1 -> bytesRead w + available (incoming s) < size ->
  continue_read fuel size buf w s = NoFuel.
Proof.
  induction fuel as [|k IH]; intros size buf w s Ho Hsize Hlt; [done|]. cbn [continue_read].
  destruct (readReceive_orderly buf w s Ho) as (b & n' & ev' & E & Ho' & Hn & _).
  rewrite (run_bind _ _ _ _ _ E). cbn [negb bytesRead set_bytesRead].
  rewrite (proj2 (Z.eqb_neq _ _) Hsize). cbn [negb andb]. pose proof (available_nonneg ev').
  destruct (Z.ltb_spec n' size); [|lia]. apply IH; cbn; [done..|lia].
Qed.

(** ... and otherwise ends before the rounds do. *)
Lemma continue_read_ends fuel : forall size buf w s,
  orderly (incoming s) -> (length (incoming s) < fuel)%nat ->
  continue_read fuel size buf w s = NoFuel -> bytesRead w + available (incoming s) < size.
Proof.
  induction fuel as [|k IH]; intros size buf w s Ho Hfuel; [lia|]. cbn [continue_read].
  destruct (readReceive_orderly buf w s Ho) as (b & n' & ev' & E & Ho' & Hn & _ & Hl & _).
  rewrite (run_bind _ _ _ _ _ E). cbn [negb bytesRead set_bytesRead].
  destruct (negb (size =? -1)); [|done]. cbn [andb].
  destruct (Z.ltb_spec n' size) as [Hlt|_]; [|done].
  destruct Hl as [Hl|[-> H0]]; [|lia].
  intros Hk. apply IH in Hk; cbn in *; [lia|done|lia].
Qed.

(** The length the header of the message announces. *)
Definition announced (s : Socket) : option Z :=
  match read_rounds (incoming s) "" 0 with
  | Some (true, buf, n, _) =>
      match parseReceive buf false (set_bytesRead n newWeb) with
      | (true, w) => v ← map_find "Content-Length" (header w); stoi v
      | _ => None
      end
  | _ => None
  end.

Lemma bind_NoFuel {S A B} (m : PM S A) (f : A -> PM S B) s :
  (forall a s, f a s <> NoFuel) -> (m ≫= f) s = NoFuel <-> m s = NoFuel.
Proof. intros H. unfold mbind, PM_bind. destruct (m s) as [a s'| |]; [|done|done]. split; [|done]. by intros ?%H. Qed.
Lemma run_plift_bind {S A B C} (o : option A) (g : A -> B) (f : B -> PM S C) s :
  ((a ← plift o; mret (g a)) ≫= f) s = match o with Some a => f (g a) s | None => Fault end.
Proof. by destruct o. Qed.

Lemma parse_lines_bytesRead ls : forall h f w, bytesRead (parse_lines ls h f w).2 = bytesRead w.
Proof.
  induction ls as [|l ls IH]; intros h f w; cbn [parse_lines]; [done|]. destruct h; [|by rewrite IH].
  destruct f; [by rewrite IH|]. destruct (String.eqb l (str1 cr)); rewrite IH; [done|].
  unfold parseHeaderLine. by destruct (split l colon) as [|? [|??]].
Qed.

Lemma send_continue s :
  exists b wr snt, send (set_headerLine "HTTP/1.0 100 Continue" newWeb) s = Ok b (mkSocket (incoming s) snt wr).
Proof.
  change (send _ s) with ((t ← sock_write ("HTTP/1.0 100 Continue" +:+ CRLF +:+ CRLF);
    t' ← sock_write ""; mret (negb (t + t' <=? 0))) s).
  unfold mbind, PM_bind, sock_write. destruct (write_results s) as [|r [|r' rs]]; by do 3 eexists.
Qed.

(** C34. On an orderly connection the server stops reading a request unless its
    header announces more bytes than the peer ever sends; such a request occupies
    the (single threaded) server for ever. *)
Theorem receive_returns_iff s fuel
    (Ho : orderly (incoming s)) (Hfuel : (length (incoming s) < fuel)%nat) :
  receive fuel newWeb s = NoFuel <->
  exists n, announced s = Some n /\ available (incoming s) < n.
Proof.
  unfold announced, receive.
  destruct (readReceive_orderly "" (set_bytesRead 0 newWeb) s Ho)
    as (buf & n1 & ev1 & E & Ho1 & Hn1 & Hge1 & Hl1 & Er).
  cbn [bytesRead set_bytesRead] in Hn1, Hge1, Er. rewrite (run_bind _ _ _ _ _ E), Er. cbn [negb].
  change (set_bytesRead n1 (set_bytesRead 0 newWeb)) with (set_bytesRead n1 newWeb).
  pose proof (parse_lines_bytesRead (getlines buf) true true (set_bytesRead n1 newWeb)) as Hb.
  fold (parseReceive buf false (set_bytesRead n1 newWeb)) in Hb.
  change (parse_lines (getlines buf) true true) with (parseReceive buf false) in Hb.
  destruct (parseReceive buf false _) as [[] w]; cbn [negb snd] in *;
    [|split; [done|by intros (? & ? & ?)]].
  cbn [bytesRead set_bytesRead] in Hb.
  set (expect := match map_find "Expect" (header w) with Some v => _ | None => false end).
  assert (Hexp : exists snt wr,
    pwhen expect (send (set_headerLine "HTTP/1.0 100 Continue" newWeb);; mret tt)
      (mkSocket ev1 (sent s) (write_results s)) = Ok tt (mkSocket ev1 snt wr)).
  { destruct expect; [|by do 2 eexists]. cbn [pwhen].
    destruct (send_continue (mkSocket ev1 (sent s) (write_results s))) as (b & wr & snt & Es).
    rewrite (run_bind _ _ _ _ _ Es). by do 2 eexists. }
  destruct Hexp as (snt & wr & Hexp). rewrite (run_bind _ _ _ _ _ Hexp). clear Hexp.
  pose proof (available_nonneg ev1) as Hav.
  assert (Hlen1 : (length ev1 < fuel)%nat) by (destruct Hl1 as [?|[-> _]]; lia).
  destruct (map_find "Content-Length" (header w)) as [v|]; cbn [mbind option_bind].
  - rewrite run_plift_bind. destruct (stoi v) as [n|]; [|split; [done|by intros (? & ? & ?)]].
    rewrite Hb. destruct (Z.ltb_spec n1 n) as [Hlt|Hge].
    + rewrite orb_true_r, bind_NoFuel by (intros [[[] ?] ?] ?; done). split.
      * intros Hk. exists n. split; [done|]. apply continue_read_ends in Hk; cbn in *; [lia|done|done].
      * intros (n' & [= <-] & Hs). apply continue_read_starved; cbn; [done|lia|lia].
    + rewrite orb_false_r. destruct expect.
      * rewrite bind_NoFuel by (intros [[[] ?] ?] ?; done). split.
        -- intros Hk. apply continue_read_ends in Hk; cbn in *; [lia|done|done].
        -- intros (n' & [= <-] & Hs). lia.
      * split; [done|]. intros (n' & [= <-] & Hs). lia.
  - unfold mbind at 1, PM_bind at 1, mret at 1, PM_ret at 1. rewrite orb_false_r.
    destruct expect; [|split; [done|by intros (? & ? & ?)]].
    rewrite bind_NoFuel by (intros [[[] ?] ?] ?; done). split; [|by intros (? & ? & ?)].
    intros Hk. apply continue_read_ends in Hk; cbn in *; [lia|done|done].
Qed.

(** ** The client *)


Definition slash : Ascii.ascii := "/"%char.

Lemma split_path first rest path :
  split path slash = first :: rest ->
  foldl (fun p x => p +:+ ("/" +:+ x)) ("/" +:+ first) rest = "/" +:+ path.
Proof.
  intros E. rewrite <- (join_split _ _ _ _ E). exact (foldl_join slash rest "/" first).
Qed.

Lemma url_split_http host path : free_of NUL host -> free_of NUL path -> free_of slash host ->
  url_split ("http://" +:+ host +:+ "/" +:+ path) = HostPath host ("/" +:+ path).
Proof.
  intros Hh Hp Hs. unfold url_split.
  rewrite c_str_free by (rewrite !free_of_app; split_and!; try done; by vm_compute).
  rewrite strip_prefix_app. cbv zeta.
  assert (E : String.substring 7 (String.length ("http://" +:+ host +:+ "/" +:+ path)) ("http://" +:+ host +:+ "/" +:+ path)
              = host +:+ "/" +:+ path).
  { cbn. apply substring_long. lia. }
  rewrite E. change ("/" +:+ path) with (String slash path) at 1. change "/"%char with slash.
  rewrite split_at by done. destruct (split_cons path slash) as (f & r & Ef). rewrite Ef.
  f_equal. by apply split_path.
Qed.

(** What a URL makes the client do: [http://host/path] asks [host] at port 80
    for [/path], whatever further slashes the path has; https gives the empty
    document; a URL without a path reads behind the end of the split URL. *)
Theorem webclient_get_url fuel net host path
    (Hh : free_of NUL host) (Hp : free_of NUL path) (Hs : free_of slash host) :
  webclient_get fuel net ("http://" +:+ host +:+ "/" +:+ path) = get_host fuel net host ("/" +:+ path) 80 /\
  webclient_get fuel net ("https://" +:+ host +:+ "/" +:+ path) = Ok ""%string tt /\
  webclient_get fuel net ("http://" +:+ host) = Fault.
Proof.
  unfold webclient_get. split_and!.
  - by rewrite url_split_http.
  - unfold url_split.
    rewrite c_str_free by (rewrite !free_of_app; split_and!; try done; by vm_compute). done.
  - unfold url_split. rewrite c_str_free by (rewrite free_of_app; split; [by vm_compute|done]).
    rewrite strip_prefix_app. cbv zeta.
    assert (E : String.substring 7 (String.length ("http://" +:+ host)) ("http://" +:+ host) = host)
      by (cbn; apply substring_long; lia).
    rewrite E. change "/"%char with slash. by rewrite split_free.
Qed.

(** Whether a text is more than one word. *)
Definition has_space (p : string) : bool := negb (string_all (fun d => negb (char_eqb d " ")) p).
Lemma has_space_split p : has_space p = true -> exists a b, p = a +:+ String " " b /\ free_of " "%char a.
Proof.
  unfold has_space. intros H%negb_true_iff. induction p as [|c p IH]; [done|]. cbn in H.
  destruct (char_eqb_spec c " ") as [->|Hc]; [by exists "", p|]. destruct (IH H) as (a & b & -> & Ha).
  exists (String c a), b. split; [done|]. by apply free_of_cons.
Qed.
(** The status line is split at every space, and the reason must be one word. *)
Lemma status_parts v c p : free_of " "%char v -> free_of " "%char c ->
  (has_space p = false -> split (v +:+ String " " (c +:+ String " " (p +:+ str1 cr))) " " = [v; c; p +:+ str1 cr]) /\
  (has_space p = true -> exists a b l, split (v +:+ String " " (c +:+ String " " (p +:+ str1 cr))) " " = v :: c :: a :: b :: l).
Proof.
  intros Hv Hc. split; intros Hp.
  - apply split3; [done..|]. apply free_of_app. split; [by apply negb_false_iff in Hp|by vm_compute].
  - destruct (has_space_split p Hp) as (a & b & -> & Ha). rewrite <- app_assoc_s, !split_at by done.
    change (String " " b +:+ str1 cr) with (String " " (b +:+ str1 cr)). rewrite split_at by done.
    destruct (split_cons (b +:+ str1 cr) " ") as (w & ws & ->). by exists a, w, ws.
Qed.


(** A request to exit to the shell, as the client writes it. *)
Definition exit_request : Web := Client.request_message (client_request "POST" "/exit" "pi" "*/*").
Definition exit_chunks : list string :=
  [String.substring 0 10 (message_text exit_request); String.substring 10 500 (message_text exit_request)].
Lemma exit_request_clean : clean_message exit_request.
Proof. apply client_message_clean; by split_and!; vm_compute. Qed.
Lemma exit_request_complete : complete_message exit_request.
Proof. split; [done|exact I]. Qed.
Lemma exit_chunks_arrive : arrives exit_chunks (message_text exit_request).
Proof. split; [by vm_compute|]. repeat constructor; by vm_compute. Qed.

Lemma request_roundtrip_witness :
  exists w,
    Server.receiveRequest 3 (mkSocket (map Received exit_chunks ++ [PeerClosed]) "" [])
      = Ok (true, Server.mkRequest w "POST" "/exit") (mkSocket [PeerClosed] "" []) /\
    map_find "Host" (header w) = Some ("pi" +:+ str1 cr) /\ body w = "".
Proof.
  apply (request_roundtrip "POST" "/exit" "pi" "*/*" [] (message_text exit_request)).
  - by split_and!; vm_compute.
  - by split_and!; vm_compute.
  - by split_and!; vm_compute.
  - by split_and!; vm_compute.
  - vm_compute. reflexivity.
  - exact exit_chunks_arrive.
  - right. by eexists.
Defined.

Lemma client_request_bound_witness :
  Client.sendRequest (client_request "GET" "/os" "pi" "*/*") (mkSocket [] "" [])
  = Ok true (mkSocket [] (message_text (Client.request_message (client_request "GET" "/os" "pi" "*/*"))) []).
Proof.
  rewrite (client_request_bound "GET" "/os" "pi" "*/*"); [reflexivity|by split_and!; vm_compute..].
Defined.

(** A peer that announces 1000 bytes, sends a few and closes. *)
Definition short_message : string :=
  "POST /os HTTP/1.1" +:+ CRLF +:+ "Content-Length: 1000" +:+ CRLF +:+ CRLF +:+ "{}".

Lemma receive_returns_iff_witness :
  receive 7 newWeb (mkSocket [Received short_message; PeerClosed] "" []) = NoFuel.
Proof.
  apply receive_returns_iff.
  - repeat constructor; by vm_compute.
  - cbn. lia.
  - exists 1000. split; by vm_compute.
Defined.

Definition ok_document : Web := set_body ("{}" +:+ NL) (set_headerLine "HTTP/1.1 200 OK" newWeb).
Definition web_net : network := fun _ _ => Some (mkSocket (map Received [message_text ok_document] ++ [PeerClosed]) "" []).

Lemma webclient_get_url_witness :
  webclient_get 3 web_net "http://pi/a/b" = get_host 3 web_net "pi" "/a/b" 80 /\
  webclient_get 3 web_net "https://pi/a/b" = Ok ""%string tt /\
  webclient_get 3 web_net "http://pi" = Fault.
Proof. apply (webclient_get_url 3 web_net "pi" "a/b"); by vm_compute. Defined.

(** The same document under another status. *)
Definition lost_document : Web := set_body ("{}" +:+ NL) (set_headerLine "HTTP/1.1 404 Not Found" newWeb).
Definition lost_net : network := fun _ _ => Some (mkSocket (map Received [message_text lost_document] ++ [PeerClosed]) "" []).
