(* ===== verification/Qt.v ===== *)
(** The parts of Qt and QJson the recovery program uses beyond [QMap]: their
    text, variant and JSON functions, as an interface with the documented laws
    its theorems rely on.  None of this code is in the repository. *)
From S2P Require Import Prelude CText.

#[local] Set Warnings "-register-all".

(** The values of a [QVariant] the program makes or takes apart. *)
Inductive QVariant : Type :=
| VBool (b : bool)
| VInt (n : Z)
| VString (s : string)
| VList (l : list QVariant)
| VMap (m : list (string * QVariant)).

Definition QVariantMap : Type := list (string * QVariant).

(** [QMap::contains] and [QMap::value] on a JSON object; [insert], by key order. *)
Fixpoint vlookup (k : string) (m : QVariantMap) : option QVariant :=
  match m with [] => None | (k', v) :: m => if String.eqb k k' then Some v else vlookup k m end.
Fixpoint vinsert (k : string) (v : QVariant) (m : QVariantMap) : QVariantMap :=
  match m with
  | [] => [(k, v)]
  | (k', v') :: r =>
      if String.eqb k k' then (k, v) :: r
      else if string_ltb k k' then (k, v) :: m else (k', v') :: vinsert k v r
  end.

Class Qt := {
  (** [QByteArray::number] and [QString::number] of an [int]. *)
  number : Z -> string;
  (** [startsWith] and [endsWith]: the argument first. *)
  startsWith : string -> string -> bool;
  endsWith : string -> string -> bool;
  (** [QByteArray::trimmed]. *)
  trimmed : string -> string;
  (** [replace(before, after)] of [QString] and [QByteArray]. *)
  replace : string -> string -> string -> string;
  (** [QByteArray::toInt]/[QString::toInt]; [None] when [ok] is false (the value is then 0). *)
  toInt : string -> option Z;
  (** [QByteArray::toULongLong]. *)
  toULongLong : string -> option Z;
  (** [QString::compare(_, Qt::CaseInsensitive) == 0]. *)
  ci_eq : string -> string -> bool;
  (** [QString::contains(_, Qt::CaseInsensitive)]. *)
  contains_ci : string -> string -> bool;
  (** [QJson::Parser::parse(..., &ok)]: [None] when not [ok]. *)
  parse_json : string -> option QVariant;
  (** [QJson::Serializer::serialize], likewise. *)
  serialize_json : QVariant -> option string;
  (** [QSettings(..., IniFormat).value]: the text of the file, when there is one, and the key. *)
  ini_value : option string -> string -> option QVariant;
  (** [canConvert<T>] and [value<T>]. *)
  as_string : QVariant -> option string;
  as_bytes : QVariant -> option string;
  as_bool : QVariant -> option bool;
  as_int : QVariant -> option Z;
  as_string_list : QVariant -> option (list string);
  as_list : QVariant -> option (list QVariant);
  as_map : QVariant -> option QVariantMap;
}.

(** Numbers are decimals and are read back, [startsWith] finds prefixes, [replace]
    replaces what occurs and nothing else, texts are equal to themselves, and a
    value converts to its own type. *)
Class QtLaws `{Qt} : Prop := {
  number_plain : forall z, string_all (fun c => isdigit c || char_eqb c "-") (number z) = true;
  toInt_number : forall z, is_i32 z -> toInt (number z) = Some z;
  startsWith_spec : forall p s, startsWith p s = true <-> exists t, s = p +:+ t;
  replace_prefix : forall b a s, b <> EmptyString -> replace b a (b +:+ s) = a +:+ replace b a s;
  replace_absent : forall b a s, (forall x y, s <> x +:+ b +:+ y) -> replace b a s = s;
  toInt_range : forall s z, toInt s = Some z -> is_i32 z;
  ci_eq_refl : forall s, ci_eq s s = true;
  as_list_VList : forall l, as_list (VList l) = Some l;
  as_map_VMap : forall m, as_map (VMap m) = Some m;
}.

Definition toInt_or_0 `{Qt} (s : string) : Z := default 0 (toInt s).
Definition toULongLong_or_0 `{Qt} (s : string) : Z := default 0 (toULongLong s).
