(* ===== verification/Sys.v ===== *)
(** The world the recovery program acts on, and its system helpers: [Utility::Sys]
    and [Utility::Json] (src/recovery/Utility_Sys.cpp, Utility_Json.cpp,
    Utility.h) and the mounting of [PartitionInfo] (PartitionInfo.cpp).

    The processes the program starts are not part of the repository: what they
    do to the files, their exit codes and their output are parameters, functions
    of everything that was started before. *)
From S2P Require Import Prelude CText Qt Install Web.

(** What leaves the program: processes (with the text piped into them), the
    setup script with its arguments and environment, system calls, the direct
    write to the partition table, and the signal [finished()]. *)
Inductive action : Type :=
| Run (cmd stdin : string)
| RunScript (args : list string) (env : list (string * string))
| SyncDisks
| ZeroTableEntries (device : string) (from bytes : Z)
| RebootMachine
| Finished.

Abbreviation file_system := (gmap string string).

(** The operating system below the program. *)
Class System := {
  exit_code : list action -> Z;
  output : list action -> string;
  after_action : list action -> file_system -> file_system;
  openable : list action -> string -> bool;
  removable : list action -> string -> bool;
  write_error : list action -> string -> string -> bool;
}.

(** The objects of the program, the files and devices by path, what was done
    so far (latest last), the socket of the connection being served, and the
    number of connections the program opened itself. *)
Record World := mkWorld {
  objects : gmap ptr PartitionInfo;
  files : file_system;
  trace : list action;
  connection : Socket;
  dialed : nat;
}.
Definition set_objects (o : gmap ptr PartitionInfo) (w : World) : World :=
  mkWorld o (files w) (trace w) (connection w) (dialed w).
Definition set_files (f : file_system) (w : World) : World :=
  mkWorld (objects w) f (trace w) (connection w) (dialed w).
Definition dial (w : World) : World :=
  mkWorld (objects w) (files w) (trace w) (connection w) (S (dialed w)).
#[export] Instance World_HasSocket : HasSocket World :=
  {| socket_of := connection; with_socket s w := mkWorld (objects w) (files w) (trace w) s (dialed w) |}.
#[export] Instance World_HasSocketLaws : HasSocketLaws World.
Proof. by split. Qed.

Section Sys.
Context `{System} `{Qt}.

(** ** Processes and files *)

Definition perform (a : action) : PM World Z :=
  w ← pget;
  let t := (trace w ++ [a])%list in
  pmodify (fun w => mkWorld (objects w) (after_action t (files w)) t (connection w) (dialed w));;
  mret (exit_code t).
(** [QProcess::execute]. *)
Definition execute (cmd : string) : PM World Z := perform (Run cmd "").
Definition last_output : PM World string := w ← pget; mret (output (trace w)).

Definition exists_path (path : string) : PM World bool :=
  w ← pget; mret (bool_decide (is_Some (files w !! path))).
(** [QFile::remove]: whether the file was there and could be removed. *)
Definition remove_file (path : string) : PM World bool :=
  w ← pget;
  if bool_decide (is_Some (files w !! path)) && removable (trace w) path
  then pmodify (set_files (delete path (files w)));; mret true else mret false.
Definition make_dir (path : string) : PM World unit := pmodify (fun w => set_files (<[path := ""%string]> (files w)) w).

(** [open(ReadOnly)] and [readAll]; [None] when the file does not open. *)
Definition read_file (path : string) : PM World (option string) :=
  w ← pget; mret (if openable (trace w) path then files w !! path else None).

(** [open(WriteOnly)] and [write]: the file is truncated first. *)
Inductive write_result : Type := WriteOk | OpenFailed | WriteFailed.
Definition write_file (path data : string) : PM World write_result :=
  w ← pget;
  if negb (openable (trace w) path) then mret OpenFailed
  else if write_error (trace w) path data then
    pmodify (fun w => set_files (<[path := ""%string]> (files w)) w);; mret WriteFailed
  else pmodify (fun w => set_files (<[path := data]> (files w)) w);; mret WriteOk.
(** [open(Append)] and [write]. *)
Definition append_file (path data : string) : PM World unit :=
  w ← pget;
  if negb (openable (trace w) path) then mret tt
  else pmodify (fun w => set_files (<[path := default ""%string (files w !! path) +:+ data]> (files w)) w).

(** [Utility::Sys::getFileContents] and [putFileContents]. *)
Definition getFileContents (path : string) : PM World string :=
  o ← read_file path; mret (default ""%string o).
Definition putFileContents (path data : string) : PM World bool :=
  e ← exists_path path;
  if e : bool then mret false
  else r ← write_file path data; mret (match r with WriteOk => true | _ => false end).

(** ** Mounting *)

Definition SETTINGS_PARTITION : string := "/dev/mmcblk0p5".
Definition SETTINGS_DIR : string := "/settings".
Definition SYSTEMS_PARTITION : string := "/dev/mmcblk0p1".
Definition SYSTEMS_DIR : string := "/mnt".

(** [partitionIsMounted]: [QProcess::execute] starts [mount] with the rest of
    the line as its arguments; there is no shell to make a pipe. *)
Definition partitionIsMounted (partition dir : string) : PM World bool :=
  c ← execute ("mount | grep " +:+ partition +:+ (if String.eqb dir "" then "" else " on " +:+ dir));
  mret (c =? 0).
Definition mountPartition (partition dir args : string) : PM World bool :=
  e ← exists_path dir;
  pwhen (negb e) (make_dir dir);;
  m ← partitionIsMounted partition dir;
  if m : bool then mret true
  else
    ep ← exists_path partition;
    ed ← exists_path dir;
    if ep && ed then
      c ← execute ("mount " +:+ args +:+ " " +:+ partition +:+ " " +:+ dir); mret (c =? 0)
    else mret false.
Definition unmountPartition (dir : string) : PM World bool :=
  c ← execute ("umount " +:+ dir); mret (c =? 0).
Definition remountPartition (dir args : string) : PM World bool :=
  m ← partitionIsMounted dir "";
  if negb m then mret false
  else
    e ← exists_path dir;
    if e : bool then
      c ← execute (if String.eqb args "" then "mount -o remount " +:+ dir
                   else "mount -o remount," +:+ args +:+ " " +:+ dir);
      mret (c =? 0)
    else mret false.
Definition mountSystemsPartition : PM World bool := mountPartition SYSTEMS_PARTITION SYSTEMS_DIR "-t vfat".
Definition unmountSystemsPartition : PM World bool := unmountPartition SYSTEMS_DIR.
Definition mountSettingsPartition : PM World bool := mountPartition SETTINGS_PARTITION SETTINGS_DIR "-t ext4".
Definition unmountSettingsPartition : PM World bool := unmountPartition SETTINGS_DIR.

(** ** JSON *)

(** [Utility::Json::parseJson]: an empty map on errors, and for what is no map. *)
Definition parseJson (text : string) : QVariantMap :=
  match parse_json text with Some v => default [] (as_map v) | None => [] end.
(** [Utility::Json::loadFromFile]; [None] is the invalid variant. *)
Definition loadFromFile (path : string) : PM World (option QVariant) :=
  o ← read_file path; mret (t ← o; parse_json t).
(** [Utility::Json::saveToFile]. *)
Definition saveToFile (path : string) (json : QVariant) : PM World bool :=
  match serialize_json json with
  | Some t => r ← write_file path t; mret (match r with OpenFailed => false | _ => true end)
  | None => r ← write_file path ""; mret false
  end.

(** [Utility::Json::parseEntry]: the result, and the value when one was stored. *)
Definition parseEntry {A} (conv : QVariant -> option A) (source : QVariantMap) (key : string) (optional : bool)
  : bool * option A :=
  match vlookup key source with
  | Some v => match conv v with Some a => (true, Some a) | None => (false, None) end
  | None => (optional, None)
  end.

(** ** PartitionInfo: mount and unmount *)

Definition set_mountedDir (d : string) (p : PartitionInfo) : PartitionInfo :=
  mkPartitionInfo (fstype p) (mkfsOptions p) (label p) (partitionDevice p) (partitionType p) (tarball p)
    d (partitionSizeNominal p) (requiresPartitionNumber p) (offset p)
    (uncompressedTarballSize p) (partitionSizeSectors p) (emptyFS p) (wantMaximised p) (active p).

Definition deref (q : ptr) : PM World PartitionInfo := w ← pget; plift (objects w !! q).
Definition assign (q : ptr) (p : PartitionInfo) : PM World unit :=
  pmodify (fun w => set_objects (<[q := p]> (objects w)) w).

Definition mount_command (p : PartitionInfo) (dir args : string) : string :=
  (if String.eqb (fstype p) "ntfs" then "/sbin/mount.ntfs-3g " else "mount ")
  +:+ " " +:+ args +:+ " " +:+ partitionDevice p +:+ " " +:+ dir.

(** [PartitionInfo::mountPartition] and [unmountPartition]. *)
Definition PartitionInfo_mount (q : ptr) (dir args : string) : PM World bool :=
  p ← deref q;
  if negb (String.eqb (mountedDir p) "") then mret false
  else if String.eqb (partitionDevice p) "" then mret false
  else
    ed ← exists_path dir;
    ep ← exists_path (partitionDevice p);
    if ed && ep then
      c ← execute (mount_command p dir args);
      if c =? 0 then assign q (set_mountedDir dir p);; mret true else mret false
    else mret false.
Definition PartitionInfo_unmount (q : ptr) : PM World bool :=
  p ← deref q;
  if String.eqb (mountedDir p) "" then mret true
  else
    c ← execute ("umount " +:+ mountedDir p);
    if c =? 0 then assign q (set_mountedDir "" p);; mret true else mret false.
End Sys.
