(* ===== verification/Boot.v ===== *)
(** The boot manager (src/recovery/BootManager.cpp): the default boot partition,
    booting into a partition, and the choice between booting and setup. *)
From S2P Require Import Prelude CText Qt Install Web Sys.

Section Boot.
Context `{System} `{Qt}.

Definition DEFAULT_BOOT_PARTITION_FILE : string := "/settings/default_boot_partition".
Definition DEVICE_PREFIX : string := "/dev/mmcblk0p".
Definition INSTALLED_OS_FILE : string := "/settings/installed_os.json".

(** [setDefaultBootPartition(const QString &)]. *)
Definition setDefaultBootPartition (partitionDevice : string) : PM World bool :=
  if negb (startsWith DEVICE_PREFIX partitionDevice) then mret false
  else
    e ← exists_path DEFAULT_BOOT_PARTITION_FILE;
    pwhen e (remove_file DEFAULT_BOOT_PARTITION_FILE;; mret tt);;
    putFileContents DEFAULT_BOOT_PARTITION_FILE partitionDevice.

(** [setDefaultBootPartition(PartitionInfo &)] and [(OSInfo &)]. *)
Definition setDefaultBootPartition_partition (q : ptr) : PM World bool :=
  p ← deref q;
  if String.eqb (partitionDevice p) "" then mret false else setDefaultBootPartition (partitionDevice p).
Definition setDefaultBootPartition_os (partitions : list ptr) : PM World bool :=
  match partitions with [] => mret false | first :: _ => setDefaultBootPartition_partition first end.

(** The parameter file of the kernel module that takes the partition to reboot
    into. *)
Definition reboot_parameter : PM World (option string) :=
  e9 ← exists_path "/sys/module/bcm2709/parameters/reboot_part";
  if e9 : bool then mret (Some "/sys/module/bcm2709/parameters/reboot_part"%string)
  else
    e8 ← exists_path "/sys/module/bcm2708/parameters/reboot_part";
    mret (if e8 : bool then Some "/sys/module/bcm2708/parameters/reboot_part"%string else None).

(** [bootIntoPartition]; [true] when the reboot was requested. *)
Definition bootIntoPartition (partitionDevice : string) : PM World bool :=
  partDevice ← (if String.eqb partitionDevice "" then getFileContents DEFAULT_BOOT_PARTITION_FILE
                else mret partitionDevice);
  if negb (startsWith DEVICE_PREFIX partDevice) then mret false
  else
    match toInt (replace DEVICE_PREFIX "" partDevice) with
    | None => mret false
    | Some n =>
        dev ← reboot_parameter;
        match dev with
        | None => mret false
        | Some rebootDev =>
            write_file rebootDev (number n +:+ NL);;
            execute "ifdown -a";;
            execute "umount -ar";;
            perform SyncDisks;;
            perform RebootMachine;;
            mret true
        end
    end.

(** [getInstalledOS] and [hasInstalledOS]. *)
Definition getInstalledOS : PM World (list QVariant) :=
  e ← exists_path INSTALLED_OS_FILE;
  if e : bool then
    o ← loadFromFile INSTALLED_OS_FILE;
    mret (match o with Some v => default [] (as_list v) | None => [] end)
  else mret [].
Definition hasInstalledOS : PM World bool :=
  l ← getInstalledOS; mret (match l with [] => false | _ => true end).

(** The argument loop of [bootCheck]: the flags [runinstaller] and [webserver]. *)
Fixpoint process_arguments (args : list string) (runinstaller webserver : bool) : PM World (bool * bool) :=
  match args with
  | [] => mret (runinstaller, webserver)
  | a :: rest =>
      if ci_eq a "-runinstaller" then process_arguments rest true webserver
      else if ci_eq a "-partition" then
        match rest with
        | d :: _ => setDefaultBootPartition d;; mret tt
        | [] => mret tt
        end;;
        process_arguments rest runinstaller webserver
      else if ci_eq a "-no-webserver" then process_arguments rest runinstaller false
      else process_arguments rest runinstaller webserver
  end.

(** [bootCheck]: whether to boot, and the new value of [webserver]. *)
Definition bootCheck (args : list string) (webserver : bool) : PM World (bool * bool) :=
  r ← process_arguments args false webserver;
  let '(runinstaller, webserver) := r in
  if runinstaller : bool then mret (false, webserver)
  else i ← hasInstalledOS; mret (i, webserver).
End Boot.
