(* ===== verification/OsInfo.v ===== *)
(** The description of an operating system (src/recovery/OSInfo.cpp) and of its
    partitions (PartitionInfo.cpp), read from JSON documents, some of which are
    downloaded. *)
From S2P Require Import Prelude CText Qt Install Web Sys.

(** The members of [OSInfo]; nothing ever sets [os_flavour] and [os_folder], and
    [os_riscosOffset] is set for RISC OS only. *)
Record OSData := mkOS {
  os_folder : string;
  os_flavour : string;
  os_name : string;
  os_description : string;
  os_version : string;
  os_releaseDate : string;
  os_tarballs : list string;
  os_bootable : bool;
  os_supported : bool;
  os_riscosOffset : option Z;
  os_partitions : list ptr;
  os_partitionSetupScript : string;
}.
Definition emptyOS : OSData := mkOS "" "" "" "" "" "" [] false false None [] "".
(** What the installer's planner sees of it. *)
Definition planner_view (o : OSData) : OSInfo := mkOSInfo (os_name o) (os_partitions o).

Definition set_texts (name description version release : option string) (o : OSData) : OSData :=
  mkOS (os_folder o) (os_flavour o) (default (os_name o) name) (default (os_description o) description)
    (default (os_version o) version) (default (os_releaseDate o) release) (os_tarballs o) (os_bootable o)
    (os_supported o) (os_riscosOffset o) (os_partitions o) (os_partitionSetupScript o).
Definition set_bootable (b : bool) (o : OSData) : OSData :=
  mkOS (os_folder o) (os_flavour o) (os_name o) (os_description o) (os_version o) (os_releaseDate o)
    (os_tarballs o) b (os_supported o) (os_riscosOffset o) (os_partitions o) (os_partitionSetupScript o).
Definition set_supported (b : bool) (r : option Z) (o : OSData) : OSData :=
  mkOS (os_folder o) (os_flavour o) (os_name o) (os_description o) (os_version o) (os_releaseDate o)
    (os_tarballs o) (os_bootable o) b r (os_partitions o) (os_partitionSetupScript o).
Definition set_tarballs (t : list string) (ps : list ptr) (o : OSData) : OSData :=
  mkOS (os_folder o) (os_flavour o) (os_name o) (os_description o) (os_version o) (os_releaseDate o)
    t (os_bootable o) (os_supported o) (os_riscosOffset o) ps (os_partitionSetupScript o).
Definition set_script (s : string) (o : OSData) : OSData :=
  mkOS (os_folder o) (os_flavour o) (os_name o) (os_description o) (os_version o) (os_releaseDate o)
    (os_tarballs o) (os_bootable o) (os_supported o) (os_riscosOffset o) (os_partitions o) s.

Section OsInfo.
Context `{System} `{Qt}.
(** The network at each of the program's own connections, the rounds a download
    may wait, and what a member without initialiser holds. *)
Context (net : nat -> network) (fuel : nat) (junk : Z).

(** ** Partitions *)

(** The type a file system implies. *)
Definition infer_type (fs : string) : string :=
  if contains_ci fs "fat" then "0c"
  else if contains_ci fs "swap" then "82"
  else if contains_ci fs "ntfs" then "07" else "83".

(** [PartitionInfo::parsePartitionInfo] behind the constructor; [None] when the
    object is not valid. *)
Definition parsePartition (info : QVariantMap) (tarball : string) : option PartitionInfo :=
  match parseEntry as_bytes info "filesystem_type" false with
  | (true, Some fs) =>
      let ptype := match parseEntry as_bytes info "partition_type" false with
                   | (true, Some t) => t | _ => infer_type fs end in
      Some (mkPartitionInfo fs
        (default ""%string (parseEntry as_bytes info "mkfs_options" true).2)
        (default ""%string (parseEntry as_bytes info "label" true).2)
        "" ptype tarball ""
        (default 0 (parseEntry as_int info "partition_size_nominal" true).2)
        (default 0 (parseEntry as_int info "requires_partition_number" true).2)
        (default 0 (parseEntry as_int info "offset_in_sectors" true).2)
        (default 0 (parseEntry as_int info "uncompressed_tarball_size" true).2)
        junk
        (default false (parseEntry as_bool info "empty_fs" true).2)
        (default false (parseEntry as_bool info "want_maximised" true).2)
        (default false (parseEntry as_bool info "active" true).2))
  | _ => None
  end.

(** [new PartitionInfo]. *)
Definition allocate (p : PartitionInfo) : PM World ptr :=
  w ← pget;
  let q := fresh (dom (objects w)) in
  pmodify (set_objects (<[q := p]> (objects w)));; mret q.

(** The loop of [OSInfo::parsePartitionInfo]. *)
Fixpoint parse_partitions (l : list QVariant) (tarballs : list string) (ps : list ptr) : PM World (bool * list ptr) :=
  match l with
  | [] => mret (true, ps)
  | v :: l =>
      match as_map v, tarballs with
      | Some info, t :: tarballs =>
          match parsePartition info t with
          | Some p => q ← allocate p; parse_partitions l tarballs (ps ++ [q])
          | None => mret (false, ps)
          end
      | Some _, [] => pfault
      | None, _ => mret (false, ps)
      end
  end.

(** More partitions than tarballs: the gap is filled with empty names. *)
Definition fill_tarballs (n : nat) (tarballs : list string) : list string :=
  tarballs ++ repeat ""%string (n - length tarballs).

(** ** Downloads *)

(** [OSInfo::downloadRessource]. *)
Definition downloadRessource (url : string) : PM World string :=
  w ← pget;
  pmodify dial;;
  match webclient_get fuel (net (dialed w)) url with
  | Ok response _ => mret (c_str response)
  | Fault => pfault
  | NoFuel => pnofuel
  end.

(** [OSInfo::parsePartitionInfo]. *)
Definition parsePartitionInfo (url : string) (o : OSData) : PM World (bool * OSData) :=
  text ← downloadRessource url;
  match parseEntry as_list (parseJson text) "partitions" false with
  | (true, Some l) =>
      if (length l <? length (os_tarballs o))%nat then mret (false, o)
      else
        let tarballs := fill_tarballs (length l) (os_tarballs o) in
        r ← parse_partitions l tarballs (os_partitions o);
        let '(ok, ps) := r in
        mret (ok, set_tarballs tarballs ps o)
  | _ => mret (false, o)
  end.

(** [OSInfo::parseOSInfo]. *)
Definition parseOSInfo (url : string) (o : OSData) : PM World (bool * OSData) :=
  text ← downloadRessource url;
  let info := parseJson text in
  let o := set_texts (parseEntry as_string info "name" true).2 None None None o in
  let '(b, v) := parseEntry as_bool info "bootable" true in
  let o := set_bootable (default (os_bootable o) v) o in
  if b && negb (os_bootable o) then mret (false, o)
  else
    mret (true, set_texts None (parseEntry as_string info "description" true).2
                  (parseEntry as_string info "version" true).2
                  (parseEntry as_string info "release_date" true).2 o).

(** ** The description *)

Definition RISCOS_DEFAULT : Z := RISCOS_OFFSET.

(** Name, bootability, RISC OS offset and model of [OSInfo::parseOS]; the result
    is [false] when one of them refuses the description. *)
Definition parse_basics (os : QVariantMap) (model : string) : bool * OSData :=
  let name := match parseEntry as_string os "name" false with
              | (true, v) => v
              | _ => (parseEntry as_string os "os_name" false).2 end in
  match name with
  | None => (false, emptyOS)
  | Some n =>
      let o := set_texts (Some n) None None None emptyOS in
      let o := set_bootable (match parseEntry as_bool os "bootable" false with
                             | (true, Some b) => b
                             | _ => negb (contains_ci n "Data Partition") end) o in
      if negb (os_bootable o) then (false, o) else
      let risc := if contains_ci n "risc"
                  then Some (default RISCOS_DEFAULT (parseEntry as_int os "riscos_offset" false).2) else None in
      let supported := match parseEntry as_string_list os "supported_models" true with
                       | (true, models) =>
                           foldl (fun b m => b || contains_ci model m) true (default [] models)
                       | _ => false end in
      (supported, set_supported supported risc o)
  end.

(** [OSInfo::parseOS]; the result is the member [_valid]. *)
Definition parseOS (os : QVariantMap) : PM World (bool * OSData) :=
  model ← getFileContents "/proc/device-tree/model";
  let '(ok, o) := parse_basics os model in
  if negb ok then mret (false, o) else
  match parseEntry as_string_list os "tarballs" false, parseEntry as_string os "os_info" false with
  | (true, Some t), (true, Some url) =>
      let o := set_tarballs t (os_partitions o) o in
      r ← parseOSInfo url o;
      let '(ok, o) := r in
      if negb ok then mret (false, o) else
      match parseEntry as_string os "partitions_info" false with
      | (true, Some url) =>
          r ← parsePartitionInfo url o;
          let '(ok, o) := r in
          if negb ok then mret (false, o) else
          match parseEntry as_string os "partition_setup" true with
          | (false, _) => mret (false, o)
          | (true, v) =>
              let url := default ""%string v in
              if String.eqb url "" then mret (true, o)
              else
                script ← downloadRessource url;
                mret (negb (String.eqb script ""), set_script script o)
          end
      | _ => mret (false, o)
      end
  | _, _ => mret (false, o)
  end.
End OsInfo.
