(* ===== verification/PreSetup.v ===== *)
(** The preparation of the SD card before the first installation
    (src/recovery/PreSetup.cpp). *)
From Stdlib Require Import SpecFloat.
From S2P Require Import Prelude CText Qt Install Web Sys.

Section PreSetup.
Context `{System} `{Qt}.

(** [newSizeOfRescuePartition]: [kb*1.024/1000 + 100] in binary64, as [int]. *)
Definition double_1_024 : spec_float := S754_finite false 4611686018427388 (-52).
Definition rescue_size (kb : Z) : Z :=
  i32 (int_of_double
    (SFadd 53 1024 (SFdiv 53 1024 (SFmul 53 1024 (double_of_int kb) double_1_024) (double_of_int 1000))
       (double_of_int 100))).

(** The start of the FAT partition: kept when it is on a MiB boundary. *)
Definition rescue_start (start : Z) : Z :=
  if (start <? 2048) || negb (Z.rem start 2048 =? 0) then PARTITION_ALIGNMENT else start.

Definition resize_command (start kb : Z) : string :=
  "/usr/sbin/parted --script /dev/mmcblk0 resize 1 " +:+ number (rescue_start start) +:+ "s "
  +:+ number (rescue_size kb) +:+ "M".

(** The start of the settings partition, on a 4 MiB boundary. *)
Definition settings_start (startOfExtended : Z) : Z :=
  let s := i32 (startOfExtended + PARTITION_GAP) in
  if negb (Z.rem s PARTITION_ALIGNMENT =? 0)
  then i32 (s + (PARTITION_ALIGNMENT - Z.rem s PARTITION_ALIGNMENT)) else s.

(** The table handed to sfdisk, from the start and the size of the FAT partition. *)
Definition setup_table (start size : Z) : string :=
  let startOfExtended := i32 (start + size) in
  number start +:+ "," +:+ number size +:+ ",0E" +:+ NL +:+
  number startOfExtended +:+ ",,E" +:+ NL +:+
  "0,0" +:+ NL +:+
  "0,0" +:+ NL +:+
  number (settings_start startOfExtended) +:+ "," +:+ number SETTINGS_PARTITION_SIZE +:+ ",L" +:+ NL.

Definition first_field (s : string) : string :=
  match strchr (chr 9) s with Some (a, _) => a | None => s end.
Definition sizeofBootFilesInKB : PM World Z :=
  execute "du -s /mnt";; t ← last_output; mret (toInt_or_0 (first_field t)).

Definition sysfs_int (path : string) : PM World Z := t ← getFileContents path; mret (toInt_or_0 (trimmed t)).

(** [resizePartitions]. *)
Definition resizePartitions : PM World bool :=
  start ← sysfs_int "/sys/class/block/mmcblk0p1/start";
  kb ← sizeofBootFilesInKB;
  un ← unmountSystemsPartition;
  if negb un then mret false else
  e ← exists_path "/dev/mmcblk0p1";
  if negb e then mret false else
  perform (ZeroTableEntries "/dev/mmcblk0" 462 48);;
  c ← execute (resize_command start kb);
  if negb (c =? 0) then mret false else
  start ← sysfs_int "/sys/class/block/mmcblk0p1/start";
  size ← sysfs_int "/sys/class/block/mmcblk0p1/size";
  c ← perform (Run "/sbin/sfdisk -uS /dev/mmcblk0" (setup_table start size));
  if negb (c =? 0) then mret false else
  e ← exists_path "/dev/mmcblk0p1";
  pwhen (negb e) (execute "/usr/sbin/partprobe";; mret tt);;
  execute "/sbin/mlabel p:RECOVERY";;
  mountSystemsPartition.

Definition formatSettingsPartition : PM World bool :=
  c ← execute ("/usr/sbin/mkfs.ext4 -L SETTINGS " +:+ SETTINGS_PARTITION); mret (c =? 0).
Definition RISCOS_BLOB_FILENAME : string := "/mnt/riscos-boot.bin".
Definition writeRiscOSblob : PM World bool :=
  c ← execute ("/bin/dd conv=fsync bs=512 if=" +:+ RISCOS_BLOB_FILENAME +:+ " of=/dev/mmcblk0 seek=" +:+ number 1);
  mret (c =? 0).

(** [checkAndPrepareSDCard]; waiting for a card that never comes does not end. *)
Definition checkAndPrepareSDCard : PM World bool :=
  card ← exists_path "/dev/mmcblk0";
  if negb card then pnofuel else
  p2 ← exists_path "/dev/mmcblk0p2";
  p5 ← exists_path SETTINGS_PARTITION;
  if p2 || p5 then mret true else
  m ← mountSystemsPartition;
  if negb m then mret false else
  r ← resizePartitions;
  if negb r then mret false else
  f ← formatSettingsPartition;
  if negb f then mret false else
  blob ← exists_path RISCOS_BLOB_FILENAME;
  b ← (if blob : bool then writeRiscOSblob else mret true);
  if negb b then mret false else
  unmountSystemsPartition;;
  perform SyncDisks;;
  write_file "/proc/sys/vm/drop_caches" ("3" +:+ NL);;
  m ← mountSystemsPartition;
  if negb m then mret false else
  unmountPartition SYSTEMS_DIR;;
  mret true.

(** [clearCMDline]. *)
Definition clearCMDline : PM World bool :=
  mountSystemsPartition;;
  rec ← exists_path "/mnt/recovery.cmdline";
  let cmdline := if rec : bool then "/mnt/recovery.cmdline"%string else "/mnt/cmdline.txt"%string in
  o ← read_file cmdline;
  match o with
  | None => mret false
  | Some t =>
      let line := trimmed (replace "runinstaller" "" (trimmed t)) in
      r ← write_file cmdline line;
      match r with
      | OpenFailed => mret false
      | _ => back ← getFileContents cmdline; mret (String.eqb back line)
      end
  end.

(** [startNetworking] and [isOnline], with the addresses at each poll. *)
Context (addresses : nat -> list string) (fuel : nat).
Definition isOnline (poll : nat) : bool :=
  existsb (fun a => negb (String.eqb a "127.0.0.1") && negb (String.eqb a "::1")) (addresses poll).
Fixpoint wait_online (k : nat) (poll : nat) : PM World unit :=
  match k with
  | O => pnofuel
  | S k => if isOnline poll then mret tt else wait_online k (S poll)
  end.
Definition startNetworking : PM World unit :=
  execute "/etc/init.d/S30dbus start";;
  execute ("/sbin/dhcpcd --noarp -e wpa_supplicant_conf=/settings/wpa_supplicant.conf --denyinterfaces "
           +:+ str1 quote +:+ "*_ap" +:+ str1 quote);;
  wait_online fuel 0.
End PreSetup.
