(* ===== verification/Write.v ===== *)
(** The writing half of the install manager (src/recovery/InstallManager.cpp,
    InstallManager_Utility.cpp): partitioning the card, writing the images, and
    the installation as a whole. *)
From S2P Require Import Prelude CText Qt QtMap Install Web Sys Boot OsInfo.

Section Write.
Context `{System} `{Qt}.

(** ** Command lines *)

Definition q1 : string := str1 quote.

Definition isURL (s : string) : bool := startsWith "http:" s || startsWith "https:" s.

Definition decompressor (path : string) : option string :=
  if endsWith ".gz" path then Some "gzip -dc"%string
  else if endsWith ".xz" path then Some "xz -dc"%string
  else if endsWith ".bz2" path then Some "bzip2 -dc"%string
  else if endsWith ".lzo" path then Some "lzop -dc"%string
  else if endsWith ".zip" path then Some "unzip -p"%string
  else None.

(** The common front of the pipelines of [untar], [dd] and [partclone_restore]:
    fetch and decompress; [None] for an unknown extension. *)
Definition source_command (path : string) : option string :=
  d ← decompressor path;
  Some ("sh -o pipefail -c " +:+ q1 +:+
        (if isURL path then "wget --no-verbose --tries=inf -O- " +:+ path +:+ " | " +:+ d
         else d +:+ " " +:+ path)).

Definition untar_command (tarball : string) : option string :=
  c ← source_command tarball; Some (c +:+ " | tar x -C /mnt2 " +:+ q1).
Definition dd_command (path device : string) : option string :=
  c ← source_command path; Some (c +:+ " | dd of=" +:+ device +:+ " conv=fsync obs=4M" +:+ q1).
Definition partclone_command (path device : string) : option string :=
  c ← source_command path; Some (c +:+ " | partclone.restore -q -s - -o " +:+ device +:+ " " +:+ q1).

Definition mkfs_command (device fstype label mkfsopt : string) : string :=
  let with_label (flag : string) := if String.eqb label "" then ""%string else flag +:+ label +:+ " " in
  (if String.eqb fstype "fat" || String.eqb fstype "FAT" then "/sbin/mkfs.fat " +:+ with_label "-n "
   else if String.eqb fstype "ext4" then "/usr/sbin/mkfs.ext4 " +:+ with_label "-L "
   else if String.eqb fstype "ntfs" then "/sbin/mkfs.ntfs --fast " +:+ with_label "-L "
   else ""%string)
  +:+ (if String.eqb mkfsopt "" then ""%string else mkfsopt +:+ " ") +:+ device.

(** Start a process, wait for it, and look at its exit code. *)
Definition succeeds (cmd : string) : PM World bool := c ← execute cmd; mret (c =? 0).
Definition pipeline (cmd : option string) : PM World bool :=
  match cmd with None => mret false | Some c => succeeds c end.

Definition mkfs (device fstype label mkfsopt : string) : PM World bool :=
  succeeds (mkfs_command device fstype label mkfsopt).
Definition untar (tarball : string) : PM World bool := pipeline (untar_command tarball).
Definition dd (path device : string) : PM World bool := pipeline (dd_command path device).
Definition partclone_restore (path device : string) : PM World bool := pipeline (partclone_command path device).

Definition isLabelAvailable (label : string) : PM World bool :=
  c ← execute ("/sbin/findfs LABEL=" +:+ label); mret (negb (c =? 0)).

(** [getLabel] and [getUUID]. *)
Definition blkid (tag part : string) : PM World string :=
  c ← execute ("/sbin/blkid -s " +:+ tag +:+ " -o value " +:+ part);
  if c =? 0 then t ← last_output; mret (trimmed t) else mret "".

(** [patchConfigTxt]. *)
Definition ini_int (file : option string) (key : string) (d : Z) : Z :=
  default 0 (as_int (default (VInt d) (ini_value file key))).
Definition ini_string (file : option string) (key d : string) : string :=
  default ""%string (as_string (default (VString d) (ini_value file key))).
Definition display_options (videomode : Z) : string :=
  let line (t : string) := t +:+ CRLF in
  if videomode =? 0 then line "hdmi_force_hotplug=1"
  else if videomode =? 1 then
    line "hdmi_ignore_edid=0xa5000080" +:+ line "hdmi_force_hotplug=1" +:+ line "hdmi_group=2" +:+ line "hdmi_mode=4"
  else if videomode =? 2 then line "hdmi_ignore_hotplug=1" +:+ line "sdtv_mode=2"
  else if videomode =? 3 then line "hdmi_ignore_hotplug=1" +:+ line "sdtv_mode=0"
  else ""%string.
Definition patchConfigTxt : PM World unit :=
  conf ← read_file "/settings/noobs.conf";
  append_file "/mnt2/config.txt"
    (CRLF +:+ "# NOOBS Auto-generated Settings:" +:+ CRLF +:+ display_options (ini_int conf "display_mode" 0)).

(** ** Writing an image *)

(** The label check at the head of the loop of [writeImage].  [label()] returns a
    copy, so [clear()] and the assignments change nothing: what is left are the
    calls of findfs. *)
Fixpoint probe_suffixes (label : string) (nrs : list nat) : PM World unit :=
  match nrs with
  | [] => mret tt
  | i :: nrs =>
      a ← isLabelAvailable (label +:+ number (Z.of_nat i));
      if a : bool then mret tt else probe_suffixes label nrs
  end.
Definition check_label (label : string) : PM World unit :=
  if 15 <? Z.of_nat (String.length label) then mret tt
  else
    a ← isLabelAvailable label;
    if a : bool then mret tt else probe_suffixes label (seq 0 10).

(** One turn of the loop: [false] is the early return. *)
Definition write_partition (q : ptr) : PM World bool :=
  p ← deref q;
  check_label (label p);;
  if String.eqb (fstype p) "raw" then dd (tarball p) (partitionDevice p)
  else if startsWith "partclone" (fstype p) then partclone_restore (tarball p) (partitionDevice p)
  else if negb (String.eqb (fstype p) "unformatted") then
    ok ← mkfs (partitionDevice p) (fstype p) (label p) (mkfsOptions p);
    if negb ok then mret false
    else if negb (emptyFS p) && negb (String.eqb (tarball p) "") then
      m ← PartitionInfo_mount q "/mnt2" "";
      if negb m then mret false
      else
        u ← untar (tarball p);
        PartitionInfo_unmount q;;
        mret u
    else mret true
  else mret true.

Fixpoint write_partitions (qs : list ptr) : PM World bool :=
  match qs with
  | [] => mret true
  | q :: qs => ok ← write_partition q; if ok : bool then write_partitions qs else mret false
  end.

(** [OSInfo::vPartitionList]. *)
Fixpoint vPartitionList (qs : list ptr) : PM World (list QVariant) :=
  match qs with
  | [] => mret []
  | q :: qs => p ← deref q; l ← vPartitionList qs; mret (VString (partitionDevice p) :: l)
  end.

(** The arguments and the environment of the setup script. *)
Fixpoint script_parameters (pnr : nat) (qs : list ptr) (args : list string) (env : list (string * string))
  : PM World (list string * list (string * string)) :=
  match qs with
  | [] => mret (args, env)
  | q :: qs =>
      p ← deref q;
      let part := partitionDevice p in
      let nr := number (Z.of_nat pnr) in
      uuid ← blkid "UUID" part;
      lbl ← blkid "LABEL" part;
      let id := if String.eqb lbl "" then "UUID=" +:+ uuid else "LABEL=" +:+ lbl in
      script_parameters (S pnr) qs
        (args ++ [" part" +:+ nr +:+ "=" +:+ part; " id" +:+ nr +:+ "=" +:+ id])%list
        (map_set ("id" +:+ nr) id (map_set ("part" +:+ nr) part env))
  end.

Definition SETUP_PATH : string := "/tmp/partition_setup.sh".

(** Writing, running and removing the setup script. *)
Definition run_setup_script (o : OSData) : PM World bool :=
  put ← putFileContents SETUP_PATH (os_partitionSetupScript o);
  if negb put then mret false
  else
    r ← script_parameters 1 (os_partitions o) [SETUP_PATH] [("PATH", "/bin:/usr/bin:/sbin:/usr/sbin")]%string;
    let '(args, env) := r in
    c ← perform (RunScript args env);
    if negb (c =? 0) then mret false
    else
      remove_file SETUP_PATH.

Definition os_config (o : OSData) (conf : option string) (parts : list QVariant) : QVariant :=
  VMap (foldr (fun kv m => vinsert kv.1 kv.2 m) []
    [("flavour", VString (os_flavour o)); ("release_date", VString (os_releaseDate o));
     ("imagefolder", VString (os_folder o)); ("description", VString (os_description o));
     ("videomode", VInt (ini_int conf "display_mode" 0)); ("partitions", VList parts);
     ("language", VString (ini_string conf "language" "en"));
     ("keyboard", VString (ini_string conf "keyboard_layout" "gb"))]%string).
Definition installed_entry (o : OSData) (parts : list QVariant) : QVariant :=
  VMap (foldr (fun kv m => vinsert kv.1 kv.2 m) []
    [("name", VString (os_flavour o)); ("description", VString (os_description o));
     ("folder", VString (os_folder o)); ("release_date", VString (os_releaseDate o));
     ("partitions", VList parts); ("bootable", VBool (os_bootable o))]%string).

(** [writeImage(OSInfo &)]: the result, and [_installed_os] behind it. *)
Definition writeImage (o : OSData) (installed : list QVariant) : PM World (bool * list QVariant) :=
  ok ← write_partitions (os_partitions o);
  if negb ok then mret (false, installed) else
  match os_partitions o with
  | [] => pfault
  | first :: _ =>
      m ← PartitionInfo_mount first "/mnt2" "";
      if negb m then mret (false, installed) else
      conf ← read_file "/settings/noobs.conf";
      parts ← vPartitionList (os_partitions o);
      saved ← saveToFile "/mnt2/os_config.json" (os_config o conf parts);
      if negb saved then mret (false, installed) else
      patchConfigTxt;;
      ran ← (if String.eqb (os_partitionSetupScript o) "" then mret true else run_setup_script o);
      if negb ran then mret (false, installed) else
      unmountPartition "/mnt2";;
      parts ← vPartitionList (os_partitions o);
      let installed := (installed ++ [installed_entry o parts])%list in
      saved ← saveToFile INSTALLED_OS_FILE (VList installed);
      mret (saved, installed)
  end.

End Write.

(** ** Partitioning and the installation *)

Section Partitioning.
Context `{System} `{Qt} {M : Type -> Type} `{QMapOps M}.
Context (junkPartition : PartitionInfo).

(** [InstallManager::InstallManager]. *)
Definition sysfs_number (path : string) : PM World Z := t ← getFileContents path; mret (toULongLong_or_0 (trimmed t)).
Definition InstallManager_create : PM World (InstallManager (M:=M)) :=
  start5 ← sysfs_number "/sys/class/block/mmcblk0p5/start";
  size5 ← sysfs_number "/sys/class/block/mmcblk0p5/size";
  total ← sysfs_number "/sys/class/block/mmcblk0/size";
  mountSystemsPartition;;
  e ← exists_path "/mnt2";
  pwhen (negb e) (make_dir "/mnt2");;
  w ← pget;
  mret (newInstallManager start5 size5 total (objects w)).

(** A step of the planner, on the objects of the world. *)
Definition plan_step (f : InstallManager (M:=M) -> option (bool * InstallManager (M:=M))) (s : InstallManager (M:=M))
  : PM World (bool * InstallManager (M:=M)) :=
  w ← pget;
  r ← plift (f (set_heap (objects w) s));
  let '(ok, s) := r in
  pmodify (set_objects (heap s));; mret (ok, s).

(** The partition objects by number. *)
Fixpoint deref_items (l : list (Z * ptr)) : PM World (M PartitionInfo) :=
  match l with
  | [] => mret qm_empty
  | (k, q) :: l => p ← deref q; m ← deref_items l; mret (qm_insert k p m)
  end.

Definition table_number (path : string) : PM World Z := t ← getFileContents path; mret (toInt_or_0 (trimmed t)).

(** [writePartitionTable]. *)
Definition writePartitionTable (s : InstallManager (M:=M)) : PM World bool :=
  startP1 ← table_number "/sys/class/block/mmcblk0p1/start";
  sizeP1 ← table_number "/sys/class/block/mmcblk0p1/size";
  startP5 ← table_number "/sys/class/block/mmcblk0p5/start";
  sizeP5 ← table_number "/sys/class/block/mmcblk0p5/size";
  m ← deref_items (qm_items (partitionMap s));
  match writePartitionTable_input number junkPartition startP1 sizeP1 startP5 sizeP5 m with
  | None => mret false
  | Some lines =>
      unmountPartition SYSTEMS_DIR;;
      unmountPartition SETTINGS_DIR;;
      c ← perform (Run "/sbin/sfdisk -uS /dev/mmcblk0" (foldr String.append ""%string lines));
      perform SyncDisks;;
      execute "/usr/sbin/partprobe";;
      mountSystemsPartition;;
      mountSettingsPartition;;
      mret (c =? 0)
  end.

Definition zero_command (device : string) : string := "/bin/dd count=1 bs=512 if=/dev/zero of=" +:+ device.
Fixpoint zero_partitions (qs : list ptr) : PM World bool :=
  match qs with
  | [] => mret true
  | q :: qs =>
      p ← deref q;
      ok ← (if partitionSizeSectors p =? 0 then mret true else succeeds (zero_command (partitionDevice p)));
      if ok : bool then zero_partitions qs else mret false
  end.

(** [partitionSDCard]. *)
Definition partitionSDCard (s : InstallManager (M:=M)) : PM World bool :=
  e ← exists_path INSTALLED_OS_FILE;
  pwhen e (remove_file INSTALLED_OS_FILE;; mret tt);;
  ok ← writePartitionTable s;
  if negb ok then mret false else zero_partitions (qm_values (partitionMap s)).

(** [installOS(OSInfo &)]: the result of [writeImage] is only logged. *)
Definition installOS (o : OSData) (s : InstallManager (M:=M)) : PM World bool :=
  r ← plan_step (prepareImage number contains_ci (planner_view o)) s;
  let '(ok, s) := r in
  if negb ok then mret false else
  ok ← partitionSDCard s;
  if negb ok then mret false else
  writeImage o [];;
  setDefaultBootPartition_os (os_partitions o);;
  perform SyncDisks;;
  mret true.
End Partitioning.
