(* ===== verification/Recovery.v ===== *)
(** The recovery program as a whole (src/recovery/BootManager.cpp, main.cpp,
    Utility_Debug.cpp): the REST handlers, the local menu and [BootManager::run]. *)
From S2P Require Import Prelude CText Qt QtMap Install Web Sys Boot OsInfo PreSetup Write.

Section Recovery.
Context `{System} `{Qt} {M : Type -> Type} `{QMapOps M}.
Context (net : nat -> network) (fuel : nat) (junk : Z) (junkPartition : PartitionInfo).
Context (addresses : nat -> list string).
Import Server.

(** ** REST handlers *)

Definition setDefaultBootPartitionREST (req : Request) (res : Response) : PM World (option Response) :=
  let b := body (web req) in
  ok ← setDefaultBootPartition (c_str b);
  mret (Some (if ok : bool
    then answer 200 "OK" ("Successfully set default partition to " +:+ b +:+ NL) res
    else answer 400 "Bad Request"
           ("Unable to set default partition to " +:+ b +:+ ", partition does not exist" +:+ NL) res)).

(** The text of the two answers that end the process: written by the handler
    itself, and once more by the server when the process is still there. *)
Definition answer_and (c : Z) (p b : string) (res : Response) (last : PM World bool) : PM World (option Response) :=
  let res := answer c p b res in
  on_socket (sendResponse res);;
  gone ← last;
  mret (if gone : bool then None else Some (mkResponse (response_message res) (code res) (phrase res) (type res) (date res))).

Definition installOSREST (req : Request) (res : Response) : PM World (option Response) :=
  let refuse c p := mret (Some (answer c p ("Unable to install OS" +:+ NL) res)) in
  match parseJson (c_str (body (web req))) with
  | [] => refuse 400 "Bad Request"%string
  | json =>
      r ← parseOS net fuel junk json;
      let '(valid, os) := r in
      if negb valid then refuse 400 "Bad Request"%string
      else
        im ← InstallManager_create (M:=M);
        ok ← installOS junkPartition os im;
        if negb ok then refuse 500 "Internal Server Error"%string
        else
          match map_find "AutoReboot" (header (web req)) with
          | Some _ => answer_and 200 "OK" ("Successfully installed OS and rebooting now!" +:+ NL) res (bootIntoPartition "")
          | None => mret (Some (answer 200 "OK" ("Successfully installed OS" +:+ NL) res))
          end
  end.

Definition rebootToDefaultPartition (req : Request) (res : Response) : PM World (option Response) :=
  answer_and 200 "OK" ("Reboot into default partition now" +:+ NL) res (bootIntoPartition "").

Definition exitToShell (req : Request) (res : Response) : PM World (option Response) :=
  answer_and 200 "OK" ("Exit to recovery shell now" +:+ NL) res (mret true).

Definition rest_routes : list (Route World) :=
  webserver_post "/exit" exitToShell
    (webserver_post "/reboot" rebootToDefaultPartition
      (webserver_post "/bootPartition" setDefaultBootPartitionREST
        (webserver_post "/os" installOSREST []))).

(** ** The local menu *)

(** [Utility::Debug::getRaspbianJSON]. *)
Definition getRaspbianJSON : QVariantMap :=
  foldr (fun kv m => vinsert kv.1 kv.2 m) []
   [("description", VString "A community-created port of Debian jessie for the Raspberry Pi");
    ("feature_level", VInt 35120124);
    ("icon", VString "http://downloads.raspberrypi.org/raspbian/Raspbian.png");
    ("marketing_info", VString "http://downloads.raspberrypi.org/raspbian/marketing.tar");
    ("nominal_size", VInt 3615);
    ("os_info", VString "http://downloads.raspberrypi.org/raspbian/os.json");
    ("os_name", VString "Raspbian");
    ("partition_setup", VString "http://downloads.raspberrypi.org/raspbian/partition_setup.sh");
    ("partitions_info", VString "http://downloads.raspberrypi.org/raspbian/partitions.json");
    ("release_date", VString "2016-05-27");
    ("supported_hex_revisions", VString "2,3,4,5,6,7,8,9,d,e,f,10,11,12,14,19,1040,1041,0092,0093,2082");
    ("supported_models", VList [VString "Pi Model"; VString "Pi 2"; VString "Pi Zero"; VString "Pi 3"]);
    ("tarballs", VList [VString "http://downloads.raspberrypi.org/raspbian/boot.tar.xz";
                        VString "http://downloads.raspberrypi.org/raspbian/root.tar.xz"])]%string.

(** What is typed: a number, and the line read after it.  Input that is no number
    leaves [std::cin] failed, and the menu goes round for ever. *)
Inductive typed : Type := Selected (n : Z) (line : string).

(** The loop; the result is whether the program is still there.  Selection 4 has no
    [break] and leaves the menu like 5. *)
Fixpoint local_menu (input : list typed) : PM World bool :=
  match input with
  | [] => pnofuel
  | Selected n line :: input =>
      if n =? 1 then gone ← bootIntoPartition ""; if gone : bool then mret false else local_menu input
      else if n =? 2 then gone ← bootIntoPartition line; if gone : bool then mret false else local_menu input
      else if n =? 3 then setDefaultBootPartition line;; local_menu input
      else if n =? 4 then
        im ← InstallManager_create (M:=M);
        r ← parseOS net fuel junk getRaspbianJSON;
        let '(valid, os) := r in
        (if valid : bool then installOS junkPartition os im;; mret tt else mret tt);;
        mret true
      else if n =? 5 then mret true
      else local_menu input
  end.

(** ** [BootManager::run] *)

Definition emit_finished : PM World unit := perform Finished;; mret tt.

(** The result is whether the process is still there. *)
Definition run (args : list string) (input : list typed) (conns : list (option (Socket * string))) : PM World bool :=
  mounted ← mountSettingsPartition;
  pwhen mounted emit_finished;;
  r ← bootCheck args true;
  let '(boot, webserver) := r in
  alive ← (if boot : bool then gone ← bootIntoPartition ""; mret (negb gone)
    else
      prepared ← checkAndPrepareSDCard;
      pwhen (negb prepared) emit_finished;;
      clearCMDline;;
      startNetworking addresses fuel;;
      mountSettingsPartition;;
      if webserver : bool then start fuel rest_routes conns else local_menu input);
  if alive : bool then emit_finished;; mret true else mret false.
End Recovery.
