(* ===== verification/BootFacts.v ===== *)
(** The boot manager: the default partition is the one that is rebooted into, and
    when the program boots at all. *)
From S2P Require Import Prelude CText Qt Install Web WebFacts Sys Boot.

(** ** Runs of processes *)

Section BootFacts.
Context `{System} `{QtLaws}.

(** ** The number behind the device prefix *)

Lemma startsWith_app p s : startsWith p (p +:+ s) = true.
Proof. apply startsWith_spec. by exists s. Qed.
Lemma number_slash n : free_of "/"%char (number n).
Proof.
  pose proof (number_plain n) as Hn. induction (number n) as [|c s IH]; [apply free_of_nil|]. cbn in Hn.
  apply andb_true_iff in Hn as [Hc Hs]. apply free_of_cons. split; [by intros ->|by apply IH].
Qed.
Lemma replace_device n : replace DEVICE_PREFIX "" (DEVICE_PREFIX +:+ number n) = number n.
Proof.
  rewrite replace_prefix, replace_absent; [done| |done]. intros x y E. pose proof (number_slash n) as Hs.
  rewrite E, !free_of_app in Hs. destruct Hs as (_ & Hs & _). by vm_compute in Hs.
Qed.

(** The world after the actions [l]. *)
Fixpoint run_actions (l : list action) (w : World) : World :=
  match l with
  | [] => w
  | a :: l =>
      let t := (trace w ++ [a])%list in
      run_actions l (mkWorld (objects w) (after_action t (files w)) t (connection w) (dialed w))
  end.
Lemma run_perform {A} a (f : Z -> PM World A) w :
  (perform a ≫= f) w = f (exit_code (trace w ++ [a])%list) (run_actions [a] w).
Proof. done. Qed.

(** Whether a file that is there, with the contents [v], cannot be removed. *)
Definition stuck (t : list action) (v : option string) : bool :=
  bool_decide (is_Some v) && negb (removable t DEFAULT_BOOT_PARTITION_FILE).
(** What is stored for the partition [d] after the actions [t], where [v] was. *)
Definition stored (t : list action) (d : string) (v : option string) : option string :=
  if startsWith DEVICE_PREFIX d && negb (stuck t v) then
    if openable t DEFAULT_BOOT_PARTITION_FILE then
      if write_error t DEFAULT_BOOT_PARTITION_FILE d then Some ""%string else Some d
    else None
  else v.
Definition store_accepts (t : list action) (d : string) (v : option string) : bool :=
  startsWith DEVICE_PREFIX d && negb (stuck t v) && openable t DEFAULT_BOOT_PARTITION_FILE
  && negb (write_error t DEFAULT_BOOT_PARTITION_FILE d).

Lemma remove_file_run p w : remove_file p w =
  Ok (bool_decide (is_Some (files w !! p)) && removable (trace w) p)
     (if bool_decide (is_Some (files w !! p)) && removable (trace w) p
      then set_files (delete p (files w)) w else w).
Proof. unfold remove_file, mbind, PM_bind, pget. by destruct (_ && _). Qed.
Lemma putFileContents_run p d w : putFileContents p d w =
  let room := negb (bool_decide (is_Some (files w !! p))) && openable (trace w) p in
  let failed := write_error (trace w) p d in
  Ok (room && negb failed)
     (if room then set_files (<[p := if failed then ""%string else d]> (files w)) w else w).
Proof.
  unfold putFileContents, exists_path, write_file, mbind, PM_bind, pget, mret, PM_ret, pmodify. cbn zeta.
  destruct (bool_decide _); [done|]. cbn [negb andb]. destruct (openable _ _); [|done]. by destruct (write_error _ _ _).
Qed.

Lemma setDefaultBootPartition_run d w : let v := files w !! DEFAULT_BOOT_PARTITION_FILE in
  exists w', setDefaultBootPartition d w = Ok (store_accepts (trace w) d v) w' /\
    files w' = partial_alter (fun _ => stored (trace w) d v) DEFAULT_BOOT_PARTITION_FILE (files w) /\
    trace w' = trace w /\ objects w' = objects w /\ connection w' = connection w /\ dialed w' = dialed w.
Proof.
  intros v. unfold setDefaultBootPartition, store_accepts, stored, stuck.
  assert (Ev : files w !! DEFAULT_BOOT_PARTITION_FILE = v) by done. clearbody v.
  assert (Hsame : files w = partial_alter (fun _ => v) DEFAULT_BOOT_PARTITION_FILE (files w)) by (symmetry; by apply partial_alter_id).
  destruct (startsWith DEVICE_PREFIX d); cbn [negb andb]; [|by exists w].
  unfold exists_path, mbind, PM_bind, pget, mret, PM_ret. rewrite Ev. destruct v as [v|].
  - rewrite bool_decide_true by done. cbn [pwhen andb]. unfold mbind, PM_bind, mret, PM_ret.
    rewrite remove_file_run, Ev, bool_decide_true by done. cbn [andb].
    destruct (removable _ _); cbn [negb andb].
    + rewrite putFileContents_run. cbn [files set_files trace]. rewrite lookup_delete_eq, bool_decide_false by (by intros [? ?]).
      cbn [negb andb]. destruct (openable _ _); cbn [negb andb]; [|by eexists].
      destruct (write_error _ _ _); eexists; (split; [done|]); cbn; split_and!; try done; by rewrite insert_delete_eq.
    + rewrite putFileContents_run, Ev, bool_decide_true by done. by exists w.
  - rewrite bool_decide_false by (by intros [? ?]). cbn [pwhen andb negb]. unfold mret, PM_ret.
    rewrite putFileContents_run, Ev, bool_decide_false by (by intros [? ?]). cbn [negb andb].
    destruct (openable _ _); cbn [negb andb].
    + destruct (write_error _ _ _); eexists; (split; [done|]); cbn; by split_and!.
    + exists w. split_and!; try done.
Qed.

(** The parameter file of this machine. *)
Definition reboot_file (w : World) : option string :=
  if bool_decide (is_Some (files w !! "/sys/module/bcm2709/parameters/reboot_part"))
  then Some "/sys/module/bcm2709/parameters/reboot_part"%string
  else if bool_decide (is_Some (files w !! "/sys/module/bcm2708/parameters/reboot_part"))
  then Some "/sys/module/bcm2708/parameters/reboot_part"%string else None.
Lemma reboot_parameter_run w : reboot_parameter w = Ok (reboot_file w) w.
Proof.
  unfold reboot_parameter, reboot_file, exists_path, mbind, PM_bind, pget, mret, PM_ret.
  by case_bool_decide.
Qed.

Definition reboot_actions : list action :=
  [Run "ifdown -a" ""; Run "umount -ar" ""; SyncDisks; RebootMachine].

(** Booting into partition [n] writes its number and reboots. *)
Lemma bootIntoPartition_device d n param w :
  d = DEVICE_PREFIX +:+ number n -> is_i32 n -> reboot_file w = Some param ->
  openable (trace w) param = true -> write_error (trace w) param (number n +:+ NL) = false ->
  (d' ← mret d;
   if negb (startsWith DEVICE_PREFIX d') then mret false
   else match toInt (replace DEVICE_PREFIX "" d') with
        | None => mret false
        | Some n =>
            dev ← reboot_parameter;
            match dev with
            | None => mret false
            | Some rebootDev =>
                write_file rebootDev (number n +:+ NL);;
                execute "ifdown -a";; execute "umount -ar";;
                perform SyncDisks;; perform RebootMachine;; mret true
            end
        end) w
  = Ok true (run_actions reboot_actions (set_files (<[param := number n +:+ NL]> (files w)) w)).
Proof.
  intros -> Hn Hr Ho He. unfold mbind at 1, PM_bind at 1, mret at 1, PM_ret at 1.
  rewrite startsWith_app. cbn [negb].
  rewrite replace_device, toInt_number by done.
  assert (Hr' := reboot_parameter_run w). rewrite Hr in Hr'. rewrite (run_bind _ _ _ _ _ Hr').
  unfold write_file, mbind, PM_bind, pget, mret, PM_ret. rewrite Ho, He. done.
Qed.

(** C10. What was made the default boot partition is what the next boot goes to:
    after [setDefaultBootPartition /dev/mmcblk0p<n>], [bootIntoPartition] writes
    [n] to the kernel's reboot parameter and shuts the machine down for a reboot,
    whatever default was stored before, as long as it can be replaced. *)
Theorem default_partition_reboots n param w
    (Hn : is_i32 n) (Hparam : reboot_file w = Some param)
    (Hremove : is_Some (files w !! DEFAULT_BOOT_PARTITION_FILE) -> removable (trace w) DEFAULT_BOOT_PARTITION_FILE = true)
    (Hopen : openable (trace w) DEFAULT_BOOT_PARTITION_FILE = true)
    (Hstore : write_error (trace w) DEFAULT_BOOT_PARTITION_FILE (DEVICE_PREFIX +:+ number n) = false)
    (Hopen' : openable (trace w) param = true)
    (Hstore' : write_error (trace w) param (number n +:+ NL) = false) :
  let d := DEVICE_PREFIX +:+ number n in
  (setDefaultBootPartition d;; bootIntoPartition "") w
  = Ok true (run_actions reboot_actions
      (set_files (<[param := number n +:+ NL]> (<[DEFAULT_BOOT_PARTITION_FILE := d]> (files w))) w)).
Proof.
  intros d. destruct (setDefaultBootPartition_run d w) as (w' & E & Hf & Ht & Hobj & Hc & Hd).
  rewrite (run_bind _ _ _ _ _ E).
  assert (Hs : stored (trace w) d (files w !! DEFAULT_BOOT_PARTITION_FILE) = Some d)
    by (unfold stored, stuck, d; rewrite startsWith_app, Hopen, Hstore; case_bool_decide as Hv; [rewrite Hremove by done|]; done).
  rewrite Hs in Hf. change (partial_alter _ _ _) with (<[DEFAULT_BOOT_PARTITION_FILE := d]> (files w)) in Hf.
  assert (Hw : w' = set_files (<[DEFAULT_BOOT_PARTITION_FILE := d]> (files w)) w)
    by (destruct w', w; cbn in *; by subst).
  unfold bootIntoPartition. cbn [String.eqb].
  assert (Hg : getFileContents DEFAULT_BOOT_PARTITION_FILE w' = Ok d w').
  { unfold getFileContents, read_file, mbind, PM_bind, pget, mret, PM_ret.
    by rewrite Ht, Hopen, Hf, lookup_insert_eq. }
  rewrite (run_bind _ _ _ _ _ Hg).
  refine (eq_trans (bootIntoPartition_device d n param w' eq_refl Hn _ _ _) _).
  - rewrite <- Hparam. unfold reboot_file. rewrite Hf.
    by rewrite !lookup_insert_ne by (by vm_compute).
  - by rewrite Ht.
  - by rewrite Ht.
  - by rewrite Hw.
Qed.

(** ** The boot decision *)

Definition is_runinstaller (a : string) : bool := ci_eq a "-runinstaller".
Definition is_partition (a : string) : bool := negb (is_runinstaller a) && ci_eq a "-partition".
Definition is_no_webserver (a : string) : bool :=
  negb (is_runinstaller a) && negb (is_partition a) && ci_eq a "-no-webserver".
(** The operands of [-partition]. *)
Fixpoint partition_operands (args : list string) : list string :=
  match args with
  | a :: ((d :: _) as rest) => if is_partition a then d :: partition_operands rest else partition_operands rest
  | _ => []
  end.

(** The installed systems the files tell of. *)
Definition installed (w : World) : list QVariant :=
  if bool_decide (is_Some (files w !! INSTALLED_OS_FILE)) then
    if openable (trace w) INSTALLED_OS_FILE then
      default [] (v ← (files w !! INSTALLED_OS_FILE) ≫= parse_json; as_list v)
    else []
  else [].
Lemma getInstalledOS_run w : getInstalledOS w = Ok (installed w) w.
Proof.
  unfold getInstalledOS, installed, loadFromFile, read_file, exists_path, mbind, PM_bind, pget, mret, PM_ret.
  case_bool_decide; [|done]. destruct (openable _ _); [|done]. unfold option_bind.
  destruct (files w !! INSTALLED_OS_FILE) as [t|]; [|done]. by destruct (parse_json t).
Qed.

Definition same_but_default (w w' : World) (v : option string) : Prop :=
  files w' = partial_alter (fun _ => v) DEFAULT_BOOT_PARTITION_FILE (files w) /\
  trace w' = trace w /\ objects w' = objects w /\ connection w' = connection w /\ dialed w' = dialed w.

Lemma process_arguments_run args : forall r ws w,
  exists w', process_arguments args r ws w
    = Ok (r || existsb is_runinstaller args, ws && negb (existsb is_no_webserver args)) w' /\
    same_but_default w w' (foldl (fun v d => stored (trace w) d v) (files w !! DEFAULT_BOOT_PARTITION_FILE)
                             (partition_operands args)).
Proof.
  induction args as [|a args IH]; intros r ws w.
  - exists w. cbn. rewrite orb_false_r, andb_true_r. split; [done|]. split_and!; try done.
    symmetry. apply partial_alter_id. done.
  - cbn [process_arguments existsb].
    assert (Hops : partition_operands (a :: args)
      = ((if is_partition a then match args with d :: _ => [d] | [] => [] end else []) ++ partition_operands args)%list)
      by (destruct args; [by destruct (is_partition a)|]; cbn; by destruct (is_partition a)).
    rewrite Hops. clear Hops. unfold is_no_webserver, is_partition, is_runinstaller in *.
    destruct (ci_eq a "-runinstaller"); cbn [negb andb orb app].
    { destruct (IH true ws w) as (w' & E & Hw). exists w'. split; [|done]. by rewrite E, orb_true_r. }
    destruct (ci_eq a "-partition"); cbn [negb andb orb app].
    2:{ destruct (ci_eq a "-no-webserver"); cbn [negb andb orb].
        - destruct (IH r false w) as (w' & E & Hw). exists w'. split; [|done]. by rewrite E, andb_false_r.
        - by apply IH. }
    destruct args as [|d args].
    { destruct (IH r ws w) as (w' & E & Hw). exists w'. by split. }
    destruct (setDefaultBootPartition_run d w) as (w1 & E1 & Hf1 & Ht1 & Ho1 & Hc1 & Hd1).
    destruct (IH r ws w1) as (w' & E & Hf & Ht & Ho & Hc & Hd). exists w'. split.
    + unfold mbind at 1 2, PM_bind at 1 2. rewrite E1. exact E.
    + rewrite foldl_app. cbn [foldl app] in *. rewrite Ht1, Hf1, lookup_partial_alter_eq in Hf.
      split_and!; try congruence. rewrite Hf. apply map_eq. intros k.
      destruct (decide (DEFAULT_BOOT_PARTITION_FILE = k)) as [<-|Hk];
        [by rewrite !lookup_partial_alter_eq|by rewrite !lookup_partial_alter_ne].
Qed.

(** C12. The boot decision: the program boots exactly when no argument is
    [-runinstaller] and the list of installed systems is not empty; the web server
    is off exactly when [-no-webserver] is given; and the arguments change nothing
    but the stored default partition, which becomes the last acceptable operand of
    [-partition] (as far as its file can be removed and written: [stored]). *)
Theorem bootCheck_spec args ws w :
  exists w', bootCheck args ws w
    = Ok (negb (existsb is_runinstaller args) && negb (bool_decide (installed w = [])),
          ws && negb (existsb is_no_webserver args)) w' /\
    same_but_default w w' (foldl (fun v d => stored (trace w) d v) (files w !! DEFAULT_BOOT_PARTITION_FILE)
                             (partition_operands args)).
Proof.
  destruct (process_arguments_run args false ws w) as (w' & E & Hw). exists w'. split; [|done].
  unfold bootCheck. rewrite (run_bind _ _ _ _ _ E). cbn [orb].
  destruct (existsb is_runinstaller args); cbn [negb andb]; [done|].
  unfold hasInstalledOS, mbind, PM_bind. rewrite getInstalledOS_run. destruct Hw as (Hf & Ht & _).
  assert (Hi : installed w' = installed w)
    by (unfold installed; by rewrite Ht, Hf, lookup_partial_alter_ne by (by vm_compute)).
  rewrite Hi. destruct (installed w); [by rewrite bool_decide_true|by rewrite bool_decide_false].
Qed.
End BootFacts.
