(* ===== verification/WriteFacts.v ===== *)
(** Writing an image carries out the plan of its partitions, partition by
    partition; what the installation answers; and where the partitions of a
    description come from. *)
From S2P Require Import Prelude Install CText Qt QtMap Web WebFacts Sys Boot BootFacts OsInfo PreSetup Write.

Lemma Forall2_weaken {A B} (P Q : A -> B -> Prop) l k :
  Forall2 P l k -> (forall x y, x ∈ l -> P x y -> Q x y) -> Forall2 Q l k.
Proof.
  induction 1 as [|x y l k Hxy Hl IH]; intros HPQ; constructor.
  - apply HPQ; [left|done].
  - apply IH. intros x' y' Hx. apply HPQ. by right.
Qed.

Section WriteFacts.
Context `{System} `{QtLaws}.

(** ** The plan *)

Definition run_cmd (cmd : string) : action := Run cmd "".

(** One step of a plan: the process that decides (none when there is no command
    for the file, or no device), the files it needs, and the processes behind it,
    which run whatever it answers. *)
Record step : Type := mkStep { command : option string; needs : list string; behind : list string }.
Definition just (c : option string) : step := mkStep c [] [].

(** How partition [p] is written. *)
Definition write_plan (p : PartitionInfo) : list step :=
  if String.eqb (fstype p) "raw" then [just (dd_command (tarball p) (partitionDevice p))]
  else if startsWith "partclone" (fstype p) then [just (partclone_command (tarball p) (partitionDevice p))]
  else if String.eqb (fstype p) "unformatted" then []
  else just (Some (mkfs_command (partitionDevice p) (fstype p) (label p) (mkfsOptions p))) ::
    (if negb (emptyFS p) && negb (String.eqb (tarball p) "")
     then [mkStep (if String.eqb (partitionDevice p) "" then None else Some (mount_command p "/mnt2" ""))
             ["/mnt2"%string; partitionDevice p] [];
           mkStep (untar_command (tarball p)) [] ["umount /mnt2"%string]]
     else []).

(** What a process can see: what was done so far, and the files. *)
Definition view : Type := (list action * file_system)%type.
Definition view_of (w : World) : view := (trace w, files w).
Definition advance (l : list action) (v : view) : view :=
  foldl (fun v a => let t := (v.1 ++ [a])%list in (t, after_action t v.2)) v l.

Definition startable (v : view) (s : step) : option string :=
  if forallb (fun path => bool_decide (is_Some (v.2 !! path))) (needs s) then command s else None.

(** [carries v steps b l]: from [v] on, [l] is what carrying out [steps] does, and
    [b] whether they all succeeded: the first process that cannot be started, or
    that exits with another code than 0, ends it. *)
Inductive carries : view -> list step -> bool -> list action -> Prop :=
| carries_all v : carries v [] true []
| carries_missing v s steps : startable v s = None -> carries v (s :: steps) false (map run_cmd (behind s))
| carries_failed v s c steps : startable v s = Some c -> exit_code (v.1 ++ [run_cmd c])%list <> 0 ->
    carries v (s :: steps) false ([run_cmd c] ++ map run_cmd (behind s))
| carries_on v s c steps b l : startable v s = Some c -> exit_code (v.1 ++ [run_cmd c])%list = 0 ->
    carries (advance ([run_cmd c] ++ map run_cmd (behind s)) v) steps b l ->
    carries v (s :: steps) b (([run_cmd c] ++ map run_cmd (behind s)) ++ l).

(** A question to findfs about a label; it changes nothing on the card. *)
Definition is_probe (a : action) : Prop := exists l, a = run_cmd ("/sbin/findfs LABEL=" +:+ l).

(** [writes v ps b l]: from [v] on, [l] are the actions of writing the partitions
    [ps] in order, each plan behind some probes; the first plan that fails ends it. *)
Inductive writes : view -> list PartitionInfo -> bool -> list action -> Prop :=
| writes_done v : writes v [] true []
| writes_stop v p ps probes l : Forall is_probe probes ->
    carries (advance probes v) (write_plan p) false l -> writes v (p :: ps) false (probes ++ l)
| writes_go v p ps b probes l l' : Forall is_probe probes ->
    carries (advance probes v) (write_plan p) true l -> writes (advance (probes ++ l) v) ps b l' ->
    writes v (p :: ps) b ((probes ++ l) ++ l').

Lemma advance_app l k v : advance (l ++ k) v = advance k (advance l v).
Proof. unfold advance. by rewrite foldl_app. Qed.
Lemma advance_trace l : forall v, (advance l v).1 = (v.1 ++ l)%list.
Proof.
  induction l as [|a l IH]; intros v; [by rewrite app_nil_r|].
  change (advance (a :: l) v) with (advance l ((v.1 ++ [a])%list, after_action (v.1 ++ [a])%list v.2)).
  rewrite IH. cbn [fst]. by rewrite <- app_assoc.
Qed.

(** What trying a step does. *)
Definition tries (v : view) (s : step) (b : bool) (l : list action) : Prop :=
  match startable v s with
  | Some c => l = [run_cmd c] /\ b = (exit_code (v.1 ++ [run_cmd c])%list =? 0)
  | None => l = [] /\ b = false
  end.
Lemma carries_stop v s steps l : tries v s false l -> carries v (s :: steps) false (l ++ map run_cmd (behind s)).
Proof.
  unfold tries. destruct (startable v s) as [c|] eqn:E; intros [-> Hb]; [|by apply carries_missing].
  apply carries_failed; [done|]. lia.
Qed.
Lemma carries_next v s steps b l l' : tries v s true l ->
  carries (advance (l ++ map run_cmd (behind s)) v) steps b l' ->
  carries v (s :: steps) b ((l ++ map run_cmd (behind s)) ++ l').
Proof.
  unfold tries. destruct (startable v s) as [c|] eqn:E; intros [-> Hb]; [|done].
  apply carries_on; [done|]. lia.
Qed.
Lemma carries_plain v s steps b l l' : behind s = [] -> tries v s true l ->
  carries (advance l v) steps b l' -> carries v (s :: steps) b (l ++ l').
Proof. intros Hs Ht Hc. pose proof (carries_next v s steps b l l' Ht) as Hn. rewrite Hs, app_nil_r in Hn. by apply Hn. Qed.
Lemma carries_last v s b l : tries v s b l -> carries v [s] b (l ++ map run_cmd (behind s)).
Proof.
  destruct b; intros Ht; [|by apply carries_stop].
  rewrite <- (app_nil_r (l ++ _)). apply carries_next; [done|constructor].
Qed.
Lemma tries_just v c b l : tries v (just (Some c)) b l <-> l = [run_cmd c] /\ b = (exit_code (v.1 ++ [run_cmd c])%list =? 0).
Proof. done. Qed.

(** ** Actions of a step *)

(** [m] ends, performs the actions described by [Q] with its result, and changes
    no partition object but that of [q], in its mount point only. *)
Definition other_mount (d : string) (p : PartitionInfo) : PartitionInfo := set_mountedDir d p.
Definition acts {A} (q : ptr) (m : PM World A) (Q : A -> list action -> Prop) (w : World) : Prop :=
  exists a w' l, m w = Ok a w' /\ view_of w' = advance l (view_of w) /\ Q a l /\
    (forall q', q' <> q -> objects w' !! q' = objects w !! q') /\
    (forall p, objects w !! q = Some p -> exists d, objects w' !! q = Some (set_mountedDir d p)).

Lemma set_mountedDir_same p : set_mountedDir (mountedDir p) p = p.
Proof. by destruct p. Qed.

Lemma acts_ret {A} q (a : A) (Q : A -> list action -> Prop) w : Q a [] -> acts q (mret a) Q w.
Proof.
  intros HQ. exists a, w, []. split_and!; try done.
  intros p Hp. exists (mountedDir p). by rewrite set_mountedDir_same.
Qed.
Lemma acts_bind {A B} q (m : PM World A) (f : A -> PM World B) (Q : A -> list action -> Prop) (R : B -> list action -> Prop) w :
  acts q m Q w ->
  (forall a l w', m w = Ok a w' -> view_of w' = advance l (view_of w) -> Q a l ->
     (forall p, objects w !! q = Some p -> exists d, objects w' !! q = Some (set_mountedDir d p)) ->
     acts q (f a) (fun b l' => R b (l ++ l')%list) w') ->
  acts q (m ≫= f) R w.
Proof.
  intros (a & w1 & l & E & Ht & HQ & Ho & Hp) Hf.
  destruct (Hf a l w1 E Ht HQ Hp) as (b & w2 & l2 & E2 & Ht2 & HR & Ho2 & Hp2).
  exists b, w2, (l ++ l2)%list. rewrite (run_bind _ _ _ _ _ E). split_and!; [done| |done| |].
  - by rewrite Ht2, Ht, advance_app.
  - intros q' Hq'. by rewrite Ho2, Ho.
  - intros p Hpq. destruct (Hp p Hpq) as [d Hd]. destruct (Hp2 _ Hd) as [d' Hd']. by exists d'.
Qed.
Lemma acts_mono {A} q (m : PM World A) (Q R : A -> list action -> Prop) w :
  acts q m Q w -> (forall a l, Q a l -> R a l) -> acts q m R w.
Proof. intros (a & w1 & l & E & Ht & HQ & Ho & Hp) Hm. exists a, w1, l. by eauto 10. Qed.

Lemma acts_execute q cmd w : acts q (execute cmd) (fun c l => l = [run_cmd cmd] /\ c = exit_code (trace w ++ [run_cmd cmd])%list) w.
Proof.
  exists (exit_code (trace w ++ [run_cmd cmd])%list), (run_actions [run_cmd cmd] w), [run_cmd cmd].
  split; [reflexivity|]. split_and!; try done.
  intros p Hp. exists (mountedDir p). by rewrite set_mountedDir_same.
Qed.
Lemma acts_quiet {A} q (m : PM World A) (Q : A -> Prop) w :
  (exists a, m w = Ok a w /\ Q a) -> acts q m (fun a l => l = [] /\ Q a) w.
Proof.
  intros (a & E & HQ). exists a, w, []. split_and!; try done.
  intros p Hp. exists (mountedDir p). by rewrite set_mountedDir_same.
Qed.
Lemma acts_deref q p w : objects w !! q = Some p -> acts q (deref q) (fun p' l => l = [] /\ p' = p) w.
Proof.
  intros Hp. apply acts_quiet. exists p. split; [|done].
  unfold deref, mbind, PM_bind, pget, plift. by rewrite Hp.
Qed.
Lemma acts_exists q path w : acts q (exists_path path) (fun _ l => l = [] /\ True) w.
Proof. apply acts_quiet. by eexists. Qed.
Lemma acts_assign q p d w : objects w !! q = Some p ->
  acts q (assign q (set_mountedDir d p)) (fun _ l => l = []) w.
Proof.
  intros Hp. exists tt, (set_objects (<[q := set_mountedDir d p]> (objects w)) w), [].
  split; [reflexivity|]. cbn. split_and!; try done.
  - intros q' Hq'. by rewrite lookup_insert_ne.
  - intros p' Hp'. exists d. rewrite lookup_insert_eq. congruence.
Qed.
Lemma acts_succeeds q cmd w : acts q (succeeds cmd) (tries (view_of w) (just (Some cmd))) w.
Proof.
  unfold succeeds. eapply acts_bind; [apply acts_execute|]. intros c l w' _ _ [-> ->] _. by apply acts_ret.
Qed.
Lemma acts_pipeline q c behind w : acts q (pipeline c) (tries (view_of w) (mkStep c [] behind)) w.
Proof. destruct c; [apply acts_succeeds|by apply acts_ret]. Qed.

Lemma acts_label_available q l w :
  acts q (isLabelAvailable l) (fun _ t => t = [run_cmd ("/sbin/findfs LABEL=" +:+ l)]) w.
Proof.
  unfold isLabelAvailable. eapply acts_bind; [apply acts_execute|]. intros c t w' _ _ [-> _] _. by apply acts_ret.
Qed.
Lemma acts_probe_suffixes q lbl nrs : forall w, acts q (probe_suffixes lbl nrs) (fun _ l => Forall is_probe l) w.
Proof.
  induction nrs as [|i nrs IH]; intros w; [by apply acts_ret|]. cbn [probe_suffixes].
  eapply acts_bind; [apply acts_label_available|]. intros a t w' _ _ -> _.
  assert (Hp : is_probe (run_cmd ("/sbin/findfs LABEL=" +:+ (lbl +:+ number (Z.of_nat i))))) by (by eexists).
  destruct a; [apply acts_ret; by repeat constructor|].
  eapply acts_mono; [apply IH|]. intros ? l Hl. by constructor.
Qed.
Lemma acts_check_label q lbl w : acts q (check_label lbl) (fun _ l => Forall is_probe l) w.
Proof.
  unfold check_label. destruct (_ <? _); [by apply acts_ret|].
  eapply acts_bind; [apply acts_label_available|]. intros a t w' _ _ -> _.
  assert (Hp : is_probe (run_cmd ("/sbin/findfs LABEL=" +:+ lbl))) by (by eexists).
  destruct a; [apply acts_ret; by repeat constructor|].
  eapply acts_mono; [apply acts_probe_suffixes|]. intros ? l Hl. by constructor.
Qed.

(** ** Mounting *)

Definition mount_start (p : PartitionInfo) : Prop := mountedDir p = "".

Lemma acts_mount q p w : objects w !! q = Some p -> mount_start p ->
  acts q (PartitionInfo_mount q "/mnt2" "")
    (tries (view_of w) (mkStep (if String.eqb (partitionDevice p) "" then None else Some (mount_command p "/mnt2" ""))
                          ["/mnt2"%string; partitionDevice p] [])) w.
Proof.
  intros Hp Hm. unfold tries, startable. cbn [command needs forallb].
  unfold PartitionInfo_mount. eapply acts_bind; [by apply acts_deref|].
  intros p' l w1 E Ht [-> ->] _. assert (w1 = w) as -> by (unfold deref, mbind, PM_bind, pget, plift in E; rewrite Hp in E; congruence).
  rewrite Hm. cbn [negb String.eqb].
  destruct (String.eqb (partitionDevice p) ""); [apply acts_ret; by destruct (_ && _)|].
  eapply acts_bind; [apply acts_exists|]. intros ed l w2 E2 _ [-> _] _. injection E2 as <- <-.
  eapply acts_bind; [apply acts_exists|]. intros ep l w3 E3 _ [-> _] _. injection E3 as <- <-.
  rewrite andb_true_r. cbn [view_of snd fst]. destruct (_ && _); [|by apply acts_ret].
  eapply acts_bind; [apply acts_execute|]. intros c l w4 E4 _ [-> ->] _.
  assert (Hp4 : objects w4 !! q = Some p) by (by injection E4 as <-).
  destruct (exit_code _ =? 0); [|by apply acts_ret].
  eapply acts_bind; [by apply acts_assign|]. intros ? l w5 _ _ -> _. by apply acts_ret.
Qed.

Lemma acts_unmount q p d w : objects w !! q = Some (set_mountedDir d p) -> d <> ""%string ->
  acts q (PartitionInfo_unmount q) (fun _ l => l = [run_cmd ("umount " +:+ d)]) w.
Proof.
  intros Hp Hd. unfold PartitionInfo_unmount. eapply acts_bind; [by apply acts_deref|].
  intros p' l w1 E Ht [-> ->] _. assert (w1 = w) as -> by (unfold deref, mbind, PM_bind, pget, plift in E; rewrite Hp in E; congruence).
  change (mountedDir (set_mountedDir d p)) with d. destruct (String.eqb_spec d ""); [done|].
  eapply acts_bind; [apply acts_execute|]. intros c l w4 E4 _ [-> _] _.
  assert (Hp4 : objects w4 !! q = Some (set_mountedDir d p)) by (by injection E4 as _ <-).
  destruct (c =? 0); [|by apply acts_ret].
  eapply acts_bind; [by apply acts_assign|]. intros ? l w5 _ _ -> _. by apply acts_ret.
Qed.

(** What the mount leaves behind when it succeeds. *)
Lemma mount_true q p w w' : objects w !! q = Some p ->
  PartitionInfo_mount q "/mnt2" "" w = Ok true w' -> objects w' !! q = Some (set_mountedDir "/mnt2" p).
Proof.
  intros Hp. unfold PartitionInfo_mount, deref, exists_path, assign, mbind, PM_bind, pget, plift, mret, PM_ret, pmodify.
  rewrite Hp. destruct (negb _); [by intros [=]|]. destruct (String.eqb _ ""); [by intros [=]|].
  destruct (_ && _); [|by intros [=]]. unfold execute.
  pose proof (run_perform (Run (mount_command p "/mnt2" "") "") mret w) as Hr. unfold mbind, PM_bind, mret, PM_ret in Hr.
  destruct (perform _ w) as [c w1| |]; [|done|done]. destruct (c =? 0); [|by intros [=]].
  intros [= <-]. cbn. by rewrite lookup_insert_eq.
Qed.

(** ** One partition *)

Lemma perform_objects o a : keeps (fun w => objects w = o) any (perform a).
Proof. by intros w Hw. Qed.
Lemma succeeds_objects o cmd : keeps (fun w => objects w = o) any (succeeds cmd).
Proof. by intros w Hw. Qed.
Lemma pipeline_objects o c : keeps (fun w => objects w = o) any (pipeline c).
Proof. destruct c; [apply succeeds_objects|by apply keeps_ret]. Qed.
Lemma isLabelAvailable_objects o l : keeps (fun w => objects w = o) any (isLabelAvailable l).
Proof. by intros w Hw. Qed.
Lemma check_label_objects o lbl : keeps (fun w => objects w = o) any (check_label lbl).
Proof.
  unfold check_label. destruct (_ <? _); [by apply keeps_ret|].
  eapply keeps_bind; [apply isLabelAvailable_objects|]. intros a _. destruct a; [by apply keeps_ret|].
  induction (seq 0 10) as [|i l IH]; [by apply keeps_ret|]. cbn [probe_suffixes].
  eapply keeps_bind; [apply isLabelAvailable_objects|]. intros a _. destruct a; [by apply keeps_ret|apply IH].
Qed.

(** Mounting, extracting, unmounting. *)
Lemma acts_extract q p w : objects w !! q = Some p -> mount_start p ->
  acts q (m ← PartitionInfo_mount q "/mnt2" "";
          if negb m then mret false
          else u ← untar (tarball p); PartitionInfo_unmount q;; mret u)
    (carries (view_of w)
       [mkStep (if String.eqb (partitionDevice p) "" then None else Some (mount_command p "/mnt2" ""))
          ["/mnt2"%string; partitionDevice p] [];
        mkStep (untar_command (tarball p)) [] ["umount /mnt2"%string]]) w.
Proof.
  intros Hp Hm. eapply acts_bind; [by apply acts_mount|]. intros b l w4 E4 Hv4 Hl _.
  destruct b; cbn [negb].
  2:{ apply acts_ret. by apply carries_stop. }
  assert (Hp4 := mount_true q p w w4 Hp E4).
  eapply acts_bind; [apply (acts_pipeline _ _ ["umount /mnt2"%string])|]. intros u l' w5 E5 Hv5 Hl' _.
  assert (Hp5 : objects w5 !! q = Some (set_mountedDir "/mnt2" p)).
  { pose proof (pipeline_objects (objects w4) (untar_command (tarball p)) w4 eq_refl) as Ho.
    unfold untar in E5; rewrite E5 in Ho. by rewrite (proj1 Ho). }
  eapply acts_bind; [by eapply acts_unmount|]. intros ? l'' w6 _ _ -> _.
  apply acts_ret. rewrite app_nil_r. apply carries_plain; [done|done|]. rewrite <- Hv4. by apply carries_last in Hl'.
Qed.

Lemma acts_write_partition q p w : objects w !! q = Some p -> mount_start p ->
  acts q (write_partition q)
    (fun b l => exists probes l', l = (probes ++ l')%list /\ Forall is_probe probes /\
       carries (advance probes (view_of w)) (write_plan p) b l') w.
Proof.
  intros Hp Hm. unfold write_partition. eapply acts_bind; [by apply acts_deref|].
  intros p' l w1 E Ht [-> ->] _. assert (w1 = w) as -> by (unfold deref, mbind, PM_bind, pget, plift in E; rewrite Hp in E; congruence).
  eapply acts_bind; [apply acts_check_label|]. intros ? probes w2 E2 Hv2 Hprobes _.
  assert (Hp2 : objects w2 !! q = Some p).
  { pose proof (check_label_objects (objects w) (label p) w eq_refl) as Ho. rewrite E2 in Ho. by rewrite (proj1 Ho). }
  eapply acts_mono with (Q := fun b l => carries (view_of w2) (write_plan p) b l).
  2:{ intros b l Hl. exists probes, l. by rewrite <- Hv2. }
  clear dependent probes E2 Ht w. rename w2 into w, Hp2 into Hp. unfold write_plan.
  destruct (String.eqb (fstype p) "raw").
  { eapply acts_mono; [apply (acts_pipeline _ _ [])|]. intros b l Hl%carries_last. by rewrite app_nil_r in Hl. }
  destruct (startsWith "partclone" (fstype p)).
  { eapply acts_mono; [apply (acts_pipeline _ _ [])|]. intros b l Hl%carries_last. by rewrite app_nil_r in Hl. }
  destruct (String.eqb (fstype p) "unformatted"); cbn [negb]; [by apply acts_ret; constructor|].
  unfold mkfs. set (mk := mkfs_command _ _ _ _) in *.
  eapply acts_bind; [apply acts_succeeds|]. intros b l w3 E3 Hv3 Hl _.
  assert (Hp3 : objects w3 !! q = Some p).
  { pose proof (succeeds_objects (objects w) mk w eq_refl) as Ho. rewrite E3 in Ho. by rewrite (proj1 Ho). }
  destruct b; cbn [negb].
  2:{ apply acts_ret. by apply carries_stop. }
  destruct (negb (emptyFS p) && negb (String.eqb (tarball p) "")).
  2:{ apply acts_ret. by apply carries_last. }
  eapply acts_mono; [apply (acts_extract q p w3 Hp3 Hm)|]. intros b l' Hl'.
  by apply carries_plain; [| |rewrite <- Hv3].
Qed.

(** C8. Writing an image always ends, and what it does is the plan of its
    partitions: each is written by the processes of its plan in their order, behind
    nothing but questions for free labels.  It goes on behind a process exactly when
    that exited with code 0; the first process with another code, and the first that
    cannot be started (no command for the file, no device, no directory to mount
    to), ends the writing with failure, where only the partition is unmounted; and
    the answer is success when all plans were carried out. *)
Theorem write_partitions_plan qs ps w
    (Hdup : NoDup qs)
    (Hobj : Forall2 (fun q p => objects w !! q = Some p /\ mount_start p) qs ps) :
  exists b w' l, write_partitions qs w = Ok b w' /\ trace w' = (trace w ++ l)%list /\ writes (view_of w) ps b l.
Proof.
  cut (exists b w' l, write_partitions qs w = Ok b w' /\ view_of w' = advance l (view_of w) /\ writes (view_of w) ps b l).
  { intros (b & w' & l & E & Hv & Hw). exists b, w', l. split_and!; [done| |done].
    apply (f_equal fst) in Hv. by rewrite advance_trace in Hv. }
  revert w Hobj. induction qs as [|q qs IH] in ps, Hdup |- *; intros w Hobj.
  - apply Forall2_nil_inv_l in Hobj as ->. exists true, w, []. split_and!; [done|done|constructor].
  - apply Forall2_cons_inv_l in Hobj as (p & ps' & [Hp Hm] & Hobj & ->).
    apply NoDup_cons in Hdup as [Hq Hdup]. cbn [write_partitions].
    destruct (acts_write_partition q p w Hp Hm) as (b & w1 & l & E & Ht & (probes & l' & -> & Hpr & Hc) & Ho & _).
    rewrite (run_bind _ _ _ _ _ E). destruct b.
    + destruct (IH ps' Hdup w1) as (b & w2 & l & E2 & Ht2 & Hw2).
      { eapply Forall2_weaken; [exact Hobj|]. intros q' p' Hq' [Hp' Hm'].
        split; [|done]. rewrite Ho; [done|congruence]. }
      exists b, w2, ((probes ++ l') ++ l)%list. split_and!; [done| |].
      * by rewrite Ht2, Ht, <- advance_app.
      * apply writes_go; [done|done|by rewrite <- Ht].
    + exists false, w1, (probes ++ l')%list. split_and!; [done|done|by constructor].
Qed.
End WriteFacts.

(** ** The installation *)

Section InstallOS.
Context `{System} `{QtLaws} {M : Type -> Type} `{QMapOps M}.
Context (junkPartition : PartitionInfo).

Lemma setDefaultBootPartition_os_ends q qs p w : objects w !! q = Some p ->
  exists b w', setDefaultBootPartition_os (q :: qs) w = Ok b w'.
Proof.
  intros Hp. cbn [setDefaultBootPartition_os]. unfold setDefaultBootPartition_partition, deref, mbind, PM_bind, pget, plift.
  rewrite Hp. destruct (String.eqb _ ""); [by do 2 eexists|].
  destruct (setDefaultBootPartition_run (partitionDevice p) w) as (w' & E & _). by do 2 eexists.
Qed.

(** The answer of the installation does not depend on the images: once the
    plan was accepted and the card partitioned it is success, even when writing
    an image failed (and the half written system becomes the boot default). *)
Theorem installOS_ignores_writing (o : OSData) (s s1 : InstallManager (M:=M)) w w1 w2 w3 written l q qs p
    (Hplan : plan_step (prepareImage number contains_ci (planner_view o)) s w = Ok (true, s1) w1)
    (Hpart : partitionSDCard junkPartition s1 w1 = Ok true w2)
    (Hwrite : writeImage o [] w2 = Ok (written, l) w3)
    (Hqs : os_partitions o = q :: qs) (Hp : objects w3 !! q = Some p) :
  exists w4, installOS junkPartition o s w = Ok true w4 /\ last (trace w4) = Some SyncDisks.
Proof.
  unfold installOS. rewrite (run_bind _ _ _ _ _ Hplan). cbn [negb].
  rewrite (run_bind _ _ _ _ _ Hpart). cbn [negb]. rewrite (run_bind _ _ _ _ _ Hwrite). rewrite Hqs.
  destruct (setDefaultBootPartition_os_ends q qs p w3 Hp) as (b & w4 & E). rewrite (run_bind _ _ _ _ _ E).
  rewrite run_perform. eexists. split; [reflexivity|]. cbn. by rewrite last_snoc.
Qed.
End InstallOS.

(** ** Descriptions *)

Section Descriptions.
Context `{System} `{QtLaws}.
Context (net : nat -> network) (fuel : nat) (junk : Z).

(** The object [q] was made from the JSON value [v] and the tarball [t]. *)
Definition made_from (w : World) (q : ptr) (v : QVariant) (t : string) : Prop :=
  exists info p, as_map v = Some info /\ parsePartition junk info t = Some p /\ objects w !! q = Some p.

(** New objects for the values [l] and the tarballs [ts]; no old one changes. *)
Definition made (w w' : World) (qs : list ptr) (l : list QVariant) (ts : list string) : Prop :=
  Forall3 (made_from w') qs l ts /\ NoDup qs /\
  (forall q, q ∈ qs -> objects w !! q = None) /\
  (forall q p, objects w !! q = Some p -> objects w' !! q = Some p).

Lemma allocate_run p w :
  exists q w', allocate p w = Ok q w' /\ objects w !! q = None /\ objects w' = <[q := p]> (objects w) /\
    files w' = files w /\ trace w' = trace w.
Proof.
  exists (fresh (dom (objects w))), (set_objects (<[fresh (dom (objects w)) := p]> (objects w)) w).
  split; [reflexivity|].
  split; [|done]. apply not_elem_of_dom, is_fresh.
Qed.

Lemma parse_partitions_made l : forall ts ps w ps' w',
  (length l = length ts)%nat -> parse_partitions junk l ts ps w = Ok (true, ps') w' ->
  exists qs, ps' = (ps ++ qs)%list /\ made w w' qs l ts.
Proof.
  induction l as [|v l IH]; intros ts ps w ps' w' Hlen E; destruct ts as [|t ts]; try done; cbn in E.
  - injection E as <- <-. exists []. rewrite app_nil_r. split; [done|].
    split_and!; [constructor|constructor|by intros q ?%not_elem_of_nil|done].
  - destruct (as_map v) as [info|] eqn:Hv; [|done].
    destruct (parsePartition junk info t) as [p|] eqn:Hp; [|done].
    destruct (allocate_run p w) as (q & w1 & E1 & Hq & Ho1 & _). rewrite (run_bind _ _ _ _ _ E1) in E.
    apply IH in E as (qs & -> & Hmade & Hnd & Hnew & Hold); [|cbn in Hlen; lia].
    assert (Hq' : objects w' !! q = Some p) by (apply Hold; by rewrite Ho1, lookup_insert_eq).
    exists (q :: qs). split; [by rewrite <- app_assoc|]. split_and!.
    + constructor; [by exists info, p|done].
    + constructor; [|done]. intros Hin. specialize (Hnew _ Hin). by rewrite Ho1, lookup_insert_eq in Hnew.
    + intros q' [->|Hin]%elem_of_cons; [done|]. specialize (Hnew _ Hin).
      rewrite Ho1 in Hnew. by apply lookup_insert_None in Hnew as [? _].
    + intros q' p' Hq''. apply Hold. rewrite Ho1. rewrite lookup_insert_ne; [done|congruence].
Qed.

(** When the partition document is accepted, the system has one new, distinct
    partition object for each entry, in the order of the document, made from the
    entry and the tarball at its place; when there are fewer tarballs than entries
    the last ones have none, and more tarballs than entries are refused. *)
Theorem parsePartitionInfo_partitions url o w o' w'
    (Hrun : parsePartitionInfo net fuel junk url o w = Ok (true, o') w') :
  exists text w1 l qs,
    downloadRessource net fuel url w = Ok text w1 /\
    parseEntry as_list (parseJson text) "partitions" false = (true, Some l) /\
    (length (os_tarballs o) <= length l)%nat /\
    os_tarballs o' = (os_tarballs o ++ repeat ""%string (length l - length (os_tarballs o)))%list /\
    os_partitions o' = (os_partitions o ++ qs)%list /\ made w1 w' qs l (os_tarballs o').
Proof.
  unfold parsePartitionInfo, mbind, PM_bind in Hrun.
  destruct (downloadRessource net fuel url w) as [text w1| |] eqn:Ed; [|done|done].
  destruct (parseEntry as_list (parseJson text) "partitions" false) as [[] [l|]] eqn:El; try done.
  destruct (Nat.ltb_spec (length l) (length (os_tarballs o))) as [?|Hle]; [done|].
  destruct (parse_partitions junk l (fill_tarballs (length l) (os_tarballs o)) (os_partitions o) w1)
    as [[ok ps] w2| |] eqn:Ep; [|done|done].
  injection Hrun as -> <- <-.
  assert (Hfill : fill_tarballs (length l) (os_tarballs o)
    = (os_tarballs o ++ repeat ""%string (length l - length (os_tarballs o)))%list)
    by done.
  apply parse_partitions_made in Ep as (qs & -> & Hmade).
  - exists text, w1, l, qs. cbn [os_tarballs os_partitions set_tarballs]. by split_and!.
  - rewrite Hfill, length_app, repeat_length. lia.
Qed.

(** The check of the board's model refuses nothing: whatever models a
    description lists, it is accepted on every board when it is on one. *)
Theorem model_never_refuses os model model' :
  parse_basics os model = parse_basics os model'.
Proof.
  assert (Hor : forall ms md, foldl (fun b m => b || contains_ci md m) true ms = true)
    by (intros ms md; induction ms as [|m ms IH]; [done|exact IH]).
  unfold parse_basics. destruct (parseEntry as_string_list os "supported_models" true) as [[] v]; [|done].
  by rewrite !Hor.
Qed.
End Descriptions.
