(* ===== verification/RestFacts.v ===== *)
(** The REST interface, from the bytes of a request to the bytes of the answer
    and the files. *)
From S2P Require Import Prelude QtMap Install CText Web WebFacts WebServe Qt Sys Boot OsInfo PreSetup Write Recovery BootFacts.

Lemma terminated_free c s : c <> nl -> free_of c s -> free_of c (terminated s).
Proof.
  intros Hc. induction s as [|d s IH]; [done|]. rewrite free_of_cons. intros [Hd Hs].
  destruct s as [|e s].
  - assert (Hn : free_of c NL) by (apply free_of_cons; split; [congruence|apply free_of_nil]).
    cbn [terminated]. destruct (char_eqb d nl); [exact Hn|]. apply free_of_cons. by split.
  - rewrite terminated_cons by done. apply free_of_cons. split; [done|by apply IH].
Qed.
Lemma terminated_length s : (String.length (terminated s) <= S (String.length s))%nat.
Proof.
  induction s as [|d s IH]; [cbn; lia|]. destruct s as [|e s]; [cbn [terminated]; destruct (char_eqb d nl); cbn; lia|].
  rewrite terminated_cons by done. cbn [String.length] in *. lia.
Qed.

Section Rest.
Context `{System} `{QtLaws} {M : Type -> Type} `{QMapOps M}.
Context (net : nat -> network) (junk : Z) (junkPartition : PartitionInfo).

Local Abbreviation routes fuel := (rest_routes (M:=M) net fuel junk junkPartition).

(** A connection that carries the request [w] and then falls silent or closes. *)
Record request_arrives (w : Web) (ev : list recv_event) (st : World) (m p v now : string) : Prop := {
  ra_method : http_token m;
  ra_path : http_token p;
  ra_version : free_of " "%char v;
  ra_clean : clean_message w;
  ra_complete : complete_message w;
  ra_line : headerLine w = m +:+ " " +:+ p +:+ " " +:+ v;
  ra_date : date_text now;
  ra_quiet : quiet ev;
  ra_socket : exists chunks, arrives chunks (message_text w) /\
    connection st = mkSocket (map Received chunks ++ ev) "" [];
}.

Lemma serve_rest fuel w ev st m p v now : request_arrives w ev st m p v now ->
  serve_connection fuel now (routes fuel) st =
  if String.eqb v "HTTP/1.1" then
    match List.find (route_matches (Server.mkRequest (received w) m p)) (routes fuel) with
    | Some r =>
        (o ← callback r (Server.mkRequest (received w) m p) (Server.newResponse now);
         match o with
         | Some res => on_socket (Server.sendResponse res);; mret true
         | None => mret false
         end) (with_socket (mkSocket ev "" []) st)
    | None => Ok true (with_socket (mkSocket ev (answer_text 404 "Not Found" "Not found" now) []) st)
    end
  else Ok true (with_socket (mkSocket ev (answer_text 400 "Bad Request" "Bad Request" now) []) st).
Proof.
  intros [Hm Hp Hv Hc Hl Hline Hd Hq (chunks & Ha & Hs)]. by eapply serve_request.
Qed.

(** Sending an answer on the connection of the world. *)
Lemma send_answer c p b now st : plain_answer c p b -> date_text now -> write_results (connection st) = [] ->
  on_socket (Server.sendResponse (Server.answer c p b (Server.newResponse now))) st
  = Ok true (with_socket (mkSocket (incoming (connection st)) (sent (connection st) +:+ answer_text c p b now) []) st).
Proof. intros Ha Hd Hw. apply on_socket_Ok. by apply sendResponse_answer. Qed.

(** C4. Setting the default boot partition over HTTP: a POST to [/bootPartition]
    stores its body (with its last line closed) when it begins like a partition of
    the card and the file can be replaced, and is answered 200 exactly then and 400
    otherwise; nothing else changes. *)
Theorem rest_bootPartition fuel w ev st now
    (Hreq : request_arrives w ev st "POST" "/bootPartition" "HTTP/1.1" now)
    (Hsize : Z.of_nat (String.length (body w)) < 2 ^ 62) :
  let d := terminated (body w) in
  exists st', serve_connection fuel now (routes fuel) st = Ok true st' /\
    files st' = partial_alter (fun v => stored (trace st) d v) DEFAULT_BOOT_PARTITION_FILE (files st) /\
    trace st' = trace st /\ objects st' = objects st /\
    sent (connection st') =
      if store_accepts (trace st) d (files st !! DEFAULT_BOOT_PARTITION_FILE)
      then answer_text 200 "OK" ("Successfully set default partition to " +:+ d +:+ NL) now
      else answer_text 400 "Bad Request" ("Unable to set default partition to " +:+ d +:+ ", partition does not exist" +:+ NL) now.
Proof.
  intros d. rewrite (serve_rest fuel w ev st _ _ _ _ Hreq). cbn [String.eqb].
  change (List.find _ _) with (Some (mkRoute "/bootPartition" "POST" setDefaultBootPartitionREST)).
  cbn [callback]. unfold setDefaultBootPartitionREST. cbn [Server.web body received]. fold d.
  assert (Hfree : free_of NUL d) by (apply terminated_free; [by intros [=]|apply (clean_body _ (ra_clean _ _ _ _ _ _ _ Hreq))]).
  rewrite (c_str_free _ Hfree).
  set (st0 := with_socket (mkSocket ev "" []) st).
  destruct (setDefaultBootPartition_run d st0) as (st1 & E & Hf & Ht & Hob & Hc & _).
  change (trace st0) with (trace st) in *. change (files st0) with (files st) in *.
  change (connection st0) with (mkSocket ev "" []) in Hc.
  pose proof (terminated_length (body w)) as Hlen. fold d in Hlen.
  assert (Hplain : forall c ph pre post, Z.abs c < 2 ^ 31 -> plain_phrase ph ->
    (String.length pre + String.length post <= 1000)%nat -> plain_answer c ph (pre +:+ d +:+ post)).
  { intros c ph pre post H3 H4 H5. split_and!; [apply H4|done|]. rewrite !length_app_s. lia. }
  assert (Hwr : write_results (connection st1) = []) by (by rewrite Hc).
  pose proof (ra_date _ _ _ _ _ _ _ Hreq) as Hd.
  unfold mbind, PM_bind. rewrite E. unfold mret, PM_ret.
  exists (with_socket (mkSocket ev (if store_accepts (trace st) d (files st !! DEFAULT_BOOT_PARTITION_FILE)
      then answer_text 200 "OK" ("Successfully set default partition to " +:+ d +:+ NL) now
      else answer_text 400 "Bad Request" ("Unable to set default partition to " +:+ d +:+ ", partition does not exist" +:+ NL) now) []) st1).
  split.
  - destruct (store_accepts (trace st) d _).
    + rewrite send_answer; [by rewrite Hc| |done|done]. apply (Hplain 200); [done|by split; [vm_compute|cbn; lia]|cbn; lia].
    + rewrite send_answer; [by rewrite Hc| |done|done]. apply (Hplain 400); [done|by split; [vm_compute|cbn; lia]|cbn; lia].
  - split_and!; [|done|done|done]. cbn [files with_socket World_HasSocket]. rewrite Hf.
    apply map_eq. intros k.
    destruct (decide (DEFAULT_BOOT_PARTITION_FILE = k)) as [<-|Hk];
      [by rewrite !lookup_partial_alter_eq|by rewrite !lookup_partial_alter_ne].
Qed.

(** C37. What the server refuses: a request line with another protocol version is
    answered 400, anything but a POST to one of the four paths 404, and neither
    changes anything but the connection. *)
Theorem rest_refused fuel w ev st m p v now (Hreq : request_arrives w ev st m p v now)
    (Hno : v <> "HTTP/1.1"%string \/ m <> "POST"%string \/
           p ∉ ["/os"; "/bootPartition"; "/reboot"; "/exit"]%string) :
  serve_connection fuel now (routes fuel) st
  = Ok true (with_socket (mkSocket ev (if String.eqb v "HTTP/1.1" then answer_text 404 "Not Found" "Not found" now
                                       else answer_text 400 "Bad Request" "Bad Request" now) []) st).
Proof.
  rewrite (serve_rest fuel w ev st _ _ _ _ Hreq).
  destruct (String.eqb_spec v "HTTP/1.1") as [->|_]; [|done].
  assert (Hfind : List.find (route_matches (Server.mkRequest (received w) m p)) (routes fuel) = None).
  { destruct Hno as [?|Hno]; [done|]. cbn [List.find rest_routes webserver_post addRoute app]. unfold route_matches. cbn [route_path route_method Server.path Server.method].
    assert (Hm : forall s, String.eqb "POST" s || String.eqb "POST" "ALL" = String.eqb "POST" s)
      by (intros s; apply orb_false_r).
    rewrite !Hm. destruct (String.eqb_spec "POST" m) as [<-|_]; [|by rewrite !andb_false_r].
    destruct Hno as [?|Hno]; [done|]. rewrite !not_elem_of_cons in Hno. destruct Hno as (H3 & H4 & H5 & H6 & _).
    repeat (match goal with |- context [String.eqb ?a p] => destruct (String.eqb_spec a p); [congruence|] end). done. }
  by rewrite Hfind.
Qed.

(** Booting does not touch the connection. *)
Lemma perform_connection c a : keeps (fun w => connection w = c) any (perform a).
Proof. by intros w Hw. Qed.
Lemma bootIntoPartition_connection d c : keeps (fun w => connection w = c) any (bootIntoPartition d).
Proof.
  unfold bootIntoPartition. eapply keeps_bind with (Q := any).
  { destruct (String.eqb d ""); [|by apply keeps_ret]. by intros w Hw. }
  intros t _. destruct (negb _); [by apply keeps_ret|]. destruct (toInt _); [|by apply keeps_ret].
  eapply keeps_bind with (Q := any); [intros w Hw; by rewrite reboot_parameter_run|].
  intros [param|] _; [|by apply keeps_ret].
  eapply keeps_bind with (Q := any).
  { intros w Hw. unfold write_file, mbind, PM_bind, pget, mret, PM_ret. destruct (openable _ _); [|done].
    by destruct (write_error _ _ _). }
  intros _ _. do 4 (eapply keeps_bind; [apply perform_connection|intros _ _]). by apply keeps_ret.
Qed.

(** A POST to [/reboot] is answered before the machine goes down; when it does
    not go down (no default partition, or a machine without reboot parameter) the
    server stays and sends the same answer a second time. *)
Theorem rest_reboot fuel w ev st now gone st'
    (Hreq : request_arrives w ev st "POST" "/reboot" "HTTP/1.1" now) :
  let t := answer_text 200 "OK" ("Reboot into default partition now" +:+ NL) now in
  bootIntoPartition "" (with_socket (mkSocket ev t []) st) = Ok gone st' ->
  serve_connection fuel now (routes fuel) st
  = if gone then Ok false st' else Ok true (with_socket (mkSocket ev (t +:+ t) []) st').
Proof.
  intros t Hboot. rewrite (serve_rest fuel w ev st _ _ _ _ Hreq). cbn [String.eqb].
  change (List.find _ _) with (Some (mkRoute "/reboot" "POST" rebootToDefaultPartition)).
  cbn [callback]. unfold rebootToDefaultPartition, answer_and.
  assert (Hd := ra_date _ _ _ _ _ _ _ Hreq). set (b := "Reboot into default partition now" +:+ NL) in *.
  assert (Hplain : plain_answer 200 "OK" b) by solve_plain.
  assert (Hs := send_answer 200 "OK" b now (with_socket (mkSocket ev "" []) st) Hplain Hd eq_refl).
  unfold mbind, PM_bind. rewrite Hs. change (with_socket _ (with_socket _ st)) with (with_socket (mkSocket ev t []) st).
  rewrite Hboot. destruct gone; [done|]. unfold mret, PM_ret.
  assert (Hc : connection st' = mkSocket ev t []).
  { pose proof (bootIntoPartition_connection "" (mkSocket ev t []) (with_socket (mkSocket ev t []) st) eq_refl) as Hk.
    rewrite Hboot in Hk. apply Hk. }
  change (Server.mkResponse _ _ _ _ _) with (sent_once 200 "OK" b now).
  rewrite (on_socket_Ok (Server.sendResponse (sent_once 200 "OK" b now)) st' true (mkSocket ev (t +:+ t) [])); [done|].
  change (socket_of st') with (connection st'). rewrite Hc. unfold Server.sendResponse. rewrite resend.
  rewrite (proj1 (send_text _ (mkSocket ev t []) eq_refl)) by (by apply answer_fits).
  by rewrite answer_message by (done || apply Hplain).
Qed.
End Rest.

Lemma settings_start_spec e : 0 <= e -> e + PARTITION_GAP + PARTITION_ALIGNMENT <= 2147483647 ->
  e + PARTITION_GAP <= settings_start e < e + PARTITION_GAP + PARTITION_ALIGNMENT /\
  settings_start e mod PARTITION_ALIGNMENT = 0.
Proof.
  unfold settings_start, PARTITION_GAP, PARTITION_ALIGNMENT. intros H0 H1.
  assert (Hi : i32 (e + 2) = e + 2) by (unfold i32; rewrite Z.mod_small; lia).
  rewrite Hi, rem_nonneg by lia. pose proof (Z.mod_pos_bound (e + 2) 8192 ltac:(lia)) as Hm.
  destruct (Z.eqb_spec ((e + 2) mod 8192) 0) as [E|E]; cbn [negb]; [lia|].
  assert (Hi' : i32 (e + 2 + (8192 - (e + 2) mod 8192)) = e + 2 + (8192 - (e + 2) mod 8192))
    by (unfold i32; rewrite Z.mod_small; lia).
  rewrite Hi'. split; [lia|]. pose proof (Z.div_mod (e + 2) 8192 ltac:(lia)) as Hd.
  replace (e + 2 + (8192 - (e + 2) mod 8192)) with ((((e + 2) / 8192) + 1) * 8192) by lia.
  by rewrite Z.mod_mul.
Qed.

(** The table for a fresh card: the FAT partition as parted left it, behind it
    the extended partition with all the rest, and in it the settings partition,
    aligned to 4 MiB, at most one alignment unit and the gap behind the start of
    the extended partition; and the FAT partition itself is asked to start on a
    MiB boundary, never in the first MiB. *)
Theorem setup_table_layout `{Qt} start size
    (Hstart : 0 <= start) (Hsize : 0 <= size)
    (Hfits : start + size + PARTITION_GAP + PARTITION_ALIGNMENT <= 2147483647) :
  let e := start + size in
  exists s, setup_table start size =
      number start +:+ "," +:+ number size +:+ ",0E" +:+ NL +:+
      number e +:+ ",,E" +:+ NL +:+ "0,0" +:+ NL +:+ "0,0" +:+ NL +:+
      number s +:+ "," +:+ number SETTINGS_PARTITION_SIZE +:+ ",L" +:+ NL /\
    e + PARTITION_GAP <= s < e + PARTITION_GAP + PARTITION_ALIGNMENT /\ s mod PARTITION_ALIGNMENT = 0 /\
    rescue_start start mod 2048 = 0 /\ 2048 <= rescue_start start.
Proof.
  intros e. assert (He : i32 e = e) by (unfold e, i32, PARTITION_GAP, PARTITION_ALIGNMENT in *; rewrite Z.mod_small; lia).
  exists (settings_start e). unfold setup_table. fold e. rewrite He. split; [done|].
  destruct (settings_start_spec e) as [? ?]; [unfold e; lia|done|]. split_and!; [lia|lia|done| |].
  - unfold rescue_start. destruct (Z.ltb_spec start 2048); [done|]. rewrite rem_nonneg by lia. cbn [orb].
    by destruct (Z.eqb_spec (start mod 2048) 0).
  - unfold rescue_start. destruct (Z.ltb_spec start 2048); [done|]. cbn [orb].
    destruct (negb _); [done|lia].
Qed.
