(* ===== verification/RunFacts.v ===== *)
(** The program as a whole: which processes it can start on its way to a boot. *)
From S2P Require Import Prelude Install CText Qt QtMap Web WebFacts WebServe Sys Boot BootFacts.
From S2P Require Import OsInfo PreSetup Write Recovery.

Section RunFacts.
Context `{System} `{Qt}.

(** Nothing went over the network, and no object changed. *)
Definition offline (w w' : World) : Prop :=
  dialed w' = dialed w /\ connection w' = connection w /\ objects w' = objects w.
Lemma offline_trans w1 w2 w3 : offline w1 w2 -> offline w2 w3 -> offline w1 w3.
Proof. intros (? & ? & ?) (? & ? & ?). unfold offline. split_and!; congruence. Qed.

(** Whatever [m] does, its actions are of the kind [P], and none is on the network. *)
Definition only {A} (P : action -> Prop) (m : PM World A) : Prop :=
  forall w, match m w with
            | Ok _ w' => exists l, trace w' = (trace w ++ l)%list /\ Forall P l /\ offline w w'
            | _ => True
            end.

Lemma only_silent {A} P (m : PM World A) :
  (forall w, match m w with Ok _ w' => trace w' = trace w /\ offline w w' | _ => True end) -> only P m.
Proof.
  intros Hm w. specialize (Hm w). destruct (m w) as [a w'| |]; [|done..]. destruct Hm.
  exists []. rewrite app_nil_r. split_and!; [done|constructor|done].
Qed.
Lemma only_ret {A} P (a : A) : only P (mret a).
Proof. by apply only_silent. Qed.
Lemma only_fault {A} P : only P (pfault : PM World A).
Proof. done. Qed.
Lemma only_nofuel {A} P : only P (pnofuel : PM World A).
Proof. done. Qed.
Lemma only_bind {A B} P (m : PM World A) (f : A -> PM World B) :
  only P m -> (forall a, only P (f a)) -> only P (m ≫= f).
Proof.
  intros Hm Hf w. unfold mbind, PM_bind. specialize (Hm w). destruct (m w) as [a w1| |]; [|done..].
  specialize (Hf a w1). destruct (f a w1) as [b w2| |]; [|done..].
  destruct Hm as (l & Ht & Hl & Ho), Hf as (l2 & Ht2 & Hl2 & Ho2). exists (l ++ l2)%list.
  split_and!; [by rewrite Ht2, Ht, app_assoc|by apply Forall_app|by eapply offline_trans].
Qed.
Lemma only_perform (P : action -> Prop) a : P a -> only P (perform a).
Proof. intros Ha w. exists [a]. split_and!; [done|by constructor|done]. Qed.
Lemma only_when P b (m : PM World unit) : only P m -> only P (pwhen b m).
Proof. destruct b; [done|]. intros _. apply only_ret. Qed.
Lemma only_impl {A} (P Q : action -> Prop) (m : PM World A) : only P m -> (forall a, P a -> Q a) -> only Q m.
Proof.
  intros Hm HPQ w. specialize (Hm w). destruct (m w) as [a w'| |]; [|done..].
  destruct Hm as (l & Ht & Hl & Ho). exists l. split_and!; [done| |done]. by eapply Forall_impl.
Qed.

Lemma only_exists P path : only P (exists_path path).
Proof. by apply only_silent. Qed.
Lemma only_read P path : only P (read_file path).
Proof. by apply only_silent. Qed.
Lemma only_make_dir P path : only P (make_dir path).
Proof. by apply only_silent. Qed.
Lemma only_write P path t : only P (write_file path t).
Proof.
  apply only_silent. intros w. unfold write_file, mbind, PM_bind, pget, mret, PM_ret, pmodify.
  destruct (negb _); [done|]. by destruct (write_error _ _ _).
Qed.
Lemma only_get_contents P path : only P (getFileContents path).
Proof. apply only_bind; [apply only_read|intros o; apply only_ret]. Qed.

Create HintDb acts discriminated.
#[local] Hint Resolve only_ret only_bind only_when only_exists only_read only_make_dir only_write
  only_get_contents only_fault only_nofuel : acts.
#[local] Hint Extern 1 (only _ (if ?b then _ else _)) => destruct b : acts.
#[local] Hint Extern 1 (only _ (match ?o with Some _ => _ | None => _ end)) => destruct o : acts.

(** ** Kinds of actions *)

(** The two processes that mount the settings partition: the question whether it is
    mounted, and the mount. *)
Definition settings_mounts : list action :=
  [Run "mount | grep /dev/mmcblk0p5 on /settings" ""; Run "mount -t ext4 /dev/mmcblk0p5 /settings" ""].
Definition is_reboot (a : action) : Prop := a ∈ reboot_actions.

Lemma only_mountSettingsPartition : only (fun a => a ∈ settings_mounts) mountSettingsPartition.
Proof.
  unfold mountSettingsPartition, mountPartition, partitionIsMounted.
  assert (Hp : forall cmd, Run cmd "" ∈ settings_mounts -> only (fun a => a ∈ settings_mounts) (execute cmd))
    by (intros cmd Hc; by apply only_perform).
  assert (H1 := Hp _ ltac:(left)). assert (H2 := Hp _ ltac:(right; left)). eauto 20 with acts.
Qed.
Lemma only_bootIntoPartition d : only is_reboot (bootIntoPartition d).
Proof.
  unfold bootIntoPartition, reboot_parameter.
  assert (Hp : forall a, a ∈ reboot_actions -> only is_reboot (perform a)) by (intros a Ha; by apply only_perform).
  assert (H1 := Hp (Run "ifdown -a" "") ltac:(left)). assert (H2 := Hp (Run "umount -ar" "") ltac:(right; left)).
  assert (H3 := Hp SyncDisks ltac:(right; right; left)). assert (H4 := Hp RebootMachine ltac:(right; right; right; left)).
  unfold execute. eauto 30 with acts.
Qed.

(** Deciding whether to boot does nothing. *)
Lemma bootCheck_silent args ws : only (fun _ => False) (bootCheck args ws).
Proof.
  apply only_silent. intros w. unfold bootCheck, offline.
  destruct (process_arguments_run args false ws w) as (w' & E & _ & Ht & Ho & Hc & Hd).
  rewrite (run_bind _ _ _ _ _ E). destruct (false || existsb is_runinstaller args); [by cbn|].
  unfold hasInstalledOS, mbind, PM_bind. by rewrite getInstalledOS_run.
Qed.

Context {M : Type -> Type} `{QMapOps M}.
Context (net : nat -> network) (fuel : nat) (junk : Z) (junkPartition : PartitionInfo) (addresses : nat -> list string).

(** What a boot may do: mount the settings partition, tell that it is finished, and
    reboot. *)
Definition boot_action (a : action) : Prop := a ∈ settings_mounts \/ a = Finished \/ is_reboot a.

(** C13. A machine that boots leaves its card alone: when the decision is to boot,
    the whole run of the program starts nothing but the two processes that mount the
    settings partition [/dev/mmcblk0p5] on [/settings] and those of the reboot; no
    partitioning, no formatting, no network. *)
Theorem boot_leaves_card args input conns w m w1 ws w2 b w'
    (Hmount : mountSettingsPartition w = Ok m w1)
    (Hboot : (pwhen m emit_finished;; bootCheck args true) w1 = Ok (true, ws) w2)
    (Hrun : run (M:=M) net fuel junk junkPartition addresses args input conns w = Ok b w') :
  exists l, trace w' = (trace w ++ l)%list /\ Forall boot_action l /\ offline w w'.
Proof.
  unfold run in Hrun. rewrite (run_bind _ _ _ _ _ Hmount) in Hrun.
  assert (Hfin : only boot_action emit_finished).
  { apply only_bind; [apply only_perform; by right; left|intros; apply only_ret]. }
  destruct (pwhen m emit_finished w1) as [[] w1'| |] eqn:E1;
    [|by unfold mbind, PM_bind in Hboot; rewrite E1 in Hboot..].
  rewrite (run_bind _ _ _ _ _ E1) in Hboot. rewrite (run_bind _ _ _ _ _ E1), (run_bind _ _ _ _ _ Hboot) in Hrun.
  cbn iota in Hrun.
  assert (Ho1 : only boot_action mountSettingsPartition)
    by (eapply only_impl; [apply only_mountSettingsPartition|by left]).
  specialize (Ho1 w). rewrite Hmount in Ho1. destruct Ho1 as (l1 & Ht1 & Hl1 & Hn1).
  assert (Ho2 := only_when _ m _ Hfin w1). rewrite E1 in Ho2. destruct Ho2 as (l2 & Ht2 & Hl2 & Hn2).
  assert (Ho3 := bootCheck_silent args true w1'). rewrite Hboot in Ho3. destruct Ho3 as (l3 & Ht3 & Hl3 & Hn3).
  assert (Ho4 : only boot_action (alive ← (gone ← bootIntoPartition ""; mret (negb gone));
                 if alive : bool then emit_finished;; mret true else mret false)).
  { apply only_bind.
    - apply only_bind; [|intros; apply only_ret]. eapply only_impl; [apply only_bootIntoPartition|]. intros a Ha. by right; right.
    - intros []; [|apply only_ret]. apply only_bind; [done|intros; apply only_ret]. }
  specialize (Ho4 w2). rewrite Hrun in Ho4. destruct Ho4 as (l4 & Ht4 & Hl4 & Hn4).
  exists (l1 ++ l2 ++ l3 ++ l4)%list. split_and!; [by rewrite Ht4, Ht3, Ht2, Ht1, <- !app_assoc| |].
  - rewrite !Forall_app. split_and!; try done. eapply Forall_impl; [exact Hl3|done].
  - eauto using offline_trans.
Qed.
End RunFacts.
