(* ===== verification/RecoveryDemo.v ===== *)
(** A concrete machine: an implementation of the Qt interface, an operating
    system on which every process succeeds but [mkfs], and the runs that witness
    the theorems on the recovery program. *)
From S2P Require Import Prelude Install CText Qt QtMap Web WebFacts WebServe Sys Boot BootFacts.
From S2P Require Import OsInfo PreSetup RestFacts Write Recovery WriteFacts RunFacts.

(** ** Qt *)

(** [endsWith]. *)
Fixpoint ends_with (suffix s : string) : bool :=
  String.eqb suffix s || match s with EmptyString => false | String _ t => ends_with suffix t end.

(** [trimmed]. *)
Fixpoint rtrim (s : string) : string :=
  match s with
  | EmptyString => EmptyString
  | String c t => match rtrim t with
                  | EmptyString => if isspace c then EmptyString else str1 c
                  | t => String c t
                  end
  end.
Definition demo_trimmed (s : string) : string := rtrim (skip_space s).

(** [replace]: every occurrence of a non-empty [before], from the left; [skip] characters belong to the last one. *)
Fixpoint replace_from (before after : string) (skip : nat) (s : string) : string :=
  match s with
  | EmptyString => EmptyString
  | String c t =>
      match skip with
      | S k => replace_from before after k t
      | O => if starts_with before s then after +:+ replace_from before after (String.length before - 1) t
             else String c (replace_from before after 0 t)
      end
  end.
Definition demo_replace (before after s : string) : string := replace_from before after 0 s.

Definition demo_toInt (s : string) : option Z :=
  let z := strtoll 10 s in
  if String.eqb (fmt_d z) s && (-2147483648 <=? z) && (z <=? 2147483647) then Some z else None.
Definition demo_partition : QVariantMap :=
  [("filesystem_type", VString "FAT"); ("partition_size_nominal", VInt 63)]%string.
(** The JSON documents of the demo: a single partition, and a list of systems. *)
Definition demo_json (s : string) : option QVariant :=
  if String.eqb s ("{}" +:+ NL) then Some (VMap [("partitions", VList [VMap demo_partition])]%string)
  else if String.eqb s "[1]" then Some (VList [VInt 1]) else None.
#[export] Instance demo_qt : Qt := {|
  number := fmt_d;
  startsWith := starts_with;
  endsWith := ends_with;
  trimmed := demo_trimmed;
  replace := demo_replace;
  toInt := demo_toInt;
  toULongLong s := Some (strtoll 10 s);
  ci_eq := String.eqb;
  contains_ci _ _ := false;
  parse_json := demo_json;
  serialize_json _ := Some "json"%string;
  ini_value _ _ := None;
  as_string v := match v with VString s => Some s | _ => None end;
  as_bytes v := match v with VString s => Some s | _ => None end;
  as_bool v := match v with VBool b => Some b | _ => None end;
  as_int v := match v with VInt n => Some n | _ => None end;
  as_string_list v := None;
  as_list v := match v with VList l => Some l | _ => None end;
  as_map v := match v with VMap m => Some m | _ => None end;
|}.

Lemma starts_with_spec p s : starts_with p s = true <-> exists t, s = p +:+ t.
Proof.
  unfold starts_with. split.
  - destruct (strip_prefix p s) as [t|] eqn:E; [|done]. intros _. exists t. by apply strip_prefix_Some.
  - intros [t ->]. by rewrite strip_prefix_app.
Qed.
Lemma replace_skip b a t s : replace_from b a (String.length t) (t +:+ s) = replace_from b a 0 s.
Proof. induction t as [|c t IH]; [done|]. exact IH. Qed.
Lemma demo_replace_prefix b a s : b <> EmptyString -> demo_replace b a (b +:+ s) = a +:+ demo_replace b a s.
Proof.
  destruct b as [|c p]; [done|]. intros _. unfold demo_replace. cbn [String.append replace_from].
  change (String c (p +:+ s)) with (String c p +:+ s).
  rewrite (proj2 (starts_with_spec _ _) (ex_intro _ s eq_refl)). cbn [String.length].
  replace (S (String.length p) - 1)%nat with (String.length p) by lia. by rewrite replace_skip.
Qed.
Lemma demo_replace_absent b a s : (forall x y, s <> x +:+ b +:+ y) -> demo_replace b a s = s.
Proof.
  unfold demo_replace. induction s as [|d s IH]; [done|]. intros Hn. cbn [replace_from].
  destruct (starts_with b (String d s)) eqn:E.
  - apply starts_with_spec in E as [t Ht]. by destruct (Hn "" t).
  - rewrite IH; [done|]. intros x y ->. by apply (Hn (String d x) y).
Qed.
Lemma write_digits_plain f fuel n acc : (forall d, 0 <= d < 10 -> f (digit_char d) = true) ->
  string_all f acc = true -> string_all f (write_digits fuel 10 n acc) = true.
Proof.
  intros Hf. revert n acc. induction fuel as [|k IH]; intros n acc Ha; [done|]. cbn [write_digits].
  assert (Hc : string_all f (String (digit_char (n mod 10)) acc) = true).
  { cbn. rewrite Ha, Hf; [done|]. pose proof (Z.mod_pos_bound n 10 ltac:(lia)). lia. }
  destruct (_ =? 0); [done|by apply IH].
Qed.
Lemma fmt_d_plain z : string_all (fun c => isdigit c || char_eqb c "-") (fmt_d z) = true.
Proof.
  assert (H : forall n, string_all (fun c => isdigit c || char_eqb c "-") (digits 10 n) = true).
  { intros n. apply write_digits_plain; [|done]. intros d Hd. by rewrite digit_char_digit. }
  unfold fmt_d. destruct (z <? 0); [cbn; apply H|apply H].
Qed.

#[export] Instance demo_qt_laws : QtLaws.
Proof.
  split; cbn; try done; try apply fmt_d_plain; try apply starts_with_spec; try apply demo_replace_prefix;
    try apply demo_replace_absent.
  - intros z Hz. unfold demo_toInt.
    assert (Hz64 : is_i64 z) by (unfold is_i64, is_i32, LLONG_MAX, LLONG_MIN in *; lia).
    rewrite strtoll_fmt_d, String.eqb_refl by done. unfold is_i32 in Hz.
    destruct (Z.leb_spec (-2147483648) z), (Z.leb_spec z 2147483647); done || lia.
  - intros s z. unfold demo_toInt, is_i32. destruct (String.eqb _ s); [|done]. cbn [andb].
    destruct (Z.leb_spec (-2147483648) (strtoll 10 s)); [|done]. cbn [andb].
    destruct (Z.leb_spec (strtoll 10 s) 2147483647); [|done]. intros [= <-]. lia.
  - intros s. apply String.eqb_refl.
Qed.

(** ** The machine *)

(** [mount | grep ...] always fails, [mkfs] fails, everything else succeeds. *)
Definition demo_exit_code (t : list action) : Z :=
  match last t with
  | Some (Run c _) => if starts_with "mount |" c || starts_with "/sbin/mkfs" c then 1 else 0
  | _ => 0
  end.
#[export] Instance demo_system : System := {|
  exit_code := demo_exit_code;
  output _ := ""%string;
  after_action _ f := f;
  openable _ _ := true;
  removable _ _ := true;
  write_error _ _ _ := false;
|}.

Definition demo_p1 : PartitionInfo :=
  mkPartitionInfo "FAT" "" "boot" "" "0c" "http://pi/boot.tar.xz" "" 63 0 0 0 0 false false false.
Definition demo_files : file_system := {[
  "/dev/mmcblk0" := ""; "/dev/mmcblk0p1" := ""; "/dev/mmcblk0p5" := ""; "/dev/mmcblk0p6" := "";
  "/mnt" := ""; "/mnt2" := ""; "/settings" := "";
  "/sys/class/block/mmcblk0p1/start" := "8192"; "/sys/class/block/mmcblk0p1/size" := "114686";
  "/sys/class/block/mmcblk0p5/start" := "122880"; "/sys/class/block/mmcblk0p5/size" := "65534";
  "/sys/class/block/mmcblk0/size" := "15523840";
  "/sys/module/bcm2709/parameters/reboot_part" := "0" ]}%string.
Definition demo_world (s : Socket) : World := mkWorld {[ 0%nat := demo_p1 ]} demo_files [] s 0.
Definition idle : Socket := mkSocket [] "" [].

Lemma default_partition_reboots_witness :
  number 6 = "6"%string /\
  (setDefaultBootPartition (DEVICE_PREFIX +:+ number 6);; bootIntoPartition "") (demo_world idle)
  = Ok true (run_actions reboot_actions
      (set_files (<["/sys/module/bcm2709/parameters/reboot_part" := number 6 +:+ NL]>
                   (<[DEFAULT_BOOT_PARTITION_FILE := DEVICE_PREFIX +:+ number 6]> demo_files)) (demo_world idle))).
Proof.
  split; [by vm_compute|].
  apply (default_partition_reboots 6 "/sys/module/bcm2709/parameters/reboot_part" (demo_world idle)).
  - unfold is_i32. lia.
  - vm_compute. reflexivity.
  - reflexivity.
  - reflexivity.
  - reflexivity.
  - reflexivity.
  - reflexivity.
Defined.

(** ** Requests *)

Definition demo_date : string := "Mon, 01 Jan 2018 00:00:00 GMT".
Definition post (path b : string) : Web :=
  set_body b (set_headerLine ("POST " +:+ path +:+ " HTTP/1.1") newWeb).
Definition demo_request (path b : string) : World :=
  demo_world (mkSocket [Received (message_text (post path b)); PeerClosed] "" []).
Definition demo_net : nat -> network :=
  fun _ _ _ => Some (mkSocket [Received (message_text (set_body "{}" (set_headerLine "HTTP/1.1 200 OK" newWeb))); PeerClosed] "" []).

Lemma post_arrives path b : http_token path -> free_of NUL b -> free_of NUL path ->
  Z.of_nat (String.length (message_text (post path b))) < BUFFER_SIZE ->
  request_arrives (post path b) [PeerClosed] (demo_request path b) "POST" path "HTTP/1.1" demo_date.
Proof.
  intros Hp Hb Hn Hl. split.
  - split_and!; by vm_compute.
  - done.
  - by vm_compute.
  - destruct Hp as (? & ? & ?). split; [|constructor|constructor|done].
    cbn [headerLine post set_body set_headerLine]. rewrite !free_of_app.
    split; split_and!; try done; by vm_compute.
  - by split.
  - reflexivity.
  - split; [by vm_compute|cbn; lia].
  - right. by eexists.
  - exists [message_text (post path b)]. split; [|done]. split; [symmetry; apply app_nil_s|].
    apply Forall_singleton. split; [|done]. intros E. apply (f_equal String.length) in E.
    unfold message_text, message_head in E. rewrite !length_app_s in E. cbn in E. lia.
Qed.

Local Abbreviation routes := (rest_routes (M:=gmap Z) demo_net 3 0 demo_p1).

Lemma rest_bootPartition_witness :
  exists st', serve_connection 3 demo_date routes (demo_request "/bootPartition" "/dev/mmcblk0p6") = Ok true st' /\
    files st' = partial_alter (fun v => stored [] ("/dev/mmcblk0p6" +:+ NL) v) DEFAULT_BOOT_PARTITION_FILE demo_files /\
    trace st' = [] /\ objects st' = {[ 0%nat := demo_p1 ]} /\
    sent (connection st') = answer_text 200 "OK" ("Successfully set default partition to /dev/mmcblk0p6" +:+ NL +:+ NL) demo_date.
Proof.
  assert (Hreq : request_arrives (post "/bootPartition" "/dev/mmcblk0p6") [PeerClosed]
      (demo_request "/bootPartition" "/dev/mmcblk0p6") "POST" "/bootPartition" "HTTP/1.1" demo_date)
    by (apply post_arrives; [by split_and!; vm_compute|by vm_compute..]).
  destruct (rest_bootPartition (M:=gmap Z) demo_net 0 demo_p1 3 _ _ _ demo_date Hreq ltac:(by vm_compute))
    as (st' & E & Hf & Ht & Ho & Hs).
  exists st'. split_and!; [exact E|exact Hf|exact Ht|exact Ho|]. rewrite Hs. vm_compute. reflexivity.
Defined.

Lemma rest_refused_witness :
  serve_connection 3 demo_date routes (demo_request "/shutdown" "")
  = Ok true (with_socket (mkSocket [PeerClosed] (answer_text 404 "Not Found" "Not found" demo_date) [])
               (demo_request "/shutdown" "")).
Proof.
  apply (rest_refused demo_net 0 demo_p1 3 (post "/shutdown" "") [PeerClosed]
           (demo_request "/shutdown" "") "POST" "/shutdown" "HTTP/1.1" demo_date).
  - apply post_arrives; [by split_and!; vm_compute|by vm_compute..].
  - right. right. apply (bool_decide_eq_false (_ ∈ _)). vm_compute. reflexivity.
Defined.

(** Without a default partition the machine stays up. *)
Lemma rest_reboot_witness :
  let t := answer_text 200 "OK" ("Reboot into default partition now" +:+ NL) demo_date in
  serve_connection 3 demo_date routes (demo_request "/reboot" "")
  = Ok true (with_socket (mkSocket [PeerClosed] (t +:+ t) []) (demo_request "/reboot" "")).
Proof.
  intros t.
  refine (eq_trans (rest_reboot demo_net 0 demo_p1 3 (post "/reboot" "") [PeerClosed] (demo_request "/reboot" "") demo_date
    false (with_socket (mkSocket [PeerClosed] t []) (demo_request "/reboot" "")) _ _) _).
  - apply post_arrives; [by split_and!; vm_compute|by vm_compute..].
  - vm_compute. reflexivity.
  - reflexivity.
Defined.

(** ** Installing *)

Lemma write_partitions_plan_witness :
  exists b w' l, write_partitions [0%nat] (demo_world idle) = Ok b w' /\
    trace w' = ([] ++ l)%list /\ writes ([], demo_files) [demo_p1] b l.
Proof.
  apply (write_partitions_plan [0%nat] [demo_p1] (demo_world idle)).
  - repeat constructor; by intros ?%elem_of_nil.
  - repeat constructor.
Defined.

(** The installation of a system whose only partition cannot be formatted. *)
Definition demo_os : OSData := mkOS "" "" "Demo" "" "" "" ["http://pi/boot.tar.xz"]%string true true None [0%nat] "".
Definition value {S A} (d : A) (o : outcome S A) : A := match o with Ok a _ => a | _ => d end.
Definition state {S A} (d : S) (o : outcome S A) : S := match o with Ok _ s => s | _ => d end.
Definition w0 : World := demo_world idle.
Definition im0 : InstallManager (M:=gmap Z) := newInstallManager 122880 65534 15523840 (objects w0).
Definition planned_run : outcome World (bool * InstallManager (M:=gmap Z)) :=
  plan_step (prepareImage number contains_ci (planner_view demo_os)) im0 w0.
Definition im1 : InstallManager (M:=gmap Z) := (value (false, im0) planned_run).2.
Definition partitioned : outcome World bool := partitionSDCard demo_p1 im1 (state w0 planned_run).
Definition written : outcome World (bool * list QVariant) := writeImage demo_os [] (state w0 partitioned).

Lemma installOS_ignores_writing_witness :
  (value (true, []) written).1 = false /\
  exists w4, installOS demo_p1 demo_os im0 w0 = Ok true w4 /\ last (trace w4) = Some SyncDisks.
Proof.
  split; [vm_compute; reflexivity|].
  apply (installOS_ignores_writing demo_p1 demo_os im0 im1 w0 (state w0 planned_run) (state w0 partitioned)
           (state w0 written) false [] 0%nat [] (default demo_p1 (objects (state w0 written) !! 0%nat))).
  - vm_compute. reflexivity.
  - vm_compute. reflexivity.
  - vm_compute. reflexivity.
  - reflexivity.
  - vm_compute. reflexivity.
Defined.

Lemma parsePartitionInfo_partitions_witness :
  exists text w1 l qs,
    downloadRessource demo_net 3 "http://pi/p.json" w0 = Ok text w1 /\
    parseEntry as_list (parseJson text) "partitions" false = (true, Some l) /\
    (length (A:=string) [] <= length l)%nat /\
    [""%string] = ([] ++ repeat ""%string (length l - length (A:=string) []))%list /\
    [1%nat] = ([] ++ qs)%list /\
    made 0 w1 (state w0 (parsePartitionInfo demo_net 3 0 "http://pi/p.json" emptyOS w0)) qs l [""%string].
Proof.
  apply (parsePartitionInfo_partitions demo_net 3 0 "http://pi/p.json" emptyOS w0
           (set_tarballs [""%string] [1%nat] emptyOS)
           (state w0 (parsePartitionInfo demo_net 3 0 "http://pi/p.json" emptyOS w0))).
  vm_compute. reflexivity.
Defined.

Lemma setup_table_layout_witness :
  exists s, setup_table 8192 114686 =
      number 8192 +:+ "," +:+ number 114686 +:+ ",0E" +:+ NL +:+ number (8192 + 114686) +:+ ",,E" +:+ NL +:+
      "0,0" +:+ NL +:+ "0,0" +:+ NL +:+
      number s +:+ "," +:+ number SETTINGS_PARTITION_SIZE +:+ ",L" +:+ NL /\
    8192 + 114686 + PARTITION_GAP <= s < 8192 + 114686 + PARTITION_GAP + PARTITION_ALIGNMENT /\
    s mod PARTITION_ALIGNMENT = 0 /\ rescue_start 8192 mod 2048 = 0 /\ 2048 <= rescue_start 8192.
Proof. apply (setup_table_layout 8192 114686); vm_compute; done. Defined.

(** ** Booting an installed system *)

Definition installed_world : World :=
  set_files (<[INSTALLED_OS_FILE := "[1]"%string]>
    (<[DEFAULT_BOOT_PARTITION_FILE := "/dev/mmcblk0p6"%string]> demo_files)) (demo_world idle).
Definition mounted_run : outcome World bool := mountSettingsPartition installed_world.
Definition decided_run : outcome World (bool * bool) :=
  (pwhen (value true mounted_run) emit_finished;; bootCheck ["recovery"%string] true) (state installed_world mounted_run).
Definition boot_run : outcome World bool :=
  run (M:=gmap Z) demo_net 3 0 demo_p1 (fun _ => []) ["recovery"%string] [] [] installed_world.

Lemma boot_leaves_card_witness :
  boot_run = Ok false (state installed_world boot_run) /\
  exists l, trace (state installed_world boot_run) = ([] ++ l)%list /\ Forall boot_action l /\
    offline installed_world (state installed_world boot_run).
Proof.
  split; [vm_compute; reflexivity|].
  apply (boot_leaves_card (M:=gmap Z) demo_net 3 0 demo_p1 (fun _ => []) ["recovery"%string] [] [] installed_world
           true (state installed_world mounted_run) true (state installed_world decided_run) false
           (state installed_world boot_run)).
  - vm_compute. reflexivity.
  - vm_compute. reflexivity.
  - vm_compute. reflexivity.
Defined.
