(* ===== verification/KExpr.v ===== *)
(** The expression language of Buildroot's configuration tool: the data of
    src/buildroot/support/kconfig/expr.h and the operations of expr.c.

    An expression is a tree of [struct expr] nodes that no two slots share; the
    routines that rewrite a tree in place through [struct expr **] arguments are
    functions on trees with slots as paths.  [struct symbol *] values are the
    numbers of an abstract table.  [NULL] is [None]. *)
From S2P Require Import Prelude.

(** ** Data (expr.h) *)

Inductive tristate := Tno | Tmod | Tyes.
#[export] Instance tristate_eq_dec : EqDecision tristate.
Proof. solve_decision. Defined.

Definition tri_Z (t : tristate) : Z := match t with Tno => 0 | Tmod => 1 | Tyes => 2 end.

(** The macros [EXPR_OR], [EXPR_AND] and [EXPR_NOT]. *)
Definition EXPR_OR (d1 d2 : tristate) : tristate := if tri_Z d2 <? tri_Z d1 then d1 else d2.
Definition EXPR_AND (d1 d2 : tristate) : tristate := if tri_Z d1 <? tri_Z d2 then d1 else d2.
Definition EXPR_NOT (d : tristate) : tristate :=
  match d with Tno => Tyes | Tmod => Tmod | Tyes => Tno end.

Inductive expr_type :=
  E_NONE | E_OR | E_AND | E_NOT | E_EQUAL | E_UNEQUAL | E_LIST | E_SYMBOL | E_RANGE.
#[export] Instance expr_type_eq_dec : EqDecision expr_type.
Proof. solve_decision. Defined.

Inductive symbol_type := S_UNKNOWN | S_BOOLEAN | S_TRISTATE | S_INT | S_HEX | S_STRING | S_OTHER.
#[export] Instance symbol_type_eq_dec : EqDecision symbol_type.
Proof. solve_decision. Defined.

Definition symref := nat.
Definition symbol_yes : symref := 0%nat.
Definition symbol_mod : symref := 1%nat.
Definition symbol_no : symref := 2%nat.

(** The fields of [struct symbol] that expr.c reads. *)
Class SymTab := {
  sym_type : symref -> symbol_type;
  sym_const : symref -> bool;
  sym_name : symref -> option string;
}.

(** Nodes of dependency expressions.  [E_LIST] (the values of a choice) and
    [E_RANGE] only occur as the whole expression of a property, see
    [prop_expr]. *)
Inductive expr :=
| Sym (s : symref)
| Not (e : expr)
| Equal (a b : symref)
| Unequal (a b : symref)
| And (l r : expr)
| Or (l r : expr).
#[export] Instance expr_eq_dec : EqDecision expr.
Proof. solve_decision. Defined.

Inductive prop_expr :=
| PExpr (e : expr)
| PList (ss : list symref)
| PRange (a b : symref).

Definition expr_type_of (e : expr) : expr_type :=
  match e with
  | Sym _ => E_SYMBOL | Not _ => E_NOT | Equal _ _ => E_EQUAL | Unequal _ _ => E_UNEQUAL
  | And _ _ => E_AND | Or _ _ => E_OR
  end.

(** The two operator types that own two sub-expressions. *)
Inductive bop := OAnd | OOr.
#[export] Instance bop_eq_dec : EqDecision bop.
Proof. solve_decision. Defined.

Definition mk (ty : bop) : expr -> expr -> expr := match ty with OAnd => And | OOr => Or end.
Definition view (e : expr) : option (bop * expr * expr) :=
  match e with And l r => Some (OAnd, l, r) | Or l r => Some (OOr, l, r) | _ => None end.
(** [e->type == type] *)
Definition is_op (ty : bop) (e : expr) : bool :=
  match e, ty with And _ _, OAnd | Or _ _, OOr => true | _, _ => false end.

Fixpoint expr_size (e : expr) : nat :=
  match e with
  | Sym _ | Equal _ _ | Unequal _ _ => 1
  | Not e => S (expr_size e)
  | And l r | Or l r => S (expr_size l + expr_size r)
  end.

(** ** Allocation *)

Definition expr_alloc_symbol (s : symref) : expr := Sym s.
Definition expr_alloc_two (ty : bop) (e1 e2 : expr) : expr := mk ty e1 e2.
(** [type] is [E_EQUAL] or [E_UNEQUAL]. *)
Definition expr_alloc_comp (eq : bool) (s1 s2 : symref) : expr :=
  if eq then Equal s1 s2 else Unequal s1 s2.
Definition expr_alloc_and (e1 e2 : option expr) : option expr :=
  match e1, e2 with
  | None, _ => e2
  | Some _, None => e1
  | Some e1, Some e2 => Some (expr_alloc_two OAnd e1 e2)
  end.
Definition expr_alloc_or (e1 e2 : option expr) : option expr :=
  match e1, e2 with
  | None, _ => e2
  | Some _, None => e1
  | Some e1, Some e2 => Some (expr_alloc_two OOr e1 e2)
  end.

(** A fresh copy of a tree is the same tree. *)
Fixpoint expr_copy (org : expr) : expr :=
  match org with
  | Sym s => Sym s
  | Not e => Not (expr_copy e)
  | Equal a b => Equal a b
  | Unequal a b => Unequal a b
  | And l r => And (expr_copy l) (expr_copy r)
  | Or l r => Or (expr_copy l) (expr_copy r)
  end.

Definition expr_is_yes (e : option expr) : bool :=
  match e with None => true | Some (Sym s) => Nat.eqb s symbol_yes | _ => false end.
Definition expr_is_no (e : option expr) : bool :=
  match e with Some (Sym s) => Nat.eqb s symbol_no | _ => false end.

(** ** Elimination of constants *)

Definition is_sym (s : symref) (e : expr) : bool :=
  match e with Sym s' => Nat.eqb s' s | _ => false end.

Fixpoint expr_eliminate_yn (e : expr) : expr :=
  match e with
  | And l r =>
      let l := expr_eliminate_yn l in
      let r := expr_eliminate_yn r in
      if is_sym symbol_no l then Sym symbol_no
      else if is_sym symbol_yes l then r
      else if is_sym symbol_no r then Sym symbol_no
      else if is_sym symbol_yes r then l
      else And l r
  | Or l r =>
      let l := expr_eliminate_yn l in
      let r := expr_eliminate_yn r in
      if is_sym symbol_no l then r
      else if is_sym symbol_yes l then Sym symbol_yes
      else if is_sym symbol_no r then l
      else if is_sym symbol_yes r then Sym symbol_yes
      else Or l r
  | _ => e
  end.

(** ** Equality modulo common operands *)

(** The symbol both sides of an eliminated pair are replaced by. *)
Definition unit_sym (ty : bop) : symref := match ty with OAnd => symbol_yes | OOr => symbol_no end.

Section Eliminate.
(** [expr_eq], which [__expr_eliminate_eq] calls on smaller trees. *)
Variable eq : expr -> expr -> bool.

(** The end of [__expr_eliminate_eq], where neither side has type [type]. *)
Definition eliminate_leaf (ty : bop) (e1 e2 : expr) : expr * expr :=
  if (is_sym symbol_yes e1 && is_sym symbol_yes e2) || (is_sym symbol_no e1 && is_sym symbol_no e2)
  then (e1, e2)
  else if negb (eq e1 e2) then (e1, e2)
  else (Sym (unit_sym ty), Sym (unit_sym ty)).

(** The case [e1->type != type]: walk down [e2]. *)
Fixpoint eliminate_right (ty : bop) (e1 e2 : expr) : expr * expr :=
  match ty, e2 with
  | OAnd, And l r =>
      let '(e1, l) := eliminate_right ty e1 l in
      let '(e1, r) := eliminate_right ty e1 r in (e1, And l r)
  | OOr, Or l r =>
      let '(e1, l) := eliminate_right ty e1 l in
      let '(e1, r) := eliminate_right ty e1 r in (e1, Or l r)
  | _, _ => eliminate_leaf ty e1 e2
  end.

(** [__expr_eliminate_eq] (its first test walks down [e1]). *)
Fixpoint eliminate_eq_op (ty : bop) (e1 e2 : expr) : expr * expr :=
  match ty, e1 with
  | OAnd, And l r =>
      let '(l, e2) := eliminate_eq_op ty l e2 in
      let '(r, e2) := eliminate_eq_op ty r e2 in (And l r, e2)
  | OOr, Or l r =>
      let '(l, e2) := eliminate_eq_op ty l e2 in
      let '(r, e2) := eliminate_eq_op ty r e2 in (Or l r, e2)
  | _, _ => eliminate_right ty e1 e2
  end.

Definition eliminate_eq_type (ty : option bop) (p : expr * expr) : expr * expr :=
  match ty with None => p | Some ty => eliminate_eq_op ty p.1 p.2 end.

Definition op_of (e : expr) : option bop := fst ∘ fst <$> view e.

(** [expr_eliminate_eq] on two trees; the counter [trans_count] it advances is
    put back by [expr_eq] and read by nobody else. *)
Definition eliminate_eq_with (e1 e2 : expr) : expr * expr :=
  let p := eliminate_eq_type (op_of e1) (e1, e2) in
  let p := if decide (expr_type_of p.1 = expr_type_of p.2) then p
           else eliminate_eq_type (op_of p.2) p in
  (expr_eliminate_yn p.1, expr_eliminate_yn p.2).
End Eliminate.

(** [expr_eq] with the recursion through [expr_eliminate_eq] bounded. *)
Fixpoint expr_eq_fuel (n : nat) (e1 e2 : expr) : bool :=
  match n with
  | O => false
  | S n =>
      match e1, e2 with
      | Equal a b, Equal a' b' | Unequal a b, Unequal a' b' => Nat.eqb a a' && Nat.eqb b b'
      | Sym a, Sym a' => Nat.eqb a a'
      | Not e1, Not e2 => expr_eq_fuel n e1 e2
      | And _ _, And _ _ | Or _ _, Or _ _ =>
          match eliminate_eq_with (expr_eq_fuel n) (expr_copy e1) (expr_copy e2) with
          | (Sym a, Sym a') => Nat.eqb a a'
          | _ => false
          end
      | _, _ => false
      end
  end.

Definition expr_eq (e1 e2 : expr) : bool := expr_eq_fuel (S (expr_size e1 + expr_size e2)) e1 e2.

Definition expr_eliminate_eq (e1 e2 : option expr) : option expr * option expr :=
  match e1, e2 with
  | Some e1, Some e2 => let '(e1, e2) := eliminate_eq_with expr_eq e1 e2 in (Some e1, Some e2)
  | _, _ => (e1, e2)
  end.

(** ** Rewriting of comparisons *)

(** [expr_trans_bool]; the right child of [E_NOT] is [NULL] and stays it. *)
Fixpoint expr_trans_bool `{SymTab} (e : expr) : expr :=
  match e with
  | And l r => And (expr_trans_bool l) (expr_trans_bool r)
  | Or l r => Or (expr_trans_bool l) (expr_trans_bool r)
  | Not e => Not (expr_trans_bool e)
  | Unequal a b =>
      if bool_decide (sym_type a = S_TRISTATE) then
        if Nat.eqb b symbol_no then Sym a else e
      else e
  | _ => e
  end.

(** The switch of [expr_transform] after the children were transformed. *)
Definition transform_equal `{SymTab} (a b : symref) : expr :=
  if negb (bool_decide (sym_type a = S_BOOLEAN)) then Equal a b
  else if Nat.eqb b symbol_no then Not (Sym a)
  else if Nat.eqb b symbol_mod then Sym symbol_no
  else if Nat.eqb b symbol_yes then Sym a
  else Equal a b.
Definition transform_unequal `{SymTab} (a b : symref) : expr :=
  if negb (bool_decide (sym_type a = S_BOOLEAN)) then Unequal a b
  else if Nat.eqb b symbol_no then Sym a
  else if Nat.eqb b symbol_mod then Sym symbol_yes
  else if Nat.eqb b symbol_yes then Not (Sym a)
  else Unequal a b.

Fixpoint transform_fuel `{SymTab} (n : nat) (e : expr) : option expr :=
  match n with
  | O => None
  | S n =>
      match e with
      | Sym _ => Some e
      | Equal a b => Some (transform_equal a b)
      | Unequal a b => Some (transform_unequal a b)
      | And l r =>
          l ← transform_fuel n l; r ← transform_fuel n r; Some (And l r)
      | Or l r =>
          l ← transform_fuel n l; r ← transform_fuel n r; Some (Or l r)
      | Not e =>
          e ← transform_fuel n e;
          match e with
          | Not a => transform_fuel n a                              (* !!a -> a *)
          | Equal a b => Some (Unequal a b)                          (* !a='x' -> a!='x' *)
          | Unequal a b => Some (Equal a b)
          | Or a b => transform_fuel n (And (Not a) (Not b))         (* !(a || b) -> !a && !b *)
          | And a b => transform_fuel n (Or (Not a) (Not b))         (* !(a && b) -> !a || !b *)
          | Sym s =>
              if Nat.eqb s symbol_yes then Some (Sym symbol_no)      (* !'y' -> 'n' *)
              else if Nat.eqb s symbol_mod then Some (Sym symbol_mod) (* !'m' -> 'm' *)
              else if Nat.eqb s symbol_no then Some (Sym symbol_yes) (* !'n' -> 'y' *)
              else Some (Not (Sym s))
          end
      end
  end.

(** Enough for every tree of that size (proved in KExprFacts). *)
Definition transform_bound (e : expr) : nat := 4 * expr_size e.
Definition expr_transform `{SymTab} (e : expr) : expr :=
  default e (transform_fuel (transform_bound e) e).

(** ** Joining two operands *)

(** [sym1] and [sym2] of [expr_join_or] and [expr_join_and]; [None] is one of
    their early [return NULL]. *)
Definition join_sym1 (e : expr) : option symref :=
  match e with
  | Not (Equal a _) | Not (Unequal a _) | Not (Sym a) => Some a
  | Equal a _ | Unequal a _ | Sym a => Some a
  | _ => None
  end.
Definition join_sym2 (e : expr) : option symref :=
  match e with
  | Not (Sym a) => Some a
  | Equal a _ | Unequal a _ | Sym a => Some a
  | _ => None
  end.

(** [(x == a && y == b) || (x == b && y == a)] *)
Definition both (x y a b : symref) : bool :=
  (Nat.eqb x a && Nat.eqb y b) || (Nat.eqb x b && Nat.eqb y a).

Definition expr_join_or `{SymTab} (e1 e2 : expr) : option expr :=
  if expr_eq e1 e2 then Some (expr_copy e1)
  else
    match join_sym1 e1, join_sym2 e2 with
    | Some sym1, Some sym2 =>
        if negb (Nat.eqb sym1 sym2) then None
        else
          match sym_type sym1 with
          | S_TRISTATE =>
              match e1, e2 with
              | Equal _ x, Equal _ y =>
                  if both x y symbol_yes symbol_mod then Some (Unequal sym1 symbol_no)
                  else if both x y symbol_yes symbol_no then Some (Unequal sym1 symbol_mod)
                  else if both x y symbol_mod symbol_no then Some (Unequal sym1 symbol_yes)
                  else None
              | _, _ => None
              end
          | S_BOOLEAN =>
              match e1, e2 with
              | Not (Sym _), Sym _ | Sym _, Not (Sym _) => Some (Sym symbol_yes)
              | _, _ => None
              end
          | _ => None
          end
    | _, _ => None
    end.

(** The rules of [expr_join_and] for boolean and tristate symbols. *)
Definition join_and_common (sym1 : symref) (e1 e2 : expr) : option expr :=
  match e1, e2 with
  | Sym _, Equal _ x | Equal _ x, Sym _ =>
      if Nat.eqb x symbol_yes then Some (Equal sym1 symbol_yes) else None
  | Sym _, Unequal _ x | Unequal _ x, Sym _ =>
      if Nat.eqb x symbol_no then Some (Sym sym1)
      else if Nat.eqb x symbol_mod then Some (Equal sym1 symbol_yes)
      else None
  | _, _ => None
  end.

(** The rules of [expr_join_and] for tristate symbols only. *)
Definition join_and_tristate `{SymTab} (sym1 : symref) (e1 e2 : expr) : option expr :=
  match e1, e2 with
  | Equal _ b, Unequal _ c | Unequal _ c, Equal _ b =>
      if sym_const c && sym_const b then
        if negb (Nat.eqb b c) then Some (Equal sym1 b) else Some (Sym symbol_no)
      else None
  | Unequal _ x, Unequal _ y =>
      if both x y symbol_yes symbol_no then Some (Equal sym1 symbol_mod)
      else if both x y symbol_yes symbol_mod then Some (Equal sym1 symbol_no)
      else if both x y symbol_mod symbol_no then Some (Equal sym1 symbol_yes)
      else None
  | _, _ => None
  end.

Definition expr_join_and `{SymTab} (e1 e2 : expr) : option expr :=
  if expr_eq e1 e2 then Some (expr_copy e1)
  else
    match join_sym1 e1, join_sym2 e2 with
    | Some sym1, Some sym2 =>
        if negb (Nat.eqb sym1 sym2) then None
        else
          match sym_type sym1 with
          | S_BOOLEAN => join_and_common sym1 e1 e2
          | S_TRISTATE =>
              match join_and_common sym1 e1 e2 with
              | Some e => Some e
              | None => join_and_tristate sym1 e1 e2
              end
          | _ => None
          end
    | _, _ => None
    end.

Definition expr_join `{SymTab} (ty : bop) : expr -> expr -> option expr :=
  match ty with OAnd => expr_join_and | OOr => expr_join_or end.

(** ** Common operands *)

Section Extract.
Variable ty : bop.

(** The last part of [expr_extract_eq]: neither side has type [type].  The
    triple is [*ep], [*ep1], [*ep2]. *)
Definition extract_leaf (ep : option expr) (e1 e2 : expr) : option expr * expr * expr :=
  if expr_eq e1 e2 then
    (Some (match ep with Some e => expr_alloc_two ty e e1 | None => e1 end),
     Sym (unit_sym ty), Sym (unit_sym ty))
  else (ep, e1, e2).

Fixpoint extract_right (ep : option expr) (e1 e2 : expr) : option expr * expr * expr :=
  match ty, e2 with
  | OAnd, And l r =>
      let '(ep, e1, l) := extract_right ep e1 l in
      let '(ep, e1, r) := extract_right ep e1 r in (ep, e1, And l r)
  | OOr, Or l r =>
      let '(ep, e1, l) := extract_right ep e1 l in
      let '(ep, e1, r) := extract_right ep e1 r in (ep, e1, Or l r)
  | _, _ => extract_leaf ep e1 e2
  end.

Fixpoint expr_extract_eq (ep : option expr) (e1 e2 : expr) : option expr * expr * expr :=
  match ty, e1 with
  | OAnd, And l r =>
      let '(ep, l, e2) := expr_extract_eq ep l e2 in
      let '(ep, r, e2) := expr_extract_eq ep r e2 in (ep, And l r, e2)
  | OOr, Or l r =>
      let '(ep, l, e2) := expr_extract_eq ep l e2 in
      let '(ep, r, e2) := expr_extract_eq ep r e2 in (ep, Or l r, e2)
  | _, _ => extract_right ep e1 e2
  end.

(** [expr_extract_eq_and] and [expr_extract_eq_or]. *)
Definition expr_extract_eq_ty (e1 e2 : expr) : option expr * expr * expr :=
  match expr_extract_eq None e1 e2 with
  | (Some tmp, e1, e2) => (Some tmp, expr_eliminate_yn e1, expr_eliminate_yn e2)
  | (None, e1, e2) => (None, e1, e2)
  end.
End Extract.

Definition expr_extract_eq_and : expr -> expr -> option expr * expr * expr := expr_extract_eq_ty OAnd.
Definition expr_extract_eq_or : expr -> expr -> option expr * expr * expr := expr_extract_eq_ty OOr.

(** ** Elimination of duplicates *)

(** A [struct expr **] argument points to the root of a tree or to a child slot
    of one of its [E_AND]/[E_OR] nodes. *)
Inductive dir := GoL | GoR.
#[export] Instance dir_eq_dec : EqDecision dir.
Proof. solve_decision. Defined.
Definition slot := list dir.

Fixpoint slot_get (q : slot) (t : expr) : option expr :=
  match q, t with
  | [], _ => Some t
  | GoL :: q, (And l _ | Or l _) => slot_get q l
  | GoR :: q, (And _ r | Or _ r) => slot_get q r
  | _, _ => None
  end.
Fixpoint slot_set (q : slot) (x : expr) (t : expr) : expr :=
  match q, t with
  | [], _ => x
  | GoL :: q, And l r => And (slot_set q x l) r
  | GoR :: q, And l r => And l (slot_set q x r)
  | GoL :: q, Or l r => Or (slot_set q x l) r
  | GoR :: q, Or l r => Or l (slot_set q x r)
  | _, _ => t
  end.

(** The tree and [trans_count]. *)
Definition dstate : Type := expr * nat.

(** [expr_eliminate_dups1(type, ep1, ep2)] with both arguments slots of the tree
    in the state.  The recursive call on [(e1->type, &e1, &e1)] only touches the
    tree below [ep1]. *)
Fixpoint dups1_fuel `{SymTab} (n : nat) (ty : bop) (q1 q2 : slot) (st : dstate) : option dstate :=
  match n with
  | O => None
  | S n =>
      e1 ← slot_get q1 st.1;
      e2 ← slot_get q2 st.1;
      if is_op ty e1 then
        st ← dups1_fuel n ty (q1 ++ [GoL]) q2 st;
        dups1_fuel n ty (q1 ++ [GoR]) q2 st
      else if is_op ty e2 then
        st ← dups1_fuel n ty q1 (q2 ++ [GoL]) st;
        dups1_fuel n ty q1 (q2 ++ [GoR]) st
      else if bool_decide (q1 = q2) then Some st
      else
        st ← match op_of e1 with
             | Some ty1 =>
                 '(e1, c) ← dups1_fuel n ty1 [] [] (e1, st.2);
                 Some (slot_set q1 e1 st.1, c)
             | None => Some st
             end;
        e1 ← slot_get q1 st.1;
        e2 ← slot_get q2 st.1;
        Some (match expr_join ty e1 e2 with
              | Some tmp => (slot_set q2 tmp (slot_set q1 (Sym (unit_sym ty)) st.1), S st.2)
              | None => st
              end)
  end.

(** The end of [expr_eliminate_dups2] for an [e1] of type [ty1]: with
    [tmp1 = !e1], drop the operands [tmp1] shares with [e2]; nothing left means
    [e1] contradicts (completes) [e2]. *)
Definition dups2_absorbs `{SymTab} (ty1 : bop) (e1 e2 : expr) : bool :=
  let tmp1 := expr_transform (Not (expr_copy e1)) in
  let tmp2 := expr_copy e2 in
  match ty1 with
  | OOr => let '(_, tmp1, _) := expr_extract_eq_and tmp1 tmp2 in expr_is_yes (Some tmp1)
  | OAnd => let '(_, tmp1, _) := expr_extract_eq_or tmp1 tmp2 in expr_is_no (Some tmp1)
  end.

(** [expr_eliminate_dups2]: after the walk down [e2] there is no [return]. *)
Fixpoint dups2_fuel `{SymTab} (n : nat) (ty : bop) (q1 q2 : slot) (st : dstate) : option dstate :=
  match n with
  | O => None
  | S n =>
      e1 ← slot_get q1 st.1;
      e2 ← slot_get q2 st.1;
      if is_op ty e1 then
        st ← dups2_fuel n ty (q1 ++ [GoL]) q2 st;
        dups2_fuel n ty (q1 ++ [GoR]) q2 st
      else
        st ← (if is_op ty e2 then
                st ← dups2_fuel n ty q1 (q2 ++ [GoL]) st;
                dups2_fuel n ty q1 (q2 ++ [GoR]) st
              else Some st);
        if bool_decide (q1 = q2) then Some st
        else
          e1 ← slot_get q1 st.1;
          match op_of e1 with
          | None => Some st
          | Some ty1 =>
              '(e1, c) ← dups2_fuel n ty1 [] [] (e1, st.2);
              let t := slot_set q1 e1 st.1 in
              e2 ← slot_get q2 t;
              Some (if dups2_absorbs ty1 e1 e2 then
                      (slot_set q1 (Sym (match ty1 with OOr => symbol_no | OAnd => symbol_yes end)) t,
                       S c)
                    else (t, c))
          end
  end.

(** Recursion depth that suffices for a tree (proved in KExprDups). *)
Definition dups_bound (e : expr) : nat := S (expr_size e) * S (S (expr_size e)).

(** One round of the loop of [expr_eliminate_dups], from [trans_count = 0]. *)
Definition dups_round `{SymTab} (e : expr) : option dstate :=
  match op_of e with
  | None => Some (e, 0%nat)
  | Some ty =>
      st ← dups1_fuel (dups_bound e) ty [] [] (e, 0%nat);
      match op_of st.1 with
      | None => Some st
      | Some ty => dups2_fuel (dups_bound e) ty [] [] st
      end
  end.

(** [while (1)] with the rounds bounded. *)
Fixpoint dups_loop `{SymTab} (n : nat) (e : expr) : option expr :=
  match n with
  | O => None
  | S n =>
      '(e, c) ← dups_round e;
      if Nat.eqb c 0 then Some e else dups_loop n (expr_eliminate_yn e)
  end.

Definition expr_eliminate_dups `{SymTab} (e : expr) : expr :=
  default e (dups_loop (S (expr_size e)) e).

(** ** Questions about expressions *)

Fixpoint expr_contains_symbol (dep : expr) (s : symref) : bool :=
  match dep with
  | And l r | Or l r => expr_contains_symbol l s || expr_contains_symbol r s
  | Sym a => Nat.eqb a s
  | Equal a b | Unequal a b => Nat.eqb a s || Nat.eqb b s
  | Not e => expr_contains_symbol e s
  end.

Fixpoint expr_depends_symbol (dep : expr) (s : symref) : bool :=
  match dep with
  | And l r => expr_depends_symbol l s || expr_depends_symbol r s
  | Sym a => Nat.eqb a s
  | Equal a b => Nat.eqb a s && (Nat.eqb b symbol_yes || Nat.eqb b symbol_mod)
  | Unequal a b => Nat.eqb a s && Nat.eqb b symbol_no
  | _ => false
  end.

(** [expr_trans_compare(e, type, sym)]; [eq] is [type == E_EQUAL].  For [E_AND]
    and [E_OR] and a symbol other than [y] and [n] the old node is returned. *)
Definition wrap_unequal (eq : bool) (e : expr) : expr := if eq then e else Not e.
Fixpoint trans_compare (e : expr) (eq : bool) (s : symref) : option expr :=
  match e with
  | And l r =>
      let e1 := trans_compare l true s in let e2 := trans_compare r true s in
      wrap_unequal eq <$>
        (if Nat.eqb s symbol_yes then e1 ← e1; e2 ← e2; Some (And e1 e2)
         else if Nat.eqb s symbol_no then e1 ← e1; e2 ← e2; Some (Or e1 e2) else Some e)
  | Or l r =>
      let e1 := trans_compare l true s in let e2 := trans_compare r true s in
      wrap_unequal eq <$>
        (if Nat.eqb s symbol_yes then e1 ← e1; e2 ← e2; Some (Or e1 e2)
         else if Nat.eqb s symbol_no then e1 ← e1; e2 ← e2; Some (And e1 e2) else Some e)
  | Not e => trans_compare e (negb eq) s
  | Equal _ _ | Unequal _ _ =>
      if eq then
        if Nat.eqb s symbol_yes then Some (expr_copy e)
        else if Nat.eqb s symbol_mod then Some (Sym symbol_no)
        else if Nat.eqb s symbol_no then Some (Not (expr_copy e))
        else None
      else
        if Nat.eqb s symbol_yes then Some (Not (expr_copy e))
        else if Nat.eqb s symbol_mod then Some (Sym symbol_yes)
        else if Nat.eqb s symbol_no then Some (expr_copy e)
        else None
  | Sym a => Some (expr_alloc_comp eq a s)
  end.
Definition expr_trans_compare (e : option expr) (eq : bool) (s : symref) : option expr :=
  match e with
  | None => Some (wrap_unequal eq (Sym s))
  | Some e => trans_compare e eq s
  end.

(** The [while] of [expr_get_leftmost_symbol]; [None] when it would follow the
    symbol of a comparison as if it were an expression. *)
Fixpoint expr_get_leftmost_symbol (e : expr) : option expr :=
  match e with
  | Sym s => Some (Sym s)
  | Not e => expr_get_leftmost_symbol e
  | And l _ | Or l _ => expr_get_leftmost_symbol l
  | Equal _ _ | Unequal _ _ => None
  end.

(** [expr_simplify_unmet_dep]; the outer [option] is undefined behaviour, the
    inner one [NULL]. *)
Fixpoint expr_simplify_unmet_dep `{SymTab} (e1 e2 : expr) : option (option expr) :=
  match e1 with
  | Or l r =>
      x ← expr_simplify_unmet_dep l e2; y ← expr_simplify_unmet_dep r e2;
      Some (expr_alloc_and x y)
  | And _ _ =>
      let e := expr_eliminate_dups (And (expr_copy e1) (expr_copy e2)) in
      if negb (expr_eq e e1) then Some <$> expr_get_leftmost_symbol e1 else Some None
  | _ => Some <$> expr_get_leftmost_symbol e1
  end.

(** ** Printing *)

(** The fall-through switch of [expr_compare_type], row by row. *)
Definition expr_compare_type (t1 t2 : expr_type) : Z :=
  let at2 := fun t => bool_decide (t2 = t) in
  if bool_decide (t1 = t2) then 0
  else
    match t1 with
    | E_EQUAL | E_UNEQUAL =>
        if at2 E_NOT || at2 E_AND || at2 E_OR || at2 E_LIST || at2 E_NONE then 1 else -1
    | E_NOT => if at2 E_AND || at2 E_OR || at2 E_LIST || at2 E_NONE then 1 else -1
    | E_AND => if at2 E_OR || at2 E_LIST || at2 E_NONE then 1 else -1
    | E_OR => if at2 E_LIST || at2 E_NONE then 1 else -1
    | E_LIST => if at2 E_NONE then 1 else -1
    | _ => -1
    end.

(** One call of the output function [fn(data, sym, str)]. *)
Definition token : Type := option symref * string.

Section Print.
Context `{SymTab}.

Definition tok (s : string) : token := (None, s).
Definition tok_left (s : symref) : token :=
  match sym_name s with Some n => (Some s, n) | None => tok "<choice>" end.
(** Right operands are printed without a test for a missing name. *)
Definition tok_right (s : symref) : option token :=
  match sym_name s with Some n => Some (Some s, n) | None => None end.

Definition parens (prev t : expr_type) (l : list token) : list token :=
  if 0 <? expr_compare_type prev t then [tok "("] ++ l ++ [tok ")"] else l.

Fixpoint print_expr (e : expr) (prev : expr_type) : option (list token) :=
  parens prev (expr_type_of e) <$>
  match e with
  | Sym s => Some [tok_left s]
  | Not e => l ← print_expr e E_NOT; Some (tok "!" :: l)
  | Equal a b => t ← tok_right b; Some [tok_left a; tok "="; t]
  | Unequal a b => t ← tok_right b; Some [tok_left a; tok "!="; t]
  | Or l r =>
      x ← print_expr l E_OR; y ← print_expr r E_OR; Some (x ++ [tok " || "] ++ y)
  | And l r =>
      x ← print_expr l E_AND; y ← print_expr r E_AND; Some (x ++ [tok " && "] ++ y)
  end.

Fixpoint print_list (ss : list symref) (prev : expr_type) : option (list token) :=
  parens prev E_LIST <$>
  match ss with
  | [] => None
  | [s] => t ← tok_right s; Some [t]
  | s :: ss => t ← tok_right s; l ← print_list ss E_LIST; Some ([t; tok " ^ "] ++ l)
  end.

Definition expr_print (e : option prop_expr) (prev : expr_type) : option (list token) :=
  match e with
  | None => Some [tok "y"]
  | Some (PExpr e) => print_expr e prev
  | Some (PList ss) => print_list ss prev
  | Some (PRange a b) =>
      parens prev E_RANGE <$>
      (x ← tok_right a; y ← tok_right b; Some [tok "["; x; tok " "; y; tok "]"])
  end.

(** [expr_fprint]: the helper writes the strings one after the other. *)
Definition expr_fprint (e : option prop_expr) : option string :=
  foldr (fun t acc => t.2 +:+ acc) EmptyString <$> expr_print e E_NONE.
End Print.

(** ** Values *)

(** What [sym_calc_value] has computed: [curr.tri] and the string of
    [sym_get_string_value]. *)
Class Valuation := { vtri : symref -> tristate; vstr : symref -> string }.

(** [expr_calc_value] once the symbols of the expression are calculated. *)
Fixpoint expr_value `{Valuation} (e : expr) : tristate :=
  match e with
  | Sym s => vtri s
  | And l r => EXPR_AND (expr_value l) (expr_value r)
  | Or l r => EXPR_OR (expr_value l) (expr_value r)
  | Not e => EXPR_NOT (expr_value e)
  | Equal a b => if bool_decide (vstr a = vstr b) then Tyes else Tno
  | Unequal a b => if bool_decide (vstr a = vstr b) then Tno else Tyes
  end.
