(* ===== verification/KExprFacts.v ===== *)
(** Semantics of the expression rewriting of [KExpr]: constant elimination,
    equality, normal form, joins and the questions about symbols. *)
From S2P Require Import Prelude KExpr.

(** ** Consistent valuations *)

Definition tri_str (t : tristate) : string :=
  match t with Tno => "n" | Tmod => "m" | Tyes => "y" end.

(** The values a calculated symbol table shows: the constants have their own
    value, boolean and tristate symbols print their value, booleans are never
    [m], and different constant symbols are different strings. *)
Class Consistent {T : SymTab} (V : Valuation) : Prop := {
  c_yes : vtri symbol_yes = Tyes /\ vstr symbol_yes = "y";
  c_mod : vtri symbol_mod = Tmod /\ vstr symbol_mod = "m";
  c_no : vtri symbol_no = Tno /\ vstr symbol_no = "n";
  c_bool : forall s, sym_type s = S_BOOLEAN -> vstr s = tri_str (vtri s) /\ vtri s <> Tmod;
  c_tri : forall s, sym_type s = S_TRISTATE -> vstr s = tri_str (vtri s);
  c_const : forall a b, sym_const a = true -> sym_const b = true -> a <> b -> vstr a <> vstr b;
}.

(** The part of it that constant elimination needs. *)
Class Constants (V : Valuation) : Prop := {
  k_yes : vtri symbol_yes = Tyes;
  k_no : vtri symbol_no = Tno;
  k_mod : vtri symbol_mod = Tmod;
}.
#[export] Instance consistent_constants {T : SymTab} (V : Valuation) : Consistent V -> Constants V.
Proof. intros []. split; tauto. Qed.

(** ** The lattice of values *)

Definition opv (ty : bop) : tristate -> tristate -> tristate :=
  match ty with OAnd => EXPR_AND | OOr => EXPR_OR end.
Definition unitv (ty : bop) : tristate := match ty with OAnd => Tyes | OOr => Tno end.

Ltac tri_cases := repeat match goal with x : tristate |- _ => destruct x end.

Lemma opv_comm ty a b : opv ty a b = opv ty b a.
Proof. destruct ty; tri_cases; reflexivity. Qed.
Lemma opv_assoc ty a b c : opv ty a (opv ty b c) = opv ty (opv ty a b) c.
Proof. destruct ty; tri_cases; reflexivity. Qed.
Lemma opv_idem ty a : opv ty a a = a.
Proof. destruct ty; tri_cases; reflexivity. Qed.
Lemma opv_unit_l ty a : opv ty (unitv ty) a = a.
Proof. destruct ty; tri_cases; reflexivity. Qed.
Lemma opv_unit_r ty a : opv ty a (unitv ty) = a.
Proof. destruct ty; tri_cases; reflexivity. Qed.
Lemma opv_swap ty a b c d : opv ty (opv ty a b) (opv ty c d) = opv ty (opv ty a c) (opv ty b d).
Proof. destruct ty; tri_cases; reflexivity. Qed.
Lemma not_involutive a : EXPR_NOT (EXPR_NOT a) = a.
Proof. by destruct a. Qed.
Lemma not_and a b : EXPR_NOT (EXPR_AND a b) = EXPR_OR (EXPR_NOT a) (EXPR_NOT b).
Proof. by destruct a, b. Qed.
Lemma not_or a b : EXPR_NOT (EXPR_OR a b) = EXPR_AND (EXPR_NOT a) (EXPR_NOT b).
Proof. by destruct a, b. Qed.

Create Rewrite HintDb tri.
#[export] Hint Rewrite opv_idem opv_unit_l opv_unit_r not_involutive not_and not_or : tri.

Lemma value_mk `{Valuation} ty l r : expr_value (mk ty l r) = opv ty (expr_value l) (expr_value r).
Proof. by destruct ty. Qed.
Lemma value_unit `{V : Valuation, !Constants V} ty : expr_value (Sym (unit_sym ty)) = unitv ty.
Proof. destruct ty; cbn; [apply k_yes|apply k_no]. Qed.

Lemma expr_copy_id e : expr_copy e = e.
Proof. induction e; cbn; congruence. Qed.

(** The shape of a node with respect to an operator. *)
Lemma is_op_true ty e : is_op ty e = true -> exists l r, e = mk ty l r.
Proof. destruct e, ty; try discriminate; eauto. Qed.
Lemma is_op_mk ty l r : is_op ty (mk ty l r) = true.
Proof. by destruct ty. Qed.
Lemma view_Some e ty l r : view e = Some (ty, l, r) -> e = mk ty l r.
Proof. destruct e; cbn; intros [= <- <- <-]; done. Qed.

(** Induction on the operands of one operator: other nodes are leaves. *)
Lemma chain_ind ty (P : expr -> Prop) :
  (forall e, is_op ty e = false -> P e) ->
  (forall l r, P l -> P r -> P (mk ty l r)) -> forall e, P e.
Proof.
  intros Hleaf Hop. induction e; try (apply Hleaf; done).
  - destruct ty; [by apply (Hop e1 e2)|by apply Hleaf].
  - destruct ty; [by apply Hleaf|by apply (Hop e1 e2)].
Qed.

(** ** Constant elimination *)

Lemma is_sym_true s e : is_sym s e = true -> e = Sym s.
Proof. destruct e; cbn; try done. intros ->%Nat.eqb_eq. done. Qed.

Ltac yn_cases :=
  repeat match goal with
  | |- context [if is_sym ?s ?e then _ else _] =>
      let E := fresh "E" in destruct (is_sym s e) eqn:E; [apply is_sym_true in E|]
  end.

Lemma eliminate_yn_value `{V : Valuation, !Constants V} e : expr_value (expr_eliminate_yn e) = expr_value e.
Proof.
  pose proof k_yes as Hy. pose proof k_no as Hn.
  induction e as [| | | |l IHl r IHr|l IHl r IHr]; try done; cbn [expr_eliminate_yn];
    yn_cases; cbn [expr_value]; rewrite <- ?IHl, <- ?IHr;
    try rewrite E; try rewrite E0; try rewrite E1; try rewrite E2; cbn [expr_value];
    rewrite ?Hy, ?Hn;
    try (destruct (expr_value (expr_eliminate_yn l)); done);
    try (destruct (expr_value (expr_eliminate_yn r)); done); done.
Qed.

(** No operand of a conjunction or disjunction is [y] or [n]. *)
Fixpoint yn_normal (e : expr) : bool :=
  match e with
  | And l r | Or l r =>
      negb (is_sym symbol_yes l) && negb (is_sym symbol_no l)
      && negb (is_sym symbol_yes r) && negb (is_sym symbol_no r)
      && yn_normal l && yn_normal r
  | _ => true
  end.

Lemma eliminate_yn_normal e : yn_normal (expr_eliminate_yn e) = true.
Proof.
  induction e as [| | | |l IHl r IHr|l IHl r IHr]; try done; cbn [expr_eliminate_yn];
    yn_cases; try done; cbn [yn_normal]; by rewrite E, E0, E1, E2, IHl, IHr.
Qed.

Lemma eliminate_yn_size e : (expr_size (expr_eliminate_yn e) <= expr_size e)%nat.
Proof.
  induction e as [| | | |l IHl r IHr|l IHl r IHr]; try done; cbn [expr_eliminate_yn];
    yn_cases; cbn [expr_size]; lia.
Qed.

(** Removing constants keeps the value of an expression under every
    valuation, leaves no [y] or [n] operand, and never makes it larger. *)
Theorem expr_eliminate_yn_correct e :
  (forall V, Constants V -> expr_value (expr_eliminate_yn e) = expr_value e) /\
  yn_normal (expr_eliminate_yn e) = true /\
  (expr_size (expr_eliminate_yn e) <= expr_size e)%nat.
Proof.
  split; [intros V HV; apply eliminate_yn_value|].
  split; [apply eliminate_yn_normal|apply eliminate_yn_size].
Qed.

(** ** Equality *)

Section EqSound.
Context `{V : Valuation, HV : !Constants V}.

(** Two pairs that differ by a common operand. *)
Definition share (ty : bop) (p p' : expr * expr) : Prop :=
  exists c, expr_value p.1 = opv ty c (expr_value p'.1) /\
            expr_value p.2 = opv ty c (expr_value p'.2).

Lemma share_refl ty p : share ty p p.
Proof. exists (unitv ty). by rewrite !opv_unit_l. Qed.

Lemma share_equal ty p p' :
  share ty p p' -> expr_value p'.1 = expr_value p'.2 -> expr_value p.1 = expr_value p.2.
Proof. intros (c & -> & ->) E. by rewrite E. Qed.

Variable eq : expr -> expr -> bool.
Hypothesis eq_sound : forall x y, eq x y = true -> expr_value x = expr_value y.

Lemma eliminate_leaf_share ty e1 e2 : share ty (e1, e2) (eliminate_leaf eq ty e1 e2).
Proof.
  unfold eliminate_leaf. destruct (_ || _); [apply share_refl|].
  destruct (eq e1 e2) eqn:E; cbn [negb]; [|apply share_refl].
  exists (expr_value e1). cbn [fst snd]. rewrite value_unit, opv_unit_r.
  split; [done|]. symmetry. by apply eq_sound.
Qed.

Lemma eliminate_right_unfold ty e1 l r :
  eliminate_right eq ty e1 (mk ty l r) =
  let '(e1, l) := eliminate_right eq ty e1 l in
  let '(e1, r) := eliminate_right eq ty e1 r in (e1, mk ty l r).
Proof. by destruct ty. Qed.
Lemma eliminate_right_leaf ty e1 e2 :
  is_op ty e2 = false -> eliminate_right eq ty e1 e2 = eliminate_leaf eq ty e1 e2.
Proof. by destruct e2, ty. Qed.
Lemma eliminate_eq_op_unfold ty l r e2 :
  eliminate_eq_op eq ty (mk ty l r) e2 =
  let '(l, e2) := eliminate_eq_op eq ty l e2 in
  let '(r, e2) := eliminate_eq_op eq ty r e2 in (mk ty l r, e2).
Proof. by destruct ty. Qed.
Lemma eliminate_eq_op_leaf ty e1 e2 :
  is_op ty e1 = false -> eliminate_eq_op eq ty e1 e2 = eliminate_right eq ty e1 e2.
Proof. by destruct e1, ty. Qed.

Lemma eliminate_right_share ty e2 : forall e1, share ty (e1, e2) (eliminate_right eq ty e1 e2).
Proof.
  induction e2 as [e2 He2|l r IHl IHr] using (chain_ind ty); intros e1.
  - rewrite eliminate_right_leaf by done. apply eliminate_leaf_share.
  - rewrite eliminate_right_unfold. specialize (IHl e1).
    destruct (eliminate_right eq ty e1 l) as [e1' l']. specialize (IHr e1').
    destruct (eliminate_right eq ty e1' r) as [e1'' r'].
    destruct IHl as (c & Hc1 & Hc2), IHr as (d & Hd1 & Hd2). cbn [fst snd] in *.
    exists (opv ty c d). cbn [fst snd]. rewrite !value_mk, Hc1, Hc2, Hd1, Hd2.
    split; [by rewrite opv_assoc|by apply opv_swap].
Qed.

Lemma eliminate_eq_op_share ty e1 : forall e2, share ty (e1, e2) (eliminate_eq_op eq ty e1 e2).
Proof.
  induction e1 as [e1 He1|l r IHl IHr] using (chain_ind ty); intros e2.
  - rewrite eliminate_eq_op_leaf by done. apply eliminate_right_share.
  - rewrite eliminate_eq_op_unfold. specialize (IHl e2).
    destruct (eliminate_eq_op eq ty l e2) as [l' e2']. specialize (IHr e2').
    destruct (eliminate_eq_op eq ty r e2') as [r' e2''].
    destruct IHl as (c & Hc1 & Hc2), IHr as (d & Hd1 & Hd2). cbn [fst snd] in *.
    exists (opv ty c d). cbn [fst snd]. rewrite !value_mk, Hc1, Hc2, Hd1, Hd2.
    split; [by apply opv_swap|by rewrite opv_assoc].
Qed.

Lemma eliminate_eq_with_sound e1 e2 e1' e2' :
  eliminate_eq_with eq e1 e2 = (e1', e2') ->
  expr_value e1' = expr_value e2' -> expr_value e1 = expr_value e2.
Proof.
  assert (Hstage : forall ty p, expr_value (eliminate_eq_type eq ty p).1
      = expr_value (eliminate_eq_type eq ty p).2 -> expr_value p.1 = expr_value p.2).
  { intros [ty|] [a b]; [|done]. apply share_equal with (ty := ty), eliminate_eq_op_share. }
  unfold eliminate_eq_with. intros [= <- <-]. rewrite !eliminate_yn_value. intros E.
  apply (Hstage (op_of e1) (e1, e2)). case_decide; [done|]. by apply Hstage in E.
Qed.
End EqSound.

Lemma expr_eq_fuel_sound `{V : Valuation, !Constants V} n : forall e1 e2,
  expr_eq_fuel n e1 e2 = true -> expr_value e1 = expr_value e2.
Proof.
  induction n as [|n IH]; [done|]. intros e1 e2.
  assert (Hop : forall e1 e2, match eliminate_eq_with (expr_eq_fuel n) (expr_copy e1) (expr_copy e2)
    with (Sym a, Sym a') => Nat.eqb a a' | _ => false end = true -> expr_value e1 = expr_value e2).
  { intros a b. rewrite !expr_copy_id.
    destruct (eliminate_eq_with _ _ _) as [a' b'] eqn:E.
    destruct a', b'; try done. intros ->%Nat.eqb_eq.
    by eapply (eliminate_eq_with_sound _ IH) in E. }
  destruct e1, e2; cbn [expr_eq_fuel]; try done; try apply Hop.
  - by intros ->%Nat.eqb_eq.
  - intros E. cbn. by rewrite (IH _ _ E).
  - intros [->%Nat.eqb_eq ->%Nat.eqb_eq]%andb_true_iff. done.
  - intros [->%Nat.eqb_eq ->%Nat.eqb_eq]%andb_true_iff. done.
Qed.

(** Expressions that [expr_eq] identifies have the same value under every
    valuation of the symbols. *)
Theorem expr_eq_sound e1 e2 :
  expr_eq e1 e2 = true -> forall V, Constants V -> expr_value e1 = expr_value e2.
Proof. intros E V HV. by apply expr_eq_fuel_sound in E. Qed.

(** *** The bound on the recursion of [expr_eq] suffices *)

Lemma size_pos e : (1 <= expr_size e)%nat.
Proof. destruct e; cbn; lia. Qed.
Lemma size_mk ty l r : expr_size (mk ty l r) = S (expr_size l + expr_size r).
Proof. by destruct ty. Qed.

Section EqExt.
Variables eq eq' : expr -> expr -> bool.

Definition agree_below (k1 k2 : nat) : Prop := forall x y,
  (expr_size x <= k1)%nat -> (expr_size y <= k2)%nat -> eq x y = eq' x y.

Lemma eliminate_leaf_size ty e1 e2 :
  (expr_size (eliminate_leaf eq ty e1 e2).1 <= expr_size e1)%nat /\
  (expr_size (eliminate_leaf eq ty e1 e2).2 <= expr_size e2)%nat.
Proof.
  pose proof (size_pos e1). pose proof (size_pos e2). unfold eliminate_leaf.
  destruct (_ || _); [done|]. destruct (negb _); cbn; [done|lia].
Qed.

Lemma eliminate_right_size ty e2 : forall e1,
  (expr_size (eliminate_right eq ty e1 e2).1 <= expr_size e1)%nat /\
  (expr_size (eliminate_right eq ty e1 e2).2 <= expr_size e2)%nat.
Proof.
  induction e2 as [e2 He2|l r IHl IHr] using (chain_ind ty); intros e1.
  - rewrite eliminate_right_leaf by done. apply eliminate_leaf_size.
  - rewrite eliminate_right_unfold. specialize (IHl e1).
    destruct (eliminate_right eq ty e1 l) as [e1' l']. specialize (IHr e1').
    destruct (eliminate_right eq ty e1' r) as [e1'' r']. cbn [fst snd] in *.
    rewrite !size_mk. lia.
Qed.

Lemma eliminate_eq_op_size ty e1 : forall e2,
  (expr_size (eliminate_eq_op eq ty e1 e2).1 <= expr_size e1)%nat /\
  (expr_size (eliminate_eq_op eq ty e1 e2).2 <= expr_size e2)%nat.
Proof.
  induction e1 as [e1 He1|l r IHl IHr] using (chain_ind ty); intros e2.
  - rewrite eliminate_eq_op_leaf by done. apply eliminate_right_size.
  - rewrite eliminate_eq_op_unfold. specialize (IHl e2).
    destruct (eliminate_eq_op eq ty l e2) as [l' e2']. specialize (IHr e2').
    destruct (eliminate_eq_op eq ty r e2') as [r' e2'']. cbn [fst snd] in *.
    rewrite !size_mk. lia.
Qed.

Lemma eliminate_right_ext ty e2 : forall e1,
  agree_below (expr_size e1) (expr_size e2) ->
  eliminate_right eq ty e1 e2 = eliminate_right eq' ty e1 e2.
Proof.
  induction e2 as [e2 He2|l r IHl IHr] using (chain_ind ty); intros e1 Ha.
  - rewrite !eliminate_right_leaf by done. unfold eliminate_leaf. by rewrite (Ha e1 e2).
  - rewrite !eliminate_right_unfold. rewrite size_mk in Ha.
    rewrite <- (IHl e1) by (intros x y ? ?; apply Ha; lia).
    pose proof (eliminate_right_size ty l e1) as [Hs _].
    destruct (eliminate_right eq ty e1 l) as [e1' l']. cbn [fst] in Hs.
    by rewrite <- (IHr e1') by (intros x y ? ?; apply Ha; lia).
Qed.

Lemma eliminate_eq_op_ext ty e1 : forall e2,
  agree_below (expr_size e1) (expr_size e2) ->
  eliminate_eq_op eq ty e1 e2 = eliminate_eq_op eq' ty e1 e2.
Proof.
  induction e1 as [e1 He1|l r IHl IHr] using (chain_ind ty); intros e2 Ha.
  - rewrite !eliminate_eq_op_leaf by done. by apply eliminate_right_ext.
  - rewrite !eliminate_eq_op_unfold. rewrite size_mk in Ha.
    rewrite <- (IHl e2) by (intros x y ? ?; apply Ha; lia).
    pose proof (eliminate_eq_op_size ty l e2) as [_ Hs].
    destruct (eliminate_eq_op eq ty l e2) as [l' e2']. cbn [snd] in Hs.
    by rewrite <- (IHr e2') by (intros x y ? ?; apply Ha; lia).
Qed.

Lemma op_of_Some e ty : op_of e = Some ty -> exists l r, e = mk ty l r.
Proof. destruct e; cbn; intros [= <-]; by eexists _, _. Qed.

Lemma stage_ext ty p :
  (forall x y, (expr_size x + expr_size y < expr_size p.1 + expr_size p.2)%nat -> eq x y = eq' x y) ->
  op_of p.1 = ty \/ (op_of p.2 = ty /\ expr_type_of p.1 <> expr_type_of p.2) ->
  eliminate_eq_type eq ty p = eliminate_eq_type eq' ty p.
Proof.
  destruct p as [e1 e2], ty as [ty|]; cbn [fst snd eliminate_eq_type]; [|done]. intros Ha Hty.
  destruct (is_op ty e1) eqn:E1.
  - apply is_op_true in E1 as (l & r & ->). rewrite !eliminate_eq_op_unfold.
    rewrite size_mk in Ha.
    rewrite <- (eliminate_eq_op_ext ty l e2) by (intros x y ? ?; apply Ha; lia).
    pose proof (eliminate_eq_op_size ty l e2) as [_ Hs].
    destruct (eliminate_eq_op eq ty l e2) as [l' e2']. cbn [snd] in Hs.
    by rewrite <- (eliminate_eq_op_ext ty r e2') by (intros x y ? ?; apply Ha; lia).
  - rewrite !eliminate_eq_op_leaf by done.
    destruct Hty as [(l & r & ->)%op_of_Some|[(l & r & ->)%op_of_Some _]];
      [by rewrite is_op_mk in E1|].
    rewrite !eliminate_right_unfold. rewrite size_mk in Ha.
    rewrite <- (eliminate_right_ext ty l e1) by (intros x y ? ?; apply Ha; lia).
    pose proof (eliminate_right_size ty l e1) as [Hs _].
    destruct (eliminate_right eq ty e1 l) as [e1' l']. cbn [fst] in Hs.
    by rewrite <- (eliminate_right_ext ty r e1') by (intros x y ? ?; apply Ha; lia).
Qed.

Lemma eliminate_eq_with_ext e1 e2 :
  (forall x y, (expr_size x + expr_size y < expr_size e1 + expr_size e2)%nat -> eq x y = eq' x y) ->
  eliminate_eq_with eq e1 e2 = eliminate_eq_with eq' e1 e2.
Proof.
  intros Ha. unfold eliminate_eq_with.
  rewrite <- (stage_ext (op_of e1) (e1, e2)) by (done || by left).
  set (p := eliminate_eq_type eq (op_of e1) (e1, e2)).
  assert (Hp : (expr_size p.1 + expr_size p.2 <= expr_size e1 + expr_size e2)%nat).
  { subst p. destruct (op_of e1) as [ty|]; cbn [eliminate_eq_type fst snd]; [|done].
    pose proof (eliminate_eq_op_size ty e1 e2). lia. }
  case_decide as Ht; [done|].
  rewrite <- (stage_ext (op_of p.2) p); [done| |by right].
  intros x y Hxy. apply Ha. lia.
Qed.
End EqExt.

(** The recursion of [expr_eq] through [expr_eliminate_eq] ends: beyond the
    bound used for it, more fuel never changes the answer. *)
Theorem expr_eq_terminates e1 e2 n :
  (expr_size e1 + expr_size e2 < n)%nat -> expr_eq_fuel n e1 e2 = expr_eq e1 e2.
Proof.
  unfold expr_eq. set (k := S (expr_size e1 + expr_size e2)).
  assert (Hk : (expr_size e1 + expr_size e2 < k)%nat) by lia. clearbody k.
  revert e1 e2 k Hk. induction n as [|n IH]; [lia|]. intros e1 e2 [|k] Hk Hn; [lia|].
  assert (Hop : forall a b, (expr_size a + expr_size b <= expr_size e1 + expr_size e2)%nat ->
    eliminate_eq_with (expr_eq_fuel n) (expr_copy a) (expr_copy b)
    = eliminate_eq_with (expr_eq_fuel k) (expr_copy a) (expr_copy b)).
  { intros a b Hab. rewrite !expr_copy_id. apply eliminate_eq_with_ext.
    intros x y Hxy. apply IH; lia. }
  destruct e1, e2; try done; cbn [expr_eq_fuel]; try (rewrite (Hop _ _); done).
  apply IH; cbn in *; lia.
Qed.

(** ** Normal form: [expr_transform] *)

(** Height with negation free of charge. *)
Fixpoint height (e : expr) : nat :=
  match e with
  | Sym _ | Equal _ _ | Unequal _ _ => 1
  | Not e => height e
  | And l r | Or l r => S (Nat.max (height l) (height r))
  end.

(** Negation only in front of a symbol that is not [y], [m] or [n]. *)
Definition is_const (s : symref) : bool :=
  Nat.eqb s symbol_yes || Nat.eqb s symbol_mod || Nat.eqb s symbol_no.
Fixpoint nnf (e : expr) : bool :=
  match e with
  | And l r | Or l r => nnf l && nnf r
  | Not (Sym s) => negb (is_const s)
  | Not _ => false
  | _ => true
  end.

Lemma height_size e : (1 <= height e <= expr_size e)%nat.
Proof. induction e; cbn; lia. Qed.

(** The constants are not declared boolean. *)
Class ConstTypes {T : SymTab} : Prop :=
  const_types : forall s, is_const s = true -> sym_type s <> S_BOOLEAN.

Section Transform.
Context `{T : SymTab}.

Lemma transform_value {V : Valuation} `{!Consistent V} n : forall e e',
  transform_fuel n e = Some e' -> expr_value e' = expr_value e.
Proof.
  pose proof c_yes as [Hy Hys]. pose proof c_mod as [Hm Hms]. pose proof c_no as [Hn Hns].
  assert (Hq : forall a b, expr_value (transform_equal a b) = expr_value (Equal a b)).
  { intros a b. unfold transform_equal. destruct (bool_decide _) eqn:Eb; [|done].
    apply bool_decide_eq_true in Eb. destruct (c_bool a Eb) as [Ha Hna]. cbn [negb].
    destruct (Nat.eqb_spec b symbol_no) as [->|_]; [|destruct (Nat.eqb_spec b symbol_mod) as [->|_];
      [|destruct (Nat.eqb_spec b symbol_yes) as [->|_]; [|done]]]; cbn; rewrite Ha, ?Hns, ?Hms, ?Hys, ?Hn;
      destruct (vtri a); done. }
  assert (Hu : forall a b, expr_value (transform_unequal a b) = expr_value (Unequal a b)).
  { intros a b. unfold transform_unequal. destruct (bool_decide _) eqn:Eb; [|done].
    apply bool_decide_eq_true in Eb. destruct (c_bool a Eb) as [Ha Hna]. cbn [negb].
    destruct (Nat.eqb_spec b symbol_no) as [->|_]; [|destruct (Nat.eqb_spec b symbol_mod) as [->|_];
      [|destruct (Nat.eqb_spec b symbol_yes) as [->|_]; [|done]]]; cbn; rewrite Ha, ?Hns, ?Hms, ?Hys, ?Hy;
      destruct (vtri a); done. }
  induction n as [|n IH]; [done|]. intros e e'. cbn [transform_fuel].
  destruct e as [s|e|a b|a b|l r|l r].
  - by intros [= <-].
  - destruct (transform_fuel n e) as [f|] eqn:Ef; cbn; [|done]. apply IH in Ef. rewrite <- Ef.
    destruct f as [s|f|a b|a b|l r|l r]; cbn.
    + destruct (Nat.eqb_spec s symbol_yes) as [->|_]; [|destruct (Nat.eqb_spec s symbol_mod) as [->|_];
        [|destruct (Nat.eqb_spec s symbol_no) as [->|_]]]; intros [= <-]; cbn; by rewrite ?Hy, ?Hm, ?Hn.
    + intros E. apply IH in E. by rewrite E, not_involutive.
    + intros [= <-]. cbn. by destruct (bool_decide _).
    + intros [= <-]. cbn. by destruct (bool_decide _).
    + intros E. apply IH in E. cbn in E. by rewrite E, not_and.
    + intros E. apply IH in E. cbn in E. by rewrite E, not_or.
  - intros [= <-]. apply Hq.
  - intros [= <-]. apply Hu.
  - destruct (transform_fuel n l) as [l'|] eqn:El; cbn; [|done].
    destruct (transform_fuel n r) as [r'|] eqn:Er; cbn; [|done]. intros [= <-].
    cbn. by rewrite (IH _ _ El), (IH _ _ Er).
  - destruct (transform_fuel n l) as [l'|] eqn:El; cbn; [|done].
    destruct (transform_fuel n r) as [r'|] eqn:Er; cbn; [|done]. intros [= <-].
    cbn. by rewrite (IH _ _ El), (IH _ _ Er).
Qed.

Context `{HCT : !ConstTypes}.

(** A run that ends in normal form without growing in height. *)
Definition ends (n : nat) (e : expr) (h : nat) : Prop :=
  exists e', transform_fuel n e = Some e' /\ nnf e' = true /\ (height e' <= h)%nat.

Lemma ends_mono n e h h' : (h <= h')%nat -> ends n e h -> ends n e h'.
Proof. intros Hh (e' & ? & ? & ?). exists e'. repeat split; [done|done|lia]. Qed.

Lemma ends_op ty n l r h : ends n l h -> ends n r h -> ends (S n) (mk ty l r) (S h).
Proof.
  intros (l' & El & Nl & Hl) (r' & Er & Nr & Hr). exists (mk ty l' r').
  destruct ty; cbn; rewrite El; cbn; rewrite Er; cbn; rewrite Nl, Nr; repeat split; lia.
Qed.

Lemma literal_nnf s : sym_type s = S_BOOLEAN -> nnf (Not (Sym s)) = true.
Proof.
  intros Hs. cbn. destruct (is_const s) eqn:E; [|done]. by apply const_types in E.
Qed.

Lemma compare_ends n a b : ends (S n) (Equal a b) 1 /\ ends (S n) (Unequal a b) 1.
Proof.
  split; eexists; (split; [reflexivity|]); unfold transform_equal, transform_unequal;
    destruct (bool_decide _) eqn:E; try (split; [done|cbn; lia]);
    apply bool_decide_eq_true in E; cbn [negb];
    repeat (destruct (Nat.eqb _ _); [split; [try done; by apply literal_nnf|cbn; lia]|]);
    (split; [done|cbn; lia]).
Qed.

(** On a normal form the transformation stays within its height. *)
Lemma nnf_ends e : nnf e = true -> forall n, (height e < n)%nat -> ends n e (height e).
Proof.
  induction e as [s|e IH|a b|a b|l IHl r IHr|l IHl r IHr]; intros Hn [|n] Hlt; try (cbn in Hlt; lia).
  - exists (Sym s). done.
  - destruct e; try done. cbn in Hlt. destruct n as [|n]; [lia|].
    exists (Not (Sym s)). cbn in Hn |- *.
    unfold is_const in Hn. bool_to_prop.
    repeat match goal with H : _ = false |- _ => rewrite H end. cbn. unfold is_const.
    repeat match goal with H : _ = false |- _ => rewrite H end. done.
  - apply compare_ends.
  - apply compare_ends.
  - cbn in Hn, Hlt |- *. bool_to_prop. apply (ends_op OAnd).
    + eapply ends_mono; [|apply IHl; [done|lia]]. lia.
    + eapply ends_mono; [|apply IHr; [done|lia]]. lia.
  - cbn in Hn, Hlt |- *. bool_to_prop. apply (ends_op OOr).
    + eapply ends_mono; [|apply IHl; [done|lia]]. lia.
    + eapply ends_mono; [|apply IHr; [done|lia]]. lia.
Qed.

(** One step of the transformation of a negation. *)
Definition push_not (n : nat) (f : expr) : option expr :=
  match f with
  | Not a => transform_fuel n a
  | Equal a b => Some (Unequal a b)
  | Unequal a b => Some (Equal a b)
  | Or a b => transform_fuel n (And (Not a) (Not b))
  | And a b => transform_fuel n (Or (Not a) (Not b))
  | Sym s =>
      if Nat.eqb s symbol_yes then Some (Sym symbol_no)
      else if Nat.eqb s symbol_mod then Some (Sym symbol_mod)
      else if Nat.eqb s symbol_no then Some (Sym symbol_yes)
      else Some (Not (Sym s))
  end.
Lemma transform_not n e : transform_fuel (S n) (Not e) = (f ← transform_fuel n e; push_not n f).
Proof. reflexivity. Qed.

Lemma push_sym n s : exists e', push_not n (Sym s) = Some e' /\ nnf e' = true /\ (height e' <= 1)%nat.
Proof.
  cbn. destruct (Nat.eqb s symbol_yes) eqn:E1; [by eexists|].
  destruct (Nat.eqb s symbol_mod) eqn:E2; [by eexists|].
  destruct (Nat.eqb s symbol_no) eqn:E3; [by eexists|].
  eexists. split; [done|]. cbn. unfold is_const. by rewrite E1, E2, E3.
Qed.

(** Negating a normal form of height [h] needs at most [2h + 2] levels. *)
Lemma push_ends k : forall f n, nnf f = true -> (height f <= k)%nat -> (2 * k < n)%nat ->
  exists e', push_not n f = Some e' /\ nnf e' = true /\ (height e' <= k)%nat.
Proof.
  assert (Hneg : forall k f n, nnf f = true -> (height f <= k)%nat -> (k < n)%nat ->
    (forall g, nnf g = true -> (height g <= k)%nat ->
       exists e', push_not n g = Some e' /\ nnf e' = true /\ (height e' <= k)%nat) ->
    ends (S n) (Not f) k).
  { intros k' f n Hf Hh Hn Hpush. destruct (nnf_ends f Hf n ltac:(lia)) as (g & Eg & Ng & Hg).
    destruct (Hpush g Ng ltac:(lia)) as (e' & E' & N' & H').
    exists e'. rewrite transform_not, Eg. done. }
  induction k as [|k IH]; intros f n Hf Hh Hn; [pose proof (height_size f); lia|].
  destruct f as [s|f|a b|a b|a b|a b].
  - destruct (push_sym n s) as (e' & E & N & Hx). exists e'. repeat split; [done|done|lia].
  - destruct f; try done. destruct n as [|n]; [lia|]. exists (Sym s). cbn. repeat split; lia.
  - exists (Unequal a b). split; [done|]. split; [done|cbn; lia].
  - exists (Equal a b). split; [done|]. split; [done|cbn; lia].
  - cbn in Hf, Hh. bool_to_prop. destruct n as [|[|n]]; [lia..|]. cbn [push_not].
    destruct (ends_op OOr (S n) (Not a) (Not b) k) as (e' & E & N & He).
    + apply Hneg; [done|lia|lia|]. intros g Ng Hg. apply IH; [done|done|lia].
    + apply Hneg; [done|lia|lia|]. intros g Ng Hg. apply IH; [done|done|lia].
    + exists e'. done.
  - cbn in Hf, Hh. bool_to_prop. destruct n as [|[|n]]; [lia..|]. cbn [push_not].
    destruct (ends_op OAnd (S n) (Not a) (Not b) k) as (e' & E & N & He).
    + apply Hneg; [done|lia|lia|]. intros g Ng Hg. apply IH; [done|done|lia].
    + apply Hneg; [done|lia|lia|]. intros g Ng Hg. apply IH; [done|done|lia].
    + exists e'. done.
Qed.

Lemma transform_ends e : forall n,
  (expr_size e + 2 * height e < n)%nat -> ends n e (height e).
Proof.
  induction e as [s|e IH|a b|a b|l IHl r IHr|l IHl r IHr]; intros [|n] Hn; try lia.
  - by exists (Sym s).
  - cbn [expr_size height] in Hn. destruct (IH n ltac:(lia)) as (f & Ef & Nf & Hf).
    destruct (push_ends (height e) f n Nf Hf ltac:(lia)) as (e' & E & N & Hx).
    exists e'. rewrite transform_not, Ef. done.
  - apply compare_ends.
  - apply compare_ends.
  - cbn [expr_size height] in Hn |- *. apply (ends_op OAnd).
    + eapply ends_mono; [|apply IHl; lia]. lia.
    + eapply ends_mono; [|apply IHr; lia]. lia.
  - cbn [expr_size height] in Hn |- *. apply (ends_op OOr).
    + eapply ends_mono; [|apply IHl; lia]. lia.
    + eapply ends_mono; [|apply IHr; lia]. lia.
Qed.

Lemma transform_mono n : forall e e' m,
  transform_fuel n e = Some e' -> (n <= m)%nat -> transform_fuel m e = Some e'.
Proof.
  induction n as [|n IH]; [done|]. intros e e' [|m] H Hm; [lia|].
  assert (Hm' : (n <= m)%nat) by lia. revert H.
  destruct e as [s|e|a b|a b|l r|l r]; try done; cbn [transform_fuel].
  - destruct (transform_fuel n e) as [f|] eqn:Ef; [|done]. rewrite (IH _ _ _ Ef Hm'). cbn.
    destruct f; try done; intros E; by apply (IH _ _ _ E).
  - destruct (transform_fuel n l) as [l'|] eqn:El; [|done]. rewrite (IH _ _ _ El Hm'). cbn.
    destruct (transform_fuel n r) as [r'|] eqn:Er; [|done]. by rewrite (IH _ _ _ Er Hm').
  - destruct (transform_fuel n l) as [l'|] eqn:El; [|done]. rewrite (IH _ _ _ El Hm'). cbn.
    destruct (transform_fuel n r) as [r'|] eqn:Er; [|done]. by rewrite (IH _ _ _ Er Hm').
Qed.

Lemma transform_total e :
  exists e', transform_fuel (transform_bound e) e = Some e' /\ nnf e' = true /\ (height e' <= height e)%nat.
Proof.
  pose proof (height_size e). unfold transform_bound.
  destruct (decide (expr_size e = 1)%nat) as [H1|H1].
  - rewrite H1. destruct e; try (cbn in H1; pose proof (size_pos e); lia);
      try (cbn in H1; pose proof (size_pos e1); lia).
    + by exists (Sym s).
    + apply compare_ends.
    + apply compare_ends.
  - apply transform_ends. pose proof (size_pos e).
    enough (2 * height e < 3 * expr_size e)%nat by lia. lia.
Qed.
End Transform.

(** C39. [expr_transform] terminates on every expression (any larger recursion
    bound gives the same answer), keeps its value under every consistent
    valuation and returns a form whose only negations stand before symbols. *)
Theorem expr_transform_correct `{T : SymTab} e :
  ConstTypes ->
  (forall n, (transform_bound e <= n)%nat -> transform_fuel n e = Some (expr_transform e)) /\
  (forall V, Consistent V -> expr_value (expr_transform e) = expr_value e) /\
  nnf (expr_transform e) = true.
Proof.
  intros HC. destruct (transform_total e) as (e' & E & N & _).
  unfold expr_transform. rewrite E. cbn. split; [|split; [|done]].
  - intros n Hn. by apply (transform_mono _ _ _ _ E).
  - intros V HV. by apply (transform_value _ _ _ E).
Qed.

(** ** Joining operands *)

Section Join.
Context `{T : SymTab} {V : Valuation} `{HV : !Consistent V}.

Lemma typed_str s :
  sym_type s = S_BOOLEAN \/ sym_type s = S_TRISTATE -> vstr s = tri_str (vtri s).
Proof. intros [Hs|Hs]; [by apply c_bool|by apply c_tri]. Qed.

Lemma both_spec x y a b : both x y a b = true -> (x = a /\ y = b) \/ (x = b /\ y = a).
Proof.
  unfold both. rewrite orb_true_iff, !andb_true_iff, !Nat.eqb_eq. tauto.
Qed.

(** Evaluate the comparisons of a symbol that prints [tri_str v]. *)
Ltac crunch :=
  cbn [expr_value opv];
  rewrite ?(proj2 c_yes), ?(proj2 c_mod), ?(proj2 c_no), ?(proj1 c_yes), ?(proj1 c_mod), ?(proj1 c_no);
  repeat match goal with H : vstr _ = tri_str _ |- _ => rewrite H end;
  repeat match goal with |- context [vtri ?s] => destruct (vtri s) end; try done.

Lemma join_and_common_sound s e1 e2 t :
  join_sym1 e1 = Some s -> join_sym2 e2 = Some s -> vstr s = tri_str (vtri s) ->
  join_and_common s e1 e2 = Some t ->
  expr_value t = opv OAnd (expr_value e1) (expr_value e2).
Proof.
  intros H1 H2 Hs. unfold join_and_common.
  destruct e1 as [a|e1|a b|a b| |], e2 as [c|e2|c d|c d| |]; try done;
    cbn in H1, H2; injection H1 as ->; injection H2 as ->.
  - destruct (Nat.eqb_spec d symbol_yes) as [->|]; [|done]. intros [= <-]. crunch.
  - destruct (Nat.eqb_spec d symbol_no) as [->|]; [intros [= <-]; crunch|].
    destruct (Nat.eqb_spec d symbol_mod) as [->|]; [|done]. intros [= <-]. crunch.
  - destruct (Nat.eqb_spec b symbol_yes) as [->|]; [|done]. intros [= <-]. crunch.
  - destruct (Nat.eqb_spec b symbol_no) as [->|]; [intros [= <-]; crunch|].
    destruct (Nat.eqb_spec b symbol_mod) as [->|]; [|done]. intros [= <-]. crunch.
Qed.

Lemma join_consts_sound s b c t :
  (if sym_const c && sym_const b then
     if negb (Nat.eqb b c) then Some (Equal s b) else Some (Sym symbol_no) else None) = Some t ->
  expr_value t = opv OAnd (expr_value (Equal s b)) (expr_value (Unequal s c)).
Proof.
  destruct (sym_const c) eqn:Ec, (sym_const b) eqn:Eb; cbn [andb]; try done.
  destruct (Nat.eqb_spec b c) as [->|Hbc]; cbn [negb]; intros [= <-].
  - cbn. rewrite (proj1 c_no). by destruct (bool_decide _).
  - cbn. pose proof (c_const b c Eb Ec Hbc) as Hne.
    destruct (bool_decide (vstr s = vstr b)) eqn:E; [|by destruct (bool_decide (vstr s = vstr c))].
    apply bool_decide_eq_true in E. rewrite bool_decide_eq_false_2; [done|]. congruence.
Qed.

Lemma join_and_tristate_sound s e1 e2 t :
  join_sym1 e1 = Some s -> join_sym2 e2 = Some s -> vstr s = tri_str (vtri s) ->
  join_and_tristate s e1 e2 = Some t ->
  expr_value t = opv OAnd (expr_value e1) (expr_value e2).
Proof.
  intros H1 H2 Hs. unfold join_and_tristate.
  destruct e1 as [a|e1|a b|a b| |], e2 as [c|e2|c d|c d| |]; try done;
    cbn in H1, H2; injection H1 as ->; injection H2 as ->.
  - apply join_consts_sound.
  - rewrite opv_comm. apply join_consts_sound.
  - destruct (both b d symbol_yes symbol_no) eqn:E1;
      [|destruct (both b d symbol_yes symbol_mod) eqn:E2;
        [|destruct (both b d symbol_mod symbol_no) eqn:E3; [|done]]];
      intros [= <-];
      match goal with E : both _ _ _ _ = true |- _ => apply both_spec in E as [[-> ->]|[-> ->]] end;
      crunch.
Qed.

Lemma expr_join_sound ty e1 e2 t :
  expr_join ty e1 e2 = Some t -> expr_value t = opv ty (expr_value e1) (expr_value e2).
Proof.
  assert (Heq : expr_eq e1 e2 = true -> expr_value (expr_copy e1) = opv ty (expr_value e1) (expr_value e2)).
  { intros E. rewrite expr_copy_id, <- (expr_eq_sound _ _ E V _). by rewrite opv_idem. }
  destruct ty; cbn [expr_join]; unfold expr_join_and, expr_join_or;
    (destruct (expr_eq e1 e2); [intros [= <-]; by apply Heq|]); clear Heq;
    destruct (join_sym1 e1) as [s|] eqn:E1; try done;
    destruct (join_sym2 e2) as [s2|] eqn:E2; try done;
    destruct (Nat.eqb_spec s s2) as [<-|]; try done; cbn [negb];
    pose proof (typed_str s) as Hs;
    destruct (sym_type s) eqn:Ety; try done; specialize (Hs ltac:(tauto)).
  - by apply join_and_common_sound.
  - destruct (join_and_common s e1 e2) eqn:Ec.
    + intros [= <-]. by apply (join_and_common_sound s).
    + by apply join_and_tristate_sound.
  - pose proof (c_bool s Ety) as [_ Hb].
    destruct e1 as [a|[]| | | |], e2 as [c|[]| | | |]; try done;
      cbn in E1, E2; injection E1 as ->; injection E2 as ->; intros [= <-];
      cbn [expr_value opv]; rewrite (proj1 c_yes); destruct (vtri s); done.
  - destruct e1 as [a|e1|a b|a b| |], e2 as [c|e2|c d|c d| |]; try done;
      cbn in E1, E2; injection E1 as ->; injection E2 as ->.
    destruct (both b d symbol_yes symbol_mod) eqn:F1;
      [|destruct (both b d symbol_yes symbol_no) eqn:F2;
        [|destruct (both b d symbol_mod symbol_no) eqn:F3; [|done]]];
      intros [= <-];
      match goal with E : both _ _ _ _ = true |- _ => apply both_spec in E as [[-> ->]|[-> ->]] end;
      crunch.
Qed.
End Join.

(** Whenever [expr_join_and] or [expr_join_or] finds a single expression for
    two operands, it has the value of their conjunction or disjunction under
    every consistent valuation, tristate values included. *)
Theorem expr_join_correct `{T : SymTab} ty e1 e2 t :
  expr_join ty e1 e2 = Some t ->
  forall V, Consistent V -> expr_value t = expr_value (mk ty e1 e2).
Proof. intros E V HV. rewrite value_mk. by apply expr_join_sound. Qed.

(** ** Common operands *)

Section Extract.
Context {V : Valuation} `{HV : !Constants V}.

Definition oval (ty : bop) (e : option expr) : tristate :=
  match e with Some e => expr_value e | None => unitv ty end.

(** The accumulated operands grow by [c], which both sides lose. *)
Definition moved (ty : bop) (p p' : option expr * expr * expr) : Prop :=
  exists c, oval ty p'.1.1 = opv ty (oval ty p.1.1) c /\
            expr_value p.1.2 = opv ty c (expr_value p'.1.2) /\
            expr_value p.2 = opv ty c (expr_value p'.2).

Lemma moved_refl ty p : moved ty p p.
Proof. exists (unitv ty). by rewrite !opv_unit_l, opv_unit_r. Qed.

Lemma extract_leaf_moved ty ep e1 e2 : moved ty (ep, e1, e2) (extract_leaf ty ep e1 e2).
Proof.
  unfold extract_leaf. destruct (expr_eq e1 e2) eqn:E; [|apply moved_refl].
  exists (expr_value e1). cbn [fst snd]. rewrite value_unit, opv_unit_r.
  split; [|split; [done|]].
  - destruct ep as [e|]; cbn; [by unfold expr_alloc_two; rewrite value_mk|by rewrite opv_unit_l].
  - symmetry. by apply (expr_eq_sound _ _ E).
Qed.

Lemma extract_right_unfold ty ep e1 l r :
  extract_right ty ep e1 (mk ty l r) =
  let '(ep, e1, l) := extract_right ty ep e1 l in
  let '(ep, e1, r) := extract_right ty ep e1 r in (ep, e1, mk ty l r).
Proof. by destruct ty. Qed.
Lemma extract_right_leaf ty ep e1 e2 :
  is_op ty e2 = false -> extract_right ty ep e1 e2 = extract_leaf ty ep e1 e2.
Proof. by destruct e2, ty. Qed.
Lemma extract_unfold ty ep l r e2 :
  expr_extract_eq ty ep (mk ty l r) e2 =
  let '(ep, l, e2) := expr_extract_eq ty ep l e2 in
  let '(ep, r, e2) := expr_extract_eq ty ep r e2 in (ep, mk ty l r, e2).
Proof. by destruct ty. Qed.
Lemma extract_op_leaf ty ep e1 e2 :
  is_op ty e1 = false -> expr_extract_eq ty ep e1 e2 = extract_right ty ep e1 e2.
Proof. by destruct e1, ty. Qed.

Lemma extract_right_moved ty e2 : forall ep e1, moved ty (ep, e1, e2) (extract_right ty ep e1 e2).
Proof.
  induction e2 as [e2 He2|l r IHl IHr] using (chain_ind ty); intros ep e1.
  - rewrite extract_right_leaf by done. apply extract_leaf_moved.
  - rewrite extract_right_unfold. specialize (IHl ep e1).
    destruct (extract_right ty ep e1 l) as [[ep' e1'] l']. specialize (IHr ep' e1').
    destruct (extract_right ty ep' e1' r) as [[ep'' e1''] r'].
    destruct IHl as (c & Hc0 & Hc1 & Hc2), IHr as (d & Hd0 & Hd1 & Hd2). cbn [fst snd] in *.
    exists (opv ty c d). cbn [fst snd]. rewrite !value_mk, Hd0, Hc0, Hc1, Hc2, Hd1, Hd2.
    rewrite !opv_assoc. repeat split. by rewrite <- !opv_assoc, opv_assoc, opv_swap, !opv_assoc.
Qed.

Lemma extract_eq_moved ty e1 : forall ep e2, moved ty (ep, e1, e2) (expr_extract_eq ty ep e1 e2).
Proof.
  induction e1 as [e1 He1|l r IHl IHr] using (chain_ind ty); intros ep e2.
  - rewrite extract_op_leaf by done. apply extract_right_moved.
  - rewrite extract_unfold. specialize (IHl ep e2).
    destruct (expr_extract_eq ty ep l e2) as [[ep' l'] e2']. specialize (IHr ep' e2').
    destruct (expr_extract_eq ty ep' r e2') as [[ep'' r'] e2''].
    destruct IHl as (c & Hc0 & Hc1 & Hc2), IHr as (d & Hd0 & Hd1 & Hd2). cbn [fst snd] in *.
    exists (opv ty c d). cbn [fst snd]. rewrite !value_mk, Hd0, Hc0, Hc1, Hc2, Hd1, Hd2.
    rewrite !opv_assoc. repeat split. by rewrite <- !opv_assoc, opv_assoc, opv_swap, !opv_assoc.
Qed.

(** Both operands are what is common to them and what is left of them. *)
Lemma extract_eq_ty_value ty e1 e2 tmp e1' e2' :
  expr_extract_eq_ty ty e1 e2 = (tmp, e1', e2') ->
  expr_value e1 = opv ty (oval ty tmp) (expr_value e1') /\
  expr_value e2 = opv ty (oval ty tmp) (expr_value e2').
Proof.
  unfold expr_extract_eq_ty. pose proof (extract_eq_moved ty e1 None e2) as Hm.
  destruct (expr_extract_eq ty None e1 e2) as [[ep f1] f2].
  destruct Hm as (c & H0 & H1 & H2). cbn [fst snd oval] in *. rewrite opv_unit_l in H0.
  destruct ep; intros [= <- <- <-]; rewrite ?eliminate_yn_value; by rewrite H0.
Qed.
End Extract.

(** [expr_extract_eq_and] ([_or]) splits off the common operands: each
    expression is the conjunction (disjunction) of the extracted part and its
    remainder. *)
Theorem expr_extract_eq_correct ty e1 e2 tmp e1' e2' :
  expr_extract_eq_ty ty e1 e2 = (tmp, e1', e2') ->
  forall V, Constants V ->
    expr_value e1 = opv ty (oval ty tmp) (expr_value e1') /\
    expr_value e2 = opv ty (oval ty tmp) (expr_value e2').
Proof. intros E V HV. by apply extract_eq_ty_value. Qed.

(** ** Questions about symbols *)

(** The value of an expression does not depend on a symbol that
    [expr_contains_symbol] does not find in it. *)
Theorem expr_contains_symbol_sound e s (V V' : Valuation) :
  expr_contains_symbol e s = false ->
  (forall a, a <> s -> @vtri V a = @vtri V' a /\ @vstr V a = @vstr V' a) ->
  @expr_value V e = @expr_value V' e.
Proof.
  intros Hc Hag. induction e as [a|e IH|a b|a b|l IHl r IHr|l IHl r IHr]; cbn in *; bool_to_prop;
    repeat match goal with H : Nat.eqb _ _ = false |- _ => apply Nat.eqb_neq in H end.
  - by apply Hag.
  - by rewrite IH.
  - by rewrite (proj2 (Hag a ltac:(done))), (proj2 (Hag b ltac:(done))).
  - by rewrite (proj2 (Hag a ltac:(done))), (proj2 (Hag b ltac:(done))).
  - by rewrite IHl, IHr.
  - by rewrite IHl, IHr.
Qed.

Lemma tri_str_inj a b : tri_str a = tri_str b -> a = b.
Proof. by destruct a, b. Qed.

(** When [expr_depends_symbol] says that a dependency needs a boolean or
    tristate symbol, the dependency is [n] whenever the symbol is. *)
Theorem expr_depends_symbol_sound `{T : SymTab} e s :
  expr_depends_symbol e s = true -> sym_type s = S_BOOLEAN \/ sym_type s = S_TRISTATE ->
  forall V, Consistent V -> vtri s = Tno -> expr_value e = Tno.
Proof.
  intros Hd Hty V HV Hs. pose proof (typed_str s Hty) as Hstr. rewrite Hs in Hstr.
  pose proof c_yes as [_ Hy]. pose proof c_mod as [_ Hm]. pose proof c_no as [_ Hn].
  induction e as [a|e IH|a b|a b|l IHl r IHr|l IHl r IHr]; cbn in *; try done.
  - apply Nat.eqb_eq in Hd as ->. done.
  - apply andb_true_iff in Hd as [->%Nat.eqb_eq Hb]. rewrite Hstr.
    apply orb_true_iff in Hb as [->%Nat.eqb_eq| ->%Nat.eqb_eq]; by rewrite ?Hy, ?Hm.
  - apply andb_true_iff in Hd as [->%Nat.eqb_eq ->%Nat.eqb_eq]. by rewrite Hstr, Hn.
  - apply orb_true_iff in Hd as [Hd|Hd]; [rewrite IHl by done; by destruct (expr_value r)|rewrite IHr by done].
    by destruct (expr_value l).
Qed.

Fixpoint negation_free (e : expr) : bool :=
  match e with
  | And l r | Or l r => negation_free l && negation_free r
  | Not _ => false
  | _ => true
  end.

(** [expr_trans_bool] (which replaces [FOO != n] by [FOO] for tristate
    symbols) keeps the truth of a negation-free expression: it is [n] exactly
    when the expression was. *)
Theorem expr_trans_bool_truth `{T : SymTab} e :
  negation_free e = true ->
  forall V, Consistent V -> (expr_value (expr_trans_bool e) = Tno <-> expr_value e = Tno).
Proof.
  intros Hf V HV. pose proof c_no as [_ Hn].
  induction e as [a|e IH|a b|a b|l IHl r IHr|l IHl r IHr]; cbn in *; try done; bool_to_prop.
  - destruct (bool_decide _) eqn:Et; [|done]. apply bool_decide_eq_true in Et.
    destruct (Nat.eqb_spec b symbol_no) as [->|]; [|done]. cbn.
    rewrite Hn, (c_tri a Et). by destruct (vtri a).
  - specialize (IHl ltac:(done)). specialize (IHr ltac:(done)).
    destruct (expr_value (expr_trans_bool l)), (expr_value (expr_trans_bool r)),
      (expr_value l), (expr_value r); cbn in *; intuition discriminate.
  - specialize (IHl ltac:(done)). specialize (IHr ltac:(done)).
    destruct (expr_value (expr_trans_bool l)), (expr_value (expr_trans_bool r)),
      (expr_value l), (expr_value r); cbn in *; intuition discriminate.
Qed.

(** Every symbol that stands for itself is boolean or tristate. *)
Fixpoint typed_leaves `{SymTab} (e : expr) : Prop :=
  match e with
  | Sym s => sym_type s = S_BOOLEAN \/ sym_type s = S_TRISTATE
  | Not e => typed_leaves e
  | And l r | Or l r => typed_leaves l /\ typed_leaves r
  | _ => True
  end.

(** Comparing an expression with [y] or [n] by [expr_trans_compare] is the
    comparison, as long as no symbol has the value [m]. *)
Theorem expr_trans_compare_correct `{T : SymTab} e (eq is_yes : bool) :
  typed_leaves e ->
  exists t, trans_compare e eq (if is_yes then symbol_yes else symbol_no) = Some t /\
    forall V, Consistent V ->
      (forall s, sym_type s = S_BOOLEAN \/ sym_type s = S_TRISTATE -> vtri s <> Tmod) ->
      expr_value t = if Bool.eqb eq is_yes then expr_value e else EXPR_NOT (expr_value e).
Proof.
  revert eq. induction e as [s|e IH|a b|a b|l IHl r IHr|l IHl r IHr]; intros eq Hty; cbn in *.
  - eexists. split; [done|]. intros V HV Hb. specialize (Hb s Hty).
    pose proof (typed_str s Hty) as Hs. pose proof c_yes as [_ Hy]. pose proof c_no as [_ Hn].
    destruct eq, is_yes; cbn; rewrite Hs, ?Hy, ?Hn; by destruct (vtri s).
  - destruct (IH (negb eq) Hty) as (t & Et & Hv). exists t. split; [done|]. intros V HV H2.
    rewrite (Hv V HV H2). destruct eq, is_yes; cbn; by rewrite ?not_involutive.
  - destruct eq, is_yes; (eexists; split; [done|]); intros V HV _; done.
  - destruct eq, is_yes; (eexists; split; [done|]); intros V HV _; done.
  - destruct Hty as [Hl Hr]. destruct (IHl true Hl) as (t1 & -> & Hv1).
    destruct (IHr true Hr) as (t2 & -> & Hv2).
    destruct is_yes; cbn; (eexists; split; [done|]); intros V HV H2;
      specialize (Hv1 V HV H2); specialize (Hv2 V HV H2); cbn in Hv1, Hv2;
      destruct eq; cbn; rewrite Hv1, Hv2, ?not_and, ?not_or, ?not_involutive; done.
  - destruct Hty as [Hl Hr]. destruct (IHl true Hl) as (t1 & -> & Hv1).
    destruct (IHr true Hr) as (t2 & -> & Hv2).
    destruct is_yes; cbn; (eexists; split; [done|]); intros V HV H2;
      specialize (Hv1 V HV H2); specialize (Hv2 V HV H2); cbn in Hv1, Hv2;
      destruct eq; cbn; rewrite Hv1, Hv2, ?not_and, ?not_or, ?not_involutive; done.
Qed.
