(* ===== verification/KExprDups.v ===== *)
(** Elimination of duplicate operands: the two passes of [expr_eliminate_dups]
    on slots of a tree, what they do to its value and size, and why its loop
    ends. *)
From S2P Require Import Prelude KExpr KExprFacts.

(** ** Slots inside the operands of one operator *)

Fixpoint in_chain (ty : bop) (q : slot) (t : expr) : bool :=
  match q with
  | [] => true
  | d :: q =>
      match view t with
      | Some (ty', l, r) =>
          bool_decide (ty' = ty) && in_chain ty q (match d with GoL => l | GoR => r end)
      | None => false
      end
  end.

(** Case analysis on a slot of a chain: at the root, or below an operand. *)
Lemma in_chain_cons ty d q t :
  in_chain ty (d :: q) t = true ->
  exists l r, t = mk ty l r /\ in_chain ty q (match d with GoL => l | GoR => r end) = true.
Proof.
  cbn. destruct (view t) as [[[ty' l] r]|] eqn:E; [|done]. apply view_Some in E as ->.
  intros [->%bool_decide_eq_true H]%andb_true_iff. eauto.
Qed.

Lemma in_chain_mk ty d q l r :
  in_chain ty (d :: q) (mk ty l r) = in_chain ty q (match d with GoL => l | GoR => r end).
Proof. destruct ty; cbn; by rewrite bool_decide_eq_true_2. Qed.

Lemma slot_get_mk ty d q l r :
  slot_get (d :: q) (mk ty l r) = slot_get q (match d with GoL => l | GoR => r end).
Proof. by destruct ty, d. Qed.
Lemma slot_set_mk ty d q x l r :
  slot_set (d :: q) x (mk ty l r) =
  match d with GoL => mk ty (slot_set q x l) r | GoR => mk ty l (slot_set q x r) end.
Proof. by destruct ty, d. Qed.

Ltac chain_cons H :=
  let l := fresh "l" in let r := fresh "r" in
  apply in_chain_cons in H as (l & r & -> & H);
  rewrite ?slot_get_mk, ?slot_set_mk in *.

Lemma in_chain_get ty q : forall t, in_chain ty q t = true -> exists e, slot_get q t = Some e.
Proof.
  induction q as [|d q IH]; intros t H; [by exists t|]. chain_cons H. by apply IH.
Qed.

Lemma slot_get_app q1 q2 : forall t,
  slot_get (q1 ++ q2) t = (e ← slot_get q1 t; slot_get q2 e).
Proof. induction q1 as [|[] q1 IH]; intros []; cbn; done. Qed.

Lemma in_chain_app ty q d : forall t e l r,
  in_chain ty q t = true -> slot_get q t = Some e -> e = mk ty l r ->
  in_chain ty (q ++ [d]) t = true /\
  slot_get (q ++ [d]) t = Some (match d with GoL => l | GoR => r end).
Proof.
  induction q as [|d' q IH]; intros t e l r H Hg ->.
  - injection Hg as ->. cbn [app]. rewrite in_chain_mk, slot_get_mk. done.
  - chain_cons H. cbn [app]. rewrite in_chain_mk, slot_get_mk. by eapply IH.
Qed.

(** *** Value and size of a chain with a slot replaced *)

Lemma set_value `{Valuation} ty q : forall t e,
  in_chain ty q t = true -> slot_get q t = Some e ->
  exists c, forall x, expr_value (slot_set q x t) = opv ty c (expr_value x).
Proof.
  induction q as [|d q IH]; intros t e Hc Hg.
  - exists (unitv ty). intros x. by rewrite opv_unit_l.
  - chain_cons Hc. destruct (IH _ e Hc Hg) as [c Hx].
    exists (opv ty c (expr_value (match d with GoL => r | GoR => l end))). intros x.
    rewrite slot_set_mk. destruct d; rewrite value_mk, Hx.
    + by rewrite <- opv_assoc, (opv_comm ty (expr_value x)), opv_assoc.
    + by rewrite opv_assoc, (opv_comm ty (expr_value l)).
Qed.

Lemma set_get q : forall t e, slot_get q t = Some e -> slot_set q e t = t.
Proof. induction q as [|[] q IH]; intros [] x H; cbn in *; try congruence; by rewrite IH. Qed.

Lemma get_value `{Valuation} ty q t e :
  in_chain ty q t = true -> slot_get q t = Some e ->
  exists c, expr_value t = opv ty c (expr_value e) /\
    forall x, expr_value (slot_set q x t) = opv ty c (expr_value x).
Proof.
  intros Hc Hg. destruct (set_value ty q t e Hc Hg) as [c Hx]. exists c. split; [|done].
  rewrite <- (Hx e). by rewrite (set_get q t e Hg).
Qed.

Lemma set_size ty q : forall t e x,
  in_chain ty q t = true -> slot_get q t = Some e ->
  (expr_size (slot_set q x t) + expr_size e = expr_size x + expr_size t)%nat.
Proof.
  induction q as [|d q IH]; intros t e x Hc Hg.
  - injection Hg as ->. done.
  - chain_cons Hc. specialize (IH _ e x Hc Hg). destruct d; rewrite !size_mk; lia.
Qed.

Lemma yn_mk_size ty l r :
  (expr_size (expr_eliminate_yn (mk ty l r))
   <= S (expr_size (expr_eliminate_yn l) + expr_size (expr_eliminate_yn r)))%nat.
Proof.
  destruct ty; cbn [mk expr_eliminate_yn]; yn_cases; cbn [expr_size]; lia.
Qed.

Lemma yn_unit_l ty r :
  (expr_size (expr_eliminate_yn (mk ty (Sym (unit_sym ty)) r)) <= expr_size (expr_eliminate_yn r))%nat.
Proof. destruct ty; cbn; done. Qed.
Lemma yn_unit_r ty l :
  (expr_size (expr_eliminate_yn (mk ty l (Sym (unit_sym ty)))) <= expr_size (expr_eliminate_yn l))%nat.
Proof.
  pose proof (size_pos (expr_eliminate_yn l)).
  destruct ty; cbn [mk expr_eliminate_yn unit_sym]; yn_cases; cbn [expr_size]; try lia; cbn in *; congruence.
Qed.

Lemma set_yn_size ty q : forall t e x,
  in_chain ty q t = true -> slot_get q t = Some e ->
  (expr_size (expr_eliminate_yn (slot_set q x t)) + expr_size e
   <= expr_size (expr_eliminate_yn x) + expr_size t)%nat.
Proof.
  induction q as [|d q IH]; intros t e x Hc Hg.
  - injection Hg as ->. done.
  - chain_cons Hc. specialize (IH _ e x Hc Hg).
    destruct d; rewrite !size_mk; (eapply Nat.le_trans; [apply Nat.add_le_mono_r, yn_mk_size|]).
    + pose proof (eliminate_yn_size r). lia.
    + pose proof (eliminate_yn_size l). lia.
Qed.

Lemma set_unit_size ty q : forall t e,
  in_chain ty q t = true -> slot_get q t = Some e -> q <> [] ->
  (expr_size (expr_eliminate_yn (slot_set q (Sym (unit_sym ty)) t)) + S (expr_size e)
   <= expr_size t)%nat.
Proof.
  induction q as [|d q IH]; intros t e Hc Hg Hne; [done|]. clear Hne.
  chain_cons Hc. pose proof (eliminate_yn_size l). pose proof (eliminate_yn_size r).
  destruct q as [|d' q].
  - cbn in Hg. injection Hg as <-. destruct d; cbn [slot_set]; rewrite size_mk.
    + pose proof (yn_unit_l ty r). lia.
    + pose proof (yn_unit_r ty l). lia.
  - specialize (IH _ e Hc Hg ltac:(done)).
    destruct d; rewrite size_mk; (eapply Nat.le_trans; [apply Nat.add_le_mono_r, yn_mk_size|]); lia.
Qed.

(** Two different slots that are not inside each other. *)
Lemma set2_yn_size ty x q1 : forall q2 t e1 e2,
  in_chain ty q1 t = true -> slot_get q1 t = Some e1 -> is_op ty e1 = false ->
  in_chain ty q2 t = true -> slot_get q2 t = Some e2 -> is_op ty e2 = false -> q1 <> q2 ->
  (expr_size x <= expr_size e1)%nat ->
  (expr_size (expr_eliminate_yn (slot_set q2 x (slot_set q1 (Sym (unit_sym ty)) t))) < expr_size t)%nat.
Proof.
  induction q1 as [|d1 q1 IH]; intros [|d2 q2] t e1 e2 H1 G1 L1 H2 G2 L2 Hne Hx; [done| | |].
  - injection G1 as ->. apply in_chain_cons in H2 as (l & r & -> & _). by rewrite is_op_mk in L1.
  - injection G2 as ->. apply in_chain_cons in H1 as (l & r & -> & _). by rewrite is_op_mk in L2.
  - apply in_chain_cons in H1 as (l & r & -> & H1). rewrite in_chain_mk in H2.
    rewrite slot_get_mk in G1, G2. rewrite slot_set_mk.
    pose proof (eliminate_yn_size l). pose proof (eliminate_yn_size r).
    pose proof (eliminate_yn_size x). pose proof (size_pos e2).
    destruct d1, d2; rewrite slot_set_mk, size_mk.
    + assert (Hq : q1 <> q2) by congruence.
      specialize (IH q2 l e1 e2 H1 G1 L1 H2 G2 L2 Hq Hx).
      eapply Nat.le_lt_trans; [apply yn_mk_size|]. lia.
    + pose proof (set_yn_size ty q2 r e2 x H2 G2).
      destruct q1 as [|d q1].
      * cbn in G1. injection G1 as <-. cbn [slot_set].
        eapply Nat.le_lt_trans; [apply yn_unit_l|]. lia.
      * pose proof (set_unit_size ty (d :: q1) l e1 H1 G1 ltac:(done)).
        eapply Nat.le_lt_trans; [apply yn_mk_size|]. lia.
    + pose proof (set_yn_size ty q2 l e2 x H2 G2).
      destruct q1 as [|d q1].
      * cbn in G1. injection G1 as <-. cbn [slot_set].
        eapply Nat.le_lt_trans; [apply yn_unit_r|]. lia.
      * pose proof (set_unit_size ty (d :: q1) r e1 H1 G1 ltac:(done)).
        eapply Nat.le_lt_trans; [apply yn_mk_size|]. lia.
    + assert (Hq : q1 <> q2) by congruence.
      specialize (IH q2 r e1 e2 H1 G1 L1 H2 G2 L2 Hq Hx).
      eapply Nat.le_lt_trans; [apply yn_mk_size|]. lia.
Qed.

(** A second slot keeps its content when a leaf slot is written. *)
Lemma get_set_other ty x q1 : forall q2 t e1 e2,
  in_chain ty q1 t = true -> slot_get q1 t = Some e1 -> is_op ty e1 = false ->
  in_chain ty q2 t = true -> slot_get q2 t = Some e2 -> is_op ty e2 = false -> q1 <> q2 ->
  in_chain ty q2 (slot_set q1 x t) = true /\ slot_get q2 (slot_set q1 x t) = Some e2.
Proof.
  induction q1 as [|d1 q1 IH]; intros [|d2 q2] t e1 e2 H1 G1 L1 H2 G2 L2 Hne; [done| | |].
  - injection G1 as ->. apply in_chain_cons in H2 as (l & r & -> & _). by rewrite is_op_mk in L1.
  - injection G2 as ->. apply in_chain_cons in H1 as (l & r & -> & _). by rewrite is_op_mk in L2.
  - apply in_chain_cons in H1 as (l & r & -> & H1). rewrite in_chain_mk in H2.
    rewrite slot_get_mk in G1, G2. rewrite slot_set_mk.
    destruct d1, d2; rewrite in_chain_mk, slot_get_mk; try done;
      (eapply IH; [exact H1|exact G1|done|exact H2|exact G2|done|congruence]).
Qed.

(** ** Trees with the same operator nodes *)

Inductive same_skel (ty : bop) : expr -> expr -> Prop :=
| skel_leaf a b : is_op ty a = false -> is_op ty b = false -> same_skel ty a b
| skel_op l r l' r' : same_skel ty l l' -> same_skel ty r r' -> same_skel ty (mk ty l r) (mk ty l' r').

Lemma mk_inj ty l r l' r' : mk ty l r = mk ty l' r' -> l = l' /\ r = r'.
Proof. destruct ty; cbn; intros [= -> ->]; done. Qed.

Lemma same_skel_refl ty e : same_skel ty e e.
Proof. induction e as [e He|l r IHl IHr] using (chain_ind ty); by constructor. Qed.

Lemma same_skel_is_op ty a b : same_skel ty a b -> is_op ty a = is_op ty b.
Proof. intros []; [congruence|by rewrite !is_op_mk]. Qed.

Lemma same_skel_trans ty a b : same_skel ty a b -> forall c, same_skel ty b c -> same_skel ty a c.
Proof.
  induction 1 as [a b Ha Hb|l r l' r' _ IHl _ IHr]; intros c Hc.
  - constructor; [done|]. by rewrite <- (same_skel_is_op ty b c Hc).
  - remember (mk ty l' r') as m eqn:Em. destruct Hc as [m c Hm _|l2 r2 l3 r3 Hl Hr].
    + subst. by rewrite is_op_mk in Hm.
    + apply mk_inj in Em as [-> ->]. apply skel_op; [by apply IHl|by apply IHr].
Qed.

Lemma same_skel_get ty t t' : same_skel ty t t' -> forall q, in_chain ty q t = true ->
  in_chain ty q t' = true /\
  exists e e', slot_get q t = Some e /\ slot_get q t' = Some e' /\ same_skel ty e e'.
Proof.
  induction 1 as [a b Ha Hb|l r l' r' Hl IHl Hr IHr]; intros [|d q] Hq.
  - split; [done|]. exists a, b. repeat split. by constructor.
  - apply in_chain_cons in Hq as (? & ? & -> & _). by rewrite is_op_mk in Ha.
  - split; [done|]. eexists _, _. repeat split. by constructor.
  - rewrite in_chain_mk in *. rewrite !slot_get_mk. destruct d; auto.
Qed.

Lemma same_skel_set ty q x : forall t e,
  in_chain ty q t = true -> slot_get q t = Some e -> is_op ty e = false -> is_op ty x = false ->
  same_skel ty t (slot_set q x t).
Proof.
  induction q as [|d q IH]; intros t e Hc Hg He Hx.
  - injection Hg as ->. by constructor.
  - chain_cons Hc. destruct d; constructor; try apply same_skel_refl; by eapply IH.
Qed.

(** ** What the passes do *)

(** [v'] agrees with [v] unless [v] is [m]. *)
Definition refines (v v' : tristate) : Prop := v <> Tmod -> v' = v.

Lemma refines_op ty c v v' : refines v v' -> refines (opv ty c v) (opv ty c v').
Proof. unfold refines. destruct ty, c, v, v'; cbn; intuition congruence. Qed.

Section Passes.
Context `{T : SymTab}.
(** How values may change: not at all, or as in [refines]. *)
Variable R : tristate -> tristate -> Prop.
Hypothesis R_refl : forall v, R v v.
Hypothesis R_trans : forall a b c, R a b -> R b c -> R a c.
Hypothesis R_op : forall ty c v v', R v v' -> R (opv ty c v) (opv ty c v').

(** One pass over a chain of [ty] nodes: same shape, related value under every
    consistent valuation, not larger; if [trans_count] moved, constant
    elimination will make the tree smaller, otherwise it did not change. *)
Record pass (ty : bop) (st st' : dstate) : Prop := {
  ps_skel : same_skel ty st.1 st'.1;
  ps_value : forall V, Consistent V -> R (expr_value st.1) (expr_value st'.1);
  ps_size : (expr_size st'.1 <= expr_size st.1)%nat;
  ps_count : (st.2 <= st'.2)%nat;
  ps_same : st'.2 = st.2 -> st'.1 = st.1;
  ps_less : (st.2 < st'.2)%nat ->
            (expr_size (expr_eliminate_yn st'.1) < expr_size st.1)%nat;
}.

Lemma pass_refl ty st : pass ty st st.
Proof. split; intros; auto using same_skel_refl; lia. Qed.

Lemma pass_trans ty a b c : pass ty a b -> pass ty b c -> pass ty a c.
Proof.
  intros [K1 V1 S1 C1 E1 L1] [K2 V2 S2 C2 E2 L2]. split.
  - by eapply same_skel_trans.
  - intros V HV. eauto.
  - lia.
  - lia.
  - intros E. rewrite E2 by lia. apply E1. lia.
  - intros Hlt. destruct (decide (b.2 = c.2)) as [E|E].
    + rewrite E2 by done. apply L1. lia.
    + specialize (L2 ltac:(lia)). lia.
Qed.

(** A pass over an operand of the other type, seen from the chain. *)
Lemma pass_below ty ty1 q t c e e' c' :
  in_chain ty q t = true -> slot_get q t = Some e -> is_op ty e = false ->
  op_of e = Some ty1 -> pass ty1 (e, c) (e', c') ->
  is_op ty e' = false /\ pass ty (t, c) (slot_set q e' t, c').
Proof.
  intros Hc Hg He Hop [K Vv S C E L]. cbn [fst snd] in *.
  assert (He' : is_op ty e' = false).
  { apply op_of_Some in Hop as (l & r & ->). apply same_skel_is_op in K. rewrite is_op_mk in K.
    symmetry in K. apply is_op_true in K as (l' & r' & ->). destruct ty, ty1; done. }
  split; [done|]. split; cbn [fst snd].
  - by eapply same_skel_set.
  - intros V HV. destruct (get_value ty q t e Hc Hg) as (k & -> & Hx). rewrite Hx. by apply R_op, Vv.
  - pose proof (set_size ty q t e e' Hc Hg). lia.
  - done.
  - intros Ec. rewrite (E Ec). by apply set_get.
  - intros Hlt. specialize (L Hlt). pose proof (set_yn_size ty q t e e' Hc Hg). lia.
Qed.

Lemma unit_not_op ty : is_op ty (Sym (unit_sym ty)) = false.
Proof. by destruct ty. Qed.

Lemma join_shape ty e1 e2 tmp :
  is_op ty e1 = false -> expr_join ty e1 e2 = Some tmp ->
  is_op ty tmp = false /\ (expr_size tmp <= expr_size e1)%nat.
Proof.
  intros He. pose proof (size_pos e1).
  assert (Hsmall : forall x, expr_size x = 1%nat -> is_op ty x = false ->
    is_op ty x = false /\ (expr_size x <= expr_size e1)%nat) by (intros; split; [done|lia]).
  destruct ty; cbn [expr_join]; unfold expr_join_and, expr_join_or, join_and_common, join_and_tristate;
    (destruct (expr_eq e1 e2); [intros [= <-]; by rewrite expr_copy_id|]);
    repeat (case_match; try done);
    intros; simplify_eq; by apply Hsmall.
Qed.

(** Joining two operands of a chain. *)
Lemma pass_join ty q1 q2 t c e1 e2 tmp :
  in_chain ty q1 t = true -> slot_get q1 t = Some e1 -> is_op ty e1 = false ->
  in_chain ty q2 t = true -> slot_get q2 t = Some e2 -> is_op ty e2 = false -> q1 <> q2 ->
  expr_join ty e1 e2 = Some tmp ->
  pass ty (t, c) (slot_set q2 tmp (slot_set q1 (Sym (unit_sym ty)) t), S c).
Proof.
  intros H1 G1 L1 H2 G2 L2 Hne Hj.
  destruct (join_shape ty e1 e2 tmp L1 Hj) as [Lt St].
  set (u := Sym (unit_sym ty)).
  destruct (get_set_other ty u q1 q2 t e1 e2 H1 G1 L1 H2 G2 L2 Hne) as [H2' G2'].
  pose proof (same_skel_set ty q1 u t e1 H1 G1 L1 (unit_not_op ty)) as K1.
  pose proof (same_skel_set ty q2 tmp _ e2 H2' G2' L2 Lt) as K2.
  split; cbn [fst snd].
  - by eapply same_skel_trans.
  - intros V HV.
    destruct (get_value ty q2 _ e2 H2' G2') as (k & Hk & Hx). rewrite Hx.
    destruct (get_value ty q1 t e1 H1 G1) as (k1 & Hk1 & Hx1).
    rewrite Hx1 in Hk. subst u. rewrite value_unit, opv_unit_r in Hk.
    rewrite Hk1, Hk, (expr_join_sound ty e1 e2 tmp Hj).
    rewrite <- opv_assoc, (opv_comm ty (expr_value e2)). done.
  - pose proof (set_size ty q1 t e1 u H1 G1). pose proof (set_size ty q2 _ e2 tmp H2' G2').
    pose proof (size_pos e2). cbn in *. lia.
  - lia.
  - lia.
  - intros _. by apply (set2_yn_size ty tmp q1 q2 t e1 e2).
Qed.

(** Enough about a slot of a chain to continue with it after a pass. *)
Lemma pass_chain ty st st' q :
  pass ty st st' -> in_chain ty q st.1 = true -> in_chain ty q st'.1 = true.
Proof. intros [K _ _ _ _ _] H. by apply (same_skel_get ty _ _ K). Qed.

Lemma pass_leaf ty st st' q e e' :
  pass ty st st' -> in_chain ty q st.1 = true ->
  slot_get q st.1 = Some e -> slot_get q st'.1 = Some e' -> is_op ty e' = is_op ty e.
Proof.
  intros [K _ _ _ _ _] H G G'. destruct (same_skel_get ty _ _ K q H) as (_ & a & b & Ga & Gb & S).
  rewrite G in Ga. rewrite G' in Gb. simplify_eq. symmetry. by apply same_skel_is_op.
Qed.

Lemma chain_child ty q d t e :
  in_chain ty q t = true -> slot_get q t = Some e -> is_op ty e = true ->
  in_chain ty (q ++ [d]) t = true.
Proof. intros H G (l & r & E)%is_op_true. by apply (in_chain_app ty q d t e l r). Qed.

Lemma dups1_pass n : forall ty q1 q2 st st',
  in_chain ty q1 st.1 = true -> in_chain ty q2 st.1 = true ->
  dups1_fuel n ty q1 q2 st = Some st' -> pass ty st st'.
Proof.
  induction n as [|n IH]; [done|]. intros ty q1 q2 [t c] st' H1 H2. cbn [dups1_fuel fst snd] in *.
  destruct (in_chain_get ty q1 t H1) as [e1 G1]. destruct (in_chain_get ty q2 t H2) as [e2 G2].
  rewrite G1, G2. cbn [mbind option_bind].
  destruct (is_op ty e1) eqn:L1.
  { pose proof (chain_child ty q1 GoL t e1 H1 G1 L1) as HL.
    pose proof (chain_child ty q1 GoR t e1 H1 G1 L1) as HR.
    destruct (dups1_fuel n ty (q1 ++ [GoL]) q2 (t, c)) as [s1|] eqn:E1; [|done]. cbn. intros E2.
    apply IH in E1; [|done..].
    apply IH in E2; [|by eapply pass_chain..]. by eapply pass_trans. }
  destruct (is_op ty e2) eqn:L2.
  { pose proof (chain_child ty q2 GoL t e2 H2 G2 L2) as HL.
    pose proof (chain_child ty q2 GoR t e2 H2 G2 L2) as HR.
    destruct (dups1_fuel n ty q1 (q2 ++ [GoL]) (t, c)) as [s1|] eqn:E1; [|done]. cbn. intros E2.
    apply IH in E1; [|done..].
    apply IH in E2; [|by eapply pass_chain..]. by eapply pass_trans. }
  case_bool_decide as Hq; [intros [= <-]; apply pass_refl|].
  assert (Hnest : forall s1, match op_of e1 with
      | Some ty1 => '(e1', c') ← dups1_fuel n ty1 [] [] (e1, c); Some (slot_set q1 e1' t, c')
      | None => Some (t, c) end = Some s1 -> pass ty (t, c) s1).
  { intros s1. destruct (op_of e1) as [ty1|] eqn:Eop; [|intros [= <-]; apply pass_refl].
    destruct (dups1_fuel n ty1 [] [] (e1, c)) as [[e1' c']|] eqn:E; [|done]. cbn. intros [= <-].
    apply IH in E; [|done..]. by eapply pass_below. }
  destruct (match op_of e1 with Some _ => _ | None => _ end) as [[t1 c1]|]; [|done].
  specialize (Hnest _ eq_refl). cbn.
  assert (H1' : in_chain ty q1 t1 = true) by exact (pass_chain _ _ _ _ Hnest H1).
  assert (H2' : in_chain ty q2 t1 = true) by exact (pass_chain _ _ _ _ Hnest H2).
  destruct (in_chain_get ty q1 t1 H1') as [f1 F1]. destruct (in_chain_get ty q2 t1 H2') as [f2 F2].
  rewrite F1, F2. cbn. intros [= <-].
  destruct (expr_join ty f1 f2) as [tmp|] eqn:Ej; [|done].
  eapply pass_trans; [exact Hnest|]. eapply pass_join; eauto.
  - by rewrite (pass_leaf ty (t, c) (t1, c1) q1 e1 f1 Hnest H1 G1 F1).
  - by rewrite (pass_leaf ty (t, c) (t1, c1) q2 e2 f2 Hnest H2 G2 F2).
Qed.
End Passes.

(** ** The second pass *)

Lemma refines_refl v : refines v v.
Proof. done. Qed.
Lemma refines_trans a b c : refines a b -> refines b c -> refines a c.
Proof. unfold refines. intros H1 H2 Ha. specialize (H1 Ha). subst. auto. Qed.
#[export] Hint Resolve refines_refl refines_trans refines_op : noobs.

Lemma transform_value' `{T : SymTab} {V : Valuation} `{!Consistent V} e :
  expr_value (expr_transform e) = expr_value e.
Proof.
  unfold expr_transform. destruct (transform_fuel _ e) as [e'|] eqn:E; [|done].
  by apply (transform_value _ _ _ E).
Qed.

(** The absorbing value of an operator. *)
Definition zerov (ty : bop) : tristate := EXPR_NOT (unitv ty).
Definition other (ty : bop) : bop := match ty with OAnd => OOr | OOr => OAnd end.

(** [e1] (of type [other ty]) and [e2] together never decide a chain of [ty]. *)
Lemma absorbs_value `{T : SymTab} {V : Valuation} `{!Consistent V} ty e1 e2 :
  dups2_absorbs (other ty) e1 e2 = true ->
  opv ty (expr_value e1) (expr_value e2) = zerov ty \/
  opv ty (expr_value e1) (expr_value e2) = Tmod.
Proof.
  unfold dups2_absorbs. rewrite !expr_copy_id.
  destruct ty; cbn [other].
  - destruct (expr_extract_eq_and _ e2) as [[tmp t1] t2] eqn:E. cbn. destruct t1; try done.
    intros ->%Nat.eqb_eq.
    apply extract_eq_ty_value in E as [H1 H2]. rewrite transform_value' in H1.
    cbn in H1, H2. rewrite k_yes in H1.
    destruct (oval OAnd tmp), (expr_value e1), (expr_value e2), (expr_value t2);
      cbn in *; intuition discriminate.
  - destruct (expr_extract_eq_or _ e2) as [[tmp t1] t2] eqn:E. cbn. destruct t1; try done.
    intros ->%Nat.eqb_eq.
    apply extract_eq_ty_value in E as [H1 H2]. rewrite transform_value' in H1.
    cbn in H1, H2. rewrite k_no in H1.
    destruct (oval OOr tmp), (expr_value e1), (expr_value e2), (expr_value t2);
      cbn in *; intuition discriminate.
Qed.

Definition zero_sym (ty : bop) : symref := match ty with OAnd => symbol_no | OOr => symbol_yes end.
Lemma zero_value {V : Valuation} `{!Constants V} ty : expr_value (Sym (zero_sym ty)) = zerov ty.
Proof. destruct ty; cbn; [apply k_no|apply k_yes]. Qed.

Section Dups2.
Context `{T : SymTab}.
Abbreviation pass2 := (pass refines).

Ltac rel := auto with noobs.

Lemma pass_absorb ty q1 q2 t c e1 e2 :
  in_chain ty q1 t = true -> slot_get q1 t = Some e1 -> op_of e1 = Some (other ty) ->
  in_chain ty q2 t = true -> slot_get q2 t = Some e2 ->
  dups2_absorbs (other ty) e1 e2 = true ->
  pass2 ty (t, c) (slot_set q1 (Sym (zero_sym ty)) t, S c).
Proof.
  intros H1 G1 Hop H2 G2 Hab.
  assert (L1 : is_op ty e1 = false) by (apply op_of_Some in Hop as (l & r & ->); by destruct ty).
  assert (S1 : (3 <= expr_size e1)%nat).
  { apply op_of_Some in Hop as (l & r & ->). rewrite size_mk.
    pose proof (size_pos l). pose proof (size_pos r). lia. }
  pose proof (set_size ty q1 t e1 (Sym (zero_sym ty)) H1 G1) as Hs. cbn [expr_size] in Hs.
  split; cbn [fst snd]; try lia.
  - eapply same_skel_set; eauto.
  - intros V HV. destruct (get_value ty q1 t e1 H1 G1) as (k & Hk & Hx). rewrite Hx, zero_value.
    destruct (get_value ty q2 t e2 H2 G2) as (k2 & Hk2 & _).
    pose proof (absorbs_value ty e1 e2 Hab) as Ha. unfold refines.
    destruct ty, k, k2, (expr_value t), (expr_value e1), (expr_value e2); cbn in *;
      intuition (discriminate || congruence).
  - intros _. pose proof (eliminate_yn_size (slot_set q1 (Sym (zero_sym ty)) t)). lia.
Qed.

Lemma op_of_other ty e ty1 : op_of e = Some ty1 -> is_op ty e = false -> ty1 = other ty.
Proof. destruct e, ty; cbn; intros [= <-]; done. Qed.

Lemma dups2_pass n : forall ty q1 q2 st st',
  in_chain ty q1 st.1 = true -> in_chain ty q2 st.1 = true ->
  dups2_fuel n ty q1 q2 st = Some st' -> pass2 ty st st'.
Proof.
  induction n as [|n IH]; [done|]. intros ty q1 q2 [t c] st' H1 H2. cbn [dups2_fuel fst snd] in *.
  destruct (in_chain_get ty q1 t H1) as [e1 G1]. destruct (in_chain_get ty q2 t H2) as [e2 G2].
  rewrite G1, G2. cbn [mbind option_bind].
  destruct (is_op ty e1) eqn:L1.
  { pose proof (chain_child ty q1 GoL t e1 H1 G1 L1) as HL.
    pose proof (chain_child ty q1 GoR t e1 H1 G1 L1) as HR.
    destruct (dups2_fuel n ty (q1 ++ [GoL]) q2 (t, c)) as [s1|] eqn:E1; [|done]. cbn. intros E2.
    apply IH in E1; [|done..].
    apply IH in E2; [|by eapply pass_chain..]. eapply pass_trans; eauto with noobs. }
  assert (Hwalk : forall s1, (if is_op ty e2 then
        st ← dups2_fuel n ty q1 (q2 ++ [GoL]) (t, c); dups2_fuel n ty q1 (q2 ++ [GoR]) st
      else Some (t, c)) = Some s1 -> pass2 ty (t, c) s1).
  { intros s1. destruct (is_op ty e2) eqn:L2; [|intros [= <-]; apply pass_refl; rel].
    pose proof (chain_child ty q2 GoL t e2 H2 G2 L2) as HL.
    pose proof (chain_child ty q2 GoR t e2 H2 G2 L2) as HR.
    destruct (dups2_fuel n ty q1 (q2 ++ [GoL]) (t, c)) as [s|] eqn:E1; [|done]. cbn. intros E2.
    apply IH in E1; [|done..].
    apply IH in E2; [|by eapply pass_chain..]. eapply pass_trans; eauto with noobs. }
  destruct (if is_op ty e2 then _ else _) as [[t1 c1]|]; [|done]. cbn.
  specialize (Hwalk _ eq_refl).
  case_bool_decide as Hq; [intros [= <-]; done|].
  assert (H1' : in_chain ty q1 t1 = true) by exact (pass_chain _ _ _ _ _ Hwalk H1).
  destruct (in_chain_get ty q1 t1 H1') as [f1 F1]. rewrite F1. cbn.
  destruct (op_of f1) as [ty1|] eqn:Eop; [|intros [= <-]; done].
  assert (Lf : is_op ty f1 = false) by (by rewrite (pass_leaf _ ty (t, c) (t1, c1) q1 e1 f1 Hwalk H1 G1 F1)).
  destruct (dups2_fuel n ty1 [] [] (f1, c1)) as [[g1 c2]|] eqn:En; [|done]. cbn.
  apply IH in En; [|done..].
  pose proof En as [Kg _ _ _ _ _]. cbn [fst] in Kg.
  destruct (pass_below refines refines_op ty ty1 q1 t1 c1 f1 g1 c2 H1' F1 Lf Eop En) as [Lg Hb].
  assert (Hall : pass2 ty (t, c) (slot_set q1 g1 t1, c2)) by (eapply pass_trans; eauto with noobs).
  destruct (slot_get q2 (slot_set q1 g1 t1)) as [f2|] eqn:F2; [|done]. cbn. intros [= <-].
  pose proof (op_of_other ty f1 ty1 Eop Lf) as ->.
  destruct (dups2_absorbs (other ty) g1 f2) eqn:Ea; [|done].
  eapply pass_trans; [exact refines_refl|exact refines_trans|exact Hall|].
  replace (match other ty with OOr => symbol_no | OAnd => symbol_yes end) with (zero_sym ty) by by destruct ty.
  assert (G1' : slot_get q1 (slot_set q1 g1 t1) = Some g1).
  { clear -H1' F1. revert t1 f1 H1' F1.
    induction q1 as [|d q IH]; intros t f H F; [done|]. chain_cons H. destruct d; rewrite slot_get_mk; eauto. }
  eapply pass_absorb; [|exact G1'| |exact (pass_chain _ _ _ _ _ Hall H2)|exact F2|exact Ea].
  - exact (pass_chain _ _ _ _ _ Hall H1).
  - apply op_of_Some in Eop as (l & r & ->). apply same_skel_is_op in Kg. rewrite is_op_mk in Kg.
    symmetry in Kg. apply is_op_true in Kg as (l' & r' & ->). by destruct ty.
Qed.
End Dups2.

(** ** The recursion of the passes ends *)

Fixpoint skel_depth (ty : bop) (e : expr) : nat :=
  match e, ty with
  | And l r, OAnd | Or l r, OOr => S (Nat.max (skel_depth ty l) (skel_depth ty r))
  | _, _ => 0
  end.

Lemma skel_depth_mk ty l r :
  skel_depth ty (mk ty l r) = S (Nat.max (skel_depth ty l) (skel_depth ty r)).
Proof. by destruct ty. Qed.
Lemma skel_depth_leaf ty e : is_op ty e = false -> skel_depth ty e = 0%nat.
Proof. by destruct e, ty. Qed.
Lemma skel_depth_size ty e : (skel_depth ty e < expr_size e)%nat.
Proof.
  induction e as [e He|l r IHl IHr] using (chain_ind ty).
  - rewrite skel_depth_leaf by done. apply size_pos.
  - rewrite skel_depth_mk, size_mk. lia.
Qed.
Lemma skel_depth_same ty a b : same_skel ty a b -> skel_depth ty a = skel_depth ty b.
Proof. induction 1; [by rewrite !skel_depth_leaf|by rewrite !skel_depth_mk, IHsame_skel1, IHsame_skel2]. Qed.

(** The depth below a slot of the state's tree. *)
Definition depth_at (ty : bop) (q : slot) (t : expr) : nat :=
  match slot_get q t with Some e => skel_depth ty e | None => 0 end.

Lemma depth_at_child ty q d t e :
  in_chain ty q t = true -> slot_get q t = Some e -> is_op ty e = true ->
  in_chain ty (q ++ [d]) t = true /\ (depth_at ty (q ++ [d]) t < depth_at ty q t)%nat.
Proof.
  intros H G (l & r & ->)%is_op_true.
  destruct (in_chain_app ty q d t _ l r H G eq_refl) as [H' G'].
  split; [done|]. unfold depth_at. rewrite G, G', skel_depth_mk. destruct d; lia.
Qed.

Lemma depth_at_same ty q t t' :
  same_skel ty t t' -> in_chain ty q t = true -> depth_at ty q t' = depth_at ty q t.
Proof.
  intros K H. destruct (same_skel_get ty t t' K q H) as (_ & e & e' & G & G' & S).
  unfold depth_at. rewrite G, G'. symmetry. by apply skel_depth_same.
Qed.

(** A leaf slot other than the root holds a smaller tree. *)
Lemma leaf_smaller ty q t e :
  in_chain ty q t = true -> slot_get q t = Some e -> q <> [] -> (expr_size e < expr_size t)%nat.
Proof.
  revert t e. induction q as [|d q IH]; intros t e H G Hne; [done|]. clear Hne. chain_cons H.
  destruct q as [|d' q].
  - cbn in G. injection G as <-. rewrite size_mk. destruct d; lia.
  - specialize (IH _ e H G ltac:(done)). rewrite size_mk. destruct d; lia.
Qed.

Lemma root_only ty q1 q2 t e :
  in_chain ty q2 t = true -> slot_get q1 t = Some e -> is_op ty e = false -> q1 <> q2 -> q1 <> [].
Proof.
  intros H2 G L Hne ->. injection G as ->. destruct q2; [done|].
  apply in_chain_cons in H2 as (l & r & -> & _). by rewrite is_op_mk in L.
Qed.

(** [P n q1 q2 t]: the pass with fuel [n] gives a result and is a [pass]; the
    common part of the two termination proofs. *)
Section Total.
Context `{T : SymTab}.
Variable f : nat -> bop -> slot -> slot -> dstate -> option dstate.
Hypothesis f_pass : forall n ty q1 q2 st st',
  in_chain ty q1 st.1 = true -> in_chain ty q2 st.1 = true ->
  f n ty q1 q2 st = Some st' -> pass refines ty st st'.

(** Two calls on the children of the slot [q] in turn, via [g]. *)
Lemma two_calls ty (g : slot -> dstate -> option dstate) q qo st :
  (forall d s1, d = GoL \/ d = GoR -> same_skel ty st.1 s1.1 -> (expr_size s1.1 <= expr_size st.1)%nat ->
     exists s2, g (q ++ [d]) s1 = Some s2 /\ pass refines ty s1 s2) ->
  in_chain ty qo st.1 = true ->
  exists s2, (s ← g (q ++ [GoL]) st; g (q ++ [GoR]) s) = Some s2 /\ pass refines ty st s2.
Proof.
  intros Hg _. destruct (Hg GoL st) as (s1 & -> & P1); [by left|apply same_skel_refl|done|]. cbn.
  destruct (Hg GoR s1) as (s2 & -> & P2); [by right|apply (ps_skel _ _ _ _ P1)|apply (ps_size _ _ _ _ P1)|].
  exists s2. split; [done|]. eapply pass_trans; [exact refines_refl|exact refines_trans|done|done].
Qed.
End Total.

Section Terminates.
Context `{T : SymTab}.

Lemma dups1_pass_refines n ty q1 q2 st st' :
  in_chain ty q1 st.1 = true -> in_chain ty q2 st.1 = true ->
  dups1_fuel n ty q1 q2 st = Some st' -> pass refines ty st st'.
Proof. apply (dups1_pass refines); eauto with noobs. Qed.

(** [N]: size of the tree; [F]: fuel that suffices for smaller trees. *)
Lemma dups1_total_step N F :
  (forall ty e c m, (expr_size e < N)%nat -> (F <= m)%nat -> is_Some (dups1_fuel m ty [] [] (e, c))) ->
  forall k n ty q1 q2 st,
    in_chain ty q1 st.1 = true -> in_chain ty q2 st.1 = true -> (expr_size st.1 <= N)%nat ->
    (depth_at ty q1 st.1 + depth_at ty q2 st.1 <= k)%nat -> (k + F < n)%nat ->
    exists st', dups1_fuel n ty q1 q2 st = Some st' /\ pass refines ty st st'.
Proof.
  intros Hrec. induction k as [k IHk] using lt_wf_ind. intros [|n] ty q1 q2 [t c] H1 H2 HN Hk Hn; [lia|].
  enough (is_Some (dups1_fuel (S n) ty q1 q2 (t, c))) as [st' E].
  { exists st'. split; [done|]. by apply (dups1_pass_refines _ _ _ _ _ _ H1 H2 E). }
  cbn [dups1_fuel fst snd] in *.
  destruct (in_chain_get ty q1 t H1) as [e1 G1]. destruct (in_chain_get ty q2 t H2) as [e2 G2].
  rewrite G1, G2. cbn [mbind option_bind].
  destruct (is_op ty e1) eqn:L1.
  { edestruct (two_calls ty (fun q => dups1_fuel n ty q q2) q1 q1 (t, c)) as (s2 & E & _);
      [|exact H1|exact (mk_is_Some _ _ E)]. cbn [fst].
    intros d [t1 c1] _ K S1. cbn [fst] in *.
    destruct (depth_at_child ty q1 d t e1 H1 G1 L1) as [Hc Hd].
    apply (IHk (depth_at ty (q1 ++ [d]) t + depth_at ty q2 t)%nat); cbn [fst];
      rewrite ?(depth_at_same ty _ t t1 K) by done; try lia.
    - by apply (same_skel_get ty t t1 K).
    - by apply (same_skel_get ty t t1 K). }
  destruct (is_op ty e2) eqn:L2.
  { edestruct (two_calls ty (fun q => dups1_fuel n ty q1 q) q2 q1 (t, c)) as (s2 & E & _);
      [|exact H1|exact (mk_is_Some _ _ E)]. cbn [fst].
    intros d [t1 c1] _ K S1. cbn [fst] in *.
    destruct (depth_at_child ty q2 d t e2 H2 G2 L2) as [Hc Hd].
    apply (IHk (depth_at ty q1 t + depth_at ty (q2 ++ [d]) t)%nat); cbn [fst];
      rewrite ?(depth_at_same ty _ t t1 K) by done; try lia.
    - by apply (same_skel_get ty t t1 K).
    - by apply (same_skel_get ty t t1 K). }
  case_bool_decide as Hq; [eauto|].
  match goal with |- context [mbind _ ?m] =>
    assert (Hnest : exists s1, m = Some s1 /\ pass refines ty (t, c) s1) end.
  { destruct (op_of e1) as [ty1|] eqn:Eop; [|exists (t, c); split; [done|by apply pass_refl]].
    pose proof (leaf_smaller ty q1 t e1 H1 G1 (root_only ty q1 q2 t e1 H2 G1 L1 Hq)).
    destruct (Hrec ty1 e1 c n) as [[e1' c'] E]; [lia|lia|]. rewrite E. cbn. eexists. split; [done|].
    apply dups1_pass_refines in E; [|done..]. by eapply (pass_below refines refines_op). }
  destruct Hnest as ([t1 c1] & -> & P). cbn.
  destruct (in_chain_get ty q1 t1 (pass_chain _ _ _ _ _ P H1)) as [f1 ->].
  destruct (in_chain_get ty q2 t1 (pass_chain _ _ _ _ _ P H2)) as [f2 ->]. cbn. eauto.
Qed.

Lemma dups2_total_step N F :
  (forall ty e c m, (expr_size e < N)%nat -> (F <= m)%nat -> is_Some (dups2_fuel m ty [] [] (e, c))) ->
  forall k n ty q1 q2 st,
    in_chain ty q1 st.1 = true -> in_chain ty q2 st.1 = true -> (expr_size st.1 <= N)%nat ->
    (depth_at ty q1 st.1 + depth_at ty q2 st.1 <= k)%nat -> (k + F < n)%nat ->
    exists st', dups2_fuel n ty q1 q2 st = Some st' /\ pass refines ty st st'.
Proof.
  intros Hrec. induction k as [k IHk] using lt_wf_ind. intros [|n] ty q1 q2 [t c] H1 H2 HN Hk Hn; [lia|].
  enough (is_Some (dups2_fuel (S n) ty q1 q2 (t, c))) as [st' E].
  { exists st'. split; [done|]. by apply (dups2_pass _ _ _ _ _ _ H1 H2 E). }
  cbn [dups2_fuel fst snd] in *.
  destruct (in_chain_get ty q1 t H1) as [e1 G1]. destruct (in_chain_get ty q2 t H2) as [e2 G2].
  rewrite G1, G2. cbn [mbind option_bind].
  destruct (is_op ty e1) eqn:L1.
  { edestruct (two_calls ty (fun q => dups2_fuel n ty q q2) q1 q1 (t, c)) as (s2 & E & _);
      [|exact H1|exact (mk_is_Some _ _ E)]. cbn [fst].
    intros d [t1 c1] _ K S1. cbn [fst] in *.
    destruct (depth_at_child ty q1 d t e1 H1 G1 L1) as [Hc Hd].
    apply (IHk (depth_at ty (q1 ++ [d]) t + depth_at ty q2 t)%nat); cbn [fst];
      rewrite ?(depth_at_same ty _ t t1 K) by done; try lia.
    - by apply (same_skel_get ty t t1 K).
    - by apply (same_skel_get ty t t1 K). }
  match goal with |- context [mbind _ ?m] =>
    assert (Hwalk : exists s1, m = Some s1 /\ pass refines ty (t, c) s1) end.
  { destruct (is_op ty e2) eqn:L2; [|exists (t, c); split; [done|by apply pass_refl]].
    apply (two_calls ty (fun q => dups2_fuel n ty q1 q) q2 q1 (t, c)); [|exact H1]. cbn [fst].
    intros d [t1 c1] _ K S1. cbn [fst] in *.
    destruct (depth_at_child ty q2 d t e2 H2 G2 L2) as [Hc Hd].
    apply (IHk (depth_at ty q1 t + depth_at ty (q2 ++ [d]) t)%nat); cbn [fst];
      rewrite ?(depth_at_same ty _ t t1 K) by done; try lia.
    - by apply (same_skel_get ty t t1 K).
    - by apply (same_skel_get ty t t1 K). }
  destruct Hwalk as ([t1 c1] & -> & P). cbn.
  case_bool_decide as Hq; [eauto|].
  pose proof (pass_chain _ _ _ _ _ P H1) as H1'. pose proof (pass_chain _ _ _ _ _ P H2) as H2'.
  cbn [fst] in H1', H2'.
  destruct (in_chain_get ty q1 t1 H1') as [f1 F1]. rewrite F1. cbn.
  destruct (op_of f1) as [ty1|] eqn:Eop; [|eauto].
  assert (Lf : is_op ty f1 = false) by (by rewrite (pass_leaf _ ty (t, c) (t1, c1) q1 e1 f1 P H1 G1 F1)).
  pose proof (leaf_smaller ty q1 t1 f1 H1' F1 (root_only ty q1 q2 t1 f1 H2' F1 Lf Hq)).
  pose proof (ps_size _ _ _ _ P) as Hs. cbn [fst] in Hs.
  destruct (Hrec ty1 f1 c1 n) as [[g1 c2] E]; [lia|lia|]. rewrite E. cbn.
  apply dups2_pass in E; [|done..].
  destruct (pass_below refines refines_op ty ty1 q1 t1 c1 f1 g1 c2 H1' F1 Lf Eop E) as [_ Pb].
  destruct (in_chain_get ty q2 _ (pass_chain _ _ _ _ _ Pb H2')) as [f2 F2]. cbn [fst] in F2.
  rewrite F2. cbn. eauto.
Qed.

Lemma dups1_total N : forall ty e c n,
  (expr_size e <= N)%nat -> (N * S (S N) <= n)%nat ->
  exists st', dups1_fuel n ty [] [] (e, c) = Some st' /\ pass refines ty (e, c) st'.
Proof.
  induction N as [|N IH]; intros ty e c n HN Hn; [pose proof (size_pos e); lia|].
  pose proof (skel_depth_size ty e).
  apply (dups1_total_step (S N) (N * S (S N)) ) with (k := (2 * N)%nat); cbn [fst]; try done.
  - intros ty' e' c' m He Hm. destruct (IH ty' e' c' m) as (st' & -> & _); [lia|lia|eauto].
  - unfold depth_at. cbn. lia.
  - lia.
Qed.

Lemma dups2_total N : forall ty e c n,
  (expr_size e <= N)%nat -> (N * S (S N) <= n)%nat ->
  exists st', dups2_fuel n ty [] [] (e, c) = Some st' /\ pass refines ty (e, c) st'.
Proof.
  induction N as [|N IH]; intros ty e c n HN Hn; [pose proof (size_pos e); lia|].
  pose proof (skel_depth_size ty e).
  apply (dups2_total_step (S N) (N * S (S N)) ) with (k := (2 * N)%nat); cbn [fst]; try done.
  - intros ty' e' c' m He Hm. destruct (IH ty' e' c' m) as (st' & -> & _); [lia|lia|eauto].
  - unfold depth_at. cbn. lia.
  - lia.
Qed.

(** One round: it gives a result, and either nothing changed or the next round
    starts from a smaller tree. *)
Lemma dups_round_spec e :
  exists e' c, dups_round e = Some (e', c) /\
    (forall V, Consistent V -> refines (expr_value e) (expr_value e')) /\
    (c = 0%nat -> e' = e) /\
    (c <> 0%nat -> (expr_size (expr_eliminate_yn e') < expr_size e)%nat).
Proof.
  unfold dups_round. destruct (op_of e) as [ty|] eqn:Eop.
  2:{ exists e, 0%nat. repeat split; try done. }
  destruct (dups1_total (expr_size e) ty e 0 (dups_bound e)) as ([e1 c1] & E1 & P1);
    [done|unfold dups_bound; lia|].
  rewrite E1. cbn [mbind option_bind fst].
  assert (Eop1 : op_of e1 = Some ty).
  { apply op_of_Some in Eop as (l & r & ->). pose proof (ps_skel _ _ _ _ P1) as K. cbn in K.
    apply same_skel_is_op in K. rewrite is_op_mk in K. symmetry in K.
    apply is_op_true in K as (l' & r' & ->). by destruct ty. }
  rewrite Eop1. pose proof (ps_size _ _ _ _ P1) as Hs. cbn in Hs.
  destruct (dups2_total (expr_size e) ty e1 c1 (dups_bound e)) as ([e2 c2] & E2 & P2);
    [lia|unfold dups_bound; lia|].
  exists e2, c2. rewrite E2. split; [done|].
  assert (P : pass refines ty (e, 0%nat) (e2, c2))
    by (eapply pass_trans; [exact refines_refl|exact refines_trans|done|done]).
  destruct P as [_ Vv _ _ Es El]. cbn in *. repeat split; auto.
  intros Hc. apply El. lia.
Qed.

Lemma dups_loop_spec n : forall e, (expr_size e < n)%nat ->
  exists e', dups_loop n e = Some e' /\
    (forall V, Consistent V -> refines (expr_value e) (expr_value e')) /\
    (expr_size e' <= expr_size e)%nat /\ dups_round e' = Some (e', 0%nat).
Proof.
  induction n as [|n IH]; [lia|]. intros e Hn. cbn [dups_loop].
  destruct (dups_round_spec e) as (e1 & c & E & Hv & H0 & Hlt). rewrite E. cbn [mbind option_bind].
  destruct (Nat.eqb_spec c 0) as [->|Hc].
  - exists e1. rewrite (H0 eq_refl) in *. done.
  - specialize (Hlt Hc). destruct (IH (expr_eliminate_yn e1)) as (e' & E' & Hv' & Hs & Hfix); [lia|].
    exists e'. split; [done|]. split; [|split; [lia|done]].
    intros V HV. specialize (Hv' V HV). rewrite eliminate_yn_value in Hv'.
    eapply refines_trans; eauto.
Qed.
End Terminates.

(** C36. [expr_eliminate_dups] ends (its rounds and recursions stay within the
    bounds used, for every expression and with any more fuel for the rounds),
    never makes the expression larger, stops at an expression none of its rules
    applies to, and keeps every value except [m], under every consistent
    valuation. *)
Theorem expr_eliminate_dups_correct `{T : SymTab} e :
  dups_loop (S (expr_size e)) e = Some (expr_eliminate_dups e) /\
  (expr_size (expr_eliminate_dups e) <= expr_size e)%nat /\
  dups_round (expr_eliminate_dups e) = Some (expr_eliminate_dups e, 0%nat) /\
  (forall V, Consistent V -> expr_value e <> Tmod ->
     expr_value (expr_eliminate_dups e) = expr_value e).
Proof.
  destruct (dups_loop_spec (S (expr_size e)) e) as (e' & E & Hv & Hs & Hf); [lia|].
  unfold expr_eliminate_dups. rewrite E. cbn. repeat split; try done.
Qed.

(** The first pass alone, joining operands pairwise, keeps every value of
    every expression, [m] included. *)
Theorem expr_eliminate_dups1_correct `{T : SymTab} n ty q1 q2 e c e' c' :
  in_chain ty q1 e = true -> in_chain ty q2 e = true ->
  dups1_fuel n ty q1 q2 (e, c) = Some (e', c') ->
  (forall V, Consistent V -> expr_value e' = expr_value e) /\
  (expr_size e' <= expr_size e)%nat /\ (c' = c -> e' = e).
Proof.
  intros H1 H2 E.
  apply (dups1_pass (fun v v' => v' = v)) in E; [|congruence..|by intros ? ? ? ? ->|done|done].
  destruct E as [_ Vv S _ Es _]. done.
Qed.
