(* ===== verification/KExprDemo.v ===== *)
(** A small configuration, [FOO] (boolean), [BAR] and [BAZ] (tristate) and a
    string symbol, with its valuations: the theorems about expressions applied
    to it, and the inputs that show where [expr_eliminate_dups] loses [m]. *)
From S2P Require Import Prelude KExpr KExprFacts KExprDups.

Definition FOO : symref := 3%nat.
Definition BAR : symref := 4%nat.
Definition BAZ : symref := 5%nat.
Definition HOST : symref := 6%nat.

#[export] Instance demo_tab : SymTab := {
  sym_type s := match s with
                | 3%nat => S_BOOLEAN | 4%nat | 5%nat => S_TRISTATE | 6%nat => S_STRING
                | _ => S_UNKNOWN end;
  sym_const s := Nat.ltb s 3;
  sym_name s := match s with
                | 0%nat => Some "y" | 1%nat => Some "m" | 2%nat => Some "n"
                | 3%nat => Some "FOO" | 4%nat => Some "BAR" | 5%nat => Some "BAZ"
                | 6%nat => Some "HOST" | _ => None end;
}.

(** [foo], [bar], [baz]: the values of the three symbols. *)
Definition demo_tri (foo : bool) (bar baz : tristate) (s : symref) : tristate :=
  match s with
  | 0%nat => Tyes | 1%nat => Tmod | 2%nat => Tno
  | 3%nat => if foo then Tyes else Tno | 4%nat => bar | 5%nat => baz
  | _ => Tno
  end.
Definition demo_val (foo : bool) (bar baz : tristate) : Valuation := {|
  vtri := demo_tri foo bar baz;
  vstr s := if Nat.leb s 5 then tri_str (demo_tri foo bar baz s) else "localhost";
|}.

Lemma demo_consistent foo bar baz : Consistent (demo_val foo bar baz).
Proof.
  split; [done|done|done|..].
  - intros [|[|[|[|[|[|[|s]]]]]]]; cbn; try done. by destruct foo.
  - intros [|[|[|[|[|[|[|s]]]]]]]; cbn; done.
  - intros [|[|[|a]]] [|[|[|b]]]; cbn; done.
Defined.

Lemma demo_const_types : ConstTypes.
Proof. intros s H. destruct s as [|[|[|s]]]; cbn; try done. Defined.

(** [FOO && (BAR || FOO)] and the same operands in another order. *)
Definition demo1 : expr := And (Sym FOO) (Or (Sym BAR) (Sym BAZ)).
Definition demo2 : expr := And (Or (Sym BAZ) (Sym BAR)) (Sym FOO).

(** ** Witnesses *)

Lemma expr_eq_sound_witness :
  expr_eq demo1 demo2 = true /\
  @expr_value (demo_val true Tmod Tno) demo1 = @expr_value (demo_val true Tmod Tno) demo2.
Proof.
  split; [reflexivity|]. apply (expr_eq_sound demo1 demo2); [reflexivity|].
  apply consistent_constants, demo_consistent.
Defined.

Lemma expr_eq_terminates_witness : expr_eq_fuel 100 demo1 demo2 = expr_eq demo1 demo2.
Proof. apply (expr_eq_terminates demo1 demo2 100). cbn. lia. Defined.

(** [!(FOO && BAR!=n)] is pushed down to [!FOO || BAR=n]. *)
Lemma expr_transform_correct_witness :
  expr_transform (Not (And (Sym FOO) (Unequal BAR symbol_no)))
    = Or (Not (Sym FOO)) (Equal BAR symbol_no) /\
  nnf (expr_transform (Not (And (Sym FOO) (Unequal BAR symbol_no)))) = true.
Proof. split; [reflexivity|]. apply (expr_transform_correct _ demo_const_types). Defined.

(** [BAR=y || BAR=m] is joined to [BAR!=n]. *)
Lemma expr_join_correct_witness :
  @expr_value (demo_val true Tmod Tno) (Unequal BAR symbol_no)
  = @expr_value (demo_val true Tmod Tno) (Or (Equal BAR symbol_yes) (Equal BAR symbol_mod)).
Proof.
  apply (expr_join_correct OOr (Equal BAR symbol_yes) (Equal BAR symbol_mod)); [reflexivity|].
  apply demo_consistent.
Defined.

Lemma expr_extract_eq_correct_witness :
  expr_extract_eq_and (And (Sym FOO) (Sym BAR)) (And (Sym BAZ) (Sym FOO))
    = (Some (Sym FOO), Sym BAR, Sym BAZ) /\
  @expr_value (demo_val true Tmod Tno) (And (Sym FOO) (Sym BAR))
    = EXPR_AND (@expr_value (demo_val true Tmod Tno) (Sym FOO)) (@expr_value (demo_val true Tmod Tno) (Sym BAR)).
Proof.
  split; [reflexivity|].
  apply (expr_extract_eq_correct OAnd _ (And (Sym BAZ) (Sym FOO)) (Some (Sym FOO)) _ (Sym BAZ));
    [reflexivity|]. apply consistent_constants, demo_consistent.
Defined.

Lemma expr_contains_symbol_sound_witness :
  @expr_value (demo_val true Tmod Tno) (Not (Sym BAR)) = @expr_value (demo_val false Tmod Tno) (Not (Sym BAR)).
Proof.
  apply (expr_contains_symbol_sound (Not (Sym BAR)) FOO); [reflexivity|].
  intros [|[|[|[|[|[|a]]]]]] Ha; cbn in *; solve [done | by destruct Ha].
Defined.

Lemma expr_depends_symbol_sound_witness :
  @expr_value (demo_val false Tyes Tyes) demo1 = Tno.
Proof.
  apply (expr_depends_symbol_sound demo1 FOO); [reflexivity|by left|apply demo_consistent|reflexivity].
Defined.

Lemma expr_trans_bool_truth_witness :
  @expr_value (demo_val true Tno Tno) (And (Sym FOO) (Unequal BAR symbol_no)) = Tno.
Proof.
  apply (expr_trans_bool_truth (And (Sym FOO) (Unequal BAR symbol_no)));
    [reflexivity|apply demo_consistent|reflexivity].
Defined.

Lemma expr_trans_compare_correct_witness :
  exists t, trans_compare demo1 true symbol_no = Some t /\
    @expr_value (demo_val true Tyes Tno) t = EXPR_NOT (@expr_value (demo_val true Tyes Tno) demo1).
Proof.
  destruct (expr_trans_compare_correct demo1 true false) as (t & E & H);
    [cbn; auto|]. exists t. split; [exact E|].
  apply (H _ (demo_consistent true Tyes Tno)).
  intros [|[|[|[|[|[|[|s]]]]]]]; cbn; intros [|]; done.
Defined.

(** The first pass joins [FOO && FOO] to [y && FOO]. *)
Lemma expr_eliminate_dups1_correct_witness :
  dups1_fuel 9 OAnd [] [] (And (Sym FOO) (Sym FOO), 0%nat)
    = Some (And (Sym symbol_yes) (Sym FOO), 1%nat) /\
  (expr_size (And (Sym symbol_yes) (Sym FOO)) <= 3)%nat.
Proof.
  split; [reflexivity|].
  apply (expr_eliminate_dups1_correct 9 OAnd [] [] (And (Sym FOO) (Sym FOO)) 0 _ 1); reflexivity.
Defined.

Definition demo_dup : expr := And (And (Sym FOO) (Sym BAR)) (Or (Sym FOO) (Not (Sym FOO))).
Lemma expr_eliminate_dups_correct_witness :
  expr_eliminate_dups demo_dup = And (Sym FOO) (Sym BAR) /\
  @expr_value (demo_val true Tyes Tno) (expr_eliminate_dups demo_dup)
    = @expr_value (demo_val true Tyes Tno) demo_dup.
Proof.
  split; [vm_compute; reflexivity|].
  apply (expr_eliminate_dups_correct demo_dup); [apply demo_consistent|by vm_compute].
Defined.

(** ** Where the second pass loses [m] *)

(** With [BAR=m] and [BAZ=n], [(BAR || BAZ) && !BAR && !BAZ] is [m] before and
    [n] after: [!(BAR || BAZ)] being contained in the rest does not make the
    conjunction [n] in three-valued logic. *)
Definition demo_lost : expr := And (Or (Sym BAR) (Sym BAZ)) (And (Not (Sym BAR)) (Not (Sym BAZ))).
Lemma expr_eliminate_dups_loses_m :
  @expr_value (demo_val true Tmod Tno) demo_lost = Tmod /\
  @expr_value (demo_val true Tmod Tno) (expr_eliminate_dups demo_lost) = Tno.
Proof. split; by vm_compute. Qed.

(** A conjunction compared with [m] by [expr_trans_compare] is left as it is:
    [(BAR && BAZ) = m] becomes [BAR && BAZ], which is [y] where the comparison
    is false. *)
Lemma expr_trans_compare_mod :
  trans_compare (And (Sym BAR) (Sym BAZ)) true symbol_mod = Some (And (Sym BAR) (Sym BAZ)) /\
  @expr_value (demo_val true Tyes Tyes) (And (Sym BAR) (Sym BAZ)) = Tyes.
Proof. split; reflexivity. Qed.
