(* ===== verification/KSym.v ===== *)
(** Symbols of the configuration tool (src/buildroot/support/kconfig/symbol.c):
    the heap of [struct symbol], the calculation of values, setting values, the
    symbol table, string expansion and the search for recursive dependencies.

    A routine is a program of the monad [KM] over the whole state.  [Fault] is a
    null or stale pointer followed; [NoFuel] cannot occur once the fuel exceeds
    the potential of KSymFacts. *)
From S2P Require Import Prelude CText KExpr.

(** ** Data (expr.h) *)

(** A [void *] that points to text or to a symbol; texts are told apart by where
    they are stored, as pointer comparison does. *)
Inductive loc := LEmpty | LName (s : symref) | LHeap (n : nat).
#[export] Instance loc_eq_dec : EqDecision loc.
Proof. solve_decision. Defined.
Inductive sval := VNull | VStr (l : loc) (s : string) | VSym (s : symref).
#[export] Instance sval_eq_dec : EqDecision sval.
Proof. solve_decision. Defined.

Record symbol_value := { val : sval; tri : tristate }.
#[export] Instance symbol_value_eq_dec : EqDecision symbol_value.
Proof. solve_decision. Defined.

Inductive prop_type :=
  P_UNKNOWN | P_PROMPT | P_COMMENT | P_MENU | P_DEFAULT | P_CHOICE | P_SELECT | P_RANGE | P_ENV | P_SYMBOL.
#[export] Instance prop_type_eq_dec : EqDecision prop_type.
Proof. solve_decision. Defined.

Record property := {
  p_type : prop_type;
  p_text : option string;
  p_visible : option expr;      (* visible.expr *)
  p_visible_tri : tristate;     (* visible.tri *)
  p_expr : option prop_expr;
  p_menu : option nat;
}.

Record symbol := {
  name : option string;
  type : symbol_type;
  curr : symbol_value;
  def_user : symbol_value;      (* def[S_DEF_USER] *)
  def_auto : symbol_value;      (* def[S_DEF_AUTO] *)
  visible : tristate;
  flags : Z;
  prop : list property;
  dir_dep : option expr;
  dir_dep_tri : tristate;
  rev_dep : option expr;
  rev_dep_tri : tristate;
}.

Definition SYMBOL_CONST : Z := 0x0001.
Definition SYMBOL_CHECK : Z := 0x0008.
Definition SYMBOL_CHOICE : Z := 0x0010.
Definition SYMBOL_CHOICEVAL : Z := 0x0020.
Definition SYMBOL_VALID : Z := 0x0080.
Definition SYMBOL_OPTIONAL : Z := 0x0100.
Definition SYMBOL_WRITE : Z := 0x0200.
Definition SYMBOL_CHANGED : Z := 0x0400.
Definition SYMBOL_AUTO : Z := 0x1000.
Definition SYMBOL_CHECKED : Z := 0x2000.
Definition SYMBOL_WARNED : Z := 0x8000.
Definition SYMBOL_DEF : Z := 0x10000.
Definition SYMBOL_DEF_USER : Z := 0x10000.
Definition SYMBOL_DEF_AUTO : Z := 0x20000.
Definition SYMBOL_NEED_SET_CHOICE_VALUES : Z := 0x100000.
Definition SYMBOL_MAXLENGTH : nat := 256.
Definition SYMBOL_HASHSIZE : Z := 9973.

(** [flags & f], [flags |= f], [flags &= ~f]. *)
Definition has (f x : Z) : bool := negb (Z.land x f =? 0).
Definition set_bits (f x : Z) : Z := Z.lor x f.
Definition clear_bits (f x : Z) : Z := Z.land x (Z.lnot f).

Definition set_name_type (t : symbol_type) (y : symbol) : symbol :=
  {| name := name y; type := t; curr := curr y; def_user := def_user y; def_auto := def_auto y;
     visible := visible y; flags := flags y; prop := prop y; dir_dep := dir_dep y;
     dir_dep_tri := dir_dep_tri y; rev_dep := rev_dep y; rev_dep_tri := rev_dep_tri y |}.
Definition set_curr (v : symbol_value) (y : symbol) : symbol :=
  {| name := name y; type := type y; curr := v; def_user := def_user y; def_auto := def_auto y;
     visible := visible y; flags := flags y; prop := prop y; dir_dep := dir_dep y;
     dir_dep_tri := dir_dep_tri y; rev_dep := rev_dep y; rev_dep_tri := rev_dep_tri y |}.
Definition set_def_user (v : symbol_value) (y : symbol) : symbol :=
  {| name := name y; type := type y; curr := curr y; def_user := v; def_auto := def_auto y;
     visible := visible y; flags := flags y; prop := prop y; dir_dep := dir_dep y;
     dir_dep_tri := dir_dep_tri y; rev_dep := rev_dep y; rev_dep_tri := rev_dep_tri y |}.
Definition set_def_auto (v : symbol_value) (y : symbol) : symbol :=
  {| name := name y; type := type y; curr := curr y; def_user := def_user y; def_auto := v;
     visible := visible y; flags := flags y; prop := prop y; dir_dep := dir_dep y;
     dir_dep_tri := dir_dep_tri y; rev_dep := rev_dep y; rev_dep_tri := rev_dep_tri y |}.
Definition set_visible (t : tristate) (y : symbol) : symbol :=
  {| name := name y; type := type y; curr := curr y; def_user := def_user y; def_auto := def_auto y;
     visible := t; flags := flags y; prop := prop y; dir_dep := dir_dep y;
     dir_dep_tri := dir_dep_tri y; rev_dep := rev_dep y; rev_dep_tri := rev_dep_tri y |}.
Definition set_flags (f : Z -> Z) (y : symbol) : symbol :=
  {| name := name y; type := type y; curr := curr y; def_user := def_user y; def_auto := def_auto y;
     visible := visible y; flags := f (flags y); prop := prop y; dir_dep := dir_dep y;
     dir_dep_tri := dir_dep_tri y; rev_dep := rev_dep y; rev_dep_tri := rev_dep_tri y |}.
Definition set_prop (ps : list property) (y : symbol) : symbol :=
  {| name := name y; type := type y; curr := curr y; def_user := def_user y; def_auto := def_auto y;
     visible := visible y; flags := flags y; prop := ps; dir_dep := dir_dep y;
     dir_dep_tri := dir_dep_tri y; rev_dep := rev_dep y; rev_dep_tri := rev_dep_tri y |}.
Definition set_dir_tri (t : tristate) (y : symbol) : symbol :=
  {| name := name y; type := type y; curr := curr y; def_user := def_user y; def_auto := def_auto y;
     visible := visible y; flags := flags y; prop := prop y; dir_dep := dir_dep y;
     dir_dep_tri := t; rev_dep := rev_dep y; rev_dep_tri := rev_dep_tri y |}.
Definition set_rev_tri (t : tristate) (y : symbol) : symbol :=
  {| name := name y; type := type y; curr := curr y; def_user := def_user y; def_auto := def_auto y;
     visible := visible y; flags := flags y; prop := prop y; dir_dep := dir_dep y;
     dir_dep_tri := dir_dep_tri y; rev_dep := rev_dep y; rev_dep_tri := t |}.
Definition set_prop_tri (t : tristate) (p : property) : property :=
  {| p_type := p_type p; p_text := p_text p; p_visible := p_visible p; p_visible_tri := t;
     p_expr := p_expr p; p_menu := p_menu p |}.

(** What the routines report: a warning about unmet dependencies ([e], the
    symbol, its [dir_dep]), and the lines of a recursive dependency. *)
Inductive dep_kind := DepValue (t : prop_type) | DepDepends | DepChoiceContains | DepPartOf | DepSelected.
Inductive kevent :=
| UnmetDep (e : option expr) (s : symref) (dep : option expr)
| RecursiveDep (lines : list (symref * dep_kind * symref))
| UnexpectedRecursion
| Warning (text : string).

(** An entry of [dep_stack]: the symbol, the property looked at (its place in
    the list) and whether [expr] is set. *)
Record dep_stack := { ds_sym : symref; ds_prop : option nat; ds_expr : bool }.

(** Where the prompt of a menu entry is: a property of its symbol, or one of its
    own (a menu or comment without symbol). *)
Inductive prompt_ref := POf (s : symref) (i : nat) | POwn (p : property).

Definition menuref := nat.
Record menu := {
  m_next : option menuref;
  m_parent : option menuref;
  m_list : option menuref;
  m_sym : option symref;
  m_prompt : option prompt_ref;
  m_visibility : option expr;
  m_dep : option expr;
  m_flags : Z;
  m_help : option string;
}.
Definition MENU_CHANGED : Z := 0x0001.
Definition MENU_ROOT : Z := 0x0002.
Definition mark_menu (m : menu) : menu :=
  {| m_next := m_next m; m_parent := m_parent m; m_list := m_list m; m_sym := m_sym m;
     m_prompt := m_prompt m; m_visibility := m_visibility m; m_dep := m_dep m;
     m_flags := set_bits MENU_CHANGED (m_flags m); m_help := m_help m |}.

Record kstate := {
  syms : gmap symref symbol;
  symbol_hash : gmap Z (list symref);
  modules_sym : option symref;
  modules_val : tristate;
  menus : gmap menuref menu;
  sym_change_count : Z;
  next_sym : symref;
  next_loc : nat;
  check_top : list dep_stack;      (* the top first *)
  sym_env_list : list symref;
  log : list kevent;               (* the latest first *)
  conf_warnings : Z;
  conf_unsaved : Z;
}.
Definition upd_syms (f : gmap symref symbol -> gmap symref symbol) (st : kstate) : kstate :=
  {| syms := f (syms st); symbol_hash := symbol_hash st; modules_sym := modules_sym st;
     modules_val := modules_val st; menus := menus st;
     sym_change_count := sym_change_count st; next_sym := next_sym st; next_loc := next_loc st;
     check_top := check_top st; sym_env_list := sym_env_list st; log := log st;
     conf_warnings := conf_warnings st; conf_unsaved := conf_unsaved st |}.
Definition upd_modules_val (t : tristate) (st : kstate) : kstate :=
  {| syms := syms st; symbol_hash := symbol_hash st; modules_sym := modules_sym st;
     modules_val := t; menus := menus st;
     sym_change_count := sym_change_count st; next_sym := next_sym st; next_loc := next_loc st;
     check_top := check_top st; sym_env_list := sym_env_list st; log := log st;
     conf_warnings := conf_warnings st; conf_unsaved := conf_unsaved st |}.
Definition upd_menus (f : gmap menuref menu -> gmap menuref menu) (st : kstate) : kstate :=
  {| syms := syms st; symbol_hash := symbol_hash st; modules_sym := modules_sym st;
     modules_val := modules_val st; menus := f (menus st);
     sym_change_count := sym_change_count st; next_sym := next_sym st; next_loc := next_loc st;
     check_top := check_top st; sym_env_list := sym_env_list st; log := log st;
     conf_warnings := conf_warnings st; conf_unsaved := conf_unsaved st |}.
Definition upd_count (f : Z -> Z) (st : kstate) : kstate :=
  {| syms := syms st; symbol_hash := symbol_hash st; modules_sym := modules_sym st;
     modules_val := modules_val st; menus := menus st;
     sym_change_count := f (sym_change_count st); next_sym := next_sym st; next_loc := next_loc st;
     check_top := check_top st; sym_env_list := sym_env_list st; log := log st;
     conf_warnings := conf_warnings st; conf_unsaved := conf_unsaved st |}.
Definition upd_loc (st : kstate) : kstate :=
  {| syms := syms st; symbol_hash := symbol_hash st; modules_sym := modules_sym st;
     modules_val := modules_val st; menus := menus st;
     sym_change_count := sym_change_count st; next_sym := next_sym st; next_loc := S (next_loc st);
     check_top := check_top st; sym_env_list := sym_env_list st; log := log st;
     conf_warnings := conf_warnings st; conf_unsaved := conf_unsaved st |}.
Definition upd_stack (f : list dep_stack -> list dep_stack) (st : kstate) : kstate :=
  {| syms := syms st; symbol_hash := symbol_hash st; modules_sym := modules_sym st;
     modules_val := modules_val st; menus := menus st;
     sym_change_count := sym_change_count st; next_sym := next_sym st; next_loc := next_loc st;
     check_top := f (check_top st); sym_env_list := sym_env_list st; log := log st;
     conf_warnings := conf_warnings st; conf_unsaved := conf_unsaved st |}.
Definition upd_log (e : kevent) (st : kstate) : kstate :=
  {| syms := syms st; symbol_hash := symbol_hash st; modules_sym := modules_sym st;
     modules_val := modules_val st; menus := menus st;
     sym_change_count := sym_change_count st; next_sym := next_sym st; next_loc := next_loc st;
     check_top := check_top st; sym_env_list := sym_env_list st; log := e :: log st;
     conf_warnings := conf_warnings st; conf_unsaved := conf_unsaved st |}.
Definition upd_env (s : symref) (st : kstate) : kstate :=
  {| syms := syms st; symbol_hash := symbol_hash st; modules_sym := modules_sym st;
     modules_val := modules_val st; menus := menus st;
     sym_change_count := sym_change_count st; next_sym := next_sym st; next_loc := next_loc st;
     check_top := check_top st; sym_env_list := s :: sym_env_list st; log := log st;
     conf_warnings := conf_warnings st; conf_unsaved := conf_unsaved st |}.
(** The counters of confdata.c. *)
Definition upd_conf (w u : Z) (st : kstate) : kstate :=
  {| syms := syms st; symbol_hash := symbol_hash st; modules_sym := modules_sym st;
     modules_val := modules_val st; menus := menus st;
     sym_change_count := sym_change_count st; next_sym := next_sym st; next_loc := next_loc st;
     check_top := check_top st; sym_env_list := sym_env_list st; log := log st;
     conf_warnings := w; conf_unsaved := u |}.
(** A new symbol at the head of a bucket. *)
Definition upd_new (h : Z) (y : symbol) (st : kstate) : kstate :=
  {| syms := <[next_sym st := y]> (syms st);
     symbol_hash := <[h := next_sym st :: default [] (symbol_hash st !! h)]> (symbol_hash st);
     modules_sym := modules_sym st; modules_val := modules_val st; menus := menus st;
     sym_change_count := sym_change_count st; next_sym := S (next_sym st); next_loc := next_loc st;
     check_top := check_top st; sym_env_list := sym_env_list st; log := log st;
     conf_warnings := conf_warnings st; conf_unsaved := conf_unsaved st |}.

Abbreviation KM := (PM kstate).

Definition get_sym (s : symref) : KM symbol := st ← pget; plift (syms st !! s).
Definition mod_sym (s : symref) (f : symbol -> symbol) : KM unit :=
  y ← get_sym s; pmodify (upd_syms (insert s (f y))).
Definition or_flags (s : symref) (f : Z) : KM unit := mod_sym s (set_flags (set_bits f)).
Definition and_not_flags (s : symref) (f : Z) : KM unit := mod_sym s (set_flags (clear_bits f)).

(** The inline functions of lkc.h. *)
Definition sym_is_choice (y : symbol) : bool := has SYMBOL_CHOICE (flags y).
Definition sym_is_choice_value (y : symbol) : bool := has SYMBOL_CHOICEVAL (flags y).
Definition sym_is_optional (y : symbol) : bool := has SYMBOL_OPTIONAL (flags y).
Definition sym_has_value (y : symbol) : bool := has SYMBOL_DEF_USER (flags y).
Definition sym_get_tristate_value (y : symbol) : tristate := tri (curr y).
Definition sym_get_choice_value (y : symbol) : sval := val (curr y).

(** What expr.c reads of the symbols. *)
Definition symtab_of (st : kstate) : SymTab := {|
  sym_type s := from_option type S_UNKNOWN (syms st !! s);
  sym_const s := from_option (has SYMBOL_CONST ∘ flags) false (syms st !! s);
  sym_name s := syms st !! s ≫= name;
|}.

Definition is_tri (t : tristate) (t' : tristate) : bool := bool_decide (t = t').
Definition is_type (t t' : symbol_type) : bool := bool_decide (t = t').

(** ** Properties *)

Definition prop_is (t : prop_type) (p : property) : bool := bool_decide (p_type p = t).
Definition sym_get_choice_prop (y : symbol) : option property := List.find (prop_is P_CHOICE) (prop y).
Definition sym_get_env_prop (y : symbol) : option property := List.find (prop_is P_ENV) (prop y).

(** [None]: reading the [left] member of a list node as a symbol. *)
Definition prop_get_symbol (p : property) : option (option symref) :=
  match p_expr p with
  | Some (PExpr (Sym s)) => Some (Some s)
  | Some (PList _) => None
  | _ => Some None
  end.

(** [expr_list_for_each_sym(prop->expr, e, sym)]: the list of a choice; any
    other expression is read as far as its right symbol is null, so an
    [E_SYMBOL] or [E_NOT] gives no iteration. *)
Definition list_syms (p : property) : option (list symref) :=
  match p_expr p with
  | None => Some []
  | Some (PList l) => Some l
  | Some (PExpr (Sym _ | Not _)) => Some []
  | _ => None
  end.

Definition choice_of (y : symbol) : option symref :=
  p ← sym_get_choice_prop y; s ← prop_get_symbol p; s.
Definition choice_list (y : symbol) : option (list symref) :=
  p ← sym_get_choice_prop y; list_syms p.

Definition sym_set_changed (s : symref) : KM unit :=
  or_flags s SYMBOL_CHANGED;;
  y ← get_sym s;
  pmodify (upd_menus (fun ms => foldl (fun ms m => alter mark_menu m ms) ms (omap p_menu (prop y)))).

(** The macro [for_all_symbols]: bucket by bucket, symbols of type [S_OTHER]
    left out when they are reached. *)
Definition all_symbols (st : kstate) : list symref :=
  h ← seqZ 0 SYMBOL_HASHSIZE; default [] (symbol_hash st !! h).
Definition for_all_symbols (f : symref -> KM unit) : KM unit :=
  st ← pget;
  pforeach (fun s => y ← get_sym s; pwhen (negb (is_type (type y) S_OTHER)) (f s)) (all_symbols st).
Definition sym_set_all_changed : KM unit := for_all_symbols sym_set_changed.

(** [sym_get_type] reads [modules_val]. *)
Definition sym_get_type (y : symbol) (mv : tristate) : symbol_type :=
  if is_type (type y) S_TRISTATE then
    if sym_is_choice_value y && is_tri (visible y) Tyes then S_BOOLEAN
    else if is_tri mv Tno then S_BOOLEAN else type y
  else type y.
Definition get_type (s : symref) : KM symbol_type :=
  y ← get_sym s; st ← pget; mret (sym_get_type y (modules_val st)).

Definition sym_type_name (t : symbol_type) : string :=
  match t with
  | S_BOOLEAN => "boolean" | S_TRISTATE => "tristate" | S_INT => "integer" | S_HEX => "hex"
  | S_STRING => "string" | S_UNKNOWN => "unknown" | S_OTHER => "???"
  end.
Definition prop_get_type_name (t : prop_type) : string :=
  match t with
  | P_PROMPT => "prompt" | P_ENV => "env" | P_COMMENT => "comment" | P_MENU => "menu"
  | P_DEFAULT => "default" | P_CHOICE => "choice" | P_SELECT => "select" | P_RANGE => "range"
  | P_SYMBOL => "symbol" | P_UNKNOWN => "unknown"
  end.

(** ** Calculation of values *)

(** [set_all_choice_values] (confdata.c). *)
Definition set_all_choice_values (cs : symref) : KM unit :=
  y ← get_sym cs;
  l ← plift (choice_list y);
  pforeach (fun s =>
    v ← get_sym s;
    pwhen (negb (sym_has_value v)) (mod_sym s (fun v => set_def_user {| val := val (def_user v); tri := Tno |} v))) l;;
  or_flags cs SYMBOL_DEF_USER;;
  and_not_flags cs (Z.lor SYMBOL_VALID SYMBOL_NEED_SET_CHOICE_VALUES).

Section Calc.
(** [sym_calc_value] on other symbols. *)
Variable calc : symref -> KM unit.

(** [sym_calc_value(modules_sym)]; a null pointer is skipped. *)
Definition calc_modules : KM unit :=
  st ← pget; match modules_sym st with Some m => calc m | None => mret tt end.
(** [modules_sym->curr.tri] *)
Definition modules_tri : KM tristate :=
  st ← pget; m ← plift (modules_sym st); y ← get_sym m; mret (tri (curr y)).

Definition sval_string (v : sval) : KM string :=
  match v with VStr _ s => mret s | _ => pfault end.

Definition tri_text (t : tristate) : string := match t with Tno => "n" | Tmod => "m" | Tyes => "y" end.

Definition sym_get_string_value_with (s : symref) : KM string :=
  y ← get_sym s;
  match type y with
  | S_BOOLEAN | S_TRISTATE =>
      match sym_get_tristate_value y with
      | Tmod => calc_modules;; t ← modules_tri; mret (if is_tri t Tno then "n" else "m")
      | t => mret (tri_text t)
      end
  | _ => sval_string (val (curr y))
  end.

(** [expr_calc_value] (expr.c). *)
Fixpoint calc_expr (e : expr) : KM tristate :=
  match e with
  | Sym s => calc s;; y ← get_sym s; mret (tri (curr y))
  | And l r => a ← calc_expr l; b ← calc_expr r; mret (EXPR_AND a b)
  | Or l r => a ← calc_expr l; b ← calc_expr r; mret (EXPR_OR a b)
  | Not e => a ← calc_expr e; mret (EXPR_NOT a)
  | Equal a b =>
      calc a;; calc b;; x ← sym_get_string_value_with a; y ← sym_get_string_value_with b;
      mret (if String.eqb x y then Tyes else Tno)
  | Unequal a b =>
      calc a;; calc b;; x ← sym_get_string_value_with a; y ← sym_get_string_value_with b;
      mret (if String.eqb x y then Tno else Tyes)
  end.
Definition calc_expr_opt (e : option expr) : KM tristate :=
  match e with None => mret Tyes | Some e => calc_expr e end.
(** The value of a property; a list or range is reported and counts as [no]. *)
Definition calc_prop_expr (e : option prop_expr) : KM tristate :=
  match e with None => mret Tyes | Some (PExpr e) => calc_expr e | Some _ => mret Tno end.

(** Store [visible.tri] of the [i]-th property. *)
Definition set_visible_tri (s : symref) (i : nat) (t : tristate) : KM unit :=
  mod_sym s (fun y => set_prop (alter (set_prop_tri t) i (prop y)) y).

(** The first property of the type whose condition is not [no]:
    [sym_get_default_prop] and [sym_get_range_prop]. *)
Fixpoint visible_prop (ty : prop_type) (s : symref) (i : nat) (ps : list property) : KM (option property) :=
  match ps with
  | [] => mret None
  | p :: ps =>
      if prop_is ty p then
        t ← calc_expr_opt (p_visible p);
        set_visible_tri s i t;;
        if is_tri t Tno then visible_prop ty s (S i) ps else mret (Some (set_prop_tri t p))
      else visible_prop ty s (S i) ps
  end.
Definition sym_get_default_prop (s : symref) : KM (option property) :=
  y ← get_sym s; visible_prop P_DEFAULT s 0 (prop y).
Definition sym_get_range_prop (s : symref) : KM (option property) :=
  y ← get_sym s; visible_prop P_RANGE s 0 (prop y).

Definition type_base (t : symbol_type) (base : Z) : Z :=
  match t with S_INT => 10 | S_HEX => 16 | _ => base end.
Definition sym_get_range_val (s : symref) (base : Z) : KM Z :=
  calc s;;
  y ← get_sym s;
  v ← sval_string (val (curr y));
  mret (strtoll (type_base (type y) base) v).

Definition range_syms (p : property) : option (symref * symref) :=
  match p_expr p with
  | Some (PRange a b) | Some (PExpr (Equal a b | Unequal a b)) => Some (a, b)
  | _ => None
  end.

(** [strdup]: text at a place of its own. *)
Definition strdup (s : string) : KM sval :=
  st ← pget; pmodify upd_loc;; mret (VStr (LHeap (next_loc st)) s).

Definition range_text (t : symbol_type) (v : Z) : string :=
  match t with S_INT => fmt_d v | _ => "0x" +:+ fmt_x v end.

Definition sym_validate_range (s : symref) : KM unit :=
  y ← get_sym s;
  match type y with
  | S_INT | S_HEX =>
      let base := type_base (type y) 0 in
      p ← sym_get_range_prop s;
      match p with
      | None => mret tt
      | Some p =>
          y ← get_sym s;
          txt ← sval_string (val (curr y));
          let v := strtoll base txt in
          '(l, r) ← plift (range_syms p);
          lo ← sym_get_range_val l base;
          let store v2 := n ← strdup (range_text (type y) v2);
                          mod_sym s (fun y => set_curr {| val := n; tri := tri (curr y) |} y) in
          if lo <=? v then
            hi ← sym_get_range_val r base;
            if v <=? hi then mret tt else store hi
          else store lo
      end
  | _ => mret tt
  end.

Fixpoint visible_prompts (s : symref) (i : nat) (ps : list property) (acc : tristate) : KM tristate :=
  match ps with
  | [] => mret acc
  | p :: ps =>
      match p_text p with
      | Some _ =>
          t ← calc_expr_opt (p_visible p);
          set_visible_tri s i t;;
          visible_prompts s (S i) ps (EXPR_OR acc t)
      | None => visible_prompts s (S i) ps acc
      end
  end.

(** Store a value and report the change, if there is one. *)
Definition store_tri (s : symref) (f : symbol -> tristate) (g : tristate -> symbol -> symbol) (t : tristate) : KM unit :=
  y ← get_sym s;
  pwhen (negb (is_tri (f y) t)) (mod_sym s (g t);; sym_set_changed s).

Definition sym_calc_visibility (s : symref) : KM unit :=
  y ← get_sym s;
  t ← visible_prompts s 0 (prop y) Tno;
  st ← pget;
  let t := if is_tri t Tmod && (negb (is_type (type y) S_TRISTATE) || is_tri (modules_val st) Tno)
           then Tyes else t in
  store_tri s visible set_visible t;;
  y ← get_sym s;
  if sym_is_choice_value y then mret tt
  else
    t ← calc_expr_opt (dir_dep y);
    store_tri s dir_dep_tri set_dir_tri (if is_tri t Tmod then Tyes else t);;
    t ← (match rev_dep y with None => mret Tno | Some e => calc_expr e end);
    ty ← get_type s;
    store_tri s rev_dep_tri set_rev_tri (if is_tri t Tmod && is_type ty S_BOOLEAN then Tyes else t).

(** The first loop of [sym_choice_default]. *)
Fixpoint choice_default_prop (s : symref) (i : nat) (ps : list property) : KM (option symref) :=
  match ps with
  | [] => mret None
  | p :: ps =>
      if prop_is P_DEFAULT p then
        t ← calc_expr_opt (p_visible p);
        set_visible_tri s i t;;
        if is_tri t Tno then choice_default_prop s (S i) ps
        else
          d ← plift (prop_get_symbol p); d ← plift d;
          y ← get_sym d;
          if is_tri (visible y) Tno then choice_default_prop s (S i) ps else mret (Some d)
      else choice_default_prop s (S i) ps
  end.
Fixpoint first_visible (l : list symref) : KM (option symref) :=
  match l with
  | [] => mret None
  | d :: l => y ← get_sym d; if is_tri (visible y) Tno then first_visible l else mret (Some d)
  end.
Definition sym_choice_default_with (s : symref) : KM (option symref) :=
  y ← get_sym s;
  d ← choice_default_prop s 0 (prop y);
  match d with
  | Some d => mret (Some d)
  | None => l ← plift (choice_list y); first_visible l
  end.

(** The flags common to the visible values of a choice. *)
Fixpoint choice_flags (l : list symref) (f : Z) : KM Z :=
  match l with
  | [] => mret f
  | d :: l =>
      sym_calc_visibility d;;
      y ← get_sym d;
      choice_flags l (if is_tri (visible y) Tno then f else Z.land f (flags y))
  end.

Definition sym_calc_choice (s : symref) : KM (option symref) :=
  y ← get_sym s;
  l ← plift (choice_list y);
  f ← choice_flags l (flags y);
  mod_sym s (set_flags (fun x => Z.land x (Z.lor f (Z.lnot SYMBOL_DEF_USER))));;
  y ← get_sym s;
  user ← (match val (def_user y) with
          | VNull => mret None
          | VSym d => v ← get_sym d; mret (if is_tri (visible v) Tno then None else Some d)
          | VStr _ _ => pfault
          end);
  match user with
  | Some d => mret (Some d)
  | None =>
      d ← sym_choice_default_with s;
      match d with
      | Some d => mret (Some d)
      | None =>
          mod_sym s (fun y => set_curr {| val := val (curr y); tri := Tno |} y);;
          mret None
      end
  end.

(** The value of a boolean or tristate symbol that is not a value of a visible
    choice (the [else] part of the first case of [sym_calc_value], up to
    [calc_newval]): the user's value if the symbol is visible, else the
    default. *)
Definition calc_tristate_base (s : symref) : KM tristate :=
  y ← get_sym s;
  pwhen (negb (is_tri (visible y) Tno)) (or_flags s SYMBOL_WRITE);;
  y ← get_sym s;
  if negb (is_tri (visible y) Tno) && sym_has_value y then
    mret (EXPR_AND (tri (def_user y)) (visible y))
  else
    pwhen (negb (is_tri (rev_dep_tri y) Tno)) (or_flags s SYMBOL_WRITE);;
    if sym_is_choice y then mret Tno
    else
      p ← sym_get_default_prop s;
      match p with
      | None => mret Tno
      | Some p =>
          or_flags s SYMBOL_WRITE;;
          t ← calc_prop_expr (p_expr p);
          mret (EXPR_AND t (p_visible_tri p))
      end.

(** From [calc_newval]: the warning, then the selects.  [dir_dep_tri] is [yes]
    where there is no [dir_dep]. *)
Definition calc_newval (s : symref) (t : tristate) : KM tristate :=
  y ← get_sym s;
  pwhen (is_tri (dir_dep_tri y) Tno && negb (is_tri (rev_dep_tri y) Tno))
    (st ← pget;
     r ← plift (rev_dep y); d ← plift (dir_dep y);
     e ← plift (let _ := symtab_of st in expr_simplify_unmet_dep r d);
     pmodify (upd_log (UnmetDep e s (dir_dep y))));;
  mret (EXPR_OR t (rev_dep_tri y)).

Definition calc_tristate (s : symref) : KM tristate :=
  y ← get_sym s;
  t ← (if sym_is_choice_value y && is_tri (visible y) Tyes then
         c ← plift (choice_of y);
         cs ← get_sym c;
         mret (if bool_decide (val (curr cs) = VSym s) then Tyes else Tno)
       else t ← calc_tristate_base s; calc_newval s t);
  ty ← get_type s;
  mret (if is_tri t Tmod && is_type ty S_BOOLEAN then Tyes else t).

(** The value of a string, int or hex symbol, [v] if it has none. *)
Definition calc_text (s : symref) (v : sval) : KM sval :=
  y ← get_sym s;
  pwhen (negb (is_tri (visible y) Tno)) (or_flags s SYMBOL_WRITE);;
  y ← get_sym s;
  if negb (is_tri (visible y) Tno) && sym_has_value y then mret (val (def_user y))
  else
    p ← sym_get_default_prop s;
    match p with
    | None => mret v
    | Some p =>
        d ← plift (prop_get_symbol p);
        match d with
        | None => mret v
        | Some d => or_flags s SYMBOL_WRITE;; calc d;; y ← get_sym d; mret (val (curr y))
        end
    end.

(** The flags a choice hands to its values. *)
Definition calc_members (s : symref) : KM unit :=
  y ← get_sym s;
  pwhen (sym_is_choice y)
    (l ← plift (choice_list y);
     pforeach (fun d =>
       c ← get_sym s;
       v ← get_sym d;
       pwhen (has SYMBOL_WRITE (flags c) && negb (is_tri (visible v) Tno)) (or_flags d SYMBOL_WRITE);;
       c ← get_sym s;
       pwhen (has SYMBOL_CHANGED (flags c)) (sym_set_changed d)) l).

(** From [oldval] on: the value [v] is computed and stored. *)
Definition calc_store (s : symref) (old v0 : symbol_value) : KM unit :=
  mod_sym s (set_curr v0);;
  ty ← get_type s;
  v ← (match ty with
       | S_BOOLEAN | S_TRISTATE => t ← calc_tristate s; mret {| val := val v0; tri := t |}
       | S_STRING | S_HEX | S_INT => x ← calc_text s (val v0); mret {| val := x; tri := tri v0 |}
       | _ => mret v0
       end);
  mod_sym s (set_curr v);;
  y ← get_sym s;
  pwhen (sym_is_choice y && is_tri (tri v) Tyes)
    (d ← sym_calc_choice s;
     mod_sym s (fun y => set_curr {| val := match d with Some d => VSym d | None => VNull end;
                                    tri := tri (curr y) |} y));;
  sym_validate_range s;;
  y ← get_sym s;
  st ← pget;
  pwhen (negb (bool_decide (old = curr y)))
    (sym_set_changed s;;
     pwhen (bool_decide (modules_sym st = Some s))
       (sym_set_all_changed;; y ← get_sym s; pmodify (upd_modules_val (tri (curr y)))));;
  calc_members s;;
  y ← get_sym s;
  pwhen (has SYMBOL_AUTO (flags y)) (and_not_flags s SYMBOL_WRITE);;
  y ← get_sym s;
  pwhen (has SYMBOL_NEED_SET_CHOICE_VALUES (flags y)) (set_all_choice_values s).

(** What a choice value does first. *)
Definition calc_owner (s : symref) : KM unit :=
  y ← get_sym s;
  pwhen (sym_is_choice_value y && has SYMBOL_NEED_SET_CHOICE_VALUES (flags y))
    (and_not_flags s SYMBOL_NEED_SET_CHOICE_VALUES;;
     c ← plift (choice_of y); calc c).

(** [sym_calc_value] with the recursive calls going to [calc]. *)
Definition calc_body (s : symref) : KM unit :=
  y ← get_sym s;
  if has SYMBOL_VALID (flags y) then mret tt
  else
    calc_owner s;;
    or_flags s SYMBOL_VALID;;
    y ← get_sym s;
    let old := curr y in
    let go v0 :=
      pwhen (negb (sym_is_choice_value y)) (and_not_flags s SYMBOL_WRITE);;
      sym_calc_visibility s;;
      calc_store s old v0 in
    match type y with
    | S_INT | S_HEX | S_STRING => go {| val := VStr LEmpty ""; tri := Tno |}
    | S_BOOLEAN | S_TRISTATE => go {| val := VStr (LName symbol_no) "n"; tri := Tno |}
    | _ => mod_sym s (set_curr {| val := match name y with Some n => VStr (LName s) n | None => VNull end;
                                  tri := Tno |})
    end.
End Calc.

(** [sym_calc_value] with at most [n] nested calls.  A null argument is the
    caller's. *)
Fixpoint calc_fuel (n : nat) (s : symref) : KM unit :=
  match n with O => pnofuel | S n => calc_body (calc_fuel n) s end.

(** Fuel for a state (enough by KSymFacts): a symbol is entered once while it is
    not valid, and twice more if its choice values are to be set. *)
Definition sym_weight (y : symbol) : nat :=
  (if has SYMBOL_VALID (flags y) then 0 else 1)
  + (if has SYMBOL_NEED_SET_CHOICE_VALUES (flags y) then 2 else 0).
Definition potential (st : kstate) : nat := map_fold (fun _ y n => sym_weight y + n)%nat 0%nat (syms st).
Definition sym_calc_value (s : symref) : KM unit := fun st => calc_fuel (S (potential st)) s st.

Definition expr_calc_value : option expr -> KM tristate := calc_expr_opt sym_calc_value.
Definition sym_get_string_value : symref -> KM string := sym_get_string_value_with sym_calc_value.
Definition sym_choice_default : symref -> KM (option symref) := sym_choice_default_with sym_calc_value.

(** ** Setting values *)

Definition sym_set_change_count (n : Z) : KM unit := pmodify (upd_count (fun _ => n)).
Definition sym_add_change_count (n : Z) : KM unit := pmodify (upd_count (fun c => i32 (n + c))).
Definition conf_get_changed : KM bool := st ← pget; mret (negb (sym_change_count st =? 0)).

Definition sym_clear_all_valid : KM unit :=
  for_all_symbols (fun s => and_not_flags s SYMBOL_VALID);;
  sym_add_change_count 1;;
  st ← pget;
  match modules_sym st with Some m => sym_calc_value m | None => mret tt end.

Definition tri_leb (a b : tristate) : bool := tri_Z a <=? tri_Z b.

Definition tristate_within_range (y : symbol) (mv v : tristate) : bool :=
  let t := sym_get_type y mv in
  if is_tri (visible y) Tno then false
  else if negb (is_type t S_BOOLEAN) && negb (is_type t S_TRISTATE) then false
  else if is_type t S_BOOLEAN && is_tri v Tmod then false
  else if tri_leb (visible y) (rev_dep_tri y) then false
  else if sym_is_choice_value y && is_tri (visible y) Tyes then is_tri v Tyes
  else tri_leb (rev_dep_tri y) v && tri_leb v (visible y).
Definition sym_tristate_within_range (s : symref) (v : tristate) : KM bool :=
  y ← get_sym s; st ← pget; mret (tristate_within_range y (modules_val st) v).

Definition sym_is_changable (y : symbol) : bool := negb (tri_leb (visible y) (rev_dep_tri y)).

Definition mark_user (s : symref) : KM unit :=
  y ← get_sym s;
  pwhen (negb (sym_has_value y)) (or_flags s SYMBOL_DEF_USER;; sym_set_changed s).

(** A choice value set to [y]: the choice and its visible values count as set. *)
Definition take_choice (s : symref) : KM unit :=
  y ← get_sym s;
  c ← plift (choice_of y);
  mod_sym c (fun cs => set_def_user {| val := VSym s; tri := tri (def_user cs) |} cs);;
  or_flags c SYMBOL_DEF_USER;;
  cs ← get_sym c;
  l ← plift (choice_list cs);
  pforeach (fun d =>
    v ← get_sym d; pwhen (negb (is_tri (visible v) Tno)) (or_flags d SYMBOL_DEF_USER)) l.

Definition sym_set_tristate_value (s : symref) (v : tristate) : KM bool :=
  y ← get_sym s;
  let old := sym_get_tristate_value y in
  ok ← sym_tristate_within_range s v;
  if negb (is_tri old v) && negb ok then mret false
  else
    mark_user s;;
    y ← get_sym s;
    pwhen (sym_is_choice_value y && is_tri v Tyes) (take_choice s);;
    mod_sym s (fun y => set_def_user {| val := val (def_user y); tri := v |} y);;
    pwhen (negb (is_tri old v)) sym_clear_all_valid;;
    mret true.

(** [sym_set_choice_value] (lkc.h). *)
Definition sym_set_choice_value (ch chval : symref) : KM bool := sym_set_tristate_value chval Tyes.

Definition next_tristate (t : tristate) : tristate :=
  match t with Tno => Tmod | Tmod => Tyes | Tyes => Tno end.
(** The loop runs until a value is taken or all three were tried. *)
Fixpoint toggle_loop (n : nat) (s : symref) (old t : tristate) : KM tristate :=
  match n with
  | O => pnofuel
  | S n =>
      let t := next_tristate t in
      ok ← sym_set_tristate_value s t;
      if ok : bool then mret t else if is_tri old t then mret t else toggle_loop n s old t
  end.
Definition sym_toggle_tristate_value (s : symref) : KM tristate :=
  y ← get_sym s;
  let old := sym_get_tristate_value y in toggle_loop 3 s old old.

Definition is_letter (lo up c : Ascii.ascii) : bool := char_eqb c lo || char_eqb c up.
Definition tri_letter (s : string) : option tristate :=
  if head_is (is_letter "y" "Y") s then Some Tyes
  else if head_is (is_letter "m" "M") s then Some Tmod
  else if head_is (is_letter "n" "N") s then Some Tno
  else None.
Definition has_0x (s : string) : bool :=
  match s with String z (String x _) => char_eqb z "0" && is_letter "x" "X" x | _ => false end.

Definition int_valid (s : string) : bool :=
  let s := match s with String c t => if char_eqb c "-" then t else s | EmptyString => s end in
  match s with
  | String c t =>
      isdigit c && negb (char_eqb c "0" && negb (String.eqb t "")) && string_all isdigit t
  | EmptyString => false
  end.
Definition hex_valid (s : string) : bool :=
  let s := if has_0x s then match s with String _ (String _ t) => t | _ => s end else s in
  match s with String c t => isxdigit c && string_all isxdigit t | EmptyString => false end.

Definition sym_string_valid (ty : symbol_type) (s : string) : bool :=
  match ty with
  | S_STRING => true
  | S_INT => int_valid s
  | S_HEX => hex_valid s
  | S_BOOLEAN | S_TRISTATE => match tri_letter s with Some _ => true | None => false end
  | _ => false
  end.

(** The range test of int and hex symbols; [&&] stops at the first failure. *)
Definition range_admits (s : symref) (base : Z) (str : string) : KM bool :=
  p ← sym_get_range_prop sym_calc_value s;
  match p with
  | None => mret true
  | Some p =>
      '(l, r) ← plift (range_syms p);
      lo ← sym_get_range_val sym_calc_value l base;
      if lo <=? strtoll base str then
        hi ← sym_get_range_val sym_calc_value r base; mret (strtoll base str <=? hi)
      else mret false
  end.

Definition sym_string_within_range (s : symref) (str : string) : KM bool :=
  y ← get_sym s;
  match type y with
  | S_STRING => mret (sym_string_valid (type y) str)
  | S_INT => if sym_string_valid S_INT str then range_admits s 10 str else mret false
  | S_HEX => if sym_string_valid S_HEX str then range_admits s 16 str else mret false
  | S_BOOLEAN | S_TRISTATE =>
      match tri_letter str with Some t => sym_tristate_within_range s t | None => mret false end
  | _ => mret false
  end.

Definition set_user_text (s : symref) (txt : string) : KM unit :=
  v ← strdup txt;
  mod_sym s (fun y => set_def_user {| val := v; tri := tri (def_user y) |} y).

Definition sym_set_string_value (s : symref) (newval : string) : KM bool :=
  y ← get_sym s;
  match type y with
  | S_BOOLEAN | S_TRISTATE =>
      match tri_letter newval with Some t => sym_set_tristate_value s t | None => mret false end
  | ty =>
      ok ← sym_string_within_range s newval;
      if negb ok then mret false
      else
        mark_user s;;
        y ← get_sym s;
        if is_type ty S_HEX && negb (has_0x newval) then
          set_user_text s ("0x" +:+ newval);; sym_clear_all_valid;; mret true
        else
          match val (def_user y) with
          | VStr _ old =>
              if String.eqb old newval then mret true
              else set_user_text s newval;; sym_clear_all_valid;; mret true
          | VNull => set_user_text s newval;; sym_clear_all_valid;; mret true
          | VSym _ => pfault
          end
  end.

Definition sym_get_string_default (s : symref) : KM string :=
  sym_calc_visibility sym_calc_value s;;
  calc_modules sym_calc_value;;
  y ← get_sym s;
  p ← sym_get_default_prop sym_calc_value s;
  '(v, str) ← (match p with
     | None => mret (Tno, "")
     | Some p =>
         match type y with
         | S_BOOLEAN | S_TRISTATE =>
             t ← calc_prop_expr sym_calc_value (p_expr p);
             mret (EXPR_AND t (p_visible_tri p), "")
         | _ =>
             d ← plift (prop_get_symbol p);
             match d with
             | None => mret (Tno, "")
             | Some d =>
                 sym_calc_value d;; z ← get_sym d; x ← sval_string (val (curr z)); mret (Tno, x)
             end
         end
     end);
  y ← get_sym s;
  let v := EXPR_OR v (rev_dep_tri y) in
  v ← (if is_tri v Tmod && negb (sym_is_choice_value y) then
         t ← modules_tri; mret (if is_tri t Tno then Tyes else v)
       else mret v);
  let v := if is_type (type y) S_BOOLEAN && is_tri v Tmod then Tyes else v in
  mret (match type y with
        | S_BOOLEAN | S_TRISTATE => tri_text v
        | S_INT | S_HEX | S_STRING => str
        | _ => ""
        end).

(** ** The symbol table *)

(** FNV-1a on [unsigned]; [*s] is a signed [char], extended to 32 bits. *)
Definition schar (c : Ascii.ascii) : Z := if code c <? 128 then code c else code c - 256.
Fixpoint strhash_from (h : Z) (s : string) : Z :=
  match s with
  | EmptyString => h
  | String c t => strhash_from (u32 (Z.lxor h (u32 (schar c)) * 0x01000193)) t
  end.
Definition strhash (s : string) : Z := strhash_from 2166136261 s.

(** The one-letter names of the constants. *)
Definition const_name (n : string) : option symref :=
  if String.eqb n "y" then Some symbol_yes
  else if String.eqb n "m" then Some symbol_mod
  else if String.eqb n "n" then Some symbol_no
  else None.

Definition bucket_of (n : string) : Z := strhash n mod SYMBOL_HASHSIZE.
Definition bucket (h : Z) (st : kstate) : list symref := default [] (symbol_hash st !! h).
Definition name_is (n : string) (y : symbol) : bool := bool_decide (name y = Some n).

Fixpoint find_in (st : kstate) (f : symbol -> bool) (l : list symref) : option (option symref) :=
  match l with
  | [] => Some None
  | s :: l => y ← syms st !! s; if f y then Some (Some s) else find_in st f l
  end.

Definition new_symbol (n : option string) (fl : Z) : symbol := {|
  name := n; type := S_UNKNOWN; curr := {| val := VNull; tri := Tno |};
  def_user := {| val := VNull; tri := Tno |}; def_auto := {| val := VNull; tri := Tno |};
  visible := Tno; flags := fl; prop := []; dir_dep := None; dir_dep_tri := Tno;
  rev_dep := None; rev_dep_tri := Tno |}.

Definition lookup_match (n : string) (fl : Z) (y : symbol) : bool :=
  name_is n y && (if fl =? 0 then negb (has (Z.lor SYMBOL_CONST SYMBOL_CHOICE) (flags y))
                  else has fl (flags y)).

Definition sym_new (h : Z) (n : option string) (fl : Z) : KM symref :=
  st ← pget; pmodify (upd_new h (new_symbol n fl));; mret (next_sym st).

Definition sym_lookup (n : option string) (fl : Z) : KM symref :=
  match n with
  | None => sym_new 0 None fl
  | Some n =>
      match const_name n with
      | Some s => mret s
      | None =>
          st ← pget;
          r ← plift (find_in st (lookup_match n fl) (bucket (bucket_of n) st));
          match r with Some s => mret s | None => sym_new (bucket_of n) (Some n) fl end
      end
  end.

Definition find_match (n : string) (y : symbol) : bool :=
  name_is n y && negb (has SYMBOL_CONST (flags y)).
Definition sym_find (n : option string) : KM (option symref) :=
  match n with
  | None => mret None
  | Some n =>
      match const_name n with
      | Some s => mret (Some s)
      | None => st ← pget; plift (find_in st (find_match n) (bucket (bucket_of n) st))
      end
  end.

(** ** Properties of a symbol under construction *)

Definition new_property (t : prop_type) : property := {|
  p_type := t; p_text := None; p_visible := None; p_visible_tri := Tno; p_expr := None; p_menu := None |}.
(** [prop_alloc]: append to the list of the symbol, if there is one; the result
    is the place in the list. *)
Definition prop_alloc (t : prop_type) (s : option symref) : KM (option (symref * nat)) :=
  match s with
  | None => mret None
  | Some s =>
      y ← get_sym s;
      mod_sym s (set_prop (prop y ++ [new_property t]));;
      mret (Some (s, length (prop y)))
  end.
Definition set_prop_expr (e : option prop_expr) (p : property) : property :=
  {| p_type := p_type p; p_text := p_text p; p_visible := p_visible p;
     p_visible_tri := p_visible_tri p; p_expr := e; p_menu := p_menu p |}.
Definition mod_prop (s : symref) (i : nat) (f : property -> property) : KM unit :=
  mod_sym s (fun y => set_prop (alter f i (prop y)) y).

Definition sym_add_default (s : symref) (def : string) : KM unit :=
  q ← prop_alloc P_DEFAULT (Some s);
  v ← sym_lookup (Some def) SYMBOL_CONST;
  match q with
  | Some (s, i) => mod_prop s i (set_prop_expr (Some (PExpr (expr_alloc_symbol v))))
  | None => mret tt
  end.

(** [sym_init], with the release [uname] reports. *)
Definition sym_init (release : string) : KM unit :=
  s ← sym_lookup (Some "UNAME_RELEASE") 0;
  mod_sym s (set_name_type S_STRING);;
  or_flags s SYMBOL_AUTO;;
  sym_add_default s release.

(** [prop_add_env] for the symbol of [current_entry], with the environment. *)
Definition prop_add_env (getenv : string -> option string) (s : symref) (env : string) : KM unit :=
  or_flags s SYMBOL_AUTO;;
  y ← get_sym s;
  match sym_get_env_prop y with
  | Some p =>
      d ← plift (prop_get_symbol p); d ← plift d;
      z ← get_sym d; n ← plift (name z);
      pwhen (negb (String.eqb n env))
        (pmodify (upd_log (Warning ("redefining environment symbol from " +:+ n))))
  | None =>
      q ← prop_alloc P_ENV (Some s);
      v ← sym_lookup (Some env) SYMBOL_CONST;
      match q with
      | Some (s, i) => mod_prop s i (set_prop_expr (Some (PExpr (expr_alloc_symbol v))))
      | None => mret tt
      end;;
      pmodify (upd_env s);;
      match getenv env with
      | Some p => sym_add_default s p
      | None => pmodify (upd_log (Warning ("environment variable " +:+ env +:+ " undefined")))
      end
  end.

(** ** Text *)

Definition name_char (c : Ascii.ascii) : bool := isalnum c || char_eqb c "_".

(** [sym_expand_string_value]; every round passes a [$].  A name that does not
    fit its buffer is undefined behaviour. *)
Fixpoint expand_loop (n : nat) (res src : string) : KM string :=
  match n with
  | O => pnofuel
  | S n =>
      match strchr "$"%char src with
      | None => mret (res +:+ src)
      | Some (a, b) =>
          let '(nm, rest) := span name_char b in
          if (SYMBOL_MAXLENGTH <=? String.length nm)%nat then pfault
          else
            s ← sym_find (Some nm);
            v ← (match s with
                 | Some s => sym_calc_value s;; sym_get_string_value s
                 | None => mret ""
                 end);
            expand_loop n (res +:+ a +:+ v) rest
      end
  end.
Definition sym_expand_string_value (s : string) : KM string := expand_loop (S (String.length s)) "" s.

(** [sym_escape_string_value]: a backslash before each quote and backslash. *)
Definition special (c : Ascii.ascii) : bool := char_eqb c quote || char_eqb c backslash.
Fixpoint escape (s : string) : string :=
  match s with
  | EmptyString => EmptyString
  | String c t => if special c then String backslash (String c (escape t)) else String c (escape t)
  end.
Definition sym_escape_string_value (s : string) : string := str1 quote +:+ escape s +:+ str1 quote.
(** The size its first loop computes for the result. *)
Fixpoint count_special (s : string) : nat :=
  match s with EmptyString => 0 | String c t => (if special c then 1 else 0) + count_special t end.
Definition escape_reslen (s : string) : nat := String.length s + 2 + 1 + count_special s.

(** ** Searching *)

(** A match of the regular expression in the name of a symbol: its begin and
    end. *)
Record sym_match := { sm_sym : symref; sm_name : string; sm_so : Z; sm_eo : Z }.
Definition exact_match (m : sym_match) : bool := sm_eo m - sm_so m =? Z.of_nat (String.length (sm_name m)).
Definition sym_rel_comp (a b : sym_match) : Z :=
  if exact_match a && negb (exact_match b) then -1
  else if negb (exact_match a) && exact_match b then 1
  else strcmp (sm_name a) (sm_name b).

Section Search.
(** [regexec] of the compiled pattern; [regcomp] succeeded. *)
Variable regexec : string -> option (Z * Z).

Fixpoint collect_matches (l : list symref) : KM (list sym_match) :=
  match l with
  | [] => mret []
  | s :: l =>
      y ← get_sym s;
      match name y with
      | Some n =>
          if is_type (type y) S_OTHER || has SYMBOL_CONST (flags y) then collect_matches l
          else
            match regexec n with
            | Some (so, eo) =>
                sym_calc_value s;;
                r ← collect_matches l;
                mret ({| sm_sym := s; sm_name := n; sm_so := so; sm_eo := eo |} :: r)
            | None => collect_matches l
            end
      | None => collect_matches l
      end
  end.

Definition match_le (a b : sym_match) : Prop := sym_rel_comp a b <= 0.
#[global] Instance match_le_dec a b : Decision (match_le a b).
Proof. unfold match_le. apply _. Defined.

(** [sym_re_search]: the matches in the order [qsort] puts them in. *)
Definition sym_re_search (pattern : string) : KM (list symref) :=
  if String.eqb pattern "" then mret []
  else
    st ← pget;
    ms ← collect_matches (all_symbols st);
    mret (map sm_sym (merge_sort match_le ms)).
End Search.

(** ** Recursive dependencies *)

Definition dep_stack_insert (s : symref) : KM unit :=
  pmodify (upd_stack (cons {| ds_sym := s; ds_prop := None; ds_expr := false |})).
Definition dep_stack_remove : KM unit :=
  st ← pget; match check_top st with [] => pfault | _ :: l => pmodify (upd_stack (fun _ => l)) end.
(** Assignments to [stack.prop] and [stack.expr], where [stack] is on top. *)
Definition stack_set (i : option nat) (e : bool) : KM unit :=
  st ← pget;
  match check_top st with
  | [] => pfault
  | d :: l => pmodify (upd_stack (fun _ => {| ds_sym := ds_sym d; ds_prop := i; ds_expr := e |} :: l))
  end.

(** The entries from the top down to the first one of the symbol, in the order
    from there to the top; [None] when it is not on the stack. *)
Fixpoint stack_upto (s : symref) (l acc : list dep_stack) : option (list dep_stack) :=
  match l with
  | [] => None
  | d :: l => if Nat.eqb (ds_sym d) s then Some (d :: acc) else stack_upto s l (d :: acc)
  end.

(** One line of the report.  [prop] is the property of the entry, else the first
    of the symbol, else (for a choice or its values) the first with a menu. *)
Definition dep_line (d : dep_stack) (next : symref) : KM (symref * dep_kind * symref) :=
  y ← get_sym (ds_sym d);
  let p := match ds_prop d with Some i => prop y !! i | None => head (prop y) end in
  let choice := sym_is_choice y || sym_is_choice_value y in
  let p := if choice then List.find (fun p => bool_decide (is_Some (p_menu p))) (prop y) else p in
  if ds_expr d then p ← plift p; mret (ds_sym d, DepValue (p_type p), next)
  else
    match ds_prop d with
    | Some _ => _ ← plift p; mret (ds_sym d, DepDepends, next)
    | None =>
        _ ← plift p;
        mret (ds_sym d, (if sym_is_choice y then DepChoiceContains
                         else if sym_is_choice_value y then DepPartOf else DepSelected), next)
    end.

Fixpoint dep_lines (l : list dep_stack) (last : symref) : KM (list (symref * dep_kind * symref)) :=
  match l with
  | [] => mret []
  | d :: l =>
      x ← dep_line d (match l with d' :: _ => ds_sym d' | [] => last end);
      r ← dep_lines l last;
      mret (x :: r)
  end.

(** The early return leaves the entry pushed for a choice value. *)
Definition sym_check_print_recursive (last : symref) : KM unit :=
  y ← get_sym last;
  pwhen (sym_is_choice_value y) (dep_stack_insert last);;
  last ← (if sym_is_choice_value y then plift (choice_of y) else mret last);
  st ← pget;
  match stack_upto last (check_top st) [] with
  | None => pmodify (upd_log UnexpectedRecursion)
  | Some l =>
      r ← dep_lines l last;
      pmodify (upd_log (RecursiveDep r));;
      pwhen (sym_is_choice_value y) dep_stack_remove
  end.

Section CheckDeps.
(** [sym_check_deps] on the symbols of an expression. *)
Variable check : symref -> KM (option symref).

Fixpoint sym_check_expr_deps (e : expr) : KM (option symref) :=
  match e with
  | Or l r | And l r =>
      s ← sym_check_expr_deps l;
      match s with Some s => mret (Some s) | None => sym_check_expr_deps r end
  | Not e => sym_check_expr_deps e
  | Equal a b | Unequal a b =>
      s ← check a; match s with Some s => mret (Some s) | None => check b end
  | Sym s => check s
  end.
Definition check_expr_opt (e : option expr) : KM (option symref) :=
  match e with None => mret None | Some e => sym_check_expr_deps e end.
(** A list or range is reported as unknown and has no dependencies. *)
Definition check_prop_expr (e : option prop_expr) : KM (option symref) :=
  match e with Some (PExpr e) => sym_check_expr_deps e | _ => mret None end.

Fixpoint check_props (is_choice : bool) (i : nat) (ps : list property) : KM (option symref) :=
  match ps with
  | [] => mret None
  | p :: ps =>
      if prop_is P_CHOICE p || prop_is P_SELECT p then check_props is_choice (S i) ps
      else
        stack_set (Some i) false;;
        s ← check_expr_opt (p_visible p);
        match s with
        | Some s => mret (Some s)
        | None =>
            if negb (prop_is P_DEFAULT p) || is_choice then check_props is_choice (S i) ps
            else
              stack_set (Some i) (bool_decide (is_Some (p_expr p)));;
              s ← check_prop_expr (p_expr p);
              match s with
              | Some s => mret (Some s)
              | None => stack_set (Some i) false;; check_props is_choice (S i) ps
              end
        end
  end.

Definition sym_check_sym_deps (s : symref) : KM (option symref) :=
  dep_stack_insert s;;
  y ← get_sym s;
  r ← check_expr_opt (rev_dep y);
  r ← match r with Some r => mret (Some r) | None => check_props (sym_is_choice y) 0 (prop y) end;
  dep_stack_remove;;
  mret r.

Fixpoint check_members (l : list symref) : KM (option symref) :=
  match l with
  | [] => mret None
  | d :: l => r ← sym_check_sym_deps d; match r with Some r => mret (Some r) | None => check_members l end
  end.

Definition sym_check_choice_deps (c : symref) : KM (option symref) :=
  dep_stack_insert c;;
  y ← get_sym c;
  l ← plift (choice_list y);
  pforeach (fun d => or_flags d (Z.lor SYMBOL_CHECK SYMBOL_CHECKED)) l;;
  or_flags c (Z.lor SYMBOL_CHECK SYMBOL_CHECKED);;
  r ← sym_check_sym_deps c;
  and_not_flags c SYMBOL_CHECK;;
  r ← match r with Some r => mret (Some r) | None => check_members l end;
  pforeach (fun d => and_not_flags d SYMBOL_CHECK) l;;
  r ← (match r with
       | Some s2 =>
           z ← get_sym s2;
           if sym_is_choice_value z then
             c2 ← plift (choice_of z); mret (Some (if Nat.eqb c2 c then c else s2))
           else mret (Some s2)
       | None => mret None
       end);
  dep_stack_remove;;
  mret r.

Definition check_deps_body (s : symref) : KM (option symref) :=
  y ← get_sym s;
  if has SYMBOL_CHECK (flags y) then sym_check_print_recursive s;; mret (Some s)
  else if has SYMBOL_CHECKED (flags y) then mret None
  else
    r ← (if sym_is_choice_value y then
           dep_stack_insert s;;
           c ← plift (choice_of y);
           r ← check c;
           dep_stack_remove;;
           mret r
         else if sym_is_choice y then sym_check_choice_deps s
         else
           or_flags s (Z.lor SYMBOL_CHECK SYMBOL_CHECKED);;
           r ← sym_check_sym_deps s;
           and_not_flags s SYMBOL_CHECK;;
           mret r);
    mret (if bool_decide (r = Some s) then None else r).
End CheckDeps.

(** [sym_check_deps] with bounded recursion. *)
Fixpoint check_deps_fuel (n : nat) (s : symref) : KM (option symref) :=
  match n with O => pnofuel | S n => check_deps_body (check_deps_fuel n) s end.
Definition unchecked (st : kstate) : nat :=
  map_fold (fun _ y n => (if has SYMBOL_CHECKED (flags y) then 0 else 1) + n)%nat 0%nat (syms st).
Definition sym_check_deps (s : symref) : KM (option symref) :=
  fun st => check_deps_fuel (2 * unchecked st + 2) s st.
