(* ===== verification/KSymFacts.v ===== *)
(** The calculation of symbol values ends for every configuration, recursive
    dependencies included, and what it computes. *)
From S2P Require Import Prelude CText KExpr KSym.

(** ** The potential *)

Lemma has_set_other f g x : Z.land f g = 0 -> has f (set_bits g x) = has f x.
Proof.
  unfold has, set_bits. intros H. rewrite Z.land_lor_distr_l, (Z.land_comm g f), H.
  by rewrite Z.lor_0_r.
Qed.

Lemma has_clear_other f g x : Z.land f g = 0 -> has f (clear_bits g x) = has f x.
Proof.
  unfold has, clear_bits. intros H. f_equal. f_equal. apply Z.bits_inj'. intros n Hn.
  rewrite !Z.land_spec, Z.lnot_spec by done.
  assert (Z.testbit (Z.land f g) n = false) as Hb by (by rewrite H, Z.testbit_0_l).
  rewrite Z.land_spec in Hb. destruct (Z.testbit x n), (Z.testbit f n), (Z.testbit g n); done.
Qed.

Lemma has_clear f g x : has f (clear_bits g x) = true -> has f x = true.
Proof.
  unfold has, clear_bits. rewrite !negb_true_iff, !Z.eqb_neq. intros H E. apply H.
  by rewrite <- Z.land_assoc, (Z.land_comm (Z.lnot g)), Z.land_assoc, E, Z.land_0_l.
Qed.

Lemma has_set f g x : has f x = true -> has f (set_bits g x) = true.
Proof.
  unfold has, set_bits. rewrite !negb_true_iff, !Z.eqb_neq. intros H E. apply H.
  rewrite Z.land_lor_distr_l in E. by apply Z.lor_eq_0_iff in E as [-> _].
Qed.

Lemma has_set_same f x : f <> 0 -> has f (set_bits f x) = true.
Proof.
  unfold has, set_bits. rewrite negb_true_iff, Z.eqb_neq. intros Hf E. apply Hf.
  rewrite Z.land_lor_distr_l, Z.land_diag in E. by apply Z.lor_eq_0_iff in E as [_ ->].
Qed.

Lemma has_clear_same f g x : Z.land f g = f -> has f (clear_bits g x) = false.
Proof.
  unfold has, clear_bits. intros H. apply negb_false_iff, Z.eqb_eq. rewrite <- Z.land_assoc.
  replace (Z.land (Z.lnot g) f) with 0; [by rewrite Z.land_0_r|].
  rewrite <- H. apply Z.bits_inj'. intros n Hn. rewrite Z.testbit_0_l, !Z.land_spec, Z.lnot_spec by done.
  by destruct (Z.testbit f n), (Z.testbit g n).
Qed.

Lemma potential_update st s y y' : syms st !! s = Some y ->
  (potential (upd_syms (insert s y') st) + sym_weight y = potential st + sym_weight y')%nat.
Proof.
  intros E. unfold potential. cbn [syms upd_syms].
  rewrite <- (insert_delete_id (syms st) s y E) at 2. rewrite <- (insert_delete_eq _ s y').
  rewrite (map_fold_insert_L _ _ s y'), (map_fold_insert_L _ _ s y);
    try (intros; lia); apply lookup_delete_eq.
Qed.

(** Programs that never raise the potential while it is at most [k]. *)
Definition bounded {A} (k : nat) (m : KM A) : Prop :=
  forall st, (potential st <= k)%nat -> wp m (fun _ st' => (potential st' <= potential st)%nat) st.

Lemma bounded_bind {A B} k (m : KM A) (f : A -> KM B) :
  bounded k m -> (forall a, bounded k (f a)) -> bounded k (m ≫= f).
Proof.
  intros Hm Hf st Hst. apply wp_bind. eapply wp_mono; [by apply Hm|]. cbn. intros a st' H.
  eapply wp_mono; [apply Hf; lia|]. cbn. lia.
Qed.
Lemma bounded_ret {A} k (a : A) : bounded k (mret a : KM A).
Proof. intros st _. by apply wp_ret. Qed.
Lemma bounded_get k : bounded k pget.
Proof. intros st _. by apply wp_get. Qed.
Lemma bounded_lift {A} k (o : option A) : bounded k (plift o).
Proof. intros st _. by apply wp_lift. Qed.
Lemma bounded_fault {A} k : bounded k (pfault : KM A).
Proof. done. Qed.
Lemma bounded_when k b (m : KM unit) : bounded k m -> bounded k (pwhen b m).
Proof. destruct b; [done|]. intros _. apply bounded_ret. Qed.
Lemma bounded_foreach {A} k (f : A -> KM unit) l : (forall a, bounded k (f a)) -> bounded k (pforeach f l).
Proof.
  intros Hf. induction l as [|a l IH]; [apply bounded_ret|]. cbn. by apply bounded_bind.
Qed.
Lemma bounded_modify k f : (forall st, syms (f st) = syms st) -> bounded k (pmodify f).
Proof. intros H st _. apply wp_modify. unfold potential. by rewrite H. Qed.
Lemma bounded_get_sym k s : bounded k (get_sym s).
Proof. apply bounded_bind; [apply bounded_get|]. intros st. apply bounded_lift. Qed.

Lemma run_get_sym s y st : syms st !! s = Some y -> get_sym s st = Ok y st.
Proof. intros E. unfold get_sym, mbind, PM_bind, pget, plift. by rewrite E. Qed.
Lemma run_mod_sym s f y st : syms st !! s = Some y -> mod_sym s f st = Ok tt (upd_syms (insert s (f y)) st).
Proof. intros E. unfold mod_sym. by rewrite (run_bind _ _ _ _ _ (run_get_sym s y st E)). Qed.
Lemma wp_get_sym s Q st : (forall y, syms st !! s = Some y -> Q y st) -> wp (get_sym s) Q st.
Proof. intros H. apply wp_bind, wp_get, wp_lift, H. Qed.
Lemma wp_mod_sym s f Q st :
  (forall y, syms st !! s = Some y -> Q tt (upd_syms (insert s (f y)) st)) -> wp (mod_sym s f) Q st.
Proof. intros H. apply wp_bind, wp_get_sym. intros y E. by apply wp_modify, H. Qed.

Lemma bounded_mod_sym k s f : (forall y, sym_weight (f y) <= sym_weight y)%nat -> bounded k (mod_sym s f).
Proof.
  intros Hf st _. apply wp_mod_sym. intros y E. pose proof (potential_update st s y (f y) E).
  specialize (Hf y). lia.
Qed.

Lemma weight_flags f y : sym_weight (set_flags f y)
  = ((if has SYMBOL_VALID (f (flags y)) then 0 else 1)
     + (if has SYMBOL_NEED_SET_CHOICE_VALUES (f (flags y)) then 2 else 0))%nat.
Proof. done. Qed.

Lemma bounded_or_flags k s f : Z.land SYMBOL_NEED_SET_CHOICE_VALUES f = 0 -> bounded k (or_flags s f).
Proof.
  intros Hf. apply bounded_mod_sym. intros y. rewrite weight_flags. unfold sym_weight.
  rewrite (has_set_other _ _ _ Hf).
  destruct (has SYMBOL_VALID (flags y)) eqn:E; [by rewrite has_set|].
  repeat case_match; lia.
Qed.

Lemma bounded_and_not_flags k s f : Z.land SYMBOL_VALID f = 0 -> bounded k (and_not_flags s f).
Proof.
  intros Hf. apply bounded_mod_sym. intros y. rewrite weight_flags. unfold sym_weight.
  rewrite (has_clear_other _ _ _ Hf).
  destruct (has SYMBOL_NEED_SET_CHOICE_VALUES (clear_bits f (flags y))) eqn:E;
    [apply has_clear in E as ->|]; repeat case_match; lia.
Qed.

Create HintDb bnd discriminated.
#[export] Hint Resolve bounded_bind bounded_ret bounded_get bounded_lift bounded_fault bounded_when
  bounded_foreach bounded_get_sym : bnd.
#[export] Hint Extern 2 (bounded _ (or_flags _ _)) => apply bounded_or_flags; reflexivity : bnd.
#[export] Hint Extern 2 (bounded _ (and_not_flags _ _)) => apply bounded_and_not_flags; reflexivity : bnd.
#[export] Hint Extern 2 (bounded _ (mod_sym _ _)) => apply bounded_mod_sym; intros; reflexivity : bnd.
#[export] Hint Extern 2 (bounded _ (pmodify _)) => apply bounded_modify; intros; reflexivity : bnd.

(** Follow the structure of a program. *)
Ltac bnd :=
  repeat (intros; cbv beta;
    lazymatch goal with
    | |- bounded _ (_ ≫= _) => apply bounded_bind
    | |- bounded _ (pwhen _ _) => apply bounded_when
    | |- bounded _ (pforeach _ _) => apply bounded_foreach
    | |- bounded _ (match ?x with _ => _ end) => destruct x
    | |- bounded _ _ => solve [eauto with bnd]
    end).

(** ** The routines keep the potential bounded *)

Section Bounded.
Variables (k : nat) (calc : symref -> KM unit).
Hypothesis Hcalc : forall s, bounded k (calc s).
#[local] Hint Resolve Hcalc : bnd.

Lemma bounded_set_changed s : bounded k (sym_set_changed s).
Proof. unfold sym_set_changed. bnd. Qed.
#[local] Hint Resolve bounded_set_changed : bnd.

Lemma bounded_for_all f : (forall s, bounded k (f s)) -> bounded k (for_all_symbols f).
Proof. intros Hf. unfold for_all_symbols. bnd. Qed.
#[local] Hint Resolve bounded_for_all : bnd.

Lemma bounded_get_type s : bounded k (get_type s).
Proof. unfold get_type. bnd. Qed.
Lemma bounded_modules : bounded k (calc_modules calc).
Proof. unfold calc_modules. bnd. Qed.
Lemma bounded_modules_tri : bounded k modules_tri.
Proof. unfold modules_tri. bnd. Qed.
Lemma bounded_sval v : bounded k (sval_string v).
Proof. unfold sval_string. bnd. Qed.
#[local] Hint Resolve bounded_get_type bounded_modules bounded_modules_tri bounded_sval : bnd.

Lemma bounded_string_value s : bounded k (sym_get_string_value_with calc s).
Proof. unfold sym_get_string_value_with. bnd. Qed.
#[local] Hint Resolve bounded_string_value : bnd.

Lemma bounded_calc_expr e : bounded k (calc_expr calc e).
Proof. induction e; cbn [calc_expr]; bnd. Qed.
Lemma bounded_calc_expr_opt e : bounded k (calc_expr_opt calc e).
Proof. destruct e; [apply bounded_calc_expr|apply bounded_ret]. Qed.
Lemma bounded_calc_prop_expr e : bounded k (calc_prop_expr calc e).
Proof. destruct e as [[]|]; try apply bounded_ret. apply bounded_calc_expr. Qed.
Lemma bounded_set_visible_tri s i t : bounded k (set_visible_tri s i t).
Proof. unfold set_visible_tri. bnd. Qed.
#[local] Hint Resolve bounded_calc_expr bounded_calc_expr_opt bounded_calc_prop_expr
  bounded_set_visible_tri : bnd.

Lemma bounded_visible_prop ty s i ps : bounded k (visible_prop calc ty s i ps).
Proof. revert i. induction ps; intros i; cbn [visible_prop]; bnd. Qed.
#[local] Hint Resolve bounded_visible_prop : bnd.

Lemma bounded_default_prop s : bounded k (sym_get_default_prop calc s).
Proof. unfold sym_get_default_prop. bnd. Qed.
Lemma bounded_range_prop s : bounded k (sym_get_range_prop calc s).
Proof. unfold sym_get_range_prop. bnd. Qed.
Lemma bounded_range_val s b : bounded k (sym_get_range_val calc s b).
Proof. unfold sym_get_range_val. bnd. Qed.
Lemma bounded_strdup s : bounded k (strdup s).
Proof. unfold strdup. bnd. Qed.
#[local] Hint Resolve bounded_default_prop bounded_range_prop bounded_range_val bounded_strdup : bnd.

Lemma bounded_validate_range s : bounded k (sym_validate_range calc s).
Proof. unfold sym_validate_range. bnd. Qed.
Lemma bounded_visible_prompts s i ps acc : bounded k (visible_prompts calc s i ps acc).
Proof. revert i acc. induction ps; intros i acc; cbn [visible_prompts]; bnd. Qed.
Lemma bounded_store_tri s f g t : (forall y, sym_weight (g t y) = sym_weight y) -> bounded k (store_tri s f g t).
Proof. intros Hg. unfold store_tri. bnd. apply bounded_mod_sym. intros y. by rewrite Hg. Qed.
#[local] Hint Extern 2 (bounded _ (store_tri _ _ _ _)) => apply bounded_store_tri; reflexivity : bnd.
#[local] Hint Resolve bounded_validate_range bounded_visible_prompts : bnd.

Lemma bounded_visibility s : bounded k (sym_calc_visibility calc s).
Proof. unfold sym_calc_visibility. bnd. Qed.
Lemma bounded_default_choice_prop s i ps : bounded k (choice_default_prop calc s i ps).
Proof. revert i. induction ps; intros i; cbn [choice_default_prop]; bnd. Qed.
Lemma bounded_first_visible l : bounded k (first_visible l).
Proof. induction l; cbn [first_visible]; bnd. Qed.
#[local] Hint Resolve bounded_visibility bounded_default_choice_prop bounded_first_visible : bnd.

Lemma bounded_choice_default s : bounded k (sym_choice_default_with calc s).
Proof. unfold sym_choice_default_with. bnd. Qed.
Lemma bounded_choice_flags l f : bounded k (choice_flags calc l f).
Proof. revert f. induction l; intros f; cbn [choice_flags]; bnd. Qed.
#[local] Hint Resolve bounded_choice_default bounded_choice_flags : bnd.

(** Masking the flags of a choice only takes bits away that are not [VALID]. *)
Lemma bounded_choice_mask s f :
  bounded k (mod_sym s (set_flags (fun x => Z.land x (Z.lor f (Z.lnot SYMBOL_DEF_USER))))).
Proof.
  apply bounded_mod_sym. intros y. rewrite weight_flags. unfold sym_weight.
  assert (H : forall b x, Z.land SYMBOL_DEF_USER b = 0 ->
    has b (Z.land x (Z.lor f (Z.lnot SYMBOL_DEF_USER))) = has b x).
  { intros b x Hb. unfold has. f_equal. f_equal. apply Z.bits_inj'. intros n Hn.
    apply (f_equal (fun z => Z.testbit z n)) in Hb. rewrite Z.testbit_0_l in Hb.
    rewrite !Z.land_spec, Z.lor_spec, Z.lnot_spec in * by done.
    destruct (Z.testbit x n), (Z.testbit f n), (Z.testbit SYMBOL_DEF_USER n), (Z.testbit b n); done. }
  by rewrite !H.
Qed.
#[local] Hint Resolve bounded_choice_mask : bnd.

Lemma bounded_calc_choice s : bounded k (sym_calc_choice calc s).
Proof. unfold sym_calc_choice. bnd. Qed.
Lemma bounded_tristate_base s : bounded k (calc_tristate_base calc s).
Proof. unfold calc_tristate_base. bnd. Qed.
Lemma bounded_newval s t : bounded k (calc_newval s t).
Proof. unfold calc_newval. bnd. Qed.
Lemma bounded_text s v : bounded k (calc_text calc s v).
Proof. unfold calc_text. bnd. Qed.
Lemma bounded_members s : bounded k (calc_members s).
Proof. unfold calc_members. bnd. Qed.
#[local] Hint Resolve bounded_calc_choice bounded_tristate_base bounded_newval bounded_text bounded_members : bnd.

Lemma bounded_tristate s : bounded k (calc_tristate calc s).
Proof. unfold calc_tristate. bnd. Qed.
Lemma bounded_set_all_changed : bounded k sym_set_all_changed.
Proof. unfold sym_set_all_changed. bnd. Qed.
#[local] Hint Resolve bounded_tristate bounded_set_all_changed : bnd.
End Bounded.

(** ** Termination *)

(** [s] is marked for [set_all_choice_values]. *)
Definition needs (s : symref) (st : kstate) : Prop :=
  exists y, syms st !! s = Some y /\ has SYMBOL_NEED_SET_CHOICE_VALUES (flags y) = true.

Lemma needs_insert s d y' st :
  needs s st -> (s = d -> has SYMBOL_NEED_SET_CHOICE_VALUES (flags y') = true) ->
  needs s (upd_syms (insert d y') st).
Proof.
  intros (y & E & Hn) H. unfold needs. cbn. destruct (decide (s = d)) as [->|Hne].
  - exists y'. rewrite lookup_insert_eq. auto.
  - exists y. by rewrite lookup_insert_ne by done.
Qed.

Lemma wp_mod_sym_potential s f (Q : unit -> kstate -> Prop) st :
  (forall y st', syms st !! s = Some y -> syms st' = <[s := f y]> (syms st) ->
     (potential st' + sym_weight y = potential st + sym_weight (f y))%nat -> Q tt st') ->
  wp (mod_sym s f) Q st.
Proof.
  intros H. apply wp_mod_sym. intros y E. apply (H y); [done|done|]. by apply potential_update.
Qed.

Lemma needs_set s f y st st' : syms st !! s = Some y -> needs s st ->
  syms st' = <[s := f y]> (syms st) ->
  has SYMBOL_NEED_SET_CHOICE_VALUES (flags (f y)) = has SYMBOL_NEED_SET_CHOICE_VALUES (flags y) ->
  needs s st'.
Proof.
  intros E (z & Ez & Hz) S H. exists (f y). rewrite S, lookup_insert_eq. split; [done|].
  rewrite H. congruence.
Qed.

Lemma set_all_choice_values_potential s st :
  needs s st -> wp (set_all_choice_values s) (fun _ st' => (potential st' <= potential st)%nat) st.
Proof.
  intros Hs. unfold set_all_choice_values. apply wp_bind, wp_get_sym. intros y _.
  apply wp_bind, wp_lift. intros l _.
  set (I st' := needs s st' /\ potential st' = potential st).
  apply wp_bind. eapply wp_mono.
  { apply (wp_foreach _ I); [by split|]. intros d st1 _ [H1 H2].
    apply wp_bind, wp_get_sym. intros v Ev. apply wp_when; intros _; [|by split].
    apply wp_mod_sym_potential. intros v' st2 Ev' S P. split.
    - destruct (decide (d = s)) as [->|Hne]; [by eapply needs_set|].
      destruct H1 as (z & Ez & Hz). exists z. by rewrite S, lookup_insert_ne.
    - rewrite <- H2. change (sym_weight (set_def_user _ v')) with (sym_weight v') in P. lia. }
  cbn. intros _ st1 [H1 H2]. apply wp_bind, wp_mod_sym_potential. intros z st2 Ez S P.
  assert (Hz : has SYMBOL_NEED_SET_CHOICE_VALUES (flags z) = true)
    by (destruct H1 as (z' & E' & ?); congruence).
  apply wp_mod_sym_potential. intros z' st3 Ez' S' P'.
  rewrite S, lookup_insert_eq in Ez'. injection Ez' as <-. rewrite weight_flags in P, P'.
  unfold sym_weight in P, P'. cbn [set_flags flags] in P'.
  rewrite !has_clear_same in P' by reflexivity.
  rewrite !(has_set_other _ SYMBOL_DEF_USER) in P, P' by reflexivity. rewrite Hz in *.
  repeat case_match; lia.
Qed.

Section Body.
Variables (k : nat) (calc : symref -> KM unit).
Hypothesis Hcalc : forall s, bounded k (calc s).

Lemma bounded_finish s :
  bounded k (y ← get_sym s; pwhen (has SYMBOL_NEED_SET_CHOICE_VALUES (flags y)) (set_all_choice_values s)).
Proof.
  intros st _. apply wp_bind, wp_get_sym. intros y E. apply wp_when; [|done].
  intros Hn. apply set_all_choice_values_potential. by exists y.
Qed.

Lemma bounded_store s old v0 : bounded k (calc_store calc s old v0).
Proof.
  unfold calc_store.
  repeat first [apply bounded_finish | apply bounded_bind; [solve [bnd; eauto using bounded_get_type,
    bounded_tristate, bounded_text, bounded_calc_choice, bounded_validate_range, bounded_set_changed,
    bounded_set_all_changed, bounded_members with bnd]|intros ?]].
Qed.

(** Entered from a potential of [k + 1], [sym_calc_value] lowers it to [k] or
    less before it calls itself. *)
Lemma calc_body_bounded s st : (potential st <= S k)%nat ->
  wp (calc_body calc s) (fun _ st' => (potential st' <= potential st)%nat) st.
Proof.
  intros Hst. unfold calc_body. apply wp_bind, wp_get_sym. intros y E.
  destruct (has SYMBOL_VALID (flags y)) eqn:Hv; [by apply wp_ret|].
  apply wp_bind. apply wp_mono with (Q := fun _ st1 =>
    st1 = st \/ (potential st1 <= k)%nat /\ (potential st1 <= potential st)%nat).
  { unfold calc_owner. apply wp_bind, wp_get_sym. intros y' E'. apply wp_when; [|by left].
    intros [_ Hn]%andb_true_iff. apply wp_bind, wp_mod_sym_potential. intros z st1 Ez S P.
    replace z with y' in * by congruence. rewrite weight_flags in P. unfold sym_weight in P.
    rewrite (has_clear_same SYMBOL_NEED_SET_CHOICE_VALUES), (has_clear_other SYMBOL_VALID), Hn in P by reflexivity.
    apply wp_bind, wp_lift. intros c _. eapply wp_mono; [apply Hcalc|]; cbn; intros; lia. }
  intros _ st1 H1. apply wp_bind, wp_mod_sym_potential. intros z st2 Ez S P.
  assert (H2 : (potential st2 <= k /\ potential st2 <= potential st)%nat).
  { rewrite weight_flags in P. unfold sym_weight in P.
    rewrite (has_set_same SYMBOL_VALID), (has_set_other SYMBOL_NEED_SET_CHOICE_VALUES) in P by (done || reflexivity).
    destruct H1 as [->|H1]; [|repeat case_match; lia].
    replace z with y in * by congruence. rewrite Hv in P. lia. }
  clear P. eapply wp_mono with (Q := fun _ st3 => (potential st3 <= potential st2)%nat); [|cbn; intros; lia].
  destruct H2 as [H2 _]. clear -Hcalc H2.
  assert (B : bounded k (
    y ← get_sym s;
    let old := curr y in
    let go v0 :=
      pwhen (negb (sym_is_choice_value y)) (and_not_flags s SYMBOL_WRITE);;
      sym_calc_visibility calc s;;
      calc_store calc s old v0 in
    match type y with
    | S_INT | S_HEX | S_STRING => go {| val := VStr LEmpty ""; tri := Tno |}
    | S_BOOLEAN | S_TRISTATE => go {| val := VStr (LName symbol_no) "n"; tri := Tno |}
    | _ => mod_sym s (set_curr {| val := match name y with Some n => VStr (LName s) n | None => VNull end;
                                  tri := Tno |})
    end)); [|by apply B].
  apply bounded_bind; [apply bounded_get_sym|]. intros y. cbv zeta.
  bnd; eauto using bounded_visibility, bounded_store.
Qed.
End Body.

Lemma calc_fuel_bounded n : forall s st, (potential st < n)%nat ->
  wp (calc_fuel n s) (fun _ st' => (potential st' <= potential st)%nat) st.
Proof.
  induction n as [|n IH]; [lia|]. intros s st Hn. cbn [calc_fuel].
  destruct n as [|n].
  - unfold calc_body. apply wp_bind, wp_get_sym. intros y E.
    assert (has SYMBOL_VALID (flags y) = true) as ->; [|by apply wp_ret].
    pose proof (potential_update st s y y E) as _. destruct (has SYMBOL_VALID (flags y)) eqn:Hv; [done|].
    exfalso. unfold potential in Hn. rewrite <- (insert_delete_id (syms st) s y E) in Hn.
    rewrite map_fold_insert_L in Hn; [|intros; lia|apply lookup_delete_eq].
    unfold sym_weight in Hn. rewrite Hv in Hn. lia.
  - apply (calc_body_bounded n); [|lia]. intros s' st' Hst'. apply IH. lia.
Qed.

(** *** More fuel never changes an answer *)

Definition below {A} (m m' : KM A) : Prop := forall st, m st = NoFuel \/ m st = m' st.

Lemma below_refl {A} (m : KM A) : below m m.
Proof. by right. Qed.
Lemma below_bind {A B} (m m' : KM A) (f f' : A -> KM B) :
  below m m' -> (forall a, below (f a) (f' a)) -> below (m ≫= f) (m' ≫= f').
Proof.
  intros Hm Hf st. unfold mbind, PM_bind. destruct (Hm st) as [->| ->]; [by left|].
  destruct (m' st); [apply Hf|by right|by left].
Qed.
Lemma below_when b (m m' : KM unit) : below m m' -> below (pwhen b m) (pwhen b m').
Proof. destruct b; [done|]. intros _. apply below_refl. Qed.
Lemma below_foreach {A} (f f' : A -> KM unit) l :
  (forall a, below (f a) (f' a)) -> below (pforeach f l) (pforeach f' l).
Proof. intros Hf. induction l as [|a l IH]; [apply below_refl|]. cbn. by apply below_bind. Qed.

Create HintDb blw discriminated.
#[export] Hint Resolve below_refl : blw.
Ltac blw :=
  repeat (intros; cbv beta zeta;
    lazymatch goal with
    | |- below ?m ?m => apply below_refl
    | |- below (_ ≫= _) (_ ≫= _) => apply below_bind
    | |- below (pwhen _ _) (pwhen _ _) => apply below_when
    | |- below (pforeach _ _) (pforeach _ _) => apply below_foreach
    | |- below (match ?x with _ => _ end) _ => destruct x
    | |- below _ _ => solve [eauto with blw]
    end).

Section Below.
Variables calc calc' : symref -> KM unit.
Hypothesis Hcalc : forall s, below (calc s) (calc' s).
#[local] Hint Resolve Hcalc : blw.

Lemma below_modules : below (calc_modules calc) (calc_modules calc').
Proof. unfold calc_modules. blw. Qed.
#[local] Hint Resolve below_modules : blw.
Lemma below_string_value s : below (sym_get_string_value_with calc s) (sym_get_string_value_with calc' s).
Proof. unfold sym_get_string_value_with. blw. Qed.
#[local] Hint Resolve below_string_value : blw.
Lemma below_calc_expr e : below (calc_expr calc e) (calc_expr calc' e).
Proof. induction e; cbn [calc_expr]; blw. Qed.
#[local] Hint Resolve below_calc_expr : blw.
Lemma below_calc_expr_opt e : below (calc_expr_opt calc e) (calc_expr_opt calc' e).
Proof. unfold calc_expr_opt. blw. Qed.
Lemma below_calc_prop_expr e : below (calc_prop_expr calc e) (calc_prop_expr calc' e).
Proof. unfold calc_prop_expr. blw. Qed.
#[local] Hint Resolve below_calc_expr_opt below_calc_prop_expr : blw.
Lemma below_visible_prop ty s i ps : below (visible_prop calc ty s i ps) (visible_prop calc' ty s i ps).
Proof. revert i. induction ps; intros i; cbn [visible_prop]; blw. Qed.
#[local] Hint Resolve below_visible_prop : blw.
Lemma below_default_prop s : below (sym_get_default_prop calc s) (sym_get_default_prop calc' s).
Proof. unfold sym_get_default_prop. blw. Qed.
Lemma below_range_prop s : below (sym_get_range_prop calc s) (sym_get_range_prop calc' s).
Proof. unfold sym_get_range_prop. blw. Qed.
Lemma below_range_val s b : below (sym_get_range_val calc s b) (sym_get_range_val calc' s b).
Proof. unfold sym_get_range_val. blw. Qed.
#[local] Hint Resolve below_default_prop below_range_prop below_range_val : blw.
Lemma below_validate_range s : below (sym_validate_range calc s) (sym_validate_range calc' s).
Proof. unfold sym_validate_range. blw. Qed.
Lemma below_visible_prompts s i ps acc :
  below (visible_prompts calc s i ps acc) (visible_prompts calc' s i ps acc).
Proof. revert i acc. induction ps; intros i acc; cbn [visible_prompts]; blw. Qed.
#[local] Hint Resolve below_validate_range below_visible_prompts : blw.
Lemma below_visibility s : below (sym_calc_visibility calc s) (sym_calc_visibility calc' s).
Proof. unfold sym_calc_visibility. blw. Qed.
Lemma below_default_choice s i ps : below (choice_default_prop calc s i ps) (choice_default_prop calc' s i ps).
Proof. revert i. induction ps; intros i; cbn [choice_default_prop]; blw. Qed.
#[local] Hint Resolve below_visibility below_default_choice : blw.
Lemma below_choice_default s : below (sym_choice_default_with calc s) (sym_choice_default_with calc' s).
Proof. unfold sym_choice_default_with. blw. Qed.
Lemma below_choice_flags l f : below (choice_flags calc l f) (choice_flags calc' l f).
Proof. revert f. induction l; intros f; cbn [choice_flags]; blw. Qed.
#[local] Hint Resolve below_choice_default below_choice_flags : blw.
Lemma below_calc_choice s : below (sym_calc_choice calc s) (sym_calc_choice calc' s).
Proof. unfold sym_calc_choice. blw. Qed.
Lemma below_tristate_base s : below (calc_tristate_base calc s) (calc_tristate_base calc' s).
Proof. unfold calc_tristate_base. blw. Qed.
Lemma below_text s v : below (calc_text calc s v) (calc_text calc' s v).
Proof. unfold calc_text. blw. Qed.
#[local] Hint Resolve below_calc_choice below_tristate_base below_text : blw.
Lemma below_tristate s : below (calc_tristate calc s) (calc_tristate calc' s).
Proof. unfold calc_tristate. blw. Qed.
#[local] Hint Resolve below_tristate : blw.
Lemma below_store s old v0 : below (calc_store calc s old v0) (calc_store calc' s old v0).
Proof. unfold calc_store. blw. Qed.
Lemma below_owner s : below (calc_owner calc s) (calc_owner calc' s).
Proof. unfold calc_owner. blw. Qed.
#[local] Hint Resolve below_store below_owner : blw.
Lemma below_body s : below (calc_body calc s) (calc_body calc' s).
Proof. unfold calc_body. blw. Qed.
End Below.

Lemma calc_fuel_mono n m s : (n <= m)%nat -> below (calc_fuel n s) (calc_fuel m s).
Proof.
  revert m s. induction n as [|n IH]; intros [|m] s H; try lia; try (intros st; by left).
  cbn [calc_fuel]. apply below_body. intros s'. apply IH. lia.
Qed.

(** C9. [sym_calc_value] ends in every state, recursive dependencies and broken
    configurations included: the depth of its recursion is bounded by the number
    of symbols not yet valid plus twice the number of choices whose values are to
    be set, every greater bound gives the same result, and the call never adds to
    that number. *)
Theorem sym_calc_value_terminates s st :
  sym_calc_value s st <> NoFuel /\
  (forall n, (potential st < n)%nat -> calc_fuel n s st = sym_calc_value s st) /\
  (forall st', sym_calc_value s st = Ok tt st' -> (potential st' <= potential st)%nat).
Proof.
  pose proof (calc_fuel_bounded (S (potential st)) s st ltac:(lia)) as H. unfold sym_calc_value, wp in *.
  split; [by intros E; rewrite E in H|]. split; [|by intros st' E; rewrite E in H].
  intros n Hn. destruct (calc_fuel_mono (S (potential st)) n s ltac:(lia) st) as [E|E]; [|done].
  by rewrite E in H.
Qed.
