(* ===== verification/KSymFrame.v ===== *)
(** What the calculation of a symbol does to the others: a symbol that is valid
    already and belongs to no choice keeps its value, its visibility and the
    user's value. *)
From S2P Require Import Prelude CText KExpr KSym KSymFacts.

(** All of a symbol but the marks [SYMBOL_CHANGED] and [SYMBOL_WRITE] and the
    cached conditions of its properties. *)
Definition core (y : symbol) : symbol :=
  set_prop [] (set_flags (clear_bits (Z.lor SYMBOL_CHANGED SYMBOL_WRITE)) y).

Definition in_no_choice (s : symref) (st : kstate) : Prop :=
  forall c y l, syms st !! c = Some y -> choice_list y = Some l -> s ∉ l.

Definition frozen (s : symref) (y0 : symbol) (st : kstate) : Prop :=
  (exists y, syms st !! s = Some y /\ core y = y0) /\ in_no_choice s st.

Lemma core_flag f y : Z.land f (Z.lor SYMBOL_CHANGED SYMBOL_WRITE) = 0 ->
  has f (flags (core y)) = has f (flags y).
Proof. intros H. cbn. by rewrite has_clear_other. Qed.

Lemma find_alter {A} (f : A -> bool) (g : A -> A) i l :
  (forall x, f (g x) = f x) ->
  List.find f (alter g i l) = List.find f l \/
  exists x, List.find f l = Some x /\ List.find f (alter g i l) = Some (g x).
Proof.
  intros H. revert i. induction l as [|x l IH]; intros i; [by left|].
  destruct i as [|i]; cbn.
  - rewrite H. destruct (f x); [right; eauto|by left].
  - destruct (f x); [by left|apply IH].
Qed.

Lemma choice_list_alter g i y :
  (forall p, p_type (g p) = p_type p /\ p_expr (g p) = p_expr p) ->
  choice_list (set_prop (alter g i (prop y)) y) = choice_list y.
Proof.
  intros H. unfold choice_list, sym_get_choice_prop. cbn [prop set_prop].
  destruct (find_alter (prop_is P_CHOICE) g i (prop y)) as [->|(x & -> & ->)].
  - intros x. unfold prop_is. by rewrite (proj1 (H x)).
  - done.
  - cbn. unfold list_syms. by rewrite (proj2 (H x)).
Qed.

Section Frozen.
Variables (s : symref) (y0 : symbol).
Abbreviation F := (frozen s y0).

(** What is known of a symbol that was read. *)
Definition known (d : symref) (y : symbol) : Prop :=
  (forall l, choice_list y = Some l -> s ∉ l) /\ (d = s -> core y = y0).

Lemma keeps_get_sym d : keeps F (known d) (get_sym d).
Proof.
  intros st [(y & E & Hy) Hc]. unfold get_sym, mbind, PM_bind, pget, plift.
  destruct (syms st !! d) as [z|] eqn:Ed; [|done]. split; [split; [by exists y|done]|].
  split; [intros l Hl; exact (Hc d z l Ed Hl)|]. intros ->. by simplify_eq.
Qed.

Lemma keeps_mod_sym d f :
  (forall y, choice_list (f y) = choice_list y) -> (d = s -> forall y, core (f y) = core y) ->
  keeps F any (mod_sym d f).
Proof.
  intros Hl Hd st [(y & E & Hy) Hc].
  unfold mod_sym, get_sym, mbind, PM_bind, pget, plift, pmodify.
  destruct (syms st !! d) as [z|] eqn:Ed; [|done]. split; [|done]. split.
  - cbn. destruct (decide (d = s)) as [->|Hne].
    + exists (f z). rewrite lookup_insert_eq, Hd by done. split; [done|]. by simplify_eq.
    + exists y. by rewrite lookup_insert_ne.
  - intros c yc l. cbn. destruct (decide (c = d)) as [->|Hne].
    + rewrite lookup_insert_eq. intros [= <-]. rewrite Hl. exact (Hc d z l Ed).
    + rewrite lookup_insert_ne by done. exact (Hc c yc l).
Qed.

Lemma keeps_other_modify g : (forall st, syms (g st) = syms st) -> keeps F any (pmodify g).
Proof.
  intros H. apply keeps_modify. intros st [(y & E & Hy) Hc]. split.
  - exists y. by rewrite H.
  - intros c yc l. rewrite H. exact (Hc c yc l).
Qed.

Lemma keeps_get_st : keeps F any pget.
Proof. intros st H. by split. Qed.

Lemma keeps_or_mark d f :
  (forall x, clear_bits (Z.lor SYMBOL_CHANGED SYMBOL_WRITE) (f x)
             = clear_bits (Z.lor SYMBOL_CHANGED SYMBOL_WRITE) x) ->
  keeps F any (mod_sym d (set_flags f)).
Proof.
  intros Hf. apply keeps_mod_sym; [done|]. intros _ y. unfold core, set_flags. cbn. by rewrite Hf.
Qed.

Lemma clear_set_sub m f x : Z.land f m = f -> clear_bits m (set_bits f x) = clear_bits m x.
Proof.
  intros H. unfold clear_bits, set_bits. apply Z.bits_inj'. intros n Hn.
  apply (f_equal (fun z => Z.testbit z n)) in H.
  rewrite !Z.land_spec, ?Z.lor_spec, !Z.lnot_spec in * by done.
  destruct (Z.testbit x n), (Z.testbit f n), (Z.testbit m n); done.
Qed.
Lemma clear_clear_sub m f x : Z.land f m = f -> clear_bits m (clear_bits f x) = clear_bits m x.
Proof.
  intros H. unfold clear_bits, set_bits. apply Z.bits_inj'. intros n Hn.
  apply (f_equal (fun z => Z.testbit z n)) in H.
  rewrite !Z.land_spec, !Z.lnot_spec in * by done.
  destruct (Z.testbit x n), (Z.testbit f n), (Z.testbit m n); done.
Qed.

Lemma keeps_mark d f : Z.land f (Z.lor SYMBOL_CHANGED SYMBOL_WRITE) = f -> keeps F any (or_flags d f).
Proof. intros H. apply keeps_or_mark. intros x. by apply clear_set_sub. Qed.
Lemma keeps_unmark d f : Z.land f (Z.lor SYMBOL_CHANGED SYMBOL_WRITE) = f -> keeps F any (and_not_flags d f).
Proof. intros H. apply keeps_or_mark. intros x. by apply clear_clear_sub. Qed.
Lemma keeps_set_visible_tri d i t : keeps F any (set_visible_tri d i t).
Proof. apply keeps_mod_sym; [intros y; by apply choice_list_alter|done]. Qed.
Lemma keeps_other d f : d <> s -> (forall y, choice_list (f y) = choice_list y) ->
  keeps F any (mod_sym d f).
Proof. intros Hd Hf. by apply keeps_mod_sym. Qed.
Lemma keeps_any {A} (Q : A -> Prop) m : keeps F Q m -> keeps F any m.
Proof. intros H. by eapply keeps_weaken. Qed.
End Frozen.

Create HintDb frz discriminated.
#[export] Hint Resolve keeps_set_visible_tri keeps_get_st : frz.
#[export] Hint Extern 2 (keeps _ _ (or_flags _ _)) => apply keeps_mark; reflexivity : frz.
#[export] Hint Extern 2 (keeps _ _ (and_not_flags _ _)) => apply keeps_unmark; reflexivity : frz.
#[export] Hint Extern 2 (keeps _ _ (pmodify _)) => apply keeps_other_modify; intros; reflexivity : frz.
#[export] Hint Extern 4 (keeps _ _ (mod_sym _ _)) => apply keeps_other; [assumption|intros; reflexivity] : frz.
#[export] Hint Extern 1 (any _) => exact I : frz.

(** The members of a choice that was read are other symbols. *)
Ltac not_member :=
  match goal with
  | Hk : known ?s _ _ ?y, Hl : choice_list ?y = Some ?l, Hd : ?d ∈ ?l |- ?d <> ?s =>
      intros ->; exact (proj1 Hk l Hl Hd)
  end.

Ltac frz :=
  repeat (intros; cbv beta zeta;
    lazymatch goal with
    | |- keeps _ _ (get_sym _ ≫= _) => eapply keeps_bind; [apply keeps_get_sym|]
    | |- keeps _ _ (plift _ ≫= _) => eapply keeps_bind; [apply keeps_lift|]
    | |- keeps _ _ (_ ≫= _) => apply (keeps_bind _ any)
    | |- keeps _ _ (mret _) => apply keeps_ret
    | |- keeps _ _ pfault => apply keeps_fault
    | |- keeps _ _ (pwhen _ _) => apply keeps_when
    | |- keeps _ _ (pforeach _ _) => apply keeps_foreach
    | |- keeps _ _ (match ?x with _ => _ end) => destruct x eqn:?
    | |- keeps _ any (get_sym _) => eapply keeps_any, keeps_get_sym
    | |- keeps _ any (plift _) => eapply keeps_weaken; [apply keeps_lift|]
    | |- _ => solve [eauto with frz]
    end).

Section Routines.
Variables (s : symref) (y0 : symbol) (calc : symref -> KM unit).
Abbreviation K := (keeps (frozen s y0) any).
Hypothesis Hcalc : forall d, K (calc d).
#[local] Hint Resolve Hcalc : frz.

Lemma keeps_set_changed d : K (sym_set_changed d).
Proof. unfold sym_set_changed. frz. Qed.
#[local] Hint Resolve keeps_set_changed : frz.
Lemma keeps_for_all f : (forall d, K (f d)) -> K (for_all_symbols f).
Proof. intros Hf. unfold for_all_symbols. frz. Qed.
Lemma keeps_all_changed : K sym_set_all_changed.
Proof. apply keeps_for_all. apply keeps_set_changed. Qed.
Lemma keeps_get_type d : K (get_type d).
Proof. unfold get_type. frz. Qed.
Lemma keeps_modules : K (calc_modules calc).
Proof. unfold calc_modules. frz. Qed.
Lemma keeps_modules_tri : K modules_tri.
Proof. unfold modules_tri. frz. Qed.
Lemma keeps_sval v : K (sval_string v).
Proof. unfold sval_string. frz. Qed.
#[local] Hint Resolve keeps_all_changed keeps_get_type keeps_modules keeps_modules_tri keeps_sval : frz.
Lemma keeps_string_value d : K (sym_get_string_value_with calc d).
Proof. unfold sym_get_string_value_with. frz. Qed.
#[local] Hint Resolve keeps_string_value : frz.
Lemma keeps_calc_expr e : K (calc_expr calc e).
Proof. induction e; cbn [calc_expr]; frz. Qed.
#[local] Hint Resolve keeps_calc_expr : frz.
Lemma keeps_calc_expr_opt e : K (calc_expr_opt calc e).
Proof. unfold calc_expr_opt. frz. Qed.
Lemma keeps_calc_prop_expr e : K (calc_prop_expr calc e).
Proof. unfold calc_prop_expr. frz. Qed.
#[local] Hint Resolve keeps_calc_expr_opt keeps_calc_prop_expr : frz.
Lemma keeps_visible_prop ty d i ps : K (visible_prop calc ty d i ps).
Proof. revert i. induction ps; intros i; cbn [visible_prop]; frz. Qed.
#[local] Hint Resolve keeps_visible_prop : frz.
Lemma keeps_default_prop d : K (sym_get_default_prop calc d).
Proof. unfold sym_get_default_prop. frz. Qed.
Lemma keeps_range_prop d : K (sym_get_range_prop calc d).
Proof. unfold sym_get_range_prop. frz. Qed.
Lemma keeps_range_val d b : K (sym_get_range_val calc d b).
Proof. unfold sym_get_range_val. frz. Qed.
Lemma keeps_strdup x : K (strdup x).
Proof. unfold strdup. frz. Qed.
#[local] Hint Resolve keeps_default_prop keeps_range_prop keeps_range_val keeps_strdup : frz.
Lemma keeps_validate_range d : d <> s -> K (sym_validate_range calc d).
Proof. intros Hd. unfold sym_validate_range. frz. Qed.
Lemma keeps_visible_prompts d i ps acc : K (visible_prompts calc d i ps acc).
Proof. revert i acc. induction ps; intros i acc; cbn [visible_prompts]; frz. Qed.
Lemma keeps_store_tri d f g t : d <> s -> (forall y, choice_list (g t y) = choice_list y) ->
  K (store_tri d f g t).
Proof. intros Hd Hg. unfold store_tri. frz. by apply keeps_other. Qed.
#[local] Hint Extern 2 (keeps _ _ (store_tri _ _ _ _)) =>
  apply keeps_store_tri; [assumption|intros; reflexivity] : frz.
#[local] Hint Resolve keeps_validate_range keeps_visible_prompts : frz.
Lemma keeps_visibility d : d <> s -> K (sym_calc_visibility calc d).
Proof. intros Hd. unfold sym_calc_visibility. frz. Qed.
Lemma keeps_default_choice d i ps : K (choice_default_prop calc d i ps).
Proof. revert i. induction ps; intros i; cbn [choice_default_prop]; frz. Qed.
Lemma keeps_first_visible l : K (first_visible l).
Proof. induction l; cbn [first_visible]; frz. Qed.
#[local] Hint Resolve keeps_visibility keeps_default_choice keeps_first_visible : frz.
Lemma keeps_choice_default d : K (sym_choice_default_with calc d).
Proof. unfold sym_choice_default_with. frz. Qed.
Lemma keeps_choice_flags l f : s ∉ l -> K (choice_flags calc l f).
Proof.
  revert f. induction l as [|d l IH]; intros f Hl; cbn [choice_flags]; [frz|].
  apply not_elem_of_cons in Hl as [Hd Hl]. frz.
Qed.
#[local] Hint Resolve keeps_choice_default : frz.
Lemma keeps_calc_choice d : d <> s -> K (sym_calc_choice calc d).
Proof.
  intros Hd. unfold sym_calc_choice.
  eapply keeps_bind; [apply keeps_get_sym|intros y Hy].
  eapply keeps_bind; [apply keeps_lift|intros l Hl].
  apply (keeps_bind _ any); [apply keeps_choice_flags; by apply Hy|]. frz.
Qed.
Lemma keeps_tristate_base d : K (calc_tristate_base calc d).
Proof. unfold calc_tristate_base. frz. Qed.
Lemma keeps_newval d t : K (calc_newval d t).
Proof. unfold calc_newval. frz. Qed.
Lemma keeps_text d v : K (calc_text calc d v).
Proof. unfold calc_text. frz. Qed.
#[local] Hint Resolve keeps_calc_choice keeps_tristate_base keeps_newval keeps_text : frz.
Lemma keeps_tristate d : K (calc_tristate calc d).
Proof. unfold calc_tristate. frz. Qed.
Lemma keeps_members d : K (calc_members d).
Proof. unfold calc_members. frz. Qed.
#[local] Hint Resolve keeps_tristate keeps_members : frz.
Lemma keeps_set_all d : d <> s -> K (set_all_choice_values d).
Proof.
  intros Hd. unfold set_all_choice_values.
  eapply keeps_bind; [apply keeps_get_sym|intros y Hy].
  eapply keeps_bind; [apply keeps_lift|intros l Hl].
  apply (keeps_bind _ any); [|intros; apply (keeps_bind _ any); intros; by apply keeps_other].
  apply keeps_foreach. intros m Hm. assert (m <> s) by (intros ->; exact (proj1 Hy l Hl Hm)). frz.
Qed.
#[local] Hint Resolve keeps_set_all : frz.
Lemma keeps_store d old v0 : d <> s -> K (calc_store calc d old v0).
Proof. intros Hd. unfold calc_store. frz. Qed.
#[local] Hint Resolve keeps_store : frz.
Lemma keeps_owner d : d <> s -> K (calc_owner calc d).
Proof. intros Hd. unfold calc_owner. frz; by apply keeps_other. Qed.
#[local] Hint Resolve keeps_owner : frz.
Lemma keeps_body d : has SYMBOL_VALID (flags y0) = true -> K (calc_body calc d).
Proof.
  intros Hv. unfold calc_body. eapply keeps_bind; [apply keeps_get_sym|intros y Hy].
  destruct (has SYMBOL_VALID (flags y)) eqn:E; [by apply keeps_ret|].
  assert (Hd : d <> s).
  { intros ->. rewrite <- (proj2 Hy eq_refl), core_flag in Hv by reflexivity. congruence. }
  frz; by apply keeps_other.
Qed.
End Routines.

Lemma keeps_calc_fuel s y0 n d : has SYMBOL_VALID (flags y0) = true ->
  keeps (frozen s y0) any (calc_fuel n d).
Proof.
  intros Hv. revert d. induction n as [|n IH]; intros d; [by intros st _|].
  cbn [calc_fuel]. by apply keeps_body.
Qed.

(** C30. Calculating one symbol never changes another that is valid already and
    belongs to no choice: its value, visibility, dependency values and user's
    value stay as they are, whatever the configuration. *)
Theorem sym_calc_value_keeps_valid s d st st' y :
  syms st !! s = Some y -> has SYMBOL_VALID (flags y) = true -> in_no_choice s st ->
  sym_calc_value d st = Ok tt st' ->
  exists y', syms st' !! s = Some y' /\ core y' = core y /\ in_no_choice s st'.
Proof.
  intros E Hv Hc Hrun. unfold sym_calc_value in Hrun.
  pose proof (keeps_calc_fuel s (core y) (S (potential st)) d) as H.
  rewrite core_flag in H by reflexivity. specialize (H Hv st ltac:(split; eauto)).
  rewrite Hrun in H. destruct H as [[(y' & E' & H') Hc'] _]. eauto.
Qed.
