(* ===== verification/KSymValue.v ===== *)
(** The value [sym_calc_value] gives a boolean or tristate symbol that belongs to
    no choice, and the tests on values set by the user. *)
From S2P Require Import Prelude CText KExpr KSym KSymFacts KSymFrame.

(** [m] becomes [y] for a symbol that is boolean at the moment. *)
Definition promote (ty : symbol_type) (t : tristate) : tristate :=
  if is_tri t Tmod && is_type ty S_BOOLEAN then Tyes else t.
Definition set_by_user (y : symbol) : bool := negb (is_tri (visible y) Tno) && sym_has_value y.
Definition user_value (y : symbol) : tristate := EXPR_AND (tri (def_user y)) (visible y).

(** A symbol up to what its own calculation changes before its value is
    stored. *)
Definition stat (y : symbol) : symbol :=
  set_curr {| val := VNull; tri := Tno |} (set_visible Tno (set_dir_tri Tno (set_rev_tri Tno (core y)))).

Lemma keeps_weaken_any {S A} (I : S -> Prop) (Q : A -> Prop) (m : PM S A) : keeps I Q m -> keeps I any m.
Proof. intros H. by eapply keeps_weaken. Qed.

Section Stat.
Variables (s : symref) (z : symbol).
Definition partial (st : kstate) : Prop := exists y0, stat y0 = z /\ frozen s y0 st.

Lemma keeps_partial {A} (m : KM A) :
  (forall y0, stat y0 = z -> keeps (frozen s y0) any m) -> keeps partial any m.
Proof.
  intros H st (y0 & Hz & Hf). specialize (H y0 Hz st Hf). destruct (m st) as [a st'| |]; [|done..].
  split; [|done]. exists y0. split; [done|apply H].
Qed.

Lemma keeps_partial_mod f :
  (forall y, choice_list (f y) = choice_list y) -> (forall y, stat (core (f y)) = stat (core y)) ->
  keeps partial any (mod_sym s f).
Proof.
  intros Hl Hf st (y0 & Hz & (y & E & Hy) & Hc).
  unfold mod_sym, get_sym, mbind, PM_bind, pget, plift, pmodify. rewrite E. split; [|done].
  exists (core (f y)). split; [by rewrite Hf, Hy|]. split.
  - cbn. exists (f y). by rewrite lookup_insert_eq.
  - intros c yc l. cbn. destruct (decide (c = s)) as [->|Hne].
    + rewrite lookup_insert_eq. intros [= <-]. rewrite Hl. exact (Hc s y l E).
    + rewrite lookup_insert_ne by done. exact (Hc c yc l).
Qed.

Variable calc : symref -> KM unit.
Hypothesis Hcalc : forall y0 d, stat y0 = z -> keeps (frozen s y0) any (calc d).

Lemma partial_store f g t :
  (forall y, choice_list (g t y) = choice_list y) -> (forall y, stat (core (g t y)) = stat (core y)) ->
  keeps partial any (store_tri s f g t).
Proof.
  intros Hl Hg. unfold store_tri.
  apply (keeps_bind _ any); [apply keeps_partial; intros; apply (keeps_any _ _ _ _ (keeps_get_sym _ _ _))|].
  intros y _. apply keeps_when. intros _. apply (keeps_bind _ any); [by apply keeps_partial_mod|].
  intros _ _. apply keeps_partial. intros. apply keeps_set_changed.
Qed.

Lemma partial_visibility : keeps partial any (sym_calc_visibility calc s).
Proof.
  unfold sym_calc_visibility.
  assert (G : keeps partial any (get_sym s))
    by (apply keeps_partial; intros; apply (keeps_any _ _ _ _ (keeps_get_sym _ _ _))).
  apply (keeps_bind _ any); [done|intros y _].
  apply (keeps_bind _ any); [apply keeps_partial; intros; apply keeps_visible_prompts; auto|intros t _].
  apply (keeps_bind _ any); [apply keeps_partial; intros; apply keeps_get_st|intros st _].
  apply (keeps_bind _ any); [by apply partial_store|intros _ _].
  apply (keeps_bind _ any); [done|intros y1 _].
  destruct (sym_is_choice_value y1); [by apply keeps_ret|].
  apply (keeps_bind _ any); [apply keeps_partial; intros; apply keeps_calc_expr_opt; auto|intros t1 _].
  apply (keeps_bind _ any); [by apply partial_store|intros _ _].
  apply (keeps_bind _ any).
  { apply keeps_partial; intros. destruct (rev_dep y1); [apply keeps_calc_expr; auto|by apply keeps_ret]. }
  intros t2 _. apply (keeps_bind _ any); [apply keeps_partial; intros; apply keeps_get_type|intros ty _].
  by apply partial_store.
Qed.
End Stat.

(** ** The value *)

Section Value.
Variables (s : symref) (y0 : symbol) (calc : symref -> KM unit).
Hypothesis Hcalc : forall d, keeps (frozen s y0) any (calc d).
Hypothesis Hchoice : sym_is_choice y0 = false.
Hypothesis Hmember : sym_is_choice_value y0 = false.
Abbreviation F := (frozen s y0).

Lemma known_flag f y : known s y0 s y -> Z.land f (Z.lor SYMBOL_CHANGED SYMBOL_WRITE) = 0 ->
  has f (flags y) = has f (flags y0).
Proof. intros [_ H] Hf. by rewrite <- (H eq_refl), core_flag. Qed.
Lemma known_set_by_user y : known s y0 s y -> set_by_user y = set_by_user y0.
Proof.
  intros H. unfold set_by_user, sym_has_value. rewrite (known_flag SYMBOL_DEF_USER y H) by done.
  by rewrite <- (proj2 H eq_refl).
Qed.

Lemma value_get_type : keeps F (fun ty => exists mv, ty = sym_get_type y0 mv) (get_type s).
Proof.
  unfold get_type. eapply keeps_bind; [apply keeps_get_sym|intros y1 Hy1].
  apply (keeps_bind _ any); [apply keeps_get_st|intros st _]. apply keeps_ret.
  exists (modules_val st). unfold sym_get_type, sym_is_choice_value.
  rewrite (known_flag SYMBOL_CHOICEVAL y1 Hy1) by done. by rewrite <- (proj2 Hy1 eq_refl).
Qed.

(** What the base value satisfies. *)
Definition base_ok (t : tristate) : Prop := set_by_user y0 = true -> t = user_value y0.

Lemma value_base : keeps F base_ok (calc_tristate_base calc s).
Proof.
  unfold calc_tristate_base.
  eapply keeps_bind; [apply keeps_get_sym|intros ya Ha].
  apply (keeps_bind _ any); [frz|intros _ _].
  eapply keeps_bind; [apply keeps_get_sym|intros y Hy].
  change (negb (is_tri (visible y) Tno) && sym_has_value y) with (set_by_user y).
  rewrite (known_set_by_user y Hy). unfold base_ok. destruct (set_by_user y0) eqn:Hu.
  - apply keeps_ret. intros _. unfold user_value. by rewrite <- (proj2 Hy eq_refl).
  - apply (keeps_weaken _ any); [|done].
    frz; eauto using keeps_default_prop, keeps_calc_prop_expr.
Qed.

Lemma value_newval t : keeps F (fun r => r = EXPR_OR t (rev_dep_tri y0)) (calc_newval s t).
Proof.
  unfold calc_newval. eapply keeps_bind; [apply keeps_get_sym|intros y Hy].
  apply (keeps_bind _ any); [frz|]. intros _ _. apply keeps_ret. by rewrite <- (proj2 Hy eq_refl).
Qed.

Definition value_ok (t : tristate) : Prop := exists mv base,
  base_ok base /\ t = promote (sym_get_type y0 mv) (EXPR_OR base (rev_dep_tri y0)).

Lemma value_tristate : keeps F value_ok (calc_tristate calc s).
Proof.
  unfold calc_tristate. eapply keeps_bind; [apply keeps_get_sym|intros y Hy].
  assert (sym_is_choice_value y = false) as ->.
  { unfold sym_is_choice_value. by rewrite (known_flag SYMBOL_CHOICEVAL y Hy). }
  cbn [andb].
  eapply (keeps_bind _ (fun t => exists base, base_ok base /\ t = EXPR_OR base (rev_dep_tri y0))).
  { eapply keeps_bind; [apply value_base|intros base Hb].
    eapply keeps_weaken; [apply value_newval|]. eauto. }
  intros t (base & Hb & ->).
  eapply keeps_bind; [apply value_get_type|].
  intros ty (mv & ->). apply keeps_ret. by exists mv, base.
Qed.
End Value.

Lemma set_curr_frozen s y0 v :
  leads (frozen s y0) (fun _ => frozen s (set_curr v y0)) (mod_sym s (set_curr v)).
Proof.
  intros st [(y & E & Hy) Hc]. unfold mod_sym, get_sym, mbind, PM_bind, pget, plift, pmodify. rewrite E.
  split.
  - cbn. exists (set_curr v y). rewrite lookup_insert_eq. split; [done|]. by rewrite <- Hy.
  - intros c yc l. cbn. destruct (decide (c = s)) as [->|Hne].
    + rewrite lookup_insert_eq. intros [= <-]. exact (Hc s y l E).
    + rewrite lookup_insert_ne by done. exact (Hc c yc l).
Qed.

(** A symbol whose calculation is not affected by any choice. *)
Definition plain (y : symbol) : bool :=
  negb (has SYMBOL_CHOICE (flags y)) && negb (has SYMBOL_CHOICEVAL (flags y))
  && negb (has SYMBOL_NEED_SET_CHOICE_VALUES (flags y)).
Definition logical (y : symbol) : bool := is_type (type y) S_BOOLEAN || is_type (type y) S_TRISTATE.

Lemma plain_flags y : plain y = true ->
  sym_is_choice y = false /\ sym_is_choice_value y = false /\
  has SYMBOL_NEED_SET_CHOICE_VALUES (flags y) = false.
Proof. unfold plain, sym_is_choice, sym_is_choice_value. intros H. bool_to_prop. auto. Qed.

Section Store.
Variables (s : symref) (y2 : symbol) (calc : symref -> KM unit).
Hypothesis Hcalc : forall d, keeps (frozen s y2) any (calc d).
Hypothesis Hplain : plain y2 = true.
Hypothesis Hlog : logical y2 = true.

(** After the value is stored, only marks of a plain symbol change. *)
Lemma keeps_after_store old t :
  keeps (frozen s y2) any
   (y ← get_sym s;
    pwhen (sym_is_choice y && is_tri t Tyes)
      (d ← sym_calc_choice calc s;
       mod_sym s (fun y => set_curr {| val := match d with Some d => VSym d | None => VNull end;
                                      tri := tri (curr y) |} y));;
    sym_validate_range calc s;;
    y ← get_sym s;
    st ← pget;
    pwhen (negb (bool_decide (old = curr y)))
      (sym_set_changed s;;
       pwhen (bool_decide (modules_sym st = Some s))
         (sym_set_all_changed;; y ← get_sym s; pmodify (upd_modules_val (tri (curr y)))));;
    calc_members s;;
    y ← get_sym s;
    pwhen (has SYMBOL_AUTO (flags y)) (and_not_flags s SYMBOL_WRITE);;
    y ← get_sym s;
    pwhen (has SYMBOL_NEED_SET_CHOICE_VALUES (flags y)) (set_all_choice_values s)).
Proof.
  destruct (plain_flags _ Hplain) as (H1 & H2 & H3).
  eapply keeps_bind; [apply keeps_get_sym|intros y Hy].
  assert (sym_is_choice y = false) as ->.
  { unfold sym_is_choice. by rewrite (known_flag _ _ SYMBOL_CHOICE y Hy). }
  cbn [andb]. apply (keeps_bind _ any); [by apply keeps_ret|intros _ _].
  apply (keeps_bind _ any).
  { unfold sym_validate_range. eapply keeps_bind; [apply keeps_get_sym|intros y1 Hy1].
    assert (type y1 = type y2) as -> by (by rewrite <- (proj2 Hy1 eq_refl)).
    unfold logical in Hlog. destruct (type y2); try discriminate; by apply keeps_ret. }
  intros _ _. frz; eauto using keeps_set_changed, keeps_all_changed, keeps_members.
  all: intros Hneed; exfalso; match goal with Hk : known _ _ _ ?y, Hn : has SYMBOL_NEED_SET_CHOICE_VALUES (flags ?y) = true |- _ =>
    rewrite (known_flag _ _ _ y Hk) in Hn by reflexivity; congruence end.
Qed.
End Store.

(** What the calculated symbol satisfies. *)
Definition value_spec (y y' : symbol) : Prop :=
  has SYMBOL_VALID (flags y') = true /\ type y' = type y /\ def_user y' = def_user y /\
  sym_has_value y' = sym_has_value y /\
  exists mv base,
    (set_by_user y' = true -> base = user_value y') /\
    tri (curr y') = promote (sym_get_type y' mv) (EXPR_OR base (rev_dep_tri y')).

Lemma stat_flag y0 y f : stat y0 = stat y -> Z.land f (Z.lor SYMBOL_CHANGED SYMBOL_WRITE) = 0 ->
  has f (flags y0) = has f (flags y).
Proof.
  intros H Hf. apply (f_equal (fun y => has f (flags y))) in H.
  change (has f (flags (core y0)) = has f (flags (core y))) in H. by rewrite !core_flag in H.
Qed.

Lemma stat_plain y0 y : stat y0 = stat y -> plain y0 = plain y /\ logical y0 = logical y.
Proof.
  intros H. unfold plain, logical. rewrite !(stat_flag y0 y _ H) by reflexivity.
  by replace (type y0) with (type y) by (by apply (f_equal type) in H).
Qed.

Lemma value_store s y n old v0 : plain y = true -> logical y = true ->
  has SYMBOL_VALID (flags y) = true ->
  leads (partial s (stat y)) (fun _ st' => exists y', syms st' !! s = Some y' /\ value_spec y y')
        (calc_store (calc_fuel n) s old v0).
Proof.
  intros Hp Hl Hv. unfold calc_store.
  eapply leads_bind; [apply keeps_leads; by apply keeps_partial_mod|intros ?].
  apply leads_pure. intros _. apply leads_ex. intros y0.
  intros st Hpart. assert (Hz : stat y0 = stat y) by apply Hpart.
  generalize (proj2 Hpart). clear Hpart. revert st.
  assert (Hy0 : plain y0 = true /\ logical y0 = true).
  { destruct (stat_plain y0 y Hz) as [-> ->]. done. }
  destruct Hy0 as [Hp0 Hl0]. destruct (plain_flags _ Hp0) as (Hc0 & Hm0 & Hn0).
  assert (Hv0 : has SYMBOL_VALID (flags y0) = true).
  { by rewrite (stat_flag y0 y _ Hz). }
  assert (Hcalc : forall d, keeps (frozen s y0) any (calc_fuel n d)) by (intros; by apply keeps_calc_fuel).
  eapply leads_bind; [apply keeps_leads, value_get_type|intros ty].
  apply leads_pure. intros (mv0 & ->).
  eapply leads_bind.
  { apply keeps_leads. instantiate (1 := fun v => value_ok y0 (tri v)).
    assert (sym_get_type y0 mv0 = S_BOOLEAN \/ sym_get_type y0 mv0 = S_TRISTATE) as Hty.
    { unfold sym_get_type. unfold logical in Hl0.
      destruct (type y0); cbn in *; try discriminate; repeat case_match; auto. }
    destruct Hty as [-> | ->]; (eapply keeps_bind; [by apply value_tristate|]);
      intros t Ht; by apply keeps_ret. }
  intros v. apply leads_pure. intros (mv & base & Hb & Ht).
  eapply leads_bind; [apply set_curr_frozen|intros ?].
  set (y2 := set_curr v y0).
  assert (Hcalc2 : forall d, keeps (frozen s y2) any (calc_fuel n d)) by (intros; by apply keeps_calc_fuel).
  pose proof (keeps_after_store s y2 (calc_fuel n) Hp0 Hl0 old (tri v)) as Hk.
  intros st Hst. specialize (Hk st Hst).
  match goal with |- match ?m st with _ => _ end => destruct (m st) as [? st'| |]; [|done..] end.
  destruct Hk as [[(y' & E & Hy') _] _]. exists y'. split; [done|].
  assert (Hf : forall f, Z.land f (Z.lor SYMBOL_CHANGED SYMBOL_WRITE) = 0 ->
    has f (flags y') = has f (flags y0)).
  { intros f Hf. rewrite <- (core_flag f y' Hf), Hy'. done. }
  assert (Hs : forall f, Z.land f (Z.lor SYMBOL_CHANGED SYMBOL_WRITE) = 0 ->
    has f (flags y0) = has f (flags y)).
  { intros f Hf'. by apply stat_flag. }
  assert (Hcurr : curr y' = v) by (change (curr (core y') = v); by rewrite Hy').
  assert (Hrest : type y' = type y0 /\ def_user y' = def_user y0 /\ visible y' = visible y0 /\
                  rev_dep_tri y' = rev_dep_tri y0).
  { repeat split; [change (type (core y') = type y0)|change (def_user (core y') = def_user y0)
      |change (visible (core y') = visible y0)|change (rev_dep_tri (core y') = rev_dep_tri y0)];
    by rewrite Hy'. }
  destruct Hrest as (R1 & R2 & R3 & R4).
  assert (type y0 = type y /\ def_user y0 = def_user y) as [S1 S2].
  { split; [by apply (f_equal type) in Hz|by apply (f_equal def_user) in Hz]. }
  unfold value_spec, set_by_user, user_value, sym_has_value, sym_get_type, sym_is_choice_value.
  rewrite !Hf, R1, R2, R3, R4, Hcurr by reflexivity.
  split; [by rewrite Hs|]. split; [done|]. split; [done|]. split; [by rewrite Hs|].
  exists mv, base. by split.
Qed.

Lemma calc_body_plain calc s y st :
  syms st !! s = Some y -> has SYMBOL_VALID (flags y) = false -> plain y = true -> logical y = true ->
  calc_body calc s st =
    (and_not_flags s SYMBOL_WRITE;; sym_calc_visibility calc s;;
     calc_store calc s (curr y) {| val := VStr (LName symbol_no) "n"; tri := Tno |})
    (upd_syms (insert s (set_flags (set_bits SYMBOL_VALID) y)) st).
Proof.
  intros E Hv Hp Hl. destruct (plain_flags _ Hp) as (H1 & H2 & H3).
  unfold calc_body. rewrite (run_bind _ _ _ _ _ (run_get_sym s y st E)), Hv.
  assert (calc_owner calc s st = Ok tt st) as Eo.
  { unfold calc_owner. by rewrite (run_bind _ _ _ _ _ (run_get_sym s y st E)), H2. }
  rewrite (run_bind _ _ _ _ _ Eo). unfold or_flags.
  rewrite (run_bind _ _ _ _ _ (run_mod_sym s _ y st E)).
  set (y1 := set_flags _ y). set (st1 := upd_syms _ st).
  assert (E1 : syms st1 !! s = Some y1) by (unfold st1; cbn; by rewrite lookup_insert_eq).
  rewrite (run_bind _ _ _ _ _ (run_get_sym s y1 st1 E1)).
  assert (sym_is_choice_value y1 = false) as -> by (unfold sym_is_choice_value, y1; cbn; by rewrite has_set_other).
  cbv zeta. change (type y1) with (type y). change (curr y1) with (curr y). unfold logical in Hl.
  by destruct (type y).
Qed.

