(* ===== verification/KSymText.v ===== *)
(** Texts of symbols: which strings are valid numbers, the escaped form of a
    string, and the symbol table. *)
From S2P Require Import Prelude CText KExpr KSym KSymFacts.

(** ** Valid integers are the canonical decimals *)

Lemma write_digits_fuel base n f f' acc : 2 <= base ->
  0 <= n < 2 ^ Z.of_nat f -> 0 <= n < 2 ^ Z.of_nat f' -> (0 < f)%nat -> (0 < f')%nat ->
  write_digits f base n acc = write_digits f' base n acc.
Proof.
  intros Hb. revert n f' acc. induction f as [|f IH]; intros n [|f'] acc H H' Hp Hp'; try lia.
  cbn [write_digits]. destruct (Z.eqb_spec (n / base) 0) as [E|E]; [done|].
  rewrite Nat2Z.inj_succ, Z.pow_succ_r in H, H' by lia.
  assert (Hq : 0 < n / base) by (pose proof (Z.div_pos n base); lia).
  assert (n / base < 2 ^ Z.of_nat f) by (apply Z.div_lt_upper_bound; nia).
  assert (n / base < 2 ^ Z.of_nat f') by (apply Z.div_lt_upper_bound; nia).
  destruct f as [|f]; [cbn in *; lia|]. destruct f' as [|f']; [cbn in *; lia|].
  apply IH; lia.
Qed.

(** Writing the number behind the digits [t] of [a] writes them again. *)
Definition write10 (n : Z) (acc : string) : string := write_digits (S (Z.to_nat (Z.log2 n))) 10 n acc.

Lemma write10_step a d acc : 0 < a -> 0 <= d < 10 ->
  write10 (a * 10 + d) acc = write10 a (String (digit_char d) acc).
Proof.
  intros Ha Hd. unfold write10 at 1. cbn [write_digits].
  replace ((a * 10 + d) mod 10) with d by (rewrite Z.add_comm, Z.mod_add, Z.mod_small; lia).
  replace ((a * 10 + d) / 10) with a by (rewrite Z.add_comm, Z.div_add, Z.div_small; lia).
  destruct (Z.eqb_spec a 0) as [|_]; [lia|]. unfold write10.
  assert (Hlog : 1 <= Z.log2 (a * 10 + d)) by (apply Z.log2_le_pow2; lia).
  pose proof (fuel_enough a ltac:(lia)).
  apply write_digits_fuel; try lia. split; [lia|].
  rewrite Z2Nat.id by lia. eapply Z.lt_le_trans; [|apply Z.pow_le_mono_r; [lia|]].
  - exact (proj2 (Z.log2_spec a Ha)).
  - assert (Z.log2 (2 * a) <= Z.log2 (a * 10 + d)) by (apply Z.log2_le_mono; lia).
    rewrite Z.log2_double in * by lia. lia.
Qed.

Lemma isdigit_char c : isdigit c = true -> exists d, 0 <= d < 10 /\ c = digit_char d /\ digit_value c = Some d.
Proof.
  intros H. exists (code c - 48). unfold digit_value, digit_char. rewrite H.
  unfold isdigit, in_range in H. bool_to_prop. split; [lia|]. split; [|done].
  destruct (Z.ltb_spec (code c - 48) 10); [|lia].
  replace (48 + (code c - 48)) with (code c) by lia. symmetry. apply chr_code.
Qed.

Lemma write10_read t : forall a acc, 0 < a -> string_all isdigit t = true ->
  write10 (read_digits 10 a t) acc = write10 a (t +:+ acc).
Proof.
  induction t as [|c t IH]; intros a acc Ha H; [done|]. cbn in H. apply andb_true_iff in H as [Hc Ht].
  destruct (isdigit_char c Hc) as (d & Hd & -> & E). cbn [read_digits]. rewrite E.
  destruct (Z.ltb_spec d 10); [|lia]. rewrite IH by (done || lia). rewrite write10_step by lia. done.
Qed.

Lemma read_digits_ge a t : 0 <= a -> string_all isdigit t = true -> 0 <= read_digits 10 a t.
Proof.
  revert a. induction t as [|c t IH]; intros a Ha H; [done|]. cbn in H. apply andb_true_iff in H as [Hc Ht].
  destruct (isdigit_char c Hc) as (d & Hd & -> & E). cbn [read_digits]. rewrite E.
  destruct (Z.ltb_spec d 10); [|lia]. apply IH; [lia|done].
Qed.

(** Digits without a superfluous zero. *)
Definition plain_digits (s : string) : bool :=
  match s with
  | String c t => isdigit c && negb (char_eqb c "0" && negb (String.eqb t "")) && string_all isdigit t
  | EmptyString => false
  end.

Lemma plain_digits_read s : plain_digits s = true ->
  digits 10 (read_digits 10 0 s) = s /\ 0 <= read_digits 10 0 s.
Proof.
  destruct s as [|c t]; [done|]. cbn [plain_digits]. intros H. bool_to_prop.
  match goal with H1 : isdigit c = true |- _ => destruct (isdigit_char c H1) as (d & Hd & Hcd & E) end.
  cbn [read_digits]. rewrite E. destruct (Z.ltb_spec d 10); [|lia]. cbn [Z.mul Z.add].
  destruct (Z.eq_dec d 0) as [->|Hne].
  - subst c. change (char_eqb (digit_char 0) "0") with true in *. cbn in *. bool_to_prop.
    match goal with H1 : String.eqb t "" = true |- _ => apply String.eqb_eq in H1 as -> end. done.
  - split; [|apply read_digits_ge; [lia|done]].
    change (digits 10 ?n) with (write10 n ""). change (0 * 10 + d) with d.
    rewrite write10_read by (lia || done). unfold write10. cbn [write_digits].
    rewrite Z.mod_small, Z.div_small by lia. cbn. by rewrite app_nil_s, Hcd.
Qed.

Lemma digits_plain n : 0 <= n -> plain_digits (digits 10 n) = true.
Proof.
  intros Hn. assert (H : forall f n acc, 0 <= n < 2 ^ Z.of_nat f -> (0 < f)%nat -> string_all isdigit acc = true ->
    (n = 0 -> acc = "") -> plain_digits (write_digits f 10 n acc) = true).
  { clear. induction f as [|f IH]; intros n acc Hn Hf Ha Hz; [lia|]. cbn [write_digits].
    pose proof (Z.mod_pos_bound n 10 eq_refl) as Hm. pose proof (Z.div_mod n 10) as Hd.
    destruct (Z.eqb_spec (n / 10) 0) as [E|E].
    - cbn. rewrite digit_char_digit by lia. rewrite Ha, andb_true_r. cbn.
      destruct (Z.eq_dec n 0) as [->|Hne]; [by rewrite Hz|].
      apply negb_true_iff, andb_false_iff. left. destruct (char_eqb_spec (digit_char (n mod 10)) "0") as [Hc|]; [|done].
      apply (f_equal digit_value) in Hc. rewrite digit_value_char in Hc by lia.
      change (digit_value "0"%char) with (Some 0) in Hc. injection Hc as Hc. lia.
    - assert (0 < n / 10) by (pose proof (Z.div_pos n 10); lia).
      rewrite Nat2Z.inj_succ, Z.pow_succ_r in Hn by lia.
      assert (n / 10 < 2 ^ Z.of_nat f) by (apply Z.div_lt_upper_bound; nia).
      apply IH; [lia|destruct f; cbn in *; lia| |lia].
      cbn. by rewrite digit_char_digit, Ha by lia. }
  apply H; [by apply fuel_enough|lia|done|done].
Qed.

(** The strings an [int] symbol accepts are [-0] and exactly the decimals
    [printf] writes, so the text of an accepted value is determined by the
    number. *)
Theorem sym_string_valid_int s :
  sym_string_valid S_INT s = true <-> s = "-0" \/ exists z, s = fmt_d z.
Proof.
  assert (Hdash : forall z, 0 <= z -> exists c t, digits 10 z = String c t /\ char_eqb c "-" = false).
  { intros z Hz. destruct (digits_head 10 z ltac:(lia)) as (d & t & Hd & E). exists (digit_char d), t.
    split; [done|]. pose proof (digit_char_plain d ltac:(lia)) as Hp.
    apply orb_false_iff in Hp as [Hp _]. by apply orb_false_iff in Hp as [_ ->]. }
  cbn [sym_string_valid]. unfold int_valid. split.
  - destruct s as [|c t]; [done|]. destruct (char_eqb_spec c "-") as [->|Hc].
    + intros H. change (plain_digits t = true) in H. destruct (plain_digits_read t H) as [E Hp].
      destruct (Z.eq_dec (read_digits 10 0 t) 0) as [E0|Hne].
      * left. rewrite E0 in E. by rewrite <- E.
      * right. exists (- read_digits 10 0 t). unfold fmt_d. destruct (Z.ltb_spec (- read_digits 10 0 t) 0); [|lia].
        by rewrite Z.opp_involutive, E.
    + intros H. change (plain_digits (String c t) = true) in H. destruct (plain_digits_read _ H) as [E Hp].
      right. exists (read_digits 10 0 (String c t)). unfold fmt_d.
      destruct (Z.ltb_spec (read_digits 10 0 (String c t)) 0); [lia|]. by rewrite E.
  - intros [->|[z ->]]; [done|]. unfold fmt_d. destruct (Z.ltb_spec z 0) as [Hz|Hz].
    + change (char_eqb "-" "-") with true. cbv iota. exact (digits_plain (- z) ltac:(lia)).
    + destruct (Hdash z Hz) as (c & t & E & Hc). assert (P : plain_digits (String c t) = true) by (rewrite <- E; by apply digits_plain).
      rewrite E, Hc. exact P.
Qed.

(** ** The escaped form *)

Lemma escape_length s : String.length (escape s) = (String.length s + count_special s)%nat.
Proof. induction s as [|c s IH]; [done|]. cbn. destruct (special c); cbn; rewrite IH; lia. Qed.

(** The buffer [sym_escape_string_value] allocates holds its result and the
    closing NUL exactly. *)
Lemma escape_fits s : escape_reslen s = S (String.length (sym_escape_string_value s)).
Proof.
  unfold escape_reslen, sym_escape_string_value. rewrite !length_app_s, escape_length. cbn. lia.
Qed.

(** ** The symbol table *)

Lemma run_modify {S} (f : S -> S) st : pmodify f st = Ok tt (f st).
Proof. done. Qed.

(** [sym_lookup] is stable: asked again for the same name with the same
    flags it returns the same symbol and leaves the state alone; the symbol it
    returns exists and, unless it is one of the constants, has that name. *)
Theorem sym_lookup_stable n fl st s st' :
  sym_lookup (Some n) fl st = Ok s st' ->
  sym_lookup (Some n) fl st' = Ok s st' /\
  (const_name n = None -> exists y, syms st' !! s = Some y /\ name y = Some n).
Proof.
  unfold sym_lookup. destruct (const_name n) as [c|]; [by intros [= <- <-]|]. intros H.
  assert (Hfound : forall l s, find_in st (lookup_match n fl) l = Some (Some s) ->
    exists y, syms st !! s = Some y /\ name y = Some n).
  { clear. intros l s. induction l as [|d l IH]; [done|]. cbn.
    destruct (syms st !! d) as [y|] eqn:E; [|done]. cbn. destruct (lookup_match n fl y) eqn:Em; [|done].
    intros [= <-]. exists y. split; [done|]. unfold lookup_match, name_is in Em. bool_to_prop. done. }
  unfold mbind, PM_bind, pget, plift in H |- *.
  destruct (find_in st (lookup_match n fl) (bucket (bucket_of n) st)) as [[d|]|] eqn:E; [..|done].
  - injection H as <- <-. rewrite E. eauto.
  - unfold sym_new, mbind, PM_bind, pget, pmodify in H. injection H as <- <-.
    set (st1 := upd_new _ _ st).
    assert (E1 : syms st1 !! next_sym st = Some (new_symbol (Some n) fl))
      by (unfold st1; cbn; by rewrite lookup_insert_eq).
    assert (Hm : lookup_match n fl (new_symbol (Some n) fl) = true).
    { unfold lookup_match, name_is. cbn. rewrite bool_decide_eq_true_2 by done. cbn.
      destruct (Z.eqb_spec fl 0) as [->|Hfl]; [done|]. unfold has. rewrite Z.land_diag.
      apply negb_true_iff. by apply Z.eqb_neq. }
    assert (find_in st1 (lookup_match n fl) (bucket (bucket_of n) st1) = Some (Some (next_sym st))) as ->.
    { unfold bucket. unfold st1 at 2. cbn [symbol_hash upd_new]. rewrite lookup_insert_eq.
      cbn [from_option default id find_in]. rewrite E1. cbn [mbind option_bind]. by rewrite Hm. }
    split; [done|]. eauto.
Qed.
