(* ===== verification/KConf.v ===== *)
(** Reading and writing configurations (src/buildroot/support/kconfig/confdata.c)
    and the parts of menu.c the writer needs.

    A file is its text.  The environment and the file system are parameters; what
    a routine does to files is the list of its operations. *)
From S2P Require Import Prelude CText KExpr KSym.

(** ** Values of a configuration file *)

(** [def[S_DEF_USER]] and [def[S_DEF_AUTO]], with their flags. *)
Inductive sdef := S_DEF_USER | S_DEF_AUTO.
#[export] Instance sdef_eq_dec : EqDecision sdef.
Proof. solve_decision. Defined.
Definition def_flags (d : sdef) : Z :=
  match d with S_DEF_USER => Z.shiftl SYMBOL_DEF 0 | S_DEF_AUTO => Z.shiftl SYMBOL_DEF 1 end.
Definition get_def (d : sdef) (y : symbol) : symbol_value :=
  match d with S_DEF_USER => def_user y | S_DEF_AUTO => def_auto y end.
Definition set_def (d : sdef) : symbol_value -> symbol -> symbol :=
  match d with S_DEF_USER => set_def_user | S_DEF_AUTO => set_def_auto end.

(** What the loop of [conf_set_sym_val] makes of the text behind the opening
    quote: the value before the closing quote, no closing quote, or a read
    behind the end of the line (a backslash as its last character). *)
Inductive unescaped := Value (s : string) | Unterminated | Overrun.
Fixpoint unescape (s : string) : unescaped :=
  match s with
  | EmptyString => Unterminated
  | String c t =>
      if char_eqb c quote then Value EmptyString
      else
        let push d u := match u with Value v => Value (String d v) | _ => u end in
        if char_eqb c backslash then
          match t with EmptyString => Overrun | String d t => push d (unescape t) end
        else push c (unescape t)
  end.

Definition conf_warning (text : string) : KM unit :=
  pmodify (upd_log (Warning text));;
  st ← pget; pmodify (upd_conf (conf_warnings st + 1) (conf_unsaved st)).
Definition count_unsaved : KM unit :=
  st ← pget; pmodify (upd_conf (conf_warnings st) (conf_unsaved st + 1)).
Definition warn_unless_auto (d : sdef) (text : string) : KM unit :=
  pwhen (negb (bool_decide (d = S_DEF_AUTO))) (conf_warning text).

Definition sym_text (y : symbol) : string := default "(null)" (name y).

(** [printf] of a name. *)
Definition invalid_value (p : string) (y : symbol) : string :=
  "symbol value '" +:+ p +:+ "' invalid for " +:+ sym_text y.

(** A tristate value, with the flag. *)
Definition set_def_tri (s : symref) (d : sdef) (t : tristate) : KM bool :=
  mod_sym s (fun y => set_def d {| val := val (get_def d y); tri := t |} y);;
  or_flags s (def_flags d);;
  mret true.

(** The label [done]: store a valid text. *)
Definition set_def_text (s : symref) (d : sdef) (p : string) : KM bool :=
  y ← get_sym s;
  if sym_string_valid (type y) p then
    v ← strdup p;
    mod_sym s (fun y => set_def d {| val := v; tri := tri (get_def d y) |} y);;
    or_flags s (def_flags d);;
    mret true
  else warn_unless_auto d (invalid_value p y);; mret false.

Definition set_quoted (s : symref) (d : sdef) (p : string) : KM bool :=
  match unescape p with
  | Value v => set_def_text s d v
  | Unterminated => warn_unless_auto d "invalid string found";; mret false
  | Overrun => pfault
  end.

(** [conf_set_sym_val]: [false] is its result 1. *)
Definition conf_set_sym_val (s : symref) (d : sdef) (p : string) : KM bool :=
  y ← get_sym s;
  let quoted := match p with String c t => if char_eqb c quote then Some t else None | _ => None end in
  match type y with
  | S_TRISTATE | S_BOOLEAN =>
      if is_type (type y) S_TRISTATE && head_is (fun c => char_eqb c "m") p then set_def_tri s d Tmod
      else if head_is (fun c => char_eqb c "y") p then set_def_tri s d Tyes
      else if head_is (fun c => char_eqb c "n") p then set_def_tri s d Tno
      else warn_unless_auto d (invalid_value p y);; mret false
  | S_OTHER =>
      match quoted with
      | Some t => set_quoted s d t
      | None => mod_sym s (set_name_type S_STRING);; set_def_text s d p
      end
  | S_STRING =>
      match quoted with Some t => set_quoted s d t | None => mret true end
  | S_INT | S_HEX => set_def_text s d p
  | S_UNKNOWN => mret true
  end.

(** ** Reading a file *)

(** [compat_getline]: a line with its newline, and the rest; the last line may
    lack the newline. *)
Definition getline (text : string) : option (string * string) :=
  match text with
  | EmptyString => None
  | _ => match strchr nl text with
         | Some (a, b) => Some (a +:+ NL, b)
         | None => Some (text, EmptyString)
         end
  end.

Section Read.
(** The prefix [CONFIG_] of symbol names. *)
Variable CONFIG_ : string.

(** What a line says. *)
Inductive conf_line :=
| Ignored                       (* a comment, or no assignment *)
| Unexpected                    (* other data that is not an empty line *)
| NotSet (n : string)           (* # n is not set *)
| Assign (n v : string)         (* n=v *)
| StaleRead.                    (* a # alone at the end of the file *)

(** The value: up to the newline, without a carriage return before it. *)
Fixpoint drop_cr (s : string) : string :=
  match s with
  | EmptyString => EmptyString
  | String c EmptyString => if char_eqb c cr then EmptyString else s
  | String c t => String c (drop_cr t)
  end.
Definition value_text (p : string) : string :=
  match strchr nl p with Some (v, _) => drop_cr v | None => p end.

Definition parse_line (line : string) : conf_line :=
  match line with
  | String c rest =>
      if char_eqb c "#" then
        match rest with
        | EmptyString => StaleRead
        | String _ rest =>
            match strip_prefix CONFIG_ rest with
            | None => Ignored
            | Some rest =>
                match strchr " " rest with
                | None => Ignored
                | Some (n, p) => if starts_with "is not set" p then NotSet n else Ignored
                end
            end
        end
      else
        match strip_prefix CONFIG_ line with
        | Some rest =>
            match strchr "=" rest with
            | None => Ignored
            | Some (n, p) => Assign n (value_text p)
            end
        | None => if char_eqb c cr || char_eqb c nl then Ignored else Unexpected
        end
  | EmptyString => Ignored
  end.

(** The symbol a line names; [None] for an unknown one.  [fresh]: the type of a
    symbol seen for the first time in auto.conf. *)
Definition line_symbol (d : sdef) (fresh : symbol_type) (n : string) : KM (option symref) :=
  match d with
  | S_DEF_USER =>
      s ← sym_find (Some n);
      match s with
      | Some s => mret (Some s)
      | None => sym_add_change_count 1;; mret None
      end
  | S_DEF_AUTO =>
      s ← sym_lookup (Some n) 0;
      y ← get_sym s;
      pwhen (is_type (type y) S_UNKNOWN) (mod_sym s (set_name_type fresh));;
      mret (Some s)
  end.

Definition warn_reassign (d : sdef) (s : symref) : KM unit :=
  y ← get_sym s;
  pwhen (has (def_flags d) (flags y)) (conf_warning ("override: reassigning to symbol " +:+ sym_text y)).

(** The label [setsym] for a symbol: a value of a choice is noted in the
    choice. *)
Definition set_in_choice (d : sdef) (s : symref) : KM unit :=
  y ← get_sym s;
  pwhen (sym_is_choice_value y)
    (c ← plift (choice_of y);
     cs ← get_sym c;
     match tri (get_def d y) with
     | Tno => mret tt
     | Tmod =>
         pwhen (is_tri (tri (get_def d cs)) Tyes)
           (conf_warning (sym_text y +:+ " creates inconsistent choice state");;
            and_not_flags c (def_flags d))
     | Tyes =>
         pwhen (negb (is_tri (tri (get_def d cs)) Tno))
           (conf_warning ("override: " +:+ sym_text y +:+ " changes choice state"));;
         mod_sym c (fun cs => set_def d {| val := VSym s; tri := tri (get_def d cs) |} cs)
     end;;
     mod_sym c (fun cs => set_def d {| val := val (get_def d cs);
                                     tri := EXPR_OR (tri (get_def d cs)) (tri (get_def d y)) |} cs)).

Definition read_line (d : sdef) (line : string) : KM unit :=
  match parse_line line with
  | StaleRead => pfault
  | Ignored => mret tt
  | Unexpected => conf_warning "unexpected data"
  | NotSet n =>
      s ← line_symbol d S_BOOLEAN n;
      match s with
      | None => mret tt
      | Some s =>
          warn_reassign d s;;
          y ← get_sym s;
          pwhen (is_type (type y) S_BOOLEAN || is_type (type y) S_TRISTATE)
            (set_def_tri s d Tno;; mret tt);;
          set_in_choice d s
      end
  | Assign n v =>
      s ← line_symbol d S_OTHER n;
      match s with
      | None => mret tt
      | Some s =>
          warn_reassign d s;;
          ok ← conf_set_sym_val s d v;
          pwhen ok (set_in_choice d s)
      end
  end.

Fixpoint read_lines (n : nat) (d : sdef) (text : string) : KM unit :=
  match n with
  | O => pnofuel
  | S n =>
      match getline text with
      | None => mret tt
      | Some (line, rest) => read_line d line;; read_lines n d rest
      end
  end.

(** Before the lines: forget the old values. *)
Definition reset_symbol (d : sdef) (s : symref) : KM unit :=
  or_flags s SYMBOL_CHANGED;;
  and_not_flags s (Z.lor (def_flags d) SYMBOL_VALID);;
  y ← get_sym s;
  pwhen (sym_is_choice y) (or_flags s (def_flags d));;
  mod_sym s (set_def d {| val := VNull; tri := Tno |}).

(** From the label [load] on, with the text of the file. *)
Definition conf_load (d : sdef) (text : string) : KM unit :=
  pmodify (upd_conf 0 0);;
  for_all_symbols (reset_symbol d);;
  read_lines (S (String.length text)) d text;;
  calc_modules sym_calc_value.

(** *** Finding the file *)

(** [getenv], and [zconf_fopen] with the text of the file it opens. *)
Variable getenv : string -> option string.
Variable zconf_fopen : string -> option string.
(** The symbol of [option defconfig_list]. *)
Variable sym_defconfig_list : option symref.

Definition conf_get_configname : string := default ".config" (getenv "BR2_CONFIG").
Definition conf_get_autoconfig_name : option string := getenv "KCONFIG_AUTOCONFIG".

(** [conf_expand_value]: a text or a name that does not fit its buffer of
    [SYMBOL_MAXLENGTH] bytes is undefined behaviour. *)
Definition fits (s : string) : bool := (String.length s <? SYMBOL_MAXLENGTH)%nat.
Fixpoint conf_expand_loop (n : nat) (res src : string) : KM string :=
  match n with
  | O => pnofuel
  | S n =>
      match strchr "$" src with
      | None => if fits (res +:+ src) then mret (res +:+ src) else pfault
      | Some (a, b) =>
          let '(nm, rest) := span name_char b in
          if negb (fits (res +:+ a)) || negb (fits nm) then pfault
          else
            s ← sym_lookup (Some nm) 0;
            sym_calc_value s;;
            v ← sym_get_string_value s;
            if negb (fits (res +:+ a +:+ v)) then pfault else conf_expand_loop n (res +:+ a +:+ v) rest
      end
  end.
Definition conf_expand_value (s : string) : KM string := conf_expand_loop (S (String.length s)) "" s.

(** [conf_get_default_confname]; [exists_file]: [stat] succeeds. *)
Definition conf_get_default_confname (exists_file : string -> bool) : KM string :=
  nm ← conf_expand_value ".defconfig";
  mret (match getenv "srctree" with
        | Some env => if exists_file (env +:+ "/" +:+ nm) then env +:+ "/" +:+ nm else nm
        | None => nm
        end).

(** The defaults of the defconfig list, in order. *)
Fixpoint open_default (ps : list property) : KM (option string) :=
  match ps with
  | [] => mret None
  | p :: ps =>
      if prop_is P_DEFAULT p then
        t ← expr_calc_value (p_visible p);
        match p_expr p with
        | Some (PExpr (Sym q)) =>
            if is_tri t Tno then open_default ps
            else
              y ← get_sym q;
              n ← plift (name y);
              f ← conf_expand_value n;
              match zconf_fopen f with Some text => mret (Some text) | None => open_default ps end
        | None => if is_tri t Tno then open_default ps else pfault
        | _ => open_default ps
        end
      else open_default ps
  end.

(** [conf_read_simple]: [true] is its result 0. *)
Definition conf_read_simple (nm : option string) (d : sdef) : KM bool :=
  match nm with
  | Some nm =>
      match zconf_fopen nm with
      | Some text => conf_load d text;; mret true
      | None => mret false
      end
  | None =>
      match zconf_fopen conf_get_configname with
      | Some text => conf_load d text;; mret true
      | None =>
          sym_add_change_count 1;;
          match sym_defconfig_list with
          | None => calc_modules sym_calc_value;; mret false
          | Some l =>
              y ← get_sym l;
              r ← open_default (prop y);
              match r with Some text => conf_load d text;; mret true | None => mret false end
          end
      end
  end.

(** After reading: does the saved value agree with the calculated one? *)
Definition check_saved (s : symref) : KM unit :=
  sym_calc_value s;;
  y ← get_sym s;
  if sym_is_choice y || has SYMBOL_AUTO (flags y) then mret tt
  else if sym_has_value y && has SYMBOL_WRITE (flags y) then
    match type y with
    | S_BOOLEAN | S_TRISTATE =>
        if is_tri (tri (def_user y)) (sym_get_tristate_value y) then mret tt else count_unsaved
    | _ =>
        a ← sval_string (val (curr y)); b ← sval_string (val (def_user y));
        if String.eqb a b then mret tt else count_unsaved
    end
  else if negb (sym_has_value y) && negb (has SYMBOL_WRITE (flags y)) then mret tt
  else count_unsaved.

(** Values of invisible symbols and values out of range are dropped. *)
Definition drop_value (s : symref) : KM unit :=
  y ← get_sym s;
  pwhen (sym_has_value y && negb (sym_is_choice_value y))
    (st ← pget;
     pwhen (is_tri (visible y) Tno && (conf_unsaved st =? 0)) (and_not_flags s SYMBOL_DEF_USER);;
     match type y with
     | S_STRING | S_INT | S_HEX =>
         v ← sval_string (val (def_user y));
         ok ← sym_string_within_range s v;
         pwhen (negb ok) (and_not_flags s (Z.lor SYMBOL_VALID SYMBOL_DEF_USER);; count_unsaved)
     | _ => mret tt
     end).

Definition conf_read (nm : option string) : KM bool :=
  sym_set_change_count 0;;
  ok ← conf_read_simple nm S_DEF_USER;
  if negb ok then mret false
  else
    for_all_symbols check_saved;;
    for_all_symbols drop_value;;
    st ← pget;
    sym_add_change_count
      (if negb (conf_warnings st =? 0) || negb (conf_unsaved st =? 0) then 1 else 0);;
    mret true.

(** ** Printers *)

(** [print_symbol] and [print_comment] of a [struct conf_printer]. *)
Record conf_printer := {
  print_symbol : symbol -> string -> bool -> string;
  print_comment : string -> string;
}.

Definition first_is (c : Ascii.ascii) (v : string) : bool := head_is (fun d => char_eqb d c) v.

(** The last argument: whether [arg] is non-null. *)
Definition kconfig_print_symbol (y : symbol) (value : string) (arg : bool) : string :=
  match type y with
  | S_BOOLEAN | S_TRISTATE =>
      if first_is "n" value then
        if arg then "" else "# " +:+ CONFIG_ +:+ sym_text y +:+ " is not set" +:+ NL
      else CONFIG_ +:+ sym_text y +:+ "=" +:+ value +:+ NL
  | _ => CONFIG_ +:+ sym_text y +:+ "=" +:+ value +:+ NL
  end.

(** Every line of the comment, the text behind the last newline included, with
    [lead] before it. *)
Fixpoint comment_lines (n : nat) (lead p : string) : string :=
  match n with
  | O => ""
  | S n =>
      let line l := lead +:+ (if String.eqb l "" then "" else " " +:+ l) +:+ NL in
      match strchr nl p with
      | Some (l, rest) => line l +:+ comment_lines n lead rest
      | None => line p
      end
  end.
Definition kconfig_print_comment (value : string) : string :=
  comment_lines (S (String.length value)) "#" value.

Definition header_print_symbol (y : symbol) (value : string) (arg : bool) : string :=
  match type y with
  | S_BOOLEAN | S_TRISTATE =>
      if first_is "n" value then ""
      else "#define " +:+ CONFIG_ +:+ sym_text y +:+ (if first_is "m" value then "_MODULE" else "")
           +:+ " 1" +:+ NL
  | S_HEX =>
      "#define " +:+ CONFIG_ +:+ sym_text y +:+ " " +:+ (if has_0x value then "" else "0x") +:+ value +:+ NL
  | S_STRING | S_INT => "#define " +:+ CONFIG_ +:+ sym_text y +:+ " " +:+ value +:+ NL
  | _ => ""
  end.
Definition header_print_comment (value : string) : string :=
  "/*" +:+ NL +:+ comment_lines (S (String.length value)) " *" value +:+ " */" +:+ NL.

(** [printf] of [%c] with [toupper(value[0])]; the value is not empty. *)
Definition tristate_print_symbol (y : symbol) (value : string) (arg : bool) : string :=
  if is_type (type y) S_TRISTATE && negb (first_is "n" value) then
    CONFIG_ +:+ sym_text y +:+ "=" +:+
    (match value with String c _ => str1 (toupper c) | EmptyString => str1 (chr 0) end) +:+ NL
  else "".

Definition kconfig_printer_cb := {| print_symbol := kconfig_print_symbol; print_comment := kconfig_print_comment |}.
Definition header_printer_cb := {| print_symbol := header_print_symbol; print_comment := header_print_comment |}.
Definition tristate_printer_cb := {| print_symbol := tristate_print_symbol; print_comment := kconfig_print_comment |}.

Definition conf_write_symbol (s : symref) (pr : conf_printer) (arg : bool) : KM string :=
  y ← get_sym s;
  match type y with
  | S_OTHER | S_UNKNOWN => mret ""
  | S_STRING => v ← sym_get_string_value s; mret (print_symbol pr y (sym_escape_string_value v) arg)
  | _ => v ← sym_get_string_value s; mret (print_symbol pr y v arg)
  end.

(** The heading, cut by [snprintf] to 255 characters; [title] is the prompt of
    the root menu. *)
Definition heading_text (title : string) : string :=
  String.substring 0 255 (NL +:+ "Automatically generated file; DO NOT EDIT." +:+ NL +:+ title +:+ NL).
Definition conf_write_heading (title : string) (pr : conf_printer) : string :=
  print_comment pr (heading_text title).

(** ** Menus *)

Definition get_menu (m : menuref) : KM menu := st ← pget; plift (menus st !! m).
Definition rootmenu : menuref := 0%nat.

Definition prompt_prop (p : prompt_ref) : KM property :=
  match p with
  | POf s i => y ← get_sym s; plift (prop y !! i)
  | POwn p => mret p
  end.

(** The condition of a prompt: that of a symbol was just calculated, that of
    another entry is calculated and stored now. *)
Definition set_own_tri (t : tristate) (m : menu) : menu :=
  {| m_next := m_next m; m_parent := m_parent m; m_list := m_list m; m_sym := m_sym m;
     m_prompt := match m_prompt m with Some (POwn p) => Some (POwn (set_prop_tri t p)) | p => p end;
     m_visibility := m_visibility m; m_dep := m_dep m; m_flags := m_flags m; m_help := m_help m |}.
Definition set_prompt_tri (m : menuref) (p : prompt_ref) (t : tristate) : KM unit :=
  match p with
  | POf s i => set_visible_tri s i t
  | POwn _ => pmodify (upd_menus (alter (set_own_tri t) m))
  end.
Definition prompt_visible (m : menuref) (y : option symref) (p : prompt_ref) : KM tristate :=
  match y with
  | Some s => sym_calc_value s;; p ← prompt_prop p; mret (p_visible_tri p)
  | None =>
      q ← prompt_prop p;
      t ← expr_calc_value (p_visible q);
      set_prompt_tri m p t;; mret t
  end.

(** [menu_is_visible] (menu.c), with the nesting of menus bounded; [child]
    follows the [next] pointers. *)
Fixpoint menu_is_visible (n : nat) (m : menuref) : KM bool :=
  match n with
  | O => pnofuel
  | S n =>
      e ← get_menu m;
      match m_prompt e with
      | None => mret false
      | Some p =>
          v ← (match m_visibility e with Some x => expr_calc_value (Some x) | None => mret Tyes end);
          if is_tri v Tno then mret false
          else
            t ← prompt_visible m (m_sym e) p;
            if negb (is_tri t Tno) then mret true
            else
              match m_sym e with
              | None => mret false
              | Some s =>
                  y ← get_sym s;
                  if is_tri (sym_get_tristate_value y) Tno then mret false
                  else
                    (fix children (k : nat) (c : option menuref) : KM bool :=
                       match k, c with
                       | _, None => mret false
                       | O, _ => pnofuel
                       | S k, Some c =>
                           ok ← menu_is_visible n c;
                           if ok : bool then or_flags s SYMBOL_DEF_USER;; mret true
                           else e ← get_menu c; children k (m_next e)
                       end) n (m_list e)
              end
      end
  end.

Definition menu_get_prompt (m : menuref) : KM (option string) :=
  e ← get_menu m;
  match m_prompt e with
  | Some p => p ← prompt_prop p; mret (p_text p)
  | None => match m_sym e with Some s => y ← get_sym s; mret (name y) | None => mret None end
  end.

(** The walk of [conf_write] and [conf_write_defconfig]: to the first child, else
    to the next entry, else up to the first ancestor that has one. *)
Fixpoint climb (n : nat) (ms : gmap menuref menu) (m : menuref) : option (option menuref) :=
  match n with
  | O => None
  | S n =>
      e ← ms !! m;
      match m_next e with
      | Some x => Some (Some x)
      | None => match m_parent e with Some p => climb n ms p | None => Some None end
      end
  end.
Definition next_menu (n : nat) (ms : gmap menuref menu) (m : menuref) : option (option menuref) :=
  e ← ms !! m;
  match m_list e with Some c => Some (Some c) | None => climb n ms m end.

(** [visit] on every entry of the walk; the texts are joined. *)
Fixpoint walk (n : nat) (visit : menuref -> KM string) (m : option menuref) : KM string :=
  match m with
  | None => mret ""
  | Some m =>
      match n with
      | O => pnofuel
      | S n =>
          a ← visit m;
          st ← pget;
          x ← plift (next_menu (S (size (menus st))) (menus st) m);
          b ← walk n visit x;
          mret (a +:+ b)
      end
  end.
Definition walk_menus (visit : menuref -> KM string) : KM string :=
  st ← pget; r ← get_menu rootmenu; walk (S (size (menus st))) visit (m_list r).
Definition visible_menu (m : menuref) : KM bool := st ← pget; menu_is_visible (S (size (menus st))) m.

(** ** Writers *)

(** What is done to files: opened for writing with the text that follows, and
    renamed. *)
Inductive fsop :=
| Write (path text : string)
| Rename (from to : string)
| Touch (path : string)
| Mkdir (path : string).

(** The entry of a menu in [conf_write]. *)
Definition write_entry (m : menuref) : KM string :=
  e ← get_menu m;
  match m_sym e with
  | None =>
      ok ← visible_menu m;
      if negb ok then mret ""
      else
        p ← menu_get_prompt m;
        mret (NL +:+ "#" +:+ NL +:+ "# " +:+ default "(null)" p +:+ NL +:+ "#" +:+ NL)
  | Some s =>
      y ← get_sym s;
      if has SYMBOL_CHOICE (flags y) then mret ""
      else
        sym_calc_value s;;
        y ← get_sym s;
        if negb (has SYMBOL_WRITE (flags y)) then mret ""
        else and_not_flags s SYMBOL_WRITE;; conf_write_symbol s kconfig_printer_cb false
  end.

(** The entry of a menu in [conf_write_defconfig]: symbols whose value differs
    from the default. *)
Definition chosen_by_default (s : symref) : KM bool :=
  y ← get_sym s;
  if negb (sym_is_choice_value y) then mret false
  else
    c ← plift (choice_of y);
    ds ← sym_choice_default c;
    cs ← get_sym c;
    y ← get_sym s;
    mret (negb (sym_is_optional cs) && bool_decide (ds = Some s) && is_type (type y) S_BOOLEAN
          && is_tri (sym_get_tristate_value y) Tyes).
Definition defconfig_entry (m : menuref) : KM string :=
  e ← get_menu m;
  match m_sym e with
  | None => _ ← visible_menu m; mret ""
  | Some s =>
      y ← get_sym s;
      if sym_is_choice y then mret ""
      else
        sym_calc_value s;;
        y ← get_sym s;
        if negb (has SYMBOL_WRITE (flags y)) then mret ""
        else
          and_not_flags s SYMBOL_WRITE;;
          y ← get_sym s;
          if negb (sym_is_changable y) then mret ""
          else
            v ← sym_get_string_value s;
            df ← sym_get_string_default s;
            if String.eqb v df then mret ""
            else
              skip ← chosen_by_default s;
              if skip : bool then mret "" else conf_write_symbol s kconfig_printer_cb false
  end.

(** [conf_write_defconfig]; [can_open]: [fopen] for writing succeeds.  The
    result of the function is 1 without and 0 with operations. *)
Variable can_open : string -> bool.
Definition conf_write_defconfig (filename : string) : KM (option (list fsop)) :=
  if negb (can_open filename) then mret None
  else
    sym_clear_all_valid;;
    text ← walk_menus defconfig_entry;
    mret (Some [Write filename text]).

(** [is_dir]: the name is that of a directory; [can_rename]: [rename]
    succeeds; [title]: the prompt of the root menu. *)
Variable is_dir : string -> bool.
Variable can_rename : string -> string -> bool.
Variable title : string.
Variable pid : Z.

(** [strrchr]: up to and with the last [c], and the rest. *)
Fixpoint strrchr (c : Ascii.ascii) (s : string) : option (string * string) :=
  match s with
  | EmptyString => None
  | String d t =>
      match strrchr c t with
      | Some (a, b) => Some (String d a, b)
      | None => if char_eqb d c then Some (str1 d, t) else None
      end
  end.

(** The directory (with its slash) and the base name of the file to write. *)
Definition split_name (nm : string) : string * string :=
  if String.eqb nm "" then ("", conf_get_configname)
  else if is_dir nm then (nm +:+ "/", conf_get_configname)
  else match strrchr "/" nm with
       | Some (d, b) => (d, if String.eqb b "" then conf_get_configname else b)
       | None => ("", nm)
       end.

(** [conf_write]: [None] when the file cannot be opened; [false] when the last
    rename failed. *)
Definition conf_write (nm : option string) : KM (option (bool * list fsop)) :=
  let '(dir, base) := split_name (default conf_get_configname nm) in
  let newname := dir +:+ base in
  let overwrite := match getenv "KCONFIG_OVERWRITECONFIG" with Some e => negb (String.eqb e "") | None => false end in
  let tmpname := dir +:+ ".tmpconfig." +:+ fmt_d pid in
  let out := if overwrite then newname else tmpname in
  if negb (can_open out) then mret None
  else
    ch ← conf_get_changed;
    pwhen (negb ch) sym_clear_all_valid;;
    body ← walk_menus write_entry;
    let text := conf_write_heading title kconfig_printer_cb +:+ body in
    if overwrite then sym_set_change_count 0;; mret (Some (true, [Write out text]))
    else
      let ops := [Write out text; Rename newname (dir +:+ base +:+ ".old"); Rename tmpname newname] in
      if can_rename tmpname newname then sym_set_change_count 0;; mret (Some (true, ops))
      else mret (Some (false, ops)).

(** *** auto.conf *)

(** [conf_split_config]: is the file of the symbol to be touched? *)
Definition value_changed (y : symbol) : KM bool :=
  if has SYMBOL_WRITE (flags y) then
    if has SYMBOL_DEF_AUTO (flags y) then
      match type y with
      | S_BOOLEAN | S_TRISTATE => mret (negb (is_tri (sym_get_tristate_value y) (tri (def_auto y))))
      | S_STRING | S_HEX | S_INT =>
          a ← sval_string (val (curr y)); b ← sval_string (val (def_auto y));
          mret (negb (String.eqb a b))
      | _ => mret true
      end
    else
      match type y with
      | S_BOOLEAN | S_TRISTATE => mret (negb (is_tri (sym_get_tristate_value y) Tno))
      | _ => mret true
      end
  else mret (has SYMBOL_DEF_AUTO (flags y)).

(** Lower case, a directory for every underscore, and [.h]. *)
Definition split_path (n : string) : string :=
  string_map (fun c => let c := tolower c in if char_eqb c "_" then "/"%char else c) n +:+ ".h".

(** The directories of a path. *)
Fixpoint parents (pre p : string) (n : nat) : list string :=
  match n with
  | O => []
  | S n =>
      match strchr "/" p with
      | Some (a, b) => (pre +:+ a) :: parents (pre +:+ a +:+ "/") b n
      | None => []
      end
  end.

(** The outcome of [open] on a path: done, the directory is missing, or another
    error.  [stat_ok], [mkdir_ok]: [stat] and [mkdir] succeed. *)
Inductive open_result := Opened | NoEntry | OtherError.
Variable open_touch : string -> open_result.
Variable reopen : string -> bool.
Variable stat_ok : string -> bool.
Variable mkdir_ok : string -> bool.

Fixpoint make_dirs (ds : list string) : bool * list fsop :=
  match ds with
  | [] => (true, [])
  | d :: ds =>
      if stat_ok d then make_dirs ds
      else if mkdir_ok d then let '(ok, ops) := make_dirs ds in (ok, Mkdir d :: ops)
      else (false, [])
  end.

Definition touch_file (path : string) : bool * list fsop :=
  match open_touch path with
  | Opened => (true, [Touch path])
  | OtherError => (false, [])
  | NoEntry =>
      let '(ok, ops) := make_dirs (parents "" path (S (String.length path))) in
      if ok && reopen path then (true, (ops ++ [Touch path])%list) else (false, ops)
  end.

Fixpoint split_symbols (l : list symref) : KM (bool * list fsop) :=
  match l with
  | [] => mret (true, [])
  | s :: l =>
      y ← get_sym s;
      if is_type (type y) S_OTHER then split_symbols l
      else
        sym_calc_value s;;
        y ← get_sym s;
        match name y with
        | None => split_symbols l
        | Some n =>
            if has SYMBOL_AUTO (flags y) then split_symbols l
            else
              ch ← value_changed y;
              if negb ch then split_symbols l
              else
                let '(ok, ops) := touch_file (split_path n) in
                if negb ok then mret (false, ops)
                else '(r, ops') ← split_symbols l; mret (r, (ops ++ ops')%list)
        end
  end.

(** The three texts of [conf_write_autoconf]. *)
Fixpoint auto_texts (l : list symref) : KM (string * string * string) :=
  match l with
  | [] => mret ("", "", "")
  | s :: l =>
      y ← get_sym s;
      if is_type (type y) S_OTHER then auto_texts l
      else
        sym_calc_value s;;
        y ← get_sym s;
        match name y with
        | None => auto_texts l
        | Some _ =>
            if negb (has SYMBOL_WRITE (flags y)) then auto_texts l
            else
              a ← conf_write_symbol s kconfig_printer_cb true;
              b ← conf_write_symbol s tristate_printer_cb true;
              c ← conf_write_symbol s header_printer_cb false;
              '(x, y, z) ← auto_texts l;
              mret (a +:+ x, b +:+ y, c +:+ z)
        end
  end.

(** [conf_split_config], in the directory of auto.conf ([chdir_ok]). *)
Variable chdir_ok : string -> bool.
Definition conf_split_config : KM (bool * list fsop) :=
  match conf_get_autoconfig_name with
  | None => pfault
  | Some nm =>
      conf_read_simple (Some nm) S_DEF_AUTO;;
      if negb (chdir_ok nm) then mret (false, [])
      else st ← pget; split_symbols (all_symbols st)
  end.

(** [dir]: the directory of the configuration. *)
Definition config_dir : string :=
  match strrchr "/" conf_get_configname with Some (d, _) => d | None => "" end.

(** The renames at the end stop at the first failure; that of auto.conf is the
    last. *)
Fixpoint renames (l : list (string * string)) : bool * list fsop :=
  match l with
  | [] => (true, [])
  | (a, b) :: l =>
      if can_rename a b then let '(ok, ops) := renames l in (ok, Rename a b :: ops)
      else (false, [Rename a b])
  end.

(** [conf_write_autoconf]; [write_dep]: what [file_write_dep] does. *)
Variable write_dep : string -> KM (list fsop).
Definition conf_write_autoconf : KM (bool * list fsop) :=
  sym_clear_all_valid;;
  deps ← write_dep (config_dir +:+ ".config.cmd");
  '(ok, ops) ← conf_split_config;
  if negb ok then mret (false, (deps ++ ops)%list)
  else
    let conf := config_dir +:+ ".tmpconfig" in
    let tris := config_dir +:+ ".tmpconfig_tristate" in
    let hdr := config_dir +:+ ".tmpconfig.h" in
    if negb (can_open conf && can_open tris && can_open hdr) then mret (false, (deps ++ ops)%list)
    else
      st ← pget;
      '(a, b, c) ← auto_texts (all_symbols st);
      let files := [Write conf (conf_write_heading title kconfig_printer_cb +:+ a);
                    Write tris (conf_write_heading title tristate_printer_cb +:+ b);
                    Write hdr (conf_write_heading title header_printer_cb +:+ c)] in
      match conf_get_autoconfig_name with
      | None => pfault
      | Some auto =>
          let '(ok, rs) := renames
            [(hdr, default "include/generated/autoconf.h" (getenv "KCONFIG_AUTOHEADER"));
             (tris, default "include/config/tristate.conf" (getenv "KCONFIG_TRISTATE"));
             (conf, auto)] in
          mret (ok, (deps ++ ops ++ files ++ rs)%list)
      end.
End Read.

(** ** New values for all symbols *)

Inductive conf_def_mode := def_default | def_yes | def_mod | def_no | def_random.
#[export] Instance conf_def_mode_eq_dec : EqDecision conf_def_mode.
Proof. solve_decision. Defined.

(** [KCONFIG_PROBABILITY]: up to three numbers from 0 to 100; [None] is
    [exit(1)]. *)
Fixpoint parse_probability (n : nat) (acc : list Z) (env : string) : option (list Z) :=
  match n with
  | O => Some acc
  | S n =>
      if String.eqb env "" then Some acc
      else
        let '(tmp, rest) := strtol_end env in
        let tmp := i32 tmp in
        if (0 <=? tmp) && (tmp <=? 100) then
          parse_probability n (acc ++ [tmp])%list
            (match rest with String c t => if char_eqb c ":" then t else rest | _ => rest end)
        else None
  end.

(** The probabilities of a boolean [y], a tristate [y] and a tristate [m]. *)
Definition probabilities (env : option string) : option (Z * Z * Z) :=
  match (match env with Some e => parse_probability 3 [] e | None => Some [] end) with
  | None => None
  | Some p =>
      let '(pby, pty, ptm) :=
        match p with
        | [a] => (a, a - Z.quot a 2, Z.quot a 2)
        | [a; b] => (a + b, a, b)
        | [a; b; c] => (a, b, c)
        | _ => (50, 33, 33)
        end in
      if 100 <? pty + ptm then None else Some (pby, pty, ptm)
  end.

(** Draw the next number of [rand()] from a list. *)
Definition with_user_tri (t : tristate) (y : symbol) : symbol :=
  set_def_user {| val := val (def_user y); tri := t |} y.

Definition random_tri (pby pty ptm r : Z) (y : symbol) : tristate :=
  let cnt := Z.rem r 100 in
  if is_type (type y) S_TRISTATE then
    if cnt <? pty then Tyes else if cnt <? pty + ptm then Tmod else Tno
  else if cnt <? pby then Tyes else Tno.

(** The first loop of [conf_set_all_new_symbols]: the symbols without a value
    and not yet calculated. *)
Fixpoint set_new (mode : conf_def_mode) (pr : Z * Z * Z) (rand : list Z) (l : list symref) (changed : bool)
  : KM (list Z * bool) :=
  match l with
  | [] => mret (rand, changed)
  | s :: l =>
      y ← get_sym s;
      if is_type (type y) S_OTHER || sym_has_value y || has SYMBOL_VALID (flags y)
      then set_new mode pr rand l changed
      else
        ty ← get_type s;
        match ty with
        | S_BOOLEAN | S_TRISTATE =>
            let mark := pwhen (negb (sym_is_choice y && bool_decide (mode = def_random)))
                              (or_flags s SYMBOL_DEF_USER) in
            match mode with
            | def_yes => mod_sym s (with_user_tri Tyes);; mark;; set_new mode pr rand l true
            | def_mod => mod_sym s (with_user_tri Tmod);; mark;; set_new mode pr rand l true
            | def_no => mod_sym s (with_user_tri Tno);; mark;; set_new mode pr rand l true
            | def_random =>
                let '(pby, pty, ptm) := pr in
                match rand with
                | [] => pnofuel
                | r :: rand =>
                    mod_sym s (with_user_tri (random_tri pby pty ptm r y));; mark;;
                    set_new mode pr rand l true
                end
            | def_default => set_new mode pr rand l true
            end
        | _ => set_new mode pr rand l changed
        end
  end.

(** [randomize_choice_values]: one value of a chosen choice becomes [y]. *)
Fixpoint choose_one (cs : symref) (def : Z) (cnt : Z) (l : list symref) : KM unit :=
  match l with
  | [] => mret tt
  | s :: l =>
      (if def =? cnt then
         mod_sym s (with_user_tri Tyes);;
         mod_sym cs (fun c => set_def_user {| val := VSym s; tri := tri (def_user c) |} c)
       else mod_sym s (with_user_tri Tno));;
      or_flags s SYMBOL_DEF_USER;;
      and_not_flags s SYMBOL_VALID;;
      choose_one cs def (cnt + 1) l
  end.
Definition randomize_choice_values (r : Z) (cs : symref) : KM bool :=
  y ← get_sym cs;
  if negb (is_tri (tri (curr y)) Tyes) then mret false
  else
    l ← plift (choice_list y);
    match l with
    | [] => pfault
    | _ =>
        choose_one cs (Z.rem r (Z.of_nat (length l))) 0 l;;
        or_flags cs SYMBOL_DEF_USER;;
        and_not_flags cs SYMBOL_VALID;;
        mret true
    end.

(** The last loop: the choices without a value.  A random number is drawn for a
    choice that is [y]. *)
Fixpoint set_choices (mode : conf_def_mode) (rand : list Z) (l : list symref) (changed : bool) : KM bool :=
  match l with
  | [] => mret changed
  | s :: l =>
      y ← get_sym s;
      if is_type (type y) S_OTHER || sym_has_value y || negb (sym_is_choice y)
      then set_choices mode rand l changed
      else
        sym_calc_value s;;
        match mode with
        | def_random =>
            y ← get_sym s;
            if is_tri (tri (curr y)) Tyes then
              match rand with
              | [] => pnofuel
              | r :: rand => ch ← randomize_choice_values r s; set_choices mode rand l ch
              end
            else ch ← randomize_choice_values 0 s; set_choices mode rand l ch
        | _ => set_all_choice_values s;; set_choices mode rand l true
        end
  end.

(** [conf_set_all_new_symbols]; [rand]: the numbers [rand()] gives, enough of
    them; [env]: [KCONFIG_PROBABILITY].  [None] is [exit(1)]. *)
Definition conf_set_all_new_symbols (mode : conf_def_mode) (env : option string) (rand : list Z) : KM (option bool) :=
  match (if bool_decide (mode = def_random) then probabilities env else Some (50, 33, 33)) with
  | None => mret None
  | Some pr =>
      st ← pget;
      '(rand, changed) ← set_new mode pr rand (all_symbols st) false;
      sym_clear_all_valid;;
      pwhen (negb (bool_decide (mode = def_random)))
        (for_all_symbols (fun s =>
           y ← get_sym s;
           pwhen ((sym_is_choice y && negb (sym_has_value y)) || sym_is_choice_value y)
             (or_flags s SYMBOL_NEED_SET_CHOICE_VALUES)));;
      st ← pget;
      ch ← set_choices mode rand (all_symbols st) changed;
      mret (Some ch)
  end.
