(* ===== verification/KConfFacts.v ===== *)
(** What [conf_write] writes is read back by [conf_read], and its walk over the
    menus visits every entry once. *)
From S2P Require Import Prelude CText KExpr KSym KSymFacts KConf.

(** ** Strings *)

(** Reading an escaped text up to its closing quote gives the text. *)
Lemma unescape_escape v rest : unescape (escape v +:+ String quote rest) = Value v.
Proof.
  induction v as [|c v IH]; [done|]. cbn [escape]. unfold special.
  destruct (char_eqb_spec c quote) as [->|Hq].
  - change (unescape (String backslash (String quote (escape v +:+ String quote rest))) = Value (String quote v)).
    cbn [unescape]. change (char_eqb backslash quote) with false. rewrite char_eqb_refl.
    cbv iota zeta. by rewrite IH.
  - destruct (char_eqb_spec c backslash) as [->|Hb]; cbn [orb].
    + change (unescape (String backslash (String backslash (escape v +:+ String quote rest))) = Value (String backslash v)).
      cbn [unescape]. change (char_eqb backslash quote) with false. rewrite char_eqb_refl.
      cbv iota zeta. by rewrite IH.
    + change (unescape (String c (escape v +:+ String quote rest)) = Value (String c v)).
      cbn [unescape]. destruct (char_eqb_spec c quote); [done|]. destruct (char_eqb_spec c backslash); [done|].
      cbv iota zeta. by rewrite IH.
Qed.

(** A backslash at the very end of a quoted text makes the loop step over the
    terminating NUL. *)
Lemma unescape_overrun : unescape ("abc" +:+ str1 backslash) = Overrun.
Proof. reflexivity. Qed.

(** ** Lines *)

Definition no_char (c : Ascii.ascii) (s : string) : bool := string_all (fun d => negb (char_eqb d c)) s.

Lemma strchr_none c s : no_char c s = true -> strchr c s = None.
Proof.
  induction s as [|d s IH]; [done|]. cbn. intros [Hd Hs]%andb_true_iff.
  apply negb_true_iff in Hd. by rewrite Hd, IH.
Qed.
Lemma strchr_app c a b : no_char c a = true -> strchr c (a +:+ String c b) = Some (a, b).
Proof.
  induction a as [|d a IH]; cbn; [by rewrite char_eqb_refl|]. intros [Hd Hs]%andb_true_iff.
  apply negb_true_iff in Hd. by rewrite Hd, IH.
Qed.

(** Symbol names: letters, digits and underscores. *)
Definition is_name (n : string) : bool := string_all name_char n && negb (String.eqb n "").

Lemma name_char_not c d : name_char c = true -> name_char d = false -> char_eqb c d = false.
Proof. intros H H'. destruct (char_eqb_spec c d); [congruence|done]. Qed.

Lemma name_no_char n d : string_all name_char n = true -> name_char d = false -> no_char d n = true.
Proof.
  intros H Hd. revert H. apply string_all_impl. intros c Hc. by rewrite (name_char_not c d).
Qed.


(** A value that fits on a line: no newline, no carriage return at its end. *)
Fixpoint ends_cr (s : string) : bool :=
  match s with
  | EmptyString => false
  | String c EmptyString => char_eqb c cr
  | String _ t => ends_cr t
  end.
Definition one_line (v : string) : bool := no_char nl v && negb (ends_cr v).

Lemma drop_cr_id v : ends_cr v = false -> drop_cr v = v.
Proof.
  induction v as [|c v IH]; [done|]. destruct v as [|d v]; [cbn; by intros ->|].
  intros H. change (String c (drop_cr (String d v)) = String c (String d v)). by rewrite IH.
Qed.

Definition logical_type (t : symbol_type) : bool := is_type t S_BOOLEAN || is_type t S_TRISTATE.

Section Lines.
Variable CONFIG_ : string.
Hypothesis Hprefix : string_all name_char CONFIG_ = true.

Lemma parse_assign n v : is_name n = true -> one_line v = true ->
  parse_line CONFIG_ (CONFIG_ +:+ n +:+ "=" +:+ v +:+ NL) = Assign n v.
Proof.
  intros [Hn Hne]%andb_true_iff [Hv Hcr]%andb_true_iff. apply negb_true_iff in Hcr.
  assert (Hpn : string_all name_char (CONFIG_ +:+ n) = true) by (by rewrite string_all_app, Hprefix, Hn).
  assert (exists c t, CONFIG_ +:+ n = String c t /\ name_char c = true) as (c & t & Ec & Hc).
  { destruct (CONFIG_ +:+ n) as [|c t] eqn:E; [|exists c, t; split; [done|]; by apply andb_true_iff in Hpn as [? _]].
    exfalso. destruct CONFIG_; [|done]. cbn in E. by subst n. }
  remember ("=" +:+ v +:+ NL) as w eqn:Ew. rewrite app_assoc_s.
  assert (Ep : strip_prefix CONFIG_ (String c t +:+ w) = Some (n +:+ w))
    by (by rewrite <- Ec, <- app_assoc_s, strip_prefix_app).
  rewrite Ec. change (String c t +:+ w) with (String c (t +:+ w)) in *.
  unfold parse_line. rewrite (name_char_not c "#" Hc eq_refl), Ep, Ew.
  change ("=" +:+ v +:+ NL) with (String "=" (v +:+ NL)).
  rewrite strchr_app by (by apply name_no_char).
  unfold value_text, NL, str1. rewrite strchr_app by done. by rewrite drop_cr_id.
Qed.

Lemma parse_not_set n : is_name n = true ->
  parse_line CONFIG_ ("# " +:+ CONFIG_ +:+ n +:+ " is not set" +:+ NL) = NotSet n.
Proof.
  intros [Hn _]%andb_true_iff. cbn [String.append]. unfold parse_line.
  change (char_eqb "#" "#") with true. cbv iota.
  rewrite strip_prefix_app. change (" is not set" +:+ NL) with (String " " ("is not set" +:+ NL)).
  rewrite strchr_app by (by apply name_no_char).
  reflexivity.
Qed.

(** A line written for a symbol says, when read, what was written: its value,
    or that it is not set. *)
Theorem kconfig_line_roundtrip y n v :
  name y = Some n -> is_name n = true -> one_line v = true ->
  parse_line CONFIG_ (kconfig_print_symbol CONFIG_ y v false)
  = if logical_type (type y) && first_is "n" v then NotSet n else Assign n v.
Proof.
  intros En Hn Hv. unfold kconfig_print_symbol, sym_text, logical_type. rewrite En. cbn [default from_option].
  destruct (type y); cbn [andb orb is_type bool_decide]; try (by apply parse_assign);
    destruct (first_is "n" v); (by apply parse_assign) || (by apply parse_not_set).
Qed.
End Lines.

Lemma no_char_cons c d v : no_char c (String d v) = negb (char_eqb d c) && no_char c v.
Proof. done. Qed.

Lemma escape_no_char c v : special c = false -> no_char c v = true -> no_char c (escape v) = true.
Proof.
  intros Hc. assert (Hb : char_eqb backslash c = false).
  { unfold special in Hc. apply orb_false_iff in Hc as [_ Hc].
    destruct (char_eqb_spec backslash c) as [<-|]; [|done]. by rewrite char_eqb_refl in Hc. }
  induction v as [|d v IH]; [done|]. rewrite no_char_cons. intros [Hd Hv]%andb_true_iff.
  cbn [escape]. destruct (special d); rewrite ?no_char_cons, ?Hb, Hd; by apply IH.
Qed.

Lemma ends_cr_app a c : ends_cr (a +:+ str1 c) = char_eqb c cr.
Proof.
  induction a as [|d a IH]; [done|]. destruct a as [|e a]; [done|]. exact IH.
Qed.

Lemma escaped_one_line v : no_char nl v = true -> one_line (sym_escape_string_value v) = true.
Proof.
  intros Hv. unfold one_line, sym_escape_string_value. rewrite app_assoc_s, ends_cr_app.
  pose proof (escape_no_char nl v eq_refl Hv) as He. unfold no_char in *. by rewrite !string_all_app, He.
Qed.

(** C11. A string value survives writing and reading: the line [conf_write] prints
    for a string symbol, read by [conf_read], gives the symbol exactly the text it
    had, whatever quotes and backslashes it contains. *)
Theorem saved_string_read_back CONFIG_ s y n v st :
  string_all name_char CONFIG_ = true ->
  syms st !! s = Some y -> type y = S_STRING -> name y = Some n -> is_name n = true ->
  sym_is_choice_value y = false -> sym_has_value y = false ->
  sym_find (Some n) st = Ok (Some s) st -> no_char nl v = true ->
  exists st' y' l,
    read_line CONFIG_ S_DEF_USER (kconfig_print_symbol CONFIG_ y (sym_escape_string_value v) false) st = Ok tt st' /\
    syms st' !! s = Some y' /\ sym_has_value y' = true /\ val (def_user y') = VStr l v.
Proof.
  intros Hp E Hty Hname Hn Hcv Hhas Hfind Hv.
  unfold read_line. rewrite (kconfig_line_roundtrip CONFIG_ Hp y n) by (done || by apply escaped_one_line).
  rewrite Hty. cbn [logical_type is_type bool_decide orb andb].
  change (logical_type S_STRING) with false. cbn [andb].
  assert (Hls : line_symbol S_DEF_USER S_OTHER n st = Ok (Some s) st)
    by (unfold line_symbol; by rewrite (run_bind _ _ _ _ _ Hfind)).
  rewrite (run_bind _ _ _ _ _ Hls).
  assert (Hw : warn_reassign S_DEF_USER s st = Ok tt st).
  { unfold warn_reassign. rewrite (run_bind _ _ _ _ _ (run_get_sym s y st E)).
    change (has (def_flags S_DEF_USER) (flags y)) with (sym_has_value y). by rewrite Hhas. }
  rewrite (run_bind _ _ _ _ _ Hw).
  set (v0 := {| val := VStr (LHeap (next_loc st)) v; tri := tri (def_user y) |}).
  set (y2 := set_flags (set_bits SYMBOL_DEF_USER) (set_def_user v0 y)).
  assert (exists st2, conf_set_sym_val s S_DEF_USER (sym_escape_string_value v) st = Ok true st2 /\
                      syms st2 !! s = Some y2) as (st2 & Hset & E2).
  { unfold conf_set_sym_val. rewrite (run_bind _ _ _ _ _ (run_get_sym s y st E)), Hty.
    change (sym_escape_string_value v) with (String quote (escape v +:+ String quote "")).
    cbv zeta iota. rewrite char_eqb_refl. unfold set_quoted. rewrite unescape_escape.
    unfold set_def_text. rewrite (run_bind _ _ _ _ _ (run_get_sym s y st E)), Hty.
    cbn [sym_string_valid]. set (st1 := upd_loc st).
    assert (Hd : strdup v st = Ok (VStr (LHeap (next_loc st)) v) st1) by done.
    rewrite (run_bind _ _ _ _ _ Hd).
    assert (E1 : syms st1 !! s = Some y) by done.
    rewrite (run_bind _ _ _ _ _ (run_mod_sym s _ y st1 E1)). unfold or_flags.
    erewrite run_bind by (apply run_mod_sym; cbn; by rewrite lookup_insert_eq).
    eexists. split; [done|]. cbn. by rewrite lookup_insert_eq. }
  rewrite (run_bind _ _ _ _ _ Hset). cbn [pwhen]. unfold set_in_choice.
  rewrite (run_bind _ _ _ _ _ (run_get_sym s y2 st2 E2)).
  assert (sym_is_choice_value y2 = false) as ->.
  { unfold sym_is_choice_value, y2 in *. cbn. by rewrite has_set_other. }
  exists st2, y2, (LHeap (next_loc st)). repeat split; [done|].
  unfold sym_has_value, y2. cbn. by apply has_set_same.
Qed.

(** ** The walk over the menus *)

(** A forest of entries: the first entry, its children and the entries behind
    it. *)
Inductive forest := Leaf | Entry (m : menuref) (children rest : forest).
Definition first (f : forest) : option menuref := match f with Leaf => None | Entry m _ _ => Some m end.
Fixpoint preorder (f : forest) : list menuref :=
  match f with Leaf => [] | Entry m c r => m :: preorder c ++ preorder r end.

(** [ms] links the entries of the forest below [parent]. *)
Fixpoint linked (ms : gmap menuref menu) (parent : menuref) (f : forest) : Prop :=
  match f with
  | Leaf => True
  | Entry m c r =>
      (exists e, ms !! m = Some e /\ m_parent e = Some parent /\ m_list e = first c /\ m_next e = first r) /\
      linked ms m c /\ linked ms parent r
  end.

(** Where the walk goes from the last entry below [p] when [up] is what follows
    [p]: [follow] climbs. *)
Definition climbs (ms : gmap menuref menu) (k : nat) (m : menuref) (x : option menuref) : Prop :=
  forall n, (k < n)%nat -> climb n ms m = Some x.

Lemma climbs_next ms m e x : ms !! m = Some e -> m_next e = Some x -> climbs ms 0 m (Some x).
Proof. intros E Hx [|n] Hn; [lia|]. cbn [climb]. rewrite E. cbn [mbind option_bind]. by rewrite Hx. Qed.
Lemma climbs_up ms k m e p x : ms !! m = Some e -> m_next e = None -> m_parent e = Some p ->
  climbs ms k p x -> climbs ms (S k) m x.
Proof. intros E Hn Hp Hc [|n] Hlt; [lia|]. cbn [climb]. rewrite E. cbn [mbind option_bind].
  rewrite Hn, Hp. apply Hc. lia.
Qed.

Section Walk.
Variables (st : kstate) (visit : menuref -> KM string) (text : menuref -> string).
(** The entries are visited without a change of the state. *)
Hypothesis Hvisit : forall m, visit m st = Ok (text m) st.
Abbreviation ms := (menus st).

Definition texts (l : list menuref) : string := foldr (fun m acc => text m +:+ acc) "" l.

Fixpoint depth (f : forest) : nat :=
  match f with Leaf => 0 | Entry _ c r => Nat.max (S (depth c)) (depth r) end.

Lemma texts_app l l' : texts (l ++ l')%list = texts l +:+ texts l'.
Proof. induction l as [|m l IH]; [done|].
  change (text m +:+ texts (l ++ l')%list = (text m +:+ texts l) +:+ texts l'). by rewrite IH, app_assoc_s.
Qed.

(** The walk from the first entry of a forest below [p]: all of the forest, then
    what follows [p]. *)
Lemma walk_forest f : forall p k x n m, first f = Some m -> linked ms p f -> climbs ms k p x ->
  (k + depth f <= size ms)%nat ->
  walk (length (preorder f) + n) visit (Some m) st
  = match walk n visit x st with Ok b st' => Ok (texts (preorder f) +:+ b) st' | r => r end.
Proof.
  induction f as [|m0 c IHc r IHr]; [done|]. intros p k x n m [= <-] (He & Lc & Lr) Hp Hk.
  destruct He as (e & E & Ep & El & En). cbn [preorder length Nat.add walk depth] in *.
  rewrite (run_bind _ _ _ _ _ (Hvisit m0)). unfold mbind at 1, PM_bind at 1, pget.
  rewrite length_app, <- Nat.add_assoc. set (n' := (length (preorder r) + n)%nat).
  assert (Hr : exists y, climbs ms (S k) m0 y /\ walk n' visit y st =
    match walk n visit x st with Ok b st' => Ok (texts (preorder r) +:+ b) st' | q => q end).
  { destruct r as [|m1 c1 r1].
    - exists x. split; [by eapply climbs_up|]. unfold n'. cbn. by destruct (walk n visit x st).
    - exists (Some m1). split; [intros q Hq; apply (climbs_next ms m0 e m1 E En); lia|].
      unfold n'. apply (IHr p k x n m1); try done. cbn [depth] in *. lia. }
  destruct Hr as (y & Hy & Wy).
  assert (Hc : exists z, next_menu (S (size ms)) ms m0 = Some z /\
    walk (length (preorder c) + n') visit z st =
    match walk n' visit y st with Ok b st' => Ok (texts (preorder c) +:+ b) st' | q => q end).
  { unfold next_menu. rewrite E. cbn [mbind option_bind]. rewrite El. destruct c as [|m1 c1 r1].
    - exists y. split; [apply Hy; lia|]. cbn. by destruct (walk n' visit y st).
    - exists (Some m1). split; [done|]. apply (IHc m0 (S k) y n' m1); try done. cbn [depth] in *. lia. }
  destruct Hc as (z & -> & Wz). unfold mbind, PM_bind, plift. rewrite Wz, Wy.
  destruct (walk n visit x st) as [b st'| |]; [|done..].
  unfold mret, PM_ret. f_equal.
  change (texts (m0 :: preorder c ++ preorder r)) with (text m0 +:+ texts (preorder c ++ preorder r)).
  by rewrite texts_app, !app_assoc_s.
Qed.

Lemma forest_size f p : linked ms p f -> NoDup (preorder f) -> (length (preorder f) <= size ms)%nat.
Proof.
  intros L N. rewrite <- (size_dom (D := gset nat)), <- (size_list_to_set (C := gset nat) _ N).
  apply subseteq_size. intros m Hm. apply elem_of_list_to_set in Hm. apply elem_of_dom.
  clear N. revert p L Hm. induction f as [|m0 c IHc r IHr]; intros p L Hm; [by apply elem_of_nil in Hm|].
  destruct L as ((e & E & _) & Lc & Lr). cbn in Hm.
  apply elem_of_cons in Hm as [->|[Hm|Hm]%elem_of_app]; eauto.
Qed.

Lemma depth_length f : (depth f <= length (preorder f))%nat.
Proof. induction f as [|m c IHc r IHr]; cbn; [lia|]. rewrite length_app. lia. Qed.
End Walk.

Lemma walk_preorder st visit text f root :
  menus st !! rootmenu = Some root -> m_list root = first f -> m_next root = None -> m_parent root = None ->
  linked (menus st) rootmenu f -> NoDup (preorder f) ->
  (forall m, visit m st = Ok (text m) st) ->
  walk_menus visit st = Ok (texts text (preorder f)) st.
Proof.
  intros E El En Ep L N Hv. unfold walk_menus, get_menu, mbind, PM_bind, pget, plift. rewrite E, El.
  destruct (first f) as [m|] eqn:Ef; [|by destruct f].
  pose proof (forest_size st f rootmenu L N) as Hs. pose proof (depth_length f) as Hd.
  replace (S (size (menus st))) with (length (preorder f) + (S (size (menus st)) - length (preorder f)))%nat by lia.
  rewrite (walk_forest st visit text Hv f rootmenu 0 None _ m Ef L).
  - unfold walk. destruct (_ - _)%nat; unfold mret, PM_ret; by rewrite app_nil_s.
  - intros [|n] Hn; [lia|]. cbn [climb]. rewrite E. cbn [mbind option_bind]. by rewrite En, Ep.
  - lia.
Qed.

(** The walk [conf_write] makes over the [list], [next] and [parent] pointers
    ends and visits every entry of the menu tree exactly once, parents before
    children and in file order. *)
Theorem walk_menus_preorder st visit text f root :
  menus st !! rootmenu = Some root -> m_list root = first f -> m_next root = None -> m_parent root = None ->
  linked (menus st) rootmenu f -> NoDup (preorder f) ->
  (forall m, visit m st = Ok (text m) st) ->
  walk_menus visit st = Ok (texts text (preorder f)) st.
Proof. apply walk_preorder. Qed.
