(* ===== verification/KDemo.v ===== *)
(** A configuration with a boolean, a tristate that depends on it, a choice of two
    values and an int with a range: the theorems about symbols and configuration files
    applied to it. *)
From S2P Require Import Prelude CText KExpr KSym KSymFacts KSymFrame KSymValue KSymText KConf KConfFacts.

Definition const_symbol (n : string) (s : symref) (t : tristate) : symbol :=
  set_curr {| val := VStr (LName s) n; tri := t |}
    (new_symbol (Some n) (Z.lor SYMBOL_CONST SYMBOL_VALID)).

Definition prompt_prop (dep : option expr) : property :=
  {| p_type := P_PROMPT; p_text := Some "prompt"; p_visible := dep; p_visible_tri := Tno;
     p_expr := None; p_menu := None |}.
Definition typed_prop (t : prop_type) (e : prop_expr) : property :=
  {| p_type := t; p_text := None; p_visible := None; p_visible_tri := Tno; p_expr := Some e; p_menu := None |}.
Definition demo_symbol (n : option string) (t : symbol_type) (fl : Z) (ps : list property) (user : symbol_value) : symbol :=
  set_def_user user (set_prop ps (set_name_type t (new_symbol n fl))).
Definition with_rev_dep (e : expr) (y : symbol) : symbol :=
  {| name := name y; type := type y; curr := curr y; def_user := def_user y; def_auto := def_auto y;
     visible := visible y; flags := flags y; prop := prop y; dir_dep := dir_dep y;
     dir_dep_tri := dir_dep_tri y; rev_dep := Some e; rev_dep_tri := rev_dep_tri y |}.
Definition user_tri (t : tristate) : symbol_value := {| val := VNull; tri := t |}.

(** [FOO] (bool, set to y), [BAR] (tristate if FOO, set to m), a choice of [A] and
    [B] (default B), [NUM] (int, default 300, range 1 255) and its constants. *)
Definition demo_syms : gmap symref symbol := list_to_map [
  (symbol_yes, const_symbol "y" symbol_yes Tyes);
  (symbol_mod, const_symbol "m" symbol_mod Tmod);
  (symbol_no, const_symbol "n" symbol_no Tno);
  (3%nat, demo_symbol (Some "FOO") S_BOOLEAN SYMBOL_DEF_USER [prompt_prop None] (user_tri Tyes));
  (4%nat, demo_symbol (Some "BAR") S_TRISTATE SYMBOL_DEF_USER [prompt_prop (Some (Sym 3%nat))] (user_tri Tmod));
  (5%nat, with_rev_dep (Sym symbol_mod) (demo_symbol None S_BOOLEAN SYMBOL_CHOICE
    [prompt_prop None; typed_prop P_DEFAULT (PExpr (Sym 7%nat)); typed_prop P_CHOICE (PList [6; 7]%nat)] (user_tri Tno)));
  (6%nat, demo_symbol (Some "A") S_BOOLEAN SYMBOL_CHOICEVAL [prompt_prop (Some (Sym 5%nat)); typed_prop P_CHOICE (PExpr (Sym 5%nat))] (user_tri Tno));
  (7%nat, demo_symbol (Some "B") S_BOOLEAN SYMBOL_CHOICEVAL [prompt_prop (Some (Sym 5%nat)); typed_prop P_CHOICE (PExpr (Sym 5%nat))] (user_tri Tno));
  (8%nat, demo_symbol (Some "NUM") S_INT 0 [typed_prop P_DEFAULT (PExpr (Sym 9%nat)); typed_prop P_RANGE (PRange 10%nat 11%nat)] (user_tri Tno));
  (9%nat, demo_symbol (Some "300") S_UNKNOWN SYMBOL_CONST [] (user_tri Tno));
  (10%nat, demo_symbol (Some "1") S_UNKNOWN SYMBOL_CONST [] (user_tri Tno));
  (11%nat, demo_symbol (Some "255") S_UNKNOWN SYMBOL_CONST [] (user_tri Tno)) ].

Definition demo_state : kstate := {|
  syms := demo_syms;
  symbol_hash := ∅;
  modules_sym := Some symbol_no; modules_val := Tno; menus := ∅; sym_change_count := 0;
  next_sym := 12%nat; next_loc := 0%nat; check_top := []; sym_env_list := []; log := [];
  conf_warnings := 0; conf_unsaved := 0 |}.

(** The state after a call that gave a result. *)
Definition after {A} (m : KM A) (st : kstate) : kstate := match m st with Ok _ st' => st' | _ => st end.
Definition value_of (s : symref) (st : kstate) : option symbol_value := curr <$> syms st !! s.

Definition not_listed (s : symref) (y : symbol) : bool :=
  match choice_list y with Some l => bool_decide (s ∉ l) | None => true end.
Lemma in_no_choice_decide s st :
  map_Forall (fun _ y => not_listed s y = true) (syms st) -> in_no_choice s st.
Proof.
  intros H c y l E Hl. specialize (H c y E). unfold not_listed in H. rewrite Hl in H.
  by apply bool_decide_eq_true in H.
Qed.

(** [BAR] is set to m, but there are no modules. *)
Example demo_values :
  (tri <$> value_of 3%nat (after (sym_calc_value 3%nat) demo_state),
   tri <$> value_of 4%nat (after (sym_calc_value 4%nat) demo_state),
   value_of 5%nat (after (sym_calc_value 5%nat) demo_state),
   tri <$> value_of 7%nat (after (sym_calc_value 5%nat;; sym_calc_value 7%nat) demo_state),
   val <$> value_of 8%nat (after (sym_calc_value 8%nat) demo_state))
  = (Some Tyes, Some Tyes, Some {| val := VSym 7%nat; tri := Tyes |}, Some Tyes,
     Some (VStr (LHeap 0%nat) "255")).
Proof. vm_compute. reflexivity. Qed.


(** [FOO] after its calculation. *)
Definition demo_foo : symbol :=
  Eval vm_compute in default (new_symbol None 0) (syms (after (sym_calc_value 3%nat) demo_state) !! 3%nat).

Lemma sym_calc_value_keeps_valid_witness :
  exists y', syms (after (sym_calc_value 8%nat) (after (sym_calc_value 3%nat) demo_state)) !! 3%nat = Some y' /\
    tri (curr y') = Tyes.
Proof.
  destruct (sym_calc_value_keeps_valid 3%nat 8%nat (after (sym_calc_value 3%nat) demo_state)
    (after (sym_calc_value 8%nat) (after (sym_calc_value 3%nat) demo_state)) demo_foo) as (y' & E' & H & _).
  - vm_compute. reflexivity.
  - reflexivity.
  - apply in_no_choice_decide. apply (bool_decide_unpack _). vm_compute. exact I.
  - vm_compute. reflexivity.
  - exists y'. split; [exact E'|]. exact (f_equal (fun y => tri (curr y)) H).
Defined.

Lemma sym_lookup_stable_witness :
  let st := after (sym_lookup (Some "NEW") 0) demo_state in sym_lookup (Some "NEW") 0 st = Ok 12%nat st.
Proof.
  apply (sym_lookup_stable "NEW" 0 demo_state 12%nat (after (sym_lookup (Some "NEW") 0) demo_state)).
  vm_compute. reflexivity.
Defined.

Definition host_symbol : symbol := demo_symbol (Some "HOST") S_STRING 0 [] (user_tri Tno).

Definition entry (parent : menuref) (list next : option menuref) (s : option symref) : menu := {|
  m_next := next; m_parent := Some parent; m_list := list; m_sym := s; m_prompt := None;
  m_visibility := None; m_dep := None; m_flags := 0; m_help := None |}.

(** The root with the entries 1 (with the child 2) and 3. *)
Definition demo_menus : gmap menuref menu := list_to_map [
  (0%nat, {| m_next := None; m_parent := None; m_list := Some 1%nat; m_sym := None; m_prompt := None;
             m_visibility := None; m_dep := None; m_flags := MENU_ROOT; m_help := None |});
  (1%nat, entry 0%nat (Some 2%nat) (Some 3%nat) (Some 12%nat));
  (2%nat, entry 1%nat None None None);
  (3%nat, entry 0%nat None None None)].

Definition host_state : kstate := {|
  syms := <[12%nat := host_symbol]> demo_syms;
  symbol_hash := <[bucket_of "HOST" := [12%nat]]> ∅;
  modules_sym := Some symbol_no; modules_val := Tno; menus := demo_menus; sym_change_count := 0;
  next_sym := 13%nat; next_loc := 0%nat; check_top := []; sym_env_list := []; log := [];
  conf_warnings := 0; conf_unsaved := 0 |}.

(** A value with a quote and a backslash. *)
Definition tricky : string := "C:" +:+ str1 backslash +:+ "say " +:+ str1 quote +:+ "hi" +:+ str1 quote.

Example tricky_line :
  kconfig_print_symbol "" host_symbol (sym_escape_string_value tricky) false
  = "HOST=" +:+ str1 quote +:+ "C:" +:+ str1 backslash +:+ str1 backslash +:+ "say " +:+ str1 backslash
    +:+ str1 quote +:+ "hi" +:+ str1 backslash +:+ str1 quote +:+ str1 quote +:+ NL.
Proof. reflexivity. Qed.

Lemma kconfig_line_roundtrip_witness :
  parse_line "BR2_" (kconfig_print_symbol "BR2_" host_symbol "7" false) = Assign "HOST" "7".
Proof. apply (kconfig_line_roundtrip "BR2_" eq_refl host_symbol "HOST" "7"); reflexivity. Defined.

Lemma saved_string_read_back_witness :
  exists st' y' l,
    read_line "" S_DEF_USER (kconfig_print_symbol "" host_symbol (sym_escape_string_value tricky) false) host_state
      = Ok tt st' /\
    syms st' !! 12%nat = Some y' /\ sym_has_value y' = true /\ val (def_user y') = VStr l tricky.
Proof.
  apply (saved_string_read_back "" 12%nat host_symbol "HOST" tricky host_state); vm_compute; reflexivity.
Defined.

Lemma walk_menus_preorder_witness :
  walk_menus (fun m => mret (match m with 1%nat => "a" | 2%nat => "b" | _ => "c" end)) host_state
  = Ok "abc" host_state.
Proof.
  apply (walk_menus_preorder host_state _ (fun m => match m with 1%nat => "a" | 2%nat => "b" | _ => "c" end)
    (Entry 1%nat (Entry 2%nat Leaf Leaf) (Entry 3%nat Leaf Leaf))
    {| m_next := None; m_parent := None; m_list := Some 1%nat; m_sym := None; m_prompt := None;
       m_visibility := None; m_dep := None; m_flags := MENU_ROOT; m_help := None |}); try reflexivity.
  - cbn [linked first]. repeat split; eexists; repeat split; vm_compute; reflexivity.
  - apply (bool_decide_unpack _). vm_compute. exact I.
Defined.
