(* ===== verification/KSymKeep.v ===== *)
(** What the calculation and the setting of values leave alone: the declarations of
    the symbols, and more generally every view of the state that does not depend on
    values, marks and counters; the user's value of a symbol that is no choice; and
    that setting a value stores it ([set_tristate_stores], [set_string_stores]). *)
From S2P Require Import Prelude CText KExpr KSym KSymFacts KSymFrame KConf.
Local Open Scope list_scope.

(** ** Views of the state *)

(** The flags that say what a symbol is. *)
Definition STATIC : Z :=
  Z.lor SYMBOL_CONST (Z.lor SYMBOL_CHOICE (Z.lor SYMBOL_CHOICEVAL (Z.lor SYMBOL_OPTIONAL SYMBOL_AUTO))).
Definition no_value : symbol_value := {| val := VNull; tri := Tno |}.
(** The declaration of a symbol: its name, type, properties and dependencies. *)
Definition shape (y : symbol) : symbol :=
  {| name := name y; type := type y; curr := no_value; def_user := no_value; def_auto := no_value;
     visible := Tno; flags := Z.land (flags y) STATIC; prop := map (set_prop_tri Tno) (prop y);
     dir_dep := dir_dep y; dir_dep_tri := Tno; rev_dep := rev_dep y; rev_dep_tri := Tno |}.

(** A view that a new value of a symbol, a mark on an entry and the counters do not
    change. *)
Class Stable {X} (view : kstate -> X) := {
  stable_sym s f y k : syms k !! s = Some y -> shape (f y) = shape y -> view (upd_syms (insert s (f y)) k) = view k;
  stable_marks l k : view (upd_menus (fun ms => foldl (fun ms m => alter mark_menu m ms) ms l) k) = view k;
  stable_own t m k : view (upd_menus (alter (set_own_tri t) m) k) = view k;
  stable_modules t k : view (upd_modules_val t k) = view k;
  stable_count f k : view (upd_count f k) = view k;
  stable_loc k : view (upd_loc k) = view k;
  stable_log e k : view (upd_log e k) = view k;
}.

(** A result of the routine has the view the routine started with. *)
Definition preserves {X} (view : kstate -> X) {A} (m : KM A) : Prop :=
  forall k a k', m k = Ok a k' -> view k' = view k.

Section Monad.
Context {X} (view : kstate -> X).

Lemma pres_bind {A B} (m : KM A) (f : A -> KM B) :
  preserves view m -> (forall a, preserves view (f a)) -> preserves view (m ≫= f).
Proof.
  intros Hm Hf k b k'. unfold mbind, PM_bind. destruct (m k) as [a k1| |] eqn:E; [|done..].
  intros H. transitivity (view k1); [by eapply Hf|by eapply Hm].
Qed.
Lemma pres_ret {A} (a : A) : preserves view (mret a).
Proof. by intros k b k' [= _ <-]. Qed.
Lemma pres_get : preserves view pget.
Proof. by intros k b k' [= _ <-]. Qed.
Lemma pres_lift {A} (o : option A) : preserves view (plift o).
Proof. intros k b k'. unfold plift. destruct o; [|done]. by intros [= _ <-]. Qed.
Lemma pres_fault {A} : preserves view (pfault : KM A).
Proof. done. Qed.
Lemma pres_nofuel {A} : preserves view (pnofuel : KM A).
Proof. done. Qed.
Lemma pres_modify f : (forall k, view (f k) = view k) -> preserves view (pmodify f).
Proof. intros Hf k b k' [= _ <-]. apply Hf. Qed.
Lemma pres_when b (m : KM unit) : preserves view m -> preserves view (pwhen b m).
Proof. destruct b; [done|]. intros _. apply pres_ret. Qed.
Lemma pres_foreach {A} (f : A -> KM unit) l : (forall a, preserves view (f a)) -> preserves view (pforeach f l).
Proof. intros Hf. induction l; [apply pres_ret|]. cbn. apply pres_bind; [done|]. by intros []. Qed.
End Monad.

Create HintDb keep discriminated.
#[export] Hint Extern 0 (Stable _) => apply _ : keep.
#[export] Hint Resolve pres_ret pres_get pres_lift pres_fault pres_nofuel : keep.
#[export] Hint Extern 1 (preserves _ (pmodify _)) =>
  apply pres_modify; intros; first [apply stable_modules|apply stable_count|apply stable_loc|apply stable_log|reflexivity] : keep.
(** Takes a routine apart, up to what has a lemma. *)
Ltac keep_step :=
  match goal with
  | |- preserves _ (_ ≫= _) => apply pres_bind; [|intros ?]
  | |- preserves _ (pwhen _ _) => apply pres_when
  | |- preserves _ (pforeach _ _) => apply pres_foreach; intros ?
  | |- preserves _ (let '(_, _) := ?x in _) => destruct x
  | |- preserves _ (match ?x with _ => _ end) => destruct x
  | |- preserves _ _ => solve [eauto with keep nocore]
  end.
Ltac keep := repeat (keep_step; cbn beta zeta).

Section Stable.
Context {X} (view : kstate -> X) `{!Stable view}.
Abbreviation P := (preserves view).

Lemma pres_get_sym s : P (get_sym s).
Proof. unfold get_sym. keep. Qed.
Lemma pres_get_menu m : P (get_menu m).
Proof. unfold get_menu. keep. Qed.
Lemma pres_mod_sym s f : (forall y, shape (f y) = shape y) -> P (mod_sym s f).
Proof.
  intros Hf k b k'. unfold mod_sym, get_sym, mbind, PM_bind, pget, plift, pmodify.
  destruct (syms k !! s) as [y|] eqn:E; [|done]. intros [= _ <-]. by apply stable_sym.
Qed.

Lemma static_set f x : Z.land f STATIC = 0 -> Z.land (set_bits f x) STATIC = Z.land x STATIC.
Proof. intros H. unfold set_bits. by rewrite Z.land_lor_distr_l, H, Z.lor_0_r. Qed.
Lemma static_keep g x : Z.land g STATIC = STATIC -> Z.land (Z.land x g) STATIC = Z.land x STATIC.
Proof. intros H. by rewrite <- Z.land_assoc, H. Qed.
Lemma shape_flags f y : Z.land (f (flags y)) STATIC = Z.land (flags y) STATIC -> shape (set_flags f y) = shape y.
Proof. unfold shape. cbn. by intros ->. Qed.
Lemma pres_or_flags s f : Z.land f STATIC = 0 -> P (or_flags s f).
Proof. intros H. apply pres_mod_sym. intros y. by apply shape_flags, static_set. Qed.
Lemma pres_and_not_flags s f : Z.land (Z.lnot f) STATIC = STATIC -> P (and_not_flags s f).
Proof. intros H. apply pres_mod_sym. intros y. by apply shape_flags, static_keep. Qed.
Lemma pres_mask s f : P (mod_sym s (set_flags (fun x => Z.land x (Z.lor f (Z.lnot SYMBOL_DEF_USER))))).
Proof.
  apply pres_mod_sym. intros y. apply shape_flags, static_keep. rewrite Z.land_lor_distr_l.
  apply Z.bits_inj'. intros n Hn. rewrite Z.lor_spec, !Z.land_spec.
  assert (H : Z.land (Z.lnot SYMBOL_DEF_USER) STATIC = STATIC) by reflexivity.
  apply (f_equal (fun z => Z.testbit z n)) in H. rewrite Z.land_spec in H.
  by destruct (Z.testbit STATIC n), (Z.testbit f n), (Z.testbit (Z.lnot SYMBOL_DEF_USER) n).
Qed.
Lemma pres_visible_tri s i t : P (set_visible_tri s i t).
Proof.
  apply pres_mod_sym. intros y. unfold shape. cbn [set_prop prop name type flags dir_dep rev_dep]. f_equal.
  generalize i (prop y). clear. intros i ps. revert i. induction ps as [|p ps IH]; intros [|i]; [done..|].
  cbn. f_equal. apply IH.
Qed.
End Stable.
#[export] Hint Resolve pres_get_sym pres_get_menu pres_mask pres_visible_tri : keep.
#[export] Hint Extern 2 (preserves _ (or_flags _ _)) => apply pres_or_flags; [assumption|reflexivity] : keep.
#[export] Hint Extern 2 (preserves _ (and_not_flags _ _)) => apply pres_and_not_flags; [assumption|reflexivity] : keep.
#[export] Hint Extern 3 (preserves _ (mod_sym _ _)) => apply pres_mod_sym; [assumption|intros; reflexivity] : keep.

Section Routines.
Context {X} (view : kstate -> X) {Hstable : Stable view}.
Abbreviation P := (preserves view).

Lemma pres_set_changed s : P (sym_set_changed s).
Proof. unfold sym_set_changed. keep. apply pres_modify. intros k. apply stable_marks. Qed.
#[local] Hint Resolve pres_set_changed : keep.
Lemma pres_for_all f : (forall s, P (f s)) -> P (for_all_symbols f).
Proof. intros Hf. unfold for_all_symbols. keep. Qed.
#[local] Hint Resolve pres_for_all : keep.
Lemma pres_all_changed : P sym_set_all_changed.
Proof. unfold sym_set_all_changed. keep. Qed.
Lemma pres_get_type s : P (get_type s).
Proof. unfold get_type. keep. Qed.
Lemma pres_sval v : P (sval_string v).
Proof. unfold sval_string. keep. Qed.
Lemma pres_strdup s : P (strdup s).
Proof. unfold strdup. keep. Qed.
Lemma pres_modules_tri : P modules_tri.
Proof. unfold modules_tri. keep. Qed.
#[local] Hint Resolve pres_all_changed pres_get_type pres_sval pres_strdup pres_modules_tri : keep.
Lemma pres_store_tri s f g t : (forall y, shape (g t y) = shape y) -> P (store_tri s f g t).
Proof. intros Hg. unfold store_tri. keep. by apply pres_mod_sym. Qed.
#[local] Hint Extern 2 (preserves _ (store_tri _ _ _ _)) => apply pres_store_tri; intros; reflexivity : keep.
Lemma pres_choice_values s : P (set_all_choice_values s).
Proof. unfold set_all_choice_values. keep. Qed.
#[local] Hint Resolve pres_choice_values : keep.

Section Calc.
Context (calc : symref -> KM unit) (Hcalc : forall s, P (calc s)).
#[local] Hint Resolve Hcalc : keep.

Lemma pres_modules : P (calc_modules calc).
Proof. unfold calc_modules. keep. Qed.
#[local] Hint Resolve pres_modules : keep.
Lemma pres_string_value_with s : P (sym_get_string_value_with calc s).
Proof. unfold sym_get_string_value_with. keep. Qed.
#[local] Hint Resolve pres_string_value_with : keep.
Lemma pres_calc_expr e : P (calc_expr calc e).
Proof. induction e; cbn [calc_expr]; keep. Qed.
#[local] Hint Resolve pres_calc_expr : keep.
Lemma pres_calc_expr_opt e : P (calc_expr_opt calc e).
Proof. destruct e; keep. Qed.
#[local] Hint Resolve pres_calc_expr_opt : keep.
Lemma pres_calc_prop_expr e : P (calc_prop_expr calc e).
Proof. unfold calc_prop_expr. keep. Qed.
#[local] Hint Resolve pres_calc_prop_expr : keep.
Lemma pres_visible_prop ty s i ps : P (visible_prop calc ty s i ps).
Proof. revert i. induction ps; intros i; cbn [visible_prop]; keep. Qed.
#[local] Hint Resolve pres_visible_prop : keep.
Lemma pres_default_prop s : P (sym_get_default_prop calc s).
Proof. unfold sym_get_default_prop. keep. Qed.
Lemma pres_range_prop s : P (sym_get_range_prop calc s).
Proof. unfold sym_get_range_prop. keep. Qed.
Lemma pres_range_val s b : P (sym_get_range_val calc s b).
Proof. unfold sym_get_range_val. keep. Qed.
#[local] Hint Resolve pres_default_prop pres_range_prop pres_range_val : keep.
Lemma pres_validate_range s : P (sym_validate_range calc s).
Proof. unfold sym_validate_range. keep. Qed.
Lemma pres_visible_prompts s i ps acc : P (visible_prompts calc s i ps acc).
Proof. revert i acc. induction ps; intros i acc; cbn [visible_prompts]; keep. Qed.
#[local] Hint Resolve pres_validate_range pres_visible_prompts : keep.
Lemma pres_visibility s : P (sym_calc_visibility calc s).
Proof. unfold sym_calc_visibility. keep. Qed.
Lemma pres_choice_default_prop s i ps : P (choice_default_prop calc s i ps).
Proof. revert i. induction ps; intros i; cbn [choice_default_prop]; keep. Qed.
Lemma pres_first_visible l : P (first_visible l).
Proof. induction l; cbn [first_visible]; keep. Qed.
#[local] Hint Resolve pres_visibility pres_choice_default_prop pres_first_visible : keep.
Lemma pres_choice_flags l f : P (choice_flags calc l f).
Proof. revert f. induction l; intros f; cbn [choice_flags]; keep. Qed.
#[local] Hint Resolve pres_choice_flags : keep.
Lemma pres_calc_choice s : P (sym_calc_choice calc s).
Proof. unfold sym_calc_choice, sym_choice_default_with. keep. Qed.
Lemma pres_tristate s : P (calc_tristate calc s).
Proof. unfold calc_tristate, calc_tristate_base, calc_newval. keep. Qed.
Lemma pres_text s v : P (calc_text calc s v).
Proof. unfold calc_text. keep. Qed.
#[local] Hint Resolve pres_calc_choice pres_tristate pres_text : keep.
Lemma pres_store s old v0 : P (calc_store calc s old v0).
Proof. unfold calc_store, calc_members. keep. Qed.
#[local] Hint Resolve pres_store : keep.
Lemma pres_body s : P (calc_body calc s).
Proof. unfold calc_body, calc_owner. keep. Qed.
End Calc.

Lemma pres_calc_value s : P (sym_calc_value s).
Proof.
  intros k. unfold sym_calc_value. generalize (S (potential k)) as n. intros n. revert s k.
  induction n as [|n IH]; intros s; [apply pres_nofuel|]. by apply pres_body.
Qed.
End Routines.
#[export] Hint Resolve pres_set_changed pres_for_all pres_all_changed pres_get_type pres_sval pres_strdup pres_modules_tri
  pres_choice_values pres_calc_value pres_modules pres_string_value_with pres_calc_expr_opt pres_calc_prop_expr pres_range_prop
  pres_default_prop pres_range_val pres_visibility : keep.

(** ** Setting values *)

Section Setting.
Context {X} (view : kstate -> X) {Hstable : Stable view}.
Abbreviation P := (preserves view).

Lemma pres_string_value s : P (sym_get_string_value s).
Proof. unfold sym_get_string_value. keep. Qed.
Lemma pres_expr_value e : P (expr_calc_value e).
Proof. unfold expr_calc_value. keep. Qed.
Lemma pres_within s v : P (sym_tristate_within_range s v).
Proof. unfold sym_tristate_within_range. keep. Qed.
Lemma pres_clear_all : P sym_clear_all_valid.
Proof. unfold sym_clear_all_valid, sym_add_change_count. keep. Qed.
Lemma pres_mark_user s : P (mark_user s).
Proof. unfold mark_user. keep. Qed.
Lemma pres_take_choice s : P (take_choice s).
Proof. unfold take_choice. keep. Qed.
#[local] Hint Resolve pres_string_value pres_expr_value pres_within pres_clear_all pres_mark_user pres_take_choice : keep.
Lemma pres_set_tristate s v : P (sym_set_tristate_value s v).
Proof. unfold sym_set_tristate_value. keep. Qed.
#[local] Hint Resolve pres_set_tristate : keep.
Lemma pres_set_choice c v : P (sym_set_choice_value c v).
Proof. apply pres_set_tristate. Qed.
Lemma pres_range_admits s b v : P (range_admits s b v).
Proof. unfold range_admits. keep. Qed.
#[local] Hint Resolve pres_range_admits : keep.
Lemma pres_string_range s v : P (sym_string_within_range s v).
Proof. unfold sym_string_within_range. keep. Qed.
#[local] Hint Resolve pres_string_range : keep.
Lemma pres_user_text s v : P (set_user_text s v).
Proof. unfold set_user_text. keep. Qed.
#[local] Hint Resolve pres_user_text : keep.
Lemma pres_set_string s v : P (sym_set_string_value s v).
Proof. unfold sym_set_string_value. keep. Qed.

Lemma pres_prompt_prop p : P (prompt_prop p).
Proof. unfold prompt_prop. keep. Qed.
#[local] Hint Resolve pres_prompt_prop : keep.
Lemma pres_prompt_visible m y p : P (prompt_visible m y p).
Proof.
  unfold prompt_visible, set_prompt_tri. keep. apply pres_modify. intros k. apply stable_own.
Qed.
#[local] Hint Resolve pres_prompt_visible : keep.
Lemma pres_menu_visible n m : P (menu_is_visible n m).
Proof.
  revert m. induction n as [|n IH]; intros m; cbn [menu_is_visible]; [keep|].
  apply pres_bind; [keep|intros e]. destruct (m_prompt e) as [p|]; [|keep].
  apply pres_bind; [keep|intros v]. destruct (is_tri v Tno); [keep|].
  apply pres_bind; [keep|intros t]. destruct (negb _); [keep|].
  destruct (m_sym e) as [s|]; [|keep]. apply pres_bind; [keep|intros y]. destruct (is_tri _ _); [keep|].
  generalize n at 2 as k. intros k. generalize (m_list e) as c. revert k.
  induction k as [|k IHk]; intros [c|]; cbn; keep.
Qed.
Lemma pres_visible_menu m : P (visible_menu m).
Proof. unfold visible_menu. apply pres_bind; [keep|]. intros. apply pres_menu_visible. Qed.
Lemma pres_menu_prompt m : P (menu_get_prompt m).
Proof. unfold menu_get_prompt. keep. Qed.
End Setting.
#[export] Hint Resolve pres_string_value pres_expr_value pres_within pres_clear_all pres_set_tristate pres_set_choice
  pres_set_string pres_string_range pres_prompt_prop pres_visible_menu pres_menu_prompt : keep.

(** ** The declarations *)

Definition declarations (k : kstate) : gmap symref symbol := shape <$> syms k.
#[export] Instance declarations_stable : Stable declarations.
Proof.
  split; try done. intros s f y k E H. unfold declarations. cbn. rewrite fmap_insert, H.
  apply insert_id. by rewrite lookup_fmap, E.
Qed.

(** The symbol as it was declared, whatever was calculated since. *)
Lemma declared_shape s y y' k k' : declarations k' = declarations k ->
  syms k !! s = Some y -> syms k' !! s = Some y' -> shape y' = shape y.
Proof.
  intros H E E'. apply (f_equal (fun m => m !! s)) in H. unfold declarations in H.
  rewrite !lookup_fmap, E, E' in H. change (Some (shape y') = Some (shape y)) in H. congruence.
Qed.
Lemma shape_type y y' : shape y' = shape y -> type y' = type y.
Proof. intros H. by apply (f_equal type) in H. Qed.
Lemma shape_name y y' : shape y' = shape y -> name y' = name y.
Proof. intros H. by apply (f_equal name) in H. Qed.
Lemma declared_some s y k k' : declarations k' = declarations k -> syms k !! s = Some y -> is_Some (syms k' !! s).
Proof.
  intros H E. apply (f_equal (fun m => m !! s)) in H. unfold declarations in H.
  rewrite !lookup_fmap, E in H. destruct (syms k' !! s); [eauto|done].
Qed.

(** ** What the user set *)

(** A symbol that is no choice and that counts as set by the user, to [u] if that is
    given. *)
Definition owned (u : option symbol_value) (y : symbol) : Prop :=
  sym_is_choice y = false /\ sym_has_value y = true /\ from_option (fun u => def_user y = u) True u.
Definition owns (s : symref) (u : option symbol_value) (k : kstate) : Prop :=
  exists y, syms k !! s = Some y /\ owned u y.

Create HintDb own discriminated.
Section Owned.
Variables (s : symref) (u : option symbol_value) (calc : symref -> KM unit).
Abbreviation K := (keeps (owns s u) any).

Lemma own_get_sym d : keeps (owns s u) (fun y => d = s -> owned u y) (get_sym d).
Proof.
  intros k (y & E & Hy). unfold get_sym, mbind, PM_bind, pget, plift.
  destruct (syms k !! d) as [z|] eqn:Ed; [|done]. split; [by exists y|]. intros ->. congruence.
Qed.
Lemma own_mod_sym d f : (d = s -> forall y, owned u y -> owned u (f y)) -> K (mod_sym d f).
Proof.
  intros Hd k (y & E & Hy). unfold mod_sym, get_sym, mbind, PM_bind, pget, plift, pmodify.
  destruct (syms k !! d) as [z|] eqn:Ed; [|done]. split; [|done]. unfold owns. cbn.
  destruct (decide (d = s)) as [->|Hne].
  - exists (f z). rewrite lookup_insert_eq. split; [done|]. apply Hd; [done|congruence].
  - exists y. by rewrite lookup_insert_ne.
Qed.
Lemma own_modify f : (forall k, syms (f k) = syms k) -> K (pmodify f).
Proof. intros Hf. apply keeps_modify. intros k (y & E & Hy). exists y. by rewrite Hf. Qed.
Lemma own_get : keeps (owns s u) any pget.
Proof. by intros k H. Qed.
Lemma own_or_flags d f : Z.land SYMBOL_CHOICE f = 0 -> K (or_flags d f).
Proof.
  intros Hf. apply own_mod_sym. intros _ y (H1 & H2 & H3). split_and!; [|by apply has_set|done].
  unfold sym_is_choice in *. cbn. by rewrite has_set_other.
Qed.
Lemma own_and_not_flags d f : Z.land SYMBOL_DEF_USER f = 0 -> K (and_not_flags d f).
Proof.
  intros Hf. apply own_mod_sym. intros _ y (H1 & H2 & H3). split_and!; [| |done].
  - unfold sym_is_choice in *. cbn. destruct (has _ (clear_bits _ _)) eqn:E; [|done]. apply has_clear in E. congruence.
  - unfold sym_has_value. cbn. by rewrite has_clear_other.
Qed.
Lemma own_visible_tri d i t : K (set_visible_tri d i t).
Proof. by apply own_mod_sym. Qed.
Lemma own_any {A} (Q : A -> Prop) m : keeps (owns s u) Q m -> K m.
Proof. intros H. by eapply keeps_weaken. Qed.
#[local] Hint Resolve own_get own_visible_tri : own.
#[local] Hint Extern 2 (keeps _ _ (or_flags _ _)) => apply own_or_flags; reflexivity : own.
#[local] Hint Extern 2 (keeps _ _ (and_not_flags _ _)) => apply own_and_not_flags; reflexivity : own.
#[local] Hint Extern 2 (keeps _ _ (pmodify _)) => apply own_modify; intros; reflexivity : own.
#[local] Hint Extern 4 (keeps _ _ (mod_sym _ _)) => apply own_mod_sym; intros _ ? ?; assumption : own.
#[local] Hint Extern 1 (any _) => exact I : own.
Local Ltac own :=
  repeat (intros; cbv beta zeta;
    lazymatch goal with
    | |- keeps _ _ (get_sym _ ≫= _) => eapply keeps_bind; [apply own_get_sym|]
    | |- keeps _ _ (_ ≫= _) => apply (keeps_bind _ any)
    | |- keeps _ _ (mret _) => apply keeps_ret
    | |- keeps _ _ pfault => apply keeps_fault
    | |- keeps _ _ (pwhen _ _) => apply keeps_when
    | |- keeps _ _ (pforeach _ _) => apply keeps_foreach
    | |- keeps _ _ (match ?x with _ => _ end) => destruct x eqn:?
    | |- keeps _ any (get_sym _) => eapply own_any, own_get_sym
    | |- keeps _ any (plift _) => eapply own_any, keeps_lift
    | |- _ => solve [eauto with own]
    end).

Lemma own_set_changed d : K (sym_set_changed d).
Proof. unfold sym_set_changed. own. Qed.
#[local] Hint Resolve own_set_changed : own.
Lemma own_for_all f : (forall d, K (f d)) -> K (for_all_symbols f).
Proof. intros Hf. unfold for_all_symbols. own. Qed.

Section Calculating.
Hypothesis Hcalc : forall d, K (calc d).
#[local] Hint Resolve Hcalc : own.

Lemma own_string_value d : K (sym_get_string_value_with calc d).
Proof. unfold sym_get_string_value_with, calc_modules, modules_tri, sval_string. own. Qed.
#[local] Hint Resolve own_string_value : own.
Lemma own_calc_expr e : K (calc_expr calc e).
Proof. induction e; cbn [calc_expr]; own. Qed.
#[local] Hint Resolve own_calc_expr : own.
Lemma own_calc_expr_opt e : K (calc_expr_opt calc e).
Proof. unfold calc_expr_opt. own. Qed.
#[local] Hint Resolve own_calc_expr_opt : own.
Lemma own_visible_prop ty d i ps : K (visible_prop calc ty d i ps).
Proof. revert i. induction ps; intros i; cbn [visible_prop]; own. Qed.
#[local] Hint Resolve own_visible_prop : own.
Lemma own_validate_range d : K (sym_validate_range calc d).
Proof. unfold sym_validate_range, sym_get_range_prop, sym_get_range_val, sval_string, strdup. own. Qed.
Lemma own_visible_prompts d i ps acc : K (visible_prompts calc d i ps acc).
Proof. revert i acc. induction ps; intros i acc; cbn [visible_prompts]; own. Qed.
#[local] Hint Resolve own_validate_range own_visible_prompts : own.
Lemma own_visibility d : K (sym_calc_visibility calc d).
Proof. unfold sym_calc_visibility, store_tri, get_type. own. Qed.
Lemma own_default_choice d i ps : K (choice_default_prop calc d i ps).
Proof. revert i. induction ps; intros i; cbn [choice_default_prop]; own. Qed.
Lemma own_first_visible l : K (first_visible l).
Proof. induction l; cbn [first_visible]; own. Qed.
#[local] Hint Resolve own_visibility own_default_choice own_first_visible : own.
Lemma own_choice_flags l f : K (choice_flags calc l f).
Proof. revert f. induction l; intros f; cbn [choice_flags]; own. Qed.
#[local] Hint Resolve own_choice_flags : own.
Lemma own_calc_choice d : d <> s -> K (sym_calc_choice calc d).
Proof. intros Hd. unfold sym_calc_choice, sym_choice_default_with. own. by apply own_mod_sym. Qed.
Lemma own_tristate d : K (calc_tristate calc d).
Proof.
  unfold calc_tristate, calc_tristate_base, calc_newval, sym_get_default_prop, calc_prop_expr, get_type. own.
Qed.
Lemma own_text d v : K (calc_text calc d v).
Proof. unfold calc_text, sym_get_default_prop. own. Qed.
Lemma own_members d : K (calc_members d).
Proof. unfold calc_members. own. Qed.
Lemma own_set_all d : K (set_all_choice_values d).
Proof.
  unfold set_all_choice_values. own. intros Hno. apply own_mod_sym. intros -> y Hy. cbv beta in *.
  match goal with H : s = s -> owned u ?v |- _ => destruct (H eq_refl) as (_ & E & _) end.
  by rewrite E in Hno.
Qed.
#[local] Hint Resolve own_tristate own_text own_members own_set_all : own.
Lemma own_store d old v0 : K (calc_store calc d old v0).
Proof.
  unfold calc_store, get_type, sym_set_all_changed.
  assert (Hall : K (for_all_symbols sym_set_changed)) by (apply own_for_all, own_set_changed).
  own. apply own_calc_choice. intros ->. cbv beta in *.
  match goal with H : s = s -> owned u ?y, E : sym_is_choice ?y && _ = true |- _ => destruct (H eq_refl) as (E' & _); by rewrite E' in E end.
Qed.
#[local] Hint Resolve own_store : own.
Lemma own_body d : K (calc_body calc d).
Proof. unfold calc_body, calc_owner. own. Qed.
End Calculating.
End Owned.

Lemma own_calc_value s u d : keeps (owns s u) any (sym_calc_value d).
Proof.
  intros k. unfold sym_calc_value. generalize (S (potential k)) as n. intros n. revert d k.
  induction n as [|n IH]; intros d; [by intros k _|]. by apply own_body.
Qed.
Lemma own_clear_all s u : keeps (owns s u) any sym_clear_all_valid.
Proof.
  unfold sym_clear_all_valid, sym_add_change_count. apply (keeps_bind _ any); [|intros _ _].
  { apply own_for_all. intros d. by apply own_and_not_flags. }
  apply (keeps_bind _ any); [by apply own_modify|intros _ _].
  apply (keeps_bind _ any); [apply own_get|intros k _]. destruct (modules_sym k); [apply own_calc_value|by apply keeps_ret].
Qed.

(** *** The setters store *)

Lemma mark_user_owns s y : sym_is_choice y = false ->
  leads (fun k => syms k !! s = Some y) (fun _ k => owns s (Some (def_user y)) k) (mark_user s).
Proof.
  intros Hc k E. unfold mark_user, mbind, PM_bind. rewrite (run_get_sym s y k E).
  destruct (sym_has_value y) eqn:Ev; cbn [negb pwhen]; [by exists y|].
  unfold mbind, PM_bind. unfold or_flags. rewrite (run_mod_sym s _ y k E).
  set (y1 := set_flags _ y). set (k1 := upd_syms _ k).
  assert (H1 : owns s (Some (def_user y)) k1).
  { exists y1. unfold k1. cbn. rewrite lookup_insert_eq. split; [done|]. split_and!; [|by apply has_set_same|done].
    unfold sym_is_choice in *. cbn. by rewrite has_set_other. }
  pose proof (own_set_changed s (Some (def_user y)) s k1 H1) as H. destruct (sym_set_changed s k1); [apply H|done..].
Qed.
Lemma owns_weak s u k : owns s u k -> owns s None k.
Proof. intros (y & E & H1 & H2 & _). by exists y. Qed.
Lemma own_take_choice s d : keeps (owns s None) any (take_choice d).
Proof.
  unfold take_choice. eapply keeps_bind; [apply own_get_sym|intros y _].
  apply (keeps_bind _ any); [eapply own_any, keeps_lift|intros c _].
  apply (keeps_bind _ any); [by apply own_mod_sym|intros _ _].
  apply (keeps_bind _ any); [by apply own_or_flags|intros _ _].
  apply (keeps_bind _ any); [eapply own_any, own_get_sym|intros cs _].
  apply (keeps_bind _ any); [eapply own_any, keeps_lift|intros l _].
  apply keeps_foreach. intros m _. apply (keeps_bind _ any); [eapply own_any, own_get_sym|intros z _].
  apply keeps_when. intros _. by apply own_or_flags.
Qed.

(** The user's value of [s] satisfies [Q]. *)
Definition user_set (s : symref) (Q : symbol_value -> Prop) (k : kstate) : Prop :=
  exists w, Q w /\ owns s (Some w) k.
Lemma keeps_user_set {A} s Q (m : KM A) : (forall u, keeps (owns s u) any m) -> keeps (user_set s Q) any m.
Proof.
  intros H k (w & Hw & Ho). specialize (H (Some w) k Ho). destruct (m k); [|done..].
  destruct H as [H _]. split; [by exists w|done].
Qed.
Lemma mod_user s f (Q : symbol_value -> Prop) : (forall v, Q (f v)) ->
  leads (owns s None) (fun _ => user_set s Q) (mod_sym s (fun y => set_def_user (f (def_user y)) y)).
Proof.
  intros HQ k (y & E & H1 & H2 & _). rewrite (run_mod_sym s _ y k E). exists (f (def_user y)). split; [done|].
  eexists. unfold upd_syms. cbn. rewrite lookup_insert_eq. by split.
Qed.

Lemma set_tristate_stores s v y k k' : syms k !! s = Some y -> sym_is_choice y = false ->
  sym_set_tristate_value s v k = Ok true k' -> user_set s (fun w => tri w = v) k'.
Proof.
  intros E Hc Hrun. cut (leads (fun k => syms k !! s = Some y) (fun b k => b = true -> user_set s (fun w => tri w = v) k)
    (sym_set_tristate_value s v)).
  { intros H. specialize (H k E). rewrite Hrun in H. by apply H. }
  clear k k' E Hrun. unfold sym_set_tristate_value, sym_tristate_within_range.
  apply (leads_bind _ (fun y' k => y' = y /\ syms k !! s = Some y)); [intros k E; by rewrite (run_get_sym s y k E)|intros z].
  apply (leads_bind _ (fun _ k => z = y /\ syms k !! s = Some y)).
  { intros k [-> E]. unfold mbind, PM_bind. by rewrite (run_get_sym s y k E). }
  intros ok. destruct (_ && _); [by intros k _|]. apply (leads_bind _ (fun _ => owns s None)).
  { intros k [-> E]. pose proof (mark_user_owns s y Hc k E) as H. destruct (mark_user s k); [by eapply owns_weak|done..]. }
  intros _. apply (leads_bind _ (fun _ => owns s None)).
  { intros k E. pose proof (own_get_sym s None s k E) as H. destruct (get_sym s k); [apply H|done..]. }
  intros y'. apply (leads_bind _ (fun _ => owns s None)).
  { intros k E. pose proof (keeps_when (owns s None) (sym_is_choice_value y' && is_tri v Tyes) _ (fun _ => own_take_choice s s) k E) as H.
    destruct (pwhen _ _ k); [apply H|done..]. }
  intros _. apply (leads_bind _ (fun _ => user_set s (fun w => tri w = v))).
  { by apply (mod_user s (fun w => {| val := val w; tri := v |})). }
  intros _. apply (leads_bind _ (fun _ => user_set s (fun w => tri w = v))).
  { intros k Hk. pose proof (keeps_when (user_set s (fun w => tri w = v)) (negb (is_tri (sym_get_tristate_value z) v)) sym_clear_all_valid
      (fun _ => keeps_user_set s _ _ (own_clear_all s)) k Hk) as H. destruct (pwhen _ _ k); [apply H|done..]. }
  by intros _ k Hk _.
Qed.

(** The text that is stored for [t]: a hexadecimal number is given its prefix. *)
Definition stored_text (ty : symbol_type) (t : string) : string :=
  if is_type ty S_HEX && negb (starts_with "0x" t || starts_with "0X" t) then "0x" +:+ t else t.
Lemma has_0x_prefix t : has_0x t = starts_with "0x" t || starts_with "0X" t.
Proof.
  destruct t as [|c [|d t]]; [done| |]; unfold starts_with; cbn [strip_prefix has_0x].
  - by destruct (char_eqb "0" c).
  - unfold is_letter, char_eqb. rewrite !(Ascii.eqb_sym c), !(Ascii.eqb_sym d).
    by destruct (Ascii.eqb "0" c), (Ascii.eqb "x" d), (Ascii.eqb "X" d).
Qed.

(** Storing a text keeps it. *)
Lemma user_text_owned s t :
  leads (owns s None) (fun _ => user_set s (fun w => exists l, val w = VStr l t)) (set_user_text s t).
Proof.
  unfold set_user_text. apply (leads_bind _ (fun v k => (exists l, v = VStr l t) /\ owns s None k) _ (strdup t)).
  { intros k (y & E & Hy). unfold strdup, mbind, PM_bind, pget, pmodify, mret, PM_ret. split; [by eexists|by exists y]. }
  intros v k [[l ->] Ho]. apply (mod_user s (fun w => {| val := VStr l t; tri := tri w |})); [by exists l|done].
Qed.
Lemma store_and_clear s t : leads (owns s None)
  (fun b k => b = true -> user_set s (fun w => exists l, val w = VStr l t) k)
  (set_user_text s t;; sym_clear_all_valid;; mret true).
Proof.
  eapply leads_bind; [apply user_text_owned|intros []; cbn beta].
  eapply leads_bind; [apply keeps_leads, keeps_user_set, own_clear_all|]. by intros _ k [Hk _] _.
Qed.
Lemma take_text_stores s ty t y : sym_is_choice y = false ->
  leads (fun k => syms k !! s = Some y)
    (fun b k => b = true -> user_set s (fun w => exists l, val w = VStr l (stored_text ty t)) k)
    (mark_user s;;
     y ← get_sym s;
     if is_type ty S_HEX && negb (has_0x t) then
       set_user_text s ("0x" +:+ t);; sym_clear_all_valid;; mret true
     else
       match val (def_user y) with
       | VStr _ old =>
           if String.eqb old t then mret true else set_user_text s t;; sym_clear_all_valid;; mret true
       | VNull => set_user_text s t;; sym_clear_all_valid;; mret true
       | VSym _ => pfault
       end).
Proof.
  intros Hc. eapply leads_bind; [by apply mark_user_owns|intros []; cbn beta].
  apply (leads_bind _ (fun y' => owns s (Some (def_user y')))).
  { intros k (y' & E & Hy). rewrite (run_get_sym s y' k E). exists y'. split; [done|]. by destruct Hy as (? & ? & _). }
  intros y'. unfold stored_text. rewrite has_0x_prefix.
  assert (Hw : forall x, leads (owns s (Some (def_user y')))
    (fun b k => b = true -> user_set s (fun w => exists l, val w = VStr l x) k) (set_user_text s x;; sym_clear_all_valid;; mret true)).
  { intros x k Hk. by apply (store_and_clear s x k), (owns_weak _ _ _ Hk). }
  destruct (_ && _); [apply Hw|]. destruct (val (def_user y')) as [|l old|] eqn:Ev; [apply Hw| |done].
  destruct (String.eqb_spec old t) as [->|_]; [|apply Hw].
  intros k Hk _. exists (def_user y'). split; [by exists l|done].
Qed.
Lemma shape_choice y y' : shape y' = shape y -> sym_is_choice y' = sym_is_choice y.
Proof.
  intros H. apply (f_equal flags) in H. cbn in H.
  assert (Hs : forall f, has SYMBOL_CHOICE f = has SYMBOL_CHOICE (Z.land f STATIC)).
  { intros f. unfold has. by rewrite <- Z.land_assoc. }
  unfold sym_is_choice. by rewrite Hs, H, <- Hs.
Qed.
Lemma set_string_stores s t y k k' : syms k !! s = Some y -> sym_is_choice y = false ->
  type y = S_INT \/ type y = S_HEX \/ type y = S_STRING ->
  sym_set_string_value s t k = Ok true k' ->
  user_set s (fun w => exists l, val w = VStr l (stored_text (type y) t)) k'.
Proof.
  intros E Hc Ht. unfold sym_set_string_value, mbind at 1, PM_bind at 1. rewrite (run_get_sym s y k E).
  assert (Hgo : (ok ← sym_string_within_range s t; if negb ok then mret false else
      (mark_user s;;
       y0 ← get_sym s;
       if is_type (type y) S_HEX && negb (has_0x t) then
         set_user_text s ("0x" +:+ t);; sym_clear_all_valid;; mret true
       else
         match val (def_user y0) with
         | VStr _ old =>
             if String.eqb old t then mret true else set_user_text s t;; sym_clear_all_valid;; mret true
         | VNull => set_user_text s t;; sym_clear_all_valid;; mret true
         | VSym _ => pfault
         end)) k = Ok true k' ->
    user_set s (fun w => exists l, val w = VStr l (stored_text (type y) t)) k').
  { unfold mbind at 1, PM_bind at 1. destruct (sym_string_within_range s t k) as [ok k1| |] eqn:Er; [|done..].
    pose proof (pres_string_range declarations s t _ _ _ Er) as Hd. destruct (declared_some s y k k1 Hd E) as [y1 E1].
    pose proof (declared_shape s y y1 k k1 Hd E E1) as Hs. destruct ok; [|done]. cbn [negb]. intros Hrun.
    pose proof (take_text_stores s (type y) t y1 ltac:(by rewrite (shape_choice _ _ Hs)) k1 E1) as H.
    rewrite Hrun in H. by apply H. }
  by destruct Ht as [Ht|[Ht|Ht]]; rewrite Ht in *.
Qed.
