(* ===== verification/KHelp.v ===== *)
(** The texts the configuration tool shows about an entry, and the list of files it
    has read: the growing strings and the dependency file of
    src/buildroot/support/kconfig/util.c, [expr_gstr_print] of expr.c and the help
    of menu.c. *)
From S2P Require Import Prelude CText KExpr KSym KConf.

(** ** Growing strings (util.c) *)

(** [struct gstr]: [gs_len] bytes are allocated for the text. *)
Record gstr := { gs_len : Z; max_width : Z; gs_s : string }.
Definition str_new : gstr := {| gs_len := 64; max_width := 0; gs_s := "" |}.
Definition str_assign (s : string) : gstr :=
  {| gs_len := Z.of_nat (String.length s) + 1; max_width := 0; gs_s := s |}.

(** The text grows to a buffer of exactly the size it needs, or stays where it is. *)
Definition str_append (gs : gstr) (s : string) : gstr :=
  let l := Z.of_nat (String.length (gs_s gs)) + Z.of_nat (String.length s) + 1 in
  {| gs_len := if gs_len gs <? l then l else gs_len gs; max_width := max_width gs; gs_s := gs_s gs +:+ s |}.
(** [vsnprintf] leaves at most 9999 characters of the formatted text. *)
Definition str_printf (gs : gstr) (text : string) : gstr := str_append gs (String.substring 0 (Z.to_nat 9999) text).
Definition str_get (gs : gstr) : string := gs_s gs.

(** ** Expressions as text (expr.c) *)

(** One string of an expression: in a text of limited width a new line is begun
    where it would not fit; a symbol is followed by its value. *)
Definition last_line (s : string) : Z :=
  match strrchr nl s with
  | Some (a, b) => Z.of_nat (String.length b) + 1
  | None => Z.of_nat (String.length s)
  end.
Definition expr_print_gstr_helper (gs : gstr) (t : token) : KM gstr :=
  let '(s, str) := t in
  v ← (match s with Some s => v ← sym_get_string_value s; mret (Some v) | None => mret None end);
  let extra := Z.of_nat (String.length str)
               + match v with Some v => 4 + Z.of_nat (String.length v) | None => 0 end in
  let gs := if negb (max_width gs =? 0) && (u32 (max_width gs) <? u32 (last_line (gs_s gs) + extra))
            then str_append gs (str1 backslash +:+ NL) else gs in
  let gs := str_append gs str in
  match s, v with
  | Some s, Some v =>
      y ← get_sym s;
      mret (if is_type (type y) S_UNKNOWN then gs else str_printf gs (" [=" +:+ v +:+ "]"))
  | _, _ => mret gs
  end.
Fixpoint print_tokens (gs : gstr) (l : list token) : KM gstr :=
  match l with [] => mret gs | t :: l => gs ← expr_print_gstr_helper gs t; print_tokens gs l end.
Definition expr_gstr_print (e : option prop_expr) (gs : gstr) : KM gstr :=
  st ← pget;
  l ← plift (let _ := symtab_of st in expr_print e E_NONE);
  print_tokens gs l.

(** ** Help (menu.c) *)

Definition menu_has_prompt (e : menu) : bool := bool_decide (m_prompt e <> None).
Definition menu_has_help (e : menu) : bool := bool_decide (m_help e <> None).
Definition menu_get_help (e : menu) : string := default "" (m_help e).
Definition menu_get_root_menu (_ : menuref) : menuref := rootmenu.

(** Follows the [next] pointers from [c] until an entry is visible. *)
Fixpoint none_visible (n : nat) (c : option menuref) : KM bool :=
  match c with
  | None => mret true
  | Some c =>
      match n with
      | O => pnofuel
      | S n =>
          v ← visible_menu c;
          if v : bool then mret false else e ← get_menu c; none_visible n (m_next e)
      end
  end.
Definition menu_is_empty (m : menuref) : KM bool :=
  st ← pget; e ← get_menu m; none_visible (S (size (menus st))) (m_list e).

(** Up to the next entry whose prompt is that of a menu. *)
Fixpoint parent_menu (n : nat) (m : menuref) : KM menuref :=
  if bool_decide (m = rootmenu) then mret m
  else
    match n with
    | O => pnofuel
    | S n =>
        e ← get_menu m;
        ty ← (match m_prompt e with Some p => p ← prompt_prop p; mret (p_type p) | None => mret P_UNKNOWN end);
        if bool_decide (ty = P_MENU) then mret m
        else p ← plift (m_parent e); parent_menu n p
    end.
Definition menu_get_parent_menu (m : menuref) : KM menuref :=
  st ← pget; parent_menu (S (size (menus st))) m.

(** A place the reader of a help text can jump to. *)
Record jump_key := { jk_target : menuref; jk_index : Z; jk_offset : option Z }.
Definition at_offset (o : Z) (j : jump_key) : jump_key :=
  {| jk_target := jk_target j; jk_index := jk_index j; jk_offset := Some o |}.

(** The list of jumps, [None] where the caller wants none; the new one is at its end. *)
Abbreviation jumps := (option (list jump_key)).
Definition add_jump (head : jumps) (target : menuref) : jumps :=
  l ← head;
  Some (l ++ [{| jk_target := target;
                 jk_index := match last l with Some j => jk_index j + 1 | None => 0 end;
                 jk_offset := None |}])%list.
Definition set_jump (head : jumps) (o : Z) : jumps :=
  l ← head; Some (alter (at_offset o) (length l - 1)%nat l).

(** Up to eight entries above [m], the innermost first, and the innermost visible
    one. *)
Fixpoint locations (k : nat) (m : menuref) (found : option menuref) : KM (list menuref * option menuref) :=
  match k with
  | O => mret ([], found)
  | S k =>
      if bool_decide (m = rootmenu) then mret ([], found)
      else
        v ← visible_menu m;
        e ← get_menu m;
        p ← plift (m_parent e);
        '(l, found) ← locations k p (match found with None => if v : bool then Some m else None | _ => found end);
        mret (m :: l, found)
  end.

Definition spaces (n : Z) : string := String.concat "" (repeat " " (Z.to_nat n)).

(** The lines of the locations, from the outermost in; [j] spaces before the arrow. *)
Fixpoint print_locations (r : gstr) (head : jumps) (location : option menuref) (j : Z) (l : list menuref)
  : KM (gstr * jumps) :=
  match l with
  | [] => mret (r, head)
  | m :: l =>
      let head := if bool_decide (location = Some m)
                  then set_jump head (Z.of_nat (String.length (gs_s r))) else head in
      t ← menu_get_prompt m; t ← plift t;
      let r := str_printf r (spaces j +:+ "-> " +:+ t) in
      e ← get_menu m;
      r ← (match m_sym e with
           | Some s =>
               y ← get_sym s;
               v ← sym_get_string_value s;
               mret (str_printf r (" (" +:+ default "<choice>" (name y) +:+ " [=" +:+ v +:+ "])"))
           | None => mret r
           end);
      print_locations (str_append r NL) head location (j + 2) l
  end.

Definition get_prompt_str (r : gstr) (p : property) (head : jumps) : KM (gstr * jumps) :=
  t ← plift (p_text p);
  let r := str_printf r ("Prompt: " +:+ t +:+ NL) in
  pm ← plift (p_menu p);
  e ← get_menu pm;
  above ← plift (m_parent e);
  '(sub, location) ← locations 8 above None;
  head ← (match head, location with
          | Some _, Some loc => v ← visible_menu pm; mret (add_jump head (if v : bool then pm else loc))
          | _, _ => mret head
          end);
  match sub with
  | [] => mret (r, head)
  | _ => print_locations (str_printf r ("  Location:" +:+ NL)) head location 4 (reverse sub)
  end.

Definition get_symbol_prop (y : symbol) : option property := List.find (prop_is P_SYMBOL) (prop y).

Section Help.
(** The prefix of the variables, and where the scanner found an entry. *)
Variable CONFIG_ : string.
Variable place : menuref -> string * Z.

Fixpoint print_prompts (r : gstr) (ps : list property) (head : jumps) : KM (gstr * jumps) :=
  match ps with
  | [] => mret (r, head)
  | p :: ps =>
      match p_text p with
      | Some _ => '(r, head) ← get_prompt_str r p head; print_prompts r ps head
      | None => print_prompts r ps head
      end
  end.

Fixpoint print_selects (r : gstr) (hit : bool) (ps : list property) : KM (gstr * bool) :=
  match ps with
  | [] => mret (r, hit)
  | p :: ps =>
      if prop_is P_SELECT p then
        r ← expr_gstr_print (p_expr p) (if hit then str_printf r " && " else str_append r "  Selects: ");
        print_selects r true ps
      else print_selects r hit ps
  end.

(** The first lines about a symbol with a name. *)
Definition print_symbol_head (r : gstr) (s : symref) : KM gstr :=
  y ← get_sym s;
  match name y with
  | None => mret r
  | Some n =>
      v ← sym_get_string_value s;
      let r := str_printf r ("Symbol: " +:+ n +:+ " [=" +:+ v +:+ "]" +:+ NL) in
      let r := str_printf r ("Type  : " +:+ sym_type_name (type y) +:+ NL) in
      match type y with
      | S_INT | S_HEX =>
          p ← sym_get_range_prop sym_calc_value s;
          match p with
          | Some p => r ← expr_gstr_print (p_expr p) (str_printf r "Range : "); mret (str_append r NL)
          | None => mret r
          end
      | _ => mret r
      end
  end.

Definition print_definition (r : gstr) (p : property) : KM gstr :=
  pm ← plift (p_menu p);
  let '(file, line) := place pm in
  let r := str_printf r ("  Defined at " +:+ file +:+ ":" +:+ fmt_d line +:+ NL) in
  if expr_is_yes (p_visible p) then mret r
  else
    r ← expr_gstr_print (PExpr <$> p_visible p) (str_append r "  Depends on: ");
    mret (str_append r NL).

Definition get_symbol_str (r : gstr) (s : symref) (head : jumps) : KM (gstr * jumps) :=
  r ← print_symbol_head r s;
  y ← get_sym s;
  '(r, head) ← print_prompts r (prop y) head;
  y ← get_sym s;
  r ← (match get_symbol_prop y with Some p => print_definition r p | None => mret r end);
  '(r, hit) ← print_selects r false (prop y);
  let r := if hit : bool then str_append r NL else r in
  y ← get_sym s;
  r ← (match rev_dep y with
       | Some e =>
           r ← expr_gstr_print (Some (PExpr e)) (str_append r "  Selected by: "); mret (str_append r NL)
       | None => mret r
       end);
  mret (str_append r (NL +:+ NL), head).

Fixpoint print_relations (r : gstr) (l : list symref) (head : jumps) : KM (gstr * jumps) :=
  match l with
  | [] => mret (r, head)
  | s :: l => '(r, head) ← get_symbol_str r s head; print_relations r l head
  end.
Definition get_relations_str (sym_arr : list symref) (head : jumps) : KM (gstr * jumps) :=
  '(r, head) ← print_relations str_new sym_arr head;
  mret (match sym_arr with [] => str_append r ("No matches found." +:+ NL) | _ => r end, head).

Definition nohelp_text : string := "There is no help available for this option.".
Definition menu_get_ext_help (m : menuref) (help : gstr) : KM gstr :=
  e ← get_menu m;
  help ← (if menu_has_help e then
            s ← plift (m_sym e);
            y ← get_sym s;
            mret (match name y with
                  | Some n => str_printf help (CONFIG_ +:+ n +:+ ":" +:+ NL +:+ NL)
                  | None => help
                  end)
          else mret help);
  let text := if menu_has_help e then menu_get_help e else nohelp_text in
  let help := str_printf help (text +:+ NL) in
  match m_sym e with
  | Some s => '(help, _) ← get_symbol_str help s None; mret help
  | None => mret help
  end.
End Help.

(** ** The files read (util.c) *)

(** [file_list]: the names, the latest first; a [struct file] is its place counted
    from the end, which further files do not change. *)
Abbreviation file_list := (list string).
Definition file_name (fl : file_list) (f : nat) : option string := reverse fl !! f.
Fixpoint find_file (nm : string) (fl : file_list) : option nat :=
  match fl with
  | [] => None
  | x :: fl => if String.eqb nm x then Some (length fl) else find_file nm fl
  end.
Definition file_lookup (fl : file_list) (nm : string) : KM (nat * file_list) :=
  x ← sym_expand_string_value nm;
  mret (match find_file nm fl with
        | Some f => (f, fl)
        | None => (length fl, x :: fl)
        end).

Section Depend.
Variable getenv : string -> option string.
Variable can_open : string -> bool.

Definition PATH_MAX : Z := 4096.
(** A text in a buffer of [PATH_MAX+1] bytes. *)
Definition path_buf (s : string) : KM string :=
  if Z.of_nat (String.length s) <=? PATH_MAX then mret s else pfault.

Fixpoint list_files (fl : file_list) : string :=
  match fl with
  | [] => ""
  | [x] => str1 (chr 9) +:+ x +:+ NL
  | x :: fl => str1 (chr 9) +:+ x +:+ " " +:+ str1 backslash +:+ NL +:+ list_files fl
  end.
Fixpoint env_rules (auto : string) (l : list symref) : KM string :=
  match l with
  | [] => mret ""
  | s :: l =>
      y ← get_sym s;
      p ← plift (sym_get_env_prop y);
      e ← plift (prop_get_symbol p);
      match e with
      | None => env_rules auto l
      | Some e =>
          z ← get_sym e; n ← plift (name z);
          rest ← env_rules auto l;
          mret ("ifneq " +:+ str1 quote +:+ "$(" +:+ n +:+ ")" +:+ str1 quote +:+ " "
                +:+ str1 quote +:+ default "" (getenv n) +:+ str1 quote +:+ NL
                +:+ auto +:+ ": FORCE" +:+ NL +:+ "endif" +:+ NL +:+ rest)
      end
  end.

(** [false]: the file cannot be opened. *)
Definition file_write_dep (fl : file_list) (nm : option string) : KM (bool * list fsop) :=
  let nm := default ".kconfig.d" nm in
  cn ← path_buf (conf_get_configname getenv);
  let dir := match strrchr "/" cn with Some (d, _) => d | None => "" end in
  buf ← path_buf (dir +:+ "..config.tmp");
  if negb (can_open buf) then mret (false, [])
  else
    auto ← plift (conf_get_autoconfig_name getenv);
    st ← pget;
    rules ← env_rules auto (sym_env_list st);
    buf2 ← path_buf (dir +:+ nm);
    mret (true,
      [Write buf ("deps_config := " +:+ str1 backslash +:+ NL +:+ list_files fl
                  +:+ NL +:+ auto +:+ ": " +:+ str1 backslash +:+ NL +:+ str1 (chr 9) +:+ "$(deps_config)" +:+ NL +:+ NL
                  +:+ rules +:+ NL +:+ "$(deps_config): ;" +:+ NL);
       Rename buf buf2]).
End Depend.
