(* ===== verification/KMenu.v ===== *)
(** The menu tree of the configuration tool: how it is built while a Kconfig file is
    read (menu.c and the actions of zconf.y) and finalised (menu.c).

    The entries are the heap [menus] of KSym; [last_entry_ptr] is the address of a
    [list] or [next] member.  Expressions are values: every rewriting of menu.c works
    on a tree of its own, since it copies what it shares. *)
From S2P Require Import Prelude CText KExpr KSym KConf.

(** ** State *)

(** The address of a pointer member: [&m->list] or [&m->next]. *)
Inductive member := MList (m : menuref) | MNext (m : menuref).

(** The globals of menu.c and zconf.y; [fresh_menu] is the next address [xmalloc]
    gives. *)
Record pstate := {
  heap : kstate;
  current_entry : menuref;
  current_menu : option menuref;
  last_entry_ptr : member;
  fresh_menu : menuref;
  sym_defconfig_list : option symref;
  zconfnerrs : Z;
}.
Definition set_heap (k : kstate) (st : pstate) : pstate :=
  {| heap := k; current_entry := current_entry st; current_menu := current_menu st;
     last_entry_ptr := last_entry_ptr st; fresh_menu := fresh_menu st;
     sym_defconfig_list := sym_defconfig_list st; zconfnerrs := zconfnerrs st |}.
Definition set_entry (m : menuref) (st : pstate) : pstate :=
  {| heap := heap st; current_entry := m; current_menu := current_menu st;
     last_entry_ptr := last_entry_ptr st; fresh_menu := fresh_menu st;
     sym_defconfig_list := sym_defconfig_list st; zconfnerrs := zconfnerrs st |}.
Definition set_menu (m : option menuref) (p : member) (st : pstate) : pstate :=
  {| heap := heap st; current_entry := current_entry st; current_menu := m;
     last_entry_ptr := p; fresh_menu := fresh_menu st;
     sym_defconfig_list := sym_defconfig_list st; zconfnerrs := zconfnerrs st |}.
Definition set_fresh (m : menuref) (st : pstate) : pstate :=
  {| heap := heap st; current_entry := current_entry st; current_menu := current_menu st;
     last_entry_ptr := last_entry_ptr st; fresh_menu := m;
     sym_defconfig_list := sym_defconfig_list st; zconfnerrs := zconfnerrs st |}.
Definition set_defconfig (s : option symref) (st : pstate) : pstate :=
  {| heap := heap st; current_entry := current_entry st; current_menu := current_menu st;
     last_entry_ptr := last_entry_ptr st; fresh_menu := fresh_menu st;
     sym_defconfig_list := s; zconfnerrs := zconfnerrs st |}.
Definition add_error (st : pstate) : pstate :=
  {| heap := heap st; current_entry := current_entry st; current_menu := current_menu st;
     last_entry_ptr := last_entry_ptr st; fresh_menu := fresh_menu st;
     sym_defconfig_list := sym_defconfig_list st; zconfnerrs := i32 (zconfnerrs st + 1) |}.

Abbreviation ZM := (PM pstate).
(** A routine of the symbols as a routine of the parser. *)
Definition on_heap {A} (m : KM A) : ZM A := fun st =>
  match m (heap st) with Ok a k => Ok a (set_heap k st) | Fault => Fault | NoFuel => NoFuel end.

(** ** Members of entries, symbols and properties *)

Definition set_next (x : option menuref) (m : menu) : menu :=
  {| m_next := x; m_parent := m_parent m; m_list := m_list m; m_sym := m_sym m; m_prompt := m_prompt m;
     m_visibility := m_visibility m; m_dep := m_dep m; m_flags := m_flags m; m_help := m_help m |}.
Definition set_list (x : option menuref) (m : menu) : menu :=
  {| m_next := m_next m; m_parent := m_parent m; m_list := x; m_sym := m_sym m; m_prompt := m_prompt m;
     m_visibility := m_visibility m; m_dep := m_dep m; m_flags := m_flags m; m_help := m_help m |}.
Definition set_parent (x : option menuref) (m : menu) : menu :=
  {| m_next := m_next m; m_parent := x; m_list := m_list m; m_sym := m_sym m; m_prompt := m_prompt m;
     m_visibility := m_visibility m; m_dep := m_dep m; m_flags := m_flags m; m_help := m_help m |}.
Definition set_m_prompt (x : option prompt_ref) (m : menu) : menu :=
  {| m_next := m_next m; m_parent := m_parent m; m_list := m_list m; m_sym := m_sym m; m_prompt := x;
     m_visibility := m_visibility m; m_dep := m_dep m; m_flags := m_flags m; m_help := m_help m |}.
Definition set_visibility (x : option expr) (m : menu) : menu :=
  {| m_next := m_next m; m_parent := m_parent m; m_list := m_list m; m_sym := m_sym m; m_prompt := m_prompt m;
     m_visibility := x; m_dep := m_dep m; m_flags := m_flags m; m_help := m_help m |}.
Definition set_dep (x : option expr) (m : menu) : menu :=
  {| m_next := m_next m; m_parent := m_parent m; m_list := m_list m; m_sym := m_sym m; m_prompt := m_prompt m;
     m_visibility := m_visibility m; m_dep := x; m_flags := m_flags m; m_help := m_help m |}.
Definition set_help (x : option string) (m : menu) : menu :=
  {| m_next := m_next m; m_parent := m_parent m; m_list := m_list m; m_sym := m_sym m; m_prompt := m_prompt m;
     m_visibility := m_visibility m; m_dep := m_dep m; m_flags := m_flags m; m_help := x |}.

Definition set_p_visible (e : option expr) (p : property) : property :=
  {| p_type := p_type p; p_text := p_text p; p_visible := e; p_visible_tri := p_visible_tri p;
     p_expr := p_expr p; p_menu := p_menu p |}.
Definition set_p_text (t : option string) (p : property) : property :=
  {| p_type := p_type p; p_text := t; p_visible := p_visible p; p_visible_tri := p_visible_tri p;
     p_expr := p_expr p; p_menu := p_menu p |}.
Definition set_p_type (t : prop_type) (p : property) : property :=
  {| p_type := t; p_text := p_text p; p_visible := p_visible p; p_visible_tri := p_visible_tri p;
     p_expr := p_expr p; p_menu := p_menu p |}.

Definition set_dir_dep (e : option expr) (y : symbol) : symbol :=
  {| name := name y; type := type y; curr := curr y; def_user := def_user y; def_auto := def_auto y;
     visible := visible y; flags := flags y; prop := prop y; dir_dep := e;
     dir_dep_tri := dir_dep_tri y; rev_dep := rev_dep y; rev_dep_tri := rev_dep_tri y |}.
Definition set_rev_dep (e : option expr) (y : symbol) : symbol :=
  {| name := name y; type := type y; curr := curr y; def_user := def_user y; def_auto := def_auto y;
     visible := visible y; flags := flags y; prop := prop y; dir_dep := dir_dep y;
     dir_dep_tri := dir_dep_tri y; rev_dep := e; rev_dep_tri := rev_dep_tri y |}.

Definition the_menu (m : menuref) : ZM menu := on_heap (get_menu m).
Definition mod_menu (m : menuref) (f : menu -> menu) : ZM unit :=
  e ← the_menu m; on_heap (pmodify (upd_menus (insert m (f e)))).
Definition the_sym (s : symref) : ZM symbol := on_heap (get_sym s).
Definition change_sym (s : symref) (f : symbol -> symbol) : ZM unit := on_heap (mod_sym s f).
Definition warn (text : string) : ZM unit := on_heap (pmodify (upd_log (Warning text))).
Definition get_entry : ZM menuref := st ← pget; mret (current_entry st).
Definition enter (m : menuref) : ZM unit := pmodify (set_entry m).
Definition upd_modules_sym (s : option symref) (st : kstate) : kstate :=
  {| syms := syms st; symbol_hash := symbol_hash st; modules_sym := s;
     modules_val := modules_val st; menus := menus st;
     sym_change_count := sym_change_count st; next_sym := next_sym st; next_loc := next_loc st;
     check_top := check_top st; sym_env_list := sym_env_list st; log := log st;
     conf_warnings := conf_warnings st; conf_unsaved := conf_unsaved st |}.

(** ** Adding entries *)

Definition new_menu (sym : option symref) (parent : option menuref) : menu := {|
  m_next := None; m_parent := parent; m_list := None; m_sym := sym; m_prompt := None;
  m_visibility := None; m_dep := None; m_flags := 0; m_help := None |}.

(** [_menu_init]; [rootmenu] is static. *)
Definition _menu_init : ZM unit :=
  pmodify (fun st => set_menu (Some rootmenu) (MList rootmenu) (set_entry rootmenu st)).

(** [*last_entry_ptr = menu] *)
Definition store_last (m : option menuref) : ZM unit :=
  st ← pget;
  match last_entry_ptr st with
  | MList p => mod_menu p (set_list m)
  | MNext p => mod_menu p (set_next m)
  end.

Definition menu_check_dep_expr (modules : symref) : expr -> expr :=
  fix go e :=
    match e with
    | Not e => Not (go e)
    | Or l r => Or (go l) (go r)
    | And l r => And (go l) (go r)
    | Sym s => if Nat.eqb s symbol_mod then And (Sym s) (Sym modules) else Sym s
    | Equal _ _ | Unequal _ _ => e
    end.
(** Whether the expression has an ['m'] that is changed. *)
Fixpoint mentions_mod (e : expr) : bool :=
  match e with
  | Not e => mentions_mod e
  | Or l r | And l r => mentions_mod l || mentions_mod r
  | Sym s => Nat.eqb s symbol_mod
  | _ => false
  end.
(** [modules_sym] is only read for an ['m']; a null one would be followed later. *)
Definition menu_check_dep (e : option expr) : ZM (option expr) :=
  match e with
  | None => mret None
  | Some e =>
      if mentions_mod e then
        st ← pget; s ← plift (modules_sym (heap st)); mret (Some (menu_check_dep_expr s e))
      else mret (Some e)
  end.

(** The dependency of the upper menus' visibilities, from the nearest on. *)
Fixpoint add_visibilities (n : nat) (m : menuref) (dep : option expr) : ZM (option expr) :=
  match n with
  | O => pnofuel
  | S n =>
      e ← the_menu m;
      match m_parent e with
      | None => mret dep
      | Some p =>
          q ← the_menu p;
          add_visibilities n p
            (match m_visibility q with None => dep | Some v => expr_alloc_and dep (Some (expr_copy v)) end)
      end
  end.

(** Behind the leading white space of a prompt, which is warned of. *)
Fixpoint skip_space (s : string) : string :=
  match s with String c t => if isspace c then skip_space t else s | EmptyString => s end.
Definition trim_prompt (prompt : string) : ZM string :=
  if head_is isspace prompt then warn "leading whitespace ignored";; mret (skip_space prompt) else mret prompt.

(** [menu_add_prop]: the property goes to the list of the entry's symbol; without a
    symbol it only lives on as the entry's prompt. *)
Definition menu_add_prop (type : prop_type) (prompt : option string) (e : option prop_expr) (dep : option expr)
    : ZM unit :=
  m ← get_entry;
  me ← the_menu m;
  q ← on_heap (prop_alloc type (m_sym me));
  vis ← menu_check_dep dep;
  match prompt with
  | None =>
      match q with
      | Some (s, i) => on_heap (mod_prop s i (fun p => {|
          p_type := p_type p; p_text := None; p_visible := vis; p_visible_tri := p_visible_tri p;
          p_expr := e; p_menu := Some m |}))
      | None => mret tt
      end
  | Some text =>
      text ← trim_prompt text;
      pwhen (bool_decide (m_prompt me <> None) && negb (Nat.eqb m rootmenu)) (warn "prompt redefined");;
      st ← pget;
      vis ← (if bool_decide (type = P_PROMPT) then add_visibilities (S (size (menus (heap st)))) m vis else mret vis);
      let p := {| p_type := type; p_text := Some text; p_visible := vis; p_visible_tri := Tno;
                  p_expr := e; p_menu := Some m |} in
      match q with
      | Some (s, i) => on_heap (mod_prop s i (fun _ => p));; mod_menu m (set_m_prompt (Some (POf s i)))
      | None => mod_menu m (set_m_prompt (Some (POwn p)))
      end
  end.

Definition menu_add_prompt (type : prop_type) (prompt : string) (dep : option expr) : ZM unit :=
  menu_add_prop type (Some prompt) None dep.
Definition menu_add_expr (type : prop_type) (e : option prop_expr) (dep : option expr) : ZM unit :=
  menu_add_prop type None e dep.
Definition menu_add_symbol (type : prop_type) (s : symref) (dep : option expr) : ZM unit :=
  menu_add_prop type None (Some (PExpr (expr_alloc_symbol s))) dep.
Definition menu_add_dep (dep : option expr) : ZM unit :=
  m ← get_entry; d ← menu_check_dep dep; mod_menu m (fun e => set_dep (expr_alloc_and (m_dep e) d) e).
Definition menu_add_visibility (e : option expr) : ZM unit :=
  m ← get_entry; mod_menu m (fun x => set_visibility (expr_alloc_and (m_visibility x) e) x).

Definition menu_add_entry (sym : option symref) : ZM unit :=
  st ← pget;
  let m := fresh_menu st in
  pmodify (set_fresh (S m));;
  on_heap (pmodify (upd_menus (insert m (new_menu sym (current_menu st)))));;
  store_last (Some m);;
  pmodify (fun st => set_entry m (set_menu (current_menu st) (MNext m) st));;
  match sym with Some s => menu_add_symbol P_SYMBOL s None | None => mret tt end.
Definition menu_end_entry : ZM unit := mret tt.
Definition menu_add_menu : ZM unit :=
  menu_end_entry;;
  m ← get_entry; pmodify (set_menu (Some m) (MList m)).
Definition menu_end_menu : ZM unit :=
  st ← pget;
  m ← plift (current_menu st);
  e ← the_menu m;
  pmodify (set_menu (m_parent e) (MNext m)).

Definition menu_set_type (t : symbol_type) : ZM unit :=
  m ← get_entry; me ← the_menu m; s ← plift (m_sym me); y ← the_sym s;
  if is_type (type y) t then mret tt
  else if is_type (type y) S_UNKNOWN then change_sym s (set_name_type t)
  else warn ("ignoring type redefinition of '" +:+ default "<choice>" (name y) +:+ "' from '"
             +:+ sym_type_name (type y) +:+ "' to '" +:+ sym_type_name t +:+ "'").

Inductive opt_token := T_OPT_MODULES | T_OPT_DEFCONFIG_LIST | T_OPT_ENV.
Definition zconf_error (text : string) : ZM unit := warn text;; pmodify add_error.
Definition menu_add_option (getenv : string -> option string) (token : opt_token) (arg : option string) : ZM unit :=
  m ← get_entry; me ← the_menu m;
  st ← pget;
  match token with
  | T_OPT_MODULES =>
      match modules_sym (heap st) with
      | None => mret tt
      | Some old =>
          s ← plift (m_sym me); y ← the_sym s; z ← the_sym old;
          zconf_error ("symbol '" +:+ sym_text y +:+ "' redefines option 'modules' already defined by symbol '"
                       +:+ sym_text z +:+ "'")
      end;;
      on_heap (pmodify (upd_modules_sym (m_sym me)))
  | T_OPT_DEFCONFIG_LIST =>
      match sym_defconfig_list st with
      | None => pmodify (set_defconfig (m_sym me))
      | Some d => pwhen (negb (bool_decide (Some d = m_sym me))) (zconf_error "trying to redefine defconfig symbol")
      end
  | T_OPT_ENV => s ← plift (m_sym me); env ← plift arg; on_heap (prop_add_env getenv s env)
  end.

(** ** Checks of the properties of a symbol *)

Definition is_number (t : symbol_type) : bool := is_type t S_INT || is_type t S_HEX.
Definition menu_validate_number (ty : symbol_type) (sym2 : symbol) : ZM bool :=
  if is_number (type sym2) then mret true
  else if is_type (type sym2) S_UNKNOWN then n ← plift (name sym2); mret (sym_string_valid ty n)
  else mret false.

Definition check_default (y : symbol) (p : property) : ZM unit :=
  e ← plift (p_expr p);
  let single := match e with PExpr (Sym s) => Some s | _ => None end in
  pwhen ((is_type (type y) S_STRING || is_number (type y)) && bool_decide (single = None))
    (warn ("default for config symbol '" +:+ sym_text y +:+ "' must be a single symbol"));;
  match single with
  | None => mret tt
  | Some s =>
      sym2 ← the_sym s;
      if is_number (type y) then
        ok ← menu_validate_number (type y) sym2;
        pwhen (negb ok) (warn ("'" +:+ sym_text y +:+ "': number is invalid"))
      else mret tt
  end.
Definition check_select (y : symbol) (p : property) : ZM unit :=
  s ← plift (prop_get_symbol p);
  if negb (is_type (type y) S_BOOLEAN) && negb (is_type (type y) S_TRISTATE)
  then warn ("config symbol '" +:+ sym_text y +:+ "' uses select, but is not boolean or tristate")
  else
    s ← plift s; z ← the_sym s;
    pwhen (negb (is_type (type z) S_UNKNOWN) && negb (is_type (type z) S_BOOLEAN) && negb (is_type (type z) S_TRISTATE))
      (warn ("'" +:+ sym_text z +:+ "' has wrong type. 'select' only accept arguments of boolean and tristate type")).
Definition check_range (y : symbol) (p : property) : ZM unit :=
  pwhen (negb (is_number (type y))) (warn "range is only allowed for int or hex symbols");;
  ab ← plift (range_syms p);
  a ← the_sym (fst ab); b ← the_sym (snd ab);
  oka ← menu_validate_number (type y) a;
  ok ← (if (oka : bool) then menu_validate_number (type y) b else mret false);
  pwhen (negb ok) (warn "range is invalid").
Definition sym_check_prop (s : symref) : ZM unit :=
  y ← the_sym s;
  pforeach (fun p =>
    match p_type p with
    | P_DEFAULT => check_default y p
    | P_SELECT => check_select y p
    | P_RANGE => check_range y p
    | _ => mret tt
    end) (prop y).

(** ** Finalising *)

(** [for (menu = m; menu; menu = menu->next)]: the body may change [next]. *)
Fixpoint for_menus (n : nat) (body : menuref -> ZM unit) (m : option menuref) : ZM unit :=
  match m, n with
  | None, _ => mret tt
  | Some _, O => pnofuel
  | Some m, S n => body m;; e ← the_menu m; for_menus n body (m_next e)
  end.
(** Enough for a list of entries without a cycle. *)
Definition list_fuel : ZM nat := st ← pget; mret (S (size (menus (heap st)))).

(** The type of the first entry whose symbol has one. *)
Fixpoint first_type (n : nat) (m : option menuref) : ZM (option symbol_type) :=
  match m, n with
  | None, _ => mret None
  | Some _, O => pnofuel
  | Some m, S n =>
      e ← the_menu m;
      match m_sym e with
      | Some s => y ← the_sym s; if is_type (type y) S_UNKNOWN then first_type n (m_next e) else mret (Some (type y))
      | None => first_type n (m_next e)
      end
  end.
Definition choice_types (parent : menuref) (s : symref) : ZM unit :=
  n ← list_fuel;
  pe ← the_menu parent;
  y ← the_sym s;
  (if is_type (type y) S_UNKNOWN then
     enter parent;;
     t ← first_type n (m_list pe);
     match t with Some t => menu_set_type t | None => mret tt end
   else mret tt);;
  for_menus n (fun m =>
    enter m;;
    e ← the_menu m;
    match m_sym e with
    | Some v => z ← the_sym v; y ← the_sym s; if is_type (type z) S_UNKNOWN then menu_set_type (type y) else mret tt
    | None => mret tt
    end) (m_list pe).

Definition with_symtab {A} (f : SymTab -> A) : ZM A := st ← pget; mret (f (symtab_of (heap st))).
(** [expr_transform] and [expr_eliminate_dups] leave a null pointer alone. *)
Definition transform_opt (e : option expr) : ZM (option expr) := with_symtab (fun H => @expr_transform H <$> e).
Definition dups_opt (e : option expr) : ZM (option expr) := with_symtab (fun H => @expr_eliminate_dups H <$> e).

Definition prompt_expr (me : menu) : ZM (option expr) :=
  match m_prompt me with Some p => q ← on_heap (prompt_prop p); mret (p_visible q) | None => mret None end.

(** The condition of one property of the entry [m]; [s] is its symbol. *)
Definition propagate_dep (s : option symref) (basedep : option expr) (vis : option expr) : ZM (option expr) :=
  dep ← transform_opt vis;
  dep ← dups_opt (expr_alloc_and (expr_copy <$> basedep) dep);
  match s with
  | None => mret dep
  | Some s => y ← the_sym s; if is_type (type y) S_TRISTATE then mret dep else with_symtab (fun H => @expr_trans_bool H <$> dep)
  end.
Definition select_dep (s : symref) (p : property) (dep : option expr) : ZM unit :=
  es ← plift (prop_get_symbol p); es ← plift es;
  change_sym es (fun y => set_rev_dep
    (expr_alloc_or (rev_dep y) (expr_alloc_and (Some (expr_alloc_symbol s)) (expr_copy <$> dep))) y).
(** The properties of a symbol from the place [i] on; the list does not grow. *)
Fixpoint propagate_props (n : nat) (m : menuref) (s : option symref) (basedep : option expr) (owner : symref) (i : nat)
    : ZM unit :=
  match n with
  | O => mret tt
  | S n =>
      y ← the_sym owner;
      match prop y !! i with
      | None => mret tt
      | Some p =>
          (if bool_decide (p_menu p = Some m) then
             dep ← propagate_dep s basedep (p_visible p);
             on_heap (mod_prop owner i (set_p_visible dep));;
             (if bool_decide (p_type p = P_SELECT) then v ← plift s; select_dep v p dep else mret tt)
           else mret tt);;
          propagate_props n m s basedep owner (S i)
      end
  end.
Definition props_of (owner : symref) : ZM nat := y ← the_sym owner; mret (length (prop y)).

(** The dependencies of the parent go to the entry and its properties. *)
Definition propagate (parentdep : option expr) (m : menuref) : ZM unit :=
  me ← the_menu m;
  basedep ← transform_opt (m_dep me);
  basedep ← dups_opt (expr_alloc_and (expr_copy <$> parentdep) basedep);
  mod_menu m (set_dep basedep);;
  match m_sym me, m_prompt me with
  | Some s, _ => n ← props_of s; propagate_props n m (Some s) basedep s 0
  | None, Some (POf s i) => n ← props_of s; propagate_props n m None basedep s i
  | None, Some (POwn p) =>
      if bool_decide (p_menu p = Some m) then
        dep ← propagate_dep None basedep (p_visible p);
        mod_menu m (set_m_prompt (Some (POwn (set_p_visible dep p))))
      else mret tt
  | None, None => mret tt
  end.

Section Finalize.
(** [menu_finalize] on other entries. *)
Variable finalize : menuref -> ZM unit.

(** The conditions that make an entry part of the implicit menu of [s]. *)
Definition belongs (basedep : option expr) (s : symref) (dep : option expr) : ZM bool :=
  match dep with
  | None => mret false
  | Some d =>
      if negb (expr_contains_symbol d s) then mret false
      else if expr_depends_symbol d s then mret true
      else
        dep ← transform_opt (expr_trans_compare (Some d) false symbol_no);
        dep ← dups_opt dep;
        let '(_, dep2) := expr_eliminate_eq dep (expr_copy <$> basedep) in
        mret (expr_is_yes dep2)
  end.
(** The entries behind [parent] that belong to it; the result is the last. *)
Fixpoint adopt (n : nat) (parent : menuref) (s : symref) (basedep : option expr) (last : option menuref)
    (m : option menuref) : ZM (option menuref) :=
  match m, n with
  | None, _ => mret last
  | Some _, O => pnofuel
  | Some m, S n =>
      me ← the_menu m;
      dep ← (match m_prompt me with Some _ => prompt_expr me | None => mret (m_dep me) end);
      ok ← belongs basedep s dep;
      if ok : bool then
        finalize m;;
        mod_menu m (set_parent (Some parent));;
        me ← the_menu m;
        adopt n parent s basedep (Some m) (m_next me)
      else mret last
  end.
Definition implicit_menu (parent : menuref) (s : symref) : ZM unit :=
  n ← list_fuel;
  pe ← the_menu parent;
  vis ← prompt_expr pe;
  basedep ← transform_opt (expr_trans_compare vis false symbol_no);
  basedep ← dups_opt basedep;
  last ← adopt n parent s basedep None (m_next pe);
  (match last with
   | None => mret tt
   | Some l =>
       le ← the_menu l;
       mod_menu parent (fun e => set_list (m_next e) e);;
       mod_menu parent (set_next (m_next le));;
       mod_menu l (set_next None)
   end);;
  pe ← the_menu parent;
  change_sym s (fun y => set_dir_dep (expr_alloc_or (dir_dep y) (m_dep pe)) y).

(** Warnings about a choice value. *)
Definition check_choice_value (m : menuref) (cs v : symref) : ZM unit :=
  me ← the_menu m;
  pwhen (bool_decide (m_prompt me = None)) (warn "choice value must have a prompt");;
  z ← the_sym v;
  pforeach (fun p =>
    pwhen (bool_decide (p_type p = P_DEFAULT)) (warn "defaults for choice values not supported");;
    if bool_decide (p_menu p = Some m) then mret tt
    else if bool_decide (p_type p = P_PROMPT) then
      pm ← plift (p_menu p); pe ← the_menu pm; pp ← plift (m_parent pe); ppe ← the_menu pp;
      pwhen (negb (bool_decide (m_sym ppe = Some cs))) (warn "choice value used outside its choice group")
    else mret tt) (prop z).
(** The value of a tristate choice that is not tristate depends on the choice being y. *)
Definition require_yes (m : menuref) (cs v : symref) : ZM unit :=
  let basedep := expr_alloc_comp true cs symbol_yes in
  mod_menu m (fun e => set_dep (expr_alloc_and (Some basedep) (m_dep e)) e);;
  change_sym v (fun z => set_prop ((fun p =>
    if bool_decide (p_menu p = Some m) then set_p_visible (expr_alloc_and (Some (expr_copy basedep)) (p_visible p)) p else p)
      <$> prop z) z).
(** The list of the choice, one longer. *)
Definition append_value (v : symref) (y : symbol) : option symbol :=
  '(i, p) ← list_find (fun p => p_type p = P_CHOICE) (prop y);
  l ← match p_expr p with None => Some [] | Some (PList l) => Some l | _ => None end;
  Some (set_prop (<[i := set_prop_expr (Some (PList (l ++ [v])%list)) p]> (prop y)) y).
Definition choice_value (m : menuref) (cs : symref) : ZM unit :=
  me ← the_menu m;
  y ← the_sym cs;
  match m_sym me with
  | None => mret tt
  | Some v =>
      z ← the_sym v;
      if negb (sym_is_choice y) || sym_is_choice_value z then mret tt
      else
        enter m;;
        on_heap (or_flags v SYMBOL_CHOICEVAL);;
        check_choice_value m cs v;;
        y ← the_sym cs; z ← the_sym v;
        pwhen (is_type (type y) S_TRISTATE && negb (is_type (type z) S_TRISTATE)) (require_yes m cs v);;
        menu_add_symbol P_CHOICE cs None;;
        y ← the_sym cs; y' ← plift (append_value v y);
        change_sym cs (fun _ => y')
  end.

(** The entries of a list get the parent [p]; the result is the last. *)
Fixpoint reparent (n : nat) (p m : menuref) : ZM menuref :=
  match n with
  | O => pnofuel
  | S n =>
      mod_menu m (set_parent (Some p));;
      e ← the_menu m;
      match m_next e with None => mret m | Some x => reparent n p x end
  end.
(** An entry without prompt hands its entries to [parent], behind itself. *)
Definition flatten (parent m : menuref) : ZM unit :=
  me ← the_menu m;
  text ← (match m_prompt me with Some p => q ← on_heap (prompt_prop p); mret (p_text q) | None => mret None end);
  match m_list me, text with
  | Some c, None =>
      n ← list_fuel;
      last ← reparent n parent c;
      mod_menu last (set_next (m_next me));;
      mod_menu m (set_next (Some c));;
      mod_menu m (set_list None)
  | _, _ => mret tt
  end.

Definition warn_symbol (parent : menuref) (s : symref) : ZM unit :=
  y ← the_sym s;
  if has SYMBOL_WARNED (flags y) then mret tt
  else
    pe ← the_menu parent;
    pwhen (is_type (type y) S_UNKNOWN) (warn "config symbol defined without type");;
    pwhen (sym_is_choice y && bool_decide (m_prompt pe = None)) (warn "choice must have a prompt");;
    sym_check_prop s;;
    on_heap (or_flags s SYMBOL_WARNED).
(** Symbols that are not optional are selected by their prompt, at least to m. *)
Definition not_optional (parent : menuref) (s : symref) : ZM unit :=
  y ← the_sym s;
  pe ← the_menu parent;
  if negb (sym_is_optional y) && bool_decide (m_prompt pe <> None) then
    vis ← prompt_expr pe;
    change_sym s (fun y => set_rev_dep (expr_alloc_or (rev_dep y)
      (expr_alloc_and vis (Some (expr_alloc_symbol symbol_mod)))) y)
  else mret tt.

(** What the entries below [parent] depend on: a choice, or the condition of the
    prompt, or the dependencies of the parent. *)
Definition parent_dep (parent : menuref) (pe : menu) : ZM (option expr) :=
  let plain := match m_prompt pe with Some _ => prompt_expr pe | None => mret (m_dep pe) end in
  match m_sym pe with
  | Some s => y ← the_sym s;
      if sym_is_choice y then choice_types parent s;; mret (Some (expr_alloc_symbol s)) else plain
  | None => plain
  end.
Definition explicit_menu (parent : menuref) (pe : menu) : ZM unit :=
  parentdep ← parent_dep parent pe;
  n ← list_fuel;
  for_menus n (propagate parentdep) (m_list pe);;
  for_menus n finalize (m_list pe).
(** The last loop over the entries. *)
Definition settle (parent : menuref) (m : menuref) : ZM unit :=
  pe ← the_menu parent;
  match m_sym pe with Some s => choice_value m s | None => mret tt end;;
  flatten parent m.

Definition finalize_body (parent : menuref) : ZM unit :=
  pe ← the_menu parent;
  match m_list pe, m_sym pe with
  | Some _, _ => explicit_menu parent pe
  | None, Some s => implicit_menu parent s
  | None, None => mret tt
  end;;
  n ← list_fuel;
  pe ← the_menu parent;
  for_menus n (settle parent) (m_list pe);;
  match m_sym pe with
  | Some s => warn_symbol parent s;; not_optional parent s
  | None => mret tt
  end.
End Finalize.

(** [menu_finalize], with the nesting bounded. *)
Fixpoint menu_finalize (n : nat) (parent : menuref) : ZM unit :=
  match n with O => pnofuel | S n => finalize_body (menu_finalize n) parent end.
