(* ===== verification/KParse.v ===== *)
(** The actions of the grammar of Kconfig files (zconf.y): what the parser does to
    the menu tree for each statement, and [conf_parse] around it.  Here a file is
    given as its statements, the contents of sourced files in their places, and is well
    nested; KScan and KGrammar read it from its text. *)
From S2P Require Import Prelude CText KExpr KSym KConf KMenu.

(** ** Statements *)

(** [symbol]: a word or a quoted word. *)
Inductive term := Word (w : string) | Quoted (w : string).
Inductive kexpr :=
| KSymbol (t : term)
| KEqual (a b : term)
| KUnequal (a b : term)
| KNot (e : kexpr)
| KOr (l r : kexpr)
| KAnd (l r : kexpr).

(** [help], [depends] are common; [ty] of a default is that of its keyword. *)
Inductive config_option :=
| OType (ty : symbol_type) (prompt : option (string * option kexpr))
| OPrompt (prompt : string) (cond : option kexpr)
| ODefault (ty : symbol_type) (e : kexpr) (cond : option kexpr)
| OSelect (w : string) (cond : option kexpr)
| ORange (a b : term) (cond : option kexpr)
| OOption (token : opt_token) (arg : option string)
| ODepends (e : kexpr)
| OHelp (text : string).
Inductive choice_option :=
| CPrompt (prompt : string) (cond : option kexpr)
| CType (ty : symbol_type) (prompt : option (string * option kexpr))
| COptional
| CDefault (w : string) (cond : option kexpr)
| CDepends (e : kexpr)
| CHelp (text : string).

(** A list of statements, each with the rest behind it. *)
Inductive stmts :=
| SNil
| SConfig (menuconfig : bool) (w : string) (opts : list config_option) (rest : stmts)
| SComment (prompt : string) (deps : list kexpr) (rest : stmts)
| SChoice (w : option string) (opts : list choice_option) (body rest : stmts)
| SMenu (prompt : string) (visible : list (option kexpr)) (deps : list kexpr) (body rest : stmts)
| SIf (cond : kexpr) (body rest : stmts).

(** ** Actions *)

Section Actions.
Variable getenv : string -> option string.

Definition term_symbol (t : term) : ZM symref :=
  on_heap (match t with Word w => sym_lookup (Some w) 0 | Quoted w => sym_lookup (Some w) SYMBOL_CONST end).
Fixpoint parse_expr (e : kexpr) : ZM expr :=
  match e with
  | KSymbol t => s ← term_symbol t; mret (expr_alloc_symbol s)
  | KEqual a b => a ← term_symbol a; b ← term_symbol b; mret (expr_alloc_comp true a b)
  | KUnequal a b => a ← term_symbol a; b ← term_symbol b; mret (expr_alloc_comp false a b)
  | KNot e => e ← parse_expr e; mret (Not e)
  | KOr l r => l ← parse_expr l; r ← parse_expr r; mret (expr_alloc_two OOr l r)
  | KAnd l r => l ← parse_expr l; r ← parse_expr r; mret (expr_alloc_two OAnd l r)
  end.
Definition parse_if (e : option kexpr) : ZM (option expr) :=
  match e with None => mret None | Some e => e ← parse_expr e; mret (Some e) end.

(** [prompt_stmt_opt] *)
Definition prompt_opt (p : option (string * option kexpr)) : ZM unit :=
  match p with
  | None => mret tt
  | Some (text, cond) => c ← parse_if cond; menu_add_prompt P_PROMPT text c
  end.
Definition add_depends (e : kexpr) : ZM unit := d ← parse_expr e; menu_add_dep (Some d).
Definition add_help (text : string) : ZM unit := m ← get_entry; mod_menu m (set_help (Some text)).

Definition run_config_option (o : config_option) : ZM unit :=
  match o with
  | OType ty p => prompt_opt p;; menu_set_type ty
  | OPrompt text cond => c ← parse_if cond; menu_add_prompt P_PROMPT text c
  | ODefault ty e cond =>
      e ← parse_expr e; c ← parse_if cond;
      menu_add_expr P_DEFAULT (Some (PExpr e)) c;;
      pwhen (negb (is_type ty S_UNKNOWN)) (menu_set_type ty)
  | OSelect w cond =>
      c ← parse_if cond; s ← on_heap (sym_lookup (Some w) 0); menu_add_symbol P_SELECT s c
  | ORange a b cond =>
      a ← term_symbol a; b ← term_symbol b; c ← parse_if cond;
      menu_add_expr P_RANGE (Some (PRange a b)) c
  | OOption token arg => menu_add_option getenv token arg
  | ODepends e => add_depends e
  | OHelp text => add_help text
  end.
(** A type other than boolean and tristate is a syntax error. *)
Definition run_choice_option (o : choice_option) : ZM unit :=
  match o with
  | CPrompt text cond => c ← parse_if cond; menu_add_prompt P_PROMPT text c
  | CType ty p =>
      prompt_opt p;;
      if is_type ty S_BOOLEAN || is_type ty S_TRISTATE then menu_set_type ty else zconf_error "invalid option"
  | COptional => m ← get_entry; me ← the_menu m; s ← plift (m_sym me); on_heap (or_flags s SYMBOL_OPTIONAL)
  | CDefault w cond => c ← parse_if cond; s ← on_heap (sym_lookup (Some w) 0); menu_add_symbol P_DEFAULT s c
  | CDepends e => add_depends e
  | CHelp text => add_help text
  end.

(** [config_entry_start] and [menuconfig_entry_start] *)
Definition config_entry (w : string) : ZM unit :=
  s ← on_heap (sym_lookup (Some w) 0);
  on_heap (or_flags s SYMBOL_OPTIONAL);;
  menu_add_entry (Some s).
(** A menuconfig's prompt becomes a menu. *)
Definition menuconfig_prompt : ZM unit :=
  m ← get_entry; me ← the_menu m;
  match m_prompt me with
  | Some (POf s i) => on_heap (mod_prop s i (set_p_type P_MENU))
  | Some (POwn p) => mod_menu m (set_m_prompt (Some (POwn (set_p_type P_MENU p))))
  | None => warn "warning: menuconfig statement without prompt"
  end.
Definition choice_entry_start (w : option string) : ZM unit :=
  s ← on_heap (sym_lookup w SYMBOL_CHOICE);
  on_heap (or_flags s SYMBOL_AUTO);;
  menu_add_entry (Some s);;
  menu_add_expr P_CHOICE None None.
Definition choice_entry (w : option string) (opts : list choice_option) : ZM unit :=
  choice_entry_start w;;
  pforeach run_choice_option opts;;
  menu_add_menu.
Definition menu_entry (prompt : string) (visible : list (option kexpr)) (deps : list kexpr) : ZM unit :=
  menu_add_entry None;;
  menu_add_prompt P_MENU prompt None;;
  pforeach (fun v => e ← parse_if v; menu_add_visibility e) visible;;
  pforeach add_depends deps;;
  menu_add_menu.
Definition if_entry (cond : kexpr) : ZM unit :=
  e ← parse_expr cond;
  menu_add_entry None;;
  menu_add_dep (Some e);;
  menu_add_menu.

Fixpoint run_stmts (ss : stmts) : ZM unit :=
  match ss with
  | SNil => mret tt
  | SConfig menuconfig w opts rest =>
      config_entry w;;
      pforeach run_config_option opts;;
      pwhen menuconfig menuconfig_prompt;;
      menu_end_entry;;
      run_stmts rest
  | SComment prompt deps rest =>
      menu_add_entry None;;
      menu_add_prompt P_COMMENT prompt None;;
      pforeach add_depends deps;;
      menu_end_entry;;
      run_stmts rest
  | SChoice w opts body rest =>
      choice_entry w opts;; run_stmts body;; menu_end_menu;; run_stmts rest
  | SMenu prompt visible deps body rest =>
      menu_entry prompt visible deps;; run_stmts body;; menu_end_menu;; run_stmts rest
  | SIf cond body rest =>
      if_entry cond;; run_stmts body;; menu_end_menu;; run_stmts rest
  end.

(** ** [conf_parse] *)

(** [mainmenu_stmt] is the prompt of the root entry; [false] is [exit(1)]. *)
Definition expand_title : ZM unit :=
  me ← the_menu rootmenu;
  match m_prompt me with
  | Some (POwn p) =>
      t ← plift (p_text p);
      t ← on_heap (sym_expand_string_value t);
      mod_menu rootmenu (set_m_prompt (Some (POwn (set_p_text (Some t) p))))
  | _ => pfault
  end.
Definition check_one (s : symref) : ZM unit :=
  y ← the_sym s;
  if is_type (type y) S_OTHER then mret tt
  else r ← on_heap (sym_check_deps s); pwhen (bool_decide (r <> None)) (pmodify add_error).
Definition check_all_deps : ZM unit := st ← pget; pforeach check_one (all_symbols (heap st)).
(** Before the parser runs. *)
Definition begin_menus (release : string) : ZM unit :=
  on_heap (sym_init release);;
  _menu_init;;
  menu_add_prompt P_MENU "Buildroot Configuration" None.
Definition add_title (mainmenu : option string) : ZM unit :=
  match mainmenu with Some t => menu_add_prompt P_MENU t None | None => mret tt end.
(** Behind the parser, up to the finalised menu tree. *)
Definition finish_menus : ZM bool :=
  st ← pget;
  if negb (zconfnerrs st =? 0) then mret false
  else
    match modules_sym (heap st) with
    | Some _ => mret tt
    | None => s ← on_heap (sym_find (Some "n")); on_heap (pmodify (upd_modules_sym s))
    end;;
    expand_title;;
    n ← list_fuel;
    menu_finalize (S n) rootmenu;;
    mret true.
Definition read_menus (release : string) (mainmenu : option string) (ss : stmts) : ZM bool :=
  begin_menus release;; add_title mainmenu;; run_stmts ss;; finish_menus.
Definition check_menus (ok : bool) : ZM bool :=
  if ok then
    check_all_deps;;
    st ← pget;
    if negb (zconfnerrs st =? 0) then mret false
    else on_heap (sym_set_change_count 1);; mret true
  else mret false.
Definition conf_parse (release : string) (mainmenu : option string) (ss : stmts) : ZM bool :=
  ok ← read_menus release mainmenu ss; check_menus ok.
End Actions.

(** The program before it reads: the statics are zero. *)
Definition start (k : kstate) : pstate := {|
  heap := k; current_entry := rootmenu; current_menu := None; last_entry_ptr := MList rootmenu;
  fresh_menu := 1%nat; sym_defconfig_list := None; zconfnerrs := 0 |}.
