(* ===== verification/KMenuFacts.v ===== *)
(** The menu tree while it is built and finalised: the pointers always link the
    entries as a forest, and the order of the entries in the file is kept. *)
From S2P Require Import Prelude CText KExpr KSym KSymFacts KConf KConfFacts KSymKeep KMenu KParse.
Local Open Scope list_scope.

(** ** The pointers of the entries *)

Record links := mkLinks { l_parent : option menuref; l_list : option menuref; l_next : option menuref }.
Definition links_of (e : menu) : links := mkLinks (m_parent e) (m_list e) (m_next e).
Definition skeleton (st : pstate) : gmap menuref links := links_of <$> menus (heap st).

(** Nothing but pointers to properties and expressions differs. *)
Definition same (st st' : pstate) : Prop :=
  skeleton st' = skeleton st /\ current_menu st' = current_menu st /\
  last_entry_ptr st' = last_entry_ptr st /\ fresh_menu st' = fresh_menu st.
#[export] Instance same_refl : Reflexive same.
Proof. done. Qed.
#[export] Instance same_trans : Transitive same.
Proof. intros a b c (H1 & H2 & H3 & H4) (K1 & K2 & K3 & K4). repeat split; congruence. Qed.

(** [quiet m]: [m] ends and keeps the pointers. *)
Definition quiet {A} (m : ZM A) : Prop := forall st, wp m (fun _ st' => same st st') st.
(** A routine of the symbols that ends and keeps the entries. *)
Definition aside {A} (m : KM A) : Prop := forall k, wp m (fun _ k' => menus k' = menus k) k.

Create HintDb quiet discriminated.

Lemma quiet_bind {A B} (m : ZM A) (f : A -> ZM B) : quiet m -> (forall a, quiet (f a)) -> quiet (m ≫= f).
Proof.
  intros Hm Hf st. apply wp_bind. eapply wp_mono; [apply Hm|]. cbn. intros a st1 H1.
  eapply wp_mono; [apply Hf|]. cbn. intros b st2 H2. by etransitivity.
Qed.
Lemma quiet_ret {A} (a : A) : quiet (mret a).
Proof. intros st. by apply wp_ret. Qed.
Lemma quiet_get : quiet pget.
Proof. intros st. by apply wp_get. Qed.
Lemma quiet_lift {A} (o : option A) : quiet (plift o).
Proof. intros st. by apply wp_lift. Qed.
Lemma quiet_fault {A} : quiet (pfault : ZM A).
Proof. intros st. by apply wp_fault. Qed.
Lemma quiet_when b (m : ZM unit) : quiet m -> quiet (pwhen b m).
Proof. destruct b; [done|]. intros _. apply quiet_ret. Qed.
Lemma quiet_foreach {A} (f : A -> ZM unit) l : (forall a, quiet (f a)) -> quiet (pforeach f l).
Proof. intros Hf. induction l; [apply quiet_ret|]. cbn. apply quiet_bind; [done|]. by intros []. Qed.
Lemma quiet_modify f : (forall st, same st (f st)) -> quiet (pmodify f).
Proof. intros Hf st. by apply wp_modify. Qed.
Lemma quiet_on_heap {A} (m : KM A) : aside m -> quiet (on_heap m).
Proof.
  intros Hm st. unfold wp, on_heap. specialize (Hm (heap st)). unfold wp in Hm.
  destruct (m (heap st)) as [a k'| |]; [|done..]. unfold same, skeleton. cbn. by rewrite Hm.
Qed.

Lemma aside_bind {A B} (m : KM A) (f : A -> KM B) : aside m -> (forall a, aside (f a)) -> aside (m ≫= f).
Proof.
  intros Hm Hf k. apply wp_bind. eapply wp_mono; [apply Hm|]. cbn. intros a k1 H1.
  eapply wp_mono; [apply Hf|]. cbn. congruence.
Qed.
Lemma aside_ret {A} (a : A) : aside (mret a).
Proof. intros k. by apply wp_ret. Qed.
Lemma aside_get : aside pget.
Proof. intros k. by apply wp_get. Qed.
Lemma aside_lift {A} (o : option A) : aside (plift o).
Proof. intros k. by apply wp_lift. Qed.
Lemma aside_fault {A} : aside (pfault : KM A).
Proof. intros k. by apply wp_fault. Qed.
Lemma aside_when b (m : KM unit) : aside m -> aside (pwhen b m).
Proof. destruct b; [done|]. intros _. apply aside_ret. Qed.
Lemma aside_modify f : (forall k, menus (f k) = menus k) -> aside (pmodify f).
Proof. intros Hf k. by apply wp_modify. Qed.
#[export] Hint Resolve quiet_ret quiet_get quiet_lift quiet_fault aside_ret aside_get aside_lift aside_fault : quiet.

(** Takes a routine apart, as far as it goes. *)
Ltac quiet_step :=
  match goal with
  | |- quiet (_ ≫= _) => apply quiet_bind; [|intros ?]
  | |- quiet (pwhen _ _) => apply quiet_when
  | |- quiet (pforeach _ _) => apply quiet_foreach; intros ?
  | |- quiet (on_heap _) => apply quiet_on_heap
  | |- aside (_ ≫= _) => apply aside_bind; [|intros ?]
  | |- aside (pwhen _ _) => apply aside_when
  | |- aside (pmodify _) => apply aside_modify; done
  | |- quiet (let '(_, _) := ?x in _) => destruct x
  | |- quiet (match ?x with _ => _ end) => destruct x
  | |- aside (match ?x with _ => _ end) => destruct x
  | |- quiet _ => solve [eauto with quiet nocore]
  | |- aside _ => solve [eauto with quiet nocore]
  end.
Ltac quietly := repeat (quiet_step; cbn beta zeta).

Lemma aside_get_sym s : aside (get_sym s).
Proof. unfold get_sym. quietly. Qed.
#[export] Hint Resolve aside_get_sym : quiet.
Lemma aside_mod_sym s f : aside (mod_sym s f).
Proof. unfold mod_sym. quietly. Qed.
#[export] Hint Resolve aside_mod_sym : quiet.
Lemma aside_get_menu m : aside (get_menu m).
Proof. unfold get_menu. quietly. Qed.
#[export] Hint Resolve aside_get_menu : quiet.
Lemma aside_or_flags s f : aside (or_flags s f).
Proof. apply aside_mod_sym. Qed.
Lemma aside_mod_prop s i f : aside (mod_prop s i f).
Proof. apply aside_mod_sym. Qed.
#[export] Hint Resolve aside_or_flags aside_mod_prop : quiet.
Lemma aside_prop_alloc t s : aside (prop_alloc t s).
Proof. unfold prop_alloc. quietly. Qed.
Lemma aside_prompt_prop p : aside (prompt_prop p).
Proof. unfold prompt_prop. quietly. Qed.
Lemma aside_sym_lookup n fl : aside (sym_lookup n fl).
Proof. unfold sym_lookup, sym_new. quietly. Qed.
#[export] Hint Resolve aside_prop_alloc aside_prompt_prop aside_sym_lookup : quiet.
Lemma aside_sym_find n : aside (sym_find n).
Proof. unfold sym_find. quietly. Qed.
Lemma aside_add_default s d : aside (sym_add_default s d).
Proof. unfold sym_add_default. quietly. Qed.
#[export] Hint Resolve aside_add_default aside_sym_find : quiet.
Lemma aside_sym_init r : aside (sym_init r).
Proof. unfold sym_init. quietly. Qed.
Lemma aside_prop_add_env g s e : aside (prop_add_env g s e).
Proof. unfold prop_add_env. quietly. Qed.
#[export] Hint Resolve aside_sym_init aside_prop_add_env : quiet.

Lemma quiet_the_menu m : quiet (the_menu m).
Proof. unfold the_menu. quietly. Qed.
Lemma quiet_the_sym s : quiet (the_sym s).
Proof. unfold the_sym. quietly. Qed.
Lemma quiet_change_sym s f : quiet (change_sym s f).
Proof. unfold change_sym. quietly. Qed.
Lemma quiet_warn t : quiet (warn t).
Proof. unfold warn. quietly. Qed.
Lemma quiet_enter m : quiet (enter m).
Proof. by apply quiet_modify. Qed.
#[export] Hint Resolve quiet_the_menu quiet_the_sym quiet_change_sym quiet_warn quiet_enter : quiet.
Lemma quiet_get_entry : quiet get_entry.
Proof. unfold get_entry. quietly. Qed.
Lemma quiet_list_fuel : quiet list_fuel.
Proof. unfold list_fuel. quietly. Qed.
Lemma quiet_with_symtab {A} (f : SymTab -> A) : quiet (with_symtab f).
Proof. unfold with_symtab. quietly. Qed.
#[export] Hint Resolve quiet_get_entry quiet_list_fuel quiet_with_symtab : quiet.

(** Setting a member that is no pointer to an entry. *)
Lemma wp_mod_menu m f (Q : unit -> pstate -> Prop) st :
  (forall e, menus (heap st) !! m = Some e -> Q tt (set_heap (upd_menus (insert m (f e)) (heap st)) st)) ->
  wp (mod_menu m f) Q st.
Proof.
  intros H. unfold wp, mod_menu, the_menu, get_menu, on_heap, mbind, PM_bind, pget, plift.
  destruct (menus (heap st) !! m) as [e|] eqn:E; [|done]. cbn. by apply H.
Qed.
Lemma skeleton_insert m e st : skeleton (set_heap (upd_menus (insert m e) (heap st)) st) = <[m := links_of e]> (skeleton st).
Proof. unfold skeleton. cbn. apply fmap_insert. Qed.
Lemma quiet_mod_menu m f : (forall e, links_of (f e) = links_of e) -> quiet (mod_menu m f).
Proof.
  intros Hf st. apply wp_mod_menu. intros e E. unfold same. rewrite skeleton_insert. cbn. split_and!; try done.
  rewrite Hf. apply insert_id. unfold skeleton. by rewrite lookup_fmap, E.
Qed.
#[export] Hint Extern 1 (quiet (mod_menu _ _)) => apply quiet_mod_menu; done : quiet.

(** ** Segments of lists of entries *)

Definition first_or (f : forest) (x : option menuref) : option menuref :=
  match f with Leaf => x | Entry m _ _ => Some m end.
(** The entries of [f] hang below [pp]; the last of its upper list goes on with [x]. *)
Fixpoint seg (sk : gmap menuref links) (pp : option menuref) (f : forest) (x : option menuref) : Prop :=
  match f with
  | Leaf => True
  | Entry m c r => sk !! m = Some (mkLinks pp (first c) (first_or r x)) /\ seg sk (Some m) c None /\ seg sk pp r x
  end.
Fixpoint fapp (f g : forest) : forest := match f with Leaf => g | Entry m c r => Entry m c (fapp r g) end.
Fixpoint last_root (f : forest) : option menuref :=
  match f with Leaf => None | Entry m _ r => match last_root r with None => Some m | l => l end end.

Lemma first_or_None f : first_or f None = first f.
Proof. by destruct f. Qed.
Lemma first_head f : first f = head (preorder f).
Proof. by destruct f. Qed.
Lemma first_preorder f g : preorder f = preorder g -> first f = first g.
Proof. intros H. by rewrite !first_head, H. Qed.
Lemma preorder_fapp f g : preorder (fapp f g) = preorder f ++ preorder g.
Proof. induction f as [|m c _ r IH]; [done|]. cbn. by rewrite IH, app_assoc. Qed.
Lemma first_fapp f g : first (fapp f g) = first_or f (first g).
Proof. by destruct f. Qed.
Lemma first_or_fapp f g x : first_or (fapp f g) x = first_or f (first_or g x).
Proof. by destruct f. Qed.

Lemma linked_seg ms p f : linked ms p f <-> seg (links_of <$> ms) (Some p) f None.
Proof.
  revert p. induction f as [|m c IHc r IHr]; intros p; [done|]. cbn. rewrite IHc, IHr, lookup_fmap, first_or_None.
  split.
  - intros ((e & -> & Ep & El & En) & Hc & Hr). cbn. unfold links_of. by rewrite Ep, El, En.
  - intros (He & Hc & Hr). destruct (ms !! m) as [e|]; [|done]. injection He as Ep El En. split; [|done]. by exists e.
Qed.
Lemma seg_frame sk sk' pp f x : (forall m, m ∈ preorder f -> sk' !! m = sk !! m) -> seg sk pp f x -> seg sk' pp f x.
Proof.
  revert pp x. induction f as [|m c IHc r IHr]; intros pp x Hs; [done|]. cbn in *. intros (E & Hc & Hr). split_and!.
  - by rewrite Hs by left.
  - apply IHc; [|done]. intros i Hi. apply Hs. right. apply elem_of_app. by left.
  - apply IHr; [|done]. intros i Hi. apply Hs. right. apply elem_of_app. by right.
Qed.
Lemma seg_fapp sk pp f g x : seg sk pp (fapp f g) x <-> seg sk pp f (first_or g x) /\ seg sk pp g x.
Proof.
  induction f as [|m c _ r IH]; cbn; [by split; [|intros [_ ?]]|]. rewrite IH, first_or_fapp. tauto.
Qed.
Lemma seg_dom sk pp f x m : seg sk pp f x -> m ∈ preorder f -> is_Some (sk !! m).
Proof.
  revert pp x. induction f as [|m0 c IHc r IHr]; intros pp x Hs Hm; [by apply elem_of_nil in Hm|].
  destruct Hs as (E & Hc & Hr). cbn in Hm. apply elem_of_cons in Hm as [->|[Hm|Hm]%elem_of_app]; eauto.
Qed.
Lemma seg_size sk pp f x : seg sk pp f x -> NoDup (preorder f) -> (length (preorder f) <= size sk)%nat.
Proof.
  intros Hs N. rewrite <- (size_dom (D := gset nat)), <- (size_list_to_set (C := gset nat) _ N).
  apply subseteq_size. intros m Hm. apply elem_of_list_to_set in Hm. apply elem_of_dom. by eapply seg_dom.
Qed.
Lemma last_root_in f l : last_root f = Some l -> l ∈ preorder f.
Proof.
  induction f as [|m c _ r IH]; [done|]. cbn. destruct (last_root r).
  - intros [= ->]. right. apply elem_of_app. right. by apply IH.
  - intros [= ->]. left.
Qed.
Lemma last_root_None f : last_root f = None -> f = Leaf.
Proof. destruct f as [|m c r]; [done|]. cbn. by destruct (last_root r). Qed.
Lemma seg_last sk pp f x l : seg sk pp f x -> last_root f = Some l ->
  exists k, sk !! l = Some k /\ l_next k = x /\ l_parent k = pp.
Proof.
  induction f as [|m c _ r IH]; [done|]. cbn. intros (E & _ & Hr). destruct (last_root r) eqn:El.
  - by apply IH.
  - apply last_root_None in El as ->. intros [= <-]. eauto.
Qed.
Definition with_next (x : option menuref) (k : links) : links := mkLinks (l_parent k) (l_list k) x.
(** The list goes on elsewhere. *)
Lemma seg_relast sk pp f x y l k : seg sk pp f x -> NoDup (preorder f) -> last_root f = Some l -> sk !! l = Some k ->
  seg (<[l := with_next y k]> sk) pp f y.
Proof.
  revert x. induction f as [|m c _ r IH]; intros x; [done|]. cbn. intros (E & Hc & Hr) N Hl Ek.
  apply NoDup_cons in N as [Hm N]. apply NoDup_app in N as (Nc & Hd & Nr).
  destruct (last_root r) as [l'|] eqn:El.
  - injection Hl as ->. pose proof (last_root_in r l El) as Hin. split_and!.
    + rewrite lookup_insert_ne by (intros ->; apply Hm, elem_of_app; by right). by destruct r.
    + eapply seg_frame; [|done]. intros i Hi. rewrite lookup_insert_ne; [done|]. intros ->. by apply (Hd i).
    + by eapply IH.
  - apply last_root_None in El as ->. injection Hl as ->. rewrite E in Ek. injection Ek as <-. split_and!; [|..].
    + by rewrite lookup_insert_eq.
    + eapply seg_frame; [|done]. intros i Hi. rewrite lookup_insert_ne; [done|]. intros ->. apply Hm, elem_of_app. by left.
    + done.
Qed.

(** ** Moving entries *)

(** Only the pointers of the entries [l] have changed. *)
Definition moved (l : list menuref) (st st' : pstate) : Prop :=
  (forall i, i ∉ l -> skeleton st' !! i = skeleton st !! i) /\ dom (skeleton st') = dom (skeleton st) /\
  current_menu st' = current_menu st /\ last_entry_ptr st' = last_entry_ptr st /\ fresh_menu st' = fresh_menu st.
Lemma same_moved l st st' : same st st' -> moved l st st'.
Proof. intros (E & H). unfold moved. rewrite E. by split_and!; try apply H. Qed.
Lemma moved_trans l a b c : moved l a b -> moved l b c -> moved l a c.
Proof.
  intros (H1 & H2 & H3) (K1 & K2 & K3). split_and!; try (destruct_and!; congruence).
  intros i Hi. rewrite K1, H1 by done. done.
Qed.
Lemma moved_mono l l' a b : l ⊆ l' -> moved l a b -> moved l' a b.
Proof. intros Hl (H1 & H). split; [|done]. intros i Hi. apply H1. intros ?. by apply Hi, Hl. Qed.
Lemma moved_insert l m e st : m ∈ l -> is_Some (skeleton st !! m) ->
  moved l st (set_heap (upd_menus (insert m e) (heap st)) st).
Proof.
  intros Hm Hs. unfold moved. rewrite skeleton_insert. cbn. split_and!; try done.
  - intros i Hi. apply lookup_insert_ne. by intros ->.
  - rewrite dom_insert_L. apply elem_of_dom in Hs. set_solver.
Qed.

(** A forest below [pp], without doubles. *)
Definition tree (st : pstate) (pp : option menuref) (f : forest) : Prop :=
  seg (skeleton st) pp f None /\ NoDup (preorder f).
Definition rest (f : forest) : forest := match f with Leaf => Leaf | Entry _ _ r => r end.
(** The states after entries of [f] have moved, their order kept; an entry without
    others behind it stays one. *)
Definition finalized (st : pstate) (pp : option menuref) (f : forest) (st' : pstate) : Prop :=
  moved (preorder f) st st' /\
  exists f', tree st' pp f' /\ preorder f' = preorder f /\ (rest f = Leaf -> rest f' = Leaf).
(** [m] ends, keeps the order of the entries of [f] below [pp], and touches no
    others. *)
Definition reorders (pp : option menuref) (f : forest) (m : ZM unit) : Prop :=
  forall st, tree st pp f ->
  wp m (fun _ st' => moved (preorder f) st st' /\ exists f', tree st' pp f' /\ preorder f' = preorder f) st.

Lemma tree_fuel st pp f : tree st pp f -> (length (preorder f) <= size (menus (heap st)))%nat.
Proof. intros [Hs N]. pose proof (seg_size _ _ _ _ Hs N) as H. unfold skeleton in H. by rewrite map_size_fmap in H. Qed.
Lemma tree_same st st' pp f : same st st' -> tree st pp f -> tree st' pp f.
Proof. intros (E & _) [Hs N]. split; [|done]. by rewrite E. Qed.
Lemma tree_moved l st st' pp f : moved l st st' -> (forall i, i ∈ preorder f -> i ∉ l) -> tree st pp f -> tree st' pp f.
Proof. intros (H & _) Hd [Hs N]. split; [|done]. eapply seg_frame; [|done]. intros i Hi. by apply H, Hd. Qed.
Lemma tree_entry st pp m c r : tree st pp (Entry m c r) <->
  skeleton st !! m = Some (mkLinks pp (first c) (first r)) /\ tree st (Some m) c /\ tree st pp r /\
  m ∉ preorder c /\ m ∉ preorder r /\ (forall i, (i ∈ preorder c) -> (i ∉ preorder r)).
Proof.
  unfold tree. cbn. rewrite first_or_None, NoDup_cons, NoDup_app, not_elem_of_app. intuition.
Qed.
Lemma wp_the_menu m (Q : menu -> pstate -> Prop) st :
  (forall e, menus (heap st) !! m = Some e -> skeleton st !! m = Some (links_of e) -> Q e st) -> wp (the_menu m) Q st.
Proof.
  intros H. unfold wp, the_menu, get_menu, on_heap, mbind, PM_bind, pget, plift.
  destruct (menus (heap st) !! m) as [e|] eqn:E; [|done]. cbn.
  replace (set_heap (heap st) st) with st by (by destruct st). apply H; [done|]. unfold skeleton. by rewrite lookup_fmap, E.
Qed.

Lemma quiet_reorders pp f m : quiet m -> reorders pp f m.
Proof.
  intros Hm st Ht. eapply wp_mono; [apply Hm|]. cbn. intros _ st' Hs. split; [by apply same_moved|].
  exists f. split; [by eapply tree_same|done].
Qed.

(** ** Loops over a list of entries *)

(** A body that reorders each entry with what follows it reorders the list. *)
Lemma for_menus_reorders pp body N :
  (forall x c r, (length (preorder (Entry x c r)) <= N)%nat -> reorders pp (Entry x c r) (body x)) ->
  forall n f, (length (preorder f) <= n)%nat -> (length (preorder f) <= N)%nat -> reorders pp f (for_menus n body (first f)).
Proof.
  intros Hbody. induction n as [|n IH]; intros [|x c r] Hn HN; try (cbn in Hn; lia); try apply (quiet_reorders _ Leaf), quiet_ret.
  intros st Ht. cbn [for_menus first]. apply wp_bind.
  eapply wp_mono; [by apply (Hbody x c r HN)|]. cbn beta. intros _ st1 (M1 & f1 & T1 & P1).
  destruct f1 as [|x1 c1 r1]; [done|]. cbn [preorder] in P1. injection P1 as -> P1.
  pose proof T1 as (E1 & Tc & Tr & N1 & N2 & N3)%tree_entry.
  assert (Hlen : (length (preorder r1) <= length (preorder c ++ preorder r))%nat) by (rewrite <- P1, length_app; lia).
  apply wp_bind, wp_the_menu. intros e _ E. rewrite E1 in E. injection E as _ _ Enext. rewrite <- Enext.
  eapply wp_mono; [apply (IH r1); [cbn in Hn; lia|cbn in HN; lia|done]|]. cbn beta. intros _ st2 (M2 & r2 & T2 & P2).
  assert (Hr1 : preorder r1 ⊆ preorder (Entry x c r)).
  { cbn. rewrite <- P1. intros i Hi. right. apply elem_of_app. by right. }
  split; [eapply moved_trans; [done|by eapply moved_mono]|].
  exists (Entry x c1 r2). split; [|cbn; by rewrite P2, P1].
  destruct M2 as (M2 & _). apply tree_entry. rewrite P2. split_and!; try done.
  - rewrite M2 by done. rewrite E1. do 2 f_equal. symmetry. by apply first_preorder.
  - split; [|apply Tc]. eapply seg_frame; [|apply Tc]. intros i Hi. apply M2. by apply N3.
Qed.

(** The loops that change no pointer. *)
Lemma quiet_for_menus st pp f body : tree st pp f -> (forall x, quiet (body x)) ->
  forall n, (length (preorder f) <= n)%nat -> wp (for_menus n body (first f)) (fun _ st' => same st st') st.
Proof.
  intros Ht Hbody n. revert st f Ht. induction n as [|n IH]; intros st [|x c r] Ht Hn; try (cbn in Hn; lia); try done.
  cbn [for_menus first]. apply wp_bind. eapply wp_mono; [apply Hbody|]. cbn beta. intros _ st1 H1.
  pose proof (tree_same _ _ _ _ H1 Ht) as (E1 & _ & Tr & _)%tree_entry.
  apply wp_bind, wp_the_menu. intros e _ E. rewrite E1 in E. injection E as _ _ Enext. rewrite <- Enext.
  cbn in Hn. rewrite length_app in Hn. eapply wp_mono; [apply (IH st1 r); [done|lia]|].
  cbn beta. intros _ st2 H2. by etransitivity.
Qed.
Lemma quiet_first_type st pp f : tree st pp f ->
  forall n, (length (preorder f) <= n)%nat -> wp (first_type n (first f)) (fun _ st' => same st st') st.
Proof.
  intros Ht n. revert st f Ht. induction n as [|n IH]; intros st [|x c r] Ht Hn; try (cbn in Hn; lia); try done.
  cbn [first_type first]. apply wp_bind, wp_the_menu. intros e _ E.
  pose proof Ht as (E1 & _ & Tr & _)%tree_entry. rewrite E1 in E. injection E as _ _ Enext. rewrite <- Enext.
  cbn in Hn. rewrite length_app in Hn.
  assert (Hrest : forall st1, same st st1 -> wp (first_type n (first r)) (fun _ st' => same st st') st1).
  { intros st1 H1. eapply wp_mono; [apply (IH st1 r); [by eapply tree_same|lia]|]. cbn. intros _ st2 H2. by etransitivity. }
  destruct (m_sym e) as [s|]; [|by apply Hrest].
  apply wp_bind. eapply wp_mono; [apply quiet_the_sym|]. cbn. intros y st1 H1.
  destruct (is_type (type y) S_UNKNOWN); [by apply Hrest|by apply wp_ret].
Qed.

(** ** The quiet routines of [menu_finalize] *)

Lemma quiet_menu_check_dep e : quiet (menu_check_dep e).
Proof. unfold menu_check_dep. quietly. Qed.
Lemma quiet_trim t : quiet (trim_prompt t).
Proof. unfold trim_prompt. quietly. Qed.
#[export] Hint Resolve quiet_menu_check_dep quiet_trim : quiet.
Lemma quiet_add_expr t e d : quiet (menu_add_expr t e d).
Proof. unfold menu_add_expr, menu_add_prop. quietly. Qed.
Lemma quiet_add_symbol t s d : quiet (menu_add_symbol t s d).
Proof. apply quiet_add_expr. Qed.
Lemma quiet_set_type t : quiet (menu_set_type t).
Proof. unfold menu_set_type. quietly. Qed.
#[export] Hint Resolve quiet_add_expr quiet_add_symbol quiet_set_type : quiet.
Lemma quiet_transform e : quiet (transform_opt e).
Proof. apply quiet_with_symtab. Qed.
Lemma quiet_dups e : quiet (dups_opt e).
Proof. apply quiet_with_symtab. Qed.
Lemma quiet_prompt_expr e : quiet (prompt_expr e).
Proof. unfold prompt_expr. quietly. Qed.
#[export] Hint Resolve quiet_transform quiet_dups quiet_prompt_expr : quiet.
Lemma quiet_propagate_dep s b v : quiet (propagate_dep s b v).
Proof. unfold propagate_dep. quietly. Qed.
Lemma quiet_select_dep s p d : quiet (select_dep s p d).
Proof. unfold select_dep. quietly. Qed.
#[export] Hint Resolve quiet_propagate_dep quiet_select_dep : quiet.
Lemma quiet_propagate_props n m s b o : forall i, quiet (propagate_props n m s b o i).
Proof. induction n as [|n IH]; intros i; cbn [propagate_props]; quietly. Qed.
#[export] Hint Resolve quiet_propagate_props : quiet.
Lemma quiet_propagate d m : quiet (propagate d m).
Proof. unfold propagate, props_of. quietly. Qed.
Lemma quiet_belongs b s d : quiet (belongs b s d).
Proof. unfold belongs. quietly. Qed.
#[export] Hint Resolve quiet_propagate quiet_belongs : quiet.
Lemma quiet_validate t s : quiet (menu_validate_number t s).
Proof. unfold menu_validate_number. quietly. Qed.
#[export] Hint Resolve quiet_validate : quiet.
Lemma quiet_sym_check_prop s : quiet (sym_check_prop s).
Proof. unfold sym_check_prop, check_default, check_select, check_range. quietly. Qed.
#[export] Hint Resolve quiet_sym_check_prop : quiet.
Lemma quiet_warn_symbol p s : quiet (warn_symbol p s).
Proof. unfold warn_symbol. quietly. Qed.
Lemma quiet_not_optional p s : quiet (not_optional p s).
Proof. unfold not_optional. quietly. Qed.
Lemma quiet_check_choice_value m c v : quiet (check_choice_value m c v).
Proof. unfold check_choice_value. quietly. Qed.
#[export] Hint Resolve quiet_warn_symbol quiet_not_optional quiet_check_choice_value : quiet.
Lemma quiet_choice_value m c : quiet (choice_value m c).
Proof. unfold choice_value, require_yes. quietly. Qed.
#[export] Hint Resolve quiet_choice_value : quiet.

(** ** Rearranging *)

Lemma tree_size st st' l : moved l st st' -> size (menus (heap st')) = size (menus (heap st)).
Proof.
  intros (_ & Hd & _). unfold skeleton in Hd. rewrite !dom_fmap_L in Hd.
  pose proof (size_dom (menus (heap st'))) as H1. pose proof (size_dom (menus (heap st))) as H2. congruence.
Qed.
Lemma wp_list_fuel (Q : nat -> pstate -> Prop) st : Q (S (size (menus (heap st)))) st -> wp list_fuel Q st.
Proof. done. Qed.

(** Writing a member of an entry. *)
Lemma wp_set_links m f k (Q : unit -> pstate -> Prop) st l : skeleton st !! m = Some k -> m ∈ l ->
  (forall e, links_of e = k -> links_of (f e) = links_of (f e)) ->
  (forall st' e, links_of e = k -> skeleton st' = <[m := links_of (f e)]> (skeleton st) -> moved l st st' -> Q tt st') ->
  wp (mod_menu m f) Q st.
Proof.
  intros E Hm _ HQ. apply wp_mod_menu. intros e Ee.
  assert (Hk : links_of e = k) by (unfold skeleton in E; rewrite lookup_fmap, Ee in E; by injection E).
  apply (HQ _ e); [done|apply skeleton_insert|]. apply moved_insert; [done|]. by rewrite E.
Qed.

(** The entries of a list under another parent. *)
Lemma wp_reparent st pp f p m n : seg (skeleton st) pp f None -> NoDup (preorder f) -> first f = Some m ->
  (length (preorder f) <= n)%nat ->
  wp (reparent n p m) (fun l st' => last_root f = Some l /\ seg (skeleton st') (Some p) f None /\
    moved (preorder f) st st') st.
Proof.
  intros Hs N. revert st m n Hs. induction f as [|m c _ r IH]; intros st m' [|n] Hs; try done; [cbn; lia|].
  intros [= <-] Hn. cbn [reparent]. pose proof Hs as (E & Hc & Hr). pose proof N as N0.
  cbn in N0. apply NoDup_cons in N0 as [Hm N0]. apply NoDup_app in N0 as (Nc & Hd & Nr).
  apply wp_bind. eapply (wp_set_links m _ _ _ _ (preorder (Entry m c r)) E); [by left|done|].
  cbn beta. intros st1 e1 Ek Hsk M. unfold links_of in Ek. injection Ek as Ep El En.
  assert (Hout : forall i, i <> m -> skeleton st1 !! i = skeleton st !! i) by (intros i Hi; by rewrite Hsk, lookup_insert_ne by done).
  assert (E1 : skeleton st1 !! m = Some (mkLinks (Some p) (first c) (first_or r None))).
  { rewrite Hsk, lookup_insert_eq. unfold links_of. cbn. by rewrite El, En. }
  assert (Hc1 : seg (skeleton st1) (Some m) c None).
  { eapply seg_frame; [|done]. intros i Hi. apply Hout. intros ->. apply Hm, elem_of_app. by left. }
  apply wp_bind, wp_the_menu. intros e _ E2. rewrite E1 in E2. injection E2 as _ _ Enext. rewrite <- Enext.
  destruct r as [|m2 c2 r2].
  - apply wp_ret. cbn. done.
  - cbn [first_or]. specialize (IH Nr st1 m2 n).
    assert (Hn2 : (length (preorder (Entry m2 c2 r2)) <= n)%nat).
    { change (preorder (Entry m c (Entry m2 c2 r2))) with (m :: preorder c ++ preorder (Entry m2 c2 r2)) in Hn.
      cbn [length] in Hn. rewrite length_app in Hn. lia. }
    cbn [first] in IH. eapply wp_mono; [apply IH|].
    + eapply seg_frame; [|done]. intros i Hi. apply Hout. intros ->. apply Hm, elem_of_app. by right.
    + done.
    + exact Hn2.
    + cbn beta. intros l st2 (Hl & S2 & M2). split_and!.
      * cbn [last_root]. cbn in Hl. by rewrite Hl.
      * destruct M2 as (M2 & _). refine (conj _ (conj _ S2)).
        -- rewrite M2; [exact E1|]. intros Hin. apply Hm, elem_of_app. by right.
        -- eapply seg_frame; [|done]. intros i Hi. apply M2. by apply Hd.
      * eapply moved_trans; [done|]. eapply moved_mono; [|done]. cbn [preorder]. intros i Hi. right. apply elem_of_app. by right.
Qed.

Lemma flatten_reorders p x c r : reorders (Some p) (Entry x c r) (flatten p x).
Proof.
  intros st Ht. pose proof Ht as (E & Tc & Tr & N1 & N2 & N3)%tree_entry. unfold flatten.
  apply wp_bind, wp_the_menu. intros me _ Em. rewrite E in Em. injection Em as Ep El En.
  assert (Hq : quiet (match m_prompt me with Some p => q ← on_heap (prompt_prop p); mret (p_text q) | None => mret None end))
    by quietly.
  apply wp_bind. eapply wp_mono; [apply Hq|]. cbn beta. intros text st0 H0.
  rewrite <- El. pose proof (tree_same _ _ _ _ H0 Ht) as T0.
  assert (Hsame : reorders (Some p) (Entry x c r) (mret tt)) by apply quiet_reorders, quiet_ret.
  assert (Hdone : wp (mret tt : ZM unit) (fun _ st' => moved (preorder (Entry x c r)) st st' /\
    exists f', tree st' (Some p) f' /\ preorder f' = preorder (Entry x c r)) st0).
  { eapply wp_mono; [by apply Hsame|]. cbn beta. intros _ st' (M & H). split; [|done].
    eapply moved_trans; [by apply same_moved|done]. }
  destruct c as [|y cy ry]; cbn [first]; [exact Hdone|]. destruct text as [t|]; [exact Hdone|].
  remember (Entry y cy ry) as c eqn:Hc. assert (Hcl : c <> Leaf) by (by subst). assert (Hy : first c = Some y) by (by subst). rewrite <- ?Hy. clear Hc. clear Hdone Hsame Hq Ht E Tc Tr.
  pose proof T0 as (E & Tc & Tr & _)%tree_entry.
  apply wp_bind, wp_list_fuel. apply wp_bind.
  eapply wp_mono; [apply (wp_reparent st0 (Some x) c p y); [apply Tc|apply Tc|done|]|].
  { pose proof (tree_fuel _ _ _ Tc). lia. }
  cbn beta. intros l st1 (Hl & S1 & M1). pose proof M1 as (F1 & _).
  assert (E1 : skeleton st1 !! x = Some (mkLinks (Some p) (first c) (first r))) by (rewrite F1; done).
  assert (Sr1 : seg (skeleton st1) (Some p) r None).
  { eapply seg_frame; [|apply Tr]. intros i Hi. apply F1. intros Hc. by apply (N3 i). }
  destruct (seg_last _ _ _ _ _ S1 Hl) as (k & Ek & Kn & Kp). pose proof (last_root_in _ _ Hl) as Hin.
  assert (Hxl : x <> l) by (intros ->; done).
  apply wp_bind. eapply (wp_set_links l _ _ _ _ (preorder (Entry x c r)) Ek); [right; apply elem_of_app; by left|done|].
  cbn beta. intros st2 el Hel Hsk2 M2. rewrite <- En in *.
  assert (Hel2 : links_of (set_next (first r) el) = with_next (first r) k) by (unfold links_of in *; cbn; by rewrite <- Hel).
  rewrite Hel2 in Hsk2.
  assert (S2 : seg (skeleton st2) (Some p) c (first r)).
  { rewrite Hsk2. eapply seg_relast; [done|apply Tc|done|done]. }
  assert (E2 : skeleton st2 !! x = Some (mkLinks (Some p) (first c) (first r))).
  { rewrite Hsk2, lookup_insert_ne; done. }
  apply wp_bind. eapply (wp_set_links x _ _ _ _ (preorder (Entry x c r)) E2); [left|done|].
  cbn beta. intros st3 e3 He3 Hsk3 M3.
  assert (E3 : skeleton st3 !! x = Some (mkLinks (Some p) (first c) (first c))).
  { rewrite Hsk3, lookup_insert_eq. unfold links_of in *. cbn. injection He3 as -> -> _. done. }
  eapply (wp_set_links x _ _ _ _ (preorder (Entry x c r)) E3); [left|done|].
  cbn beta. intros st4 e4 He4 Hsk4 M4.
  assert (E4 : skeleton st4 !! x = Some (mkLinks (Some p) None (first c))).
  { rewrite Hsk4, lookup_insert_eq. unfold links_of in *. cbn. injection He4 as -> _ ->. done. }
  assert (Hout : forall i, i <> x -> skeleton st4 !! i = skeleton st2 !! i).
  { intros i Hi. rewrite Hsk4, Hsk3, !lookup_insert_ne by done. done. }
  assert (Hpre : preorder (Entry x Leaf (fapp c r)) = preorder (Entry x c r)) by (cbn [preorder app]; by rewrite preorder_fapp).
  split.
  - eapply moved_trans; [by apply same_moved|]. eapply moved_trans; [eapply moved_mono; [|exact M1]|].
    + intros i Hi. right. apply elem_of_app. by left.
    + eapply moved_trans; [exact M2|]. eapply moved_trans; [exact M3|exact M4].
  - exists (Entry x Leaf (fapp c r)). split; [|exact Hpre]. split; [|rewrite Hpre; apply T0].
    refine (conj _ (conj I _)).
    + rewrite E4, first_or_None, first_fapp. by destruct c.
    + rewrite seg_fapp. split.
      * rewrite first_or_None. eapply seg_frame; [|exact S2]. intros i Hi. apply Hout. by intros ->.
      * eapply seg_frame; [|exact Sr1]. intros i Hi. rewrite Hout by (by intros ->).
        rewrite Hsk2. apply lookup_insert_ne. intros ->. by apply (N3 i).
Qed.

(** ** Adopting the entries behind *)

Section Adopt.
Variables (finalize : menuref -> ZM unit) (N : nat).
Hypothesis Hfin : forall pp x c r, (length (preorder (Entry x c r)) <= N)%nat -> reorders pp (Entry x c r) (finalize x).

Lemma wp_adopt parent s basedep pp : forall n r last st, tree st pp r -> (length (preorder r) <= n)%nat ->
  (length (preorder r) <= N)%nat ->
  wp (adopt finalize n parent s basedep last (first r)) (fun res st' =>
    moved (preorder r) st st' /\ exists g r', preorder g ++ preorder r' = preorder r /\
    seg (skeleton st') (Some parent) g (first r') /\ seg (skeleton st') pp r' None /\
    res = match last_root g with None => last | l => l end) st.
Proof.
  induction n as [|n IH]; intros [|x c r] last st Ht Hn HN; try (cbn in Hn; lia).
  1,2: apply wp_ret; split; [by apply same_moved|]; by exists Leaf, Leaf.
  cbn [adopt first]. apply wp_bind, wp_the_menu. intros me _ Em.
  assert (Hq : quiet (match m_prompt me with Some _ => prompt_expr me | None => mret (m_dep me) end)) by quietly.
  apply wp_bind. eapply wp_mono; [apply Hq|]. cbn beta. intros dep st1 H1.
  apply wp_bind. eapply wp_mono; [apply quiet_belongs|]. cbn beta. intros ok st2 H2.
  assert (H12 : same st st2) by (by etransitivity). clear H1 H2 Hq.
  pose proof (tree_same _ _ _ _ H12 Ht) as T2. destruct ok.
  2: { apply wp_ret. split; [by apply same_moved|]. exists Leaf, (Entry x c r). split_and!; try done. apply T2. }
  apply wp_bind. eapply wp_mono; [by apply (Hfin pp x c r HN)|]. cbn beta. intros _ st3 (M3 & f3 & T3 & P3).
  destruct f3 as [|x3 c3 r3]; [done|]. cbn [preorder] in P3. injection P3 as -> P3.
  pose proof T3 as (E3 & Tc & Tr & N1 & N2 & N3)%tree_entry.
  apply wp_bind. eapply (wp_set_links x _ _ _ _ [x] E3); [by left|done|].
  cbn beta. intros st4 e4 He4 Hsk4 M4.
  assert (E4 : skeleton st4 !! x = Some (mkLinks (Some parent) (first c3) (first r3))).
  { rewrite Hsk4, lookup_insert_eq. unfold links_of in *. cbn. injection He4 as _ -> ->. done. }
  apply wp_bind, wp_the_menu. intros e _ E5. rewrite E4 in E5. injection E5 as _ _ Enext. rewrite <- Enext.
  pose proof (tree_moved _ _ _ _ _ M4 ltac:(intros i Hi ->%list_elem_of_singleton; done) Tr) as Tr4.
  assert (Hlen : (length (preorder r3) <= length (preorder c ++ preorder r))%nat) by (rewrite <- P3, length_app; lia).
  eapply wp_mono; [apply (IH r3 (Some x) st4 Tr4); [cbn in Hn; lia|cbn in HN; lia]|].
  cbn beta. intros res st5 (M5 & g & r' & P5 & Sg & Sr & ->). pose proof M5 as (F5 & _). split.
  - eapply moved_trans; [by apply same_moved|]. eapply moved_trans; [exact M3|].
    eapply moved_trans; [eapply moved_mono; [|exact M4]; intros i ->%list_elem_of_singleton; by left|].
    eapply moved_mono; [|exact M5]. cbn. rewrite <- P3. intros i Hi. right. apply elem_of_app. by right.
  - exists (Entry x c3 g), r'. split_and!; [| |done|].
    + cbn. by rewrite <- app_assoc, P5, P3.
    + refine (conj _ (conj _ Sg)).
      * rewrite F5 by done. rewrite E4. do 2 f_equal. rewrite first_head, <- P5. by destruct g, r'.
      * eapply seg_frame; [|apply Tc]. intros i Hi. rewrite F5 by (by apply N3).
        rewrite Hsk4. apply lookup_insert_ne. by intros ->.
    + cbn. by destruct (last_root g).
Qed.

Lemma implicit_finalized m s pp r st : (length (preorder r) <= N)%nat -> tree st pp (Entry m Leaf r) ->
  wp (implicit_menu finalize m s) (fun _ st' => finalized st pp (Entry m Leaf r) st') st.
Proof.
  intros HN Ht. unfold implicit_menu. apply wp_bind, wp_list_fuel. apply wp_bind, wp_the_menu. intros pe _ Ep.
  pose proof Ht as (E & _ & _ & _ & N2 & _)%tree_entry. rewrite E in Ep. injection Ep as _ _ En. rewrite <- En.
  apply wp_bind. eapply wp_mono; [apply quiet_prompt_expr|]. cbn beta. intros vis st1 H1.
  apply wp_bind. eapply wp_mono; [apply quiet_transform|]. cbn beta. intros b1 st2 H2.
  apply wp_bind. eapply wp_mono; [apply quiet_dups|]. cbn beta. intros b2 st3 H3.
  assert (H03 : same st st3) by (do 2 (etransitivity; [done|]); done). clear H1 H2 H3.
  pose proof (tree_same _ _ _ _ H03 Ht) as T3. pose proof T3 as (E3 & _ & Tr & _)%tree_entry.
  pose proof (tree_fuel _ _ _ Tr) as Hfuel. rewrite <- (tree_size st st3 [] (same_moved _ _ _ H03)).
  apply wp_bind. eapply wp_mono; [apply (wp_adopt m s b2 pp _ r None st3 Tr); lia|].
  cbn beta. intros last st4 (M4 & g & r' & P4 & Sg & Sr & ->).
  assert (Hfin' : forall st5, moved (m :: preorder r) st3 st5 -> tree st5 pp (Entry m g r') ->
    wp (pe ← the_menu m; change_sym s (fun y => set_dir_dep (expr_alloc_or (dir_dep y) (m_dep pe)) y))
      (fun _ st' => finalized st pp (Entry m Leaf r) st') st5).
  { intros st5 M5 T5. assert (Hq : quiet (pe ← the_menu m; change_sym s (fun y => set_dir_dep (expr_alloc_or (dir_dep y) (m_dep pe)) y)))
      by quietly.
    eapply wp_mono; [apply Hq|]. cbn beta. intros _ st6 H6. split.
    - eapply moved_trans; [by apply same_moved|]. eapply moved_trans; [exact M5|by apply same_moved].
    - exists (Entry m g r'). split_and!; [by eapply tree_same|cbn; by rewrite P4|].
      cbn. intros ->. cbn in P4. by destruct g, r'. }
  pose proof M4 as (F4 & _).
  assert (E4 : skeleton st4 !! m = Some (mkLinks pp None (first r))) by (by rewrite F4).
  assert (Hnd : NoDup (preorder (Entry m g r'))) by (cbn; rewrite P4; apply T3).
  pose proof Hnd as Hnd2. cbn in Hnd2. apply NoDup_cons in Hnd2 as [Hm Hnd2]. apply NoDup_app in Hnd2 as (Ng & Hd & Nr').
  destruct (last_root g) as [l|] eqn:El.
  2: { apply last_root_None in El as ->. cbn in P4. apply wp_bind, wp_ret. apply Hfin'.
       - eapply moved_mono; [|exact M4]. intros i Hi. by right.
       - split; [|done]. refine (conj _ (conj I Sr)). rewrite E4, first_or_None. do 2 f_equal. by apply first_preorder. }
  destruct (seg_last _ _ _ _ _ Sg El) as (k & Ek & Kn & _). pose proof (last_root_in _ _ El) as Hin.
  assert (Hfirst : first r = first g) by (rewrite first_head, <- P4; by destruct g).
  assert (Hml : m <> l) by (intros ->; apply Hm, elem_of_app; by left).
  apply wp_bind. apply wp_bind, wp_the_menu. intros le _ Ele. rewrite Ek in Ele. injection Ele as ->.
  apply wp_bind. eapply (wp_set_links m _ _ _ _ [m] E4); [by left|done|].
  cbn beta. intros st5 e5 He5 Hsk5 M5.
  assert (E5 : skeleton st5 !! m = Some (mkLinks pp (first g) (first r))).
  { rewrite Hsk5, lookup_insert_eq. unfold links_of in *. cbn. injection He5 as -> _ ->. by rewrite Hfirst. }
  apply wp_bind. eapply (wp_set_links m _ _ _ _ [m] E5); [by left|done|].
  cbn beta. intros st6 e6 He6 Hsk6 M6. change (m_next le) with (l_next (links_of le)) in Hsk6. rewrite Kn in Hsk6.
  assert (E6 : skeleton st6 !! m = Some (mkLinks pp (first g) (first r'))).
  { rewrite Hsk6, lookup_insert_eq. unfold links_of in *. cbn. injection He6 as -> -> _. done. }
  assert (El6 : skeleton st6 !! l = Some (links_of le)) by (by rewrite Hsk6, Hsk5, !lookup_insert_ne).
  eapply (wp_set_links l _ _ _ _ [l] El6); [by left|done|].
  cbn beta. intros st7 e7 He7 Hsk7 M7.
  assert (Hl7 : links_of (set_next None e7) = with_next None (links_of le)) by (rewrite <- He7; done).
  rewrite Hl7 in Hsk7.
  assert (Hout : forall i, i <> m -> skeleton st6 !! i = skeleton st4 !! i).
  { intros i Hi. by rewrite Hsk6, Hsk5, !lookup_insert_ne. }
  apply Hfin'.
  - assert (Hin2 : [l] ⊆ m :: preorder r) by (intros i ->%list_elem_of_singleton; right; rewrite <- P4; apply elem_of_app; by left).
    assert (Hin3 : [m] ⊆ m :: preorder r) by (intros i ->%list_elem_of_singleton; by left).
    eapply moved_trans; [eapply moved_mono; [|exact M4]; intros i Hi; by right|].
    eapply moved_trans; [exact (moved_mono _ _ _ _ Hin3 M5)|].
    eapply moved_trans; [exact (moved_mono _ _ _ _ Hin3 M6)|exact (moved_mono _ _ _ _ Hin2 M7)].
  - split; [|done]. refine (conj _ (conj _ _)).
    + rewrite Hsk7, lookup_insert_ne by done. by rewrite first_or_None.
    + rewrite Hsk7. eapply seg_relast; [|done|done|done]. eapply seg_frame; [|exact Sg].
      intros i Hi. apply Hout. intros ->. apply Hm, elem_of_app. by left.
    + eapply seg_frame; [|exact Sr]. intros i Hi. rewrite Hsk7, lookup_insert_ne; [apply Hout; intros ->; apply Hm, elem_of_app; by right|].
      intros <-. by apply (Hd l).
Qed.
End Adopt.

(** ** Finalising keeps the order *)

Lemma quiet_choice_types st m s pe f pp : tree st pp f -> first f = m_list pe -> menus (heap st) !! m = Some pe ->
  wp (choice_types m s) (fun _ st' => same st st') st.
Proof.
  intros Ht Hf E. unfold choice_types. apply wp_bind, wp_list_fuel. apply wp_bind, wp_the_menu. intros pe' E' _.
  assert (pe' = pe) as -> by congruence. rewrite <- Hf. pose proof (tree_fuel _ _ _ Ht).
  apply wp_bind. eapply wp_mono; [apply quiet_the_sym|]. cbn beta. intros y st1 H1.
  apply wp_bind. eapply (wp_mono _ (fun _ st' => same st st')).
  - destruct (is_type (type y) S_UNKNOWN); [|by apply wp_ret].
    apply wp_bind. eapply wp_mono; [apply quiet_enter|]. cbn beta. intros _ st2 H2.
    assert (H02 : same st st2) by (by etransitivity).
    apply wp_bind. eapply wp_mono; [apply (quiet_first_type st2 pp f); [by eapply tree_same|lia]|].
    cbn beta. intros t st3 H3. assert (Hq : quiet (match t with Some t => menu_set_type t | None => mret tt end)) by quietly.
    eapply wp_mono; [apply Hq|]. cbn beta. intros _ st4 H4. do 2 (etransitivity; [done|]). done.
  - cbn beta. intros _ st2 H2. eapply wp_mono; [apply (quiet_for_menus st2 pp f); [by eapply tree_same| |lia]|].
    + intros x. quietly.
    + cbn beta. intros _ st3 H3. by etransitivity.
Qed.

(** A list of entries reordered below its parent. *)
Lemma reorders_below m c pp r (k : ZM unit) : reorders (Some m) c k -> forall st, tree st pp (Entry m c r) ->
  wp k (fun _ st' => finalized st pp (Entry m c r) st') st.
Proof.
  intros Hk st Ht. pose proof Ht as (E & Tc & Tr & N1 & N2 & N3)%tree_entry.
  eapply wp_mono; [by apply Hk|]. cbn beta. intros _ st' (M & c' & T' & P).
  assert (Hsub : preorder c ⊆ preorder (Entry m c r)) by (intros i Hi; right; apply elem_of_app; by left).
  split; [exact (moved_mono _ _ _ _ Hsub M)|]. exists (Entry m c' r). split_and!; [|cbn; by rewrite P|done].
  apply tree_entry. rewrite P. destruct M as (M & _). split_and!; try done.
  - rewrite M by done. rewrite E. do 2 f_equal. symmetry. by apply first_preorder.
  - split; [|apply Tr]. eapply seg_frame; [|apply Tr]. intros i Hi. apply M. intros Hc. by apply (N3 i).
Qed.
Lemma reorders_quiet_then pp f {A} (q : ZM A) (k : A -> ZM unit) : quiet q -> (forall a, reorders pp f (k a)) ->
  reorders pp f (q ≫= k).
Proof.
  intros Hq Hk st Ht. apply wp_bind. eapply wp_mono; [apply Hq|]. cbn beta. intros a st1 H1.
  eapply wp_mono; [apply (Hk a st1); by eapply tree_same|]. cbn beta. intros _ st2 (M & H).
  split; [|done]. eapply moved_trans; [by apply same_moved|done].
Qed.
Lemma reorders_then pp f (k k' : ZM unit) : reorders pp f k -> 
  (forall f', preorder f' = preorder f -> reorders pp f' k') -> reorders pp f (k ;; k').
Proof.
  intros Hk Hk' st Ht. apply wp_bind. eapply wp_mono; [by apply Hk|]. cbn beta. intros _ st1 (M1 & f1 & T1 & P1).
  eapply wp_mono; [by apply (Hk' f1)|]. cbn beta. intros _ st2 (M2 & f2 & T2 & P2). split.
  - eapply moved_trans; [done|]. by rewrite <- P1.
  - exists f2. split; [done|congruence].
Qed.
Lemma preorder_entry f m l : preorder f = m :: l -> exists c r, f = Entry m c r.
Proof. destruct f as [|m' c r]; [done|]. intros [= -> _]. eauto. Qed.

Lemma quiet_parent_dep st m pe f pp : tree st pp f -> first f = m_list pe -> menus (heap st) !! m = Some pe ->
  wp (parent_dep m pe) (fun _ st' => same st st') st.
Proof.
  intros Ht Hf E. unfold parent_dep.
  assert (Hq : quiet (match m_prompt pe with Some _ => prompt_expr pe | None => mret (m_dep pe) end)) by quietly.
  destruct (m_sym pe) as [s|]; [|apply Hq].
  apply wp_bind. unfold the_sym, wp, on_heap, get_sym, mbind, PM_bind, pget, plift.
  destruct (syms (heap st) !! s) as [y|]; [|done]. cbn.
  replace (set_heap (heap st) st) with st by (by destruct st). change (wp (if sym_is_choice y
    then choice_types m s;; mret (Some (expr_alloc_symbol s))
    else match m_prompt pe with Some _ => prompt_expr pe | None => mret (m_dep pe) end) (fun _ st' => same st st') st).
  destruct (sym_is_choice y); [|apply Hq]. apply wp_bind. eapply wp_mono; [by eapply quiet_choice_types|].
  cbn beta. intros _ st1 H1. by apply wp_ret.
Qed.
Lemma explicit_reorders fin n m c r pp : (forall pp x c r, (length (preorder (Entry x c r)) <= n)%nat -> reorders pp (Entry x c r) (fin x)) ->
  (length (preorder c) <= n)%nat -> forall st pe, tree st pp (Entry m c r) -> menus (heap st) !! m = Some pe ->
  wp (explicit_menu fin m pe) (fun _ st' => finalized st pp (Entry m c r) st') st.
Proof.
  intros Hfin Hn st pe Ht Epe. unfold explicit_menu. pose proof Ht as (E & Tc & _)%tree_entry.
  unfold skeleton in E. rewrite lookup_fmap, Epe in E. injection E as _ El _.
  apply wp_bind. eapply wp_mono; [by eapply quiet_parent_dep|]. cbn beta. intros d st1 H1.
  pose proof (tree_same _ _ _ _ H1 Ht) as T1. rewrite El.
  apply wp_bind, wp_list_fuel. pose proof (tree_fuel _ _ _ Tc). rewrite (tree_size st st1 [] (same_moved _ _ _ H1)).
  eapply (wp_mono _ (fun _ st' => finalized st1 pp (Entry m c r) st')).
  2: { cbn beta. intros _ st' (M & H'). split; [|done]. eapply moved_trans; [by apply same_moved|done]. }
  apply (reorders_below m c pp r); [|done]. apply reorders_then.
  - intros st2 T2. eapply wp_mono; [apply (quiet_for_menus st2 (Some m) c); [done|intros x; apply quiet_propagate|lia]|].
    cbn beta. intros _ st3 H3. split; [by apply same_moved|]. exists c. split; [by eapply tree_same|done].
  - intros c' P'. rewrite <- (first_preorder _ _ P'). apply (for_menus_reorders _ _ n); [|rewrite P'; lia..].
    intros x cx rx Hx. by apply Hfin.
Qed.

Lemma finalized_trans st1 st2 st3 pp f f1 : moved (preorder f) st1 st2 -> preorder f1 = preorder f ->
  (rest f = Leaf -> rest f1 = Leaf) -> finalized st2 pp f1 st3 -> finalized st1 pp f st3.
Proof.
  intros M P R (M' & f' & T' & P' & R'). rewrite P in M'. split; [by eapply moved_trans|].
  exists f'. split_and!; [done|congruence|auto].
Qed.
Lemma finalized_reorders pp f m : (forall st, tree st pp f -> wp m (fun _ st' => finalized st pp f st') st) -> reorders pp f m.
Proof. intros H st Ht. eapply wp_mono; [by apply H|]. cbn beta. intros _ st' (M & f' & T & P & _). split; [done|by exists f']. Qed.

Lemma menu_finalize_finalized : forall n pp m c r st, (length (preorder (Entry m c r)) <= n)%nat ->
  tree st pp (Entry m c r) -> wp (menu_finalize n m) (fun _ st' => finalized st pp (Entry m c r) st') st.
Proof.
  induction n as [|n IH]; intros pp m c r st Hn; [cbn in Hn; lia|]. cbn [menu_finalize]. unfold finalize_body.
  intros Ht. pose proof Ht as (E & Tc & Tr & N1 & N2 & N3)%tree_entry. cbn in Hn. rewrite length_app in Hn.
  assert (Hfin : forall pp x c r, (length (preorder (Entry x c r)) <= n)%nat -> reorders pp (Entry x c r) (menu_finalize n x)).
  { intros pp' x cx rx Hx. apply finalized_reorders. intros st' T'. by apply IH. }
  apply wp_bind, wp_the_menu. intros pe Epe Em. rewrite E in Em. injection Em as Ep El En.
  apply wp_bind. eapply (wp_mono _ (fun _ st' => finalized st pp (Entry m c r) st')).
  - rewrite <- El. destruct (first c) as [c0|] eqn:Ec.
    + apply (explicit_reorders _ n); [done|lia|done|done].
    + assert (c = Leaf) as -> by (by destruct c). destruct (m_sym pe) as [s|].
      * apply (implicit_finalized _ n); [done|lia|done].
      * apply wp_ret. split; [by apply same_moved|]. by exists (Entry m Leaf r).
  - cbn beta. intros _ st1 (M1 & f1 & T1 & P1 & R1). destruct (preorder_entry _ _ _ P1) as (c1 & r1 & ->).
    apply wp_bind, wp_list_fuel. pose proof T1 as (E1 & Tc1 & _)%tree_entry.
    apply wp_bind, wp_the_menu. intros pe1 _ Em. rewrite E1 in Em. injection Em as _ El1 _. rewrite <- El1.
    pose proof (tree_fuel _ _ _ Tc1).
    assert (Htail : quiet (match m_sym pe1 with Some s => warn_symbol m s;; not_optional m s | None => mret tt end)) by quietly.
    apply wp_bind. eapply wp_mono.
    + apply (reorders_below m c1 pp r1); [|done].
      apply (for_menus_reorders _ _ (length (preorder c1))); [|lia..]. intros x cx rx _. unfold settle.
      apply reorders_quiet_then; [apply quiet_the_menu|]. intros pe2. apply reorders_then.
      * apply quiet_reorders. quietly.
      * intros f' P'. destruct (preorder_entry _ _ _ P') as (cx' & rx' & ->). apply flatten_reorders.
    + cbn beta. intros _ st2 F2. eapply wp_mono; [apply Htail|]. cbn beta. intros _ st3 H3.
      apply (finalized_trans st st1 st3 pp (Entry m c r) (Entry m c1 r1) M1 P1 R1).
      destruct F2 as (M2 & f2 & T2 & P2 & R2). split; [eapply moved_trans; [done|by apply same_moved]|].
      exists f2. split_and!; [by eapply tree_same|done|done].
Qed.

(** The root entry and the forest below it. *)
Definition menu_tree (k : kstate) (f : forest) : Prop :=
  (exists root, menus k !! rootmenu = Some root /\ m_list root = first f /\ m_next root = None /\ m_parent root = None) /\
  linked (menus k) rootmenu f /\ NoDup (rootmenu :: preorder f).
Lemma menu_tree_tree st f : menu_tree (heap st) f <-> tree st None (Entry rootmenu f Leaf).
Proof.
  unfold menu_tree, tree. rewrite linked_seg. cbn [seg preorder first_or]. rewrite app_nil_r.
  fold (skeleton st). unfold skeleton at 2. rewrite lookup_fmap. split.
  - intros ((root & -> & El & En & Ep) & L & N). split_and!; try done. cbn. unfold links_of. by rewrite El, En, Ep.
  - intros ((E & L & _) & N). split_and!; try done. destruct (menus (heap st) !! rootmenu) as [root|]; [|done].
    injection E as Ep El En. by exists root.
Qed.

(** See [menu_finalize_order] in KParseFacts. *)
Lemma menu_finalize_tree st f n : menu_tree (heap st) f -> (size (menus (heap st)) <= n)%nat ->
  wp (menu_finalize n rootmenu) (fun _ st' => exists f', menu_tree (heap st') f' /\ preorder f' = preorder f) st.
Proof.
  rewrite menu_tree_tree. intros Ht Hn. pose proof (tree_fuel _ _ _ Ht).
  eapply wp_mono; [apply (menu_finalize_finalized n None rootmenu f Leaf); [lia|done]|]. cbn beta.
  intros _ st' (_ & f1 & T1 & P1 & R1). destruct (preorder_entry _ _ _ P1) as (f' & r & ->).
  specialize (R1 eq_refl). cbn in R1. subst r. exists f'. split; [by apply menu_tree_tree|].
  injection P1 as P1. by rewrite !app_nil_r in P1.
Qed.

Definition pointers (k : kstate) : gmap menuref links := links_of <$> menus k.

(** Values, marks and counters are no part of the pointers. *)
Lemma alter_pointers f m (ms : gmap menuref menu) : (forall e, links_of (f e) = links_of e) ->
  links_of <$> alter f m ms = links_of <$> ms.
Proof.
  intros Hf. apply map_eq. intros i. rewrite !lookup_fmap. destruct (decide (m = i)) as [->|Hm].
  - rewrite lookup_alter_eq. destruct (ms !! i); [|done]. cbn. by rewrite Hf.
  - by rewrite lookup_alter_ne.
Qed.
#[export] Instance pointers_stable : Stable pointers.
Proof.
  split; try done.
  - intros l k. unfold pointers, upd_menus. cbn. generalize (menus k) as ms. induction l as [|m l IH]; intros ms; [done|].
    cbn. by rewrite IH, alter_pointers.
  - intros t m k. unfold pointers, upd_menus. cbn. by apply alter_pointers.
Qed.
(** [tame m]: a result of [m] has the pointers [m] started with. *)
Abbreviation tame := (preserves pointers).

Lemma tame_mod_sym s f : tame (mod_sym s f).
Proof. unfold mod_sym. keep. Qed.
Lemma tame_or_flags s f : tame (or_flags s f).
Proof. apply tame_mod_sym. Qed.
Lemma tame_and_not_flags s f : tame (and_not_flags s f).
Proof. apply tame_mod_sym. Qed.
#[export] Hint Resolve tame_mod_sym tame_or_flags tame_and_not_flags : keep.

(** ** The check of the dependencies *)

Lemma tame_stack_insert s : tame (dep_stack_insert s).
Proof. unfold dep_stack_insert. keep. Qed.
Lemma tame_stack_remove : tame dep_stack_remove.
Proof. unfold dep_stack_remove. keep. Qed.
Lemma tame_stack_set i e : tame (stack_set i e).
Proof. unfold stack_set. keep. Qed.
#[export] Hint Resolve tame_stack_insert tame_stack_remove tame_stack_set : keep.
Lemma tame_dep_line d n : tame (dep_line d n).
Proof. unfold dep_line. keep. Qed.
#[export] Hint Resolve tame_dep_line : keep.
Lemma tame_dep_lines l n : tame (dep_lines l n).
Proof. induction l; cbn [dep_lines]; keep. Qed.
#[export] Hint Resolve tame_dep_lines : keep.
Lemma tame_print_recursive s : tame (sym_check_print_recursive s).
Proof. unfold sym_check_print_recursive. keep. Qed.
#[export] Hint Resolve tame_print_recursive : keep.

Section CheckDeps.
Context (check : symref -> KM (option symref)) (Hcheck : forall s, tame (check s)).
#[local] Hint Resolve Hcheck : keep.

Lemma tame_expr_deps e : tame (sym_check_expr_deps check e).
Proof. induction e; cbn [sym_check_expr_deps]; keep. Qed.
#[local] Hint Resolve tame_expr_deps : keep.
Lemma tame_check_opt e : tame (check_expr_opt check e).
Proof. unfold check_expr_opt. keep. Qed.
Lemma tame_check_prop e : tame (check_prop_expr check e).
Proof. unfold check_prop_expr. keep. Qed.
#[local] Hint Resolve tame_check_opt tame_check_prop : keep.
Lemma tame_check_props c i ps : tame (check_props check c i ps).
Proof. revert i. induction ps; intros i; cbn [check_props]; keep. Qed.
#[local] Hint Resolve tame_check_props : keep.
Lemma tame_sym_deps s : tame (sym_check_sym_deps check s).
Proof. unfold sym_check_sym_deps. keep. Qed.
#[local] Hint Resolve tame_sym_deps : keep.
Lemma tame_check_members l : tame (check_members check l).
Proof. induction l; cbn [check_members]; keep. Qed.
#[local] Hint Resolve tame_check_members : keep.
Lemma tame_choice_deps c : tame (sym_check_choice_deps check c).
Proof. unfold sym_check_choice_deps. keep. Qed.
#[local] Hint Resolve tame_choice_deps : keep.
Lemma tame_check_body s : tame (check_deps_body check s).
Proof. unfold check_deps_body. keep. Qed.
End CheckDeps.

Lemma tame_check_deps s : tame (sym_check_deps s).
Proof.
  intros k. unfold sym_check_deps. generalize (2 * unchecked k + 2)%nat as n. intros n. revert s k.
  induction n as [|n IH]; intros s; [apply pres_nofuel|]. by apply tame_check_body.
Qed.

(** ** The title *)

Lemma wp_tame {A} (m : KM A) k : tame m -> wp m (fun _ _ => True) k -> wp m (fun _ k' => pointers k' = pointers k) k.
Proof. unfold wp. intros Hm. destruct (m k) eqn:E; [|done..]. intros _. by eapply Hm. Qed.
Lemma wp_calc_value s k : wp (sym_calc_value s) (fun _ k' => pointers k' = pointers k) k.
Proof.
  apply wp_tame; [apply pres_calc_value, _|]. pose proof (calc_fuel_bounded (S (potential k)) s k ltac:(lia)) as H.
  unfold wp, sym_calc_value in *. by destruct (calc_fuel (S (potential k)) s k).
Qed.
(** [m] ends and keeps the pointers. *)
Definition settled {A} (m : KM A) : Prop := forall k, wp m (fun _ k' => pointers k' = pointers k) k.
Lemma settled_bind {A B} (m : KM A) (f : A -> KM B) : settled m -> (forall a, settled (f a)) -> settled (m ≫= f).
Proof.
  intros Hm Hf k. apply wp_bind. eapply wp_mono; [apply Hm|]. cbn beta. intros a k1 H1.
  eapply wp_mono; [apply Hf|]. cbn beta. congruence.
Qed.
Lemma settled_aside {A} (m : KM A) : aside m -> settled m.
Proof. intros Hm k. eapply wp_mono; [apply Hm|]. cbn beta. unfold pointers. congruence. Qed.
Lemma settled_quiet {A} (m : KM A) : settled m -> quiet (on_heap m).
Proof.
  intros Hm st. unfold wp, on_heap. specialize (Hm (heap st)). unfold wp in Hm.
  destruct (m (heap st)) as [a k'| |]; [|done..]. by unfold same, skeleton.
Qed.
Lemma settled_string_value s : settled (sym_get_string_value s).
Proof.
  unfold sym_get_string_value, sym_get_string_value_with, calc_modules, modules_tri, sval_string.
  apply settled_bind; [apply settled_aside; quietly|intros y].
  destruct (type y); try solve [apply settled_aside; quietly];
    (destruct (sym_get_tristate_value y); [apply settled_aside; quietly| |apply settled_aside; quietly];
     apply settled_bind; [|intros _; apply settled_aside; quietly];
     apply settled_bind; [apply settled_aside; quietly|intros k0]; destruct (modules_sym k0);
     [exact (wp_calc_value _)|apply settled_aside; quietly]).
Qed.
Lemma strchr_shorter c s a b : strchr c s = Some (a, b) -> (String.length b < String.length s)%nat.
Proof.
  revert a. induction s as [|d s IH]; intros a; [done|]. cbn [strchr String.length]. destruct (char_eqb d c).
  - intros [= _ <-]. lia.
  - destruct (strchr c s) as [[a' b']|]; [|done]. intros [= <- <-]. specialize (IH a' eq_refl). lia.
Qed.
Lemma settled_expand n : forall res src, (String.length src < n)%nat -> settled (expand_loop n res src).
Proof.
  induction n as [|n IH]; intros res src Hn; [lia|]. cbn [expand_loop].
  destruct (strchr "$"%char src) as [[a b]|] eqn:Ec; [|apply settled_aside; quietly].
  apply strchr_shorter in Ec. pose proof (span_app name_char b) as Hs. destruct (span name_char b) as [nm tl].
  destruct Hs as [-> _]. rewrite length_app_s in Ec.
  destruct (_ <=? _)%nat; [apply settled_aside; quietly|].
  apply settled_bind; [apply settled_aside; quietly|intros s].
  apply settled_bind; [|intros v; apply IH; lia].
  destruct s as [s|]; [|apply settled_aside; quietly].
  apply settled_bind; [exact (wp_calc_value s)|intros _]. apply settled_string_value.
Qed.
Lemma quiet_expand_title : quiet expand_title.
Proof.
  unfold expand_title. apply quiet_bind; [quietly|intros me]. destruct (m_prompt me) as [[s i|p]|]; [quietly| |quietly].
  apply quiet_bind; [quietly|intros t]. apply quiet_bind; [|intros t'; quietly].
  apply settled_quiet, settled_expand. lia.
Qed.
(** The checks behind the finalisation. *)
Lemma check_one_pointers s st a st' : check_one s st = Ok a st' -> skeleton st' = skeleton st.
Proof.
  unfold check_one, the_sym, on_heap, mbind, PM_bind.
  destruct (get_sym s (heap st)) as [y k1| |] eqn:E; [|done..]. apply (pres_get_sym pointers) in E.
  destruct (is_type (type y) S_OTHER); [by intros [= _ <-]|]. cbn [heap set_heap].
  destruct (sym_check_deps s k1) as [r k2| |] eqn:E2; [|done..]. apply tame_check_deps in E2.
  intros H. change (skeleton st) with (pointers (heap st)). rewrite <- E, <- E2.
  destruct (bool_decide (r <> None)); by injection H as _ <-.
Qed.
Lemma check_all_deps_pointers st a st' : check_all_deps st = Ok a st' -> skeleton st' = skeleton st.
Proof.
  unfold check_all_deps, mbind, PM_bind, pget. generalize (all_symbols (heap st)) as l. intros l. revert st a.
  induction l as [|s l IH]; intros st a; [by intros [= _ <-]|]. cbn [pforeach]. unfold mbind, PM_bind.
  destruct (check_one s st) as [u st1| |] eqn:E; [|done..].
  intros Hl. rewrite (IH _ _ Hl). by eapply check_one_pointers.
Qed.

(** The symbols of a table with few buckets in use. *)
Lemma sparse_buckets (hash : gmap Z (list symref)) (n : nat) : forall a ks, StronglySorted Z.lt ks ->
  (forall k, k ∈ ks -> a <= k < a + Z.of_nat n)%Z -> (forall k, is_Some (hash !! k) -> a <= k < a + Z.of_nat n -> k ∈ ks)%Z ->
  (h ← seqZ a (Z.of_nat n); default [] (hash !! h)) = (h ← ks; default [] (hash !! h)).
Proof.
  induction n as [|n IH]; intros a ks Hs Hin Hall.
  - destruct ks as [|k ks]; [done|]. specialize (Hin k ltac:(by left)). lia.
  - rewrite seqZ_cons by lia. replace (Z.pred (Z.of_nat (S n))) with (Z.of_nat n) by lia. cbn [mbind list_bind].
    destruct (decide (a ∈ ks)) as [Ha|Ha].
    + destruct ks as [|k ks]; [by apply elem_of_nil in Ha|]. inversion_clear Hs as [|? ? Hs' Hlt].
      rewrite Forall_forall in Hlt.
      assert (k = a) as ->.
      { apply elem_of_cons in Ha as [->|Ha]; [done|]. specialize (Hlt a Ha). specialize (Hin k ltac:(by left)). lia. }
      cbn [mbind list_bind]. f_equal. apply IH; [done| |].
      * intros k Hk. specialize (Hlt k Hk). specialize (Hin k ltac:(by right)). lia.
      * intros k Hk Hr. specialize (Hall k Hk ltac:(lia)). apply elem_of_cons in Hall as [->|?]; [lia|done].
    + assert (hash !! a = None) as ->.
      { destruct (hash !! a) eqn:E; [|done]. destruct Ha. apply Hall; [by rewrite E|lia]. }
      apply (IH (Z.succ a) ks); [done| |].
      * intros k Hk. specialize (Hin k Hk). assert (k <> a) by congruence. lia.
      * intros k Hk Hr. apply Hall; [done|lia].
Qed.
Lemma all_symbols_sparse k ks : StronglySorted Z.lt ks -> Forall (fun h => 0 <= h < SYMBOL_HASHSIZE)%Z ks ->
  dom (symbol_hash k) = list_to_set ks -> all_symbols k = (h ← ks; default [] (symbol_hash k !! h)).
Proof.
  rewrite Forall_forall. intros Hs Hr Hd. unfold all_symbols. rewrite <- (Z2Nat.id SYMBOL_HASHSIZE) in * by done.
  apply sparse_buckets; [done|exact Hr|]. intros h Hh _. apply elem_of_dom in Hh. rewrite Hd in Hh. by apply elem_of_list_to_set in Hh.
Qed.
