(* ===== verification/KParseFacts.v ===== *)
(** Reading a Kconfig file builds the forest of its statements, entry by entry; with
    the theorem on finalisation, the menus of a configuration are walked in the order
    of the file. *)
From S2P Require Import Prelude CText KExpr KSym KSymFacts KConf KConfFacts KMenu KParse KMenuFacts.
Local Open Scope list_scope.
Local Open Scope nat_scope.

(** ** The state while a file is read *)

(** Parents are older than their entries, and the entries are numbered. *)
Definition good (st : pstate) : Prop :=
  (forall m k p, skeleton st !! m = Some k -> l_parent k = Some p -> p < m) /\
  dom (skeleton st) = list_to_set (seq 0 (fresh_menu st)).
Definition calm {A} (m : ZM A) : Prop := forall st, good st -> wp m (fun _ st' => same st st') st.

Lemma good_same st st' : same st st' -> good st -> good st'.
Proof. intros (E & _ & _ & Ef). unfold good. by rewrite E, Ef. Qed.
Lemma good_size st : good st -> size (menus (heap st)) = fresh_menu st.
Proof.
  intros [_ Hd]. pose proof (size_dom (skeleton st)) as H. rewrite Hd, size_list_to_set, length_seq in H by apply NoDup_seq.
  unfold skeleton in H. by rewrite map_size_fmap in H.
Qed.
Lemma good_lt st m : good st -> is_Some (skeleton st !! m) <-> m < fresh_menu st.
Proof.
  intros [_ Hd]. rewrite <- elem_of_dom, Hd, elem_of_list_to_set. split.
  - intros H%elem_of_seq. lia.
  - intros H. apply elem_of_seq. lia.
Qed.

Lemma quiet_calm {A} (m : ZM A) : quiet m -> calm m.
Proof. intros Hm st _. apply Hm. Qed.
Lemma calm_bind {A B} (m : ZM A) (f : A -> ZM B) : calm m -> (forall a, calm (f a)) -> calm (m ≫= f).
Proof.
  intros Hm Hf st Hg. apply wp_bind. eapply wp_mono; [by apply Hm|]. cbn. intros a st1 H1.
  eapply wp_mono; [apply Hf; by eapply good_same|]. cbn. intros b st2 H2. by etransitivity.
Qed.
Lemma calm_foreach {A} (f : A -> ZM unit) l : (forall a, calm (f a)) -> calm (pforeach f l).
Proof.
  intros Hf. induction l; [apply quiet_calm, quiet_ret|]. cbn. apply calm_bind; [done|]. by intros [].
Qed.
Create HintDb calm discriminated.
#[export] Hint Extern 5 (calm _) => apply quiet_calm; solve [quietly] : calm.
Ltac calm_step :=
  match goal with
  | |- calm (_ ≫= _) => apply calm_bind; [|intros ?]
  | |- calm (pforeach _ _) => apply calm_foreach; intros ?
  | |- calm (match ?x with _ => _ end) => destruct x
  | |- calm _ => solve [eauto with calm nocore]
  end.
Ltac calmly := repeat (calm_step; cbn beta zeta).

(** ** Quiet and calm actions *)

Lemma calm_add_visibilities n : forall m dep st, good st -> m < n ->
  wp (add_visibilities n m dep) (fun _ st' => same st st') st.
Proof.
  induction n as [|n IH]; intros m dep st Hg Hn; [lia|]. cbn [add_visibilities].
  apply wp_bind, wp_the_menu. intros e _ E. destruct (m_parent e) as [p|] eqn:Ep; [|by apply wp_ret].
  apply wp_bind, wp_the_menu. intros q _ _. apply IH; [done|].
  assert (p < m) by (by eapply (proj1 Hg)). lia.
Qed.
Lemma calm_menu_add_prop t p e d : calm (menu_add_prop t p e d).
Proof.
  unfold menu_add_prop. apply calm_bind; [calmly|intros m]. intros st Hg.
  apply wp_bind, wp_the_menu. intros me Em _. revert st Hg Em.
  assert (Hm : forall k st, good st -> menus (heap st) !! m = Some me -> k = S (size (menus (heap st))) -> m < k).
  { intros k st Hg Em ->. rewrite good_size by done. assert (m < fresh_menu st); [|lia]. apply good_lt; [done|].
    unfold skeleton. rewrite lookup_fmap, Em. by eexists. }
  intros st Hg Em. apply wp_bind. eapply wp_mono; [apply quiet_on_heap, aside_prop_alloc|]. cbn beta. intros q st1 H1.
  apply wp_bind. eapply wp_mono; [apply quiet_menu_check_dep|]. cbn beta. intros vis st2 H2.
  assert (H02 : same st st2) by (by etransitivity). destruct p as [text|].
  2: { assert (Hq : quiet (match q with
         | Some (s, i) => on_heap (mod_prop s i (fun p => {| p_type := p_type p; p_text := None; p_visible := vis;
             p_visible_tri := p_visible_tri p; p_expr := e; p_menu := Some m |}))
         | None => mret tt end)) by quietly.
       eapply wp_mono; [apply Hq|]. cbn beta. intros _ st3 H3. by etransitivity. }
  apply wp_bind. eapply wp_mono; [apply quiet_trim|]. cbn beta. intros text' st3 H3.
  apply wp_bind. eapply wp_mono; [apply quiet_when, quiet_warn|]. cbn beta. intros _ st4 H4.
  apply wp_bind, wp_get. assert (H04 : same st st4) by (do 2 (etransitivity; [done|]); done).
  apply wp_bind. eapply (wp_mono _ (fun _ st' => same st4 st')).
  - destruct (bool_decide (t = P_PROMPT)); [|by apply wp_ret]. apply calm_add_visibilities; [by eapply good_same|].
    rewrite (tree_size st st4 [] (same_moved _ _ _ H04)). by eapply Hm.
  - cbn beta zeta. intros vis' st5 H5.
    assert (Hq : forall p, quiet (match q with
         | Some (s, i) => on_heap (mod_prop s i (fun _ => p));; mod_menu m (set_m_prompt (Some (POf s i)))
         | None => mod_menu m (set_m_prompt (Some (POwn p))) end)) by (intros p; quietly).
    eapply wp_mono; [apply Hq|]. cbn beta. intros _ st6 H6. do 2 (etransitivity; [done|]). done.
Qed.
Lemma calm_add_prompt t p d : calm (menu_add_prompt t p d).
Proof. unfold menu_add_prompt. apply calm_menu_add_prop. Qed.
#[export] Hint Resolve calm_add_prompt : calm.

Lemma quiet_term t : quiet (term_symbol t).
Proof. unfold term_symbol. quietly. Qed.
#[export] Hint Resolve quiet_term : quiet.
Lemma quiet_parse_expr e : quiet (parse_expr e).
Proof. induction e; cbn [parse_expr]; quietly. Qed.
#[export] Hint Resolve quiet_parse_expr : quiet.
Lemma quiet_parse_if e : quiet (parse_if e).
Proof. unfold parse_if. quietly. Qed.
Lemma quiet_add_dep e : quiet (menu_add_dep e).
Proof. unfold menu_add_dep. quietly. Qed.
Lemma quiet_add_visibility e : quiet (menu_add_visibility e).
Proof. unfold menu_add_visibility. quietly. Qed.
#[export] Hint Resolve quiet_parse_if quiet_add_dep quiet_add_visibility : quiet.
Lemma quiet_add_depends e : quiet (add_depends e).
Proof. unfold add_depends. quietly. Qed.
Lemma quiet_add_help t : quiet (add_help t).
Proof. unfold add_help. quietly. Qed.
Lemma quiet_error t : quiet (zconf_error t).
Proof. unfold zconf_error. apply quiet_bind; [apply quiet_warn|]. intros []. by apply quiet_modify. Qed.
#[export] Hint Resolve quiet_add_depends quiet_add_help quiet_error : quiet.
Lemma quiet_add_option g t a : quiet (menu_add_option g t a).
Proof.
  unfold menu_add_option. do 3 (apply quiet_bind; [quietly|intros ?]). destruct t; [quietly| |quietly].
  destruct (sym_defconfig_list _); [quietly|by apply quiet_modify].
Qed.
#[export] Hint Resolve quiet_add_option : quiet.
Lemma calm_prompt_opt p : calm (prompt_opt p).
Proof. unfold prompt_opt. destruct p as [[t c]|]; calmly. Qed.
#[export] Hint Resolve calm_prompt_opt : calm.
Lemma calm_config_option g o : calm (run_config_option g o).
Proof. destruct o; cbn [run_config_option]; calmly. Qed.
Lemma calm_choice_option o : calm (run_choice_option o).
Proof. destruct o; cbn [run_choice_option]; calmly. Qed.
Lemma quiet_menuconfig : quiet menuconfig_prompt.
Proof. unfold menuconfig_prompt. quietly. Qed.
#[export] Hint Resolve calm_config_option calm_choice_option : calm.
#[export] Hint Resolve quiet_menuconfig : quiet.

(** ** The current entry *)

(** Actions on the current entry do not leave it. *)
Definition still {A} (m : ZM A) : Prop := forall st a st', m st = Ok a st' -> current_entry st' = current_entry st.
Lemma still_bind {A B} (m : ZM A) (f : A -> ZM B) : still m -> (forall a, still (f a)) -> still (m ≫= f).
Proof.
  intros Hm Hf st b st'. unfold mbind, PM_bind. destruct (m st) as [a st1| |] eqn:E; [|done..].
  intros H. transitivity (current_entry st1); [by eapply Hf|by eapply Hm].
Qed.
Lemma still_ret {A} (a : A) : still (mret a).
Proof. by intros st b st' [= _ <-]. Qed.
Lemma still_get : still pget.
Proof. by intros st b st' [= _ <-]. Qed.
Lemma still_lift {A} (o : option A) : still (plift o).
Proof. intros st b st'. unfold plift. destruct o; [|done]. by intros [= _ <-]. Qed.
Lemma still_fault {A} : still (pfault : ZM A).
Proof. done. Qed.
Lemma still_nofuel {A} : still (pnofuel : ZM A).
Proof. done. Qed.
Lemma still_on_heap {A} (m : KM A) : still (on_heap m).
Proof. intros st a st'. unfold on_heap. destruct (m (heap st)); [|done..]. by intros [= _ <-]. Qed.
Lemma still_modify f : (forall st, current_entry (f st) = current_entry st) -> still (pmodify f).
Proof. intros Hf st a st' [= _ <-]. apply Hf. Qed.
Lemma still_foreach {A} (f : A -> ZM unit) l : (forall a, still (f a)) -> still (pforeach f l).
Proof. intros Hf. induction l; [apply still_ret|]. cbn. apply still_bind; [done|]. by intros []. Qed.
Lemma wp_still {A} (m : ZM A) Q st : still m -> wp m Q st -> wp m (fun a st' => Q a st' /\ current_entry st' = current_entry st) st.
Proof. unfold wp. intros Hs. destruct (m st) as [a st'| |] eqn:E; [|done..]. intros HQ. split; [done|by eapply Hs]. Qed.
Create HintDb still discriminated.
#[export] Hint Resolve still_ret still_get still_lift still_fault still_nofuel still_on_heap : still.
Ltac still_step :=
  match goal with
  | |- still (_ ≫= _) => apply still_bind; [|intros ?]
  | |- still (pforeach _ _) => apply still_foreach; intros ?
  | |- still (pwhen ?b _) => destruct b; cbn [pwhen]
  | |- still (match ?x with _ => _ end) => destruct x
  | |- still (pmodify _) => apply still_modify; done
  | |- still _ => solve [eauto with still nocore]
  end.
Ltac stilly := repeat (still_step; cbn beta zeta).

Lemma still_the_menu m : still (the_menu m).
Proof. apply still_on_heap. Qed.
Lemma still_mod_menu m f : still (mod_menu m f).
Proof. unfold mod_menu. apply still_bind; [apply still_on_heap|intros ?; apply still_on_heap]. Qed.
Lemma still_the_sym s : still (the_sym s).
Proof. apply still_on_heap. Qed.
Lemma still_change_sym s f : still (change_sym s f).
Proof. apply still_on_heap. Qed.
Lemma still_warn t : still (warn t).
Proof. apply still_on_heap. Qed.
#[export] Hint Resolve still_the_menu still_mod_menu still_the_sym still_change_sym still_warn : still.
Lemma still_add_visibilities n : forall m d, still (add_visibilities n m d).
Proof. induction n as [|n IH]; intros m d; cbn [add_visibilities]; [apply still_nofuel|]. stilly; apply IH. Qed.
#[export] Hint Resolve still_add_visibilities : still.
Lemma still_add_prop t p e d : still (menu_add_prop t p e d).
Proof. unfold menu_add_prop, get_entry, menu_check_dep, trim_prompt. stilly. Qed.
#[export] Hint Resolve still_add_prop : still.
Lemma still_term t : still (term_symbol t).
Proof. apply still_on_heap. Qed.
#[export] Hint Resolve still_term : still.
Lemma still_parse_expr e : still (parse_expr e).
Proof. induction e; cbn [parse_expr]; stilly. Qed.
#[export] Hint Resolve still_parse_expr : still.
Lemma still_parse_if e : still (parse_if e).
Proof. unfold parse_if. stilly. Qed.
#[export] Hint Resolve still_parse_if : still.
Lemma still_set_type t : still (menu_set_type t).
Proof. unfold menu_set_type, get_entry. stilly. Qed.
Lemma still_error t : still (zconf_error t).
Proof. unfold zconf_error. stilly. Qed.
Lemma still_depends e : still (add_depends e).
Proof. unfold add_depends, menu_add_dep, get_entry, menu_check_dep. stilly. Qed.
#[export] Hint Resolve still_set_type still_error still_depends : still.
Lemma still_prompt_opt p : still (prompt_opt p).
Proof. unfold prompt_opt, menu_add_prompt. destruct p as [[? ?]|]; stilly. Qed.
Lemma still_add_option g t a : still (menu_add_option g t a).
Proof. unfold menu_add_option, get_entry. stilly. Qed.
#[export] Hint Resolve still_prompt_opt still_add_option : still.
Lemma still_config_option g o : still (run_config_option g o).
Proof.
  destruct o; cbn [run_config_option]; unfold menu_add_prompt, menu_add_expr, menu_add_symbol, add_help, get_entry; stilly.
Qed.
Lemma still_choice_option o : still (run_choice_option o).
Proof. destruct o; cbn [run_choice_option]; unfold menu_add_prompt, menu_add_symbol, add_help, get_entry; stilly. Qed.
#[export] Hint Resolve still_config_option still_choice_option : still.

(** ** Adding entries *)

Definition with_list (x : option menuref) (k : links) : links := mkLinks (l_parent k) x (l_next k).
Definition slot_owner (s : member) : menuref := match s with MList m | MNext m => m end.
Definition slot_read (s : member) (k : links) : option menuref := match s with MList _ => l_list k | MNext _ => l_next k end.
Definition slot_write (s : member) (x : option menuref) (k : links) : links :=
  match s with MList _ => with_list x k | MNext _ => with_next x k end.

(** [p] is the menu being filled; the place behind its last entry is empty. *)
Record opened (st : pstate) (p : menuref) (k : links) : Prop := {
  op_good : good st;
  op_menu : current_menu st = Some p;
  op_parent : p < fresh_menu st;
  op_slot : skeleton st !! slot_owner (last_entry_ptr st) = Some k;
  op_empty : slot_read (last_entry_ptr st) k = None;
}.

(** The entries from [n] on, for the statements [ss]. *)
Fixpoint number (ss : stmts) (n : menuref) : forest * menuref :=
  match ss with
  | SNil => (Leaf, n)
  | SConfig _ _ _ rest | SComment _ _ rest => let '(r, n') := number rest (S n) in (Entry n Leaf r, n')
  | SChoice _ _ body rest | SMenu _ _ _ body rest | SIf _ body rest =>
      let '(c, n1) := number body (S n) in let '(r, n2) := number rest n1 in (Entry n c r, n2)
  end.
(** How many they are. *)
Fixpoint entries (ss : stmts) : nat :=
  match ss with
  | SNil => 0
  | SConfig _ _ _ rest | SComment _ _ rest => S (entries rest)
  | SChoice _ _ body rest | SMenu _ _ _ body rest | SIf _ body rest => S (entries body + entries rest)
  end.
Lemma number_spec ss : forall n, preorder (fst (number ss n)) = seq n (entries ss) /\ snd (number ss n) = n + entries ss.
Proof.
  assert (Hone : forall rest n, preorder (fst (number rest (S n))) = seq (S n) (entries rest) /\
      snd (number rest (S n)) = S n + entries rest ->
    let '(r, n') := number rest (S n) in preorder (Entry n Leaf r) = seq n (S (entries rest)) /\ n' = n + S (entries rest)).
  { intros rest n [Hp Hk]. destruct (number rest (S n)) as [r n']. cbn in *. rewrite Hp. split; [done|lia]. }
  assert (Htwo : forall body rest n, (forall n, preorder (fst (number body n)) = seq n (entries body) /\
      snd (number body n) = n + entries body) ->
    (forall n, preorder (fst (number rest n)) = seq n (entries rest) /\ snd (number rest n) = n + entries rest) ->
    let '(c, n1) := number body (S n) in let '(r, n2) := number rest n1 in
    preorder (Entry n c r) = seq n (S (entries body + entries rest)) /\ n2 = n + S (entries body + entries rest)).
  { intros body rest n Hb Hr. destruct (Hb (S n)) as [Hp1 Hk1]. destruct (number body (S n)) as [c n1].
    destruct (Hr n1) as [Hp Hk]. destruct (number rest n1) as [r n2]. cbn in *. rewrite Hp1, Hp, Hk1.
    split; [by rewrite seq_app|lia]. }
  induction ss as [|? ? ? rest IH|? ? rest IH|? ? body IHb rest IH|? ? ? body IHb rest IH|? body IHb rest IH];
    intros n; cbn [number entries].
  - cbn. split; [done|lia].
  - specialize (Hone rest n (IH (S n))). by destruct (number rest (S n)).
  - specialize (Hone rest n (IH (S n))). by destruct (number rest (S n)).
  - specialize (Htwo body rest n IHb IH). destruct (number body (S n)) as [c n1]. by destruct (number rest n1).
  - specialize (Htwo body rest n IHb IH). destruct (number body (S n)) as [c n1]. by destruct (number rest n1).
  - specialize (Htwo body rest n IHb IH). destruct (number body (S n)) as [c n1]. by destruct (number rest n1).
Qed.

(** Putting [new] into the open place of [st] gives, up to the entries from
    [fresh_menu st] on, [st']. *)
Definition filled (st : pstate) (k : links) (new : option menuref) (st' : pstate) : Prop :=
  (forall i, i < fresh_menu st -> i <> slot_owner (last_entry_ptr st) -> skeleton st' !! i = skeleton st !! i) /\
  skeleton st' !! slot_owner (last_entry_ptr st) = Some (slot_write (last_entry_ptr st) new k) /\
  current_menu st' = current_menu st.

Lemma slot_write_read s k : slot_write s (slot_read s k) k = k.
Proof. by destruct s, k. Qed.
Lemma slot_read_write s x k : slot_read s (slot_write s x k) = x.
Proof. by destruct s. Qed.
Lemma slot_write_write s x y k : slot_write s x (slot_write s y k) = slot_write s x k.
Proof. by destruct s. Qed.
Lemma slot_parent s x k : l_parent (slot_write s x k) = l_parent k.
Proof. by destruct s. Qed.

Lemma opened_same st st' p k : same st st' -> opened st p k -> opened st' p k.
Proof.
  intros Hs [Hg Hm Hp Hk He]. pose proof Hs as (E & Em & El & Ef). split.
  - by eapply good_same.
  - congruence.
  - by rewrite Ef.
  - by rewrite E, El.
  - by rewrite El.
Qed.

(** One new entry, with an empty list and nothing behind it. *)
Lemma wp_add_entry s st p k : opened st p k ->
  wp (menu_add_entry s) (fun _ st' => filled st k (Some (fresh_menu st)) st' /\ good st' /\
    skeleton st' !! fresh_menu st = Some (mkLinks (Some p) None None) /\
    last_entry_ptr st' = MNext (fresh_menu st) /\ fresh_menu st' = S (fresh_menu st) /\ current_entry st' = fresh_menu st) st.
Proof.
  intros [Hg Hm Hp Hk He]. set (n := fresh_menu st) in *. set (o := slot_owner (last_entry_ptr st)) in *.
  assert (Ho : o < n) by (apply good_lt; [done|eexists; exact Hk]).
  unfold menu_add_entry. apply wp_bind, wp_get. apply wp_bind, wp_modify. apply wp_bind.
  set (st1 := set_fresh (S n) st).
  set (st2 := set_heap (upd_menus (insert n (new_menu s (current_menu st))) (heap st1)) st1).
  change (wp (store_last (Some n);; (pmodify (fun st => set_entry n (set_menu (current_menu st) (MNext n) st));;
    match s with Some s => menu_add_symbol P_SYMBOL s None | None => mret tt end)) (fun _ st' => filled st k (Some n) st' /\ good st' /\
    skeleton st' !! n = Some (mkLinks (Some p) None None) /\
    last_entry_ptr st' = MNext n /\ fresh_menu st' = S n /\ current_entry st' = n) st2).
  assert (Sk2 : skeleton st2 = <[n := mkLinks (Some p) None None]> (skeleton st)).
  { unfold st2. rewrite skeleton_insert. unfold links_of. cbn. by rewrite Hm. }
  assert (Hkn : n <> o) by lia.
  assert (Hk2 : skeleton st2 !! o = Some k) by (by rewrite Sk2, lookup_insert_ne).
  assert (M2 : exists e2, menus (heap st2) !! o = Some e2 /\ links_of e2 = k).
  { unfold skeleton in Hk2. rewrite lookup_fmap in Hk2. destruct (menus (heap st2) !! o) as [e2|]; [|done].
    injection Hk2 as <-. by exists e2. }
  destruct M2 as (e2 & Ee2 & Lk).
  assert (Hstore : exists st3, store_last (Some n) st2 = Ok tt st3 /\ current_menu st3 = Some p /\ fresh_menu st3 = S n /\
    skeleton st3 = <[o := slot_write (last_entry_ptr st) (Some n) k]> (skeleton st2)).
  { unfold store_last, mbind, PM_bind, pget. change (last_entry_ptr st2) with (last_entry_ptr st).
    unfold o in *. destruct (last_entry_ptr st) as [q|q]; cbn [slot_owner] in *;
      unfold mod_menu, the_menu, get_menu, on_heap, mbind, PM_bind, pget, plift; rewrite Ee2; cbn;
      (eexists; split_and!; [reflexivity|done|done|]); unfold skeleton; cbn; rewrite fmap_insert; f_equal;
      unfold links_of in *; cbn; subst k; done. }
  destruct Hstore as (st3 & E3 & C3 & F3 & Sk3). unfold wp. rewrite (run_bind _ _ _ _ _ E3).
  set (st4 := set_entry n (set_menu (current_menu st3) (MNext n) st3)).
  change (wp (match s with Some s => menu_add_symbol P_SYMBOL s None | None => mret tt end) (fun _ st' => filled st k (Some n) st' /\ good st' /\
    skeleton st' !! n = Some (mkLinks (Some p) None None) /\
    last_entry_ptr st' = MNext n /\ fresh_menu st' = S n /\ current_entry st' = n) st4).
  assert (Sk4 : skeleton st4 = <[o := slot_write (last_entry_ptr st) (Some n) k]> (<[n := mkLinks (Some p) None None]> (skeleton st)))
    by (change (skeleton st4) with (skeleton st3); by rewrite Sk3, Sk2).
  assert (Hq : quiet (match s with Some s => menu_add_symbol P_SYMBOL s None | None => mret tt end)) by quietly.
  assert (Hs : still (match s with Some s => menu_add_symbol P_SYMBOL s None | None => mret tt end))
    by (unfold menu_add_symbol; stilly).
  eapply wp_mono; [apply wp_still; [apply Hs|apply Hq]|]. cbn beta. intros _ st5 [(E5 & Em5 & El5 & Ef5) Ec5].
  rewrite E5, Sk4. unfold filled. rewrite E5, Sk4. fold o. fold n. split_and!.
  - intros i Hi Hio. rewrite !lookup_insert_ne by (done || lia). done.
  - by rewrite lookup_insert_eq.
  - rewrite Em5. cbn. by rewrite C3.
  - split.
    + intros m km q Hkm Hq'. rewrite E5, Sk4 in Hkm. destruct (decide (m = o)) as [->|Hmo].
      * rewrite lookup_insert_eq in Hkm. injection Hkm as <-. rewrite slot_parent in Hq'. by eapply (proj1 Hg).
      * rewrite lookup_insert_ne in Hkm by done. destruct (decide (m = n)) as [->|Hmn].
        -- rewrite lookup_insert_eq in Hkm. injection Hkm as <-. cbn in Hq'. injection Hq' as <-. done.
        -- rewrite lookup_insert_ne in Hkm by done. by eapply (proj1 Hg).
    + rewrite E5, Sk4, Ef5. cbn. rewrite F3. destruct Hg as [_ Hd].
      rewrite !dom_insert_L, Hd. fold n. rewrite <- (Nat.add_1_r n), seq_app, list_to_set_app_L. cbn.
      assert (o ∈ (list_to_set (seq 0 n) : gset nat)) by (apply elem_of_list_to_set, elem_of_seq; lia). set_solver.
  - rewrite lookup_insert_ne by done. by rewrite lookup_insert_eq.
  - by rewrite El5.
  - rewrite Ef5. cbn. by rewrite F3.
  - by rewrite Ec5.
Qed.

(** ** Statements *)

(** [st'] is [st] with the forest [f] behind the last entry of the open menu [p]. *)
Record built (st : pstate) (p : menuref) (k : links) (f : forest) (st' : pstate) : Prop := {
  bu_filled : filled st k (first f) st';
  bu_good : good st';
  bu_seg : seg (skeleton st') (Some p) f None;
  bu_last : last_entry_ptr st' = match last_root f with None => last_entry_ptr st | Some l => MNext l end;
}.
(** One entry has been added, with its list [c]. *)
Record entered (st : pstate) (p : menuref) (k : links) (c : forest) (st' : pstate) : Prop := {
  en_filled : filled st k (Some (fresh_menu st)) st';
  en_good : good st';
  en_links : skeleton st' !! fresh_menu st = Some (mkLinks (Some p) (first c) None);
  en_seg : seg (skeleton st') (Some (fresh_menu st)) c None;
  en_last : last_entry_ptr st' = MNext (fresh_menu st);
  en_fresh : fresh_menu st < fresh_menu st';
  en_in : forall i, i ∈ preorder c -> fresh_menu st < i < fresh_menu st';
}.

Lemma slot_lt st p k : opened st p k -> slot_owner (last_entry_ptr st) < fresh_menu st.
Proof. intros [Hg _ _ Hk _]. apply good_lt; [done|]. eexists. exact Hk. Qed.

(** The rest of the statements behind an entry. *)
Lemma entered_built st p k c r st1 st2 : opened st p k -> entered st p k c st1 ->
  built st1 p (mkLinks (Some p) (first c) None) r st2 -> built st p k (Entry (fresh_menu st) c r) st2.
Proof.
  intros Ho [Hf1 Hg1 Hl1 Hs1 Hp1 Hn1 Hi1] [Hf2 Hg2 Hs2 Hp2]. pose proof (slot_lt _ _ _ Ho) as Hlt.
  destruct Hf1 as (F1 & O1 & M1). destruct Hf2 as (F2 & O2 & M2). rewrite Hp1 in F2, O2. cbn [slot_owner] in F2, O2. split.
  - split_and!; [| |congruence].
    + intros i Hi Hne. rewrite F2 by lia. by apply F1.
    + rewrite F2 by lia. done.
  - done.
  - refine (conj _ (conj _ Hs2)).
    + rewrite O2. cbn. by rewrite first_or_None.
    + eapply seg_frame; [|exact Hs1]. intros i Hi. specialize (Hi1 i Hi). apply F2; lia.
  - rewrite Hp2. cbn. rewrite Hp1. by destruct (last_root r).
Qed.
Lemma entered_opened st p k c st1 : opened st p k -> entered st p k c st1 -> opened st1 p (mkLinks (Some p) (first c) None).
Proof.
  intros [Hg Hm Hp _ _] [(_ & _ & Em) Hg1 Hl1 _ Hp1 Hn1 _]. split; [done|congruence|lia|by rewrite Hp1|by rewrite Hp1].
Qed.
Lemma built_nil st p k : opened st p k -> built st p k Leaf st.
Proof.
  intros [Hg Hm Hp Hk He]. split; [|done..]. split_and!; [done| |done]. cbn [first]. rewrite <- He, slot_write_read. exact Hk.
Qed.
Lemma entered_same st p k c st1 st2 : entered st p k c st1 -> same st1 st2 -> entered st p k c st2.
Proof.
  intros [(F & O & M) Hg Hl Hs Hp Hn Hi] H. pose proof H as (E & Em & El & Ef).
  split; [split_and!; rewrite ?E; [done|done|congruence]|by eapply good_same|by rewrite E|by rewrite E|congruence|congruence|by rewrite Ef].
Qed.

(** An entry and its options, of which none changes a pointer. *)
Lemma wp_entry s (opts : ZM unit) st p k : opened st p k -> calm opts -> still opts ->
  wp (menu_add_entry s;; opts) (fun _ st' => entered st p k Leaf st' /\ current_entry st' = fresh_menu st /\
    fresh_menu st' = S (fresh_menu st)) st.
Proof.
  intros Ho Hc Hs. apply wp_bind. eapply wp_mono; [by apply wp_add_entry|]. cbn beta.
  intros _ st1 (F1 & G1 & L1 & P1 & N1 & E1).
  assert (En : entered st p k Leaf st1) by (split; [done|done|done|done|done|lia|by intros i Hi%elem_of_nil]).
  eapply wp_mono; [apply wp_still; [exact Hs|by apply Hc]|]. cbn beta. intros _ st2 [H2 E2].
  split_and!; [by eapply entered_same|congruence|]. destruct H2 as (_ & _ & _ & ->). done.
Qed.

(** A block: the entry becomes the open menu, the body is read, the menu ends. *)
Lemma wp_block (head body : ZM unit) st p k ss : opened st p k ->
  wp head (fun _ st' => entered st p k Leaf st' /\ current_entry st' = fresh_menu st /\ fresh_menu st' = S (fresh_menu st)) st ->
  (forall st1 q k1, opened st1 q k1 -> wp body (fun _ st' => built st1 q k1 (fst (number ss (fresh_menu st1))) st' /\
    fresh_menu st' = snd (number ss (fresh_menu st1))) st1) ->
  wp (head;; (menu_add_menu;; (body;; menu_end_menu))) (fun _ st' =>
    entered st p k (fst (number ss (S (fresh_menu st)))) st' /\ fresh_menu st' = snd (number ss (S (fresh_menu st)))) st.
Proof.
  intros Ho Hhead Hbody. apply wp_bind. eapply wp_mono; [exact Hhead|]. cbn beta. intros _ st1 (En & Ec & Ef).
  set (n := fresh_menu st) in *. unfold menu_add_menu, menu_end_entry, get_entry.
  set (st2 := set_menu (Some n) (MList n) st1).
  assert (E2 : (mret tt;; m ← (st ← pget; mret (current_entry st)); pmodify (set_menu (Some m) (MList m))) st1 = Ok tt st2).
  { unfold mbind, PM_bind, mret, PM_ret, pget, pmodify. by rewrite Ec. }
  unfold wp. rewrite (run_bind _ _ _ _ _ E2). change (wp (body;; menu_end_menu) (fun _ st' =>
    entered st p k (fst (number ss (S n))) st' /\ fresh_menu st' = snd (number ss (S n))) st2).
  pose proof En as [(F1 & O1 & M1) Hg1 Hl1 _ Hp1 _ _]. fold n in Hl1, F1.
  assert (O2 : opened st2 n (mkLinks (Some p) None None)).
  { split; [exact Hg1|done|cbn; rewrite Ef; lia|exact Hl1|done]. }
  apply wp_bind. eapply wp_mono; [by apply Hbody|]. cbn beta. change (fresh_menu st2) with (fresh_menu st1). rewrite Ef.
  destruct (number_spec ss (S n)) as [Hpre Hsnd].
  intros _ st3 ([(F3 & O3 & M3) Hg3 Hs3 _] & N3). cbn [slot_owner st2 set_menu last_entry_ptr] in F3, O3.
  unfold menu_end_menu. apply wp_bind, wp_get. rewrite M3. cbn [current_menu st2 set_menu].
  apply wp_bind. apply wp_lift. intros m [= <-]. apply wp_bind, wp_the_menu. intros e _ Ee.
  change (skeleton st3 !! n = Some (mkLinks (Some p) (first (fst (number ss (S n)))) None)) in O3.
  rewrite O3 in Ee. injection Ee as Ep _ _. rewrite <- Ep. apply wp_modify. fold n in F1, O1.
  pose proof (slot_lt _ _ _ Ho) as Hlt. fold n in Hlt. destruct Ho as [_ Hm _ _ _].
  split; [|done]. split; fold n.
  - split_and!; cbn [current_menu set_menu]; [| |congruence].
    + intros i Hi Hne. change (skeleton (set_menu (Some p) (MNext n) st3)) with (skeleton st3).
      rewrite F3; [by apply F1|cbn; rewrite Ef; lia|lia].
    + change (skeleton (set_menu (Some p) (MNext n) st3)) with (skeleton st3).
      rewrite F3; [exact O1|cbn; rewrite Ef; lia|lia].
  - exact Hg3.
  - exact O3.
  - exact Hs3.
  - done.
  - cbn. rewrite N3, Hsnd. lia.
  - intros i Hi. rewrite Hpre in Hi. apply elem_of_seq in Hi. cbn. rewrite N3, Hsnd. lia.
Qed.

(** [m] reads the statements [ss] behind what has been read. *)
Definition builds (m : ZM unit) (ss : stmts) : Prop := forall st p k, opened st p k ->
  wp m (fun _ st' => built st p k (fst (number ss (fresh_menu st))) st' /\ fresh_menu st' = snd (number ss (fresh_menu st))) st.
(** [m] adds one entry, with the statements [ss] below it. *)
Definition enters (m : ZM unit) (ss : stmts) : Prop := forall st p k, opened st p k ->
  wp m (fun _ st' => entered st p k (fst (number ss (S (fresh_menu st)))) st' /\
    fresh_menu st' = snd (number ss (S (fresh_menu st)))) st.
(** [m] adds one entry and stays at it. *)
Definition adds (m : ZM unit) : Prop := forall st p k, opened st p k ->
  wp m (fun _ st' => entered st p k Leaf st' /\ current_entry st' = fresh_menu st /\ fresh_menu st' = S (fresh_menu st)) st.

Lemma entered_from st0 st p k c st' : same st0 st -> entered st p k c st' -> entered st0 p k c st'.
Proof.
  intros (E & Em & El & Ef) [(F & O & M) Hg Hl Hs Hp Hn Hi]. rewrite ?Ef, ?El, ?E, ?Em in *.
  split; [split_and!|..]; rewrite ?El, ?Ef, ?E, ?Em in *; try done; congruence.
Qed.
Lemma adds_entry s (opts : ZM unit) : calm opts -> still opts -> adds (menu_add_entry s;; opts).
Proof. intros Hc Hs st p k Ho. by apply wp_entry. Qed.
Lemma adds_after {A} (m : ZM A) f : quiet m -> (forall a, adds (f a)) -> adds (m ≫= f).
Proof.
  intros Hm Hf st p k Ho. apply wp_bind. eapply wp_mono; [apply Hm|]. cbn beta. intros a st1 H1.
  eapply wp_mono; [apply Hf; by eapply opened_same|]. cbn beta. intros _ st2 (En & Ec & Ef).
  pose proof H1 as (_ & _ & _ & E1). rewrite E1 in *. split; [by eapply entered_from|done].
Qed.
Lemma adds_enters m : adds m -> enters m SNil.
Proof. intros Hm st p k Ho. eapply wp_mono; [by apply Hm|]. cbn. intros _ st' (? & _ & ?). done. Qed.
Lemma block_enters head body ss : adds head -> builds body ss -> enters (head;; (menu_add_menu;; (body;; menu_end_menu))) ss.
Proof. intros Hh Hb st p k Ho. apply wp_block; [done|by apply Hh|apply Hb]. Qed.
Lemma enters_builds m rest ss rs node : enters m ss -> builds rest rs ->
  (forall n, number node n = let '(c, n1) := number ss (S n) in let '(r, n2) := number rs n1 in (Entry n c r, n2)) ->
  builds (m;; rest) node.
Proof.
  intros Hm Hr Hn st p k Ho. apply wp_bind. eapply wp_mono; [by apply Hm|]. cbn beta. intros _ st1 [En E1].
  eapply wp_mono; [apply Hr; by eapply entered_opened|]. cbn beta. intros _ st2 [Bu E2]. rewrite Hn. rewrite E1 in *.
  destruct (number ss (S (fresh_menu st))) as [c n1]. cbn [fst snd] in *. destruct (number rs n1) as [r n2]. cbn [fst snd] in *.
  split; [by eapply entered_built|done].
Qed.
(** Binds associate, so the actions can be grouped by entry. *)
Lemma builds_group m m' ss : (forall st, m st = m' st) -> builds m' ss -> builds m ss.
Proof. intros E Hm st p k Ho. unfold wp. rewrite E. by apply Hm. Qed.
Lemma bind_assoc {A B C} (m : ZM A) (f : A -> ZM B) (g : B -> ZM C) st :
  ((m ≫= f) ≫= g) st = (m ≫= fun a => f a ≫= g) st.
Proof. unfold mbind, PM_bind. by destruct (m st). Qed.
Ltac group := intros; unfold mbind, PM_bind, mret, PM_ret; repeat case_match; simplify_eq/=; congruence.

Lemma adds_group m m' : (forall st, m st = m' st) -> adds m' -> adds m.
Proof. intros E Hm st p k Ho. unfold wp. rewrite E. by apply Hm. Qed.

(** What each statement does first. *)
Definition config_actions (getenv : string -> option string) (mc : bool) (w : string) (opts : list config_option) : ZM unit :=
  config_entry w;; pforeach (run_config_option getenv) opts;; pwhen mc menuconfig_prompt;; menu_end_entry.
Definition comment_actions (text : string) (deps : list kexpr) : ZM unit :=
  menu_add_entry None;; menu_add_prompt P_COMMENT text None;; pforeach add_depends deps;; menu_end_entry.
Definition choice_actions (w : option string) (opts : list choice_option) : ZM unit :=
  choice_entry_start w;; pforeach run_choice_option opts.
Definition add_visible (v : option kexpr) : ZM unit := e ← parse_if v; menu_add_visibility e.
Definition menu_actions (text : string) (vis : list (option kexpr)) (deps : list kexpr) : ZM unit :=
  menu_add_entry None;; menu_add_prompt P_MENU text None;; pforeach add_visible vis;; pforeach add_depends deps.
Definition if_actions (cond : kexpr) : ZM unit := e ← parse_expr cond; menu_add_entry None;; menu_add_dep (Some e).

Lemma config_adds getenv mc w opts : adds (config_actions getenv mc w opts).
Proof.
  eapply (adds_group _ (s ← on_heap (sym_lookup (Some w) 0); on_heap (or_flags s SYMBOL_OPTIONAL);;
    (menu_add_entry (Some s);; (pforeach (run_config_option getenv) opts;; pwhen mc menuconfig_prompt;; menu_end_entry)))).
  { unfold config_actions, config_entry. group. }
  apply adds_after; [quietly|intros s]. apply adds_after; [quietly|intros _].
  apply adds_entry; [|unfold menuconfig_prompt, menu_end_entry, get_entry; stilly]. unfold menu_end_entry. calmly.
Qed.
Lemma comment_adds text deps : adds (comment_actions text deps).
Proof. apply adds_entry; [|unfold menu_add_prompt, menu_end_entry; stilly]. unfold menu_end_entry. calmly. Qed.
Lemma choice_adds w opts : adds (choice_actions w opts).
Proof.
  eapply (adds_group _ (s ← on_heap (sym_lookup w SYMBOL_CHOICE); on_heap (or_flags s SYMBOL_AUTO);;
    (menu_add_entry (Some s);; (menu_add_expr P_CHOICE None None;; pforeach run_choice_option opts)))).
  { unfold choice_actions, choice_entry_start. group. }
  apply adds_after; [quietly|intros s]. apply adds_after; [quietly|intros _].
  apply adds_entry; [|unfold menu_add_expr; stilly]. calmly.
Qed.
Lemma menu_adds text vis deps : adds (menu_actions text vis deps).
Proof. apply adds_entry; [|unfold menu_add_prompt, add_visible, menu_add_visibility, get_entry; stilly]. unfold add_visible. calmly. Qed.
Lemma if_adds cond : adds (if_actions cond).
Proof.
  apply adds_after; [quietly|intros e]. apply adds_entry; [|unfold menu_add_dep, menu_check_dep, get_entry; stilly]. calmly.
Qed.

(** [run_stmts] by statements. *)
Lemma run_config getenv mc w opts rest st : run_stmts getenv (SConfig mc w opts rest) st =
  (config_actions getenv mc w opts;; run_stmts getenv rest) st.
Proof. cbn [run_stmts]. unfold config_actions. group. Qed.
Lemma run_comment getenv text deps rest st : run_stmts getenv (SComment text deps rest) st =
  (comment_actions text deps;; run_stmts getenv rest) st.
Proof. cbn [run_stmts]. unfold comment_actions. group. Qed.
(** A block: its head, the statements in it, its end. *)
Definition block_actions (getenv : string -> option string) (head : ZM unit) (body : stmts) : ZM unit :=
  head;; (menu_add_menu;; (run_stmts getenv body;; menu_end_menu)).
Lemma run_choice getenv w opts body rest st : run_stmts getenv (SChoice w opts body rest) st =
  (block_actions getenv (choice_actions w opts) body;; run_stmts getenv rest) st.
Proof. cbn [run_stmts]. unfold block_actions, choice_actions, choice_entry. group. Qed.
Lemma run_menu getenv text vis deps body rest st : run_stmts getenv (SMenu text vis deps body rest) st =
  (block_actions getenv (menu_actions text vis deps) body;; run_stmts getenv rest) st.
Proof. cbn [run_stmts]. unfold block_actions, menu_actions, menu_entry, add_visible. group. Qed.
Lemma run_if getenv cond body rest st : run_stmts getenv (SIf cond body rest) st =
  (block_actions getenv (if_actions cond) body;; run_stmts getenv rest) st.
Proof. cbn [run_stmts]. unfold block_actions, if_actions, if_entry. group. Qed.

Lemma run_stmts_builds getenv ss : builds (run_stmts getenv ss) ss.
Proof.
  induction ss as [|mc w opts rest IH|text deps rest IH|w opts body IHb rest IH|text vis deps body IHb rest IH|cond body IHb rest IH].
  - intros st p k Ho. apply wp_ret. cbn. split; [by apply built_nil|done].
  - eapply builds_group; [apply run_config|]. eapply enters_builds; [apply adds_enters, config_adds|exact IH|done].
  - eapply builds_group; [apply run_comment|]. eapply enters_builds; [apply adds_enters, comment_adds|exact IH|done].
  - eapply builds_group; [apply run_choice|].
    eapply enters_builds; [apply block_enters; [apply choice_adds|exact IHb]|exact IH|done].
  - eapply builds_group; [apply run_menu|].
    eapply enters_builds; [apply block_enters; [apply menu_adds|exact IHb]|exact IH|done].
  - eapply builds_group; [apply run_if|].
    eapply enters_builds; [apply block_enters; [apply if_adds|exact IHb]|exact IH|done].
Qed.

(** Behind an entry the same menu is open; in a block the menu of the block is. *)
Definition open_in (st : pstate) (p : menuref) : Prop := exists k, opened st p k.
Lemma adds_open m st p st' : adds m -> open_in st p -> m st = Ok tt st' ->
  open_in st' p /\ current_entry st' = fresh_menu st /\ fresh_menu st' = S (fresh_menu st).
Proof.
  intros Hm [k Ho] E. destruct (wp_Ok _ _ _ _ _ (Hm st p k Ho) E) as (En & Ec & Ef).
  split; [eexists; by eapply entered_opened|done].
Qed.
Lemma head_opens m st p st' : adds m -> open_in st p -> (m;; menu_add_menu) st = Ok tt st' ->
  open_in st' (fresh_menu st) /\ fresh_menu st' = S (fresh_menu st).
Proof.
  intros Hm [k Ho] E. unfold mbind, PM_bind at 1 in E. destruct (m st) as [[] st1| |] eqn:E1; [|done..].
  destruct (wp_Ok _ _ _ _ _ (Hm st p k Ho) E1) as (En & Ec & Ef).
  unfold menu_add_menu, menu_end_entry, get_entry, mbind, PM_bind, mret, PM_ret, pget, pmodify in E.
  rewrite Ec in E. injection E as <-. split; [|exact Ef]. exists (mkLinks (Some p) None None).
  destruct En as [_ Hg1 Hl1 _ _ _ _]. split; [exact Hg1|done|cbn; lia|exact Hl1|done].
Qed.
Lemma body_open getenv ss st p st' : open_in st p -> run_stmts getenv ss st = Ok tt st' ->
  current_menu st' = Some p /\ fresh_menu st <= fresh_menu st'.
Proof.
  intros [k Ho] E. destruct (wp_Ok _ _ _ _ _ (run_stmts_builds getenv ss st p k Ho) E) as [Bu Ef].
  destruct Bu as [(_ & _ & Em) _ _ _]. destruct (number_spec ss (fresh_menu st)) as [_ Hn].
  split; [rewrite Em; by destruct Ho|]. rewrite Ef, Hn. lia.
Qed.
Lemma block_open getenv head body st p st' : adds head -> open_in st p -> block_actions getenv head body st = Ok tt st' ->
  open_in st' p /\ fresh_menu st < fresh_menu st'.
Proof.
  intros Hh [k Ho] E. destruct (wp_Ok _ _ _ _ _ (block_enters _ _ _ Hh (run_stmts_builds getenv body) st p k Ho) E) as [En _].
  split; [eexists; by eapply entered_opened|by destruct En].
Qed.

(** ** The whole file *)

(** The root entry is alone. *)
Definition unread (k : kstate) : Prop := menus k = {[ rootmenu := new_menu None None ]}.

Lemma start_opened k : unread k -> opened (set_menu (Some rootmenu) (MList rootmenu) (set_entry rootmenu (start k))) rootmenu
  (mkLinks None None None).
Proof.
  intros Hk. assert (Sk : skeleton (set_menu (Some rootmenu) (MList rootmenu) (set_entry rootmenu (start k))) =
    {[ rootmenu := mkLinks None None None ]}).
  { unfold skeleton. cbn. rewrite Hk. by rewrite map_fmap_singleton. }
  split; [|done|unfold rootmenu; cbn; lia|by rewrite Sk|done].
  split; rewrite Sk.
  - intros m l p [<- <-]%lookup_singleton_Some. done.
  - rewrite dom_singleton_L. cbn. set_solver.
Qed.

(** The state the parser starts in: the root menu is open and empty. *)
Record begun (st : pstate) : Prop := {
  be_opened : opened st rootmenu (mkLinks None None None);
  be_fresh : fresh_menu st = 1;
  be_last : last_entry_ptr st = MList rootmenu;
}.
Lemma begun_same st st' : same st st' -> begun st -> begun st'.
Proof.
  intros Hs [Ho Hf Hl]. split; [by eapply opened_same|..]; destruct Hs as (_ & _ & El & Ef); congruence.
Qed.
Lemma begin_menus_begun release k : unread k -> wp (begin_menus release) (fun _ st => begun st) (start k).
Proof.
  intros Hk. unfold begin_menus. apply wp_bind.
  assert (Hi : aside (sym_init release)) by quietly.
  unfold wp at 1, on_heap. specialize (Hi k). unfold wp in Hi. cbn [heap start].
  destruct (sym_init release k) as [[] k1| |] eqn:E1; [|done..].
  change (set_heap k1 (start k)) with (start k1).
  assert (Hk1 : unread k1) by (unfold unread; by rewrite Hi).
  apply wp_bind, wp_modify. set (st0 := set_menu _ _ _).
  change st0 with (set_menu (Some rootmenu) (MList rootmenu) (set_entry rootmenu (start k1))) in *.
  pose proof (start_opened k1 Hk1) as Ho. eapply wp_mono; [apply calm_add_prompt, Ho|]. cbn beta. intros _ st1 H1.
  eapply begun_same; [done|]. by split.
Qed.
Lemma add_title_begun t st : begun st -> wp (add_title t) (fun _ st' => begun st') st.
Proof.
  intros Hb. assert (Hc : calm (add_title t)) by (unfold add_title; calmly).
  eapply wp_mono; [apply Hc, Hb|]. cbn beta. intros _ st' H. by eapply begun_same.
Qed.

(** Behind the statements: one node of the forest per statement. *)
Lemma built_tree st f st' : begun st -> built st rootmenu (mkLinks None None None) f st' ->
  NoDup (rootmenu :: preorder f) -> menu_tree (heap st') f.
Proof.
  intros [_ _ El] [(_ & O & _) _ Hs _] N. rewrite El in O. cbn in O. apply menu_tree_tree. split.
  - refine (conj _ (conj Hs _)); [|done]. by rewrite O.
  - cbn. by rewrite app_nil_r.
Qed.
Lemma finish_menus_tree f st : menu_tree (heap st) f ->
  wp finish_menus (fun ok st' => ok = true -> exists f', menu_tree (heap st') f' /\ preorder f' = preorder f) st.
Proof.
  intros T3. unfold finish_menus. apply wp_bind, wp_get. destruct (negb _); [by apply wp_ret|].
  assert (Hm : quiet (match modules_sym (heap st) with Some _ => mret tt
    | None => s ← on_heap (sym_find (Some "n"%string)); on_heap (pmodify (upd_modules_sym s)) end)) by quietly.
  apply wp_bind. eapply wp_mono; [apply Hm|]. cbn beta. intros _ st4 H4.
  apply wp_bind. eapply wp_mono; [apply quiet_expand_title|]. cbn beta. intros _ st5 H5.
  assert (T5 : menu_tree (heap st5) f).
  { apply menu_tree_tree. apply menu_tree_tree in T3. eapply tree_same; [|done]. by etransitivity. }
  apply wp_bind, wp_list_fuel. apply wp_bind. eapply wp_mono; [apply (menu_finalize_tree _ f); [done|lia]|]. cbn beta.
  intros _ st6 (f' & T6 & P6). apply wp_ret. intros _. by exists f'.
Qed.

Lemma read_menus_run getenv release mainmenu ss k : unread k ->
  wp (read_menus getenv release mainmenu ss) (fun ok st' => ok = true ->
    exists f, menu_tree (heap st') f /\ preorder f = seq 1 (entries ss)) (start k).
Proof.
  intros Hk. unfold read_menus. apply wp_bind. eapply wp_mono; [by apply begin_menus_begun|]. cbn beta. intros _ st1 H1.
  apply wp_bind. eapply wp_mono; [by apply add_title_begun|]. cbn beta. intros _ st2 H2.
  apply wp_bind. eapply wp_mono; [apply run_stmts_builds, H2|]. cbn beta. intros _ st3 [Bu _].
  rewrite (be_fresh _ H2) in Bu. destruct (number_spec ss 1) as [Hp _]. set (f := fst (number ss 1)) in *.
  eapply wp_mono; [apply (finish_menus_tree f); eapply built_tree; [done..|]|].
  - rewrite Hp. apply NoDup_cons. split; [|apply NoDup_seq]. intros [? _]%elem_of_seq. unfold rootmenu in *. lia.
  - cbn beta. intros ok st' H Hok. destruct (H Hok) as (f' & T & P). exists f'. split; [done|congruence].
Qed.

(** What [conf_parse] has accepted has been read; the checks behind move nothing. *)
Lemma conf_parse_reads getenv release mainmenu ss st st' : conf_parse getenv release mainmenu ss st = Ok true st' ->
  exists st1, read_menus getenv release mainmenu ss st = Ok true st1 /\ skeleton st' = skeleton st1.
Proof.
  unfold conf_parse, check_menus, mbind, PM_bind at 1. destruct (read_menus _ _ _ _ _) as [[] st1| |]; [|done..].
  intros E. exists st1. split; [done|]. unfold mbind, PM_bind at 1 in E.
  destruct (check_all_deps st1) as [u st2| |] eqn:E2; [|done..]. apply check_all_deps_pointers in E2.
  unfold PM_bind at 1, pget at 1 in E. destruct (negb _); [done|]. injection E as <-. exact E2.
Qed.

Lemma conf_parse_tree getenv release mainmenu ss k st' : unread k ->
  conf_parse getenv release mainmenu ss (start k) = Ok true st' ->
  exists f, menu_tree (heap st') f /\ preorder f = seq 1 (entries ss).
Proof.
  intros Hk (st1 & E & Es)%conf_parse_reads. pose proof (read_menus_run getenv release mainmenu ss k Hk) as H.
  destruct (wp_Ok _ _ _ _ _ H E eq_refl) as (f & T & Hf). exists f. split; [|done].
  apply menu_tree_tree. apply menu_tree_tree in T as [Hs N]. split; [by rewrite Es|done].
Qed.

(** C5. Reading a Kconfig file of any statements, and finalising its menus, ends;
    and when no error was reported the entries are linked as one tree below the root
    entry, with one node per statement, numbered in the order of the file: the
    automatic submenus, the flattened [if] blocks and the choices have moved entries
    between lists but never past each other. *)
Theorem read_menus_order getenv release mainmenu ss k : unread k ->
  wp (read_menus getenv release mainmenu ss) (fun ok st' => ok = true ->
    exists f, menu_tree (heap st') f /\ preorder f = seq 1 (entries ss)) (start k).
Proof. apply read_menus_run. Qed.

(** C14. Whatever [conf_parse] has accepted, the walk of [conf_write] over its menus
    visits the statements of the file one after the other, each once. *)
Theorem conf_parse_walk getenv release mainmenu ss k st' visit text : unread k ->
  conf_parse getenv release mainmenu ss (start k) = Ok true st' ->
  (forall m, visit m (heap st') = Ok (text m) (heap st')) ->
  walk_menus visit (heap st') = Ok (texts text (seq 1 (entries ss))) (heap st').
Proof.
  intros Hk E Hv. destruct (conf_parse_tree _ _ _ _ _ _ Hk E) as (f & T & <-).
  destruct T as ((root & Er & El & En & Ep) & L & N%NoDup_cons_1_2). by eapply walk_preorder.
Qed.
