(* ===== verification/KScan.v ===== *)
(** The scanner of Kconfig files (src/buildroot/support/kconfig/zconf.l): its start
    conditions, the rule that matches the text to come, the stack of files, and the
    keywords of zconf.gperf.  flex takes the longest match and among those the first
    rule; [rule] finds it by looking at the text. *)
From S2P Require Import Prelude CText KExpr KSym KConf KHelp KMenu KParse.

(** ** Tokens and keywords *)

Inductive keyword :=
  T_MAINMENU | T_MENU | T_ENDMENU | T_SOURCE | T_CHOICE | T_ENDCHOICE | T_COMMENT | T_CONFIG | T_MENUCONFIG
| T_HELP | T_IF | T_ENDIF | T_DEPENDS | T_OPTIONAL | T_PROMPT | T_TYPE | T_DEFAULT | T_SELECT | T_RANGE
| T_VISIBLE | T_OPTION | T_ON | T_OPT (o : opt_token).
#[export] Instance opt_token_eq_dec : EqDecision opt_token.
Proof. solve_decision. Defined.
#[export] Instance keyword_eq_dec : EqDecision keyword.
Proof. solve_decision. Defined.

Definition TF_COMMAND : Z := 1.
Definition TF_PARAM : Z := 2.
Definition TF_OPTION : Z := 4.
Record kconf_id := { id_name : string; id_token : keyword; id_flags : Z; stype : symbol_type }.
#[export] Instance kconf_id_eq_dec : EqDecision kconf_id.
Proof. solve_decision. Defined.

(** [zconf.gperf]; a missing type is the first of [symbol_type]. *)
Definition kconf_ids : list kconf_id :=
  let id n t f := {| id_name := n; id_token := t; id_flags := f; stype := S_UNKNOWN |} in
  let ty n t s := {| id_name := n; id_token := t; id_flags := TF_COMMAND; stype := s |} in
  [ id "mainmenu" T_MAINMENU TF_COMMAND; id "menu" T_MENU TF_COMMAND; id "endmenu" T_ENDMENU TF_COMMAND;
    id "source" T_SOURCE TF_COMMAND; id "choice" T_CHOICE TF_COMMAND; id "endchoice" T_ENDCHOICE TF_COMMAND;
    id "comment" T_COMMENT TF_COMMAND; id "config" T_CONFIG TF_COMMAND; id "menuconfig" T_MENUCONFIG TF_COMMAND;
    id "help" T_HELP TF_COMMAND; id "if" T_IF (Z.lor TF_COMMAND TF_PARAM); id "endif" T_ENDIF TF_COMMAND;
    id "depends" T_DEPENDS TF_COMMAND; id "optional" T_OPTIONAL TF_COMMAND; ty "default" T_DEFAULT S_UNKNOWN;
    id "prompt" T_PROMPT TF_COMMAND; ty "tristate" T_TYPE S_TRISTATE; ty "def_tristate" T_DEFAULT S_TRISTATE;
    ty "bool" T_TYPE S_BOOLEAN; ty "boolean" T_TYPE S_BOOLEAN; ty "def_bool" T_DEFAULT S_BOOLEAN;
    ty "int" T_TYPE S_INT; ty "hex" T_TYPE S_HEX; ty "string" T_TYPE S_STRING; id "select" T_SELECT TF_COMMAND;
    id "range" T_RANGE TF_COMMAND; id "visible" T_VISIBLE TF_COMMAND; id "option" T_OPTION TF_COMMAND;
    id "on" T_ON TF_PARAM; id "modules" (T_OPT T_OPT_MODULES) TF_OPTION;
    id "defconfig_list" (T_OPT T_OPT_DEFCONFIG_LIST) TF_OPTION; id "env" (T_OPT T_OPT_ENV) TF_OPTION ]%list.
Definition kconf_id_lookup (w : string) : option kconf_id :=
  List.find (fun i => String.eqb (id_name i) w) kconf_ids.

Inductive tok :=
| TKey (id : kconf_id)
| T_WORD (w : string) | T_WORD_QUOTE (w : string) | T_HELPTEXT (w : string)
| T_AND | T_OR | T_NOT | T_EQUAL | T_UNEQUAL | T_OPEN_PAREN | T_CLOSE_PAREN
| T_EOL | T_END.

(** ** Rules *)

Inductive start_cond := INITIAL | COMMAND | PARAM | STRING | HELP.

(** The start condition, the rest of the buffer, the text gathered ([text]), the
    character a string began with ([str]), and the columns of the help text. *)
Record lexer := {
  condition : start_cond;
  input : string;
  gathered : string;
  delim : Ascii.ascii;
  last_ts : Z;
  first_ts : Z;
}.
Definition goto (c : start_cond) (r : string) (l : lexer) : lexer :=
  {| condition := c; input := r; gathered := gathered l; delim := delim l; last_ts := last_ts l; first_ts := first_ts l |}.
Definition stay (r : string) (l : lexer) : lexer := goto (condition l) r l.
Definition append_string (s : string) (l : lexer) : lexer :=
  {| condition := condition l; input := input l; gathered := gathered l +:+ s; delim := delim l;
     last_ts := last_ts l; first_ts := first_ts l |}.
(** [new_string] behind the delimiter [c]. *)
Definition open_string (c : Ascii.ascii) (r : string) (l : lexer) : lexer :=
  {| condition := STRING; input := r; gathered := ""; delim := c; last_ts := last_ts l; first_ts := first_ts l |}.
Definition set_columns (last first : Z) (l : lexer) : lexer :=
  {| condition := condition l; input := input l; gathered := gathered l; delim := delim l; last_ts := last; first_ts := first |}.

(** What a rule does beside. *)
Inductive event := Nothing | NewLine | Mark | MultiLine | EndOfFile.
Abbreviation matched := (lexer * event * option tok)%type.

Definition is_blank (c : Ascii.ascii) : bool := char_eqb c " " || char_eqb c (chr 9).
Definition not_nl (c : Ascii.ascii) : bool := negb (char_eqb c nl).
(** [{n}] *)
Definition word_char (c : Ascii.ascii) : bool := isalnum c || char_eqb c "_".
Definition param_char (c : Ascii.ascii) : bool := word_char c || char_eqb c "-" || char_eqb c "/" || char_eqb c ".".
Definition is_quote (c : Ascii.ascii) : bool := char_eqb c quote || char_eqb c "'".
Definition plain_char (c : Ascii.ascii) : bool := negb (is_quote c || char_eqb c backslash || char_eqb c nl).

Definition id_token_of (flag : Z) (w : string) : tok :=
  match kconf_id_lookup w with
  | Some id => if has flag (id_flags id) then TKey id else T_WORD w
  | None => T_WORD w
  end.
Definition end_line (r : string) (l : lexer) : matched := (goto INITIAL r l, NewLine, Some T_EOL).
Definition skip_to (r : string) (l : lexer) : matched := (stay r l, Nothing, None).
Definition give (t : tok) (r : string) (l : lexer) : matched := (stay r l, Nothing, Some t).
Definition string_tail (s : string) : string := match s with String _ t => t | EmptyString => EmptyString end.
Definition at_newline (s : string) : bool := head_is (char_eqb nl) s.

Definition initial_rule (l : lexer) : matched :=
  let '(b, r) := span is_blank (input l) in
  match r with
  | String c t =>
      if char_eqb c "#" then
        match (span not_nl t).2 with
        | String _ u => end_line u l
        | EmptyString => skip_to "" l
        end
      else if char_eqb c nl then end_line t l
      else (goto COMMAND r l, Nothing, None)
  | EmptyString => if String.eqb b "" then (l, EndOfFile, None) else (goto COMMAND "" l, Nothing, None)
  end.

Definition command_rule (l : lexer) : matched :=
  match input l with
  | EmptyString => (l, EndOfFile, None)
  | String c t =>
      if word_char c then
        let '(w, r) := span word_char (input l) in (goto PARAM r l, Mark, Some (id_token_of TF_COMMAND w))
      else if char_eqb c nl then end_line t l
      else skip_to t l
  end.

Definition param_rule (l : lexer) : matched :=
  match input l with
  | EmptyString => (goto INITIAL "" l, Nothing, None)
  | String c t =>
      if char_eqb c "&" then if head_is (char_eqb "&") t then give T_AND (string_tail t) l else skip_to t l
      else if char_eqb c "|" then if head_is (char_eqb "|") t then give T_OR (string_tail t) l else skip_to t l
      else if char_eqb c "(" then give T_OPEN_PAREN t l
      else if char_eqb c ")" then give T_CLOSE_PAREN t l
      else if char_eqb c "!" then if head_is (char_eqb "=") t then give T_UNEQUAL (string_tail t) l else give T_NOT t l
      else if char_eqb c "=" then give T_EQUAL t l
      else if is_quote c then (open_string c t l, Nothing, None)
      else if char_eqb c nl then end_line t l
      else if char_eqb c "#" then skip_to (span not_nl t).2 l
      else if char_eqb c backslash && at_newline t then (stay (string_tail t) l, NewLine, None)
      else if param_char c then
        let '(w, r) := span param_char (input l) in
        if String.eqb w "---" then skip_to r l else give (id_token_of TF_PARAM w) r l
      else skip_to t l
  end.

(** [zconflval.string = text]: a text for C. *)
Definition string_token (l : lexer) : tok := T_WORD_QUOTE (until_nul (gathered l)).
(** Before a newline a string ends; the newline is matched next. *)
Definition string_part (s r : string) (l : lexer) : matched :=
  let l := append_string s (stay r l) in (l, Nothing, if at_newline r then Some (string_token l) else None).

Definition string_rule (l : lexer) : matched :=
  match input l with
  | EmptyString => (goto INITIAL "" l, Nothing, None)
  | String c t =>
      if is_quote c then
        if char_eqb c (delim l) then (goto PARAM t l, Nothing, Some (string_token l))
        else (append_string (str1 c) (stay t l), Nothing, None)
      else if char_eqb c backslash then
        match t with
        | String d u => if char_eqb d nl then string_part "" t l else string_part (str1 d) u l
        | EmptyString => string_part "" "" l
        end
      else if char_eqb c nl then (goto INITIAL t l, MultiLine, Some T_EOL)
      else let '(w, r) := span plain_char (input l) in string_part w r l
  end.

Fixpoint column (ts : Z) (s : string) : Z :=
  match s with
  | String c t => column (if char_eqb c (chr 9) then Z.land ts (-8) + 8 else ts + 1) t
  | EmptyString => ts
  end.
(** Without the blanks at its end. *)
Fixpoint trim_blanks (s : string) : string :=
  match s with
  | EmptyString => ""
  | String c t => match trim_blanks t with EmptyString => if is_blank c then "" else str1 c | t => String c t end
  end.
Definition help_token (l : lexer) : tok := T_HELPTEXT (until_nul (gathered l)).

(** The blanks [b] at the start of a line of help. *)
Definition indent_rule (b r : string) (l : lexer) : matched :=
  let ts := column 0 b in
  let l := set_columns ts (first_ts l) (stay r l) in
  if first_ts l =? 0 then (l, Nothing, None)
  else if ts <? first_ts l then (goto INITIAL r l, Nothing, Some (help_token l))
  else (append_string (spaces (ts - first_ts l)) l, Nothing, None).

Definition help_rule (l : lexer) : matched :=
  let '(b, r) := span is_blank (input l) in
  match r with
  | String c t =>
      if char_eqb c nl then
        if head_is (fun d => negb (is_blank d || char_eqb d nl)) t then (goto INITIAL t l, NewLine, Some (help_token l))
        else (append_string NL (stay t l), NewLine, None)
      else if String.eqb b "" then
        let '(line, u) := span not_nl r in
        let l := append_string (trim_blanks line) (stay u l) in
        (set_columns (last_ts l) (if first_ts l =? 0 then last_ts l else first_ts l) l, Nothing, None)
      else indent_rule b r l
  | EmptyString =>
      if String.eqb b "" then (goto INITIAL "" l, Nothing, Some (help_token l)) else indent_rule b "" l
  end.

Definition rule (l : lexer) : matched :=
  match condition l with
  | INITIAL => initial_rule l | COMMAND => command_rule l | PARAM => param_rule l
  | STRING => string_rule l | HELP => help_rule l
  end.

(** ** Files *)

(** The buffers the current one is included from, innermost first ([None]:
    [current_buf] is null); [struct file]s by number, with their names in [names]. *)
Record scanner := {
  lex : lexer;
  buffers : option (list string);
  current_file : option nat;
  current_pos : option nat * Z;
  names : file_list;
  linenos : gmap nat Z;
  parents : gmap nat (option nat);
  said : string;
}.
Definition set_lex (l : lexer) (sc : scanner) : scanner :=
  {| lex := l; buffers := buffers sc; current_file := current_file sc; current_pos := current_pos sc;
     names := names sc; linenos := linenos sc; parents := parents sc; said := said sc |}.
Definition set_current (b : option (list string)) (f : option nat) (sc : scanner) : scanner :=
  {| lex := lex sc; buffers := b; current_file := f; current_pos := current_pos sc;
     names := names sc; linenos := linenos sc; parents := parents sc; said := said sc |}.
Definition set_pos (p : option nat * Z) (sc : scanner) : scanner :=
  {| lex := lex sc; buffers := buffers sc; current_file := current_file sc; current_pos := p;
     names := names sc; linenos := linenos sc; parents := parents sc; said := said sc |}.
Definition set_names (fl : file_list) (sc : scanner) : scanner :=
  {| lex := lex sc; buffers := buffers sc; current_file := current_file sc; current_pos := current_pos sc;
     names := fl; linenos := linenos sc; parents := parents sc; said := said sc |}.
Definition set_lineno (f : nat) (n : Z) (sc : scanner) : scanner :=
  {| lex := lex sc; buffers := buffers sc; current_file := current_file sc; current_pos := current_pos sc;
     names := names sc; linenos := <[f := n]> (linenos sc); parents := parents sc; said := said sc |}.
Definition set_file_parent (f : nat) (p : option nat) (sc : scanner) : scanner :=
  {| lex := lex sc; buffers := buffers sc; current_file := current_file sc; current_pos := current_pos sc;
     names := names sc; linenos := linenos sc; parents := <[f := p]> (parents sc); said := said sc |}.
Definition say (t : string) (sc : scanner) : scanner :=
  {| lex := lex sc; buffers := buffers sc; current_file := current_file sc; current_pos := current_pos sc;
     names := names sc; linenos := linenos sc; parents := parents sc; said := said sc +:+ t |}.

(** A new [struct file] is all zero. *)
Definition lineno_of (f : nat) (sc : scanner) : Z := default 0 (linenos sc !! f).
Definition parent_of (f : nat) (sc : scanner) : option nat := default None (parents sc !! f).
Definition name_of (f : nat) (sc : scanner) : string := default "" (file_name (names sc) f).
Definition zconf_curname (sc : scanner) : string := match (current_pos sc).1 with Some f => name_of f sc | None => "<none>" end.
Definition zconf_lineno (sc : scanner) : Z := (current_pos sc).2.
(** [file:line:] *)
Definition location (sc : scanner) : string := zconf_curname sc +:+ ":" +:+ fmt_d (zconf_lineno sc) +:+ ":".

Abbreviation SC := (PM scanner).
(** [current_file->lineno++] *)
Definition count_line : SC unit :=
  sc ← pget; f ← plift (current_file sc); pmodify (set_lineno f (i32 (lineno_of f sc + 1))).
Definition zconf_endfile : SC unit :=
  sc ← pget;
  f ← plift (current_file sc);
  bs ← plift (buffers sc);
  match bs with
  | [] => pmodify (set_current None (parent_of f sc))
  | b :: bs =>
      pmodify (set_current (Some bs) (parent_of f sc));; pmodify (set_lex (stay b (lex sc)))
  end.
Definition happen (e : event) (t : option tok) : SC (option tok) :=
  sc ← pget;
  match e with
  | Nothing => mret t
  | NewLine => count_line;; mret t
  | Mark => f ← plift (current_file sc); pmodify (set_pos (Some f, lineno_of f sc));; mret t
  | MultiLine => pmodify (say (location sc +:+ "warning: multi-line strings not supported" +:+ NL));; count_line;; mret t
  | EndOfFile =>
      match current_file sc with
      | Some _ => zconf_endfile;; mret (Some T_EOL)
      | None => mret (Some T_END)
      end
  end.
Definition match_rule : SC (option tok) :=
  sc ← pget;
  let '(l, e, t) := rule (lex sc) in
  pmodify (set_lex l);; happen e t.

(** Until a rule returns a token.  [yylex] begins with [str = 0]. *)
Fixpoint lex_loop (n : nat) : SC tok :=
  match n with
  | O => pnofuel
  | S n => t ← match_rule; match t with Some t => mret t | None => lex_loop n end
  end.
Definition reset_delim (l : lexer) : lexer :=
  {| condition := condition l; input := input l; gathered := gathered l; delim := chr 0; last_ts := last_ts l; first_ts := first_ts l |}.
Definition lex_fuel (l : lexer) : nat := 2 * String.length (input l) + 3.
Definition yylex : SC tok :=
  sc ← pget;
  pmodify (set_lex (reset_delim (lex sc)));;
  lex_loop (lex_fuel (lex sc)).

Definition zconf_starthelp : SC unit :=
  sc ← pget;
  pmodify (set_lex {| condition := HELP; input := input (lex sc); gathered := ""; delim := delim (lex sc);
                      last_ts := 0; first_ts := 0 |}).
