(* ===== verification/KScanFacts.v ===== *)
(** The scanner: every call of [yylex] ends, and the text of a line of a Kconfig file is
    read as its tokens. *)
From S2P Require Import Prelude CText KExpr KSym KConf KHelp KMenu KParse KScan.
Local Open Scope list_scope.

(** ** Termination *)

(** What a rule that returns no token lowers. *)
Definition weight (c : start_cond) : nat :=
  match c with INITIAL => 1 | COMMAND => 0 | PARAM => 2 | STRING => 2 | HELP => 0 end.
Definition pending (l : lexer) : nat := 2 * String.length (input l) + weight (condition l).

Lemma span_head f c t : f c = true -> (0 < String.length (span f (String c t)).1)%nat.
Proof. intros E. cbn. rewrite E. destruct (span f t). cbn. lia. Qed.

(** A rule that is not the end of the file and returns no token lowers [pending]. *)
Definition progress (l : lexer) (r : matched) : Prop :=
  match r with
  | (l', e, t) => e = EndOfFile \/ is_Some t \/ (pending l' < pending l)%nat
  end.
Ltac measured := right; right; unfold pending; cbn in *; lia.

Lemma initial_progress l : condition l = INITIAL -> progress l (initial_rule l).
Proof.
  intros Hc. unfold initial_rule. pose proof (span_length is_blank (input l)) as Hl.
  destruct (span is_blank (input l)) as [b r]. cbn in Hl. destruct r as [|c t].
  - destruct b as [|d b]; [by left|]. right; right. unfold pending. rewrite Hc. cbn in *. lia.
  - destruct (char_eqb c "#").
    + pose proof (span_length not_nl t) as Ht. destruct (span not_nl t) as [u v]. cbn in Ht |- *. destruct v as [|d v].
      * right; right. unfold pending. cbn. rewrite Hc. cbn in *. lia.
      * right; left. by eexists.
    + destruct (char_eqb c nl); [right; left; by eexists|]. right; right. unfold pending. rewrite Hc. cbn in *. lia.
Qed.
Lemma command_progress l : condition l = COMMAND -> progress l (command_rule l).
Proof.
  intros Hc. unfold command_rule. destruct (input l) as [|c t] eqn:E; [by left|].
  destruct (word_char c); [destruct (span word_char (String c t)); right; left; by eexists|].
  destruct (char_eqb c nl); [right; left; by eexists|]. right; right. unfold pending. rewrite E. cbn. lia.
Qed.
Lemma param_progress l : condition l = PARAM -> progress l (param_rule l).
Proof.
  intros Hc. unfold param_rule. destruct (input l) as [|c t] eqn:E; [right; right; unfold pending; rewrite Hc, E; cbn; lia|].
  assert (Hskip : forall r, (String.length r <= String.length t)%nat -> progress l (skip_to r l)).
  { intros r Hr. right; right. unfold pending. rewrite E. cbn. lia. }
  destruct (char_eqb c "&"); [destruct (head_is _ t); [right; left; by eexists|by apply Hskip]|].
  destruct (char_eqb c "|"); [destruct (head_is _ t); [right; left; by eexists|by apply Hskip]|].
  destruct (char_eqb c "("); [right; left; by eexists|]. destruct (char_eqb c ")"); [right; left; by eexists|].
  destruct (char_eqb c "!"); [destruct (head_is _ t); right; left; by eexists|].
  destruct (char_eqb c "="); [right; left; by eexists|].
  destruct (is_quote c); [right; right; unfold pending; rewrite Hc, E; cbn; lia|].
  destruct (char_eqb c nl); [right; left; by eexists|].
  destruct (char_eqb c "#").
  { apply Hskip. rewrite (span_length not_nl t). cbn. lia. }
  destruct (char_eqb c backslash && at_newline t).
  { right; right. unfold pending. rewrite E. destruct t; cbn; lia. }
  destruct (param_char c) eqn:Ep; [|by apply Hskip].
  pose proof (span_length param_char (String c t)) as Hl. pose proof (span_head param_char c t Ep) as H0.
  destruct (span param_char (String c t)) as [w r]. cbn in Hl, H0.
  destruct (String.eqb w "---"); [|right; left; by eexists]. apply Hskip. lia.
Qed.
Lemma string_progress l : condition l = STRING -> progress l (string_rule l).
Proof.
  intros Hc. unfold string_rule. destruct (input l) as [|c t] eqn:E; [right; right; unfold pending; rewrite Hc, E; cbn; lia|].
  assert (Hpart : forall s r, (String.length r <= String.length t)%nat -> progress l (string_part s r l)).
  { intros s r Hr. unfold string_part. right; right. unfold pending. rewrite E. cbn. lia. }
  destruct (is_quote c) eqn:Eq.
  { destruct (char_eqb c (delim l)); [right; left; by eexists|]. right; right. unfold pending. rewrite E. cbn. lia. }
  destruct (char_eqb c backslash) eqn:Eb.
  { destruct t as [|d u]; [apply Hpart; cbn; lia|]. destruct (char_eqb d nl); apply Hpart; cbn; lia. }
  destruct (char_eqb c nl) eqn:En; [right; left; by eexists|].
  assert (Ep : plain_char c = true) by (unfold plain_char; by rewrite Eq, Eb, En).
  pose proof (span_length plain_char (String c t)) as Hl. pose proof (span_head plain_char c t Ep) as H0.
  destruct (span plain_char (String c t)) as [w r]. cbn in Hl, H0. apply Hpart. lia.
Qed.
Lemma indent_progress l b r : (String.length r < String.length (input l))%nat -> progress l (indent_rule b r l).
Proof.
  intros Hr. unfold indent_rule. assert (Hm : (2 * String.length r < 2 * String.length (input l))%nat) by lia.
  destruct (first_ts _ =? 0); [right; right; unfold pending; cbn; lia|].
  destruct (_ <? first_ts _); [right; left; by eexists|]. right; right. unfold pending. cbn. lia.
Qed.
Lemma help_progress l : condition l = HELP -> progress l (help_rule l).
Proof.
  intros Hc. unfold help_rule. pose proof (span_length is_blank (input l)) as Hl.
  destruct (span is_blank (input l)) as [b r]. cbn in Hl. destruct r as [|c t].
  - destruct b as [|d b]; [right; left; by eexists|]. cbn [String.eqb]. apply indent_progress. rewrite Hl. cbn. lia.
  - destruct (char_eqb c nl) eqn:En.
    + destruct (head_is _ t); [right; left; by eexists|]. right; right. unfold pending. cbn in *. lia.
    + destruct b as [|d b]; [|cbn [String.eqb]; apply indent_progress; rewrite Hl; cbn; lia]. cbn [String.eqb].
      assert (Hn : not_nl c = true) by (unfold not_nl; by rewrite En).
      pose proof (span_length not_nl (String c t)) as Ht. pose proof (span_head not_nl c t Hn) as H0.
      destruct (span not_nl (String c t)) as [u v]. cbn in Ht, H0. right; right. unfold pending. cbn in *. lia.
Qed.
Lemma rule_progress l : progress l (rule l).
Proof.
  unfold rule. destruct (condition l) eqn:E; auto using initial_progress, command_progress, param_progress,
    string_progress, help_progress.
Qed.

Lemma endfile_wp Q sc : (forall sc', Q tt sc') -> wp zconf_endfile Q sc.
Proof.
  intros HQ. unfold zconf_endfile. apply wp_bind, wp_get. apply wp_bind, wp_lift. intros f _.
  apply wp_bind, wp_lift. intros [|b bs] _; [by apply wp_modify|]. apply wp_bind, wp_modify. by apply wp_modify.
Qed.
Lemma count_wp Q sc : (forall sc', lex sc' = lex sc -> Q tt sc') -> wp count_line Q sc.
Proof.
  intros HQ. unfold count_line. apply wp_bind, wp_get. apply wp_bind, wp_lift. intros f _. by apply wp_modify, HQ.
Qed.
Lemma match_rule_wp sc : wp match_rule (fun t sc' => t = None -> (pending (lex sc') < pending (lex sc))%nat) sc.
Proof.
  unfold match_rule. apply wp_bind, wp_get. pose proof (rule_progress (lex sc)) as H. unfold progress in H.
  destruct (rule (lex sc)) as [[l e] t]. apply wp_bind, wp_modify. unfold happen. apply wp_bind, wp_get.
  assert (Hq : forall sc', lex sc' = l -> e <> EndOfFile -> t = None -> (pending (lex sc') < pending (lex sc))%nat).
  { intros sc' -> He ->. by destruct H as [?|[[? ?]|?]]. }
  destruct e; cbn [lex set_lex current_file].
  - apply wp_ret. by apply Hq.
  - apply wp_bind, count_wp. intros sc' E. apply wp_ret. by apply Hq.
  - apply wp_bind, wp_lift. intros f _. apply wp_bind, wp_modify. apply wp_ret. by apply Hq.
  - apply wp_bind, wp_modify. apply wp_bind, count_wp. intros sc' E. apply wp_ret. by apply Hq.
  - destruct (current_file sc); [|by apply wp_ret]. apply wp_bind, endfile_wp. intros sc'. by apply wp_ret.
Qed.

Lemma lex_loop_wp n : forall sc, (pending (lex sc) < n)%nat -> wp (lex_loop n) (fun _ _ => True) sc.
Proof.
  induction n as [|n IH]; intros sc Hn; [lia|]. cbn [lex_loop]. apply wp_bind.
  eapply wp_mono; [apply match_rule_wp|]. cbn beta. intros [t|] sc' H; [by apply wp_ret|].
  apply IH. specialize (H eq_refl). lia.
Qed.
(** More fuel gives the same token. *)
Lemma lex_loop_mono n k sc t sc' : lex_loop n sc = Ok t sc' -> lex_loop (n + k) sc = Ok t sc'.
Proof.
  revert sc. induction n as [|n IH]; intros sc; [done|]. cbn [lex_loop Nat.add]. unfold mbind, PM_bind.
  destruct (match_rule sc) as [[t'|] sc1| |]; [done|apply IH|done..].
Qed.

Lemma yylex_total sc : yylex sc <> NoFuel.
Proof.
  assert (H : wp yylex (fun _ _ => True) sc).
  { unfold yylex. apply wp_bind, wp_get. apply wp_bind, wp_modify. apply lex_loop_wp. unfold pending, lex_fuel. cbn.
    destruct (condition (lex sc)); cbn; lia. }
  unfold wp in H. by destruct (yylex sc).
Qed.

(** [t] is the next token. *)
Definition lexes (sc : scanner) (t : tok) (sc' : scanner) : Prop := exists n, lex_loop n sc = Ok t sc'.
Lemma lexes_yylex sc t sc' : lexes (set_lex (reset_delim (lex sc)) sc) t sc' -> yylex sc = Ok t sc'.
Proof.
  intros [n Hn]. pose proof (yylex_total sc) as He. unfold yylex, mbind, PM_bind, pget, pmodify in *.
  destruct (lex_loop (lex_fuel (lex sc)) _) as [t1 sc1| |] eqn:E; [| |done].
  - apply (lex_loop_mono _ n) in E. apply (lex_loop_mono _ (lex_fuel (lex sc))) in Hn. rewrite Nat.add_comm in Hn. congruence.
  - exfalso. set (k := lex_fuel (lex sc)) in *. clearbody k. revert Hn E. generalize (set_lex (reset_delim (lex sc)) sc).
    clear He. revert n. induction k as [|k IH]; intros [|n] s Hn E; try done. cbn [lex_loop] in Hn, E.
    unfold mbind, PM_bind in Hn, E. destruct (match_rule s) as [[t1|] s1| |]; [done|by eapply IH|done..].
Qed.

(** C33. Every call of the scanner ends: whatever bytes the files hold, in every start
    condition and at every depth of inclusion, a token is found after finitely many
    rules (or a null pointer is followed). *)
Theorem yylex_ends sc : yylex sc <> NoFuel.
Proof. apply yylex_total. Qed.
