(* ===== verification/KText.v ===== *)
(** The text of a Kconfig file: how tokens, lines, expressions and statements are
    written, so that the scanner and the grammar can be shown to read them back; and
    that the scanner reads the lines written as their tokens.  The text is a
    specification; nothing in the program writes such files. *)
From S2P Require Import Prelude CText KExpr KSym KConf KHelp KMenu KParse KScan KScanFacts.
Local Open Scope list_scope.

(** ** Tokens *)

Fixpoint escape (s : string) : string :=
  match s with
  | String c t =>
      if char_eqb c quote || char_eqb c backslash then String backslash (String c (escape t)) else String c (escape t)
  | EmptyString => EmptyString
  end.
Definition quoted (s : string) : string := str1 quote +:+ escape s +:+ str1 quote.

Definition spell (t : tok) : string :=
  match t with
  | TKey id => id_name id
  | T_WORD w => w
  | T_WORD_QUOTE w => quoted w
  | T_AND => "&&" | T_OR => "||" | T_NOT => "!" | T_EQUAL => "=" | T_UNEQUAL => "!="
  | T_OPEN_PAREN => "(" | T_CLOSE_PAREN => ")"
  | T_HELPTEXT _ | T_EOL | T_END => ""
  end.
(** Each token behind a blank. *)
Definition spells (ts : list tok) : string := foldr (fun t acc => " " +:+ spell t +:+ acc) "" ts.

Definition keyword_of (w : string) : kconf_id :=
  default {| id_name := w; id_token := T_ON; id_flags := 0; stype := S_UNKNOWN |} (kconf_id_lookup w).
Definition IF : tok := TKey (keyword_of "if").
Definition ON : tok := TKey (keyword_of "on").

(** Words are not keywords; quoted words have no newline and no NUL in them. *)
Definition text_ok (s : string) : bool := string_all (fun c => negb (char_eqb c nl) && negb (code c =? 0)) s.
Definition word_ok (w : string) : bool :=
  negb (String.eqb w "") && string_all param_char w && negb (String.eqb w "---") &&
  match kconf_id_lookup w with Some id => negb (has TF_PARAM (id_flags id)) | None => true end.
Definition param_ok (t : tok) : bool :=
  match t with
  | TKey id => bool_decide (kconf_id_lookup (id_name id) = Some id) && has TF_PARAM (id_flags id)
  | T_WORD w => word_ok w
  | T_WORD_QUOTE w => text_ok w
  | T_HELPTEXT _ | T_EOL | T_END => false
  | _ => true
  end.
Definition command_ok (id : kconf_id) : bool :=
  bool_decide (kconf_id_lookup (id_name id) = Some id) && has TF_COMMAND (id_flags id).

(** ** Lines *)

(** A line: a command with its parameters; or the text of an option [help]. *)
Inductive item := Line (id : kconf_id) (ts : list tok) | HelpText (text : string).

Definition line_text (id : kconf_id) (ts : list tok) : string := id_name id +:+ spells ts +:+ NL.

Fixpoint lines_of (s : string) : list string :=
  match s with
  | EmptyString => [""]
  | String c t =>
      if char_eqb c nl then "" :: lines_of t
      else match lines_of t with l :: ls => String c l :: ls | [] => [str1 c] end
  end.
(** A line of help, two columns to the right; empty lines stay empty. *)
Definition help_line (l : string) : string := (if String.eqb l "" then "" else "  " +:+ l) +:+ NL.
Definition help_lines (ls : list string) : string := foldr (fun l acc => help_line l +:+ acc) "" ls.
(** A comment behind the text ends it. *)
Definition help_text (text : string) : string := "help" +:+ NL +:+ help_lines (lines_of text) +:+ "#" +:+ NL.

(** No blanks at the end of a line, no tabs at its beginning. *)
Definition help_line_ok (l : string) : bool :=
  String.eqb (trim_blanks l) l && string_all (fun c => char_eqb c " ") (span is_blank l).1.
(** The first line begins at the left. *)
Definition help_ok (text : string) : bool :=
  string_all (fun c => negb (code c =? 0)) text &&
  head_is (fun c => negb (is_blank c) && negb (char_eqb c nl)) text && forallb help_line_ok (lines_of text).

Definition item_text (i : item) : string :=
  match i with Line id ts => line_text id ts | HelpText t => help_text t end.
Definition text_of (l : list item) : string := foldr (fun i acc => item_text i +:+ acc) "" l.

(** ** Expressions and statements *)

Definition term_token (t : term) : tok := match t with Word w => T_WORD w | Quoted w => T_WORD_QUOTE w end.
(** Parentheses where an operator binds less tightly than the place asks for. *)
Definition parens (b : bool) (ts : list tok) : list tok := if b then T_OPEN_PAREN :: ts ++ [T_CLOSE_PAREN] else ts.
Fixpoint expr_tokens (k : nat) (e : kexpr) : list tok :=
  match e with
  | KSymbol t => [term_token t]
  | KEqual a b => [term_token a; T_EQUAL; term_token b]
  | KUnequal a b => [term_token a; T_UNEQUAL; term_token b]
  | KNot e => T_NOT :: expr_tokens 2 e
  | KAnd l r => parens (Nat.ltb 1 k) (expr_tokens 1 l ++ T_AND :: expr_tokens 2 r)
  | KOr l r => parens (Nat.ltb 0 k) (expr_tokens 0 l ++ T_OR :: expr_tokens 1 r)
  end.
Definition if_tokens (c : option kexpr) : list tok := match c with Some e => IF :: expr_tokens 0 e | None => [] end.

Definition type_keyword (ty : symbol_type) : kconf_id :=
  keyword_of (match ty with
              | S_TRISTATE => "tristate" | S_INT => "int" | S_HEX => "hex" | S_STRING => "string" | _ => "bool"
              end).
Definition default_keyword (ty : symbol_type) : kconf_id :=
  keyword_of (match ty with S_BOOLEAN => "def_bool" | S_TRISTATE => "def_tristate" | _ => "default" end).
Definition option_name (o : opt_token) : string :=
  match o with T_OPT_MODULES => "modules" | T_OPT_DEFCONFIG_LIST => "defconfig_list" | T_OPT_ENV => "env" end.
Definition prompt_tokens (p : option (string * option kexpr)) : list tok :=
  match p with Some (t, c) => T_WORD_QUOTE t :: if_tokens c | None => [] end.
Definition depends_line (e : kexpr) : item := Line (keyword_of "depends") (ON :: expr_tokens 0 e).

Definition config_item (o : config_option) : item :=
  match o with
  | OType ty p => Line (type_keyword ty) (prompt_tokens p)
  | OPrompt t c => Line (keyword_of "prompt") (T_WORD_QUOTE t :: if_tokens c)
  | ODefault ty e c => Line (default_keyword ty) (expr_tokens 0 e ++ if_tokens c)
  | OSelect w c => Line (keyword_of "select") (T_WORD w :: if_tokens c)
  | ORange a b c => Line (keyword_of "range") (term_token a :: term_token b :: if_tokens c)
  | OOption o arg =>
      Line (keyword_of "option")
        (T_WORD (option_name o) :: match arg with Some p => [T_EQUAL; T_WORD_QUOTE p] | None => [] end)
  | ODepends e => depends_line e
  | OHelp t => HelpText t
  end.
Definition choice_item (o : choice_option) : item :=
  match o with
  | CPrompt t c => Line (keyword_of "prompt") (T_WORD_QUOTE t :: if_tokens c)
  | CType ty p => Line (type_keyword ty) (prompt_tokens p)
  | COptional => Line (keyword_of "optional") []
  | CDefault w c => Line (keyword_of "default") (T_WORD w :: if_tokens c)
  | CDepends e => depends_line e
  | CHelp t => HelpText t
  end.
Definition visible_line (c : option kexpr) : item := Line (keyword_of "visible") (if_tokens c).

Fixpoint stmt_items (ss : stmts) : list item :=
  match ss with
  | SNil => []
  | SConfig menuconfig w opts rest =>
      Line (keyword_of (if menuconfig then "menuconfig" else "config")) [T_WORD w] :: map config_item opts ++ stmt_items rest
  | SComment p deps rest => Line (keyword_of "comment") [T_WORD_QUOTE p] :: map depends_line deps ++ stmt_items rest
  | SChoice w opts body rest =>
      Line (keyword_of "choice") (match w with Some w => [T_WORD w] | None => [] end) ::
      map choice_item opts ++ stmt_items body ++ Line (keyword_of "endchoice") [] :: stmt_items rest
  | SMenu p vis deps body rest =>
      Line (keyword_of "menu") [T_WORD_QUOTE p] :: map visible_line vis ++ map depends_line deps ++
      stmt_items body ++ Line (keyword_of "endmenu") [] :: stmt_items rest
  | SIf c body rest =>
      Line (keyword_of "if") (expr_tokens 0 c) :: stmt_items body ++ Line (keyword_of "endif") [] :: stmt_items rest
  end.
Definition title_items (mainmenu : option string) : list item :=
  match mainmenu with Some t => [Line (keyword_of "mainmenu") [T_WORD_QUOTE t]] | None => [] end.
Definition file_text (mainmenu : option string) (ss : stmts) : string :=
  text_of (title_items mainmenu ++ stmt_items ss).

(** ** What can be written *)

Definition item_ok (i : item) : bool :=
  match i with Line id ts => command_ok id && forallb param_ok ts | HelpText t => help_ok t end.
Definition config_ok (o : config_option) : bool :=
  match o with
  | OType ty _ => bool_decide (ty ∈ [S_BOOLEAN; S_TRISTATE; S_INT; S_HEX; S_STRING])
  | ODefault ty _ _ => bool_decide (ty ∈ [S_UNKNOWN; S_BOOLEAN; S_TRISTATE])
  | _ => true
  end.
Definition choice_ok (o : choice_option) : bool :=
  match o with CType ty _ => bool_decide (ty ∈ [S_BOOLEAN; S_TRISTATE]) | _ => true end.
(** Types have keywords; menus and choices are not in choices. *)
Fixpoint nested_ok (in_choice : bool) (ss : stmts) : bool :=
  match ss with
  | SNil => true
  | SConfig _ _ opts rest => forallb config_ok opts && nested_ok in_choice rest
  | SComment _ _ rest => nested_ok in_choice rest
  | SChoice _ opts body rest =>
      negb in_choice && forallb choice_ok opts && nested_ok true body && nested_ok in_choice rest
  | SMenu _ _ _ body rest => negb in_choice && nested_ok false body && nested_ok in_choice rest
  | SIf _ body rest => nested_ok false body && nested_ok in_choice rest
  end.
Definition printable (mainmenu : option string) (ss : stmts) : bool :=
  forallb item_ok (title_items mainmenu ++ stmt_items ss) && nested_ok false ss.

(** ** Rules one after the other *)

(** The scanner has moved on in the same file. *)
Record near (sc sc' : scanner) : Prop := {
  ne_buffers : buffers sc' = buffers sc;
  ne_file : current_file sc' = current_file sc;
  ne_names : names sc' = names sc;
  ne_parents : parents sc' = parents sc;
  ne_said : said sc' = said sc;
}.
#[export] Instance near_preorder : PreOrder near.
Proof. split; [by intros sc|]. intros a b c [] []. split; congruence. Qed.
Lemma near_lex l sc : near sc (set_lex l sc).
Proof. by split. Qed.
Lemma near_line f n sc : near sc (set_lineno f n sc).
Proof. by split. Qed.
Lemma near_pos p sc : near sc (set_pos p sc).
Proof. by split. Qed.

(** Rules without a token, in the file [f]. *)
Definition silent (sc sc' : scanner) : Prop := rtc (fun a b => match_rule a = Ok None b) sc sc'.
Lemma silent_trans a b c : silent a b -> silent b c -> silent a c.
Proof. unfold silent. intros H1 H2. by etransitivity. Qed.
Lemma silent_lexes sc sc1 t sc' : silent sc sc1 -> match_rule sc1 = Ok (Some t) sc' -> lexes sc t sc'.
Proof.
  induction 1 as [a|a b c E _ IH]; intros Ht.
  - exists 1%nat. cbn [lex_loop]. unfold mbind, PM_bind. by rewrite Ht.
  - destruct (IH Ht) as [n Hn]. exists (S n). cbn [lex_loop]. unfold mbind, PM_bind. by rewrite E.
Qed.
Lemma run_nothing sc l t : rule (lex sc) = (l, Nothing, t) -> match_rule sc = Ok t (set_lex l sc).
Proof. intros E. unfold match_rule, mbind, PM_bind, pget. by rewrite E. Qed.
Lemma run_line sc l t f : rule (lex sc) = (l, NewLine, t) -> current_file sc = Some f ->
  exists n, match_rule sc = Ok t (set_lineno f n (set_lex l sc)).
Proof.
  intros E Hf. unfold match_rule, mbind, PM_bind, pget. rewrite E.
  unfold pmodify, happen, count_line, mbind, PM_bind, pget, plift. cbn. rewrite Hf. cbn. eexists. reflexivity.
Qed.
Lemma run_mark sc l t f : rule (lex sc) = (l, Mark, t) -> current_file sc = Some f ->
  exists n, match_rule sc = Ok t (set_pos (Some f, n) (set_lex l sc)).
Proof.
  intros E Hf. unfold match_rule, mbind, PM_bind, pget. rewrite E.
  unfold pmodify, happen, mbind, PM_bind, pget, plift. cbn. rewrite Hf. cbn. eexists. reflexivity.
Qed.

(** [c] is the start condition, [r] the text to come. *)
Definition at_text (c : start_cond) (r : string) (sc : scanner) : Prop := condition (lex sc) = c /\ input (lex sc) = r.
(** The next token is [t], and then the scanner is at [r]. *)
Definition gives (sc : scanner) (t : tok) (c : start_cond) (r : string) : Prop :=
  exists sc', yylex sc = Ok t sc' /\ near sc sc' /\ at_text c r sc'.
Lemma silent_gives sc sc1 t c r sc2 : silent (set_lex (reset_delim (lex sc)) sc) sc1 -> near sc sc1 ->
  match_rule sc1 = Ok (Some t) sc2 -> near sc1 sc2 -> at_text c r sc2 -> gives sc t c r.
Proof.
  intros Hs Hn Ht Hn' Ha. exists sc2. split; [by eapply lexes_yylex, silent_lexes|]. split; [by etransitivity|done].
Qed.

(** ** Characters and runs of them *)

Lemma span_all f s r : string_all f s = true -> head_is f r = false -> span f (s +:+ r) = (s, r).
Proof.
  intros Hs Hr. induction s as [|c s IH].
  - destruct r as [|c r]; [done|]. cbn in Hr |- *. by rewrite Hr.
  - apply andb_true_iff in Hs as [Hc Hs]. change ((String c s) +:+ r) with (String c (s +:+ r)). cbn [span].
    by rewrite Hc, (IH Hs).
Qed.
Lemma span_max f s : head_is f (span f s).2 = false.
Proof.
  induction s as [|c s IH]; [done|]. cbn. destruct (f c) eqn:E; [|by cbn; rewrite E]. by destruct (span f s).
Qed.
(** A blank or the end of the line. *)
Definition sep (r : string) : bool := head_is (fun c => char_eqb c " " || char_eqb c nl) r.
Lemma sep_cases r : sep r = true -> exists t, r = String " " t \/ r = String nl t.
Proof.
  destruct r as [|c t]; [done|]. intros [H|H]%orb_true_iff; exists t; [left|right].
  - by destruct (char_eqb_spec c " "); [subst|].
  - by destruct (char_eqb_spec c nl); [subst|].
Qed.
Lemma sep_stops f r : f " "%char = false -> f nl = false -> sep r = true -> head_is f r = false.
Proof. intros H1 H2 (t & [-> | ->])%sep_cases; cbn; [exact H1|exact H2]. Qed.

(** One of the tests of a rule, for a character known to pass another. *)
Ltac other c H := match goal with
  | |- context [char_eqb c ?d] => destruct (char_eqb_spec c d) as [?Hne|?Hne]; [subst c; discriminate H|]
  end.

(** ** Parameters *)

(** The state behind a blank. *)
Lemma skip_blank sc r : at_text PARAM (String " " r) sc ->
  match_rule sc = Ok None (set_lex (goto PARAM r (lex sc)) sc).
Proof.
  intros [Hc Hi]. apply run_nothing. unfold rule, param_rule. rewrite Hc, Hi. cbn.
  unfold skip_to, stay. by rewrite Hc.
Qed.
(** A rule at the start of a token gives the token. *)
Lemma blank_gives sc s t r : at_text PARAM (" " +:+ s) sc ->
  (forall l, condition l = PARAM -> input l = s -> rule l = (goto PARAM r l, Nothing, Some t)) -> gives sc t PARAM r.
Proof.
  intros [Hc Hi] Hr. set (sc0 := set_lex (reset_delim (lex sc)) sc).
  eapply silent_gives; [apply rtc_once, skip_blank; split; [exact Hc|exact Hi]|by split|apply run_nothing, Hr|apply near_lex|];
    [done|done|by split].
Qed.

Lemma give_goto t r l : condition l = PARAM -> give t r l = (goto PARAM r l, Nothing, Some t).
Proof. intros Hc. unfold give, stay. by rewrite Hc. Qed.
Lemma word_rule w r l : string_all param_char w = true -> w <> "" -> w <> "---" -> sep r = true ->
  condition l = PARAM -> input l = w +:+ r -> rule l = (goto PARAM r l, Nothing, Some (id_token_of TF_PARAM w)).
Proof.
  intros Hw Hne Hd Hr Hc Hi. unfold rule, param_rule. rewrite Hc, Hi.
  destruct w as [|c w]; [done|]. change ((String c w) +:+ r) with (String c (w +:+ r)). cbn iota beta.
  pose proof Hw as Hw'. cbn in Hw'. apply andb_true_iff in Hw' as [Hp _]. do 6 other c Hp.
  assert (Hq : is_quote c = false) by (unfold is_quote; do 2 other c Hp; done). rewrite Hq. do 3 other c Hp.
  cbn [andb]. rewrite Hp. change (String c (w +:+ r)) with ((String c w) +:+ r).
  rewrite span_all by (done || by apply sep_stops).
  apply String.eqb_neq in Hd. rewrite Hd. by apply give_goto.
Qed.

(** *** Quoted words *)

Lemma escape_plain w s : string_all plain_char w = true -> escape (w +:+ s) = w +:+ escape s.
Proof.
  induction w as [|c w IH]; [done|]. intros [Hc Hw]%andb_true_iff. change ((String c w) +:+ s) with (String c (w +:+ s)).
  cbn [escape]. other c Hc. other c Hc. cbn [orb]. by rewrite IH.
Qed.
Lemma escape_line s r : string_all not_nl s = true -> at_newline (escape s +:+ String quote r) = false.
Proof.
  destruct s as [|c s]; [done|]. intros [Hc _]%andb_true_iff. cbn [escape].
  destruct (_ || _); [done|]. cbn. unfold not_nl in Hc. rewrite negb_true_iff in Hc.
  destruct (char_eqb_spec nl c) as [<-|]; [by rewrite char_eqb_refl in Hc|done].
Qed.
Lemma escape_stops s r : head_is plain_char s = false -> head_is plain_char (escape s +:+ String quote r) = false.
Proof.
  destruct s as [|c s]; [done|]. cbn [head_is escape]. intros H. by destruct (_ || _).
Qed.
Lemma string_part_on s r l : condition l = STRING -> at_newline r = false ->
  string_part s r l = (append_string s (goto STRING r l), Nothing, None).
Proof. intros Hc Hn. unfold string_part, stay. by rewrite Hc, Hn. Qed.

(** In a string with the text [g] so far. *)
Definition in_string (g r : string) (sc : scanner) : Prop :=
  at_text STRING r sc /\ delim (lex sc) = quote /\ gathered (lex sc) = g.
Lemma string_step g g' r r' sc l : in_string g r sc -> rule (lex sc) = (l, Nothing, None) ->
  condition l = STRING -> input l = r' -> delim l = quote -> gathered l = g' ->
  silent sc (set_lex l sc) /\ near sc (set_lex l sc) /\ in_string g' r' (set_lex l sc).
Proof. intros _ E ? ? ? ?. split; [by apply rtc_once, run_nothing|]. split; [apply near_lex|done]. Qed.

Lemma string_chars n : forall s g r sc, (String.length s <= n)%nat -> string_all not_nl s = true ->
  in_string g (escape s +:+ String quote r) sc ->
  exists sc', silent sc sc' /\ near sc sc' /\ in_string (g +:+ s) (String quote r) sc'.
Proof.
  induction n as [|n IH]; intros s g r sc Hn Hs Hin.
  { destruct s; [|cbn in Hn; lia]. exists sc. split; [apply rtc_refl|]. split; [done|]. by rewrite app_nil_s. }
  destruct s as [|c t].
  { exists sc. split; [apply rtc_refl|]. split; [done|]. by rewrite app_nil_s. }
  assert (Hstep : exists w s' l, String c t = w +:+ s' /\ w <> "" /\ rule (lex sc) = (l, Nothing, None) /\
    condition l = STRING /\ input l = escape s' +:+ String quote r /\ delim l = quote /\ gathered l = g +:+ w).
  2: { destruct Hstep as (w & s' & l & Es & Hw & Er & Hc & Hi & Hd & Hg).
       destruct (string_step g _ _ _ sc l Hin Er Hc Hi Hd Hg) as (S1 & N1 & I1).
       assert (Hl : (String.length s' <= n)%nat).
       { apply (f_equal String.length) in Es. rewrite length_app_s in Es. destruct w; [done|]. cbn in Es, Hn. lia. }
       assert (Hs' : string_all not_nl s' = true).
       { rewrite Es, string_all_app in Hs. by apply andb_true_iff in Hs as [_ ?]. }
       destruct (IH s' _ r _ Hl Hs' I1) as (sc' & S2 & N2 & I2). exists sc'.
       split; [eapply silent_trans; [exact S1|exact S2]|]. split; [by etransitivity|].
       rewrite Es, app_assoc_s. exact I2. }
  destruct Hin as ((Hc & Hi) & Hd & Hg). unfold rule, string_rule. rewrite Hc, Hi.
  destruct (plain_char c) eqn:Hp.
  - pose proof (span_app plain_char (String c t)) as Ha. pose proof (span_max plain_char (String c t)) as Hm.
    pose proof (span_head plain_char c t Hp) as H0.
    destruct (span plain_char (String c t)) as [w s'] eqn:Esp. cbn [fst snd] in Hm, H0. destruct Ha as [Es Hw].
    assert (Hs' : string_all not_nl s' = true).
    { rewrite Es, string_all_app in Hs. by apply andb_true_iff in Hs as [_ ?]. }
    exists w, s', (append_string w (goto STRING (escape s' +:+ String quote r) (lex sc))).
    split; [done|]. split; [intros ->; cbn in H0; lia|]. split; [|cbn; by rewrite Hd, Hg].
    assert (Ei : escape (String c t) +:+ String quote r = w +:+ (escape s' +:+ String quote r)).
    { by rewrite Es, escape_plain, app_assoc_s. }
    rewrite Ei. assert (Ew : exists w', w = String c w').
    { destruct w as [|c' w']; [cbn in H0; lia|]. cbn in Es. injection Es as <- _. by exists w'. }
    destruct Ew as [w' ->]. change (String c w' +:+ (escape s' +:+ String quote r))
      with (String c (w' +:+ (escape s' +:+ String quote r))). cbn iota beta.
    assert (Hq : is_quote c = false) by (unfold is_quote; do 2 other c Hp; done). rewrite Hq. do 2 other c Hp.
    change (String c (w' +:+ (escape s' +:+ String quote r))) with (String c w' +:+ (escape s' +:+ String quote r)).
    rewrite span_all by (done || by apply escape_stops). apply string_part_on; [done|by apply escape_line].
  - assert (Ht : string_all not_nl t = true) by (by apply andb_true_iff in Hs as [_ ?]).
    assert (Hnl : c <> nl) by (intros ->; by apply andb_true_iff in Hs as [? _]).
    exists (str1 c), t. cbn [escape]. destruct (char_eqb c quote || char_eqb c backslash) eqn:He.
    + exists (append_string (str1 c) (goto STRING (escape t +:+ String quote r) (lex sc))).
      do 2 (split; [done|]). split; [|cbn; by rewrite Hd, Hg].
      change (String backslash (String c (escape t)) +:+ String quote r)
        with (String backslash (String c (escape t +:+ String quote r))). cbn iota beta.
      change (is_quote backslash) with false. change (char_eqb backslash backslash) with true. cbn iota.
      destruct (char_eqb_spec c nl); [done|]. apply string_part_on; [done|by apply escape_line].
    + exists (append_string (str1 c) (goto STRING (escape t +:+ String quote r) (lex sc))).
      do 2 (split; [done|]). split; [|cbn; by rewrite Hd, Hg].
      change (String c (escape t) +:+ String quote r) with (String c (escape t +:+ String quote r)). cbn iota beta.
      apply orb_false_iff in He as [He1 He2]. unfold plain_char in Hp. rewrite He2 in Hp.
      destruct (char_eqb_spec c nl); [done|]. rewrite !orb_false_r in Hp. apply negb_false_iff in Hp. rewrite Hp, Hd, He1.
      unfold stay. by rewrite Hc.
Qed.
Lemma quoted_gives sc s r : text_ok s = true -> at_text PARAM (" " +:+ quoted s +:+ r) sc ->
  gives sc (T_WORD_QUOTE s) PARAM r.
Proof.
  intros Hok [Hc Hi]. set (sc0 := set_lex (reset_delim (lex sc)) sc).
  assert (Hnl : string_all not_nl s = true) by (eapply string_all_impl; [|exact Hok]; by intros c [? _]%andb_true_iff).
  assert (Hnul : until_nul s = s).
  { clear -Hok. induction s as [|c s IH]; [done|]. apply andb_true_iff in Hok as [[_ Hc]%andb_true_iff Hs].
    cbn [until_nul]. apply negb_true_iff in Hc. by rewrite Hc, (IH Hs). }
  set (rest := escape s +:+ String quote r).
  assert (Er : quoted s +:+ r = String quote rest).
  { unfold quoted, rest. change (str1 quote +:+ escape s +:+ str1 quote) with (String quote (escape s +:+ str1 quote)).
    change (String quote (escape s +:+ str1 quote) +:+ r) with (String quote ((escape s +:+ str1 quote) +:+ r)).
    by rewrite <- app_assoc_s. }
  rewrite Er in Hi.
  set (sc1 := set_lex (goto PARAM (String quote rest) (lex sc0)) sc0).
  assert (S1 : silent sc0 sc1) by (apply rtc_once, skip_blank; split; [exact Hc|exact Hi]).
  set (sc2 := set_lex (open_string quote rest (lex sc1)) sc1).
  assert (S2 : silent sc1 sc2) by (apply rtc_once, run_nothing; reflexivity).
  destruct (string_chars (String.length s) s "" r sc2 ltac:(lia) Hnl) as (sc3 & S3 & N3 & ((C3 & I3) & D3 & G3)); [done|].
  change (gathered (lex sc3) = s) in G3.
  eapply (silent_gives sc sc3 _ PARAM r (set_lex (goto PARAM r (lex sc3)) sc3)).
  - eapply silent_trans; [exact S1|]. eapply silent_trans; [exact S2|exact S3].
  - etransitivity; [|exact N3]. by split.
  - apply run_nothing. unfold rule, string_rule. rewrite C3, I3. cbn. rewrite D3. cbn. unfold string_token. by rewrite G3, Hnul.
  - apply near_lex.
  - done.
Qed.

(** *** A parameter *)

Lemma lookup_word_chars id : kconf_id_lookup (id_name id) = Some id -> string_all word_char (id_name id) = true /\ id_name id <> "".
Proof.
  intros H. assert (Hin : In id kconf_ids) by (by apply List.find_some in H as [? _]).
  assert (Hall : forallb (fun i => string_all word_char (id_name i) && negb (String.eqb (id_name i) "")) kconf_ids = true)
    by (vm_compute; reflexivity).
  apply forallb_forall with (x := id) in Hall; [|exact Hin]. apply andb_true_iff in Hall as [? Hne]. split; [done|].
  by apply negb_true_iff, String.eqb_neq in Hne.
Qed.
Lemma word_param c : word_char c = true -> param_char c = true.
Proof. unfold param_char. by intros ->. Qed.
Lemma key_not_dashes w : string_all word_char w = true -> w <> "---".
Proof. by intros H ->. Qed.

Lemma param_gives sc t r : param_ok t = true -> sep r = true -> at_text PARAM (" " +:+ spell t +:+ r) sc ->
  gives sc t PARAM r.
Proof.
  intros Ht Hr Ha. destruct (sep_cases r Hr) as (r' & Hr').
  assert (Hop : forall s, (forall l, condition l = PARAM -> input l = s +:+ r -> rule l = (goto PARAM r l, Nothing, Some t)) ->
    at_text PARAM (" " +:+ s +:+ r) sc -> gives sc t PARAM r).
  { intros s Hs Hat. by apply (blank_gives sc (s +:+ r)). }
  destruct t as [id|w|w|w| | | | | | | | |]; cbn [spell param_ok] in *; try discriminate Ht.
  - apply andb_true_iff in Ht as [Hid%bool_decide_eq_true Hf].
    destruct (lookup_word_chars id Hid) as [Hw Hne]. apply (Hop (id_name id)); [|done]. intros l Hc Hi.
    rewrite (word_rule (id_name id) r l); [|by eapply string_all_impl; [apply word_param|]|done|by apply key_not_dashes|done..].
    unfold id_token_of. by rewrite Hid, Hf.
  - apply andb_true_iff in Ht as [[[Hne Hw]%andb_true_iff Hd]%andb_true_iff Hk].
    apply negb_true_iff, String.eqb_neq in Hne, Hd. apply (Hop w); [|done]. intros l Hc Hi.
    rewrite (word_rule w r l) by done. unfold id_token_of. destruct (kconf_id_lookup w) as [id|]; [|done].
    apply negb_true_iff in Hk. by rewrite Hk.
  - by apply quoted_gives.
  - apply (Hop "&&"); [|done]. intros l Hc Hi. unfold rule, param_rule. rewrite Hc, Hi. by apply give_goto.
  - apply (Hop "||"); [|done]. intros l Hc Hi. unfold rule, param_rule. rewrite Hc, Hi. by apply give_goto.
  - apply (Hop "!"); [|done]. intros l Hc Hi. unfold rule, param_rule. rewrite Hc, Hi.
    destruct Hr' as [-> | ->]; by apply give_goto.
  - apply (Hop "="); [|done]. intros l Hc Hi. unfold rule, param_rule. rewrite Hc, Hi. by apply give_goto.
  - apply (Hop "!="); [|done]. intros l Hc Hi. unfold rule, param_rule. rewrite Hc, Hi. by apply give_goto.
  - apply (Hop "("); [|done]. intros l Hc Hi. unfold rule, param_rule. rewrite Hc, Hi. by apply give_goto.
  - apply (Hop ")"); [|done]. intros l Hc Hi. unfold rule, param_rule. rewrite Hc, Hi. by apply give_goto.
Qed.

(** ** Lines *)

Fixpoint yields (sc : scanner) (ts : list tok) (sc' : scanner) : Prop :=
  match ts with
  | [] => sc' = sc
  | t :: ts => exists sc1, yylex sc = Ok t sc1 /\ yields sc1 ts sc'
  end.
Lemma yields_app sc a b sc' : yields sc (a ++ b) sc' <-> exists sc1, yields sc a sc1 /\ yields sc1 b sc'.
Proof.
  revert sc. induction a as [|t a IH]; intros sc; cbn.
  - split; [eauto|]. by intros (? & -> & ?).
  - split.
    + intros (s1 & Et & Hy). apply IH in Hy as (s2 & ? & ?). eauto.
    + intros (s2 & (s1 & Et & Ha) & Hb). exists s1. split; [done|]. apply IH. eauto.
Qed.

Lemma spells_sep ts r : sep r = true -> sep (spells ts +:+ r) = true.
Proof. by destruct ts. Qed.
Lemma params_yield ts : forall sc r, forallb param_ok ts = true -> sep r = true -> at_text PARAM (spells ts +:+ r) sc ->
  exists sc', yields sc ts sc' /\ near sc sc' /\ at_text PARAM r sc'.
Proof.
  induction ts as [|t ts IH]; intros sc r Hok Hr Ha; [by exists sc|]. apply andb_true_iff in Hok as [Ht Hok].
  change (spells (t :: ts) +:+ r) with ((" " +:+ spell t +:+ spells ts) +:+ r) in Ha. rewrite <- !app_assoc_s in Ha.
  destruct (param_gives sc t (spells ts +:+ r) Ht (spells_sep ts r Hr) Ha) as (sc1 & E & N1 & A1).
  destruct (IH sc1 r Hok Hr A1) as (sc2 & Y & N2 & A2). exists sc2. split; [by exists sc1|]. split; [by etransitivity|done].
Qed.

Lemma newline_gives sc r f : at_text PARAM (NL +:+ r) sc -> current_file sc = Some f -> gives sc T_EOL INITIAL r.
Proof.
  intros [Hc Hi] Hf. set (sc0 := set_lex (reset_delim (lex sc)) sc).
  destruct (run_line sc0 (goto INITIAL r (lex sc0)) (Some T_EOL) f) as [n Hn]; [|exact Hf|].
  { unfold rule, param_rule. change (condition (lex sc0)) with (condition (lex sc)). rewrite Hc.
    change (input (lex sc0)) with (input (lex sc)). rewrite Hi. reflexivity. }
  eapply silent_gives; [apply rtc_refl|by split|exact Hn|by split|by split].
Qed.
Lemma command_chars id : command_ok id = true -> exists c w, id_name id = String c w /\ word_char c = true /\
  string_all word_char (id_name id) = true /\ kconf_id_lookup (id_name id) = Some id.
Proof.
  intros [Hid%bool_decide_eq_true _]%andb_true_iff. destruct (lookup_word_chars id Hid) as [Hw Hne].
  destruct (id_name id) as [|c w] eqn:E; [done|]. exists c, w. pose proof Hw as Hw'. cbn in Hw'.
  apply andb_true_iff in Hw' as [? _]. rewrite <- E in *. auto.
Qed.
Lemma command_gives sc id r f : command_ok id = true -> sep r = true -> at_text INITIAL (id_name id +:+ r) sc ->
  current_file sc = Some f -> gives sc (TKey id) PARAM r.
Proof.
  intros Hok Hr [Hc Hi] Hf. destruct (command_chars id Hok) as (c & w & En & Hcw & Hw & Hid).
  set (sc0 := set_lex (reset_delim (lex sc)) sc).
  set (sc1 := set_lex (goto COMMAND (id_name id +:+ r) (lex sc0)) sc0).
  assert (S1 : silent sc0 sc1).
  { apply rtc_once, run_nothing. unfold rule, initial_rule.
    change (condition (lex sc0)) with (condition (lex sc)). change (input (lex sc0)) with (input (lex sc)). rewrite Hc, Hi, En.
    change (String c w +:+ r) with (String c (w +:+ r)).
    assert (Hb : is_blank c = false) by (unfold is_blank; do 2 other c Hcw; done). cbn [span]. rewrite Hb. do 2 other c Hcw. done. }
  destruct (run_mark sc1 (goto PARAM r (lex sc1)) (Some (TKey id)) f) as [n Hn]; [|exact Hf|].
  { unfold rule, command_rule. cbn [sc1 condition input lex set_lex goto]. rewrite En.
    change (String c w +:+ r) with (String c (w +:+ r)). cbn iota beta. rewrite Hcw.
    change (String c (w +:+ r)) with (String c w +:+ r). rewrite <- En. rewrite span_all by (done || by apply sep_stops).
    unfold id_token_of. rewrite Hid. apply andb_true_iff in Hok as [_ Hflag]. by rewrite Hflag. }
  eapply silent_gives; [exact S1|by split|exact Hn|by split|by split].
Qed.
Lemma line_yields sc id ts r f : command_ok id = true -> forallb param_ok ts = true ->
  at_text INITIAL (line_text id ts +:+ r) sc -> current_file sc = Some f ->
  exists sc', yields sc (TKey id :: ts ++ [T_EOL]) sc' /\ near sc sc' /\ at_text INITIAL r sc'.
Proof.
  intros Hid Hts Ha Hf. unfold line_text in Ha. rewrite <- !app_assoc_s in Ha.
  destruct (command_gives sc id (spells ts +:+ NL +:+ r) f Hid (spells_sep _ (NL +:+ r) eq_refl) Ha Hf) as (sc1 & E1 & N1 & A1).
  destruct (params_yield ts sc1 (NL +:+ r) Hts eq_refl A1) as (sc2 & Y2 & N2 & A2).
  destruct (newline_gives sc2 r f A2) as (sc3 & E3 & N3 & A3).
  { by rewrite (ne_file _ _ N2), (ne_file _ _ N1). }
  exists sc3. split; [|split; [etransitivity; [exact N1|]; by etransitivity|exact A3]].
  exists sc1. split; [done|]. apply yields_app. exists sc2. split; [done|]. by exists sc3.
Qed.

(** ** Help *)

Definition tail_text (ls : list string) : string := foldr (fun l acc => NL +:+ l +:+ acc) "" ls.
Lemma lines_of_text s : exists l ls, lines_of s = l :: ls /\ s = l +:+ tail_text ls.
Proof.
  induction s as [|c s (l & ls & E & Es)]; [by exists "", []|]. cbn [lines_of].
  destruct (char_eqb_spec c nl) as [->|_].
  - exists "", (lines_of s). split; [done|]. rewrite E. exact (f_equal (String nl) Es).
  - rewrite E. exists (String c l), ls. split; [done|]. exact (f_equal (String c) Es).
Qed.
Lemma lines_of_line s : Forall (fun l => string_all not_nl l = true) (lines_of s).
Proof.
  induction s as [|c s IH]; [by repeat constructor|]. cbn [lines_of]. destruct (char_eqb_spec c nl) as [->|Hc]; [by constructor|].
  destruct (lines_of s) as [|l ls]; [repeat constructor|inversion_clear IH; constructor]; try done; cbn; unfold not_nl;
    destruct (char_eqb_spec c nl); [done..|]. done.
Qed.

Lemma spaces_all s : string_all (fun c => char_eqb c " ") s = true -> s = spaces (Z.of_nat (String.length s)).
Proof.
  unfold spaces. rewrite Nat2Z.id. induction s as [|c s IH]; [done|]. intros [Hc Hs]%andb_true_iff.
  destruct (char_eqb_spec c " ") as [->|]; [|done]. cbn [String.length repeat].
  assert (E : String.concat "" (" " :: repeat " " (String.length s))%list = String " " (String.concat "" (repeat " " (String.length s)))).
  { by destruct (repeat " " (String.length s)). }
  rewrite E. by rewrite <- (IH Hs).
Qed.
Lemma column_spaces s : forall n, string_all (fun c => char_eqb c " ") s = true -> column n s = n + Z.of_nat (String.length s).
Proof.
  induction s as [|c s IH]; intros n; [cbn; lia|]. intros [Hc Hs]%andb_true_iff.
  destruct (char_eqb_spec c " ") as [->|]; [|done]. cbn [column String.length]. change (char_eqb " " (chr 9)) with false. cbn iota.
  rewrite (IH _ Hs). lia.
Qed.
Lemma trim_blank s : string_all is_blank s = true -> trim_blanks s = "".
Proof.
  induction s as [|c s IH]; [done|]. intros [Hc Hs]%andb_true_iff. cbn [trim_blanks]. by rewrite (IH Hs), Hc.
Qed.
Lemma trim_app a s : trim_blanks s <> "" -> trim_blanks (a +:+ s) = a +:+ trim_blanks s.
Proof.
  intros Hs. induction a as [|c a IH]; [done|]. change (String c a +:+ s) with (String c (a +:+ s)). cbn [trim_blanks].
  rewrite IH. destruct a as [|d a]; [|done]. cbn. by destruct (trim_blanks s).
Qed.
Lemma app_inv_head_s a s t : a +:+ s = a +:+ t -> s = t.
Proof. induction a as [|c a IH]; [done|]. cbn. intros [= H]. by apply IH. Qed.

(** A line of help is spaces and a text that begins and ends with no blank. *)
Lemma help_line_split l : help_line_ok l = true -> l <> "" -> exists b c t, l = b +:+ String c t /\
  string_all (fun c => char_eqb c " ") b = true /\ is_blank c = false /\ trim_blanks (String c t) = String c t.
Proof.
  intros [Ht%String.eqb_eq Hb]%andb_true_iff Hl. pose proof (span_app is_blank l) as Ha. pose proof (span_max is_blank l) as Hm.
  destruct (span is_blank l) as [b r]. cbn [fst snd] in *. destruct Ha as [El Hall].
  destruct r as [|c t].
  - rewrite app_nil_s in El. subst b. by rewrite trim_blank in Ht.
  - exists b, c, t. split; [done|]. split; [done|]. cbn in Hm. split; [done|].
    destruct (trim_blanks (String c t)) as [|c' t'] eqn:E.
    + exfalso. assert (Hc : trim_blanks (String c t) <> "").
      { cbn [trim_blanks]. destruct (trim_blanks t); [|done]. by rewrite Hm. }
      done.
    + rewrite El, trim_app in Ht by (by rewrite E). rewrite E in Ht. by apply app_inv_head_s in Ht.
Qed.

(** In a help text with [g] so far, whose lines begin at column [first]. *)
Definition in_help (first : Z) (g r : string) (sc : scanner) : Prop :=
  at_text HELP r sc /\ first_ts (lex sc) = first /\ gathered (lex sc) = g.
(** The scanner gets from one state to the other without a token. *)
Definition helps (sc sc' : scanner) : Prop := silent sc sc' /\ near sc sc'.
Lemma helps_trans a b c : helps a b -> helps b c -> helps a c.
Proof. intros [H1 N1] [H2 N2]. split; [by eapply silent_trans|by etransitivity]. Qed.

Lemma help_words b t g r first sc : is_blank b = false -> string_all not_nl (String b t) = true ->
  trim_blanks (String b t) = String b t -> in_help first g (String b t +:+ NL +:+ r) sc ->
  exists sc', helps sc sc' /\ in_help (if first =? 0 then last_ts (lex sc) else first) (g +:+ String b t) (NL +:+ r) sc'.
Proof.
  intros Hb Hn Ht ((Hc & Hi) & Hf & Hg).
  exists (set_lex (set_columns (last_ts (lex sc)) (if first =? 0 then last_ts (lex sc) else first)
    (append_string (String b t) (goto HELP (NL +:+ r) (lex sc)))) sc). split; [split; [|by split]|].
  - apply rtc_once, run_nothing. unfold rule, help_rule. rewrite Hc, Hi.
    change (String b t +:+ NL +:+ r) with (String b (t +:+ NL +:+ r)). cbn [span]. rewrite Hb.
    assert (Hbn : char_eqb b nl = false) by (apply andb_true_iff in Hn as [Hn _]; by apply negb_true_iff in Hn). rewrite Hbn.
    cbn [String.eqb]. change (String b (t +:+ NL +:+ r)) with (String b t +:+ NL +:+ r).
    rewrite span_all by done. rewrite Ht. unfold stay. rewrite Hc. cbn [first_ts last_ts goto append_string]. by rewrite Hf.
  - split; [done|]. cbn. by rewrite Hg.
Qed.
Lemma help_indent s g c r first sc : string_all (fun c => char_eqb c " ") s = true -> is_blank c = false -> char_eqb c nl = false ->
  s <> "" -> 0 < first <= Z.of_nat (String.length s) -> in_help first g (s +:+ String c r) sc ->
  exists sc', helps sc sc' /\ in_help first (g +:+ spaces (Z.of_nat (String.length s) - first)) (String c r) sc'.
Proof.
  intros Hs Hc Hn Hne Hle ((Hco & Hi) & Hf & Hg).
  exists (set_lex (append_string (spaces (Z.of_nat (String.length s) - first)) (set_columns (Z.of_nat (String.length s)) first
    (goto HELP (String c r) (lex sc)))) sc). split; [split; [|by split]|].
  - apply rtc_once, run_nothing. unfold rule, help_rule. rewrite Hco, Hi.
    assert (Hsb : string_all is_blank s = true).
    { eapply string_all_impl; [|exact Hs]. intros d Hd. unfold is_blank. by rewrite Hd. }
    rewrite span_all by (done || (cbn; exact Hc)). rewrite Hn. apply String.eqb_neq in Hne. rewrite Hne.
    unfold indent_rule, stay. rewrite Hco, (column_spaces s 0 Hs), Z.add_0_l. cbn [first_ts set_columns goto]. rewrite Hf.
    destruct (Z.eqb_spec first 0); [lia|]. destruct (Z.ltb_spec (Z.of_nat (String.length s)) first); [lia|]. done.
  - split; [done|]. cbn. by rewrite Hg.
Qed.
Lemma help_newline g r first sc f : head_is (fun c => is_blank c || char_eqb c nl) r = true -> current_file sc = Some f ->
  in_help first g (NL +:+ r) sc -> exists sc', helps sc sc' /\ in_help first (g +:+ NL) r sc'.
Proof.
  intros Hr Hf ((Hc & Hi) & Hft & Hg).
  destruct (run_line sc (append_string NL (goto HELP r (lex sc))) None f) as [n Hn]; [|done|].
  - unfold rule, help_rule. rewrite Hc, Hi. change (NL +:+ r) with (String nl r). cbn [span].
    change (is_blank nl) with false. cbn iota. change (char_eqb nl nl) with true. cbn iota.
    unfold stay. rewrite Hc. destruct r as [|d r]; [done|]. cbn [head_is] in *. by rewrite Hr.
  - eexists. split; [split; [by apply rtc_once|by split]|]. split; [done|]. cbn. by rewrite Hg.
Qed.

Lemma help_line_head l ls r : head_is (fun c => is_blank c || char_eqb c nl) (help_lines (l :: ls) +:+ r) = true.
Proof. cbn. unfold help_line. by destruct (String.eqb l ""). Qed.
Lemma spaces_sub (b : string) : string_all (fun c => char_eqb c " ") b = true ->
  spaces (Z.of_nat (String.length (" " +:+ " " +:+ b)) - 2) = b.
Proof.
  intros Hb. rewrite (spaces_all b Hb) at 2. f_equal. rewrite !length_app_s. cbn. lia.
Qed.

(** From the end of a line of the text on. *)
Lemma help_rest ls : forall g r sc f, Forall (fun l => string_all not_nl l = true) ls -> forallb help_line_ok ls = true ->
  current_file sc = Some f -> in_help 2 g (NL +:+ help_lines ls +:+ "#" +:+ r) sc ->
  exists sc', helps sc sc' /\ in_help 2 (g +:+ tail_text ls) (NL +:+ "#" +:+ r) sc'.
Proof.
  induction ls as [|l ls IH]; intros g r sc f Hl Hok Hf Hin.
  { exists sc. split; [split; [apply rtc_refl|done]|]. by rewrite app_nil_s. }
  inversion_clear Hl as [|? ? Hl1 Hl2]. apply andb_true_iff in Hok as [Hok1 Hok2].
  destruct (help_newline g _ 2 sc f (help_line_head l ls _) Hf Hin) as (sc1 & H1 & I1).
  assert (Hf1 : current_file sc1 = Some f) by (by rewrite (ne_file _ _ (proj2 H1))).
  assert (Hbody : exists sc2, helps sc1 sc2 /\ in_help 2 ((g +:+ NL) +:+ l) (NL +:+ help_lines ls +:+ "#" +:+ r) sc2).
  { cbn [help_lines foldr] in I1. unfold help_line in I1. fold (help_lines ls) in I1.
    destruct (String.eqb_spec l "") as [->|Hne].
    - exists sc1. split; [split; [apply rtc_refl|done]|]. rewrite app_nil_s. exact I1.
    - destruct (help_line_split l Hok1 Hne) as (b & c & t & -> & Hb & Hc & Ht).
      assert (Hlen : (2 <= String.length ("  " +:+ b))%nat) by (rewrite length_app_s; cbn; lia).
      rewrite string_all_app in Hl1. apply andb_true_iff in Hl1 as [_ Hct].
      assert (Hcn : char_eqb c nl = false) by (apply andb_true_iff in Hct as [Hn _]; by apply negb_true_iff in Hn).
      match type of I1 with in_help _ _ ?x _ =>
        replace x with (("  " +:+ b) +:+ String c (t +:+ NL +:+ help_lines ls +:+ "#" +:+ r)) in I1
          by (rewrite <- !app_assoc_s; reflexivity)
      end.
      destruct (help_indent ("  " +:+ b) (g +:+ NL) c _ 2 sc1 Hb Hc Hcn ltac:(done) ltac:(lia) I1) as (sc2 & H2 & I2).
      change ("  " +:+ b) with (" " +:+ " " +:+ b) in I2. rewrite spaces_sub in I2 by done.
      destruct (help_words c t _ _ 2 sc2 Hc Hct Ht I2) as (sc3 & H3 & I3). exists sc3.
      split; [by eapply helps_trans|]. cbn [Z.eqb] in I3. rewrite app_assoc_s. exact I3. }
  destruct Hbody as (sc2 & H2 & I2).
  assert (Hf2 : current_file sc2 = Some f) by (by rewrite (ne_file _ _ (proj2 H2))).
  destruct (IH _ r sc2 f Hl2 Hok2 Hf2 I2) as (sc3 & H3 & I3). exists sc3.
  split; [eapply helps_trans; [exact H1|]; by eapply helps_trans|]. cbn [tail_text foldr]. fold (tail_text ls).
  by rewrite !app_assoc_s in *.
Qed.

(** The text of a help option, from its beginning ([zconf_starthelp]) on. *)
Lemma help_gives text r sc f : help_ok text = true -> current_file sc = Some f -> last_ts (lex sc) = 0 ->
  in_help 0 "" (help_lines (lines_of text) +:+ "#" +:+ r) sc -> gives sc (T_HELPTEXT text) INITIAL ("#" +:+ r).
Proof.
  intros [[Hnul Hhead]%andb_true_iff Hok]%andb_true_iff Hf Hts ((Hc & Hi) & Hft & Hg).
  destruct (lines_of_text text) as (l & ls & El & Et). pose proof (lines_of_line text) as Hln. rewrite El in *.
  inversion_clear Hln as [|? ? Hl1 Hl2]. apply andb_true_iff in Hok as [Hok1 Hok2].
  assert (Hl : exists c t, l = String c t /\ is_blank c = false /\ char_eqb c nl = false).
  { rewrite Et in Hhead. destruct l as [|c t]; [by destruct ls|]. cbn in Hhead.
    apply andb_true_iff in Hhead as [H1%negb_true_iff H2%negb_true_iff]. by exists c, t. }
  destruct Hl as (c & t & -> & Hcb & Hcn).
  assert (Ht : trim_blanks (String c t) = String c t) by (by apply andb_true_iff in Hok1 as [?%String.eqb_eq _]).
  set (sc0 := set_lex (reset_delim (lex sc)) sc). set (body := help_lines ls +:+ "#" +:+ r).
  assert (I0 : in_help 0 "" ("  " +:+ String c t +:+ NL +:+ body) sc0).
  { split; [split; [exact Hc|]|done]. change (input (lex sc0)) with (input (lex sc)). rewrite Hi. cbn [help_lines foldr].
    unfold help_line. cbn [String.eqb]. unfold body. rewrite <- !app_assoc_s. reflexivity. }
  (* The first line sets the column. *)
  set (sc1 := set_lex (set_columns 2 0 (goto HELP (String c t +:+ NL +:+ body) (lex sc0))) sc0).
  assert (H1 : helps sc0 sc1).
  { split; [|by split]. apply rtc_once, run_nothing. destruct I0 as ((Hc0 & Hi0) & Hf0 & _). unfold rule, help_rule.
    rewrite Hc0, Hi0. change (String c t +:+ NL +:+ body) with (String c (t +:+ NL +:+ body)).
    rewrite (span_all is_blank "  ") by (done || exact Hcb). rewrite Hcn. cbn [String.eqb]. unfold indent_rule, stay.
    rewrite Hc0. cbn [first_ts set_columns goto]. rewrite Hf0. reflexivity. }
  destruct (help_words c t "" body 0 sc1 Hcb Hl1 Ht) as (sc2 & H2 & I2); [by split; [split|]|].
  cbn [Z.eqb] in I2. change (last_ts (lex sc1)) with 2 in I2. change ("" +:+ String c t) with (String c t) in I2.
  assert (Hf2 : current_file sc2 = Some f) by (rewrite (ne_file _ _ (proj2 H2)); exact Hf).
  destruct (help_rest ls (String c t) r sc2 f Hl2 Hok2 Hf2 I2) as (sc3 & H3 & ((C3 & I3) & F3 & G3)).
  assert (Hall : helps sc0 sc3) by (eapply helps_trans; [exact H1|]; by eapply helps_trans).
  assert (Hf3 : current_file sc3 = Some f) by (by rewrite (ne_file _ _ (proj2 H3))).
  destruct (run_line sc3 (goto INITIAL ("#" +:+ r) (lex sc3)) (Some (T_HELPTEXT text)) f) as [n Hn]; [|done|].
  { unfold rule, help_rule. rewrite C3, I3. change (NL +:+ "#" +:+ r) with (String nl ("#" +:+ r)). cbn [span].
    change (is_blank nl) with false. cbn iota. change (char_eqb nl nl) with true. cbn iota.
    unfold help_token. rewrite G3, <- Et.
    assert (Hun : until_nul text = text).
    { clear -Hnul. induction text as [|d s IH]; [done|]. apply andb_true_iff in Hnul as [Hd Hs].
      cbn [until_nul]. apply negb_true_iff in Hd. by rewrite Hd, (IH Hs). }
    by rewrite Hun. }
  destruct Hall as [S0 N0]. eapply silent_gives; [exact S0|etransitivity; [|exact N0]; by split|exact Hn|by split|by split].
Qed.

(** The comment line behind the text. *)
Lemma comment_gives sc r f : at_text INITIAL ("#" +:+ NL +:+ r) sc -> current_file sc = Some f -> gives sc T_EOL INITIAL r.
Proof.
  intros [Hc Hi] Hf. set (sc0 := set_lex (reset_delim (lex sc)) sc).
  destruct (run_line sc0 (goto INITIAL r (lex sc0)) (Some T_EOL) f) as [n Hn]; [|exact Hf|].
  { unfold rule, initial_rule. change (condition (lex sc0)) with (condition (lex sc)). rewrite Hc.
    change (input (lex sc0)) with (input (lex sc)). rewrite Hi. reflexivity. }
  eapply silent_gives; [apply rtc_refl|by split|exact Hn|by split|by split].
Qed.
