(* ===== verification/KGrammar.v ===== *)
(** The grammar of Kconfig files (src/buildroot/support/kconfig/zconf.y) as a parser
    over the tokens of KScan, with its actions; the files it reads (zconf.l); and
    [conf_parse] from the name of a file.

    The automaton bison generates looks one token ahead where a rule of the grammar
    needs it, and only there; so does the parser here ([peek]), which matters because
    [zconf_nextfile], [zconf_starthelp] and the positions of the entries depend on what
    the scanner has read.  A syntax error ends the program here: the real parser goes
    on to report further errors and then exits with the same status. *)
From S2P Require Import Prelude CText KExpr KSym KConf KHelp KMenu KParse KScan.

(** ** State *)

(** [places]: the file and the line of an entry ([menu->file], [menu->lineno]). *)
Record gstate := {
  pst : pstate;
  scn : scanner;
  ahead : option tok;
  places : gmap menuref (option nat * Z);
}.
Definition set_pst (p : pstate) (g : gstate) : gstate := {| pst := p; scn := scn g; ahead := ahead g; places := places g |}.
Definition set_scn (s : scanner) (g : gstate) : gstate := {| pst := pst g; scn := s; ahead := ahead g; places := places g |}.
Definition set_ahead (t : option tok) (g : gstate) : gstate := {| pst := pst g; scn := scn g; ahead := t; places := places g |}.
Definition set_place (m : menuref) (p : option nat * Z) (g : gstate) : gstate :=
  {| pst := pst g; scn := scn g; ahead := ahead g; places := <[m := p]> (places g) |}.

Abbreviation GM := (EM gstate).
Definition act {A} (m : ZM A) : GM A := fun g =>
  match m (pst g) with Ok a p => Ok (Returned a) (set_pst p g) | Fault => Fault | NoFuel => NoFuel end.
Definition scan {A} (m : SC A) : GM A := fun g =>
  match m (scn g) with Ok a s => Ok (Returned a) (set_scn s g) | Fault => Fault | NoFuel => NoFuel end.
(** The program ends with status 1. *)
Definition syntax_error {A} : GM A := eexit 1.

Definition peek : GM tok :=
  g ← eget;
  match ahead g with
  | Some t => mret t
  | None => t ← scan yylex; emodify (set_ahead (Some t));; mret t
  end.
Definition skip : GM unit := emodify (set_ahead None).
Definition next : GM tok := t ← peek; skip;; mret t.

(** [menu_add_entry] in [m]: the new entry is at the present position. *)
Definition at_place {A} (m : ZM A) : GM A :=
  g ← eget;
  emodify (set_place (fresh_menu (pst g)) (current_file (scn g), zconf_lineno (scn g)));;
  act m.

(** ** Files (zconf.l) *)

Section Files.
Variable getenv : string -> option string.
Variable fopen : string -> option string.

Definition srctree_name (env nm : string) : string := env +:+ "/" +:+ nm.
Definition zconf_fopen (nm : string) : option string :=
  match fopen nm with
  | Some t => Some t
  | None =>
      if head_is (char_eqb "/") nm then None
      else match getenv "srctree" with Some env => fopen (srctree_name env nm) | None => None end
  end.
(** The name with the directory is put together in [PATH_MAX+1] bytes. *)
Definition open_file (nm : string) : GM (option string) :=
  match fopen nm, head_is (char_eqb "/") nm, getenv "srctree" with
  | None, false, Some env =>
      if Z.of_nat (String.length (srctree_name env nm)) <=? PATH_MAX then mret (zconf_fopen nm) else efault
  | _, _, _ => mret (zconf_fopen nm)
  end.

Definition lookup_file (nm : string) : GM nat :=
  g ← eget;
  '(f, fl) ← act (on_heap (file_lookup (names (scn g)) nm));
  scan (pmodify (set_names fl));; mret f.
Definition say_out (t : string) : GM unit := scan (pmodify (say t)).

Definition zconf_initscan (nm : string) : GM unit :=
  t ← open_file nm;
  match t with
  | None => say_out ("can't find file " +:+ nm +:+ NL);; eexit 1
  | Some t =>
      f ← lookup_file nm;
      g ← eget;
      scan (pmodify (set_lex (stay t (lex (scn g)))));;
      scan (pmodify (set_current (Some []) (Some f)));;
      scan (pmodify (set_lineno f 1))
  end.

(** The files above [f], while the name is not that of [f]: [Some] of the lines printed
    for them and the one with the same name. *)
Fixpoint included_from (sc : scanner) (nm : string) (n : nat) (iter : option nat) : option (string * option nat) :=
  match iter with
  | None => Some ("", None)
  | Some i =>
      if String.eqb (name_of i sc) nm then Some ("", Some i)
      else
        match n with
        | O => None
        | S n =>
            '(t, last) ← included_from sc nm n (parent_of i sc);
            Some ("  included from: '" +:+ name_of i sc +:+ ":" +:+ fmt_d (lineno_of i sc - 1) +:+ "'" +:+ NL +:+ t, last)
        end
  end.
(** The current file is among those it is included from. *)
Definition check_recursion (f : nat) : GM unit :=
  g ← eget;
  let sc := scn g in
  match included_from sc (name_of f sc) (length (names sc)) (parent_of f sc) with
  | None => enofuel
  | Some (_, None) => mret tt
  | Some (lines, Some i) =>
      say_out (location sc +:+ " recursive inclusion detected. Inclusion path:" +:+ NL
               +:+ "  current file : '" +:+ zconf_curname sc +:+ "'" +:+ NL +:+ lines
               +:+ "  included from: '" +:+ name_of i sc +:+ ":" +:+ fmt_d (lineno_of i sc + 1) +:+ "'" +:+ NL);;
      eexit 1
  end.
Definition zconf_nextfile (nm : string) : GM unit :=
  f ← lookup_file nm;
  g ← eget;
  bs ← elift (buffers (scn g));
  t ← open_file (name_of f (scn g));
  match t with
  | None =>
      say_out (location (scn g) +:+ " can't open file " +:+ str1 quote +:+ name_of f (scn g) +:+ str1 quote +:+ NL);;
      eexit 1
  | Some t =>
      scan (pmodify (set_lex (stay t (lex (scn g)))));;
      scan (pmodify (set_current (Some (input (lex (scn g)) :: bs)) (current_file (scn g))));;
      c ← elift (current_file (scn g));
      check_recursion c;;
      scan (pmodify (set_lineno f 1));;
      scan (pmodify (set_file_parent f (Some c)));;
      scan (pmodify (fun sc => set_current (buffers sc) (Some f) sc))
  end.

(** ** Expressions *)

Definition p_term (t : tok) : GM term :=
  match t with T_WORD w => mret (Word w) | T_WORD_QUOTE w => mret (Quoted w) | _ => syntax_error end.
Definition p_symbol : GM term := t ← next; p_term t.
Definition p_prompt : GM string :=
  t ← next; match t with T_WORD w | T_WORD_QUOTE w => mret w | _ => syntax_error end.
Definition p_word : GM string := t ← next; match t with T_WORD w => mret w | _ => syntax_error end.
Definition p_eol : GM unit := t ← next; match t with T_EOL => mret tt | _ => syntax_error end.

(** [symbol], [symbol = symbol] or [symbol != symbol] *)
Definition p_compare (a : term) : GM kexpr :=
  t ← peek;
  match t with
  | T_EQUAL => skip;; b ← p_symbol; mret (KEqual a b)
  | T_UNEQUAL => skip;; b ← p_symbol; mret (KUnequal a b)
  | _ => mret (KSymbol a)
  end.
(** Operands of the left-associative operators, [e] read so far. *)
Fixpoint p_and (operand : GM kexpr) (n : nat) (e : kexpr) : GM kexpr :=
  match n with
  | O => enofuel
  | S n =>
      t ← peek;
      match t with T_AND => skip;; r ← operand; p_and operand n (KAnd e r) | _ => mret e end
  end.
Fixpoint p_or (operand : GM kexpr) (n : nat) (e : kexpr) : GM kexpr :=
  match n with
  | O => enofuel
  | S n =>
      t ← peek;
      match t with T_OR => skip;; r ← operand; p_or operand n (KOr e r) | _ => mret e end
  end.
(** [T_NOT] binds tighter than [T_AND], and that than [T_OR]. *)
Fixpoint p_unary (n : nat) : GM kexpr :=
  match n with
  | O => enofuel
  | S n =>
      t ← next;
      match t with
      | T_NOT => e ← p_unary n; mret (KNot e)
      | T_OPEN_PAREN =>
          let conj := (e ← p_unary n; p_and (p_unary n) n e) in
          e ← conj; e ← p_or conj n e;
          t ← next;
          match t with T_CLOSE_PAREN => mret e | _ => syntax_error end
      | _ => a ← p_term t; p_compare a
      end
  end.
Definition p_conj (n : nat) : GM kexpr := e ← p_unary n; p_and (p_unary n) n e.
Definition p_expr (n : nat) : GM kexpr := e ← p_conj n; p_or (p_conj n) n e.
Definition is_key (k : keyword) (t : tok) : bool :=
  match t with TKey id => bool_decide (id_token id = k) | _ => false end.
Definition p_if_expr (n : nat) : GM (option kexpr) :=
  t ← peek;
  if is_key T_IF t then skip;; e ← p_expr n; mret (Some e) else mret None.

(** ** Options *)

(** [prompt_stmt_opt] *)
Definition p_prompt_opt (n : nat) : GM (option (string * option kexpr)) :=
  t ← peek;
  match t with
  | T_WORD w | T_WORD_QUOTE w => skip;; c ← p_if_expr n; mret (Some (w, c))
  | _ => mret None
  end.
(** [T_DEPENDS] has been read. *)
Definition p_depends (n : nat) : GM kexpr :=
  t ← next;
  if is_key T_ON t then e ← p_expr n; p_eol;; mret e else syntax_error.
(** [T_HELP] has been read. *)
Definition p_help : GM string :=
  p_eol;;
  scan zconf_starthelp;;
  t ← next;
  match t with T_HELPTEXT s => mret s | _ => syntax_error end.

Definition symbol_option_arg : GM (option string) :=
  t ← peek;
  match t with T_EQUAL => skip;; p ← p_prompt; mret (Some p) | _ => mret None end.
Fixpoint symbol_options (n : nat) : GM unit :=
  match n with
  | O => enofuel
  | S n =>
      t ← next;
      match t with
      | T_EOL => mret tt
      | T_WORD w =>
          arg ← symbol_option_arg;
          match kconf_id_lookup w with
          | Some {| id_token := T_OPT o |} => act (run_config_option getenv (OOption o arg))
          | _ => act (warn ("warning: ignoring unknown option " +:+ w))
          end;;
          symbol_options n
      | _ => syntax_error
      end
  end.

Definition run_option (o : config_option) : GM unit := act (run_config_option getenv o).
(** An option of a config entry behind its keyword; [None]: no such option. *)
Definition p_config_option (n : nat) (id : kconf_id) : option (GM unit) :=
  match id_token id with
  | T_TYPE => Some (p ← p_prompt_opt n; p_eol;; run_option (OType (stype id) p))
  | T_PROMPT => Some (p ← p_prompt; c ← p_if_expr n; p_eol;; run_option (OPrompt p c))
  | T_DEFAULT => Some (e ← p_expr n; c ← p_if_expr n; p_eol;; run_option (ODefault (stype id) e c))
  | T_SELECT => Some (w ← p_word; c ← p_if_expr n; p_eol;; run_option (OSelect w c))
  | T_RANGE => Some (a ← p_symbol; b ← p_symbol; c ← p_if_expr n; p_eol;; run_option (ORange a b c))
  | T_OPTION => Some (symbol_options n)
  | T_DEPENDS => Some (e ← p_depends n; run_option (ODepends e))
  | T_HELP => Some (s ← p_help; run_option (OHelp s))
  | _ => None
  end.
(** A type other than boolean and tristate, and a default with a type, are errors
    ([YYERROR]). *)
Definition p_choice_option (n : nat) (id : kconf_id) : option (GM unit) :=
  match id_token id with
  | T_PROMPT => Some (p ← p_prompt; c ← p_if_expr n; p_eol;; act (run_choice_option (CPrompt p c)))
  | T_TYPE =>
      Some (p ← p_prompt_opt n; p_eol;;
            if is_type (stype id) S_BOOLEAN || is_type (stype id) S_TRISTATE
            then act (run_choice_option (CType (stype id) p)) else syntax_error)
  | T_OPTIONAL => Some (p_eol;; act (run_choice_option COptional))
  | T_DEFAULT =>
      Some (w ← p_word; c ← p_if_expr n; p_eol;;
            if is_type (stype id) S_UNKNOWN then act (run_choice_option (CDefault w c)) else syntax_error)
  | T_DEPENDS => Some (e ← p_depends n; act (run_choice_option (CDepends e)))
  | T_HELP => Some (s ← p_help; act (run_choice_option (CHelp s)))
  | _ => None
  end.
Definition p_visible (n : nat) (id : kconf_id) : option (GM unit) :=
  match id_token id with
  | T_VISIBLE => Some (c ← p_if_expr n; act (v ← parse_if c; menu_add_visibility v))
  | _ => None
  end.
Definition p_dependency (n : nat) (id : kconf_id) : option (GM unit) :=
  match id_token id with
  | T_DEPENDS => Some (e ← p_depends n; act (add_depends e))
  | _ => None
  end.
(** A list of options, with empty lines between them. *)
Fixpoint p_option_list (option_of : kconf_id -> option (GM unit)) (n : nat) : GM unit :=
  match n with
  | O => enofuel
  | S n =>
      t ← peek;
      match t with
      | T_EOL => skip;; p_option_list option_of n
      | TKey id =>
          match option_of id with
          | Some m => skip;; m;; p_option_list option_of n
          | None => mret tt
          end
      | _ => mret tt
      end
  end.

(** ** Statements *)

Definition config_stmt (n : nat) (menuconfig : bool) : GM unit :=
  w ← p_word; p_eol;;
  at_place (config_entry w);;
  p_option_list (p_config_option n) n;;
  act (pwhen menuconfig menuconfig_prompt;; menu_end_entry).
Definition comment_stmt (n : nat) : GM unit :=
  p ← p_prompt; p_eol;;
  at_place (menu_add_entry None);;
  act (menu_add_prompt P_COMMENT p None);;
  p_option_list (p_dependency n) n;;
  act menu_end_entry.
Definition source_stmt : GM unit := p ← p_prompt; p_eol;; zconf_nextfile p.

(** [choice choice_option_list] *)
Definition choice_entry (n : nat) : GM unit :=
  t ← peek;
  w ← (match t with T_WORD w => skip;; mret (Some w) | _ => mret None end);
  p_eol;;
  at_place (KParse.choice_entry_start w);;
  p_option_list (p_choice_option n) n;;
  act menu_add_menu.
(** [menu visibility_list depends_list] *)
Definition menu_entry (n : nat) : GM unit :=
  p ← p_prompt; p_eol;;
  at_place (menu_add_entry None);;
  act (menu_add_prompt P_MENU p None);;
  p_option_list (p_visible n) n;;
  p_option_list (p_dependency n) n;;
  act menu_add_menu.
(** [nl]: at least one; the token behind the last is read. *)
Fixpoint p_nls (n : nat) : GM unit :=
  match n with
  | O => enofuel
  | S n => t ← peek; match t with T_EOL => skip;; p_nls n | _ => mret tt end
  end.
Definition p_nl (n : nat) : GM unit := p_eol;; p_nls n.
Definition if_entry (n : nat) : GM unit :=
  c ← p_expr n;
  p_nl n;;
  at_place (KParse.if_entry c).

Definition zconf_tokenname (k : keyword) : string :=
  match k with
  | T_MENU => "menu" | T_ENDMENU => "endmenu" | T_CHOICE => "choice" | T_ENDCHOICE => "endchoice"
  | T_IF => "if" | T_ENDIF => "endif" | T_DEPENDS => "depends" | T_VISIBLE => "visible"
  | _ => "<token>"
  end.
Definition zconf_endtoken (id : kconf_id) (starttoken endtoken : keyword) : GM bool :=
  if bool_decide (id_token id <> endtoken) then
    act (zconf_error ("unexpected '" +:+ id_name id +:+ "' within " +:+ zconf_tokenname starttoken +:+ " block"));;
    act (pmodify add_error);;
    mret false
  else
    g ← eget;
    m ← elift (current_menu (pst g));
    if bool_decide ((default (None, 0) (places g !! m)).1 = current_file (scn g)) then mret true
    else
      act (zconf_error ("'" +:+ id_name id +:+ "' in different file than '" +:+ zconf_tokenname starttoken +:+ "'"));;
      elift (default (None, 0) (places g !! m)).1;;
      act (warn ("location of the '" +:+ zconf_tokenname starttoken +:+ "'"));;
      act (pmodify add_error);;
      mret false.
Definition is_end (k : keyword) : bool := bool_decide (k ∈ [T_ENDMENU; T_ENDCHOICE; T_ENDIF]).
(** [end], for the block that began with [starttoken] *)
Definition block_end (starttoken endtoken : keyword) : GM unit :=
  t ← next;
  match t with
  | TKey id =>
      if is_end (id_token id) then
        p_eol;;
        ok ← zconf_endtoken id starttoken endtoken;
        if ok : bool then act menu_end_menu else mret tt
      else syntax_error
  | _ => syntax_error
  end.

(** Statements are read at the top of the files, in a menu or an [if], or in a choice,
    which has no menus and choices in it. *)
Inductive level := Top | InBlock | InChoice.
#[export] Instance level_eq_dec : EqDecision level.
Proof. solve_decision. Defined.

(** Statements up to the end of the block. *)
Fixpoint stmt_list (n : nat) (lv : level) : GM unit :=
  match n with
  | O => enofuel
  | S n =>
      let again := stmt_list n lv in
      t ← peek;
      match t with
      | T_EOL => skip;; again
      | T_END => if bool_decide (lv = Top) then mret tt else syntax_error
      | TKey id =>
          match id_token id with
          | T_CONFIG => skip;; config_stmt n false;; again
          | T_MENUCONFIG => skip;; config_stmt n true;; again
          | T_COMMENT => skip;; comment_stmt n;; again
          | T_SOURCE => skip;; source_stmt;; again
          | T_IF => skip;; if_entry n;; stmt_list n InBlock;; block_end T_IF T_ENDIF;; again
          | T_MENU =>
              if bool_decide (lv = InChoice) then syntax_error
              else skip;; menu_entry n;; stmt_list n InBlock;; block_end T_MENU T_ENDMENU;; again
          | T_CHOICE =>
              if bool_decide (lv = InChoice) then syntax_error
              else skip;; choice_entry n;; stmt_list n InChoice;; block_end T_CHOICE T_ENDCHOICE;; again
          | T_ENDMENU | T_ENDCHOICE | T_ENDIF =>
              if bool_decide (lv = Top) then skip;; p_eol;; act (zconf_error "unexpected end statement");; again
              else mret tt
          | _ => syntax_error
          end
      | _ => syntax_error
      end
  end.

(** [input] *)
Definition zconfparse (n : nat) : GM unit :=
  p_nls n;;
  t ← peek;
  (if is_key T_MAINMENU t then skip;; p ← p_prompt; p_nl n;; act (add_title (Some p)) else mret tt);;
  stmt_list n Top.

(** ** [conf_parse] *)

(** [zconfparse] follows at most [n] levels and lists of [n] statements. *)
Definition conf_parse_file (release : string) (n : nat) (nm : string) : GM unit :=
  zconf_initscan nm;;
  act (begin_menus release);;
  zconfparse n;;
  ok ← act finish_menus;
  ok ← act (check_menus ok);
  if ok : bool then mret tt else eexit 1.
End Files.

(** [menu->file->name] and [menu->lineno]; every entry but the root one has a file. *)
Definition place_in (g : gstate) (m : menuref) : string * Z :=
  let '(f, l) := default (None, 0) (places g !! m) in (match f with Some f => name_of f (scn g) | None => "" end, l).

(** The program before it reads. *)
Definition no_scanner : scanner := {|
  lex := {| condition := INITIAL; input := ""; gathered := ""; delim := chr 0; last_ts := 0; first_ts := 0 |};
  buffers := None; current_file := None; current_pos := (None, 0); names := []; linenos := ∅; parents := ∅; said := "" |}.
Definition unparsed (k : kstate) : gstate :=
  {| pst := start k; scn := no_scanner; ahead := None; places := ∅ |}.
