(* ===== verification/KReadBack.v ===== *)
(** Reading a Kconfig file is running its statements: the scanner and the parser, from
    the text of a file, do exactly what [KParse.conf_parse] does with the statements.
    First the expressions, then options, entries, blocks and the whole file. *)
From S2P Require Import Prelude CText KExpr KSym KConf KConfFacts KHelp KMenu KParse KMenuFacts KParseFacts KScan KScanFacts KText KGrammar.
Local Open Scope list_scope.

(** ** Tokens to come *)

(** The parser is about to read [ts]; the scanner is then in [k]. *)
Definition avail (g : gstate) (ts : list tok) (k : scanner) : Prop :=
  match ahead g with
  | None => yields (scn g) ts k
  | Some t => exists ts', ts = t :: ts' /\ yields (scn g) ts' k
  end.
(** What the statements have done is not touched. *)
Definition alike (g g' : gstate) : Prop := pst g' = pst g /\ places g' = places g.
#[export] Instance alike_preorder : PreOrder alike.
Proof. split; [by intros g|]. intros a b c [] []. split; congruence. Qed.

Lemma avail_peek g t u k : avail g (t :: u) k ->
  exists g', peek g = Ok (Returned t) g' /\ avail g' (t :: u) k /\ ahead g' = Some t /\ alike g g'.
Proof.
  unfold avail, peek, mbind, EM_bind, eget. destruct (ahead g) as [t'|] eqn:E.
  - intros (ts' & [= <- <-] & Hy). exists g. rewrite E. split; [done|]. split; [by exists u|done].
  - intros (s1 & Ey & Hy). unfold scan. rewrite Ey. exists (set_ahead (Some t) (set_scn s1 g)).
    split; [done|]. split; [by exists u|done].
Qed.
Lemma avail_skip g t u k : avail g (t :: u) k -> ahead g = Some t -> avail (set_ahead None g) u k.
Proof. unfold avail. intros H E. rewrite E in H. by destruct H as (ts' & [= <-] & Hy). Qed.
Lemma avail_next g t u k : avail g (t :: u) k ->
  exists g', next g = Ok (Returned t) g' /\ avail g' u k /\ alike g g'.
Proof.
  intros Ha. destruct (avail_peek g t u k Ha) as (g1 & E & A1 & H1 & L1). exists (set_ahead None g1).
  unfold next. rewrite (erun _ _ _ _ _ E). split; [done|]. split; [by eapply avail_skip|]. by destruct L1.
Qed.
Lemma avail_nil g k : avail g [] k -> ahead g = None /\ scn g = k.
Proof. unfold avail. destruct (ahead g); [by intros (? & ? & _)|]. by intros ->. Qed.

(** [m] reads the tokens [ts] as [a], when the token behind them is one of [P]. *)
Definition reads {A} (P : tok -> Prop) (m : GM A) (ts : list tok) (a : A) : Prop :=
  forall g t u k, P t -> avail g (ts ++ t :: u) k ->
  exists g', m g = Ok (Returned a) g' /\ avail g' (t :: u) k /\ alike g g'.
Definition any (_ : tok) : Prop := True.
Lemma reads_weaken {A} (P Q : tok -> Prop) (m : GM A) ts a : (forall t, Q t -> P t) -> reads P m ts a -> reads Q m ts a.
Proof. intros H Hr g t u k Ht. apply Hr. by apply H. Qed.
Lemma reads_ret {A} P (a : A) : reads P (mret a) [] a.
Proof. intros g t u k _ Ha. by exists g. Qed.
(** The first part is followed by the first token of the second. *)
Lemma reads_bind {A B} (P Q : tok -> Prop) (m : GM A) (f : A -> GM B) ts us a b : reads P m ts a -> reads Q (f a) us b ->
  (forall t, Q t -> P (default t (head us))) -> reads Q (m ≫= f) (ts ++ us) b.
Proof.
  intros Hm Hf Hp g t u k Ht Ha. rewrite <- app_assoc in Ha. specialize (Hp t Ht).
  assert (H1 : exists g1, m g = Ok (Returned a) g1 /\ avail g1 (us ++ t :: u) k /\ alike g g1).
  { destruct us as [|t' us]; [by apply (Hm g t u k)|by apply (Hm g t' (us ++ t :: u) k)]. }
  destruct H1 as (g1 & E1 & A1 & L1). destruct (Hf g1 t u k Ht A1) as (g2 & E2 & A2 & L2).
  exists g2. rewrite (erun _ _ _ _ _ E1). split; [done|]. split; [done|by etransitivity].
Qed.
Lemma reads_next {B} P t (f : tok -> GM B) us b : reads P (f t) us b -> reads P (next ≫= f) (t :: us) b.
Proof.
  intros Hf g t' u k Ht Ha. destruct (avail_next g t _ k Ha) as (g1 & E1 & A1 & L1).
  destruct (Hf g1 t' u k Ht A1) as (g2 & E2 & A2 & L2). exists g2. rewrite (erun _ _ _ _ _ E1).
  split; [done|]. split; [done|by etransitivity].
Qed.
(** A token looked at and then read. *)
Lemma reads_peek {B} P t (f : tok -> GM B) (h : GM B) us b : f t = (skip;; h) -> reads P h us b ->
  reads P (peek ≫= f) (t :: us) b.
Proof.
  intros Ef Hh g t' u k Ht Ha. destruct (avail_peek g t _ k Ha) as (g1 & E1 & A1 & H1 & L1).
  destruct (Hh (set_ahead None g1) t' u k Ht (avail_skip _ _ _ _ A1 H1)) as (g2 & E2 & A2 & L2).
  exists g2. rewrite (erun _ _ _ _ _ E1), Ef. split; [exact E2|]. split; [done|]. destruct L1, L2. split; cbn in *; congruence.
Qed.
(** A token looked at, and left for what follows. *)
Lemma reads_look {B} (P : tok -> Prop) (f : tok -> GM B) b : (forall t, P t -> f t = mret b) -> reads P (peek ≫= f) [] b.
Proof.
  intros Hf g t u k Ht Ha. destruct (avail_peek g t _ k Ha) as (g1 & E1 & A1 & H1 & L1). exists g1.
  rewrite (erun _ _ _ _ _ E1), (Hf t Ht). done.
Qed.

Lemma term_reads P t : reads P p_symbol [term_token t] t.
Proof. unfold p_symbol. apply reads_next. destruct t; apply reads_ret. Qed.
Lemma prompt_reads P w : reads P p_prompt [T_WORD_QUOTE w] w.
Proof. unfold p_prompt. apply reads_next, reads_ret. Qed.
Lemma word_reads P w : reads P p_word [T_WORD w] w.
Proof. unfold p_word. apply reads_next, reads_ret. Qed.

(** ** Expressions *)

(** A token behind an expression of the level [k] that does not go on with it. *)
Definition stops (k : nat) (t : tok) : Prop :=
  match t with
  | T_EQUAL | T_UNEQUAL => False
  | T_AND => (2 <= k)%nat
  | T_OR => (1 <= k)%nat
  | _ => True
  end.
Lemma stops_le j k t : (j <= k)%nat -> stops j t -> stops k t.
Proof. intros H. destruct t; cbn; lia || done. Qed.

Fixpoint esize (e : kexpr) : nat :=
  match e with
  | KSymbol _ | KEqual _ _ | KUnequal _ _ => 1
  | KNot e => S (esize e)
  | KAnd l r | KOr l r => 2 + esize l + esize r
  end.
Lemma esize_pos e : (1 <= esize e)%nat.
Proof. destruct e; cbn; lia. Qed.
Lemma esize_tokens e : forall k, (esize e <= 2 * length (expr_tokens k e))%nat.
Proof.
  assert (Hp : forall b ts, (length ts <= length (parens b ts))%nat).
  { intros [|] ts; cbn; [rewrite length_app; cbn|]; lia. }
  induction e as [t|a b|a b|e IH|l IHl r IHr|l IHl r IHr]; intros k; cbn [esize expr_tokens]; cbn [length]; try lia.
  - specialize (IH 2%nat). lia.
  - etransitivity; [|apply Nat.mul_le_mono_l, Hp]. rewrite length_app. cbn. specialize (IHl 0%nat). specialize (IHr 1%nat). lia.
  - etransitivity; [|apply Nat.mul_le_mono_l, Hp]. rewrite length_app. cbn. specialize (IHl 1%nat). specialize (IHr 2%nat). lia.
Qed.

(** [p_unary n] reads operands of up to [n] nodes. *)
Definition unary_ok (n : nat) : Prop := forall e, (esize e <= n)%nat -> reads (stops 2) (p_unary n) (expr_tokens 2 e) e.

Lemma compare_reads a : reads (stops 2) (p_compare a) [] (KSymbol a).
Proof. unfold p_compare. apply reads_look. by intros []. Qed.

(** Operands of [T_AND]: read up to [e], the loop goes on. *)
Definition small_and (n : nat) (e : kexpr) : Prop :=
  match e with KAnd _ _ => (esize e <= S n)%nat | _ => (esize e <= n)%nat end.
Lemma and_chain n e : unary_ok n -> forall m g t u k, small_and n e -> (esize e <= S m)%nat -> (1 <= m)%nat -> stops 2 t ->
  avail g (expr_tokens 1 e ++ t :: u) k ->
  exists g' m', (x ← p_unary n; p_and (p_unary n) m x) g = p_and (p_unary n) m' e g' /\
    avail g' (t :: u) k /\ alike g g' /\ (1 <= m')%nat /\ (m <= m' + esize e)%nat.
Proof.
  intros U. induction e as [w|a b|a b|e IH|l IHl r IHr|l IHl r IHr]; intros m g t u k Hn Hm H1 Ht Ha.
  6: { cbn [small_and esize] in Hn, Hm. change (expr_tokens 1 (KAnd l r)) with (expr_tokens 1 l ++ T_AND :: expr_tokens 2 r) in Ha.
       rewrite <- app_assoc in Ha. cbn [app] in Ha.
       assert (Hl : small_and n l) by (destruct l; cbn in *; lia).
       destruct (IHl m g T_AND _ k Hl ltac:(lia) H1 ltac:(cbn; lia) Ha) as (g1 & m1 & E1 & A1 & L1 & M1 & M1').
       destruct m1 as [|m1]; [lia|].
       destruct (avail_peek g1 _ _ k A1) as (g2 & E2 & A2 & H2 & L2).
       destruct (U r ltac:(lia) (set_ahead None g2) t u k Ht (avail_skip _ _ _ _ A2 H2)) as (g3 & E3 & A3 & L3).
       exists g3, m1. split.
       - rewrite E1. cbn [p_and]. rewrite (erun _ _ _ _ _ E2). cbn iota. unfold skip at 1.
         rewrite (erun _ _ _ tt (set_ahead None g2)) by done. by rewrite (erun _ _ _ _ _ E3).
       - split; [done|]. cbn [esize]. pose proof (esize_pos r). split; [|split; lia].
         destruct L1, L2, L3. split; cbn in *; congruence. }
  all: cbn [small_and] in Hn; destruct (U _ Hn g t u k Ht Ha) as (g1 & E1 & A1 & L1); exists g1, m;
    rewrite (erun _ _ _ _ _ E1); (split; [done|]; split; [done|]; split; [done|]; cbn [esize] in *; lia).
Qed.

Lemma conj_reads n e : unary_ok n -> small_and n e -> (esize e <= S n)%nat -> reads (stops 1) (p_conj n) (expr_tokens 1 e) e.
Proof.
  intros U Hn Hm g t u k Ht Ha.
  destruct (and_chain n e U n g t u k Hn Hm ltac:(pose proof (esize_pos e); destruct e; cbn in *; lia) (stops_le 1 2 t ltac:(lia) Ht) Ha) as (g1 & m & E1 & A1 & L1 & M & _).
  destruct m as [|m]; [lia|]. destruct (avail_peek g1 t u k A1) as (g2 & E2 & A2 & _ & L2). exists g2.
  unfold p_conj. rewrite E1. cbn [p_and]. rewrite (erun _ _ _ _ _ E2). split; [|split; [done|by etransitivity]].
  destruct t; try done. cbn in Ht. lia.
Qed.
(** Operands of [T_OR], likewise. *)
Definition small_or (n : nat) (e : kexpr) : Prop :=
  match e with KAnd _ _ | KOr _ _ => (esize e <= S n)%nat | _ => (esize e <= n)%nat end.
Lemma or_chain n e : unary_ok n -> forall m g t u k, small_or n e -> (esize e <= S m)%nat -> (1 <= m)%nat -> stops 1 t ->
  avail g (expr_tokens 0 e ++ t :: u) k ->
  exists g' m', (x ← p_conj n; p_or (p_conj n) m x) g = p_or (p_conj n) m' e g' /\
    avail g' (t :: u) k /\ alike g g' /\ (1 <= m')%nat /\ (m <= m' + esize e)%nat.
Proof.
  intros U. induction e as [w|a b|a b|e IH|l IHl r IHr|l IHl r IHr]; intros m g t u k Hn Hm H1 Ht Ha.
  5: { cbn [small_or esize] in Hn, Hm. change (expr_tokens 0 (KOr l r)) with (expr_tokens 0 l ++ T_OR :: expr_tokens 1 r) in Ha.
       rewrite <- app_assoc in Ha. cbn [app] in Ha. pose proof (esize_pos l). pose proof (esize_pos r).
       assert (Hl : small_or n l) by (destruct l; cbn in *; lia).
       assert (Hr : small_and n r) by (destruct r; cbn in *; lia).
       destruct (IHl m g T_OR _ k Hl ltac:(lia) H1 ltac:(cbn; lia) Ha) as (g1 & m1 & E1 & A1 & L1 & M1 & M1').
       destruct m1 as [|m1]; [lia|].
       destruct (avail_peek g1 _ _ k A1) as (g2 & E2 & A2 & H2 & L2).
       destruct (conj_reads n r U Hr ltac:(lia) (set_ahead None g2) t u k Ht (avail_skip _ _ _ _ A2 H2)) as (g3 & E3 & A3 & L3).
       exists g3, m1. split.
       - rewrite E1. cbn [p_or]. rewrite (erun _ _ _ _ _ E2). cbn iota. unfold skip at 1.
         rewrite (erun _ _ _ tt (set_ahead None g2)) by done. by rewrite (erun _ _ _ _ _ E3).
       - split; [done|]. cbn [esize]. split; [|split; lia]. destruct L1, L2, L3. split; cbn in *; congruence. }
  all: match type of Ha with avail _ (expr_tokens 0 ?e ++ _) _ => change (expr_tokens 0 e) with (expr_tokens 1 e) in Ha;
    assert (Hs : small_and n e) by exact Hn;
    destruct (conj_reads n e U Hs ltac:(cbn [small_or esize] in *; lia) g t u k Ht Ha) as (g1 & E1 & A1 & L1) end;
    exists g1, m; rewrite (erun _ _ _ _ _ E1); (split; [done|]; split; [done|]; split; [done|]; cbn [esize] in *; lia).
Qed.
Lemma expr_reads_from n e : unary_ok n -> small_or n e -> (esize e <= S n)%nat -> reads (stops 0) (p_expr n) (expr_tokens 0 e) e.
Proof.
  intros U Hn Hm g t u k Ht Ha.
  destruct (or_chain n e U n g t u k Hn Hm ltac:(pose proof (esize_pos e); destruct e; cbn in *; lia) (stops_le 0 1 t ltac:(lia) Ht) Ha) as (g1 & m & E1 & A1 & L1 & M & _).
  destruct m as [|m]; [lia|]. destruct (avail_peek g1 t u k A1) as (g2 & E2 & A2 & _ & L2). exists g2.
  unfold p_expr. rewrite E1. cbn [p_or]. rewrite (erun _ _ _ _ _ E2). split; [|split; [done|by etransitivity]].
  destruct t; try done. cbn in Ht. lia.
Qed.

(** An expression in parentheses. *)
Lemma paren_reads n e : unary_ok n -> small_or n e -> (esize e <= S n)%nat ->
  reads (stops 2) (p_unary (S n)) (T_OPEN_PAREN :: expr_tokens 0 e ++ [T_CLOSE_PAREN]) e.
Proof.
  intros U Hs Hn. cbn [p_unary]. apply reads_next. cbn iota.
  assert (R : reads (stops 2) (x ← p_expr n; t ← next; match t with T_CLOSE_PAREN => mret x | _ => syntax_error end)
                (expr_tokens 0 e ++ [T_CLOSE_PAREN]) e).
  { eapply reads_bind; [by apply expr_reads_from|apply reads_next, reads_ret|done]. }
  intros g t u k Ht Ha. destruct (R g t u k Ht Ha) as (g' & E & A & L). exists g'. split; [|done]. rewrite <- E.
  unfold p_expr, p_conj, mbind, EM_bind. by repeat case_match.
Qed.
Lemma unary_reads n : unary_ok n.
Proof.
  induction n as [|n IH]; intros e He; [pose proof (esize_pos e); lia|].
  assert (Hterm : forall a us b, reads (stops 2) (p_compare a) us b -> reads (stops 2) (p_unary (S n)) (term_token a :: us) b).
  { intros a us b H. cbn [p_unary]. apply reads_next. destruct a; exact H. }
  destruct e as [w|a b|a b|e|l r|l r]; cbn [expr_tokens esize] in *.
  - apply Hterm, compare_reads.
  - apply Hterm. unfold p_compare. eapply reads_peek; [done|]. rewrite <- (app_nil_r [term_token b]).
    eapply reads_bind; [apply (term_reads any)|apply reads_ret|done].
  - apply Hterm. unfold p_compare. eapply reads_peek; [done|]. rewrite <- (app_nil_r [term_token b]).
    eapply reads_bind; [apply (term_reads any)|apply reads_ret|done].
  - cbn [p_unary]. apply reads_next. cbn iota. rewrite <- (app_nil_r (expr_tokens 2 e)).
    eapply reads_bind; [apply IH; lia|apply reads_ret|done].
  - apply (paren_reads n (KOr l r) IH); cbn; lia.
  - apply (paren_reads n (KAnd l r) IH); cbn; lia.
Qed.

(** An expression is read back with the precedences and the associativity it was
    written with. *)
Lemma expr_reads n e : (esize e <= n)%nat -> reads (stops 0) (p_expr n) (expr_tokens 0 e) e.
Proof. intros H. apply expr_reads_from; [apply unary_reads|destruct e; cbn in *; lia|lia]. Qed.

(** ** The parser does what the actions do *)

(** [m] ends as [z] does, with its state, and then [Q] holds. *)
Definition sim (m : GM unit) (z : ZM unit) (g : gstate) (Q : gstate -> Prop) : Prop :=
  match z (pst g) with
  | Ok _ p => exists g', m g = Ok (Returned tt) g' /\ pst g' = p /\ Q g'
  | Fault => m g = Fault
  | NoFuel => m g = NoFuel
  end.

Lemma sim_bind m1 m2 z1 z2 g (P Q : gstate -> Prop) : sim m1 z1 g P ->
  (forall g1, P g1 -> z1 (pst g) = Ok tt (pst g1) -> sim m2 z2 g1 Q) -> sim (m1;; m2) (z1;; z2) g Q.
Proof.
  unfold sim. intros H1 H2. unfold mbind, PM_bind, EM_bind. destruct (z1 (pst g)) as [[] p| |]; [|by rewrite H1..].
  destruct H1 as (g1 & E1 & <- & HP). specialize (H2 g1 HP eq_refl). by rewrite E1.
Qed.
Lemma sim_ret g (Q : gstate -> Prop) : Q g -> sim (mret tt) (mret tt) g Q.
Proof. intros H. by exists g. Qed.
Lemma sim_post m z g (P Q : gstate -> Prop) : (forall g', P g' -> Q g') -> sim m z g P -> sim m z g Q.
Proof. unfold sim. intros H. destruct (z (pst g)); [|done..]. intros (g' & ? & ? & ?). eauto. Qed.
Lemma sim_ext m m' z z' g (Q : gstate -> Prop) : m g = m' g -> z (pst g) = z' (pst g) -> sim m' z' g Q -> sim m z g Q.
Proof. unfold sim. by intros -> ->. Qed.
Lemma sim_skip_ret m z g Q : sim m (mret tt;; z) g Q -> sim m z g Q.
Proof. done. Qed.
(** A part of [m] that only reads. *)
Lemma sim_from {A} (m : GM A) (f : A -> GM unit) z g a g1 Q : m g = Ok (Returned a) g1 -> pst g1 = pst g -> sim (f a) z g1 Q ->
  sim (m ≫= f) z g Q.
Proof. unfold sim. intros E Ep H. rewrite (erun _ _ _ _ _ E). by rewrite Ep in H. Qed.
Lemma sim_reads {A} P (m : GM A) ts a f z g t u k Q : reads P m ts a -> P t -> avail g (ts ++ t :: u) k ->
  (forall g1, avail g1 (t :: u) k -> alike g g1 -> sim (f a) z g1 Q) -> sim (m ≫= f) z g Q.
Proof.
  intros Hr Ht Ha Hf. destruct (Hr g t u k Ht Ha) as (g1 & E & A1 & L1). eapply sim_from; [exact E|apply L1|by apply Hf].
Qed.
Lemma sim_eol m z g k Q : avail g [T_EOL] k -> (forall g1, avail g1 [] k -> alike g g1 -> sim m z g1 Q) -> sim (p_eol;; m) z g Q.
Proof.
  intros Ha Hm. unfold p_eol. destruct (avail_next g _ _ k Ha) as (g1 & E & A1 & L1).
  eapply (sim_from _ _ _ _ tt g1); [|apply L1|by apply Hm]. by rewrite (erun _ _ _ _ _ E).
Qed.
Lemma sim_act z g (Q : gstate -> Prop) : (forall p, z (pst g) = Ok tt p -> Q (set_pst p g)) -> sim (act z) z g Q.
Proof. unfold sim, act. intros H. destruct (z (pst g)) as [[] p| |]; [|done..]. eauto. Qed.
Lemma sim_at_place z g (Q : gstate -> Prop) : (forall p, z (pst g) = Ok tt p ->
    Q (set_pst p (set_place (fresh_menu (pst g)) (current_file (scn g), zconf_lineno (scn g)) g))) -> sim (at_place z) z g Q.
Proof.
  unfold sim, at_place, mbind, EM_bind, eget, emodify, act. cbn [pst set_place]. intros H.
  destruct (z (pst g)) as [[] p| |]; [|done..]. eauto.
Qed.

Section ReadBack.
Context (getenv fopen : string -> option string).
(** The file being read is [f], the only one open. *)
Context (b : scanner) (f : nat) (Hfile : current_file b = Some f) (Hbufs : buffers b = Some []) (Hpar : parent_of f b = None).

Lemma near_file sc : near b sc -> current_file sc = Some f.
Proof. intros N. by rewrite (ne_file _ _ N). Qed.

(** The parser stands before the text [r], or has looked at the first token of it. *)
Definition before (g : gstate) (r : string) : Prop :=
  exists sc, near b sc /\ at_text INITIAL r sc /\
    ((ahead g = None /\ scn g = sc) \/ exists t, ahead g = Some t /\ yylex sc = Ok t (scn g)).
(** The file has been read. *)
Definition finished (g : gstate) : Prop :=
  at_text INITIAL "" (scn g) /\ current_file (scn g) = None /\ said (scn g) = said b /\ (ahead g = None \/ ahead g = Some T_END).
Definition ready (g : gstate) (r : string) : Prop := before g r \/ (r = "" /\ finished g).

Lemma ready_at g k r : avail g [] k -> near b k -> at_text INITIAL r k -> ready g r.
Proof. intros [Ha Hs]%avail_nil N A. left. exists k. eauto. Qed.
Lemma ready_alike g g' r : ahead g' = ahead g -> scn g' = scn g -> ready g r -> ready g' r.
Proof. unfold ready, before, finished. by intros -> ->. Qed.
Lemma ready_before g c r : ready g (String c r) -> before g (String c r).
Proof. by intros [?|[? _]]. Qed.

(** The next token, whose text is followed by [r]. *)
Lemma before_peek g s t c r : before g s -> (forall sc, near b sc -> at_text INITIAL s sc -> gives sc t c r) ->
  exists g1, peek g = Ok (Returned t) g1 /\ alike g g1 /\ ahead g1 = Some t /\ near b (scn g1) /\ at_text c r (scn g1) /\ before g1 s.
Proof.
  intros (sc & N & A & H) Hg. destruct (Hg sc N A) as (sc1 & E & N1 & A1).
  assert (N01 : near b sc1) by (by etransitivity). destruct H as [[Ha <-]|(t' & Ha & Ey)].
  - exists (set_ahead (Some t) (set_scn sc1 g)). unfold peek, mbind, EM_bind, eget. rewrite Ha. unfold scan. rewrite E.
    split; [done|]. split; [done|]. split; [done|]. split; [exact N01|]. split; [exact A1|].
    exists (scn g). split; [done|]. split; [done|]. right. by exists t.
  - rewrite E in Ey. injection Ey as <- Es. exists g. unfold peek, mbind, EM_bind, eget. rewrite Ha, <- Es.
    do 2 (split; [done|]). split; [done|]. split; [done|]. split; [done|]. exists sc. split; [done|]. split; [done|]. right.
    exists t. by rewrite <- Es.
Qed.

(** A line: its command is looked at; the rest of it is to come. *)
Lemma line_peek g id ts r : ready g (line_text id ts +:+ r) -> command_ok id = true -> forallb param_ok ts = true ->
  exists g1 k, peek g = Ok (Returned (TKey id)) g1 /\ alike g g1 /\ ready g1 (line_text id ts +:+ r) /\
    current_file (scn g1) = Some f /\ avail (set_ahead None g1) (ts ++ [T_EOL]) k /\ near b k /\ at_text INITIAL r k.
Proof.
  intros Hr Hid Hts. assert (Hb : before g (line_text id ts +:+ r)).
  { destruct (command_chars id Hid) as (c & w & En & _). unfold line_text in *. rewrite En in *. by apply ready_before in Hr. }
  assert (Hg : forall sc, near b sc -> at_text INITIAL (line_text id ts +:+ r) sc ->
    gives sc (TKey id) PARAM (spells ts +:+ NL +:+ r)).
  { intros sc N A. unfold line_text in A. rewrite <- !app_assoc_s in A.
    apply (command_gives sc id _ f Hid (spells_sep _ (NL +:+ r) eq_refl) A (near_file _ N)). }
  destruct (before_peek _ _ _ _ _ Hb Hg) as (g1 & E & L & Ha & N1 & A1 & B1).
  destruct (params_yield ts (scn g1) (NL +:+ r) Hts eq_refl A1) as (sc2 & Y2 & N2 & A2).
  assert (N02 : near b sc2) by (by etransitivity).
  destruct (newline_gives sc2 r f A2 (near_file _ N02)) as (sc3 & E3 & N3 & A3).
  exists g1, sc3. do 2 (split; [done|]). split; [by left|]. split; [by apply near_file|]. split.
  - unfold avail. cbn. apply yields_app. exists sc2. split; [done|]. by exists sc3.
  - split; [by etransitivity|done].
Qed.
Lemma comment_peek g r : ready g ("#" +:+ NL +:+ r) ->
  exists g1, peek g = Ok (Returned T_EOL) g1 /\ alike g g1 /\ ready (set_ahead None g1) r.
Proof.
  intros Hb%ready_before.
  destruct (before_peek g _ T_EOL INITIAL r Hb) as (g1 & E & L & Ha & N1 & A1 & _).
  { intros sc N A. by eapply comment_gives; [|apply near_file]. }
  exists g1. do 2 (split; [done|]). left. exists (scn g1). split; [done|]. split; [done|]. by left.
Qed.
(** At the end of the file: a line end, then the end. *)
Lemma eof_token sc : near b sc -> at_text INITIAL "" sc -> exists sc', yylex sc = Ok T_EOL sc' /\
  at_text INITIAL "" sc' /\ current_file sc' = None /\ said sc' = said b.
Proof.
  intros N [Hc Hi]. rewrite <- (ne_said _ _ N). pose proof (near_file _ N) as Hf. pose proof (ne_buffers _ _ N) as Hb. rewrite Hbufs in Hb.
  assert (Hp : parent_of f sc = None) by (unfold parent_of; rewrite (ne_parents _ _ N); exact Hpar).
  destruct sc as [[c i ga d lt ft] bu cf cp nm ln pa sa]. cbn in Hc, Hi, Hf, Hb. subst c i cf bu. unfold parent_of in Hp. cbn in Hp.
  eexists. split; [apply lexes_yylex, (silent_lexes _ _ _ _ (rtc_refl _ _))|].
  { unfold match_rule, happen, zconf_endfile, mbind, PM_bind, pget, pmodify, plift, parent_of. cbn.
    unfold parent_of. cbn. rewrite Hp. reflexivity. }
  done.
Qed.
Lemma end_token sc : at_text INITIAL "" sc -> current_file sc = None -> exists sc', yylex sc = Ok T_END sc' /\
  at_text INITIAL "" sc' /\ current_file sc' = None /\ said sc' = said sc.
Proof.
  intros [Hc Hi] Hf. destruct sc as [[c i ga d lt ft] bu cf cp nm ln pa sa]. cbn in Hc, Hi, Hf. subst c i cf.
  eexists. split; [apply lexes_yylex, (silent_lexes _ _ _ _ (rtc_refl _ _)); reflexivity|]. done.
Qed.
Lemma finished_peek g : finished g -> exists g1, peek g = Ok (Returned T_END) g1 /\ alike g g1 /\ finished g1.
Proof.
  unfold peek, mbind, EM_bind, eget. intros (A & Hf & Hs & [Ha|Ha]); rewrite Ha.
  - destruct (end_token _ A Hf) as (sc' & E & A' & Hf' & Hs'). unfold scan. rewrite E. eexists. split; [done|]. split; [done|].
    split; [exact A'|]. split; [exact Hf'|]. split; [cbn; congruence|by right].
  - exists g. split; [done|]. split; [done|]. split; [done|]. split; [done|]. split; [done|by right].
Qed.
Lemma eof_peek g : ready g "" -> (exists g1, peek g = Ok (Returned T_EOL) g1 /\ alike g g1 /\ finished (set_ahead None g1)) \/
  (exists g1, peek g = Ok (Returned T_END) g1 /\ alike g g1 /\ finished g1).
Proof.
  intros [(sc & N & A & H)|[_ F]]; [left|right; by apply finished_peek]. unfold peek, mbind, EM_bind, eget.
  destruct (eof_token sc N A) as (sc' & E & A' & Hf' & Hs'). destruct H as [[Ha <-]|(t & Ha & Ey)].
  - rewrite Ha. unfold scan. rewrite E. eexists. split; [done|]. split; [done|]. split; [exact A'|]. split; [exact Hf'|]. split; [exact Hs'|by left].
  - rewrite E in Ey. injection Ey as <- Es. rewrite Ha. exists g. do 2 (split; [done|]).
    unfold finished. cbn. rewrite <- Es. split; [done|]. split; [done|]. split; [done|by left].
Qed.

Lemma ready_said g : ready g "" -> said (scn g) = said b.
Proof.
  intros [(sc & N & A & H)|[_ (_ & _ & Hs & _)]]; [|done]. destruct H as [[_ ->]|(t & _ & Ey)]; [by apply (ne_said _ _ N)|].
  destruct (eof_token sc N A) as (sc' & E & _ & _ & Hs). rewrite E in Ey. by injection Ey as _ <-.
Qed.

(** ** Options *)

Definition csize (c : option kexpr) : nat := match c with Some e => esize e | None => 0 end.
Lemma if_reads n c : (csize c <= n)%nat -> reads (fun t => stops 0 t /\ is_key T_IF t = false) (p_if_expr n) (if_tokens c) c.
Proof.
  intros Hn. unfold p_if_expr. destruct c as [e|]; cbn [if_tokens].
  - eapply reads_peek; [reflexivity|]. rewrite <- (app_nil_r (expr_tokens 0 e)).
    eapply reads_bind; [by apply expr_reads|apply reads_ret|by intros t [? _]].
  - apply reads_look. intros t [_ ->]. done.
Qed.
Lemma if_eol n c : (csize c <= n)%nat -> reads (eq T_EOL) (p_if_expr n) (if_tokens c) c.
Proof. intros Hn. eapply reads_weaken; [|by apply if_reads]. by intros t <-. Qed.
Lemma expr_eol n e : (esize e <= n)%nat -> reads (eq T_EOL) (p_expr n) (expr_tokens 0 e) e.
Proof. intros Hn. eapply reads_weaken; [|by apply expr_reads]. by intros t <-. Qed.
Lemma prompt_opt_eol n p : (match p with Some (_, c) => csize c <= n | None => True end)%nat ->
  reads (eq T_EOL) (p_prompt_opt n) (prompt_tokens p) p.
Proof.
  intros Hn. unfold p_prompt_opt. destruct p as [[t c]|]; cbn [prompt_tokens].
  - eapply reads_peek; [reflexivity|]. rewrite <- (app_nil_r (if_tokens c)).
    eapply reads_bind; [by apply if_reads|apply reads_ret|by intros t' <-].
  - apply reads_look. by intros t <-.
Qed.

(** The tokens of an item bound the expressions in it. *)
Definition icost (i : item) : nat := match i with Line _ ts => 2 * length ts + 4 | HelpText _ => 4 end.
Lemma csize_tokens c : (csize c <= 2 * length (if_tokens c))%nat.
Proof. destruct c as [e|]; cbn; [|lia]. pose proof (esize_tokens e 0). lia. Qed.
Ltac sizes := cbn [icost config_item choice_item depends_line visible_line prompt_tokens] in *; rewrite ?length_app in *; cbn [length] in *;
  repeat match goal with
  | e : kexpr |- _ => lazymatch goal with H : (esize e <= 2 * length (expr_tokens 0 e))%nat |- _ => fail
                      | _ => pose proof (esize_tokens e 0) end
  | c : option kexpr |- _ => lazymatch goal with H : (csize c <= 2 * length (if_tokens c))%nat |- _ => fail
                      | _ => pose proof (csize_tokens c) end
  end; lia.

(** Behind a line or a text of help that has been read. *)
Definition settled_at (g : gstate) (r : string) (g' : gstate) : Prop := ready g' r /\ places g' = places g.
(** The parser of an option [i], behind its keyword, does what [z] does. *)
Definition reads_item (par : kconf_id -> option (GM unit)) (i : item) (z : ZM unit) : Prop :=
  match i with
  | Line id ts => exists m, par id = Some m /\ forall g k r, avail g (ts ++ [T_EOL]) k -> near b k -> at_text INITIAL r k ->
      sim m z g (settled_at g r)
  | HelpText t => exists m, par (keyword_of "help") = Some m /\ forall g k r, avail g [T_EOL] k -> near b k ->
      at_text INITIAL (help_lines (lines_of t) +:+ "#" +:+ NL +:+ r) k -> sim m z g (settled_at g ("#" +:+ NL +:+ r))
  end.

Lemma sim_any {A} (m : GM A) ts a h z g us k Q : reads any m ts a -> us <> [] -> avail g (ts ++ us) k ->
  (forall g1, avail g1 us k -> alike g g1 -> sim (h a) z g1 Q) -> sim (m ≫= h) z g Q.
Proof. intros Hr Hu Ha Hf. destruct us as [|t u]; [done|]. by eapply sim_reads. Qed.
Lemma act_done z g0 g k r : avail g [] k -> near b k -> at_text INITIAL r k -> alike g0 g -> sim (act z) z g (settled_at g0 r).
Proof.
  intros A N T [_ L]. apply sim_act. intros p _. split; [|exact L]. eapply (ready_alike g); [done|done|]. by eapply ready_at.
Qed.
Lemma eol_done z g0 g k r : avail g [T_EOL] k -> near b k -> at_text INITIAL r k -> alike g0 g ->
  sim (p_eol;; act z) z g (settled_at g0 r).
Proof.
  intros A N T L. eapply sim_eol; [exact A|]. intros g1 A1 L1. eapply act_done; [done..|]. by etransitivity.
Qed.
Lemma settled_alike g g1 r g' : alike g g1 -> settled_at g1 r g' -> settled_at g r g'.
Proof. intros [_ E] [H1 H2]. split; [done|congruence]. Qed.

Lemma depends_done n e z g k r : (esize e <= n)%nat -> avail g (ON :: expr_tokens 0 e ++ [T_EOL]) k -> near b k -> at_text INITIAL r k ->
  sim (x ← p_depends n; act (z x)) (z e) g (settled_at g r).
Proof.
  intros Hn Ha N T. unfold p_depends. destruct (avail_next g _ _ k Ha) as (g1 & E1 & A1 & L1).
  destruct (expr_eol n e Hn g1 T_EOL [] k eq_refl A1) as (g2 & E2 & A2 & L2).
  destruct (avail_next g2 _ _ k A2) as (g3 & E3 & A3 & L3).
  assert (L : alike g g3) by (etransitivity; [exact L1|]; by etransitivity).
  eapply (sim_from _ _ _ _ e g3); [|apply L|by eapply act_done].
  rewrite (erun _ _ _ _ _ E1). change (is_key T_ON ON) with true. cbn iota. rewrite (erun _ _ _ _ _ E2).
  by rewrite (erun p_eol _ g2 tt g3) by (unfold p_eol; by rewrite (erun _ _ _ _ _ E3)).
Qed.
Lemma help_done t z g k r : help_ok t = true -> avail g [T_EOL] k -> near b k ->
  at_text INITIAL (help_lines (lines_of t) +:+ "#" +:+ NL +:+ r) k ->
  sim (x ← p_help; act (z x)) (z t) g (settled_at g ("#" +:+ NL +:+ r)).
Proof.
  intros Hok Ha N [Hc Hi]. unfold p_help. destruct (avail_next g _ _ k Ha) as (g1 & E1 & [Ha1 Hs1]%avail_nil & L1).
  set (l0 := {| condition := HELP; input := input (lex k); gathered := ""; delim := delim (lex k); last_ts := 0; first_ts := 0 |}).
  set (g2 := set_scn (set_lex l0 k) g1).
  assert (E2 : scan zconf_starthelp g1 = Ok (Returned tt) g2).
  { unfold scan, zconf_starthelp, mbind, PM_bind, pget, pmodify. rewrite Hs1. reflexivity. }
  assert (N2 : near b (set_lex l0 k)) by (etransitivity; [exact N|apply near_lex]).
  assert (I2 : in_help 0 "" (help_lines (lines_of t) +:+ "#" +:+ NL +:+ r) (set_lex l0 k)).
  { split; [split; [done|exact Hi]|done]. }
  destruct (help_gives t (NL +:+ r) (set_lex l0 k) f Hok (near_file _ N2) eq_refl I2) as (s3 & E3 & N3 & A3).
  assert (N03 : near b s3) by (by etransitivity).
  set (g3 := set_ahead None (set_ahead (Some (T_HELPTEXT t)) (set_scn s3 g2))).
  assert (E4 : next g2 = Ok (Returned (T_HELPTEXT t)) g3).
  { unfold next, peek, mbind, EM_bind, eget. change (ahead g2) with (ahead g1). rewrite Ha1. unfold scan.
    change (scn g2) with (set_lex l0 k). rewrite E3. reflexivity. }
  assert (L3 : alike g g3) by (split; [apply L1|apply L1]).
  eapply (sim_from _ _ _ _ t g3); [|apply L3|].
  - rewrite (erun p_eol _ g tt g1) by (unfold p_eol; by rewrite (erun _ _ _ _ _ E1)).
    rewrite (erun _ _ _ _ _ E2). by rewrite (erun _ _ _ _ _ E4).
  - eapply act_done; [done|exact N03|exact A3|exact L3].
Qed.

Lemma arg_reads arg : reads (eq T_EOL) symbol_option_arg
  (match arg with Some p => [T_EQUAL; T_WORD_QUOTE p] | None => [] end) arg.
Proof.
  destruct arg as [p|].
  - eapply reads_peek; [reflexivity|]. rewrite <- (app_nil_r [T_WORD_QUOTE p]).
    eapply reads_bind; [apply (prompt_reads any)|apply reads_ret|done].
  - apply reads_look. by intros t <-.
Qed.
Lemma config_option_reads n o : config_ok o = true -> item_ok (config_item o) = true -> (icost (config_item o) <= n)%nat ->
  reads_item (p_config_option getenv n) (config_item o) (run_config_option getenv o).
Proof.
  intros Hok Hi Hn. destruct o as [ty p|t c|ty e c|w c|x y c|o arg|e|t]; cbn [config_item reads_item depends_line].
  - assert (Hp : (match p with Some (_, c) => csize c <= n | None => True end)%nat).
    { destruct p as [[? c]|]; [|done]. sizes. }
    exists (p ← p_prompt_opt n; p_eol;; run_option getenv (OType ty p)). split.
    + apply bool_decide_eq_true in Hok. rewrite !elem_of_cons, elem_of_nil in Hok. by destruct_or?; subst ty.
    + intros g k r Ha N T. eapply sim_reads; [by apply prompt_opt_eol|done|exact Ha|]. intros g1 A1 L1. by eapply eol_done.
  - exists (p ← p_prompt; c ← p_if_expr n; p_eol;; run_option getenv (OPrompt p c)). split; [done|].
    intros g k r Ha N T. eapply (sim_any _ [T_WORD_QUOTE t] _ _ _ _ (if_tokens c ++ [T_EOL])); [apply prompt_reads|by destruct c|exact Ha|]. intros g1 A1 L1.
    eapply sim_reads; [apply (if_eol n c); sizes|done|exact A1|]. intros g2 A2 L2. eapply eol_done; [done..|]. by etransitivity.
  - exists (e ← p_expr n; c ← p_if_expr n; p_eol;; run_option getenv (ODefault ty e c)). split.
    + apply bool_decide_eq_true in Hok. rewrite !elem_of_cons, elem_of_nil in Hok. by destruct_or?; subst ty.
    + intros g k r Ha N T. rewrite <- app_assoc in Ha.
      assert (Hu : exists t u, if_tokens c ++ [T_EOL] = t :: u /\ stops 0 t) by (destruct c; eexists _, _; (split; [reflexivity|exact I])).
      destruct Hu as (t & u & Eu & Ht). rewrite Eu in Ha.
      eapply sim_reads; [apply (expr_reads n e); sizes|exact Ht|exact Ha|]. intros g1 A1 L1. rewrite <- Eu in A1.
      eapply sim_reads; [apply (if_eol n c); sizes|done|exact A1|]. intros g2 A2 L2. eapply eol_done; [done..|]. by etransitivity.
  - exists (w ← p_word; c ← p_if_expr n; p_eol;; run_option getenv (OSelect w c)). split; [done|].
    intros g k r Ha N T. eapply (sim_any _ [T_WORD w] _ _ _ _ (if_tokens c ++ [T_EOL])); [apply word_reads|by destruct c|exact Ha|]. intros g1 A1 L1.
    eapply sim_reads; [apply (if_eol n c); sizes|done|exact A1|]. intros g2 A2 L2. eapply eol_done; [done..|]. by etransitivity.
  - exists (a ← p_symbol; b ← p_symbol; c ← p_if_expr n; p_eol;; run_option getenv (ORange a b c)). split; [done|].
    intros g k r Ha N T. eapply (sim_any _ [term_token x] _ _ _ _ (term_token y :: if_tokens c ++ [T_EOL])); [apply term_reads|done|exact Ha|]. intros g1 A1 L1.
    eapply (sim_any _ [term_token y] _ _ _ _ (if_tokens c ++ [T_EOL])); [apply term_reads|by destruct c|exact A1|]. intros g2 A2 L2.
    eapply sim_reads; [apply (if_eol n c); sizes|done|exact A2|]. intros g3 A3 L3.
    eapply eol_done; [done..|]. etransitivity; [exact L1|]. by etransitivity.
  - exists (symbol_options getenv n). split; [done|]. intros g k r Ha N T.
    destruct n as [|[|n]]; [cbn in Hn; lia..|].
    assert (Hl : kconf_id_lookup (option_name o) = Some {| id_name := option_name o; id_token := T_OPT o; id_flags := TF_OPTION;
      stype := S_UNKNOWN |}) by (destruct o; vm_compute; reflexivity).
    cbn [symbol_options]. destruct (avail_next g _ _ k Ha) as (g1 & E1 & A1 & L1).
    destruct (arg_reads arg g1 T_EOL [] k eq_refl A1) as (g2 & E2 & A2 & L2).
    eapply (sim_from _ _ _ _ _ g1); [exact E1|apply L1|]. cbn iota.
    eapply (sim_from _ _ _ _ _ g2); [exact E2|apply L2|]. rewrite Hl. cbn iota.
    assert (L02 : alike g g2) by (by etransitivity).
    eapply sim_ext; [reflexivity|instantiate (1 := run_config_option getenv (OOption o arg);; mret tt);
      unfold mbind, PM_bind; by destruct (run_config_option _ _ _) as [[]| |]|].
    eapply sim_bind; [apply (sim_act _ _ (fun g' => exists p, g' = set_pst p g2)); by eexists|].
    intros g3 [p ->] _. destruct (avail_next (set_pst p g2) _ _ k A2) as (g4 & E4 & A4 & L4).
    eapply (sim_from _ _ _ _ _ g4); [exact E4|apply L4|]. apply sim_ret. split; [by eapply ready_at|].
    destruct L02, L4. cbn in *. congruence.
  - exists (e ← p_depends n; run_option getenv (ODepends e)). split; [done|]. intros g k r Ha N T.
    eapply (depends_done n e (fun e => run_config_option getenv (ODepends e))); [sizes|done..].
  - exists (s ← p_help; run_option getenv (OHelp s)). split; [done|]. intros g k r Ha N T.
    by eapply (help_done t (fun t => run_config_option getenv (OHelp t))).
Qed.
Lemma choice_option_reads n o : choice_ok o = true -> item_ok (choice_item o) = true -> (icost (choice_item o) <= n)%nat ->
  reads_item (p_choice_option n) (choice_item o) (run_choice_option o).
Proof.
  intros Hok Hi Hn. destruct o as [t c|ty p| |w c|e|t]; cbn [choice_item reads_item depends_line].
  - exists (p ← p_prompt; c ← p_if_expr n; p_eol;; act (run_choice_option (CPrompt p c))). split; [done|].
    intros g k r Ha N T. eapply (sim_any _ [T_WORD_QUOTE t] _ _ _ _ (if_tokens c ++ [T_EOL])); [apply prompt_reads|by destruct c|exact Ha|]. intros g1 A1 L1.
    eapply sim_reads; [apply (if_eol n c); sizes|done|exact A1|]. intros g2 A2 L2. eapply eol_done; [done..|]. by etransitivity.
  - assert (Hp : (match p with Some (_, c) => csize c <= n | None => True end)%nat).
    { destruct p as [[? c]|]; [|done]. sizes. }
    exists (p ← p_prompt_opt n; p_eol;; act (run_choice_option (CType ty p))). split.
    + apply bool_decide_eq_true in Hok. rewrite !elem_of_cons, elem_of_nil in Hok. by destruct_or?; subst ty.
    + intros g k r Ha N T. eapply sim_reads; [by apply prompt_opt_eol|done|exact Ha|]. intros g1 A1 L1.
      by eapply (eol_done (run_choice_option (CType ty p))).
  - exists (p_eol;; act (run_choice_option COptional)). split; [done|]. intros g k r Ha N T. by eapply eol_done.
  - exists (w ← p_word; c ← p_if_expr n; p_eol;; act (run_choice_option (CDefault w c))). split; [done|].
    intros g k r Ha N T. eapply (sim_any _ [T_WORD w] _ _ _ _ (if_tokens c ++ [T_EOL])); [apply word_reads|by destruct c|exact Ha|]. intros g1 A1 L1.
    eapply sim_reads; [apply (if_eol n c); sizes|done|exact A1|]. intros g2 A2 L2. eapply eol_done; [done..|]. by etransitivity.
  - exists (e ← p_depends n; act (run_choice_option (CDepends e))). split; [done|]. intros g k r Ha N T.
    eapply (depends_done n e (fun e => run_choice_option (CDepends e))); [sizes|done..].
  - exists (s ← p_help; act (run_choice_option (CHelp s))). split; [done|]. intros g k r Ha N T.
    by eapply (help_done t (fun t => run_choice_option (CHelp t))).
Qed.
Lemma dependency_reads n e : (icost (depends_line e) <= n)%nat -> reads_item (p_dependency n) (depends_line e) (add_depends e).
Proof.
  intros Hn. exists (e ← p_depends n; act (add_depends e)). split; [done|]. intros g k r Ha N T.
  eapply (depends_done n e add_depends); [sizes|done..].
Qed.
(** [visible] is not ended by the line end, which the list skips; so the parser is then
    before the line end. *)
Definition at_eol (g : gstate) (r : string) (g' : gstate) : Prop :=
  exists k, avail g' [T_EOL] k /\ near b k /\ at_text INITIAL r k /\ places g' = places g.
Lemma visible_reads n c : (icost (visible_line c) <= n)%nat -> exists m, p_visible n (keyword_of "visible") = Some m /\
  forall g k r, avail g (if_tokens c ++ [T_EOL]) k -> near b k -> at_text INITIAL r k -> sim m (add_visible c) g (at_eol g r).
Proof.
  intros Hn. exists (c ← p_if_expr n; act (add_visible c)). split; [done|]. intros g k r Ha N T.
  eapply sim_reads; [apply (if_eol n c); sizes|done|exact Ha|]. intros g1 A1 L1. apply sim_act. intros p _. exists k.
  split; [exact A1|]. split; [done|]. split; [done|]. apply L1.
Qed.

(** *** Lists of options *)

(** Behind the options: a line that is none, or the end of the file. *)
Definition no_option (par : kconf_id -> option (GM unit)) (r : string) : Prop :=
  r = "" \/ exists id ts r', r = line_text id ts +:+ r' /\ command_ok id = true /\ forallb param_ok ts = true /\ par id = None.
Lemma list_ends par r n g : (2 <= n)%nat -> no_option par r -> ready g r ->
  sim (p_option_list par n) (mret tt) g (settled_at g r).
Proof.
  intros Hn Hr Hg. destruct n as [|[|n]]; [lia..|]. cbn [p_option_list]. destruct Hr as [->|(id & ts & r' & -> & Hid & Hts & Hp)].
  - destruct (eof_peek g Hg) as [(g1 & E1 & L1 & F1)|(g1 & E1 & L1 & F1)].
    + eapply (sim_from _ _ _ _ _ g1); [exact E1|apply L1|]. cbn iota. unfold skip at 1.
      eapply (sim_from _ _ _ _ tt (set_ahead None g1)); [done|done|].
      destruct (finished_peek _ F1) as (g2 & E2 & L2 & F2).
      eapply (sim_from _ _ _ _ _ g2); [exact E2|apply L2|]. cbn iota. apply sim_ret. split; [by right|].
      destruct L1, L2. cbn in *. congruence.
    + eapply (sim_from _ _ _ _ _ g1); [exact E1|apply L1|]. cbn iota. apply sim_ret. split; [by right|]. apply L1.
  - destruct (line_peek g id ts r' Hg Hid Hts) as (g1 & k & E1 & L1 & R1 & _).
    eapply (sim_from _ _ _ _ _ g1); [exact E1|apply L1|]. cbn iota. rewrite Hp. apply sim_ret. split; [exact R1|apply L1].
Qed.

(** The keyword of an item, then its parser. *)
Lemma sim_item par i z n g r : reads_item par i z -> item_ok i = true -> ready g (item_text i +:+ r) -> (1 <= n)%nat ->
  exists n', (n <= S n')%nat /\ forall z' Q,
    (forall g', ready g' r -> places g' = places g -> z (pst g) = Ok tt (pst g') -> sim (p_option_list par n') z' g' Q) ->
    sim (p_option_list par (S n)) (z;; z') g Q.
Proof.
  intros Hi Hok Hg Hn. destruct i as [id ts|t]; cbn [reads_item item_ok item_text] in *.
  - destruct Hi as (m & Hm & Hs). apply andb_true_iff in Hok as [Hid Hts].
    destruct (line_peek g id ts r Hg Hid Hts) as (g1 & k & E1 & L1 & _ & _ & A1 & N1 & T1).
    exists n. split; [lia|]. intros z' Q Hk. cbn [p_option_list].
    eapply (sim_from _ _ _ _ _ g1); [exact E1|apply L1|]. cbn iota. rewrite Hm. unfold skip at 1.
    eapply (sim_from _ _ _ _ tt (set_ahead None g1)); [done|done|].
    eapply sim_bind; [by apply (Hs (set_ahead None g1) k r)|]. cbn beta. intros g2 [R2 P2] Ez. destruct L1 as [Lp Ll].
    apply Hk; [done|cbn in P2; congruence|]. change (pst (set_ahead None g1)) with (pst g1) in Ez. by rewrite Lp in Ez.
  - destruct Hi as (m & Hm & Hs). destruct n as [|n]; [lia|].
    assert (Hg' : ready g (line_text (keyword_of "help") [] +:+ help_lines (lines_of t) +:+ "#" +:+ NL +:+ r)).
    { unfold help_text in Hg. unfold line_text. cbn [spells foldr]. rewrite <- !app_assoc_s in *. exact Hg. }
    destruct (line_peek g _ _ _ Hg' eq_refl eq_refl) as (g1 & k & E1 & L1 & _ & _ & A1 & N1 & T1).
    exists n. split; [lia|]. intros z' Q Hk. cbn [p_option_list].
    eapply (sim_from _ _ _ _ _ g1); [exact E1|apply L1|]. cbn iota. rewrite Hm. unfold skip at 1.
    eapply (sim_from _ _ _ _ tt (set_ahead None g1)); [done|done|].
    eapply sim_bind; [by apply (Hs (set_ahead None g1) k r)|]. cbn beta. intros g2 [R2 P2] Ez. destruct L1 as [Lp Ll].
    destruct (comment_peek g2 r R2) as (g3 & E3 & L3 & R3).
    eapply (sim_from _ _ _ _ _ g3); [exact E3|apply L3|]. cbn iota. unfold skip at 1.
    eapply (sim_from _ _ _ _ tt (set_ahead None g3)); [done|done|]. destruct L3 as [Lp3 Ll3].
    apply Hk; [done|cbn in *; congruence|]. change (pst (set_ahead None g1)) with (pst g1) in Ez. rewrite Lp in Ez.
    change (pst (set_ahead None g3)) with (pst g3). by rewrite Lp3.
Qed.
Lemma option_list_sim {O} (item_of : O -> item) (run : O -> ZM unit) par opts : forall n g r,
  (forall o, o ∈ opts -> reads_item par (item_of o) (run o) /\ item_ok (item_of o) = true) -> no_option par r ->
  (2 * length opts + 2 <= n)%nat -> ready g (text_of (map item_of opts) +:+ r) ->
  sim (p_option_list par n) (pforeach run opts) g (settled_at g r).
Proof.
  induction opts as [|o opts IH]; intros n g r Ho Hr Hn Hg; [by apply list_ends|].
  destruct (Ho o ltac:(by left)) as [Hi Hok]. cbn [length] in Hn. destruct n as [|n]; [lia|].
  cbn [map text_of foldr] in Hg. fold (text_of (map item_of opts)) in Hg. rewrite <- app_assoc_s in Hg.
  destruct (sim_item par (item_of o) (run o) n g _ Hi Hok Hg ltac:(lia)) as (n' & Hn' & Hs).
  cbn [pforeach]. apply Hs. intros g' R' P' _. eapply sim_post; [|apply (IH n' g' r); [|done|lia|exact R']].
  - intros g2 [R2 P2]. split; [done|congruence].
  - intros o' Hin. apply Ho. by right.
Qed.
(** The visibilities of a menu, likewise. *)
Lemma visible_list_sim n vis : forall m g r, (forall c, c ∈ vis -> (icost (visible_line c) <= n)%nat /\ item_ok (visible_line c) = true) ->
  no_option (p_visible n) r -> (2 * length vis + 2 <= m)%nat -> ready g (text_of (map visible_line vis) +:+ r) ->
  sim (p_option_list (p_visible n) m) (pforeach add_visible vis) g (settled_at g r).
Proof.
  induction vis as [|c vis IH]; intros m g r Ho Hr Hm Hg; [by apply list_ends|].
  destruct (Ho c ltac:(by left)) as [Hn Hok]. cbn [length] in Hm. destruct m as [|[|m]]; [lia..|].
  cbn [map text_of foldr] in Hg. fold (text_of (map visible_line vis)) in Hg. rewrite <- app_assoc_s in Hg.
  destruct (visible_reads n c Hn) as (p & Hp & Hs). apply andb_true_iff in Hok as [Hid Hts].
  destruct (line_peek g _ _ _ Hg Hid Hts) as (g1 & k & E1 & L1 & _ & _ & A1 & N1 & T1).
  cbn [p_option_list pforeach]. eapply (sim_from _ _ _ _ _ g1); [exact E1|apply L1|]. cbn iota. rewrite Hp. unfold skip at 1.
  eapply (sim_from _ _ _ _ tt (set_ahead None g1)); [done|done|].
  eapply sim_bind; [by apply (Hs (set_ahead None g1) k)|]. cbn beta. intros g2 (k2 & A2 & N2 & T2 & P2) _.
  destruct (avail_peek g2 _ _ _ A2) as (g3 & E3 & A3 & H3 & L3).
  eapply (sim_from _ _ _ _ _ g3); [exact E3|apply L3|]. cbn iota. unfold skip at 1.
  eapply (sim_from _ _ _ _ tt (set_ahead None g3)); [done|done|].
  assert (R3 : ready (set_ahead None g3) (text_of (map visible_line vis) +:+ r)).
  { eapply ready_at; [by eapply avail_skip|done..]. }
  eapply sim_post; [|apply (IH m (set_ahead None g3) r); [|done|lia|exact R3]].
  - intros g4 [R4 P4]. split; [done|]. destruct L1, L3. cbn in *. congruence.
  - intros c' Hin. apply Ho. by right.
Qed.

(** *** All options of an entry *)

Definition cost (l : list item) : nat := list_sum (map icost l).
Lemma cost_app l1 l2 : cost (l1 ++ l2) = (cost l1 + cost l2)%nat.
Proof. unfold cost. by rewrite map_app, list_sum_app. Qed.
Lemma cost_cons i l : cost (i :: l) = (icost i + cost l)%nat.
Proof. done. Qed.
Lemma icost_4 i : (4 <= icost i)%nat.
Proof. destruct i; cbn [icost]; lia. Qed.
Lemma cost_length l : (4 * length l <= cost l)%nat.
Proof. induction l as [|i l IH]; [done|]. rewrite cost_cons. pose proof (icost_4 i). cbn [length]. lia. Qed.
Lemma cost_elem i l : i ∈ l -> (icost i <= cost l)%nat.
Proof. induction 1; rewrite cost_cons; lia. Qed.
Lemma text_of_app l1 l2 : text_of (l1 ++ l2) = text_of l1 +:+ text_of l2.
Proof. induction l1 as [|i l1 IH]; [done|]. cbn [app text_of foldr]. fold (text_of (l1 ++ l2)). rewrite IH. apply app_assoc_s. Qed.
Lemma text_of_cons i l : text_of (i :: l) = item_text i +:+ text_of l.
Proof. done. Qed.

(** Behind an entry: a statement or the end of a block. *)
Definition statement (k : keyword) : bool := bool_decide
  (k ∈ [T_CONFIG; T_MENUCONFIG; T_COMMENT; T_CHOICE; T_MENU; T_IF; T_ENDMENU; T_ENDCHOICE; T_ENDIF]).
Definition lined (r : string) : Prop := exists id ts r',
  r = line_text id ts +:+ r' /\ command_ok id = true /\ forallb param_ok ts = true /\ statement (id_token id) = true.
Definition headed (r : string) : Prop := r = "" \/ lined r.
Lemma headed_no_option par r : (forall id, statement (id_token id) = true -> par id = None) -> headed r -> no_option par r.
Proof. intros Hp [->|(id & ts & r' & E & Hid & Hts & Hs)]; [by left|right]. exists id, ts, r'. eauto. Qed.

Lemma options_sim {O} (item_of : O -> item) run okf par opts n g r :
  (forall o, okf o = true -> item_ok (item_of o) = true -> (icost (item_of o) <= n)%nat -> reads_item par (item_of o) (run o)) ->
  (forall id, statement (id_token id) = true -> par id = None) ->
  forallb okf opts = true -> forallb item_ok (map item_of opts) = true -> (cost (map item_of opts) + 2 <= n)%nat -> headed r ->
  ready g (text_of (map item_of opts) +:+ r) -> sim (p_option_list par n) (pforeach run opts) g (settled_at g r).
Proof.
  intros Hi Hp Hok Hit Hn Hr. apply option_list_sim; [|by apply headed_no_option|].
  - intros o Ho. rewrite forallb_forall in Hok, Hit. apply list_elem_of_In in Ho as Ho'.
    assert (Ho2 : item_of o ∈ map item_of opts) by (apply list_elem_of_In, in_map; done).
    split; [apply Hi; [by apply Hok| |]|]; [apply Hit, list_elem_of_In, Ho2|apply cost_elem in Ho2; lia|apply Hit, list_elem_of_In, Ho2].
  - pose proof (cost_length (map item_of opts)) as H. rewrite length_map in H. lia.
Qed.
Lemma config_list_sim opts n g r : forallb config_ok opts = true -> forallb item_ok (map config_item opts) = true ->
  (cost (map config_item opts) + 2 <= n)%nat -> headed r -> ready g (text_of (map config_item opts) +:+ r) ->
  sim (p_option_list (p_config_option getenv n) n) (pforeach (run_config_option getenv) opts) g (settled_at g r).
Proof.
  apply options_sim; [intros o; apply config_option_reads|]. intros id. unfold p_config_option. by destruct (id_token id).
Qed.
Lemma choice_list_sim opts n g r : forallb choice_ok opts = true -> forallb item_ok (map choice_item opts) = true ->
  (cost (map choice_item opts) + 2 <= n)%nat -> headed r -> ready g (text_of (map choice_item opts) +:+ r) ->
  sim (p_option_list (p_choice_option n) n) (pforeach run_choice_option opts) g (settled_at g r).
Proof.
  apply options_sim; [intros o; apply choice_option_reads|]. intros id. unfold p_choice_option. by destruct (id_token id).
Qed.
Lemma depends_list_sim deps n g r : forallb item_ok (map depends_line deps) = true ->
  (cost (map depends_line deps) + 2 <= n)%nat -> headed r -> ready g (text_of (map depends_line deps) +:+ r) ->
  sim (p_option_list (p_dependency n) n) (pforeach add_depends deps) g (settled_at g r).
Proof.
  apply (options_sim depends_line add_depends (fun _ => true)); [intros o _ _; apply dependency_reads| |by induction deps].
  intros id. unfold p_dependency. by destruct (id_token id).
Qed.
Lemma visibility_list_sim vis n deps g r : forallb item_ok (map visible_line vis) = true -> forallb item_ok (map depends_line deps) = true ->
  (cost (map visible_line vis) + 2 <= n)%nat -> headed r -> ready g (text_of (map visible_line vis) +:+ text_of (map depends_line deps) +:+ r) ->
  sim (p_option_list (p_visible n) n) (pforeach add_visible vis) g (settled_at g (text_of (map depends_line deps) +:+ r)).
Proof.
  intros Hv Hd Hn Hr. apply visible_list_sim.
  - intros c Hc. rewrite forallb_forall in Hv. assert (Hc2 : visible_line c ∈ map visible_line vis).
    { apply list_elem_of_In, in_map. by apply list_elem_of_In. }
    split; [apply cost_elem in Hc2; lia|apply Hv, list_elem_of_In, Hc2].
  - destruct deps as [|e deps].
    + apply headed_no_option; [|done]. intros id. unfold p_visible. by destruct (id_token id).
    + right. cbn [map] in *. apply andb_true_iff in Hd as [[Hid Hts]%andb_true_iff _].
      eexists _, _, _. rewrite text_of_cons, <- app_assoc_s. split; [reflexivity|]. eauto.
  - pose proof (cost_length (map visible_line vis)) as H. rewrite length_map in H. lia.
Qed.

(** *** Entries *)

(** The new entry is in [f]; the text [r] is behind. *)
Definition entered_at (g : gstate) (r : string) (g' : gstate) : Prop :=
  ready g' r /\ exists l, places g' = <[fresh_menu (pst g) := (Some f, l)]> (places g).
Lemma place_sim z g r : ready g r -> current_file (scn g) = Some f -> sim (at_place z) z g (entered_at g r).
Proof.
  intros Hr Hf. apply sim_at_place. intros p _. split; [by apply (ready_alike g)|]. eexists. cbn. by rewrite Hf.
Qed.
Lemma entered_settled g g1 r r' g' : entered_at g r g1 -> settled_at g1 r' g' -> entered_at g r' g'.
Proof. intros [_ [l E]] [R E']. split; [done|]. exists l. congruence. Qed.
Lemma entered_act z g g1 r : entered_at g r g1 -> sim (act z) z g1 (entered_at g r).
Proof. intros [R [l E]]. apply sim_act. intros p _. split; [by apply (ready_alike g1)|]. by exists l. Qed.
Lemma entered_alike g g1 r g' : alike g g1 -> entered_at g1 r g' -> entered_at g r g'.
Proof. intros [Ep El] [R [l E]]. split; [done|]. exists l. congruence. Qed.

Lemma config_stmt_sim n mc w opts g k r : avail g [T_WORD w; T_EOL] k -> near b k ->
  at_text INITIAL (text_of (map config_item opts) +:+ r) k -> headed r ->
  forallb config_ok opts = true -> forallb item_ok (map config_item opts) = true -> (cost (map config_item opts) + 2 <= n)%nat ->
  sim (config_stmt getenv n mc) (config_actions getenv mc w opts) g (entered_at g r).
Proof.
  intros Ha N T Hr Hok Hit Hn. eapply (sim_any _ [T_WORD w] _ _ _ _ [T_EOL]); [apply word_reads|done|exact Ha|]. intros g1 A1 L1.
  eapply sim_eol; [exact A1|]. intros g2 A2 L2. assert (L02 : alike g g2) by (by etransitivity).
  eapply (sim_post _ _ _ (entered_at g2 r)); [intros g' H; by eapply entered_alike|]. eapply sim_bind.
  { apply place_sim; [by eapply ready_at|]. apply avail_nil in A2 as [_ ->]. by apply near_file. }
  intros g3 H3 _. eapply sim_bind; [apply config_list_sim; try done; apply H3|]. intros g4 H4 _.
  apply entered_act. by eapply entered_settled.
Qed.
Lemma comment_stmt_sim n p deps g k r : avail g [T_WORD_QUOTE p; T_EOL] k -> near b k ->
  at_text INITIAL (text_of (map depends_line deps) +:+ r) k -> headed r ->
  forallb item_ok (map depends_line deps) = true -> (cost (map depends_line deps) + 2 <= n)%nat ->
  sim (comment_stmt n) (comment_actions p deps) g (entered_at g r).
Proof.
  intros Ha N T Hr Hit Hn. eapply (sim_any _ [T_WORD_QUOTE p] _ _ _ _ [T_EOL]); [apply prompt_reads|done|exact Ha|]. intros g1 A1 L1.
  eapply sim_eol; [exact A1|]. intros g2 A2 L2. assert (L02 : alike g g2) by (by etransitivity).
  eapply (sim_post _ _ _ (entered_at g2 r)); [intros g' H; by eapply entered_alike|]. eapply sim_bind.
  { apply place_sim; [by eapply ready_at|]. apply avail_nil in A2 as [_ ->]. by apply near_file. }
  intros g3 H3 _. eapply sim_bind; [by apply entered_act|]. intros g4 H4 _.
  eapply sim_bind; [apply depends_list_sim; try done; apply H4|]. intros g5 H5 _.
  apply entered_act. by eapply entered_settled.
Qed.
Lemma word_opt_reads w : reads (eq T_EOL) (t ← peek; match t with T_WORD w => skip;; mret (Some w) | _ => mret None end)
  (match w with Some w => [T_WORD w] | None => [] end) w.
Proof. destruct w as [w|]; [eapply reads_peek; [reflexivity|apply reads_ret]|apply reads_look; by intros t <-]. Qed.
Lemma choice_entry_sim n w opts g k r : avail g (match w with Some w => [T_WORD w] | None => [] end ++ [T_EOL]) k -> near b k ->
  at_text INITIAL (text_of (map choice_item opts) +:+ r) k -> headed r ->
  forallb choice_ok opts = true -> forallb item_ok (map choice_item opts) = true -> (cost (map choice_item opts) + 2 <= n)%nat ->
  sim (choice_entry n) (choice_actions w opts;; menu_add_menu) g (entered_at g r).
Proof.
  intros Ha N T Hr Hok Hit Hn.
  eapply (sim_ext _ ((t ← peek; match t with T_WORD w => skip;; mret (Some w) | _ => mret None end) ≫= _)).
  { unfold choice_entry. instantiate (1 := fun w => p_eol;; (at_place (KParse.choice_entry_start w);;
      (p_option_list (p_choice_option n) n;; act menu_add_menu))).
    unfold mbind, EM_bind. repeat case_match; congruence. }
  { instantiate (1 := choice_entry_start w;; (pforeach run_choice_option opts;; menu_add_menu)). unfold choice_actions. group. }
  eapply sim_reads; [apply word_opt_reads|done|exact Ha|]. intros g1 A1 L1.
  eapply sim_eol; [exact A1|]. intros g2 A2 L2. assert (L02 : alike g g2) by (by etransitivity).
  eapply (sim_post _ _ _ (entered_at g2 r)); [intros g' H; by eapply entered_alike|]. eapply sim_bind.
  { apply place_sim; [by eapply ready_at|]. apply avail_nil in A2 as [_ ->]. by apply near_file. }
  intros g3 H3 _. eapply sim_bind; [apply choice_list_sim; try done; apply H3|]. intros g4 H4 _.
  apply entered_act. by eapply entered_settled.
Qed.
Lemma menu_entry_sim n p vis deps g k r : avail g [T_WORD_QUOTE p; T_EOL] k -> near b k ->
  at_text INITIAL (text_of (map visible_line vis) +:+ text_of (map depends_line deps) +:+ r) k -> headed r ->
  forallb item_ok (map visible_line vis) = true -> forallb item_ok (map depends_line deps) = true ->
  (cost (map visible_line vis) + cost (map depends_line deps) + 2 <= n)%nat ->
  sim (menu_entry n) (menu_actions p vis deps;; menu_add_menu) g (entered_at g r).
Proof.
  intros Ha N T Hr Hv Hd Hn. eapply sim_ext; [reflexivity|instantiate (1 := menu_add_entry None;; (menu_add_prompt P_MENU p None;;
    (pforeach add_visible vis;; (pforeach add_depends deps;; menu_add_menu)))); unfold menu_actions; group|].
  eapply (sim_any _ [T_WORD_QUOTE p] _ _ _ _ [T_EOL]); [apply prompt_reads|done|exact Ha|]. intros g1 A1 L1.
  eapply sim_eol; [exact A1|]. intros g2 A2 L2. assert (L02 : alike g g2) by (by etransitivity).
  eapply (sim_post _ _ _ (entered_at g2 r)); [intros g' H; by eapply entered_alike|]. eapply sim_bind.
  { apply place_sim; [by eapply ready_at|]. apply avail_nil in A2 as [_ ->]. by apply near_file. }
  intros g3 H3 _. eapply sim_bind; [by apply entered_act|]. intros g4 H4 _.
  eapply sim_bind; [apply (visibility_list_sim vis n deps _ r); try done; [lia|apply H4]|]. intros g5 H5 _.
  eapply sim_bind; [apply (depends_list_sim deps n _ r); try done; [lia|apply H5]|]. intros g6 H6 _.
  apply entered_act. eapply entered_settled; [|exact H6]. by eapply entered_settled.
Qed.
Lemma if_entry_sim n c g k r : avail g (expr_tokens 0 c ++ [T_EOL]) k -> near b k -> at_text INITIAL r k -> lined r ->
  (2 * length (expr_tokens 0 c) + 2 <= n)%nat -> sim (if_entry n) (if_actions c;; menu_add_menu) g (entered_at g r).
Proof.
  intros Ha N T (id & ts & r' & -> & Hid & Hts & _) Hn.
  eapply sim_ext; [reflexivity|instantiate (1 := KParse.if_entry c); unfold if_actions, KParse.if_entry; group|].
  eapply sim_reads; [apply (expr_eol n c); pose proof (esize_tokens c 0); lia|done|exact Ha|]. intros g1 A1 L1.
  eapply (sim_ext _ (p_eol;; (p_nls n;; at_place (KParse.if_entry c)))); [|reflexivity|].
  { unfold p_nl, mbind, EM_bind. repeat case_match; congruence. }
  eapply sim_eol; [exact A1|]. intros g2 A2 L2.
  destruct (line_peek g2 id ts r' ltac:(by eapply ready_at) Hid Hts) as (g3 & k3 & E3 & L3 & R3 & F3 & _).
  destruct n as [|n]; [lia|]. assert (L03 : alike g g3) by (etransitivity; [exact L1|]; by etransitivity).
  eapply (sim_post _ _ _ (entered_at g3 _)); [intros g' H; by eapply entered_alike|].
  eapply (sim_from _ _ _ _ tt g3); [|apply L3|by apply place_sim]. cbn [p_nls]. by rewrite (erun _ _ _ _ _ E3).
Qed.

(** *** Blocks *)

(** The positions of the entries there were stay as they are. *)
Definition kept (g g' : gstate) : Prop := forall m, (m < fresh_menu (pst g))%nat -> places g' !! m = places g !! m.
Definition passed (g : gstate) (r : string) (g' : gstate) : Prop := ready g' r /\ kept g g'.
Lemma entered_passed g r g' : entered_at g r g' -> passed g r g'.
Proof. intros [R [l E]]. split; [done|]. intros m Hm. rewrite E, lookup_insert_ne; [done|lia]. Qed.
Lemma passed_trans g g1 r r' g2 : (fresh_menu (pst g) <= fresh_menu (pst g1))%nat -> passed g r g1 -> passed g1 r' g2 -> passed g r' g2.
Proof. intros Hf [_ K1] [R2 K2]. split; [done|]. intros m Hm. rewrite K2 by lia. by apply K1. Qed.

Lemma is_end_key id ek : is_end ek = true -> id_token id = ek -> is_end (id_token id) = true.
Proof. by intros ? ->. Qed.
Lemma end_sim g p l id st ek r : ready g (line_text id [] +:+ r) -> command_ok id = true -> id_token id = ek -> is_end ek = true ->
  current_menu (pst g) = Some p -> places g !! p = Some (Some f, l) ->
  sim (block_end st ek) menu_end_menu g (settled_at g r).
Proof.
  intros Hr Hid Hk He Hm Hp. destruct (line_peek g id [] r Hr Hid eq_refl) as (g1 & k & E1 & L1 & _ & _ & A1 & N1 & T1).
  eapply (sim_from _ _ _ _ (TKey id) (set_ahead None g1)); [|apply L1|].
  { unfold next. by rewrite (erun _ _ _ _ _ E1). }
  cbn iota. rewrite (is_end_key _ _ He Hk). eapply sim_eol; [exact A1|]. intros g2 A2 L2.
  assert (L : alike g g2) by (destruct L1, L2; split; cbn in *; congruence). destruct L as [Lp Ll].
  eapply (sim_from _ _ _ _ true g2); [|done|].
  - unfold zconf_endtoken. rewrite bool_decide_eq_false_2 by (intros H; by apply H).
    rewrite erun_get, Lp, Hm. cbn [elift]. unfold mbind at 1, EM_bind. cbn [elift].
    rewrite Ll, Hp. cbn [default fst]. apply avail_nil in A2 as [_ ->]. rewrite near_file by done. by rewrite bool_decide_eq_true_2.
  - cbn iota. apply sim_act. intros q _. split; [apply (ready_alike g2); [done..|]; by eapply ready_at|exact Ll].
Qed.
Lemma block_sim entry stl (head : ZM unit) body g p id st ek r : adds head -> open_in (pst g) p ->
  command_ok id = true -> id_token id = ek -> is_end ek = true ->
  sim entry (head;; menu_add_menu) g (entered_at g (text_of (stmt_items body) +:+ line_text id [] +:+ r)) ->
  (forall g1 q, open_in (pst g1) q -> ready g1 (text_of (stmt_items body) +:+ line_text id [] +:+ r) ->
     sim stl (run_stmts getenv body) g1 (passed g1 (line_text id [] +:+ r))) ->
  sim (entry;; (stl;; block_end st ek)) (block_actions getenv head body) g (passed g r).
Proof.
  intros Hh Ho Hid Hk He Hen Hb.
  eapply sim_ext; [reflexivity|instantiate (1 := (head;; menu_add_menu);; (run_stmts getenv body;; menu_end_menu));
    unfold block_actions; group|].
  eapply sim_bind; [exact Hen|]. intros g1 H1 E1. destruct (head_opens _ _ _ _ Hh Ho E1) as [O1 F1].
  eapply sim_bind; [apply (Hb g1 _ O1), H1|]. intros g2 H2 E2. destruct (body_open _ _ _ _ _ O1 E2) as [M2 F2].
  assert (K2 : kept g g2).
  { intros m Hm. rewrite (proj2 H2) by lia. by apply (entered_passed _ _ _ H1). }
  destruct H1 as [_ [l P1]]. eapply sim_post; [|eapply (end_sim g2 _ l id st ek r); [apply H2|done..|exact M2|]].
  - intros g3 [R3 P3]. split; [done|]. intros m Hm. rewrite P3. by apply K2.
  - rewrite (proj2 H2) by lia. rewrite P1. apply lookup_insert_eq.
Qed.

(** *** Statements *)

(** What is behind a list of statements: the end of the file, or of the block. *)
Definition ends (lv : level) (r : string) : Prop :=
  match lv with
  | Top => r = ""
  | _ => exists id r', r = line_text id [] +:+ r' /\ command_ok id = true /\ is_end (id_token id) = true
  end.
Lemma is_end_statement k : is_end k = true -> statement k = true.
Proof. unfold is_end, statement. rewrite !bool_decide_eq_true, !elem_of_cons. tauto. Qed.
Lemma ends_headed lv r : ends lv r -> headed r.
Proof. destruct lv; cbn; [by left|..]; intros (id & r' & E & Hid & He%is_end_statement); right; exists id, [], r'; auto. Qed.
Lemma items_headed ss lv r : ends lv r -> forallb item_ok (stmt_items ss) = true -> headed (text_of (stmt_items ss) +:+ r).
Proof.
  intros Hr. destruct ss as [|[] w opts rest|? ? ?|? ? ? ?|? ? ? ? ?|? ? ?]; [intros _; by eapply ends_headed|..];
  cbn [stmt_items]; intros Hok; right; rewrite text_of_cons, <- app_assoc_s; cbn [forallb item_ok] in Hok;
  apply andb_true_iff in Hok as [[Hid Hts]%andb_true_iff _]; cbn [item_text]; eexists _, _, _; (split; [reflexivity|auto]).
Qed.
Lemma items_lined ss lv r : lv <> Top -> ends lv r -> forallb item_ok (stmt_items ss) = true -> lined (text_of (stmt_items ss) +:+ r).
Proof.
  intros Hl Hr Hok. destruct (items_headed ss lv r Hr Hok) as [E|]; [exfalso|done].
  assert (Er : r = "") by (revert E; by destruct (text_of (stmt_items ss))). subst r.
  destruct lv; [done|..]; destruct Hr as (id & r' & E' & Hid & _); destruct (command_chars id Hid) as (c & w & En & _);
    unfold line_text in E'; by rewrite En in E'.
Qed.
Lemma lined_line id ts r : command_ok id = true -> forallb param_ok ts = true -> statement (id_token id) = true -> lined (line_text id ts +:+ r).
Proof. intros. exists id, ts, r. auto. Qed.

(** A statement: its keyword, then the rest of it. *)
Lemma key_step (K : tok -> GM unit) g id ts r m z Q : K (TKey id) = (skip;; m) ->
  ready g (line_text id ts +:+ r) -> command_ok id = true -> forallb param_ok ts = true ->
  (forall g1 k, alike g g1 -> avail g1 (ts ++ [T_EOL]) k -> near b k -> at_text INITIAL r k -> sim m z g1 Q) ->
  sim (peek ≫= K) z g Q.
Proof.
  intros EK Hr Hid Hts Hm. destruct (line_peek g id ts r Hr Hid Hts) as (g1 & k & E1 & L1 & _ & _ & A1 & N1 & T1).
  eapply (sim_from _ _ _ _ _ g1); [exact E1|apply L1|]. rewrite EK.
  eapply (sim_from _ _ _ _ tt (set_ahead None g1)); [done|done|]. eapply Hm; [|exact A1|done..]. by destruct L1.
Qed.
Lemma passed_alike g g1 r g' : alike g g1 -> passed g1 r g' -> passed g r g'.
Proof. intros [Ep El] [R K]. split; [done|]. unfold kept in *. by rewrite Ep, El in K. Qed.
Lemma then_rest m a again rest g p r r' : sim m a g (passed g r) ->
  (forall st', a (pst g) = Ok tt st' -> open_in st' p /\ (fresh_menu (pst g) <= fresh_menu st')%nat) ->
  (forall g2, open_in (pst g2) p -> ready g2 r -> sim again rest g2 (passed g2 r')) -> sim (m;; again) (a;; rest) g (passed g r').
Proof.
  intros Hm Ho Ha. eapply sim_bind; [exact Hm|]. intros g2 H2 E2. destruct (Ho _ E2) as [O2 F2].
  eapply sim_post; [|apply Ha; [exact O2|apply H2]]. intros g3 H3. by eapply passed_trans.
Qed.
Lemma adds_then m st p st' : adds m -> open_in st p -> m st = Ok tt st' -> open_in st' p /\ (fresh_menu st <= fresh_menu st')%nat.
Proof. intros Hm Ho E. destruct (adds_open _ _ _ _ Hm Ho E) as (O & _ & ->). auto with lia. Qed.
Lemma block_then head body st p st' : adds head -> open_in st p -> block_actions getenv head body st = Ok tt st' ->
  open_in st' p /\ (fresh_menu st <= fresh_menu st')%nat.
Proof. intros Hm Ho E. destruct (block_open _ _ _ _ _ _ Hm Ho E) as [O ?]. split; [done|lia]. Qed.
Lemma adds_stmt m a again rest g1 g p r r' : adds a -> alike g g1 -> open_in (pst g) p -> sim m a g1 (entered_at g1 r) ->
  (forall g2, open_in (pst g2) p -> ready g2 r -> sim again rest g2 (passed g2 r')) -> sim (m;; again) (a;; rest) g1 (passed g r').
Proof.
  intros Ha L Ho Hm Hr. destruct L as [Lp Ll]. eapply (sim_post _ _ _ (passed g1 r')); [intros g' H; by eapply (passed_alike g g1)|].
  eapply then_rest; [eapply sim_post; [apply entered_passed|exact Hm]| |exact Hr]. intros st' E. eapply adds_then; [done| |exact E]. by rewrite Lp.
Qed.
Lemma block_stmt entry stl fin head body again rest g1 g p id r r' st ek :
  adds head -> alike g g1 -> open_in (pst g) p -> fin = block_end st ek ->
  command_ok id = true -> id_token id = ek -> is_end ek = true ->
  sim entry (head;; menu_add_menu) g1 (entered_at g1 (text_of (stmt_items body) +:+ line_text id [] +:+ r)) ->
  (forall g1 q, open_in (pst g1) q -> ready g1 (text_of (stmt_items body) +:+ line_text id [] +:+ r) ->
     sim stl (run_stmts getenv body) g1 (passed g1 (line_text id [] +:+ r))) ->
  (forall g2, open_in (pst g2) p -> ready g2 r -> sim again rest g2 (passed g2 r')) ->
  sim (entry;; stl;; fin;; again) (block_actions getenv head body;; rest) g1 (passed g r').
Proof.
  intros Ha L Ho -> Hid Hk He Hen Hb Hr. destruct L as [Lp Ll]. eapply (sim_post _ _ _ (passed g1 r')); [intros g' H; by eapply (passed_alike g g1)|].
  eapply (sim_ext _ ((entry;; (stl;; block_end st ek));; again)); [|reflexivity|].
  { unfold mbind, EM_bind. repeat case_match; congruence. }
  eapply then_rest; [eapply (block_sim _ _ _ _ _ p id); try done; by rewrite Lp| |exact Hr].
  intros st' E. eapply block_then; [done| |exact E]. by rewrite Lp.
Qed.

Lemma no_stmts lv n g r : (2 <= n)%nat -> ready g r -> ends lv r -> sim (stmt_list getenv fopen n lv) (mret tt) g (passed g r).
Proof.
  intros Hn Hr He. destruct n as [|[|n]]; [lia..|]. cbn [stmt_list]. destruct (decide (lv = Top)) as [->|Hl].
  - cbn [ends] in He. subst r. destruct (eof_peek g Hr) as [(g1 & E1 & L1 & F1)|(g1 & E1 & L1 & F1)].
    + eapply (sim_from _ _ _ _ _ g1); [exact E1|apply L1|]. cbn iota. unfold skip at 1.
      eapply (sim_from _ _ _ _ tt (set_ahead None g1)); [done|done|].
      destruct (finished_peek _ F1) as (g2 & E2 & L2 & F2).
      eapply (sim_from _ _ _ _ _ g2); [exact E2|apply L2|]. cbn iota. apply sim_ret. split; [by right|].
      intros m _. destruct L1, L2. cbn in *. congruence.
    + eapply (sim_from _ _ _ _ _ g1); [exact E1|apply L1|]. cbn iota. apply sim_ret. split; [by right|]. intros m _. destruct L1. congruence.
  - assert (He' : exists id r', r = line_text id [] +:+ r' /\ command_ok id = true /\ is_end (id_token id) = true) by by destruct lv.
    destruct He' as (id & r' & -> & Hid & Hk). destruct (line_peek g id [] r' Hr Hid eq_refl) as (g1 & k & E1 & L1 & R1 & _).
    eapply (sim_from _ _ _ _ _ g1); [exact E1|apply L1|]. cbn iota.
    apply bool_decide_eq_true in Hk. rewrite !elem_of_cons, elem_of_nil in Hk.
    destruct_or?; try done; rewrite Hk; rewrite bool_decide_eq_false_2 by done; apply sim_ret;
      (split; [exact R1|]); intros m _; destruct L1; congruence.
Qed.

(** Where the texts of the parts are. *)
Ltac split_items := repeat match goal with
  | H : context [forallb item_ok (_ :: _)] |- _ => cbn [forallb] in H
  | H : context [forallb item_ok (_ ++ _)] |- _ => rewrite forallb_app in H
  | H : (_ && _)%bool = true |- _ => apply andb_true_iff in H as [? ?]
  | H : context [item_ok (Line _ _)] |- _ => cbn [item_ok] in H
  end.
Ltac keyed := cbv beta iota; match goal with
  | |- context [id_token (keyword_of ?s)] => let t := eval vm_compute in (id_token (keyword_of s)) in
      change (id_token (keyword_of s)) with t
  end; cbv iota.
Ltac costs := rewrite ?cost_cons, ?cost_app, ?cost_cons in *; cbn [icost length] in *; rewrite ?length_app in *; lia.

Lemma stmt_list_sim ss : forall n lv g r p, open_in (pst g) p -> ready g (text_of (stmt_items ss) +:+ r) -> ends lv r ->
  forallb item_ok (stmt_items ss) = true -> nested_ok (bool_decide (lv = InChoice)) ss = true ->
  (cost (stmt_items ss) + 2 <= n)%nat -> sim (stmt_list getenv fopen n lv) (run_stmts getenv ss) g (passed g r).
Proof.
  induction ss as [|mc w opts rest IH|text deps rest IH|w opts body IHb rest IH|text vis deps body IHb rest IH|cond body IHb rest IH];
    intros n lv g r p Ho Hr He Hok Hne Hn.
  1: { by apply no_stmts. }
  all: destruct n as [|n]; [cbn in Hn; lia|]; cbn [stmt_items nested_ok] in *; split_items;
    rewrite text_of_cons, ?text_of_app, ?text_of_cons in Hr; cbn [item_text] in Hr; rewrite <- ?app_assoc_s in Hr;
    cbn [stmt_list].
  - eapply sim_ext; [reflexivity|apply run_config|].
    eapply (key_step _ _ _ _ _ (config_stmt getenv n mc;; stmt_list getenv fopen n lv)); [|exact Hr|done|done|]; [destruct mc; by keyed|]. intros g1 k L A1 N1 T1.
    eapply adds_stmt; [apply config_adds|exact L|exact Ho| |].
    + apply (config_stmt_sim n mc w opts g1 k (text_of (stmt_items rest) +:+ r)); try done; [by eapply items_headed|costs].
    + intros g2 O2 R2. apply (IH n lv g2 r p); [done..|costs].
  - eapply sim_ext; [reflexivity|apply run_comment|].
    eapply key_step; [|exact Hr|done|done|]; [keyed; reflexivity|]. intros g1 k L A1 N1 T1.
    eapply adds_stmt; [apply comment_adds|exact L|exact Ho| |].
    + apply (comment_stmt_sim n text deps g1 k (text_of (stmt_items rest) +:+ r)); try done; [by eapply items_headed|costs].
    + intros g2 O2 R2. apply (IH n lv g2 r p); [done..|costs].
  - eapply sim_ext; [reflexivity|apply run_choice|].
    assert (Hl : bool_decide (lv = InChoice) = false) by (by destruct (bool_decide (lv = InChoice))).
    assert (E : ends InChoice (line_text (keyword_of "endchoice") [] +:+ text_of (stmt_items rest) +:+ r)).
    { eexists _, _. split; [reflexivity|by split]. }
    eapply key_step; [|exact Hr|done|done|]; [keyed; rewrite Hl; reflexivity|]. intros g1 k L A1 N1 T1.
    eapply (block_stmt _ _ _ _ _ _ _ _ _ _ (keyword_of "endchoice")); [apply choice_adds|exact L|exact Ho|reflexivity|done|done|done| | |].
    + apply (choice_entry_sim n w opts g1 k); try done; [by eapply (items_headed body InChoice)|costs].
    + intros g2 q O2 R2. eapply (IHb n InChoice g2); [done..|costs].
    + intros g2 O2 R2. apply (IH n lv g2 r p); [done..|costs].
  - eapply sim_ext; [reflexivity|apply run_menu|].
    assert (Hl : bool_decide (lv = InChoice) = false) by (by destruct (bool_decide (lv = InChoice))).
    assert (E : ends InBlock (line_text (keyword_of "endmenu") [] +:+ text_of (stmt_items rest) +:+ r)).
    { eexists _, _. split; [reflexivity|by split]. }
    eapply key_step; [|exact Hr|done|done|]; [keyed; rewrite Hl; reflexivity|]. intros g1 k L A1 N1 T1.
    eapply (block_stmt _ _ _ _ _ _ _ _ _ _ (keyword_of "endmenu")); [apply menu_adds|exact L|exact Ho|reflexivity|done|done|done| | |].
    + apply (menu_entry_sim n text vis deps g1 k); try done; [by eapply (items_headed body InBlock)|costs].
    + intros g2 q O2 R2. eapply (IHb n InBlock g2); [done..|costs].
    + intros g2 O2 R2. apply (IH n lv g2 r p); [done..|costs].
  - eapply sim_ext; [reflexivity|apply run_if|].
    assert (E : ends InBlock (line_text (keyword_of "endif") [] +:+ text_of (stmt_items rest) +:+ r)).
    { eexists _, _. split; [reflexivity|by split]. }
    eapply key_step; [|exact Hr|done|done|]; [keyed; reflexivity|]. intros g1 k L A1 N1 T1.
    eapply (block_stmt _ _ _ _ _ _ _ _ _ _ (keyword_of "endif")); [apply if_adds|exact L|exact Ho|reflexivity|done|done|done| | |].
    + apply (if_entry_sim n cond g1 k); try done; [by eapply (items_lined body InBlock)|costs].
    + intros g2 q O2 R2. eapply (IHb n InBlock g2); [done..|costs].
    + intros g2 O2 R2. apply (IH n lv g2 r p); [done..|costs].
Qed.

(** ** The file *)

(** Empty lines before a statement, or up to the end of the file, are skipped. *)
Lemma nls_headed n g r : (2 <= n)%nat -> ready g r -> headed r ->
  exists g1, p_nls n g = Ok (Returned tt) g1 /\ alike g g1 /\ ready g1 r /\ (r = "" -> finished g1).
Proof.
  intros Hn Hr Hh. destruct n as [|[|n]]; [lia..|]. cbn [p_nls]. destruct Hh as [->|(id & ts & r' & -> & Hid & Hts & Hs)].
  - destruct (eof_peek g Hr) as [(g1 & E1 & L1 & F1)|(g1 & E1 & L1 & F1)]; rewrite (erun _ _ _ _ _ E1).
    + rewrite (erun skip _ g1 tt (set_ahead None g1)) by done. destruct (finished_peek _ F1) as (g2 & E2 & L2 & F2).
      rewrite (erun _ _ _ _ _ E2). exists g2. split; [done|]. split; [destruct L1, L2; split; cbn in *; congruence|]. split; [by right|done].
    + exists g1. split; [done|]. split; [done|]. split; [by right|done].
  - destruct (line_peek g id ts r' Hr Hid Hts) as (g1 & k & E1 & L1 & R1 & _). rewrite (erun _ _ _ _ _ E1).
    exists g1. split; [done|]. split; [done|]. split; [done|]. destruct (command_chars id Hid) as (c & w & En & _).
    unfold line_text. by rewrite En.
Qed.
Lemma headed_peek g r : ready g r -> headed r -> (r = "" -> finished g) ->
  exists g1 t, peek g = Ok (Returned t) g1 /\ alike g g1 /\ ready g1 r /\ is_key T_MAINMENU t = false.
Proof.
  intros Hr [->|(id & ts & r' & -> & Hid & Hts & Hs)] Hf.
  - destruct (finished_peek g (Hf eq_refl)) as (g1 & E1 & L1 & F1). exists g1, T_END. split; [done|]. split; [done|]. split; [by right|done].
  - destruct (line_peek g id ts r' Hr Hid Hts) as (g1 & k & E1 & L1 & R1 & _). exists g1, (TKey id).
    do 3 (split; [done|]). cbn. apply bool_decide_eq_false. intros E. unfold statement in Hs. by rewrite E in Hs.
Qed.

(** [mainmenu], and the empty lines behind it. *)
Lemma title_sim n g t r : (2 <= n)%nat -> ready g (line_text (keyword_of "mainmenu") [T_WORD_QUOTE t] +:+ r) -> headed r ->
  param_ok (T_WORD_QUOTE t) = true ->
  exists g1, peek g = Ok (Returned (TKey (keyword_of "mainmenu"))) g1 /\ alike g g1 /\
    ready g1 (line_text (keyword_of "mainmenu") [T_WORD_QUOTE t] +:+ r) /\
    sim (skip;; (p ← p_prompt; p_nl n;; act (add_title (Some p)))) (add_title (Some t)) g1 (fun g' => ready g' r).
Proof.
  intros Hn Hr Hh Ht. destruct (line_peek g _ [T_WORD_QUOTE t] r Hr eq_refl) as (g1 & k & E1 & L1 & R1 & _ & A1 & N1 & T1).
  { cbn [forallb]. by rewrite Ht. }
  exists g1. split; [done|]. split; [done|]. split; [done|]. eapply (sim_from _ _ _ _ tt (set_ahead None g1)); [done|done|].
  eapply (sim_any _ [T_WORD_QUOTE t] _ _ _ _ [T_EOL]); [apply prompt_reads|done|exact A1|]. intros g2 A2 L2.
  eapply (sim_ext _ (p_eol;; (p_nls n;; act (add_title (Some t))))); [|reflexivity|].
  { unfold p_nl, mbind, EM_bind. repeat case_match; congruence. }
  eapply sim_eol; [exact A2|]. intros g3 A3 L3.
  destruct (nls_headed n g3 r Hn ltac:(by eapply ready_at) Hh) as (g4 & E4 & L4 & R4 & _).
  eapply (sim_from _ _ _ _ tt g4); [exact E4|apply L4|]. apply sim_act. intros p _. by apply (ready_alike g4).
Qed.

(** The parser does what the statements of the file do. *)
Lemma zconfparse_sim n g t ss : open_in (pst g) rootmenu ->
  (forall p, add_title t (pst g) = Ok tt p -> open_in p rootmenu) ->
  ready g (file_text t ss) -> printable t ss = true -> (cost (title_items t ++ stmt_items ss) + 2 <= n)%nat ->
  sim (zconfparse getenv fopen n) (add_title t;; run_stmts getenv ss) g (fun g' => said (scn g') = said b).
Proof.
  intros Ho Ht Hr [Hok Hne]%andb_true_iff Hn. unfold file_text in Hr. rewrite text_of_app, <- (app_nil_s (text_of (stmt_items ss))) in Hr.
  rewrite forallb_app in Hok. apply andb_true_iff in Hok as [Hok1 Hok]. rewrite cost_app in Hn.
  pose proof (items_headed ss Top "" eq_refl Hok) as Hh. unfold zconfparse.
  assert (Hs : forall g1, open_in (pst g1) rootmenu -> ready g1 (text_of (stmt_items ss) +:+ "") ->
    sim (stmt_list getenv fopen n Top) (run_stmts getenv ss) g1 (fun g' => said (scn g') = said b)).
  { intros g1 O1 R1. eapply sim_post; [|apply (stmt_list_sim ss n Top g1 "" rootmenu); [done..|lia]].
    intros g' [R' _]. by apply ready_said. }
  destruct t as [t|]; cbn [title_items app text_of foldr item_text] in Hr.
  - assert (Hp : param_ok (T_WORD_QUOTE t) = true).
    { cbn [title_items forallb item_ok] in Hok1. apply andb_true_iff in Hok1 as [[_ Hp]%andb_true_iff _].
      cbn [forallb] in Hp. by apply andb_true_iff in Hp as [? _]. }
    rewrite app_nil_s in Hr. destruct (title_sim n g t _ ltac:(lia) Hr Hh Hp) as (g1 & E1 & L1 & R1 & _).
    destruct (title_sim n g1 t _ ltac:(lia) R1 Hh Hp) as (g2 & E2 & L2 & _ & S2).
    eapply (sim_from _ _ _ _ tt g1); [|apply L1|].
    { destruct n as [|n]; [lia|]. cbn [p_nls]. by rewrite (erun _ _ _ _ _ E1). }
    eapply sim_from; [exact E2|apply L2|]. change (is_key T_MAINMENU _) with true. cbn iota.
    eapply sim_bind; [exact S2|]. intros g3 R3 Ez. apply Hs; [|done]. apply Ht. destruct L1 as [<- _], L2 as [<- _]. exact Ez.
  - destruct (nls_headed n g _ ltac:(lia) Hr Hh) as (g1 & E1 & L1 & R1 & F1).
    destruct (headed_peek g1 _ R1 Hh F1) as (g2 & t & E2 & L2 & R2 & Hk).
    eapply (sim_from _ _ _ _ tt g1); [exact E1|apply L1|]. eapply sim_from; [exact E2|apply L2|]. rewrite Hk.
    eapply (sim_bind (mret tt) _ (mret tt)); [by apply (sim_ret _ (fun g' => g' = g2))|]. intros ? -> _. apply Hs; [|done].
    destruct L1 as [E _], L2 as [E' _]. by rewrite E', E.
Qed.
End ReadBack.

(** ** The whole file *)

Lemma EM_assoc {S A B C} (m : EM S A) (f : A -> EM S B) (h : B -> EM S C) s : ((m ≫= f) ≫= h) s = (m ≫= (fun a => f a ≫= h)) s.
Proof. unfold mbind, EM_bind. repeat case_match; congruence. Qed.
Lemma EM_ext {S A B} (m : EM S A) (f h : A -> EM S B) s : (forall a s', f a s' = h a s') -> (m ≫= f) s = (m ≫= h) s.
Proof. intros H. unfold mbind, EM_bind. repeat case_match; congruence. Qed.
Lemma EM_act {A B C} (z : ZM A) (f : A -> ZM B) (h : B -> GM C) g : ((act (z ≫= f)) ≫= h) g = (a ← act z; b ← act (f a); h b) g.
Proof. unfold act, mbind, EM_bind, PM_bind. destruct (z (pst g)) as [a p| |]; [|done..]. cbn. by destruct (f a p). Qed.

Section File.
Context (getenv fopen : string -> option string).

Lemma file_lookup_plain nm st : no_char "$" nm = true -> file_lookup [] nm st = Ok (0%nat, [nm]) st.
Proof.
  intros H. unfold file_lookup, sym_expand_string_value. cbn [expand_loop]. by rewrite strchr_none.
Qed.
(** The scanner at the beginning of the file. *)
Definition opened_file (nm t : string) : scanner :=
  set_lineno 0 1 (set_current (Some []) (Some 0%nat) (set_lex (stay t (lex no_scanner)) (set_names [nm] no_scanner))).
Lemma initscan_opens nm t g : fopen nm = Some t -> no_char "$" nm = true -> scn g = no_scanner ->
  zconf_initscan getenv fopen nm g = Ok (Returned tt) (set_scn (opened_file nm t) g).
Proof.
  intros Hf Hn Hs. assert (Ho : open_file getenv fopen nm g = Ok (Returned (Some t)) g).
  { unfold open_file, zconf_fopen. by rewrite Hf. }
  unfold zconf_initscan. rewrite (erun _ _ _ _ _ Ho).
  assert (Hl : lookup_file nm g = Ok (Returned 0%nat) (set_scn (set_names [nm] no_scanner) g)).
  { unfold lookup_file. rewrite erun_get, Hs. unfold mbind, EM_bind at 1, act, on_heap. cbn [names no_scanner].
    rewrite file_lookup_plain by done. unfold scan, pmodify. cbn. rewrite Hs. by destruct g as [[] ? ? ?]. }
  rewrite (erun _ _ _ _ _ Hl). reflexivity.
Qed.


Lemma begun_open st : begun st -> open_in st rootmenu.
Proof. intros [Ho _ _]. by eexists. Qed.
(** From the start of the menus to the last statement. *)
Lemma parser_sim release n nm t ss k : unread k -> printable t ss = true -> (cost (title_items t ++ stmt_items ss) + 2 <= n)%nat ->
  sim (act (begin_menus release);; zconfparse getenv fopen n) (begin_menus release;; (add_title t;; run_stmts getenv ss))
    (set_scn (opened_file nm (file_text t ss)) (unparsed k)) (fun g => said (scn g) = "").
Proof.
  intros Hk Hp Hn. set (sc0 := opened_file nm (file_text t ss)).
  eapply sim_bind; [apply (sim_act _ _ (fun g => begun (pst g) /\ scn g = sc0 /\ ahead g = None))|].
  { intros p E. split; [exact (wp_Ok _ _ _ _ _ (begin_menus_begun release k Hk) E)|done]. }
  intros g (Hb & Hs & Ha) _. apply (zconfparse_sim getenv fopen sc0 0 eq_refl eq_refl eq_refl); [by apply begun_open| |..|done|done].
  - intros p E. apply begun_open. exact (wp_Ok _ _ _ _ _ (add_title_begun t (pst g) Hb) E).
  - left. exists sc0. split; [done|]. split; [done|]. by left.
Qed.

Lemma file_reads release n nm t ss k : unread k -> fopen nm = Some (file_text t ss) -> no_char "$" nm = true ->
  printable t ss = true -> (cost (title_items t ++ stmt_items ss) + 2 <= n)%nat ->
  match conf_parse getenv release t ss (start k) with
  | Ok ok p => exists g, conf_parse_file getenv fopen release n nm (unparsed k) = Ok (if ok then Returned tt else Exited 1) g /\
      pst g = p /\ said (scn g) = ""
  | Fault => conf_parse_file getenv fopen release n nm (unparsed k) = Fault
  | NoFuel => conf_parse_file getenv fopen release n nm (unparsed k) = NoFuel
  end.
Proof.
  intros Hk Hf Hn Hp Hc. unfold conf_parse_file. rewrite (erun _ _ _ _ _ (initscan_opens nm _ (unparsed k) Hf Hn eq_refl)).
  pose proof (parser_sim release n nm t ss k Hk Hp Hc) as Hs. unfold sim in Hs.
  change (pst (set_scn _ (unparsed k))) with (start k) in Hs. set (g0 := set_scn _ _) in *.
  set (z := begin_menus release;; (add_title t;; run_stmts getenv ss)) in *.
  set (m := act (begin_menus release);; zconfparse getenv fopen n) in *.
  assert (Ez : conf_parse getenv release t ss (start k) = (z;; (ok ← finish_menus; check_menus ok)) (start k)).
  { unfold conf_parse, read_menus, z. group. }
  assert (Em : (act (begin_menus release);; zconfparse getenv fopen n;; ok ← act finish_menus; ok ← act (check_menus ok);
    if ok : bool then mret tt else eexit 1) g0 = (m;; (ok ← act (ok ← finish_menus; check_menus ok); if ok : bool then mret tt else eexit 1)) g0).
  { unfold m. rewrite EM_assoc. apply EM_ext. intros _ g1. apply EM_ext. intros _ g2. by rewrite (EM_act _ _ _ g2). }
  rewrite Ez, Em. unfold mbind at 1, PM_bind at 1. destruct (z (start k)) as [[] p| |].
  - destruct Hs as (g & E & <- & Hsaid). rewrite (erun _ _ _ _ _ E). set (zb := (ok ← finish_menus; check_menus ok) : ZM bool).
    change (match zb (pst g) with
      | Ok ok p => exists g', (act zb ≫= (fun ok : bool => if ok then mret tt else eexit 1)) g = Ok (if ok then Returned tt else Exited 1) g' /\ pst g' = p /\ said (scn g') = ""
      | Fault => (act zb ≫= (fun ok : bool => if ok then mret tt else eexit 1)) g = Fault
      | NoFuel => (act zb ≫= (fun ok : bool => if ok then mret tt else eexit 1)) g = NoFuel
      end). clearbody zb. unfold act, mbind, EM_bind. destruct (zb (pst g)) as [ok p| |]; [|done..]. exists (set_pst p g). by destruct ok.
  - unfold mbind at 1, EM_bind at 1. by rewrite Hs.
  - unfold mbind at 1, EM_bind at 1. by rewrite Hs.
Qed.
(** C1. A Kconfig file is read as what it says: whatever the statements, when they are
    written down as text - every keyword, option, expression, help text and block in
    the syntax of zconf.y - and the file is read from its bytes by the scanner and the
    parser, then the menus, the symbols, the errors and the exit of [conf_parse] are
    exactly those of the statements, and nothing is
    printed.  In particular precedence and associativity of
    the operators, the quoting of strings, the columns of help texts and the ends of
    nested blocks are understood as they were meant. *)
Theorem conf_parse_file_reads release n nm t ss k : unread k -> fopen nm = Some (file_text t ss) -> no_char "$" nm = true ->
  printable t ss = true -> (cost (title_items t ++ stmt_items ss) + 2 <= n)%nat ->
  match conf_parse getenv release t ss (start k) with
  | Ok ok p => exists g, conf_parse_file getenv fopen release n nm (unparsed k) = Ok (if ok then Returned tt else Exited 1) g /\
      pst g = p /\ said (scn g) = ""
  | Fault => conf_parse_file getenv fopen release n nm (unparsed k) = Fault
  | NoFuel => conf_parse_file getenv fopen release n nm (unparsed k) = NoFuel
  end.
Proof. apply file_reads. Qed.
End File.
