(* ===== verification/KMenuDemo.v ===== *)
(** A Kconfig file read, finalised and walked. *)
From S2P Require Import Prelude CText KScan KText KGrammar KReadBack KExpr KSym KSymFacts KDemo KConf KConfFacts KMenu KParse KMenuFacts KParseFacts.
Local Open Scope string_scope.
Local Open Scope nat_scope.

(** The program before it reads anything. *)
Definition blank : kstate := {|
  syms := list_to_map [(symbol_yes, const_symbol "y" symbol_yes Tyes); (symbol_mod, const_symbol "m" symbol_mod Tmod);
    (symbol_no, const_symbol "n" symbol_no Tno)]; symbol_hash := ∅; modules_sym := None; modules_val := Tno;
  menus := {[ rootmenu := new_menu None None ]};
  sym_change_count := 0; next_sym := 3; next_loc := 0; check_top := []; sym_env_list := []; log := [];
  conf_warnings := 0; conf_unsaved := 0 |}.
Definition sym (w : string) : kexpr := KSymbol (Word w).
(** A submenu by dependencies (B below A), an [if] block and a choice. *)
Definition file : stmts :=
  SConfig true "A" [OType S_BOOLEAN (Some ("a", None))]
  (SConfig false "B" [OType S_BOOLEAN (Some ("b", None)); ODepends (sym "A")]
  (SIf (sym "A") (SConfig false "C" [OType S_STRING (Some ("c", None)); ODefault S_UNKNOWN (KSymbol (Quoted "x")) None] SNil)
  (SChoice None [CPrompt "pick" None]
    (SConfig false "D" [OType S_BOOLEAN (Some ("d", None)); OSelect "B" (Some (sym "A"))] SNil)
  SNil))).
Definition nothing (_ : string) : option string := None.
Definition read := read_menus nothing "2013.05" None file (start blank).
Definition parsed := conf_parse nothing "2013.05" None file (start blank).

(** The buckets in use. *)
Definition buckets : list Z := [0; 1426; 2192; 3066; 3940; 6406; 8954; 9132]%Z.

(** B has become an entry of the menu of A, and so has C, out of its block; the
    choice has its value.  No dependency is recursive. *)
Lemma read_result :
  match read with
  | Ok true st =>
      Some ((fun m => links_of <$> menus (heap st) !! m) <$> seq 0 7, log (heap st),
        bool_decide (dom (symbol_hash (heap st)) = list_to_set buckets) &&
        match pforeach check_one (h ← buckets; default [] (symbol_hash (heap st) !! h)) st with
        | Ok tt st' => (zconfnerrs st' =? 0)%Z
        | _ => false
        end)
  | _ => None
  end = Some (Some <$> [
    mkLinks None (Some 1) None;
    mkLinks (Some 0) (Some 2) (Some 5); mkLinks (Some 1) None (Some 3); mkLinks (Some 1) None (Some 4);
    mkLinks (Some 1) None None;
    mkLinks (Some 0) (Some 6) None; mkLinks (Some 5) None None], [], true).
Proof. vm_compute. reflexivity. Qed.
Lemma read_ok : exists st, read = Ok true st /\ dom (symbol_hash (heap st)) = list_to_set buckets /\
  exists st', pforeach check_one (h ← buckets; default [] (symbol_hash (heap st) !! h)) st = Ok tt st' /\ zconfnerrs st' = 0%Z.
Proof.
  pose proof read_result as H. destruct read as [[] st| |]; [|discriminate H..].
  apply (f_equal (fmap snd)) in H. injection H as [Hd%bool_decide_eq_true H]%andb_true_iff.
  exists st. split; [reflexivity|]. split; [exact Hd|].
  destruct (pforeach _ _ _) as [[] st'| |]; [|discriminate H..]. exists st'. split; [reflexivity|]. by apply Z.eqb_eq.
Qed.
(** The state behind [conf_parse], the check of the dependencies made for the symbols of
    the used buckets. *)
Definition final : option pstate :=
  match read with
  | Ok true st =>
      match pforeach check_one (h ← buckets; default [] (symbol_hash (heap st) !! h)) st with
      | Ok tt st' => Some (set_heap (upd_count (fun _ => 1%Z) (heap st')) st')
      | _ => None
      end
  | _ => None
  end.
Lemma parsed_final : exists p, final = Some p /\ parsed = Ok true p.
Proof.
  destruct read_ok as (st & E & Hd & st' & Ec & En). unfold final. rewrite E, Ec. eexists. split; [reflexivity|].
  apply all_symbols_sparse in Hd.
  - change parsed with (conf_parse nothing "2013.05" None file (start blank)). unfold conf_parse, check_menus, mbind, PM_bind at 1.
    change (read_menus nothing "2013.05" None file (start blank)) with read. rewrite E.
    unfold PM_bind at 1, check_all_deps, pget at 1, mbind, PM_bind at 1. rewrite Hd, Ec.
    unfold PM_bind, pget. rewrite En. reflexivity.
  - repeat constructor; lia.
  - repeat constructor; unfold SYMBOL_HASHSIZE; lia.
Qed.
Lemma parsed_ok : exists st', parsed = Ok true st'.
Proof. destruct parsed_final as (p & _ & E). eauto. Qed.

Lemma read_menus_order_witness :
  exists st' f, read = Ok true st' /\ menu_tree (heap st') f /\ preorder f = seq 1 6.
Proof.
  assert (H : match read with
    | Ok ok st' => ok = true -> exists f, menu_tree (heap st') f /\ preorder f = seq 1 (entries file)
    | Fault => True
    | NoFuel => False
    end) by exact (read_menus_order nothing "2013.05" None file blank eq_refl).
  destruct read_ok as (st' & E & _). rewrite E in H. destruct (H eq_refl) as (f & T & P). exists st', f. exact (conj E (conj T P)).
Defined.

Definition digit (m : menuref) : string := String (Ascii.ascii_of_nat (48 + m)) EmptyString.
Lemma conf_parse_walk_witness :
  exists st', parsed = Ok true st' /\ walk_menus (fun m => mret (digit m)) (heap st') = Ok "123456" (heap st').
Proof.
  destruct parsed_ok as (st' & P). exists st'. split; [exact P|].
  apply (conf_parse_walk nothing "2013.05" None file blank st' _ digit eq_refl P). reflexivity.
Defined.

(** ** The text of the file *)

Definition disk (n : string) : option string := if String.eqb n "Config.in" then Some (file_text None file) else None.
Lemma conf_parse_file_reads_witness : exists g,
  conf_parse_file nothing disk "2013.05" 200 "Config.in" (unparsed blank) = Ok (Returned tt) g /\ final = Some (pst g) /\ said (scn g) = "".
Proof.
  destruct parsed_final as (p & Ef & Ep).
  assert (H : match conf_parse nothing "2013.05" None file (start blank) with
    | Ok ok p => exists g, conf_parse_file nothing disk "2013.05" 200 "Config.in" (unparsed blank) = Ok (if ok then Returned tt else Exited 1) g /\
        pst g = p /\ said (scn g) = ""
    | Fault => conf_parse_file nothing disk "2013.05" 200 "Config.in" (unparsed blank) = Fault
    | NoFuel => conf_parse_file nothing disk "2013.05" 200 "Config.in" (unparsed blank) = NoFuel
    end).
  { apply (conf_parse_file_reads nothing disk "2013.05" 200 "Config.in" None file blank); [reflexivity..|vm_compute; reflexivity|].
    apply Nat.leb_le. vm_compute. reflexivity. }
  change parsed with (conf_parse nothing "2013.05" None file (start blank)) in Ep. rewrite Ep in H.
  destruct H as (g & E & <- & Hs). exists g. exact (conj E (conj Ef Hs)).
Defined.

(** The text is what one would write. *)
Example demo_text : file_text None (SConfig false "A" [OType S_BOOLEAN (Some ("a", Some (KOr (KNot (sym "B")) (KAnd (sym "C") (sym "D")))));
    OHelp ("One" +:+ NL +:+ NL +:+ "  two")] (SIf (KAnd (KOr (sym "A") (sym "B")) (sym "C")) SNil SNil)) =
  "config A" +:+ NL +:+ "bool " +:+ quoted "a" +:+ " if ! B || C && D" +:+ NL +:+ "help" +:+ NL +:+ "  One" +:+ NL +:+ NL +:+ "    two" +:+ NL +:+ "#" +:+ NL
  +:+ "if ( A || B ) && C" +:+ NL +:+ "endif" +:+ NL.
Proof. reflexivity. Qed.

(** Files that are read otherwise than they look. *)
Definition outcome_of (main sub : string) : option (option Z * string * list string * Z) :=
  let fopen nm := if String.eqb nm "main" then Some main else if String.eqb nm "sub" then Some sub else None in
  match (zconf_initscan nothing fopen "main";; act (begin_menus "2013.05");; zconfparse nothing fopen 50) (unparsed blank) with
  | Ok r g =>
      Some (match r with Exited n => Some n | Returned _ => None end, said (scn g),
            omap (fun m => e ← menus (heap (pst g)) !! m; s ← m_sym e; y ← syms (heap (pst g)) !! s; name y) (seq 0 (fresh_menu (pst g))),
            zconfnerrs (pst g))
  | _ => None
  end%Z.
Definition lines (l : list string) : string := foldr (fun s acc => s +:+ NL +:+ acc) "" l.
Definition src (nm : string) : string := "source " +:+ str1 quote +:+ nm +:+ str1 quote.

(** Behind a file that ends in blanks without a newline, the next line of the file that
    includes it is not seen as a comment. *)
Example commented_out_option :
  outcome_of (lines [src "sub"; "# config NOT_THIS"; "bool"]) (lines ["config A"; " bool"] +:+ "  ") = Some (None, "", ["A"; "NOT_THIS"], 0%Z) /\
  outcome_of (lines [src "sub"; "# config NOT_THIS"]) (lines ["config A"; " bool"]) = Some (None, "", ["A"], 0%Z).
Proof. split; vm_compute; reflexivity. Qed.
(** A block whose end is the end of its file is refused without a last newline. *)
Example unterminated_end :
  outcome_of (lines ["menu M"; "config A"; "bool"] +:+ "endmenu") "" = Some (None, "", ["A"], 2%Z) /\
  outcome_of (lines ["menu M"; "config A"; "bool"; "endmenu"]) "" = Some (None, "", ["A"], 0%Z).
Proof. split; vm_compute; reflexivity. Qed.
