(* ===== verification/KVisible.v ===== *)
(** Whether an entry is visible can always be found out: over the entries of a menu
    tree [menu_is_visible] ends, and it leaves the tree as it is. *)
From S2P Require Import Prelude CText KExpr KSym KSymFacts KConf KConfFacts KSymKeep KMenu KParse KMenuFacts.
Local Open Scope list_scope.

(** The loop of [menu_is_visible] over the entries of a list. *)
Definition some_visible (n : nat) (s : symref) :=
  fix children (k : nat) (c : option menuref) : KM bool :=
    match k, c with
    | _, None => mret false
    | O, _ => pnofuel
    | S k, Some c =>
        ok ← menu_is_visible n c;
        if ok : bool then or_flags s SYMBOL_DEF_USER;; mret true
        else e ← get_menu c; children k (m_next e)
    end.

Lemma settled_ret {A} (a : A) : settled (mret a).
Proof. apply settled_aside. quietly. Qed.
Lemma settled_get_menu m : settled (get_menu m).
Proof. apply settled_aside. unfold get_menu. quietly. Qed.
Lemma settled_calc_value s : settled (sym_calc_value s).
Proof. intros k. apply wp_calc_value. Qed.
Lemma settled_get_sym s : settled (get_sym s).
Proof. apply settled_aside. unfold get_sym. quietly. Qed.
Create HintDb settled discriminated.
#[local] Hint Resolve settled_ret settled_calc_value settled_get_sym settled_string_value : settled.
Lemma settled_calc_expr e : settled (calc_expr sym_calc_value e).
Proof.
  induction e; cbn [calc_expr]; repeat (apply settled_bind; [solve [auto with settled]|intros ?]);
    auto with settled.
Qed.
Lemma settled_expr_value e : settled (expr_calc_value e).
Proof. destruct e; [apply settled_calc_expr|apply settled_ret]. Qed.
Lemma settled_tame {A} (m : KM A) : tame m -> (forall k, wp m (fun _ _ => True) k) -> settled m.
Proof. intros Ht Hm k. by apply wp_tame. Qed.
Lemma settled_modify f : (forall k, pointers (f k) = pointers k) -> settled (pmodify f).
Proof. intros Hf k. by apply wp_modify. Qed.
Lemma settled_lift {A} (o : option A) : settled (plift o).
Proof. intros k. apply wp_lift. done. Qed.
Lemma settled_mod_sym s f : settled (mod_sym s f).
Proof. apply settled_tame; [apply tame_mod_sym|]. intros k. by apply wp_mod_sym. Qed.
Lemma settled_prompt_prop p : settled (prompt_prop p).
Proof. destruct p; [|apply settled_ret]. apply settled_bind; [apply settled_get_sym|intros]. apply settled_lift. Qed.
Lemma settled_prompt_visible m y p : settled (prompt_visible m y p).
Proof.
  unfold prompt_visible. destruct y as [s|].
  - apply settled_bind; [apply settled_calc_value|intros _].
    apply settled_bind; [apply settled_prompt_prop|intros q]. apply settled_ret.
  - apply settled_bind; [apply settled_prompt_prop|intros q].
    apply settled_bind; [apply settled_expr_value|intros t].
    apply settled_bind; [|intros _; apply settled_ret].
    destruct p; [apply settled_mod_sym|]. apply settled_modify. intros k. apply stable_own.
Qed.

(** ** The entries of a list *)

Lemma wp_get_menu (Q : menu -> kstate -> Prop) m l k : pointers k !! m = Some l ->
  (forall e, links_of e = l -> Q e k) -> wp (get_menu m) Q k.
Proof.
  intros E H. unfold get_menu. apply wp_bind, wp_get, wp_lift. intros e He. apply H.
  unfold pointers in E. rewrite lookup_fmap, He in E. by injection E.
Qed.
(** [m] ends from every state with the pointers [sk]. *)
Definition ends {A} (sk : gmap menuref links) (m : KM A) : Prop :=
  forall k, pointers k = sk -> wp m (fun _ k' => pointers k' = sk) k.
Lemma ends_bind {A B} sk (m : KM A) (f : A -> KM B) : ends sk m -> (forall a, ends sk (f a)) -> ends sk (m ≫= f).
Proof. intros Hm Hf k Hk. apply wp_bind. eapply wp_mono; [by apply Hm|]. cbn beta. intros a k' Hk'. by apply Hf. Qed.
Lemma ends_settled {A} sk (m : KM A) : settled m -> ends sk m.
Proof. intros Hm k <-. apply Hm. Qed.
Lemma ends_get_menu {B} sk m l (f : menu -> KM B) : sk !! m = Some l -> (forall e, links_of e = l -> ends sk (f e)) ->
  ends sk (get_menu m ≫= f).
Proof. intros E Hf k Hk. apply wp_bind. eapply wp_get_menu; [by rewrite Hk|]. intros e He. by apply Hf. Qed.

(** One entry, given that the loop over its list ends. *)
Lemma visible_step sk n m l : sk !! m = Some l ->
  (forall s, ends sk (some_visible n s n (l_list l))) -> ends sk (menu_is_visible (S n) m).
Proof.
  intros E Hc. cbn [menu_is_visible]. eapply ends_get_menu; [done|]. intros e He.
  destruct (m_prompt e) as [p|]; [|apply ends_settled, settled_ret].
  apply ends_bind; [apply ends_settled; destruct (m_visibility e); [apply settled_expr_value|apply settled_ret]|intros v].
  destruct (is_tri v Tno); [apply ends_settled, settled_ret|].
  apply ends_bind; [apply ends_settled, settled_prompt_visible|intros t].
  destruct (negb _); [apply ends_settled, settled_ret|].
  destruct (m_sym e) as [s|]; [|apply ends_settled, settled_ret].
  apply ends_bind; [apply ends_settled, settled_get_sym|intros y].
  destruct (is_tri _ _); [apply ends_settled, settled_ret|].
  replace (m_list e) with (l_list l) by (by rewrite <- He). exact (Hc s).
Qed.
Lemma visible_forest sk pp s f : forall n k, seg sk pp f None ->
  (length (preorder f) <= n)%nat -> (length (preorder f) <= k)%nat -> ends sk (some_visible n s k (first f)).
Proof.
  revert pp s. induction f as [|m c IHc r IHr]; intros pp s n k Hs Hn Hk.
  - destruct k; apply ends_settled, settled_ret.
  - destruct Hs as (E & Hc & Hr). cbn [preorder length] in Hn, Hk. rewrite length_app in Hn, Hk.
    destruct n as [|n]; [lia|]. destruct k as [|k]; [lia|]. cbn [some_visible first].
    apply ends_bind.
    + eapply visible_step; [exact E|]. intros s'. cbn [l_list]. eapply (IHc (Some m)); [done|lia..].
    + intros [|]; [apply ends_bind; [apply ends_settled, settled_mod_sym|intros; apply ends_settled, settled_ret]|].
      eapply ends_get_menu; [exact E|]. intros e He. replace (m_next e) with (first r) by
        (apply (f_equal l_next) in He; cbn in He; by rewrite first_or_None in He).
      eapply IHr; [done|lia..].
Qed.

(** The list of an entry of a forest. *)
Lemma seg_below sk pp f x m : seg sk pp f x -> m ∈ preorder f ->
  exists p c n, sk !! m = Some (mkLinks p (first c) n) /\ seg sk (Some m) c None /\
                (length (preorder c) < length (preorder f))%nat.
Proof.
  revert pp x. induction f as [|m0 c IHc r IHr]; intros pp x Hs Hm; [by apply elem_of_nil in Hm|].
  destruct Hs as (E & Hc & Hr). cbn in Hm |- *. rewrite length_app.
  apply elem_of_cons in Hm as [->|[Hm|Hm]%elem_of_app].
  - exists pp, c, (first_or r x). split_and!; [done..|lia].
  - destruct (IHc _ _ Hc Hm) as (p & c' & n & ? & ? & ?). exists p, c', n. split_and!; [done..|lia].
  - destruct (IHr _ _ Hr Hm) as (p & c' & n & ? & ? & ?). exists p, c', n. split_and!; [done..|lia].
Qed.

(** The pointers make a tree with the entries [ms], the root first. *)
Definition tree_of (sk : gmap menuref links) (f : forest) : Prop :=
  seg sk None (Entry rootmenu f Leaf) None /\ NoDup (rootmenu :: preorder f).
Lemma menu_tree_of k f : menu_tree k f <-> tree_of (pointers k) f.
Proof.
  unfold menu_tree, tree_of, pointers. rewrite linked_seg. cbn [seg first_or]. rewrite lookup_fmap. split.
  - intros ((root & -> & El & En & Ep) & L & N). split_and!; try done. cbn. unfold links_of. by rewrite El, En, Ep.
  - intros ((E & L & _) & N). split_and!; try done. destruct (menus k !! rootmenu) as [root|]; [|done].
    injection E as Ep El En. by exists root.
Qed.
Lemma visible_menu_ends sk f m : tree_of sk f -> m ∈ rootmenu :: preorder f -> ends sk (visible_menu m).
Proof.
  intros [Hs N] Hm k Hk. unfold visible_menu. apply wp_bind, wp_get.
  assert (Hz : size (menus k) = size sk) by (rewrite <- Hk; unfold pointers; by rewrite map_size_fmap).
  assert (Hl : (length (rootmenu :: preorder f) <= size sk)%nat).
  { pose proof (seg_size _ _ _ _ Hs) as H. cbn [preorder] in H. rewrite app_nil_r in H. by apply H. }
  assert (Hm' : m ∈ preorder (Entry rootmenu f Leaf)) by (cbn; by rewrite app_nil_r).
  destruct (seg_below _ _ _ _ _ Hs Hm') as (p & c & n & E & Hc & Hn).
  cbn [preorder length] in Hn. rewrite app_nil_r in Hn. cbn [length] in Hl. rewrite Hz.
  eapply visible_step; [exact E|  |done]. intros s. cbn [l_list]. apply (visible_forest _ (Some m)); [done|lia..].
Qed.
