(* ===== verification/Conf.v ===== *)
(** The line-oriented front end of the configuration tool
    (src/buildroot/support/kconfig/conf.c): the questions it asks, the answers it
    reads from its standard input, and its modes.

    The state is the heap of KSym with the globals of conf.c and the texts still to be
    read and already written.  [exit] ends a routine with a status.  A question is
    asked at most [rounds] times; a run that would ask it again is [NoFuel]. *)
From S2P Require Import Prelude CText KExpr KSym KConf KHelp KMenu KParse.

(** ** State *)

Inductive input_mode :=
  oldaskconfig | silentoldconfig | oldconfig | allnoconfig | allyesconfig | allmodconfig | alldefconfig
| randconfig | defconfig | savedefconfig | listnewconfig | olddefconfig.
#[export] Instance input_mode_eq_dec : EqDecision input_mode.
Proof. solve_decision. Defined.

(** [line] is the text in the buffer of 128 bytes. *)
Record cstate := {
  kst : kstate;
  mode : input_mode;
  indent : Z;
  valid_stdin : bool;
  conf_cnt : Z;
  line : string;
  rootEntry : option menuref;
  stdin : string;
  stdout : string;
  stderr : string;
  files : list fsop;
}.
Definition set_kst (k : kstate) (st : cstate) : cstate :=
  {| kst := k; mode := mode st; indent := indent st; valid_stdin := valid_stdin st; conf_cnt := conf_cnt st;
     line := line st; rootEntry := rootEntry st; stdin := stdin st; stdout := stdout st; stderr := stderr st; files := files st |}.
Definition set_mode (m : input_mode) (st : cstate) : cstate :=
  {| kst := kst st; mode := m; indent := indent st; valid_stdin := valid_stdin st; conf_cnt := conf_cnt st;
     line := line st; rootEntry := rootEntry st; stdin := stdin st; stdout := stdout st; stderr := stderr st; files := files st |}.
Definition add_indent (n : Z) (st : cstate) : cstate :=
  {| kst := kst st; mode := mode st; indent := indent st + n; valid_stdin := valid_stdin st; conf_cnt := conf_cnt st;
     line := line st; rootEntry := rootEntry st; stdin := stdin st; stdout := stdout st; stderr := stderr st; files := files st |}.
Definition set_valid_stdin (b : bool) (st : cstate) : cstate :=
  {| kst := kst st; mode := mode st; indent := indent st; valid_stdin := b; conf_cnt := conf_cnt st;
     line := line st; rootEntry := rootEntry st; stdin := stdin st; stdout := stdout st; stderr := stderr st; files := files st |}.
Definition set_cnt (n : Z) (st : cstate) : cstate :=
  {| kst := kst st; mode := mode st; indent := indent st; valid_stdin := valid_stdin st; conf_cnt := n;
     line := line st; rootEntry := rootEntry st; stdin := stdin st; stdout := stdout st; stderr := stderr st; files := files st |}.
Definition set_line (l : string) (st : cstate) : cstate :=
  {| kst := kst st; mode := mode st; indent := indent st; valid_stdin := valid_stdin st; conf_cnt := conf_cnt st;
     line := l; rootEntry := rootEntry st; stdin := stdin st; stdout := stdout st; stderr := stderr st; files := files st |}.
Definition set_root (m : option menuref) (st : cstate) : cstate :=
  {| kst := kst st; mode := mode st; indent := indent st; valid_stdin := valid_stdin st; conf_cnt := conf_cnt st;
     line := line st; rootEntry := m; stdin := stdin st; stdout := stdout st; stderr := stderr st; files := files st |}.
Definition set_stdin (t : string) (st : cstate) : cstate :=
  {| kst := kst st; mode := mode st; indent := indent st; valid_stdin := valid_stdin st; conf_cnt := conf_cnt st;
     line := line st; rootEntry := rootEntry st; stdin := t; stdout := stdout st; stderr := stderr st; files := files st |}.
Definition add_out (t : string) (st : cstate) : cstate :=
  {| kst := kst st; mode := mode st; indent := indent st; valid_stdin := valid_stdin st; conf_cnt := conf_cnt st;
     line := line st; rootEntry := rootEntry st; stdin := stdin st; stdout := stdout st +:+ t; stderr := stderr st; files := files st |}.
Definition add_err (t : string) (st : cstate) : cstate :=
  {| kst := kst st; mode := mode st; indent := indent st; valid_stdin := valid_stdin st; conf_cnt := conf_cnt st;
     line := line st; rootEntry := rootEntry st; stdin := stdin st; stdout := stdout st; stderr := stderr st +:+ t; files := files st |}.
Definition add_files (l : list fsop) (st : cstate) : cstate :=
  {| kst := kst st; mode := mode st; indent := indent st; valid_stdin := valid_stdin st; conf_cnt := conf_cnt st;
     line := line st; rootEntry := rootEntry st; stdin := stdin st; stdout := stdout st; stderr := stderr st; files := (files st ++ l)%list |}.

Abbreviation CM := (EM cstate).
(** A routine on the symbols and menus. *)
Definition kern {A} (m : KM A) : CM A := fun st =>
  match m (kst st) with Ok a k => Ok (Returned a) (set_kst k st) | Fault => Fault | NoFuel => NoFuel end.

Definition printf (t : string) : CM unit := emodify (add_out t).
Definition eprintf (t : string) : CM unit := emodify (add_err t).
Definition in_mode (l : list input_mode) : CM bool := st ← eget; mret (bool_decide (mode st ∈ l)).
(** [%*s] of an empty string with the width [indent - 1]. *)
Definition margin : CM unit := st ← eget; printf (spaces (indent st - 1)).
(** [%*c] with the width [indent]. *)
Definition mark (c : string) : CM unit := margin;; printf c.

(** ** Lines *)

(** At the end of the input the buffer keeps its text. *)
Definition xfgets : CM unit :=
  st ← eget;
  if String.eqb (stdin st) "" then eprintf (NL +:+ "Error in reading or end of file." +:+ NL)
  else let '(l, rest) := fgets 127 (stdin st) in emodify (set_line (until_nul l));; emodify (set_stdin rest).

Fixpoint strip_front (s : string) : string :=
  match s with String c t => if isspace c then strip_front t else s | EmptyString => "" end.
Fixpoint strip_back (s : string) : string :=
  match s with
  | EmptyString => ""
  | String c t =>
      match strip_back t with
      | EmptyString => if isspace c then "" else str1 c
      | t => String c t
      end
  end.
Definition strip (s : string) : string := strip_back (strip_front s).
(** [line[strlen(line)-1] = 0]: of an empty text, a write before the buffer. *)
Definition chop (s : string) : option string :=
  match s with EmptyString => None | _ => Some (String.substring 0 (String.length s - 1) s) end.

Section Questions.
Variable CONFIG_ : string.
Variable place : menuref -> string * Z.
(** Input and output are a terminal. *)
Variable tty_stdio : bool.
Variable rounds : nat.

Definition print_help (m : menuref) : CM unit :=
  help ← kern (menu_get_ext_help CONFIG_ place m str_new);
  printf (NL +:+ str_get help +:+ NL).

Definition check_stdin : CM unit :=
  st ← eget;
  if valid_stdin st then mret tt
  else
    printf ("aborted!" +:+ NL +:+ NL);;
    printf "Console input/output is redirected. ";;
    printf ("Run 'make oldconfig' to update configuration." +:+ NL +:+ NL);;
    eexit 1.

(** [true]: there may be an answer in [line]. *)
Definition conf_askvalue (s : symref) (def : string) : CM bool :=
  ty ← kern (get_type s);
  y ← kern (get_sym s);
  ewhen (negb (sym_has_value y)) (printf "(NEW) ");;
  emodify (set_line NL);;
  if negb (sym_is_changable y) then printf (def +:+ NL);; emodify (set_line NL);; mret false
  else
    let read := xfgets;; ewhen (negb tty_stdio) (printf NL);; mret true in
    st ← eget;
    match mode st with
    | oldconfig | silentoldconfig =>
        if sym_has_value y then printf (def +:+ NL);; mret false
        else check_stdin;; read
    | oldaskconfig => read
    | _ =>
        match ty with
        | S_INT | S_HEX | S_STRING => printf (def +:+ NL);; mret true
        | _ => printf (line st);; mret true
        end
    end.

(** The text of the entry's prompt. *)
Definition prompt_text (m : menuref) : CM string :=
  kern (e ← get_menu m; p ← plift (m_prompt e); p ← prompt_prop p; plift (p_text p)).
Definition entry_sym (m : menuref) : CM symref := kern (e ← get_menu m; plift (m_sym e)).

(** What the line means to [conf_string].  [None]: a write before the buffer. *)
Inductive answer := Keep | AskHelp | Text (v : string).
Definition string_answer (l : string) : option answer :=
  match l with
  | String c t =>
      if char_eqb c nl then Some Keep
      else if char_eqb c "?" && head_is (char_eqb nl) t then Some AskHelp
      else v ← chop l; Some (Text v)
  | EmptyString => None
  end.

Definition conf_string_round (m : menuref) (s : symref) : CM bool :=
  t ← prompt_text m;
  margin;; printf (t +:+ " ");;
  y ← kern (get_sym s); n ← elift (name y);
  printf ("(" +:+ n +:+ ") ");;
  def ← kern (sym_get_string_value s);
  printf ("[" +:+ def +:+ "] ");;
  asked ← conf_askvalue s def;
  if negb asked then mret true
  else
    st ← eget;
    a ← elift (string_answer (line st));
    match a with
    | Keep => kern (sym_set_string_value s def)
    | AskHelp => print_help m;; mret false
    | Text v => emodify (set_line v);; kern (sym_set_string_value s v)
    end.
(** [while (1)]: until a round is the last. *)
Fixpoint until (n : nat) (body : CM bool) : CM unit :=
  match n with
  | O => enofuel
  | S n => stop ← body; if stop : bool then mret tt else until n body
  end.
Definition conf_string (m : menuref) : CM unit := s ← entry_sym m; until rounds (conf_string_round m s).

(** What the stripped line means to [conf_sym]. *)
Inductive tri_answer := Set_to (t : tristate) | Tri_help | Again.
Definition sym_answer (l : string) (old : tristate) : tri_answer :=
  match l with
  | EmptyString => Set_to old
  | String c t =>
      if is_letter "n" "N" c then if String.eqb t "" || String.eqb t "o" then Set_to Tno else Again
      else if is_letter "m" "M" c then if String.eqb t "" then Set_to Tmod else Again
      else if is_letter "y" "Y" c then if String.eqb t "" || String.eqb t "es" then Set_to Tyes else Again
      else if char_eqb c "?" then Tri_help else Again
  end.
Definition tri_capital (t : tristate) : string := match t with Tno => "N" | Tmod => "M" | Tyes => "Y" end.
Definition offer (s : symref) (old t : tristate) : CM unit :=
  if is_tri old t then mret tt
  else ok ← kern (sym_tristate_within_range s t); ewhen ok (printf ("/" +:+ tri_text t)).

Definition conf_sym_round (m : menuref) (s : symref) : CM bool :=
  t ← prompt_text m;
  margin;; printf (t +:+ " ");;
  y ← kern (get_sym s);
  match name y with Some n => printf ("(" +:+ n +:+ ") ") | None => mret tt end;;
  printf "[";;
  let old := sym_get_tristate_value y in
  printf (tri_capital old);;
  offer s old Tno;; offer s old Tmod;; offer s old Tyes;;
  e ← kern (get_menu m);
  ewhen (menu_has_help e) (printf "/?");;
  printf "] ";;
  def ← kern (sym_get_string_value s);
  asked ← conf_askvalue s def;
  if negb asked then mret true
  else
    st ← eget;
    emodify (set_line (strip (line st)));;
    match sym_answer (strip (line st)) old with
    | Set_to v =>
        ok ← kern (sym_set_tristate_value s v);
        if ok : bool then mret true else print_help m;; mret false
    | Tri_help => print_help m;; mret false
    | Again => mret false
    end.
Definition conf_sym (m : menuref) : CM unit := s ← entry_sym m; until rounds (conf_sym_round m s).

(** *** Choices *)

Definition menu_prompt (m : menuref) : CM string := kern (t ← menu_get_prompt m; plift t).
Definition menu_fuel : CM nat := st ← eget; mret (S (size (menus (kst st)))).

(** The numbered list of the visible entries: how many, and the number of the
    current one. *)
Fixpoint list_choices (n : nat) (c : option menuref) (def_sym : sval) (cnt def : Z) : CM (Z * Z) :=
  match n, c with
  | _, None => mret (cnt, def)
  | O, _ => enofuel
  | S n, Some c =>
      v ← kern (visible_menu c);
      e ← kern (get_menu c);
      if negb v then list_choices n (m_next e) def_sym cnt def
      else
        match m_sym e with
        | None =>
            t ← menu_prompt c;
            mark "*";; printf (" " +:+ t +:+ NL);;
            list_choices n (m_next e) def_sym cnt def
        | Some cs =>
            let cnt := cnt + 1 in
            let here := bool_decide (VSym cs = def_sym) in
            mark (if here then ">" else " ");;
            t ← menu_prompt c;
            printf (" " +:+ fmt_d cnt +:+ ". " +:+ t);;
            y ← kern (get_sym cs);
            match name y with Some n => printf (" (" +:+ n +:+ ")") | None => mret tt end;;
            ewhen (negb (sym_has_value y)) (printf " (NEW)");;
            printf NL;;
            list_choices n (m_next e) def_sym cnt (if here then cnt else def)
        end
  end.

(** The [cnt]-th visible entry with a symbol; [--cnt] of the least [int] is
    undefined behaviour. *)
Fixpoint choice_child (n : nat) (c : option menuref) (cnt : Z) : CM (option (menuref * symref)) :=
  match n, c with
  | _, None => mret None
  | O, _ => enofuel
  | S n, Some c =>
      e ← kern (get_menu c);
      match m_sym e with
      | None => choice_child n (m_next e) cnt
      | Some cs =>
          v ← kern (visible_menu c);
          if negb v then choice_child n (m_next e) cnt
          else if cnt =? -2147483648 then efault
          else if cnt - 1 =? 0 then mret (Some (c, cs))
          else choice_child n (m_next e) (cnt - 1)
      end
  end.

Definition ends_with_mark (l : string) : bool :=
  match strrchr "?" l with Some (_, b) => String.eqb b "" | None => false end.
Definition atoi (s : string) : Z := i32 (strtoll 10 s).

Section Walk.
Variable conf : menuref -> CM unit.

(** [conf] on every entry from [c] on. *)
Fixpoint each_entry (f : menuref -> CM unit) (n : nat) (c : option menuref) : CM unit :=
  match n, c with
  | _, None => mret tt
  | O, _ => enofuel
  | S n, Some c => f c;; e ← kern (get_menu c); each_entry f n (m_next e)
  end.
Definition indented (m : CM unit) : CM unit := emodify (add_indent 2);; m;; emodify (add_indent (-2)).

(** From [conf_childs] on. *)
Definition choose (m : menuref) (cnt : Z) : CM bool :=
  e ← kern (get_menu m);
  k ← menu_fuel;
  r ← choice_child k (m_list e) cnt;
  match r with
  | None => mret false
  | Some (c, cs) =>
      st ← eget;
      if ends_with_mark (line st) then print_help c;; mret false
      else
        s ← entry_sym m;
        kern (sym_set_choice_value s cs);;
        e ← kern (get_menu c);
        k ← menu_fuel;
        each_entry (fun x => indented (conf x)) k (m_list e);;
        mret true
  end.

Definition ask_choice (m : menuref) (def : Z) : CM bool :=
  xfgets;;
  st ← eget;
  let l := strip (line st) in
  emodify (set_line l);;
  if head_is (char_eqb "?") l then print_help m;; mret false
  else if String.eqb l "" then choose m def
  else if head_is isdigit l then choose m (atoi l)
  else mret false.

Definition choice_round (m : menuref) (s : symref) (is_new : bool) : CM bool :=
  t ← menu_prompt m;
  margin;; printf (t +:+ NL);;
  y ← kern (get_sym s);
  emodify (set_line "");;
  e ← kern (get_menu m);
  k ← menu_fuel;
  '(cnt, def) ← list_choices k (m_list e) (sym_get_choice_value y) 0 0;
  margin;; printf "choice";;
  if cnt =? 1 then printf ("[1]: 1" +:+ NL);; choose m cnt
  else
    printf ("[1-" +:+ fmt_d cnt);;
    e ← kern (get_menu m);
    ewhen (menu_has_help e) (printf "?");;
    printf "]: ";;
    st ← eget;
    match mode st with
    | oldconfig | silentoldconfig =>
        if negb is_new then printf (fmt_d def +:+ NL);; choose m def
        else check_stdin;; ask_choice m def
    | oldaskconfig => ask_choice m def
    | _ => choose m cnt
    end.

Definition conf_choice (m : menuref) : CM unit :=
  s ← entry_sym m;
  y ← kern (get_sym s);
  let is_new := negb (sym_has_value y) in
  let questions := until rounds (choice_round m s is_new) in
  if sym_is_changable y then
    conf_sym m;;
    kern (sym_calc_value s);;
    y ← kern (get_sym s);
    match sym_get_tristate_value y with Tyes => questions | _ => mret tt end
  else
    match sym_get_tristate_value y with
    | Tno => mret tt
    | Tmod => t ← menu_prompt m; margin;; printf (t +:+ NL)
    | Tyes => questions
    end.

(** *** Menus *)

Variable check_conf : menuref -> CM unit.

Definition conf_children (m : menuref) : CM unit :=
  e ← kern (get_menu m);
  k ← menu_fuel;
  match m_sym e with
  | Some _ => emodify (add_indent 2);; each_entry conf k (m_list e);; emodify (add_indent (-2))
  | None => each_entry conf k (m_list e)
  end.

Definition conf_heading (m : menuref) : CM unit :=
  t ← kern (menu_get_prompt m);
  match t with
  | Some t => mark "*";; printf NL;; mark "*";; printf (" " +:+ t +:+ NL);; mark "*";; printf NL
  | None => mret tt
  end.

Definition conf_entry (m : menuref) : CM unit :=
  e ← kern (get_menu m);
  match m_sym e with
  | None => conf_children m
  | Some s =>
      y ← kern (get_sym s);
      if sym_is_choice y then
        conf_choice m;;
        y ← kern (get_sym s);
        if negb (is_tri (tri (curr y)) Tmod) then mret tt else conf_children m
      else
        match type y with
        | S_INT | S_HEX | S_STRING => conf_string m
        | _ => conf_sym m
        end;;
        conf_children m
  end.

Definition prompt_kind (e : menu) : CM (option prop_type) :=
  match m_prompt e with
  | Some p => kern (q ← prompt_prop p; mret (Some (p_type q)))
  | None => mret None
  end.

Definition conf_body (m : menuref) : CM unit :=
  v ← kern (visible_menu m);
  if negb v then mret tt
  else
    e ← kern (get_menu m);
    ty ← prompt_kind e;
    match ty with
    | Some P_MENU =>
        b ← in_mode [silentoldconfig; listnewconfig; olddefconfig];
        st ← eget;
        if b && negb (bool_decide (rootEntry st = Some m)) then check_conf m
        else conf_heading m;; conf_entry m
    | Some P_COMMENT => conf_heading m;; conf_entry m
    | _ => conf_entry m
    end.

(** A new value that can be asked for. *)
Definition check_new (m : menuref) (s : symref) (y : symbol) : CM unit :=
  b ← in_mode [listnewconfig];
  if b : bool then
    match name y with
    | Some n => ewhen (negb (sym_is_choice_value y)) (printf (CONFIG_ +:+ n +:+ NL))
    | None => mret tt
    end
  else
    b ← in_mode [olddefconfig];
    ewhen (negb b)
      (st ← eget;
       ewhen (conf_cnt st =? 0) (printf ("*" +:+ NL +:+ "* Restart config..." +:+ NL +:+ "*" +:+ NL));;
       emodify (set_cnt (conf_cnt st + 1));;
       p ← kern (menu_get_parent_menu m);
       emodify (set_root (Some p));;
       conf p).

Definition check_entry (m : menuref) : CM unit :=
  e ← kern (get_menu m);
  match m_sym e with
  | None => mret tt
  | Some s =>
      y ← kern (get_sym s);
      ewhen (negb (sym_has_value y) &&
             (sym_is_changable y || sym_is_choice y && is_tri (sym_get_tristate_value y) Tyes))
        (check_new m s y)
  end.

Definition check_conf_body (m : menuref) : CM unit :=
  v ← kern (visible_menu m);
  if negb v then mret tt
  else
    check_entry m;;
    e ← kern (get_menu m);
    k ← menu_fuel;
    each_entry check_conf k (m_list e).
End Walk.

(** [conf] and [check_conf] call each other at most [n] deep. *)
Fixpoint walks (n : nat) : (menuref -> CM unit) * (menuref -> CM unit) :=
  match n with
  | O => (fun _ => enofuel, fun _ => enofuel)
  | S n => let '(c, k) := walks n in (conf_body c k, check_conf_body c k)
  end.
Definition conf (n : nat) : menuref -> CM unit := (walks n).1.
Definition check_conf (n : nat) : menuref -> CM unit := (walks n).2.
End Questions.
