(* ===== verification/ConfMain.v ===== *)
(** [main] of the line-oriented front end (src/buildroot/support/kconfig/conf.c): the
    options, the mode they choose, and what is read, asked and written in it. *)
From S2P Require Import Prelude CText KExpr KSym KConf KHelp KMenu KParse KScan KGrammar Conf.

(** ** Options *)

(** What [getopt_long] gives for an argument: an entry of [long_opts] with its
    argument, or [?]. *)
Inductive opt := Opt (m : input_mode) (optarg : option string) | Unknown.

(** [strtol] with base 0 and its end pointer. *)
Definition strtol_any (s : string) : Z * string :=
  let t := skip_space s in
  let '(neg, u) := match t with
                   | String c r => if char_eqb c "-" then (true, r) else if char_eqb c "+" then (false, r) else (false, t)
                   | EmptyString => (false, t)
                   end in
  let hex := negb (String.eqb (skip_0x u) u) in
  let base := if hex then 16 else if head_is (char_eqb "0") u then 8 else 10 in
  if head_is isxdigit (skip_0x u) && (hex || head_is isdigit u) then
    let '(v, rest) := scan_digits base 0 (skip_0x u) in (sat64 (if neg then - v else v), rest)
  else (0, s).

(** The seed of [rand()]: from the clock, or as [KCONFIG_SEED] says. *)
Definition random_seed (sec usec : Z) (env : option string) : Z :=
  let seed := u32 ((sec + 1) * (usec + 1)) in
  match env with
  | Some e =>
      if String.eqb e "" then seed
      else let '(tmp, rest) := strtol_any e in if String.eqb rest "" then u32 (i32 tmp) else seed
  | None => seed
  end.

Definition usage (progname : string) : string :=
  "Usage: " +:+ progname +:+ " [option] <kconfig-file>" +:+ NL
  +:+ "[option] is _one_ of the following:" +:+ NL
  +:+ "  --listnewconfig         List new options" +:+ NL
  +:+ "  --oldaskconfig          Start a new configuration using a line-oriented program" +:+ NL
  +:+ "  --oldconfig             Update a configuration using a provided .config as base" +:+ NL
  +:+ "  --silentoldconfig       Same as oldconfig, but quietly, additionally update deps" +:+ NL
  +:+ "  --olddefconfig          Same as silentoldconfig but sets new symbols to their default value" +:+ NL
  +:+ "  --oldnoconfig           An alias of olddefconfig" +:+ NL
  +:+ "  --defconfig <file>      New config with default defined in <file>" +:+ NL
  +:+ "  --savedefconfig <file>  Save the minimal current configuration to <file>" +:+ NL
  +:+ "  --allnoconfig           New config where all options are answered with no" +:+ NL
  +:+ "  --allyesconfig          New config where all options are answered with yes" +:+ NL
  +:+ "  --allmodconfig          New config where all options are answered with mod" +:+ NL
  +:+ "  --alldefconfig          New config with all symbols set to default" +:+ NL
  +:+ "  --randconfig            New config with random answer to all options" +:+ NL.
Definition conf_usage (progname : string) : CM unit := printf (usage progname).

Section Main.
Variable CONFIG_ : string.
Variable tty_stdio : bool.
Variable rounds : nat.
(** How deep [conf] and [check_conf] may call each other, and how often the loops of
    [main] may run. *)
Variable depth : nat.
Variable progname : string.
Variables sec usec : Z.
Variable getenv : string -> option string.
Variable release : string.
(** The text of a file that can be opened; how far the parser may go. *)
Variable fopen : string -> option string.
Variable reach : nat.
Variable exists_file : string -> bool.
Variable can_open : string -> bool.
Variable is_dir : string -> bool.
Variable can_rename : string -> string -> bool.
Variable pid : Z.
Variable open_touch : string -> open_result.
Variables reopen stat_ok mkdir_ok chdir_ok : string -> bool.
(** The numbers of [rand()] in each round, for a seed. *)
Variable rand : Z -> nat -> list Z.

(** The options set the mode, [sync_kconfig], [defconfig_file] and the seed. *)
Record settings := { sync_kconfig : bool; defconfig_file : option string; seed : Z }.
Definition no_settings : settings := {| sync_kconfig := false; defconfig_file := None; seed := 1 |}.
Fixpoint options (l : list opt) (o : settings) : CM settings :=
  match l with
  | [] => mret o
  | Unknown :: _ => conf_usage progname;; eexit 1
  | Opt m arg :: l =>
      emodify (set_mode m);;
      match m with
      | silentoldconfig =>
          options l {| sync_kconfig := true; defconfig_file := defconfig_file o; seed := seed o |}
      | defconfig | savedefconfig =>
          options l {| sync_kconfig := sync_kconfig o; defconfig_file := arg; seed := seed o |}
      | randconfig =>
          let s := random_seed sec usec (getenv "KCONFIG_SEED") in
          eprintf ("KCONFIG_SEED=0x" +:+ string_map toupper (fmt_x s) +:+ NL);;
          options l {| sync_kconfig := sync_kconfig o; defconfig_file := defconfig_file o; seed := s |}
      | _ => options l o
      end
  end.

(** [conf_parse] of the file; what the parser prints goes to the same
    output. *)
Definition parse_file (nm : string) : CM gstate :=
  st ← eget;
  match conf_parse_file getenv fopen release reach nm (unparsed (kst st)) with
  | Ok r g =>
      printf (said (scn g));;
      emodify (set_kst (heap (pst g)));;
      match r with Returned _ => mret g | Exited n => eexit n end
  | Fault => efault
  | NoFuel => enofuel
  end.

(** *** Reading *)

Definition seed_config (m : input_mode) : string :=
  match m with
  | allnoconfig => "allno.config" | allyesconfig => "allyes.config" | allmodconfig => "allmod.config"
  | alldefconfig => "alldef.config" | _ => "allrandom.config"
  end.
Section Parsed.
Variable parsed : gstate.
Abbreviation zconf_fopen := (KGrammar.zconf_fopen getenv fopen).
Abbreviation sym_defconfig_list := (sym_defconfig_list (pst parsed)).
Abbreviation place := (place_in parsed).
Abbreviation read := (conf_read CONFIG_ getenv zconf_fopen sym_defconfig_list).
Abbreviation read_simple := (conf_read_simple CONFIG_ getenv zconf_fopen sym_defconfig_list).

Definition read_defconfig (o : settings) : CM string :=
  file ← match defconfig_file o with
         | Some f => mret f
         | None => kern (conf_get_default_confname getenv exists_file)
         end;
  ok ← kern (read (Some file));
  if ok : bool then mret file
  else
    printf ("***" +:+ NL +:+ "*** Can't find default configuration " +:+ str1 quote +:+ file +:+ str1 quote +:+ "!" +:+ NL
            +:+ "***" +:+ NL);;
    eexit 1.

(** The seed of the modes that set everything. *)
Definition read_seed (m : input_mode) : CM unit :=
  match getenv "KCONFIG_ALLCONFIG" with
  | None => mret tt
  | Some n =>
      if negb (String.eqb n "") && negb (String.eqb n "1") then
        ok ← kern (read_simple (Some n) S_DEF_USER);
        if ok : bool then mret tt
        else eprintf ("*** Can't read seed configuration " +:+ str1 quote +:+ n +:+ str1 quote +:+ "!" +:+ NL);; eexit 1
      else
        ok ← kern (read_simple (Some (seed_config m)) S_DEF_USER);
        if ok : bool then mret tt
        else
          ok ← kern (read_simple (Some "all.config") S_DEF_USER);
          if ok : bool then mret tt
          else
            eprintf ("*** KCONFIG_ALLCONFIG set, but no " +:+ str1 quote +:+ seed_config m +:+ str1 quote +:+ " or "
                     +:+ str1 quote +:+ "all.config" +:+ str1 quote +:+ " file found" +:+ NL);;
            eexit 1
  end.

(** The configuration is read as the mode says; the result is [defconfig_file]. *)
Definition read_configuration (o : settings) : CM (option string) :=
  st ← eget;
  match mode st with
  | defconfig => f ← read_defconfig o; mret (Some f)
  | savedefconfig | silentoldconfig | oldaskconfig | oldconfig | listnewconfig | olddefconfig =>
      kern (read None);; mret (defconfig_file o)
  | m => read_seed m;; mret (defconfig_file o)
  end.

(** *** Asking *)

Abbreviation conf_at := (conf CONFIG_ place tty_stdio rounds depth).
Abbreviation check_conf_at := (check_conf CONFIG_ place tty_stdio rounds depth).

(** Update until a loop caused no more changes. *)
Fixpoint update (n : nat) : CM unit :=
  match n with
  | O => enofuel
  | S n =>
      emodify (set_cnt 0);;
      check_conf_at rootmenu;;
      st ← eget;
      if negb (conf_cnt st =? 0) && bool_decide (mode st ∉ [listnewconfig; olddefconfig]) then update n else mret tt
  end.

Definition set_all (m : conf_def_mode) (rs : list Z) : CM bool :=
  r ← kern (conf_set_all_new_symbols m (getenv "KCONFIG_PROBABILITY") rs);
  match r with Some ch => mret ch | None => eexit 1 end.
Fixpoint randomise (n : nat) (k : nat) (s : Z) : CM unit :=
  match n with
  | O => enofuel
  | S n => ch ← set_all def_random (rand s k); if ch : bool then randomise n (S k) s else mret tt
  end.

Definition ask (o : settings) : CM unit :=
  st ← eget;
  match mode st with
  | allnoconfig => set_all def_no [];; mret tt
  | allyesconfig => set_all def_yes [];; mret tt
  | allmodconfig => set_all def_mod [];; mret tt
  | alldefconfig | defconfig => set_all def_default [];; mret tt
  | randconfig => randomise depth 0 (seed o)
  | savedefconfig => mret tt
  | oldaskconfig =>
      emodify (set_root (Some rootmenu));;
      conf_at rootmenu;;
      emodify (set_mode silentoldconfig);;
      update depth
  | oldconfig | listnewconfig | olddefconfig | silentoldconfig => update depth
  end.

(** *** Writing *)

(** [conf_write(NULL)]; [false]: an error. *)
Definition write_config : CM bool :=
  t ← kern (menu_get_prompt rootmenu); t ← elift t;
  r ← kern (conf_write CONFIG_ getenv can_open is_dir can_rename t pid None);
  match r with
  | Some (ok, ops) => emodify (add_files ops);; mret ok
  | None => mret false
  end.
Definition write_autoconf : CM bool :=
  t ← kern (menu_get_prompt rootmenu); t ← elift t;
  '(ok, ops) ← kern (conf_write_autoconf CONFIG_ getenv zconf_fopen sym_defconfig_list can_open can_rename t
                       open_touch reopen stat_ok mkdir_ok chdir_ok
                       (fun nm => '(_, ops) ← file_write_dep getenv can_open (names (scn parsed)) (Some nm); mret ops));
  emodify (add_files ops);; mret ok.
Definition write_error : CM unit := eprintf (NL +:+ "*** Error during writing of the configuration." +:+ NL +:+ NL).

Definition write_result (o : settings) (file : option string) : CM Z :=
  st ← eget;
  if sync_kconfig o then
    ch ← kern conf_get_changed;
    ok ← (if ch : bool then write_config else mret true);
    if negb ok then write_error;; eexit 1
    else
      ok ← write_autoconf;
      if ok : bool then mret 0
      else eprintf (NL +:+ "*** Error during update of the configuration." +:+ NL +:+ NL);; mret 1
  else
    match mode st with
    | savedefconfig =>
        f ← elift file;
        r ← kern (conf_write_defconfig CONFIG_ can_open f);
        match r with
        | Some ops => emodify (add_files ops);; mret 0
        | None => eprintf ("n*** Error while saving defconfig to: " +:+ f +:+ NL +:+ NL);; mret 1
        end
    | listnewconfig => mret 0
    | _ => ok ← write_config; if ok : bool then mret 0 else write_error;; eexit 1
    end.
End Parsed.

(** The rest of [main], after [conf_parse]. *)
Definition run_parsed (o : settings) (parsed : gstate) : CM Z :=
  let missing := negb (exists_file (conf_get_configname getenv)) in
  if sync_kconfig o && missing then
    eprintf ("***" +:+ NL +:+ "*** Configuration file " +:+ str1 quote +:+ conf_get_configname getenv +:+ str1 quote +:+ " not found!" +:+ NL
             +:+ "***" +:+ NL
             +:+ "*** Please run some configurator (e.g. " +:+ str1 quote +:+ "make oldconfig" +:+ str1 quote +:+ " or" +:+ NL
             +:+ "*** " +:+ str1 quote +:+ "make menuconfig" +:+ str1 quote +:+ " or " +:+ str1 quote +:+ "make xconfig" +:+ str1 quote +:+ ")." +:+ NL
             +:+ "***" +:+ NL);;
    eexit 1
  else
    f ← read_configuration parsed o;
    ch ← kern conf_get_changed;
    let refuse := match getenv "KCONFIG_NOSILENTUPDATE" with Some n => negb (String.eqb n "") | None => false end in
    if sync_kconfig o && ch && refuse then
      eprintf (NL +:+ "*** The configuration requires explicit update." +:+ NL +:+ NL);; mret 1
    else
      ewhen (sync_kconfig o) (emodify (set_valid_stdin tty_stdio));;
      ask parsed o;;
      write_result parsed o f.

(** The rest of [main], after the options: [file] is [av[optind]]. *)
Definition run_file (o : settings) (file : string) : CM Z :=
  parsed ← parse_file file;
  run_parsed o parsed.

Definition conf_main (l : list opt) (file : option string) : CM Z :=
  o ← options l no_settings;
  match file with
  | None => printf (progname +:+ ": Kconfig file missing" +:+ NL);; conf_usage progname;; eexit 1
  | Some file => run_file o file
  end.
End Main.
