(* ===== verification/ConfFacts.v ===== *)
(** What the front end of conf.c reads and prints in its modes: only the modes that
    ask read the standard input, and [--listnewconfig] prints the names of new
    symbols. *)
From S2P Require Import Prelude CText KExpr KSym KSymFacts KConf KHelp KSymKeep KMenu KParse KScan KGrammar Conf ConfMain.
Local Open Scope list_scope.

(** ** Invariants of routines that may end the program *)

(** Whatever way the routine ends, the invariant holds again. *)
Definition ckeeps (I : cstate -> Prop) {A} (m : CM A) : Prop :=
  forall st, I st -> match m st with Ok _ st' => I st' | _ => True end.

Section Keeps.
Context (I : cstate -> Prop).

Lemma ck_bind {A B} (m : CM A) (f : A -> CM B) : ckeeps I m -> (forall a, ckeeps I (f a)) -> ckeeps I (m ≫= f).
Proof.
  intros Hm Hf st Hst. unfold mbind, EM_bind. specialize (Hm st Hst). destruct (m st) as [[a|n] st'| |]; [|done..].
  by apply Hf.
Qed.
Lemma ck_ret {A} (a : A) : ckeeps I (mret a).
Proof. by intros st Hst. Qed.
Lemma ck_get : ckeeps I eget.
Proof. by intros st Hst. Qed.
Lemma ck_lift {A} (o : option A) : ckeeps I (elift o).
Proof. intros st Hst. unfold elift. by destruct o. Qed.
Lemma ck_fault {A} : ckeeps I (efault : CM A).
Proof. done. Qed.
Lemma ck_nofuel {A} : ckeeps I (enofuel : CM A).
Proof. done. Qed.
Lemma ck_exit {A} n : ckeeps I (eexit n : CM A).
Proof. by intros st Hst. Qed.
Lemma ck_when b (m : CM unit) : ckeeps I m -> ckeeps I (ewhen b m).
Proof. destruct b; [done|]. intros _. apply ck_ret. Qed.
Lemma ck_modify f : (forall st, I st -> I (f st)) -> ckeeps I (emodify f).
Proof. intros Hf st Hst. by apply Hf. Qed.
Lemma ck_until n body : ckeeps I body -> ckeeps I (until n body).
Proof. intros Hb. induction n; [apply ck_nofuel|]. cbn. apply ck_bind; [done|]. intros [|]; [apply ck_ret|done]. Qed.
End Keeps.

(** An invariant that says nothing of the symbols. *)
Class Apart (I : cstate -> Prop) := apart k st : I st -> I (set_kst k st).
Lemma ck_kern I `{!Apart I} {A} (m : KM A) : ckeeps I (kern m).
Proof. intros st Hst. unfold kern. destruct (m (kst st)); [|done..]. by apply apart. Qed.
(** One that says nothing of margins, counters and the buffer either. *)
Class Scratch (I : cstate -> Prop) := {
  scratch_line l st : I st -> I (set_line l st);
  scratch_indent n st : I st -> I (add_indent n st);
  scratch_cnt n st : I st -> I (set_cnt n st);
  scratch_root m st : I st -> I (set_root m st);
}.

Create HintDb ck discriminated.
#[export] Hint Resolve ck_ret ck_get ck_lift ck_fault ck_nofuel ck_exit : ck.
#[export] Hint Extern 1 (ckeeps _ (kern _)) => apply ck_kern; apply _ : ck.
#[export] Hint Extern 1 (ckeeps _ (emodify (set_line _))) => apply ck_modify; intros ? ?; apply scratch_line; first [assumption|apply _] : ck.
#[export] Hint Extern 1 (ckeeps _ (emodify (add_indent _))) => apply ck_modify; intros ? ?; apply scratch_indent; first [assumption|apply _] : ck.
#[export] Hint Extern 1 (ckeeps _ (emodify (set_cnt _))) => apply ck_modify; intros ? ?; apply scratch_cnt; first [assumption|apply _] : ck.
#[export] Hint Extern 1 (ckeeps _ (emodify (set_root _))) => apply ck_modify; intros ? ?; apply scratch_root; first [assumption|apply _] : ck.
Ltac ck_step :=
  match goal with
  | |- ckeeps _ (_ ≫= _) => apply ck_bind; [|intros ?]
  | |- ckeeps _ (ewhen _ _) => apply ck_when
  | |- ckeeps _ (until _ _) => apply ck_until
  | |- ckeeps _ (let '(_, _) := ?x in _) => destruct x
  | |- ckeeps _ (match ?x with _ => _ end) => destruct x
  | |- ckeeps _ _ => solve [eauto with ck nocore]
  end.
Ltac ck := repeat (ck_step; cbn beta zeta).

(** ** The modes that do not ask *)

Definition asks (m : input_mode) : bool :=
  match m with oldaskconfig | oldconfig | silentoldconfig => true | _ => false end.

(** The mode does not ask, and [i] is still to be read. *)
Definition untouched (i : string) (st : cstate) : Prop := asks (mode st) = false /\ stdin st = i.
#[export] Instance untouched_apart i : Apart (untouched i).
Proof. by intros k st H. Qed.
#[export] Instance untouched_scratch i : Scratch (untouched i).
Proof. by split. Qed.

Section Unread.
Context (CONFIG_ : string) (place : menuref -> string * Z) (tty_stdio : bool) (rounds : nat) (i : string).
Abbreviation U := (ckeeps (untouched i)).

Lemma untouched_printf t : U (printf t).
Proof. by intros st H. Qed.
Lemma untouched_eprintf t : U (eprintf t).
Proof. by intros st H. Qed.
#[local] Hint Resolve untouched_printf untouched_eprintf : ck.
Lemma untouched_margin : U margin.
Proof. unfold margin. ck. Qed.
#[local] Hint Resolve untouched_margin : ck.
Lemma untouched_mark c : U (mark c).
Proof. unfold mark. ck. Qed.
Lemma untouched_help m : U (print_help CONFIG_ place m).
Proof. unfold print_help. ck. Qed.
#[local] Hint Resolve untouched_mark untouched_help : ck.
Lemma untouched_prompt m : U (prompt_text m).
Proof. unfold prompt_text. ck. Qed.
Lemma untouched_menu_prompt m : U (menu_prompt m).
Proof. unfold menu_prompt. ck. Qed.
Lemma untouched_entry m : U (entry_sym m).
Proof. unfold entry_sym. ck. Qed.
Lemma untouched_fuel : U menu_fuel.
Proof. unfold menu_fuel. ck. Qed.
Lemma untouched_mode l : U (in_mode l).
Proof. unfold in_mode. ck. Qed.
#[local] Hint Resolve untouched_prompt untouched_menu_prompt untouched_entry untouched_fuel untouched_mode : ck.

(** The dispatch on the mode goes the way that reads nothing. *)
Lemma untouched_dispatch {A} (a b c d : cstate -> CM A) :
  (forall st, U (d st)) ->
  U (st ← eget; match mode st with
                | oldconfig => a st | silentoldconfig => b st | oldaskconfig => c st | _ => d st
                end).
Proof.
  intros Hd st [Hm Hs]. unfold mbind, EM_bind, eget.
  destruct (mode st) eqn:E; try discriminate Hm; apply Hd; (split; [by rewrite E|done]).
Qed.
Lemma untouched_askvalue s def : U (conf_askvalue tty_stdio s def).
Proof.
  unfold conf_askvalue. apply ck_bind; [ck|intros ty]. apply ck_bind; [ck|intros y].
  apply ck_bind; [ck|intros _]. apply ck_bind; [ck|intros _]. destruct (negb _); [ck|].
  apply untouched_dispatch. intros st. ck.
Qed.
#[local] Hint Resolve untouched_askvalue : ck.
Lemma untouched_string m : U (conf_string CONFIG_ place tty_stdio rounds m).
Proof. unfold conf_string, conf_string_round. ck. Qed.
Lemma untouched_offer s old t : U (offer s old t).
Proof. unfold offer. ck. Qed.
#[local] Hint Resolve untouched_offer untouched_string : ck.
Lemma untouched_sym m : U (conf_sym CONFIG_ place tty_stdio rounds m).
Proof. unfold conf_sym, conf_sym_round. ck. Qed.
#[local] Hint Resolve untouched_sym : ck.
Lemma untouched_list n c d a b : U (list_choices n c d a b).
Proof. revert c a b. induction n as [|n IH]; intros [c|] a b; cbn [list_choices]; ck. Qed.
Lemma untouched_child n c a : U (choice_child n c a).
Proof. revert c a. induction n as [|n IH]; intros [c|] a; cbn [choice_child]; ck. Qed.
Lemma untouched_each f n c : (forall m, U (f m)) -> U (each_entry f n c).
Proof. intros Hf. revert c. induction n as [|n IH]; intros [c|]; cbn [each_entry]; ck. Qed.
#[local] Hint Resolve untouched_list untouched_child untouched_each : ck.

Section Calls.
Context (conf check_conf : menuref -> CM unit).
Hypotheses (Hconf : forall m, U (conf m)) (Hcheck : forall m, U (check_conf m)).
#[local] Hint Resolve Hconf Hcheck : ck.
Lemma untouched_indented m : U (indented (conf m)).
Proof. unfold indented. ck. Qed.
#[local] Hint Resolve untouched_indented : ck.
Lemma untouched_choose m a : U (choose CONFIG_ place conf m a).
Proof. unfold choose. ck. Qed.
#[local] Hint Resolve untouched_choose : ck.
Lemma untouched_choice_round m s b : U (choice_round CONFIG_ place conf m s b).
Proof.
  unfold choice_round.
  repeat match goal with
         | |- U (_ ← eget; _) => apply untouched_dispatch; intros st
         | _ => ck_step; cbn beta zeta
         end.
Qed.
#[local] Hint Resolve untouched_choice_round : ck.
Lemma untouched_choice m : U (conf_choice CONFIG_ place tty_stdio rounds conf m).
Proof. unfold conf_choice. ck. Qed.
Lemma untouched_children m : U (conf_children conf m).
Proof. unfold conf_children. ck. Qed.
Lemma untouched_heading m : U (conf_heading m).
Proof. unfold conf_heading. ck. Qed.
Lemma untouched_kind e : U (prompt_kind e).
Proof. unfold prompt_kind. ck. Qed.
#[local] Hint Resolve untouched_choice untouched_children untouched_heading untouched_kind : ck.
Lemma untouched_conf_entry m : U (conf_entry CONFIG_ place tty_stdio rounds conf m).
Proof. unfold conf_entry. ck. Qed.
#[local] Hint Resolve untouched_conf_entry : ck.
Lemma untouched_conf_body m : U (conf_body CONFIG_ place tty_stdio rounds conf check_conf m).
Proof. unfold conf_body. ck. Qed.
Lemma untouched_check_new m s y : U (check_new CONFIG_ conf m s y).
Proof. unfold check_new. ck. Qed.
#[local] Hint Resolve untouched_check_new : ck.
Lemma untouched_check_body m : U (check_conf_body CONFIG_ conf check_conf m).
Proof. unfold check_conf_body, check_entry. ck. Qed.
End Calls.

Lemma untouched_walks n : (forall m, U (conf CONFIG_ place tty_stdio rounds n m)) /\ (forall m, U (check_conf CONFIG_ place tty_stdio rounds n m)).
Proof.
  unfold conf, check_conf. induction n as [|n [IHc IHk]]; [split; intros; apply ck_nofuel|].
  cbn [walks]. destruct (walks _ _ _ _ n) as [c k]. cbn [fst snd] in *.
  split; intros m; [by apply untouched_conf_body|by apply untouched_check_body].
Qed.
End Unread.

(** ** The program *)

Section Program.
Context (CONFIG_ : string) (tty_stdio : bool) (rounds depth : nat) (progname : string)
  (sec usec : Z) (getenv : string -> option string) (release : string)
  (fopen : string -> option string) (reach : nat) (exists_file : string -> bool) (can_open is_dir : string -> bool) (can_rename : string -> string -> bool)
  (pid : Z) (open_touch : string -> open_result) (reopen stat_ok mkdir_ok chdir_ok : string -> bool)
  (rand : Z -> nat -> list Z).

(** The options leave a mode that does not ask. *)
Definition quiet_opt (o : opt) : Prop := match o with Opt m _ => asks m = false | Unknown => True end.

Section Quiet.
Context (i : string).
Abbreviation U := (ckeeps (untouched i)).
#[local] Hint Resolve untouched_printf untouched_eprintf untouched_mode : ck.
#[local] Hint Extern 1 (ckeeps _ (emodify (set_kst _))) => by apply ck_modify : ck.
#[local] Hint Extern 1 (ckeeps _ (emodify (add_files _))) => by apply ck_modify : ck.
#[local] Hint Extern 1 (ckeeps _ (emodify (set_valid_stdin _))) => by apply ck_modify : ck.

Lemma untouched_options l o : Forall quiet_opt l -> U (options progname sec usec getenv l o).
Proof.
  intros Hl. revert o. induction Hl as [|[m arg|] l Hm _ IH]; intros o; cbn [options]; [ck| |unfold conf_usage; ck].
  apply ck_bind; [apply ck_modify; by intros st [_ Hs]|intros _]. destruct m; try discriminate Hm; ck.
Qed.
(** Once an option has been seen the mode is one of theirs. *)
Lemma options_quiet l o st : Forall quiet_opt l -> l <> [] -> stdin st = i ->
  match options progname sec usec getenv l o st with
  | Ok (Returned _) st' => untouched i st'
  | Ok (Exited _) st' => stdin st' = i
  | _ => True
  end.
Proof.
  intros Hl Hne Hs. destruct l as [|[m arg|] l]; [done| |exact Hs].
  apply Forall_cons in Hl as [Hm Hl]. cbn [options]. unfold mbind, EM_bind, emodify.
  assert (H : forall o' st1, untouched i st1 -> match options progname sec usec getenv l o' st1 with
    | Ok (Returned _) st' => untouched i st' | Ok (Exited _) st' => stdin st' = i | _ => True end).
  { intros o' st1 H1. pose proof (untouched_options l o' Hl st1 H1) as H.
    destruct (options _ _ _ _ l o' st1) as [[a|n] st'| |]; [done|by destruct H|done..]. }
  destruct m; try discriminate Hm; by apply H.
Qed.

Lemma untouched_parse file : U (parse_file getenv release fopen reach file).
Proof.
  unfold parse_file. apply ck_bind; [ck|intros st]. destruct (conf_parse_file _ _ _ _ _ _); ck.
Qed.
Lemma untouched_defconfig g o : U (read_defconfig CONFIG_ getenv fopen exists_file g o).
Proof. unfold read_defconfig. ck. Qed.
Lemma untouched_seed g m : U (read_seed CONFIG_ getenv fopen g m).
Proof. unfold read_seed. ck. Qed.
#[local] Hint Resolve untouched_parse untouched_defconfig untouched_seed : ck.
Lemma untouched_configuration g o : U (read_configuration CONFIG_ getenv fopen exists_file g o).
Proof. unfold read_configuration. ck. Qed.
Lemma untouched_update g n : U (update CONFIG_ tty_stdio rounds depth g n).
Proof.
  pose proof (fun m => proj2 (untouched_walks CONFIG_ (place_in g) tty_stdio rounds i depth) m) as Hw.
  induction n as [|n IH]; cbn [update]; ck.
Qed.
Lemma untouched_set_all m rs : U (set_all getenv m rs).
Proof. unfold set_all. ck. Qed.
#[local] Hint Resolve untouched_configuration untouched_update untouched_set_all : ck.
Lemma untouched_randomise n k s : U (randomise getenv rand n k s).
Proof. revert k. induction n as [|n IH]; intros k; cbn [randomise]; ck. Qed.
#[local] Hint Resolve untouched_randomise : ck.
Lemma untouched_ask g o : U (ask CONFIG_ tty_stdio rounds depth getenv rand g o).
Proof.
  intros st Hst. unfold ask. unfold mbind at 1, EM_bind at 1, eget.
  assert (H : forall m : CM unit, U m -> match m st with Ok _ st' => untouched i st' | _ => True end) by (intros m Hm; by apply Hm).
  pose proof (fun m => proj1 (untouched_walks CONFIG_ (place_in g) tty_stdio rounds i depth) m) as Hw.
  destruct Hst as [Hm Hs]. destruct (mode st) eqn:E; try discriminate Hm; apply H; ck.
Qed.
Lemma untouched_write_config : U (write_config CONFIG_ getenv can_open is_dir can_rename pid).
Proof. unfold write_config. ck. Qed.
Lemma untouched_autoconf g :
  U (write_autoconf CONFIG_ getenv fopen can_open can_rename open_touch reopen stat_ok mkdir_ok chdir_ok g).
Proof. unfold write_autoconf. ck. Qed.
#[local] Hint Resolve untouched_ask untouched_write_config untouched_autoconf : ck.
Lemma untouched_result g o f : U (write_result CONFIG_ getenv fopen can_open is_dir can_rename pid open_touch
  reopen stat_ok mkdir_ok chdir_ok g o f).
Proof. unfold write_result, write_error. ck. Qed.
#[local] Hint Resolve untouched_result : ck.

Lemma untouched_run o file : U (run_file CONFIG_ tty_stdio rounds depth getenv release fopen reach exists_file can_open is_dir can_rename pid open_touch reopen stat_ok mkdir_ok chdir_ok rand o file).
Proof. unfold run_file, run_parsed. ck. Qed.
End Quiet.

(** Only [--oldaskconfig], [--oldconfig] and [--silentoldconfig] (and no option
    at all) ever read the standard input: with any other options, whatever the Kconfig
    file and the configuration say, the program ends with its input untouched. *)
Theorem quiet_modes_read_nothing l file st r st' : Forall quiet_opt l -> l <> [] ->
  conf_main CONFIG_ tty_stdio rounds depth progname sec usec getenv release fopen reach exists_file can_open
    is_dir can_rename pid open_touch reopen stat_ok mkdir_ok chdir_ok rand l file st = Ok r st' ->
  stdin st' = stdin st.
Proof.
  intros Hl Hne Hrun. unfold conf_main, mbind, EM_bind in Hrun.
  pose proof (options_quiet (stdin st) l no_settings st Hl Hne eq_refl) as Ho.
  destruct (options _ _ _ _ l no_settings st) as [[o|n] st1| |]; [| |done..].
  - destruct file as [file|].
    + pose proof (untouched_run (stdin st) o file st1 Ho) as H. rewrite Hrun in H. by destruct H.
    + unfold conf_usage, emodify, printf, eexit in Hrun. cbn in Hrun. injection Hrun as _ <-. by destruct Ho.
  - by injection Hrun as _ <-.
Qed.
End Program.
