(* ===== verification/ConfList.v ===== *)
(** [--listnewconfig] and [--olddefconfig] (check_conf of conf.c): the walk over the
    menus ends, asks nothing, and prints the names of the new symbols in the order of
    the entries, or nothing. *)
From S2P Require Import Prelude CText KScan KText KGrammar KReadBack KExpr KSym KSymFacts KConf KConfFacts KSymKeep KHelp KMenu KParse KMenuFacts KParseFacts KVisible Conf ConfMain.
Local Open Scope list_scope.

(** ** Entries with their symbols *)

(** The pointers of an entry with its symbol. *)
Definition layout (k : kstate) : gmap menuref (links * option symref) := (fun e => (links_of e, m_sym e)) <$> menus k.
Lemma alter_layout f m (ms : gmap menuref menu) : (forall e, links_of (f e) = links_of e /\ m_sym (f e) = m_sym e) ->
  (fun e => (links_of e, m_sym e)) <$> alter f m ms = (fun e => (links_of e, m_sym e)) <$> ms.
Proof.
  intros Hf. apply map_eq. intros i. rewrite !lookup_fmap. destruct (decide (m = i)) as [->|Hm].
  - rewrite lookup_alter_eq. destruct (ms !! i) as [e|]; [|done]. cbn. destruct (Hf e) as [-> ->]. done.
  - by rewrite lookup_alter_ne.
Qed.
#[export] Instance layout_stable : Stable layout.
Proof.
  split; try done.
  - intros l k. unfold layout, upd_menus. cbn. generalize (menus k) as ms. induction l as [|m l IH]; intros ms; [done|].
    cbn. by rewrite IH, alter_layout.
  - intros t m k. unfold layout, upd_menus. cbn. by apply alter_layout.
Qed.
#[export] Instance pair_stable {X Y} (v : kstate -> X) (w : kstate -> Y) : Stable v -> Stable w -> Stable (fun k => (v k, w k)).
Proof.
  intros Hv Hw. split; intros.
  - f_equal; by apply stable_sym.
  - f_equal; apply stable_marks.
  - f_equal; apply stable_own.
  - f_equal; apply stable_modules.
  - f_equal; apply stable_count.
  - f_equal; apply stable_loc.
  - f_equal; apply stable_log.
Qed.
Lemma layout_pointers k : pointers k = fst <$> layout k.
Proof. unfold pointers, layout. by rewrite <- map_fmap_compose. Qed.

(** The name of the symbol of an entry. *)
Definition entry_name (k : kstate) (m : menuref) : option string :=
  e ← menus k !! m; s ← m_sym e; y ← syms k !! s; name y.
(** What stays the same while values are calculated. *)
Definition static (k : kstate) := (layout k, declarations k).
#[export] Instance static_stable : Stable static := pair_stable layout declarations _ _.
Lemma static_pointers k k' : static k' = static k -> pointers k' = pointers k.
Proof. intros [= H _]. by rewrite !layout_pointers, H. Qed.
Lemma entry_name_static k k' m : static k' = static k -> entry_name k' m = entry_name k m.
Proof.
  intros [= Hl Hd]. unfold entry_name.
  apply (f_equal (fun x => x !! m)) in Hl. unfold layout in Hl. rewrite !lookup_fmap in Hl.
  destruct (menus k' !! m) as [e'|], (menus k !! m) as [e|]; try done. cbn in Hl |- *. injection Hl as _ _ _ ->.
  destruct (m_sym e) as [s|]; [|done]. cbn. apply (f_equal (fun x => x !! s)) in Hd.
  unfold declarations in Hd. rewrite !lookup_fmap in Hd.
  destruct (syms k' !! s) as [y'|], (syms k !! s) as [y|]; try done. cbn in *.
  apply shape_name. congruence.
Qed.

(** ** The walk *)

Lemma wp_cbind {A B} (m : CM A) (f : A -> CM B) Q st :
  wp m (fun r st' => match r with Returned a => wp (f a) Q st' | Exited n => Q (Exited n) st' end) st ->
  wp (m ≫= f) Q st.
Proof. unfold wp, mbind, EM_bind. by destruct (m st) as [[a|n] st'| |]. Qed.

Lemma wp_run {A B} (m : CM A) (f : A -> CM B) Q st a st' :
  m st = Ok (Returned a) st' -> wp (f a) Q st' -> wp (m ≫= f) Q st.
Proof. intros E H. apply wp_cbind. unfold wp at 1. by rewrite E. Qed.
Lemma run_in_mode l st b : bool_decide (mode st ∈ l) = b -> in_mode l st = Ok (Returned b) st.
Proof. by intros <-. Qed.

Section Listing.
Context (CONFIG_ : string) (place : menuref -> string * Z) (tty_stdio : bool) (rounds : nat).

(** One line for each name. *)
Definition listing (ns : list string) : string := foldr (fun n acc => CONFIG_ +:+ n +:+ NL +:+ acc) "" ns.
Lemma listing_app a b : listing (a ++ b) = listing a +:+ listing b.
Proof.
  induction a as [|n a IH]; [done|].
  change (CONFIG_ +:+ n +:+ NL +:+ listing (a ++ b) = (CONFIG_ +:+ n +:+ NL +:+ listing a) +:+ listing b).
  by rewrite IH, !app_assoc_s.
Qed.

(** [st'] differs from [st] in what was calculated, and in the names [ns] printed. *)
Record listed (ns : list string) (st st' : cstate) : Prop := {
  li_mode : mode st' = mode st;
  li_static : static (kst st') = static (kst st);
  li_stdin : stdin st' = stdin st;
  li_files : files st' = files st;
  li_stderr : stderr st' = stderr st;
  li_stdout : stdout st' = stdout st +:+ listing ns;
  li_none : mode st = olddefconfig -> ns = [];
}.
Lemma listed_refl st : listed [] st st.
Proof. split; try done. cbn. by rewrite app_nil_s. Qed.
Lemma listed_trans a b st st1 st2 : listed a st st1 -> listed b st1 st2 -> listed (a ++ b) st st2.
Proof.
  intros [] []. split; try congruence.
  - by rewrite li_stdout1, li_stdout0, listing_app, app_assoc_s.
  - intros H. by rewrite li_none0, li_none1 by congruence.
Qed.

(** A calculation on the way. *)
Definition calculates {A} (st : cstate) (m : KM A) : Prop :=
  wp m (fun _ k => static k = static (kst st)) (kst st).
Lemma wp_kern {A B} (m : KM A) (f : A -> CM B) Q st :
  wp m (fun _ _ => True) (kst st) -> preserves static m ->
  (forall a st', listed [] st st' -> m (kst st) = Ok a (kst st') -> wp (f a) Q st') ->
  wp (kern m ≫= f) Q st.
Proof.
  intros Hm Hp Hf. apply wp_cbind. unfold wp at 1, kern. unfold wp in Hm.
  destruct (m (kst st)) as [a k| |] eqn:E; [|done..]. apply Hf; [|done].
  split; try done; [exact (Hp _ _ _ E)|]. cbn. by rewrite app_nil_s.
Qed.

(** Every way [m] ends it has printed the names [ns], which are some of [l]. *)
Definition prints (l : list string) (st : cstate) (r : ended unit) (st' : cstate) : Prop :=
  r = Returned tt /\ exists ns, listed ns st st' /\ ns `sublist_of` l.
Lemma prints_trans l st st1 : listed [] st st1 -> forall r st', prints l st1 r st' -> prints l st r st'.
Proof. intros H r st' (-> & ns & Hn & Hs). split; [done|]. exists ns. split; [|done]. by eapply (listed_trans []). Qed.
Lemma prints_nil l st st' : listed [] st st' -> prints l st (Returned tt) st'.
Proof. intros H. split; [done|]. exists []. split; [done|]. apply sublist_nil_l. Qed.

Definition lists (m : input_mode) : Prop := m = listnewconfig \/ m = olddefconfig.

Lemma check_new_prints conf m s y st : lists (mode st) ->
  wp (check_new CONFIG_ conf m s y) (prints (option_list (name y)) st) st.
Proof.
  intros Hm. unfold check_new. destruct Hm as [Hm|Hm].
  - eapply wp_run; [apply run_in_mode; rewrite Hm; by apply bool_decide_eq_true_2; left|]. cbn iota.
    destruct (name y) as [n|]; [|by apply prints_nil, listed_refl].
    destruct (sym_is_choice_value y); [by apply prints_nil, listed_refl|]. cbn. split; [done|].
    exists [n]. split; [|done]. split; try done. all: cbn; try congruence. all: by rewrite app_nil_s.
  - eapply wp_run; [apply run_in_mode; rewrite Hm; apply bool_decide_eq_false_2; set_solver|]. cbn iota.
    eapply wp_run; [apply run_in_mode; rewrite Hm; by apply bool_decide_eq_true_2; left|].
    by apply prints_nil, listed_refl.
Qed.

Lemma run_get_menu m k e k' : get_menu m k = Ok e k' -> menus k !! m = Some e /\ k' = k.
Proof.
  unfold get_menu, mbind, PM_bind, pget, plift. destruct (menus k !! m); [|done]. by intros [= -> ->].
Qed.
Lemma run_get_sym_inv s k y k' : get_sym s k = Ok y k' -> syms k !! s = Some y /\ k' = k.
Proof.
  unfold get_sym, mbind, PM_bind, pget, plift. destruct (syms k !! s); [|done]. by intros [= -> ->].
Qed.
Lemma wp_any_get_menu m k : wp (get_menu m) (fun _ _ => True) k.
Proof. by apply wp_bind, wp_get, wp_lift. Qed.
Lemma wp_any_get_sym s k : wp (get_sym s) (fun _ _ => True) k.
Proof. by apply wp_get_sym. Qed.

Lemma check_entry_prints conf m st : lists (mode st) ->
  wp (check_entry CONFIG_ conf m) (prints (option_list (entry_name (kst st) m)) st) st.
Proof.
  intros Hm. unfold check_entry. apply wp_kern; [apply wp_any_get_menu|keep|].
  intros e st1 L1 [Ee _]%run_get_menu.
  destruct (m_sym e) as [s|] eqn:Es; [|by apply prints_nil].
  apply wp_kern; [apply wp_any_get_sym|keep|]. intros y st2 L2 [Ey _]%run_get_sym_inv.
  assert (L : listed [] st st2) by (by eapply (listed_trans [] [])).
  assert (En : entry_name (kst st) m = name y).
  { pose proof (li_static _ _ _ L1) as [= _ Hd]. destruct (declared_some s y (kst st1) (kst st) (eq_sym Hd) Ey) as [z Ez].
    unfold entry_name. rewrite Ee. cbn. rewrite Es. cbn. rewrite Ez. cbn. apply shape_name. exact (declared_shape s y z _ _ (eq_sym Hd) Ey Ez). }
  rewrite En. destruct (negb _ && _); [|by apply prints_nil].
  eapply wp_mono; [apply check_new_prints; by rewrite (li_mode _ _ _ L)|]. by apply prints_trans.
Qed.

Abbreviation check_at := (check_conf CONFIG_ place tty_stdio rounds).
Lemma check_conf_step n m : check_at (S n) m = check_conf_body CONFIG_ (conf CONFIG_ place tty_stdio rounds n) (check_at n) m.
Proof. unfold check_conf, conf. cbn [walks]. by destruct (walks _ _ _ _ n). Qed.

Lemma prints_then a b st st1 r st' : prints a st (Returned tt) st1 -> prints b st1 r st' -> prints (a ++ b) st r st'.
Proof.
  intros (_ & ns & L & Sub) (-> & ns' & L' & Sub'). split; [done|]. exists (ns ++ ns').
  split; [by eapply listed_trans|by apply sublist_app].
Qed.
Lemma listed_pointers ns st st' : listed ns st st' -> pointers (kst st') = pointers (kst st).
Proof. intros L. eapply static_pointers, li_static, L. Qed.
Lemma listed_names ns st st' (l : list menuref) : listed ns st st' -> omap (entry_name (kst st')) l = omap (entry_name (kst st)) l.
Proof.
  intros L. induction l as [|m l IH]; [done|]. cbn. by rewrite IH, (entry_name_static _ _ m (li_static _ _ _ L)).
Qed.

(** One entry, given what the walk does on its list. *)
Lemma check_node F n m c p x st : tree_of (pointers (kst st)) F -> lists (mode st) -> m ∈ rootmenu :: preorder F ->
  pointers (kst st) !! m = Some (mkLinks p (first c) x) -> (length (preorder c) <= size (menus (kst st)))%nat ->
  (forall k st', pointers (kst st') = pointers (kst st) -> mode st' = mode st -> (length (preorder c) <= k)%nat ->
     wp (each_entry (check_at n) k (first c)) (prints (omap (entry_name (kst st')) (preorder c)) st') st') ->
  wp (check_at (S n) m) (prints (omap (entry_name (kst st)) (m :: preorder c)) st) st.
Proof.
  intros Ht Hm Hin E Hc IH. rewrite check_conf_step. unfold check_conf_body. apply wp_kern; [|keep|].
  { eapply wp_mono; [apply (visible_menu_ends _ F m Ht); done|done]. }
  intros v st1 L1 _. destruct v; [|by apply prints_nil]. cbn [negb].
  apply wp_cbind. eapply wp_mono; [apply check_entry_prints; by rewrite (li_mode _ _ _ L1)|].
  cbn beta. intros q st2 P2. destruct P2 as (-> & P2). assert (Hp2 : prints (option_list (entry_name (kst st1) m)) st1 (Returned tt) st2) by done.
  destruct P2 as (ns & L2 & _). cbn iota.
  apply wp_kern; [apply wp_any_get_menu|keep|]. intros e st3 L3 [Ee _]%run_get_menu.
  assert (L : listed ns st st3).
  { eapply (listed_trans [] _); [exact L1|]. rewrite <- (app_nil_r ns). by eapply listed_trans. }
  pose proof (listed_pointers _ _ _ L) as HP.
  assert (El : m_list e = first c).
  { rewrite <- (listed_pointers _ _ _ (listed_trans _ _ _ _ _ L1 L2)) in E.
    unfold pointers in E. rewrite lookup_fmap, Ee in E. by injection E. }
  apply wp_run with (a := S (size (menus (kst st3)))) (st' := st3); [done|]. rewrite El.
  assert (Hz : size (menus (kst st3)) = size (menus (kst st))).
  { apply (f_equal size) in HP. unfold pointers in HP. by rewrite !map_size_fmap in HP. }
  eapply wp_mono; [apply IH; [done|apply (li_mode _ _ _ L)|lia]|].
  intros r st' Hr. rewrite (listed_names _ _ _ _ L) in Hr.
  cbn [omap list_omap]. eapply prints_trans; [exact L1|].
  rewrite <- (entry_name_static _ _ m (li_static _ _ _ L1)).
  replace (match entry_name (kst st1) m with Some y => y :: omap (entry_name (kst st)) (preorder c) | None => omap (entry_name (kst st)) (preorder c) end)
    with (option_list (entry_name (kst st1) m) ++ omap (entry_name (kst st)) (preorder c)) by (by destruct (entry_name _ m)).
  eapply prints_then; [exact Hp2|]. by eapply prints_trans.
Qed.

(** The entries of a list, whose entries are among those of the tree. *)
Lemma check_forest F f : forall pp n k st, tree_of (pointers (kst st)) F -> lists (mode st) ->
  seg (pointers (kst st)) pp f None -> NoDup (preorder f) -> (forall m, m ∈ preorder f -> m ∈ preorder F) ->
  (depth f <= n)%nat -> (length (preorder f) <= k)%nat ->
  wp (each_entry (check_at n) k (first f)) (prints (omap (entry_name (kst st)) (preorder f)) st) st.
Proof.
  induction f as [|m c IHc r IHr]; intros pp n k st Ht Hm Hs N Hin Hn Hk.
  { destruct k; apply prints_nil, listed_refl. }
  destruct Hs as (E & Hc & Hr). cbn [preorder length depth] in *. rewrite length_app in Hk.
  apply NoDup_cons in N as [_ N]. apply NoDup_app in N as (Nc & _ & Nr).
  destruct n as [|n]; [lia|]. destruct k as [|k]; [lia|]. cbn [each_entry first].
  pose proof (seg_size _ _ _ _ Hc Nc) as Hz. unfold pointers in Hz. rewrite map_size_fmap in Hz.
  apply wp_cbind. eapply wp_mono.
  { apply (check_node F n m c pp (first_or r None)); [done|done|right; apply Hin; by left|done|done|].
    intros k' st' HP HM Hk'. apply (IHc (Some m)); rewrite ?HP, ?HM; try done; [|lia].
    intros y Hy. apply Hin. right. apply elem_of_app. by left. }
  intros q st1 P1. destruct P1 as [-> P1]. assert (Hp1 : prints (omap (entry_name (kst st)) (m :: preorder c)) st (Returned tt) st1) by done.
  destruct P1 as (ns & L1 & _). cbn iota. apply wp_kern; [apply wp_any_get_menu|keep|].
  intros e st2 L2 [Ee _]%run_get_menu.
  assert (L : listed ns st st2) by (rewrite <- (app_nil_r ns); by eapply listed_trans).
  pose proof (listed_pointers _ _ _ L) as HP.
  assert (El : m_next e = first r).
  { rewrite <- (listed_pointers _ _ _ L1) in E.
    unfold pointers in E. rewrite lookup_fmap, Ee in E. injection E as _ _ E. by rewrite E, first_or_None. }
  rewrite El. eapply wp_mono.
  { apply (IHr pp (S n) k st2); rewrite ?HP; try done; [by rewrite (li_mode _ _ _ L)| |lia|lia].
    intros y Hy. apply Hin. right. apply elem_of_app. by right. }
  intros q st' Hq. rewrite (listed_names _ _ _ _ L) in Hq.
  change (m :: preorder c ++ preorder r) with ((m :: preorder c) ++ preorder r). rewrite omap_app.
  eapply prints_then; [exact Hp1|]. by eapply prints_trans.
Qed.

End Listing.

Lemma update_prints CONFIG_ tty_stdio rounds g F n d st : tree_of (pointers (kst st)) F -> lists (mode st) -> (length (preorder F) < n)%nat ->
  wp (update CONFIG_ tty_stdio rounds n g (S d)) (prints CONFIG_ (omap (entry_name (kst st)) (rootmenu :: preorder F)) st) st.
Proof.
  intros Ht Hm Hn. cbn [update]. eapply wp_run; [done|]. destruct n as [|n]; [lia|].
  destruct Ht as [Hs N]. pose proof Hs as (E & Hc & _). pose proof N as [_ Nf]%NoDup_cons.
  pose proof (seg_size _ _ _ _ Hc Nf) as Hz. unfold pointers in Hz. rewrite map_size_fmap in Hz.
  apply wp_cbind. eapply wp_mono.
  { apply (check_node CONFIG_ (place_in g) tty_stdio rounds F n rootmenu F None None (set_cnt 0 st)); [done|done|by left|done|done|].
    intros k st' HP HM Hk. apply (check_forest CONFIG_ (place_in g) tty_stdio rounds F F (Some rootmenu)); rewrite ?HP, ?HM; try done.
    pose proof (depth_length F). lia. }
  cbn beta. intros q st1 (-> & ns & L & Sub). cbn iota. eapply wp_run; [done|].
  assert (mode st1 = mode st) as -> by apply (li_mode _ _ _ _ L).
  rewrite (bool_decide_eq_false_2 (_ ∉ _)); [|intros H; apply H; destruct Hm as [-> | ->]; set_solver].
  rewrite andb_false_r. split; [done|]. exists ns. split; [by destruct L|done].
Qed.


(** ** Reading a configuration keeps the entries *)

Section Reading.
Context (CONFIG_ : string) (getenv zconf_fopen : string -> option string) (sym_defconfig_list : option symref).
Abbreviation P := (preserves layout).

Lemma layout_mod_sym s f : P (mod_sym s f).
Proof. unfold mod_sym. keep. Qed.
#[local] Hint Resolve layout_mod_sym : keep.
Lemma layout_or_flags s f : P (or_flags s f).
Proof. apply layout_mod_sym. Qed.
Lemma layout_and_not_flags s f : P (and_not_flags s f).
Proof. apply layout_mod_sym. Qed.
#[local] Hint Resolve layout_or_flags layout_and_not_flags : keep.
Lemma layout_new h n f : P (sym_new h n f).
Proof. unfold sym_new. keep. Qed.
#[local] Hint Resolve layout_new : keep.
Lemma layout_lookup n f : P (sym_lookup n f).
Proof. unfold sym_lookup. keep. Qed.
Lemma layout_find n : P (sym_find n).
Proof. unfold sym_find. keep. Qed.
Lemma layout_warning t : P (conf_warning t).
Proof. unfold conf_warning. keep. Qed.
Lemma layout_unless d t : P (warn_unless_auto d t).
Proof. unfold warn_unless_auto. keep. apply layout_warning. Qed.
#[local] Hint Resolve layout_lookup layout_find layout_warning layout_unless : keep.
Lemma layout_def_tri s d t : P (set_def_tri s d t).
Proof. unfold set_def_tri. keep. Qed.
Lemma layout_def_text s d t : P (set_def_text s d t).
Proof. unfold set_def_text. keep. Qed.
#[local] Hint Resolve layout_def_tri layout_def_text : keep.
Lemma layout_quoted s d t : P (set_quoted s d t).
Proof. unfold set_quoted. keep. Qed.
#[local] Hint Resolve layout_quoted : keep.
Lemma layout_set_val s d t : P (conf_set_sym_val s d t).
Proof. unfold conf_set_sym_val. keep. Qed.
Lemma layout_line_symbol d f n : P (line_symbol d f n).
Proof. unfold line_symbol, sym_add_change_count. keep. Qed.
Lemma layout_reassign d s : P (warn_reassign d s).
Proof. unfold warn_reassign. keep. Qed.
Lemma layout_in_choice d s : P (set_in_choice d s).
Proof. unfold set_in_choice. keep. Qed.
#[local] Hint Resolve layout_set_val layout_line_symbol layout_reassign layout_in_choice : keep.
Lemma layout_read_line d l : P (KConf.read_line CONFIG_ d l).
Proof. unfold KConf.read_line. keep. Qed.
#[local] Hint Resolve layout_read_line : keep.
Lemma layout_read_lines n d t : P (read_lines CONFIG_ n d t).
Proof. revert t. induction n as [|n IH]; intros t; cbn [read_lines]; keep. Qed.
Lemma layout_reset d s : P (reset_symbol d s).
Proof. unfold reset_symbol. keep. Qed.
#[local] Hint Resolve layout_read_lines layout_reset : keep.
Lemma layout_load d t : P (conf_load CONFIG_ d t).
Proof. unfold conf_load. keep. Qed.
#[local] Hint Resolve layout_load : keep.
Lemma layout_expand n r t : P (conf_expand_loop n r t).
Proof. revert r t. induction n as [|n IH]; intros r t; cbn [conf_expand_loop]; keep. Qed.
#[local] Hint Resolve layout_expand : keep.
Lemma layout_default ps : P (open_default zconf_fopen ps).
Proof. induction ps; cbn [open_default]; unfold conf_expand_value; keep. Qed.
#[local] Hint Resolve layout_default : keep.
Lemma layout_read_simple n d : P (conf_read_simple CONFIG_ getenv zconf_fopen sym_defconfig_list n d).
Proof. unfold conf_read_simple, sym_add_change_count. keep. Qed.
Lemma layout_unsaved : P count_unsaved.
Proof. unfold count_unsaved. keep. Qed.
#[local] Hint Resolve layout_read_simple layout_unsaved : keep.
Lemma layout_check_saved s : P (check_saved s).
Proof. unfold check_saved. keep. Qed.
Lemma layout_drop s : P (drop_value s).
Proof. unfold drop_value. keep. Qed.
#[local] Hint Resolve layout_check_saved layout_drop : keep.
Lemma layout_read n : P (conf_read CONFIG_ getenv zconf_fopen sym_defconfig_list n).
Proof. unfold conf_read, sym_set_change_count, sym_add_change_count. keep. Qed.
End Reading.

(** ** The program *)

Section Program.
Context (CONFIG_ : string) (tty_stdio : bool) (rounds d : nat) (progname : string)
  (sec usec : Z) (getenv : string -> option string) (release : string)
  (fopen : string -> option string) (reach : nat) (exists_file : string -> bool) (can_open is_dir : string -> bool) (can_rename : string -> string -> bool)
  (pid : Z) (open_touch : string -> open_result) (reopen stat_ok mkdir_ok chdir_ok : string -> bool)
  (rand : Z -> nat -> list Z).
Abbreviation main := (conf_main CONFIG_ tty_stdio rounds d progname sec usec getenv release fopen reach exists_file
  can_open is_dir can_rename pid open_touch reopen stat_ok mkdir_ok chdir_ok rand).

Lemma run_cbind {A B} (m : CM A) (f : A -> CM B) st r st' : (m ≫= f) st = Ok (Returned r) st' ->
  exists a st1, m st = Ok (Returned a) st1 /\ f a st1 = Ok (Returned r) st'.
Proof. unfold mbind, EM_bind. destruct (m st) as [[a|n] st1| |]; [eauto|done..]. Qed.
Lemma run_kern {A} (m : KM A) st r st' : kern m st = Ok (Returned r) st' ->
  exists k, m (kst st) = Ok r k /\ st' = set_kst k st.
Proof. unfold kern. destruct (m (kst st)) as [a k| |]; [|done..]. intros [= -> <-]. eauto. Qed.

Lemma kern_ok {A} (m : KM A) st a k : m (kst st) = Ok a k -> kern m st = Ok (Returned a) (set_kst k st).
Proof. unfold kern. by intros ->. Qed.

(** The file can be opened, its text is that of statements, and the parser may go as
    far as they do. *)
Record written (file : string) (t : option string) (ss : stmts) : Prop := {
  wr_text : fopen file = Some (file_text t ss);
  wr_name : no_char "$" file = true;
  wr_printable : printable t ss = true;
  wr_cost : (cost (title_items t ++ stmt_items ss) + 2 <= reach)%nat;
}.
Lemma written_parsed file t ss k p : written file t ss -> unread k -> conf_parse getenv release t ss (start k) = Ok true p ->
  exists g, conf_parse_file getenv fopen release reach file (unparsed k) = Ok (Returned tt) g /\ pst g = p /\ said (scn g) = ""%string.
Proof. intros [Ht Hn Hp Hc] Hu E. pose proof (file_reads getenv fopen release reach file t ss k Hu Ht Hn Hp Hc) as H. by rewrite E in H. Qed.

(** From the options to the loop of [main] in a mode that lists. *)
Abbreviation read_config := (conf_read CONFIG_ getenv (zconf_fopen getenv fopen)).
Lemma listing_main m file mm ss st p b k : lists m -> written file mm ss -> unread (kst st) ->
  conf_parse getenv release mm ss (start (kst st)) = Ok true p ->
  read_config (sym_defconfig_list p) None (heap p) = Ok b k ->
  exists g, main [Opt m None] (Some file) st =
  (update CONFIG_ tty_stdio rounds d g d;;
   write_result CONFIG_ getenv fopen can_open is_dir can_rename pid open_touch reopen stat_ok mkdir_ok chdir_ok
     g no_settings None) (set_kst k (set_mode m st)).
Proof.
  intros Hm Hw Hu Hp Hr. destruct (written_parsed _ _ _ _ _ Hw Hu Hp) as (g & Eg & Egp & Egs). exists g. unfold conf_main.
  rewrite (erun _ _ _ no_settings (set_mode m st)) by (by destruct Hm as [-> | ->]).
  unfold run_file. rewrite (erun _ _ _ g (set_kst (heap p) (set_mode m st))).
  2:{ unfold parse_file. rewrite erun_get. change (kst (set_mode m st)) with (kst st). rewrite Eg, Egs, Egp.
      unfold mbind, EM_bind, printf, emodify, add_out. cbn. rewrite app_nil_s. by destruct st. }
  unfold run_parsed. cbn [sync_kconfig no_settings andb].
  rewrite (erun _ _ _ None (set_kst k (set_mode m st))).
  2:{ unfold read_configuration. rewrite erun_get.
      rewrite <- Egp in Hr at 1.
      pose proof (erun _ (fun _ => mret (@None string)) _ _ _ (kern_ok _ (set_kst (heap p) (set_mode m st)) _ _ Hr)) as E.
      by destruct Hm as [-> | ->]. }
  rewrite (erun _ _ _ _ _ (kern_ok conf_get_changed (set_kst k (set_mode m st)) _ k eq_refl)). cbn [andb].
  destruct Hm as [-> | ->]; reflexivity.
Qed.
(** The loop of [main] ends, having printed names of entries, and calculated values. *)
Lemma listing_run g m mm ss st p b k : lists m -> unread (kst st) -> (entries ss < d)%nat ->
  conf_parse getenv release mm ss (start (kst st)) = Ok true p ->
  read_config (sym_defconfig_list p) None (heap p) = Ok b k ->
  wp (update CONFIG_ tty_stdio rounds d g d)
     (prints CONFIG_ (omap (entry_name k) (seq 0 (S (entries ss)))) (set_kst k (set_mode m st))) (set_kst k (set_mode m st)).
Proof.
  intros Hm Hu Hd Hp Hr. destruct (conf_parse_tree _ _ _ _ _ _ Hu Hp) as (f & Ht & Hf). rewrite menu_tree_of in Ht.
  assert (E : pointers k = pointers (heap p)) by (by rewrite !layout_pointers, (layout_read _ _ _ _ _ _ _ _ Hr)).
  destruct d as [|d']; [lia|]. cbn [seq]. rewrite <- Hf.
  apply (update_prints _ _ _ _ f _ _ (set_kst k (set_mode m st))); [cbn; by rewrite E|done|]. rewrite Hf, length_seq. lia.
Qed.

Lemma listing_names k k' (l : list menuref) : static k' = static k -> omap (entry_name k') l = omap (entry_name k) l.
Proof. intros H. induction l as [|m l IH]; [done|]. cbn. by rewrite IH, (entry_name_static _ _ m H). Qed.

Lemma wp_ended {S A} (m : PM S A) Q st : wp m Q st -> m st <> NoFuel /\ forall a st', m st = Ok a st' -> Q a st'.
Proof. unfold wp. destruct (m st); [|done..]. intros H. split; [done|]. by intros a' st' [= <- <-]. Qed.

(** C17. [conf --listnewconfig] on the text of an accepted file ends with status 0: it reads no
    answer and writes no file; what it prints are names of symbols of the file, one to
    a line, each entry at most once, in the order of the file. *)
Theorem listnewconfig_lists file mm ss st p b k : written file mm ss -> unread (kst st) ->
  (entries ss < d)%nat -> conf_parse getenv release mm ss (start (kst st)) = Ok true p ->
  read_config (sym_defconfig_list p) None (heap p) = Ok b k ->
  main [Opt listnewconfig None] (Some file) st <> NoFuel /\
  forall r st', main [Opt listnewconfig None] (Some file) st = Ok r st' ->
    r = Returned 0 /\ stdin st' = stdin st /\ files st' = files st /\
    exists ns, stdout st' = stdout st +:+ listing CONFIG_ ns /\
               ns `sublist_of` omap (entry_name (kst st')) (seq 0 (S (entries ss))).
Proof.
  intros Hw Hu Hd Hp Hr. apply wp_ended. unfold wp.
  destruct (listing_main listnewconfig _ _ _ _ _ _ _ ltac:(by left) Hw Hu Hp Hr) as [g ->].
  apply wp_cbind. eapply wp_mono; [by eapply listing_run; [left|..]|].
  intros q st2 (-> & ns & L & Sub). unfold write_result. eapply wp_run; [done|]. cbn [sync_kconfig no_settings].
  rewrite (li_mode _ _ _ _ L). cbn [mode set_kst set_mode]. split_and!; try done.
  - by rewrite (li_stdin _ _ _ _ L).
  - by rewrite (li_files _ _ _ _ L).
  - exists ns. split; [by rewrite (li_stdout _ _ _ _ L)|]. by rewrite (listing_names _ _ _ (li_static _ _ _ _ L)).
Qed.

(** Writing the configuration neither reads nor prints. *)
Lemma write_config_silent st r st' : write_config CONFIG_ getenv can_open is_dir can_rename pid st = Ok r st' ->
  (exists ok, r = Returned ok) /\ stdin st' = stdin st /\ stdout st' = stdout st.
Proof.
  unfold write_config, mbind, EM_bind, kern, elift, emodify.
  destruct (menu_get_prompt rootmenu (kst st)) as [[t|] k1| |]; [|done..].
  destruct (conf_write _ _ _ _ _ _ _ _ _) as [[[ok ops]|] k2| |]; [| |done..]; intros [= <- <-]; eauto.
Qed.

(** [conf --olddefconfig] on the text of an accepted file asks nothing: the walk over the
    menus ends, and the program reads no answer and prints nothing to the standard
    output, whether the configuration can be written (status 0) or not (status 1). *)
Theorem olddefconfig_silent file mm ss st p b k : written file mm ss -> unread (kst st) ->
  (entries ss < d)%nat -> conf_parse getenv release mm ss (start (kst st)) = Ok true p ->
  read_config (sym_defconfig_list p) None (heap p) = Ok b k ->
  (forall g, update CONFIG_ tty_stdio rounds d g d (set_kst k (set_mode olddefconfig st)) <> NoFuel) /\
  forall r st', main [Opt olddefconfig None] (Some file) st = Ok r st' ->
    (r = Returned 0 \/ r = Exited 1) /\ stdin st' = stdin st /\ stdout st' = stdout st.
Proof.
  intros Hw Hu Hd Hp Hr.
  pose proof (fun g => wp_ended _ _ _ (listing_run g olddefconfig mm ss st p b k ltac:(by right) Hu Hd Hp Hr)) as H.
  split; [intros g; apply H|]. intros r st'.
  destruct (listing_main olddefconfig _ _ _ _ _ _ _ ltac:(by right) Hw Hu Hp Hr) as [g ->]. destruct (H g) as [_ HQ]. clear H. unfold mbind at 1, EM_bind at 1.
  destruct (update _ _ _ _ _ _ _) as [q st2| |]; [|done..]. destruct (HQ q st2 eq_refl) as (-> & ns & L & _).
  unfold write_result, mbind at 1, EM_bind at 1, eget. cbn [sync_kconfig no_settings].
  rewrite (li_mode _ _ _ _ L). cbn [mode set_kst set_mode]. unfold mbind at 1, EM_bind at 1.
  assert (Hs : stdin st2 = stdin st /\ stdout st2 = stdout st).
  { rewrite (li_stdin _ _ _ _ L), (li_stdout _ _ _ _ L), (li_none _ _ _ _ L eq_refl). cbn. by rewrite app_nil_s. }
  destruct (write_config _ _ _ _ _ _ _) as [q st3| |] eqn:Ew; [|done..].
  destruct (write_config_silent _ _ _ Ew) as ([ok ->] & Hi & Ho). rewrite <- Hi, <- Ho in Hs.
  destruct ok; intros [= <- <-]; cbn; tauto.
Qed.
End Program.
