(* ===== verification/ConfAsk.v ===== *)
(** The questions of conf.c: which line of the input answers one, what the answer
    does, and when a question is asked for ever. *)
From S2P Require Import Prelude CText KExpr KSym KSymFacts KSymText KConf KConfFacts KHelp KSymKeep KMenu KParse Conf.
Local Open Scope list_scope.

(** ** Lines of the input *)

(** A line that fits the buffer. *)
Definition is_line (l : string) : Prop :=
  exists t, l = t +:+ NL /\ no_char nl t = true /\ (String.length t < 127)%nat.
Lemma read_line_app n t rest : no_char nl t = true -> (String.length t < n)%nat ->
  fgets n (t +:+ NL +:+ rest) = (t +:+ NL, rest).
Proof.
  revert t. induction n as [|n IH]; intros t Ht Hn; [lia|]. destruct t as [|c t]; [done|].
  rewrite no_char_cons in Ht. apply andb_true_iff in Ht as [Hc Ht]. apply negb_true_iff in Hc.
  change (String c t +:+ NL +:+ rest) with (String c (t +:+ NL +:+ rest)). cbn [fgets String.length] in *. rewrite Hc.
  by rewrite (IH t Ht) by lia.
Qed.
Lemma read_is_line l rest : is_line l -> fgets 127 (l +:+ rest) = (l, rest).
Proof. intros (t & -> & Ht & Hn). rewrite <- app_assoc_s. by apply read_line_app. Qed.

(** Whatever is read is the front of the input, and never nothing while there is
    input. *)
Lemma read_line_split n s a b : fgets n s = (a, b) -> a +:+ b = s.
Proof.
  revert s a b. induction n as [|n IH]; intros s a b; [by intros [= <- <-]|].
  destruct s as [|c s]; cbn [fgets]; [by intros [= <- <-]|]. destruct (char_eqb c nl).
  - by intros [= <- <-].
  - destruct (fgets n s) as [x y] eqn:E. intros [= <- <-]. cbn. f_equal. by apply IH.
Qed.
Lemma read_line_shorter n s a b : fgets (S n) s = (a, b) -> s <> "" -> (String.length b < String.length s)%nat.
Proof.
  intros H Hs. pose proof (read_line_split _ _ _ _ H) as E. rewrite <- E, length_app_s. clear E.
  destruct s as [|c s]; [done|]. cbn [fgets] in H. destruct (char_eqb c nl).
  - injection H as <- <-. cbn. lia.
  - destruct (fgets n s) as [x y]. injection H as <- <-. cbn. lia.
Qed.

(** ** Routines that return *)

(** The routine returns, with a result and a state that satisfy [Q]. *)
Definition returns {A} (m : CM A) (Q : A -> cstate -> Prop) (st : cstate) : Prop :=
  match m st with Ok (Returned a) st' => Q a st' | _ => False end.
Lemma returns_bind {A B} (m : CM A) (f : A -> CM B) Q st :
  returns m (fun a st' => returns (f a) Q st') st -> returns (m ≫= f) Q st.
Proof. unfold returns, mbind, EM_bind. by destruct (m st) as [[a|n] st'| |]. Qed.
Lemma returns_mono {A} (m : CM A) (Q Q' : A -> cstate -> Prop) st :
  returns m Q st -> (forall a st', Q a st' -> Q' a st') -> returns m Q' st.
Proof. unfold returns. destruct (m st) as [[a|n] st'| |]; auto. Qed.
Lemma returns_Ok {A} (m : CM A) Q st : returns m Q st -> exists a st', m st = Ok (Returned a) st' /\ Q a st'.
Proof. unfold returns. destruct (m st) as [[a|n] st'| |]; [eauto|done..]. Qed.

Lemma returns_unit (m : CM unit) (Q : cstate -> Prop) st :
  returns m (fun _ => Q) st -> exists st', m st = Ok (Returned tt) st' /\ Q st'.
Proof. intros H. apply returns_Ok in H as ([] & st' & ? & ?). eauto. Qed.

(** [st'] differs from [st] in what was printed. *)
Record talked (st st' : cstate) : Prop := {
  ta_kst : kst st' = kst st;
  ta_mode : mode st' = mode st;
  ta_stdin : stdin st' = stdin st;
  ta_line : line st' = line st;
  ta_valid : valid_stdin st' = valid_stdin st;
  ta_root : rootEntry st' = rootEntry st;
  ta_files : files st' = files st;
  ta_indent : indent st' = indent st;
}.
#[export] Instance talked_refl : Reflexive talked.
Proof. by split. Qed.
#[export] Instance talked_trans : Transitive talked.
Proof. intros a b c [] []. split; congruence. Qed.

(** A routine that only prints. *)
Definition talks {A} (m : CM A) (P : A -> Prop) (st : cstate) : Prop := returns m (fun a st' => talked st st' /\ P a) st.
Lemma talks_then {A B} (m : CM A) P (f : A -> CM B) Q st : talks m P st ->
  (forall a st', talked st st' -> P a -> returns (f a) Q st') -> returns (m ≫= f) Q st.
Proof. intros Hm Hf. apply returns_bind. eapply returns_mono; [exact Hm|]. cbn beta. intros a st' [? ?]. by apply Hf. Qed.
Lemma talks_printf t st : talks (printf t) any st.
Proof. by repeat split. Qed.
Lemma talks_margin st : talks margin any st.
Proof. by repeat split. Qed.
Lemma talks_when b (m : CM unit) st : talks m any st -> talks (ewhen b m) any st.
Proof. destruct b; [done|]. by repeat split. Qed.
Lemma talks_kern {A} (m : KM A) a st : m (kst st) = Ok a (kst st) -> talks (kern m) (fun x => x = a) st.
Proof. intros E. unfold talks, returns, kern. rewrite E. split; [|done]. by split. Qed.

(** [st'] is [st] behind the reading of the line [l], with [rest] still unread. *)
Record reads (l rest : string) (st st' : cstate) : Prop := {
  re_kst : kst st' = kst st;
  re_mode : mode st' = mode st;
  re_stdin : stdin st' = rest;
  re_line : line st' = until_nul l;
  re_valid : valid_stdin st' = valid_stdin st;
  re_root : rootEntry st' = rootEntry st;
  re_files : files st' = files st;
  re_indent : indent st' = indent st;
}.
Lemma talked_reads l rest a b c : talked a b -> reads l rest b c -> reads l rest a c.
Proof. intros [] []. split; congruence. Qed.
Lemma reads_talked l rest a b c : reads l rest a b -> talked b c -> reads l rest a c.
Proof. intros [] []. split; congruence. Qed.

(** The modes in which the question of a symbol is put. *)
Definition will_ask (y : symbol) (st : cstate) : Prop :=
  match mode st with
  | oldaskconfig => True
  | oldconfig | silentoldconfig => sym_has_value y = false /\ valid_stdin st = true
  | _ => False
  end.
Lemma will_ask_talked y st st' : talked st st' -> will_ask y st -> will_ask y st'.
Proof. intros []. unfold will_ask. by rewrite ta_mode0, ta_valid0. Qed.

(** ** Answers *)

(** What the lines stand for, from the prompt [N/m/y]: a letter or a word in either
    case, and nothing for the value as it is. *)
Inductive stands_for (old : tristate) : string -> tristate -> Prop :=
| says_no t : t ∈ ["n"; "N"; "no"; "No"] -> stands_for old t Tno
| says_mod t : t ∈ ["m"; "M"] -> stands_for old t Tmod
| says_yes t : t ∈ ["y"; "Y"; "yes"; "Yes"] -> stands_for old t Tyes
| says_old : stands_for old "" old.
(** A text that stands for nothing, and asks for no help. *)
Definition no_answer (t : string) : Prop :=
  (forall old v, ~ stands_for old t v) /\ forall u, t <> String "?" u.

Lemma stands_answer old t v : stands_for old t v -> sym_answer t old = Set_to v.
Proof. intros []; [..|done]; repeat (apply elem_of_cons in H as [->|H]; [done|]); by apply elem_of_nil in H. Qed.
Lemma is_letter_cases lo up c : is_letter lo up c = true -> c = lo \/ c = up.
Proof. unfold is_letter. destruct (char_eqb_spec c lo); [by left|]. destruct (char_eqb_spec c up); [by right|done]. Qed.
Lemma no_answer_again old t : no_answer t -> sym_answer t old = Again.
Proof.
  intros [Hn Hq]. unfold sym_answer. destruct t as [|c t]; [by destruct (Hn old old); constructor|].
  assert (Hin : forall (l : list string) v, (forall u, u ∈ l -> stands_for old u v) -> String c t ∉ l)
    by (intros l v Hl Hc; exact (Hn old v (Hl _ Hc))).
  pose proof (Hin _ Tno (says_no old)) as H1. pose proof (Hin _ Tmod (says_mod old)) as H2. pose proof (Hin _ Tyes (says_yes old)) as H3.
  destruct (is_letter "n" "N" c) eqn:E; [|clear H1 E; destruct (is_letter "m" "M" c) eqn:E;
    [|clear H2 E; destruct (is_letter "y" "Y" c) eqn:E]].
  - destruct (String.eqb_spec t "") as [->|]; [exfalso; apply H1; destruct (is_letter_cases _ _ _ E) as [-> | ->]; set_solver|].
    destruct (String.eqb_spec t "o") as [->|]; [exfalso; apply H1; destruct (is_letter_cases _ _ _ E) as [-> | ->]; set_solver|done].
  - destruct (String.eqb_spec t "") as [->|]; [exfalso; apply H2; destruct (is_letter_cases _ _ _ E) as [-> | ->]; set_solver|done].
  - destruct (String.eqb_spec t "") as [->|]; [exfalso; apply H3; destruct (is_letter_cases _ _ _ E) as [-> | ->]; set_solver|].
    destruct (String.eqb_spec t "es") as [->|]; [exfalso; apply H3; destruct (is_letter_cases _ _ _ E) as [-> | ->]; set_solver|done].
  - destruct (char_eqb_spec c "?") as [->|]; [by destruct (Hq t)|done].
Qed.

Lemma no_answer_of t : (forall old, sym_answer t old = Again) -> no_answer t.
Proof.
  intros H. split; [intros old v Hs%stands_answer; by rewrite H in Hs|]. intros u ->. by specialize (H Tno).
Qed.

(** The line [l] is the text [t] with blanks around it. *)
Definition blanks (s : string) : Prop := string_all isspace s = true.
Definition no_blank_ends (t : string) : Prop :=
  forall c u, t = String c u \/ t = u +:+ str1 c -> isspace c = false.
Definition typed (l t : string) : Prop :=
  exists a b, l = a +:+ t +:+ b +:+ NL /\ blanks a /\ blanks b /\ no_blank_ends t /\ is_line l /\ no_char (chr 0) l = true.

Lemma until_nul_id l : no_char (chr 0) l = true -> until_nul l = l.
Proof.
  induction l as [|c l IH]; [done|]. rewrite no_char_cons. intros [Hc Hl]%andb_true_iff. cbn [until_nul].
  destruct (Z.eqb_spec (code c) 0) as [E|_]; [|by rewrite IH].
  apply negb_true_iff in Hc. rewrite <- (chr_code c), E, char_eqb_refl in Hc. done.
Qed.
Lemma strip_front_blanks a s : blanks a -> strip_front (a +:+ s) = strip_front s.
Proof. unfold blanks. induction a as [|c a IH]; [done|]. cbn. intros [-> Ha]%andb_true_iff. by apply IH. Qed.
Lemma strip_back_blanks b : blanks b -> strip_back b = "".
Proof. unfold blanks. induction b as [|c b IH]; [done|]. cbn. intros [Hc Hb]%andb_true_iff. by rewrite IH, Hc. Qed.
Lemma strip_back_app t b : blanks b -> (forall c u, t = u +:+ str1 c -> isspace c = false) -> strip_back (t +:+ b) = t.
Proof.
  intros Hb. induction t as [|c t IH]; intros Ht; [by apply strip_back_blanks|]. change (String c t +:+ b) with (String c (t +:+ b)).
  cbn [strip_back]. rewrite IH by (intros d u ->; by apply (Ht d (String c u))).
  destruct t as [|d t]; [|done]. by rewrite (Ht c "").
Qed.
Lemma strip_typed l t : typed l t -> strip (until_nul l) = t.
Proof.
  intros (a & b & -> & Ha & Hb & Ht & _ & H0). rewrite until_nul_id by done. unfold strip. rewrite strip_front_blanks by done.
  assert (Hbn : blanks (b +:+ NL)) by (unfold blanks in *; by rewrite string_all_app, Hb).
  destruct t as [|c t].
  - change (strip_back (strip_front (b +:+ NL)) = ""). rewrite <- (app_nil_s (b +:+ NL)). by rewrite strip_front_blanks.
  - change (String c t +:+ b +:+ NL) with (String c (t +:+ (b +:+ NL))). cbn [strip_front].
    rewrite (Ht c t) by (by left). apply (strip_back_app (String c t)); [done|]. intros d u E. apply (Ht d u). by right.
Qed.
Lemma typed_of a t b : blanks a -> blanks b -> string_all (fun c => negb (isspace c)) t = true ->
  no_char nl (a +:+ t +:+ b) = true -> no_char (chr 0) (a +:+ t +:+ b) = true -> (String.length (a +:+ t +:+ b) < 127)%nat ->
  typed (a +:+ t +:+ b +:+ NL) t.
Proof.
  intros Ha Hb Ht Hn H0 Hl. exists a, b. split_and!; [done..| | |].
  - intros c u [->| ->]; [|rewrite string_all_app in Ht]; apply andb_true_iff in Ht.
    + destruct Ht as [Ht _]. by apply negb_true_iff in Ht.
    + destruct Ht as [_ Ht]. cbn in Ht. rewrite andb_true_r in Ht. by apply negb_true_iff in Ht.
  - exists (a +:+ t +:+ b). split; [by rewrite <- !app_assoc_s|done].
  - unfold no_char in *. rewrite !string_all_app in *. repeat (apply andb_true_iff in H0 as [? H0]). by repeat (apply andb_true_iff; split).
Qed.
Lemma typed_is_line l t : typed l t -> is_line l.
Proof. by intros (a & b & _ & _ & _ & _ & ? & _). Qed.

(** The value that [s] has by the user. *)
Definition given_tri (s : symref) (v : tristate) (k : kstate) : Prop :=
  exists y, syms k !! s = Some y /\ sym_has_value y = true /\ tri (def_user y) = v.
Definition given_text (s : symref) (t : string) (k : kstate) : Prop :=
  exists y l, syms k !! s = Some y /\ sym_has_value y = true /\ val (def_user y) = VStr l t.

Definition textual (y : symbol) : Prop := type y = S_INT \/ type y = S_HEX \/ type y = S_STRING.

(** A value that is no number is refused, and refusing it changes nothing. *)
Lemma run_refused s y v k : syms k !! s = Some y -> type y = S_INT \/ type y = S_HEX -> sym_string_valid (type y) v = false ->
  sym_set_string_value s v k = Ok false k.
Proof.
  intros Ey Ht Hv. unfold sym_set_string_value, mbind, PM_bind. rewrite (run_get_sym s y k Ey).
  unfold sym_string_within_range, mbind, PM_bind.
  destruct Ht as [E | E]; rewrite E in *; rewrite (run_get_sym s y k Ey), E, Hv; done.
Qed.

(** The texts that are no numbers of the type: for a decimal, those that [printf]
    never writes (but [-0]), for a hexadecimal, what is not digits behind nothing or
    [0x]. *)
Definition no_number (ty : symbol_type) (t : string) : Prop :=
  match ty with
  | S_INT => t <> "-0" /\ forall z, t <> fmt_d z
  | S_HEX => forall p ds, t = p +:+ ds -> p ∈ [""; "0x"; "0X"] -> ds = "" \/ string_all isxdigit ds = false
  | _ => False
  end.
Lemma has_0x_split s : has_0x s = true -> exists x u, s = String "0" (String x u) /\ (x = "x"%char \/ x = "X"%char).
Proof.
  destruct s as [|c [|x u]]; [done..|]. cbn. intros [Hc Hx]%andb_true_iff. destruct (char_eqb_spec c "0") as [->|]; [|done].
  exists x, u. split; [done|]. by apply is_letter_cases.
Qed.
Lemma hex_valid_digits t : hex_valid t = true ->
  exists p ds, t = p +:+ ds /\ p ∈ [""; "0x"; "0X"] /\ ds <> "" /\ string_all isxdigit ds = true.
Proof.
  assert (Hd : forall u, match u with String c t => isxdigit c && string_all isxdigit t | EmptyString => false end = true ->
    u <> "" /\ string_all isxdigit u = true) by (by intros []).
  unfold hex_valid. destruct (has_0x t) eqn:E; intros H.
  - destruct (has_0x_split t E) as (x & u & -> & [-> | ->]); apply Hd in H as [? ?]; [exists "0x", u|exists "0X", u];
      (split; [done|]; split; [set_solver|done]).
  - apply Hd in H as [? ?]. exists "", t. split; [done|]. split; [set_solver|done].
Qed.
Lemma no_number_invalid ty t : no_number ty t -> (ty = S_INT \/ ty = S_HEX) /\ sym_string_valid ty t = false.
Proof.
  destruct ty; try done; cbn [no_number].
  - intros [H0 Hz]. split; [by left|]. destruct (sym_string_valid S_INT t) eqn:E; [|done].
    apply sym_string_valid_int in E as [->|[z ->]]; [done|by destruct (Hz z)].
  - intros H. split; [by right|]. destruct (sym_string_valid S_HEX t) eqn:E; [|done].
    destruct (hex_valid_digits t E) as (p & ds & -> & Hp & Hds & Hall). destruct (H p ds eq_refl Hp) as [E'|E']; [done|by rewrite E' in Hall].
Qed.
Lemma invalid_no_number ty t : ty = S_INT \/ ty = S_HEX -> sym_string_valid ty t = false -> no_number ty t.
Proof.
  intros [-> | ->] Hv; cbn [no_number].
  - split; [|intros z]; intros ->; [done|]. by rewrite (proj2 (sym_string_valid_int _)) in Hv by eauto.
  - intros p ds -> Hp. destruct (String.eqb_spec ds "") as [->|Hds]; [by left|right].
    destruct (string_all isxdigit ds) eqn:Hall; [|done]. cbn [sym_string_valid] in Hv. unfold hex_valid in Hv.
    destruct ds as [|d ds]; [done|].
    repeat (apply elem_of_cons in Hp as [->|Hp]); [|change (string_all isxdigit (String d ds) = false) in Hv; congruence..|by apply elem_of_nil in Hp].
    change ("" +:+ String d ds) with (String d ds) in Hv. destruct (has_0x (String d ds)) eqn:E;
      [|change (string_all isxdigit (String d ds) = false) in Hv; congruence].
    destruct (has_0x_split _ E) as (x & u & [= -> ->] & [-> | ->]); discriminate Hall.
Qed.
Lemma no_number_refused s y t k : syms k !! s = Some y -> no_number (type y) t -> sym_set_string_value s t k = Ok false k.
Proof. intros Ey Ht. destruct (no_number_invalid _ _ Ht) as [Hty Hv]. by eapply run_refused. Qed.
Lemma user_text_stored s t y k k' : syms k !! s = Some y -> sym_is_choice y = false -> textual y ->
  sym_set_string_value s t k = Ok true k' -> given_text s (stored_text (type y) t) k'.
Proof.
  intros E Hc Ht Hset. destruct (set_string_stores s t y k k' E Hc Ht Hset) as (w & [l Hw] & z & Ez & _ & Hz & Hd).
  cbn in Hd. subst w. by exists z, l.
Qed.

Section Questions.
Context (CONFIG_ : string) (place : menuref -> string * Z) (tty_stdio : bool) (rounds : nat).

(** What a question reads: the next line, an empty one at the end of the input. *)
Definition next_line (i : string) : string * string := if String.eqb i "" then (NL, "") else fgets 127 i.
Lemma next_is_line l rest : is_line l -> next_line (l +:+ rest) = (l, rest).
Proof.
  intros H. pose proof (read_is_line l rest H) as E. unfold next_line.
  destruct H as (t & -> & _). by destruct t.
Qed.
Lemma xfgets_reads st l rest : line st = NL -> next_line (stdin st) = (l, rest) ->
  returns xfgets (fun _ st' => reads l rest st st') st.
Proof.
  intros Hl E. unfold returns, xfgets, next_line, mbind, EM_bind, eget in *.
  destruct (String.eqb_spec (stdin st) "") as [Hn|_]; [|rewrite E; by split].
  injection E as <- <-. by split.
Qed.
Lemma askvalue_reads s y def st l rest : syms (kst st) !! s = Some y -> sym_is_changable y = true -> will_ask y st ->
  next_line (stdin st) = (l, rest) ->
  returns (conf_askvalue tty_stdio s def) (fun b st' => b = true /\ reads l rest st st') st.
Proof.
  intros Ey Hc Ha El. unfold conf_askvalue.
  eapply talks_then; [apply talks_kern; unfold get_type, mbind, PM_bind; rewrite (run_get_sym s y _ Ey); reflexivity|].
  intros ty st1 T1 _. eapply talks_then; [apply talks_kern; apply run_get_sym; by rewrite (ta_kst _ _ T1)|].
  intros y' st2 T2 ->. eapply talks_then; [apply talks_when, talks_printf|]. intros _ st3 T3 _.
  assert (T : talked st st3) by (by do 2 (etransitivity; [eassumption|])).
  apply returns_bind. cbn. rewrite Hc. cbn. set (st4 := set_line NL st3).
  assert (R : returns (xfgets;; ewhen (negb tty_stdio) (printf NL);; mret true)
                (fun b st' => b = true /\ reads l rest st st') st4).
  { apply returns_bind. eapply returns_mono; [apply (xfgets_reads st4 l rest); [done|cbn; by rewrite (ta_stdin _ _ T)]|].
    cbn beta. intros _ st5 R. eapply talks_then; [apply talks_when, talks_printf|]. intros _ st6 T6 _.
    split; [done|]. eapply reads_talked; [|done]. destruct T, R. split; cbn in *; congruence. }
  apply (will_ask_talked _ _ _ T) in Ha. unfold will_ask in Ha. apply returns_bind. cbn. unfold st4 in *. cbn in *.
  destruct (mode st3); try done; destruct Ha as [-> Hv]; apply returns_bind; unfold check_stdin;
    apply returns_bind; cbn; rewrite Hv; exact R.
Qed.

(** The entry of a symbol that can be asked for. *)
Definition entry_of (m : menuref) (s : symref) (y : symbol) (k : kstate) : Prop :=
  syms k !! s = Some y /\
  exists e p q t, menus k !! m = Some e /\ m_sym e = Some s /\ m_prompt e = Some p /\
                  prompt_prop p k = Ok q k /\ p_text q = Some t.

Lemma talks_any {A} (m : CM A) P st : talks m P st -> talks m any st.
Proof. intros H. eapply returns_mono; [exact H|]. by intros a st' [? _]. Qed.
Lemma talks_entry m s y st : entry_of m s y (kst st) -> talks (entry_sym m) (fun x => x = s) st.
Proof.
  intros (_ & e & p & q & t & Em & Es & _). apply talks_kern. unfold get_menu, mbind, PM_bind, pget, plift.
  by rewrite Em, Es.
Qed.
Lemma talks_prompt m s y st : entry_of m s y (kst st) -> talks (prompt_text m) any st.
Proof.
  intros (_ & e & p & q & t & Em & _ & Ep & Eq & Et). apply (talks_any _ (fun x => x = t)), talks_kern.
  unfold mbind, PM_bind at 1. unfold get_menu at 1, mbind, PM_bind at 1, pget, plift at 1. rewrite Em. cbn.
  unfold PM_bind, plift. rewrite Ep. fold (@mbind (PM kstate) _). rewrite Eq. by rewrite Et.
Qed.
Lemma talks_sym m s y st : entry_of m s y (kst st) -> talks (kern (get_sym s)) (fun x => x = y) st.
Proof. intros [Ey _]. apply talks_kern. by apply run_get_sym. Qed.
Lemma talks_menu m s y st : entry_of m s y (kst st) -> talks (kern (get_menu m)) any st.
Proof.
  intros (_ & e & p & q & t & Em & _). apply (talks_any _ (fun x => x = e)), talks_kern.
  unfold get_menu, mbind, PM_bind, pget, plift. by rewrite Em.
Qed.
Lemma talks_offer m s y old t st : entry_of m s y (kst st) -> talks (offer s old t) any st.
Proof.
  intros [Ey _]. unfold offer. destruct (is_tri old t); [by repeat split|].
  eapply talks_then; [apply talks_kern|].
  - unfold sym_tristate_within_range, mbind, PM_bind. rewrite (run_get_sym s y _ Ey). reflexivity.
  - intros ok st' T _. pose proof (talks_when ok (printf ("/" +:+ tri_text t)) st' (talks_printf _ _)) as H.
    eapply returns_mono; [exact H|]. intros a st2 [T2 _]. split; [by etransitivity|done].
Qed.

(** A boolean or tristate symbol; where it is [m], the modules symbol was calculated
    (its value decides which letter is printed). *)
Definition three_valued (y : symbol) (k : kstate) : Prop :=
  (type y = S_BOOLEAN \/ type y = S_TRISTATE) /\
  (tri (curr y) = Tmod -> exists ms z, modules_sym k = Some ms /\ syms k !! ms = Some z /\ has SYMBOL_VALID (flags z) = true).
Lemma run_three_valued s y k : syms k !! s = Some y -> three_valued y k -> exists t, sym_get_string_value s k = Ok t k.
Proof.
  intros Ey [Ht Hm]. unfold sym_get_string_value, sym_get_string_value_with, mbind, PM_bind.
  rewrite (run_get_sym s y k Ey). unfold sym_get_tristate_value.
  destruct (tri (curr y)); [by destruct Ht as [-> | ->]; eexists| |by destruct Ht as [-> | ->]; eexists].
  destruct (Hm eq_refl) as (ms & z & Em & Ez & Hv).
  assert (Hc : calc_modules sym_calc_value k = Ok tt k).
  { unfold calc_modules, mbind, PM_bind, pget. rewrite Em. unfold sym_calc_value. cbn [calc_fuel].
    unfold calc_body, mbind, PM_bind. by rewrite (run_get_sym ms z k Ez), Hv. }
  assert (Ht' : modules_tri k = Ok (tri (curr z)) k).
  { unfold modules_tri, mbind, PM_bind, pget, plift. by rewrite Em, (run_get_sym ms z k Ez). }
  destruct Ht as [-> | ->]; rewrite Hc, Ht'; by eexists.
Qed.

(** What is known of the entry is known behind everything printed. *)
Lemma entry_of_talked m s y st st' : talked st st' -> entry_of m s y (kst st) -> entry_of m s y (kst st').
Proof. intros T. by rewrite (ta_kst _ _ T). Qed.

(** One more routine that only prints; [T]: all that was printed so far. *)
Tactic Notation "talk" tactic(tac) hyp(T) :=
  eapply talks_then; [tac|];
  let x := fresh "x" in let st' := fresh "st" in let T' := fresh "T" in let P := fresh "P" in
  intros x st' T' P; cbn beta in P; pose proof (transitivity T T'); clear T T'; rename select (talked _ st') into T.

Lemma sym_round m s y st l rest Q : entry_of m s y (kst st) -> sym_is_changable y = true -> three_valued y (kst st) -> will_ask y st ->
  next_line (stdin st) = (l, rest) ->
  (forall st', reads l rest st st' ->
     returns (emodify (set_line (strip (until_nul l)));;
              match sym_answer (strip (until_nul l)) (tri (curr y)) with
              | Set_to v =>
                  ok ← kern (sym_set_tristate_value s v);
                  if ok : bool then mret true else print_help CONFIG_ place m;; mret false
              | Tri_help => print_help CONFIG_ place m;; mret false
              | Again => mret false
              end) Q st') ->
  returns (conf_sym_round CONFIG_ place tty_stdio m s) Q st.
Proof.
  intros He Hc H2 Ha El HQ. unfold conf_sym_round. assert (T : talked st st) by done.
  talk (eapply talks_prompt, entry_of_talked; eassumption) T.
  talk (apply talks_margin) T. talk (apply talks_printf) T.
  talk (eapply talks_sym, entry_of_talked; eassumption) T. subst.
  talk (destruct (name _); [apply talks_printf|by repeat split]) T.
  talk (apply talks_printf) T. talk (apply talks_printf) T.
  do 3 (talk (eapply talks_offer, entry_of_talked; eassumption) T).
  talk (eapply talks_menu, entry_of_talked; eassumption) T.
  talk (apply talks_when, talks_printf) T. talk (apply talks_printf) T.
  destruct (run_three_valued s y (kst st) (proj1 He) H2) as [def Hdef].
  talk (apply talks_kern; rewrite (ta_kst _ _ T); exact Hdef) T. subst.
  apply returns_bind. eapply returns_mono.
  { eapply (askvalue_reads s y); [exact (proj1 (entry_of_talked _ _ _ _ _ T He))|done|by eapply will_ask_talked|]; by rewrite (ta_stdin _ _ T). }
  cbn beta. intros b st' [-> R]. cbn [negb]. pose proof (talked_reads _ _ _ _ _ T R) as R'.
  apply returns_bind. unfold returns at 1, eget. rewrite (re_line _ _ _ _ R'). by apply HQ.
Qed.

(** Lines that are no answer, then one that is: the answer is set, and nothing behind
    its line is read. *)
Lemma sym_lines m s y v k' : forall ls n st a rest, entry_of m s y (kst st) -> sym_is_changable y = true -> three_valued y (kst st) ->
  will_ask y st -> stdin st = foldr String.append "" ls +:+ a +:+ rest -> Forall is_line ls -> is_line a ->
  Forall (fun l => sym_answer (strip (until_nul l)) (tri (curr y)) = Again) ls ->
  sym_answer (strip (until_nul a)) (tri (curr y)) = Set_to v -> sym_set_tristate_value s v (kst st) = Ok true k' ->
  (length ls < n)%nat ->
  returns (until n (conf_sym_round CONFIG_ place tty_stdio m s))
    (fun _ st' => kst st' = k' /\ stdin st' = rest /\ mode st' = mode st) st.
Proof.
  induction ls as [|l ls IH]; intros n st a rest He Hc H2 Ha Hs Hl La Hr Hv Hset Hn; (destruct n as [|n]; [lia|]); cbn [until].
  - change (stdin st = a +:+ rest) in Hs.
    apply returns_bind. eapply (sym_round m s y st a rest); try done; [rewrite Hs; by apply next_is_line|].
    intros st1 R. apply returns_bind. cbn. rewrite Hv. apply returns_bind. unfold returns at 1, kern. cbn [kst set_line].
    rewrite (re_kst _ _ _ _ R), Hset. cbn. split_and!; [done|exact (re_stdin _ _ _ _ R)|exact (re_mode _ _ _ _ R)].
  - apply Forall_cons in Hl as [Ll Hl]. apply Forall_cons in Hr as [Rl Hr]. cbn [foldr] in Hs. rewrite <- app_assoc_s in Hs.
    apply returns_bind. eapply (sym_round m s y st l (foldr String.append "" ls +:+ a +:+ rest)); try done;
      [rewrite Hs; by apply next_is_line|].
    intros st1 R. apply returns_bind. cbn. rewrite Rl. cbn.
    eapply returns_mono; [apply (IH n _ a rest); cbn; rewrite ?(re_kst _ _ _ _ R); try done|].
    + unfold will_ask in *. cbn. by rewrite (re_mode _ _ _ _ R), (re_valid _ _ _ _ R).
    + exact (re_stdin _ _ _ _ R).
    + cbn in Hn. lia.
    + cbn. intros _ st' (? & ? & ->). split_and!; try done. exact (re_mode _ _ _ _ R).
Qed.

(** C19. The question about a boolean or tristate option: the lines that stand for
    no value are passed over; the first line that stands for one, which is in range,
    makes it the user's value of the option and ends the question, and what is
    behind that line is left for the next question. *)
Theorem conf_sym_answered m s y v k' ls st a t rest : entry_of m s y (kst st) -> sym_is_changable y = true ->
  three_valued y (kst st) -> sym_is_choice y = false ->
  will_ask y st -> stdin st = foldr String.append "" ls +:+ a +:+ rest ->
  Forall (fun l => exists u, typed l u /\ no_answer u) ls -> typed a t -> stands_for (tri (curr y)) t v ->
  sym_set_tristate_value s v (kst st) = Ok true k' -> (length ls < rounds)%nat ->
  exists st', conf_sym CONFIG_ place tty_stdio rounds m st = Ok (Returned tt) st' /\
              kst st' = k' /\ given_tri s v k' /\ stdin st' = rest /\ mode st' = mode st.
Proof.
  intros He Hc H2 Hch Ha Hs Hls La Hv Hset Hn.
  assert (Hu : given_tri s v k').
  { destruct (set_tristate_stores s v y _ k' (proj1 He) Hch Hset) as (w & Hw & z & Ez & _ & Hz & Hd). cbn in Hd. subst w. by exists z. }
  destruct (returns_unit (conf_sym CONFIG_ place tty_stdio rounds m)
    (fun st' => kst st' = k' /\ stdin st' = rest /\ mode st' = mode st) st) as (st' & E & Hk & Hr & Hm); [|by exists st'].
  unfold conf_sym. assert (T : talked st st) by done. talk (eapply talks_entry, entry_of_talked; eassumption) T. subst.
  eapply returns_mono; [eapply (sym_lines m s y v k' ls rounds _ a rest); try done; rewrite ?(ta_kst _ _ T); try done|].
  - by eapply will_ask_talked.
  - by rewrite (ta_stdin _ _ T).
  - eapply Forall_impl; [exact Hls|]. intros l (u & Hl & _). by eapply typed_is_line.
  - by eapply typed_is_line.
  - eapply Forall_impl; [exact Hls|]. intros l (u & Hl & Hu'). rewrite (strip_typed _ _ Hl). by apply no_answer_again.
  - rewrite (strip_typed _ _ La). by apply stands_answer.
  - cbn. intros _ st2 (? & ? & ->). by rewrite (ta_mode _ _ T).
Qed.

(** *** Texts and numbers *)

Lemma run_textual s y l def k : syms k !! s = Some y -> textual y -> val (curr y) = VStr l def ->
  sym_get_string_value s k = Ok def k.
Proof.
  intros Ey Ht Hv. unfold sym_get_string_value, sym_get_string_value_with, mbind, PM_bind.
  rewrite (run_get_sym s y k Ey), Hv. by destruct Ht as [-> | [-> | ->]].
Qed.

(** What [conf_string] does with the line in the buffer. *)
Definition take_string (m : menuref) (s : symref) (def l : string) : CM bool :=
  a ← elift (string_answer l);
  match a with
  | Keep => kern (sym_set_string_value s def)
  | AskHelp => print_help CONFIG_ place m;; mret false
  | Text v => emodify (set_line v);; kern (sym_set_string_value s v)
  end.

(** Up to the question. *)
Lemma string_front m s y n lc def st Q : entry_of m s y (kst st) -> name y = Some n -> textual y -> val (curr y) = VStr lc def ->
  (forall st', talked st st' ->
     returns (asked ← conf_askvalue tty_stdio s def;
              if negb asked then mret true else st ← eget; take_string m s def (line st)) Q st') ->
  returns (conf_string_round CONFIG_ place tty_stdio m s) Q st.
Proof.
  intros He Hnm Ht Hv HQ. unfold conf_string_round. assert (T : talked st st) by done.
  talk (eapply talks_prompt, entry_of_talked; eassumption) T.
  talk (apply talks_margin) T. talk (apply talks_printf) T.
  talk (eapply talks_sym, entry_of_talked; eassumption) T. subst.
  rewrite Hnm. apply returns_bind. cbn. talk (apply talks_printf) T.
  talk (apply talks_kern; eapply run_textual; [exact (proj1 (entry_of_talked _ _ _ _ _ T He))|done|exact Hv]) T. subst.
  talk (apply talks_printf) T. by apply HQ.
Qed.

Lemma string_round m s y n lc def st l rest Q : entry_of m s y (kst st) -> name y = Some n -> textual y ->
  val (curr y) = VStr lc def -> sym_is_changable y = true -> will_ask y st -> next_line (stdin st) = (l, rest) ->
  (forall st', reads l rest st st' -> returns (take_string m s def (until_nul l)) Q st') ->
  returns (conf_string_round CONFIG_ place tty_stdio m s) Q st.
Proof.
  intros He Hnm Ht Hv Hc Ha El HQ. eapply string_front; try done. intros st1 T.
  apply returns_bind. eapply returns_mono.
  { eapply (askvalue_reads s y); [exact (proj1 (entry_of_talked _ _ _ _ _ T He))|done|by eapply will_ask_talked|].
    by rewrite (ta_stdin _ _ T). }
  cbn beta. intros b st2 [-> R]. pose proof (talked_reads _ _ _ _ _ T R) as R'. cbn [negb].
  apply returns_bind. unfold returns at 1, eget. rewrite (re_line _ _ _ _ R'). by apply HQ.
Qed.

Lemma until_forever (I : cstate -> Prop) body n st :
  (forall st, I st -> returns body (fun b st' => b = false /\ I st') st) -> I st -> until n body st = NoFuel.
Proof.
  intros Hb. revert st. induction n as [|n IH]; intros st Hi; [done|]. cbn [until].
  specialize (Hb st Hi). apply returns_Ok in Hb as (b & st' & E & -> & Hi').
  unfold mbind, EM_bind. rewrite E. by apply IH.
Qed.

(** C25. At the end of the input the question about a number whose present value is no
    number (an option of type int or hex without a default) is asked for ever: the
    answer is taken to be the present value, and refused. *)
Theorem conf_string_never_ends m s y n lc def st : entry_of m s y (kst st) -> name y = Some n ->
  type y = S_INT \/ type y = S_HEX -> val (curr y) = VStr lc def -> sym_string_valid (type y) def = false ->
  sym_is_changable y = true -> will_ask y st -> stdin st = "" ->
  conf_string CONFIG_ place tty_stdio rounds m st = NoFuel.
Proof.
  intros He Hnm Ht Hv Hbad Hc Ha Hs. unfold conf_string.
  destruct (returns_Ok _ _ _ (talks_entry m s y st He)) as (s' & st1 & E & T & ->).
  unfold mbind, EM_bind. rewrite E.
  apply (until_forever (fun st' => kst st' = kst st /\ stdin st' = "" /\ will_ask y st')).
  - intros st2 (K & S2 & A2). eapply (string_round m s y n lc def st2 NL ""); try done; rewrite ?K; try done.
    { destruct Ht as [Ht|Ht]; [by left|by right; left]. }
    { by rewrite S2. }
    intros st3 R. change (returns (kern (sym_set_string_value s def)) (fun b st' => b = false /\
      kst st' = kst st /\ stdin st' = "" /\ will_ask y st') st3).
    unfold returns, kern. rewrite (re_kst _ _ _ _ R), K, (run_refused s y def _ (proj1 He) Ht Hbad).
    split; [done|]. split; [done|]. split; [exact (re_stdin _ _ _ _ R)|]. unfold will_ask in *. cbn.
    by rewrite (re_mode _ _ _ _ R), (re_valid _ _ _ _ R).
  - split_and!; [exact (ta_kst _ _ T)|by rewrite (ta_stdin _ _ T)|by eapply will_ask_talked].
Qed.

(** A text as an answer: one line of it, without the zero byte, that asks for no help. *)
Definition plain_answer (t : string) : Prop :=
  t <> "" /\ t <> "?" /\ no_char nl t = true /\ no_char (chr 0) t = true /\ (String.length t < 127)%nat.
Lemma plain_is_line t : plain_answer t -> is_line (t +:+ NL).
Proof. intros (_ & _ & ? & _ & ?). by exists t. Qed.
Lemma no_char_app c a b : no_char c (a +:+ b) = no_char c a && no_char c b.
Proof. induction a as [|d a IH]; [done|]. cbn [String.append]. by rewrite !no_char_cons, IH, andb_assoc. Qed.
Lemma substring_front a b : String.substring 0 (String.length a) (a +:+ b) = a.
Proof. induction a as [|c a IH]; [by destruct b|]. cbn. by rewrite IH. Qed.
Lemma chop_app t c : chop (t +:+ str1 c) = Some t.
Proof.
  unfold chop. rewrite length_app_s. change (String.length (str1 c)) with 1%nat.
  replace (String.length t + 1 - 1)%nat with (String.length t) by lia. rewrite substring_front. by destruct t.
Qed.
Lemma plain_text t : plain_answer t -> string_answer (until_nul (t +:+ NL)) = Some (Text t).
Proof.
  intros (He & Hq & Hn & H0 & _). rewrite until_nul_id by (by rewrite no_char_app, H0).
  pose proof (chop_app t nl) as Hch. destruct t as [|c t]; [done|].
  rewrite no_char_cons in Hn. apply andb_true_iff in Hn as [Hc Hn]. apply negb_true_iff in Hc.
  change (String c t +:+ NL) with (String c (t +:+ NL)). cbn [string_answer]. rewrite Hc.
  change (chop (String c (t +:+ NL)) = Some (String c t)) in Hch. rewrite Hch.
  destruct (char_eqb_spec c "?") as [->|_]; [|done].
  destruct t as [|d t]; [done|]. rewrite no_char_cons in Hn. apply andb_true_iff in Hn as [Hd _].
  apply negb_true_iff in Hd. cbn [String.append head_is andb].
  replace (char_eqb nl d) with (char_eqb d nl); [by rewrite Hd|]. apply Ascii.eqb_sym.
Qed.

Lemma string_lines m s y n lc def v k' : name y = Some n -> textual y -> val (curr y) = VStr lc def ->
  sym_is_changable y = true -> forall ts r st rest, entry_of m s y (kst st) -> will_ask y st ->
  stdin st = foldr (fun t acc => t +:+ NL +:+ acc) (v +:+ NL +:+ rest) ts ->
  Forall plain_answer ts -> plain_answer v ->
  Forall (fun t => sym_set_string_value s t (kst st) = Ok false (kst st)) ts ->
  sym_set_string_value s v (kst st) = Ok true k' -> (length ts < r)%nat ->
  returns (until r (conf_string_round CONFIG_ place tty_stdio m s))
    (fun _ st' => kst st' = k' /\ stdin st' = rest /\ mode st' = mode st) st.
Proof.
  intros Hnm Ht Hv Hc. induction ts as [|t ts IH]; intros r st rest He Ha Hs Hp Pv Hr Hset Hn;
    (destruct r as [|r]; [lia|]); cbn [until]; apply returns_bind.
  - eapply (string_round m s y n lc def st (v +:+ NL) rest); try done.
    { rewrite Hs. cbn [foldr]. rewrite (app_assoc_s v). by apply next_is_line, plain_is_line. }
    intros st1 R. unfold take_string. rewrite (plain_text v Pv). apply returns_bind. cbn [returns elift].
    apply returns_bind. unfold returns at 1, emodify. unfold returns at 1, kern. cbn [kst set_line].
    rewrite (re_kst _ _ _ _ R), Hset. cbn. split_and!; [done|exact (re_stdin _ _ _ _ R)|exact (re_mode _ _ _ _ R)].
  - apply Forall_cons in Hp as [Pt Hp]. apply Forall_cons in Hr as [Rt Hr]. cbn [foldr] in Hs.
    eapply (string_round m s y n lc def st (t +:+ NL)); try done.
    { rewrite Hs, (app_assoc_s t). by apply next_is_line, plain_is_line. }
    intros st1 R. unfold take_string. rewrite (plain_text t Pt). apply returns_bind. cbn [returns elift].
    apply returns_bind. unfold returns at 1, emodify. unfold returns at 1, kern. cbn [kst set_line].
    rewrite (re_kst _ _ _ _ R), Rt.
    eapply returns_mono; [apply (IH r _ rest); cbn; try done|].
    + unfold will_ask in *. cbn. by rewrite (re_mode _ _ _ _ R), (re_valid _ _ _ _ R).
    + exact (re_stdin _ _ _ _ R).
    + cbn in Hn. lia.
    + cbn. intros _ st' (? & ? & ->). split_and!; try done. exact (re_mode _ _ _ _ R).
Qed.


(** The last character of an answer that is not ended by a newline is lost. *)
Lemma unterminated_answer t c : no_char nl (t +:+ str1 c) = true -> t <> "" ->
  string_answer (t +:+ str1 c) = Some (Text t).
Proof.
  intros Hn Ht. pose proof (chop_app t c) as Hch. destruct t as [|d t]; [done|].
  change (String d t +:+ str1 c) with (String d (t +:+ str1 c)) in *. rewrite no_char_cons in Hn.
  apply andb_true_iff in Hn as [Hd Hn]. apply negb_true_iff in Hd. cbn [string_answer]. rewrite Hd, Hch.
  assert (head_is (char_eqb nl) (t +:+ str1 c) = false) as ->; [|by rewrite andb_false_r].
  assert (H : forall x u, no_char nl (String x u) = true -> head_is (char_eqb nl) (String x u) = false).
  { intros x u Hx. rewrite no_char_cons in Hx. apply andb_true_iff in Hx as [Hx _]. apply negb_true_iff in Hx.
    rewrite <- Hx. exact (Ascii.eqb_sym nl x). }
  destruct t as [|x t]; by apply H.
Qed.
End Questions.
