(* ===== verification/ConfDemo.v ===== *)
(** The front end of conf.c run on the Kconfig file of KMenuDemo, and on a heap of a few
    symbols; the theorems about it applied to these runs. *)
From S2P Require Import Prelude CText KScan KText KGrammar KReadBack KExpr KSym KSymFacts KDemo KConf KConfFacts KHelp KMenu KParse KMenuFacts KParseFacts KMenuDemo Conf ConfMain ConfFacts ConfList ConfAsk.
Local Open Scope string_scope.

(** ** The whole program *)

Definition nowhere (_ : menuref) : string * Z := ("Config.in", 1%Z).
Definition always (_ : string) : bool := true.
Definition never (_ : string) : bool := false.
Definition begin (i : string) : cstate := {|
  kst := blank; mode := oldaskconfig; indent := 1; valid_stdin := true; conf_cnt := 0; line := ""; rootEntry := None;
  stdin := i; stdout := ""; stderr := ""; files := [] |}.
Definition reach : nat := 200.
Definition main_demo (l : list opt) (i : string) : outcome cstate (ended Z) :=
  conf_main "BR2_" true 20 20 "conf" 0 0 nothing "2013.05" disk reach always always never (fun _ _ => true) 42
    (fun _ => Opened) always always always always (fun _ _ => []) l (Some "Config.in") (begin i).
Lemma demo_written : written disk reach "Config.in" None file.
Proof. split; [reflexivity|reflexivity|vm_compute; reflexivity|]. apply Nat.leb_le. vm_compute. reflexivity. Qed.
(** [main] behind [conf_parse]. *)
Definition rest_demo (m : input_mode) (i : string) (g : gstate) : outcome cstate (ended Z) :=
  run_parsed "BR2_" true 20 20 nothing disk always always never (fun _ _ => true) 42
    (fun _ => Opened) always always always always (fun _ _ => []) no_settings g
    (set_kst (heap (pst g)) (set_mode m (begin i))).
Lemma main_parsed m i : m = oldaskconfig \/ m = listnewconfig \/ m = olddefconfig ->
  exists g, final = Some (pst g) /\ main_demo [Opt m None] i = rest_demo m i g.
Proof.
  intros Hm. destruct parsed_final as (p & Ef & Ep).
  destruct (written_parsed nothing "2013.05" disk reach "Config.in" None file blank p demo_written eq_refl Ep) as (g & Eg & <- & Es).
  exists g. split; [exact Ef|]. unfold main_demo, conf_main.
  rewrite (erun _ _ _ no_settings (set_mode m (begin i))) by (destruct Hm as [-> | [-> | ->]]; reflexivity).
  unfold run_file. rewrite (erun _ _ _ g (set_kst (heap (pst g)) (set_mode m (begin i)))); [reflexivity|].
  unfold parse_file. rewrite erun_get. change (kst (set_mode m (begin i))) with blank. by rewrite Eg, Es.
Qed.
(** What a run ends with: its status, what it left unread and what it printed. *)
Definition ends_with (z : Z) (i o : string) (r : outcome cstate (ended Z)) : bool :=
  match r with Ok (Returned z') st => (z =? z')%Z && (stdin st =? i) && (stdout st =? o) | _ => false end.
Lemma conf_run_ends m i z i' o : m = oldaskconfig \/ m = listnewconfig \/ m = olddefconfig ->
  (forall sc a pl, match final with
    | Some p => ends_with z i' o (rest_demo m i {| pst := p; scn := sc; ahead := a; places := pl |})
    | None => false
    end = true) ->
  exists st', main_demo [Opt m None] i = Ok (Returned z) st' /\ stdin st' = i' /\ stdout st' = o.
Proof.
  intros Hm H. destruct (main_parsed m i Hm) as (g & Ef & ->). specialize (H (scn g) (ahead g) (places g)).
  rewrite Ef in H. destruct g as [p sc a pl]. cbn [pst scn ahead places] in H. unfold ends_with in H.
  destruct (rest_demo m i _) as [[z'|n] st'| |]; [|discriminate H..]. exists st'.
  apply andb_true_iff in H as [[Hz Hi]%andb_true_iff Ho]. apply Z.eqb_eq in Hz as ->.
  apply String.eqb_eq in Hi, Ho. exact (conj eq_refl (conj Hi Ho)).
Qed.

Lemma listnewconfig_run : exists st', main_demo [Opt listnewconfig None] "unread" = Ok (Returned 0%Z) st' /\
  stdin st' = "unread" /\ stdout st' = "BR2_A" +:+ NL.
Proof. apply conf_run_ends; [auto|]. intros sc a pl. vm_compute. reflexivity. Qed.
Lemma olddefconfig_run : exists st', main_demo [Opt olddefconfig None] "unread" = Ok (Returned 0%Z) st' /\
  stdin st' = "unread" /\ stdout st' = "".
Proof. apply conf_run_ends; [auto|]. intros sc a pl. vm_compute. reflexivity. Qed.

(** The file is accepted, and there is a configuration to start from. *)
Lemma started : exists p b k, conf_parse nothing "2013.05" None file (start blank) = Ok true p /\
  conf_read "BR2_" nothing (zconf_fopen nothing disk) (sym_defconfig_list p) None (heap p) = Ok b k.
Proof.
  destruct parsed_final as (p & Ef & Ep). exists p.
  assert (H : match final with
    | Some p => match conf_read "BR2_" nothing (zconf_fopen nothing disk) (sym_defconfig_list p) None (heap p) with Ok _ _ => true | _ => false end
    | None => false
    end = true) by (vm_compute; reflexivity).
  rewrite Ef in H. destruct (conf_read _ _ _ _ _ _) as [b k| |]; [|discriminate H..].
  exists b, k. split; [exact Ep|reflexivity].
Qed.
Lemma listnewconfig_lists_witness : exists st' ns, main_demo [Opt listnewconfig None] "unread" = Ok (Returned 0%Z) st' /\
  stdin st' = "unread" /\ files st' = [] /\ stdout st' = listing "BR2_" ns /\ ns `sublist_of` omap (entry_name (kst st')) (seq 0 7).
Proof.
  destruct listnewconfig_run as (st' & E & _). destruct started as (p & b & k & Hp & Hr).
  destruct (listnewconfig_lists "BR2_" true 20 20 "conf" 0 0 nothing "2013.05" disk reach always always never
    (fun _ _ => true) 42 (fun _ => Opened) always always always always (fun _ _ => []) "Config.in" None file
    (begin "unread") p b k demo_written eq_refl ltac:(cbn; lia) Hp Hr) as [_ H].
  destruct (H _ _ E) as (_ & Hi & Hf & ns & Ho & Hs).
  exists st', ns. exact (conj E (conj Hi (conj Hf (conj Ho Hs)))).
Defined.
Lemma olddefconfig_silent_witness : exists st', main_demo [Opt olddefconfig None] "unread" = Ok (Returned 0%Z) st' /\
  stdin st' = "unread" /\ stdout st' = "".
Proof.
  destruct olddefconfig_run as (st' & E & _). destruct started as (p & b & k & Hp & Hr). exists st'. split; [exact E|].
  destruct (olddefconfig_silent "BR2_" true 20 20 "conf" 0 0 nothing "2013.05" disk reach always always never
    (fun _ _ => true) 42 (fun _ => Opened) always always always always (fun _ _ => []) "Config.in" None file
    (begin "unread") p b k demo_written eq_refl ltac:(cbn; lia) Hp Hr) as [_ H].
  exact (proj2 (H _ _ E)).
Defined.
Lemma quiet_modes_read_nothing_witness : exists st', main_demo [Opt olddefconfig None] "unread" = Ok (Returned 0%Z) st' /\
  stdin st' = "unread".
Proof.
  destruct olddefconfig_run as (st' & E & _). exists st'. split; [exact E|].
  apply (quiet_modes_read_nothing "BR2_" true 20 20 "conf" 0 0 nothing "2013.05" disk reach always always never
    (fun _ _ => true) 42 (fun _ => Opened) always always always always (fun _ _ => []) [Opt olddefconfig None] (Some "Config.in")
    (begin "unread") (Returned 0%Z) st' ltac:(repeat constructor) ltac:(discriminate) E).
Defined.

(** ** Two questions *)

Local Open Scope nat_scope.

(** An option that is [y], and a number that was never given a value. *)
Definition asked_bool : symbol :=
  set_visible Tyes (set_curr {| val := VNull; tri := Tyes |}
    (demo_symbol (Some "FOO") S_BOOLEAN SYMBOL_VALID [KDemo.prompt_prop None] (user_tri Tyes))).
Definition asked_int (l : loc) (v : string) : symbol :=
  set_visible Tyes (set_curr {| val := VStr l v; tri := Tno |}
    (demo_symbol (Some "NUM") S_INT SYMBOL_VALID [KDemo.prompt_prop None] {| val := VStr l v; tri := Tno |})).
Definition entry_for (s : symref) : menu :=
  {| m_next := None; m_parent := Some rootmenu; m_list := None; m_sym := Some s; m_prompt := Some (POf s 0);
     m_visibility := None; m_dep := None; m_flags := 0%Z; m_help := None |}.
Definition asking (v : string) : kstate := {|
  syms := list_to_map [(3%nat, asked_bool); (4%nat, asked_int (LHeap 0) v)]; symbol_hash := ∅; modules_sym := None;
  modules_val := Tno; menus := list_to_map [(1%nat, entry_for 3); (2%nat, entry_for 4)];
  sym_change_count := 0%Z; next_sym := 5; next_loc := 1; check_top := []; sym_env_list := []; log := [];
  conf_warnings := 0%Z; conf_unsaved := 0%Z |}.
Definition at_prompt (v i : string) : cstate := set_kst (asking v) (begin i).
Lemma asked_bool_entry v : entry_of 1 3 asked_bool (asking v).
Proof. split; [reflexivity|]. by exists (entry_for 3), (POf 3 0), (KDemo.prompt_prop None), "prompt". Qed.
Lemma asked_int_entry v : entry_of 2 4 (asked_int (LHeap 0) v) (asking v).
Proof. split; [reflexivity|]. by exists (entry_for 4), (POf 4 0), (KDemo.prompt_prop None), "prompt". Qed.
Lemma line_of t : no_char nl t = true -> (String.length t < 127)%nat -> is_line (t +:+ NL).
Proof. intros. by exists t. Qed.

(** "maybe" is no answer, "Yes" between blanks is. *)
Lemma conf_sym_answered_witness : exists st' k',
  sym_set_tristate_value 3 Tyes (asking "") = Ok true k' /\
  conf_sym "BR2_" nowhere true 5 1 (at_prompt "" ("maybe" +:+ NL +:+ " Yes " +:+ NL +:+ "more")) = Ok (Returned tt) st' /\
  kst st' = k' /\ given_tri 3 Tyes k' /\ stdin st' = "more".
Proof.
  eassert (Hset : sym_set_tristate_value 3 Tyes (asking "") = Ok true _) by (vm_compute; reflexivity).
  destruct (conf_sym_answered "BR2_" nowhere true 5 1 3 asked_bool Tyes _ ["maybe" +:+ NL]%list
    (at_prompt "" ("maybe" +:+ NL +:+ " Yes " +:+ NL +:+ "more")) (" Yes " +:+ NL) "Yes" "more"
    (asked_bool_entry "") eq_refl ltac:(split; [left; reflexivity|discriminate]) eq_refl I eq_refl
    ltac:(constructor; [|constructor]; exists "maybe"; split;
          [apply (typed_of "" "maybe" ""); (reflexivity || (cbn; lia))|apply no_answer_of; reflexivity])
    ltac:(apply (typed_of " " "Yes" " "); (reflexivity || (cbn; lia)))
    ltac:(apply says_yes; set_solver) Hset ltac:(cbn; lia))
    as (st' & E & Hk & Hu & Hi & _).
  exists st'. eexists. exact (conj Hset (conj E (conj Hk (conj Hu Hi)))).
Defined.
(** The number without a value at the end of the input. *)
Lemma conf_string_never_ends_witness :
  conf_string "BR2_" nowhere true 1000 2 (at_prompt "" "") = NoFuel.
Proof.
  apply (conf_string_never_ends "BR2_" nowhere true 1000 2 4 (asked_int (LHeap 0) "") "NUM" (LHeap 0) "" (at_prompt "" "")
    (asked_int_entry "") eq_refl ltac:(left; reflexivity) eq_refl eq_refl eq_refl I eq_refl).
Defined.
(** The last character of an answer is lost when no newline ends it. *)
Example unterminated_number : string_answer "42" = Some (Text "4").
Proof. reflexivity. Qed.
