(* ===== verification/Exc.v ===== *)
(** C++ exceptions and [std::vector]: a computation gives a value or the text it
    throws; [at] throws when the index is outside. *)
From S2P Require Import Prelude.

Definition exc (A : Type) : Type := string + A.
#[export] Instance exc_ret : MRet exc := fun A a => inr a.
#[export] Instance exc_bind : MBind exc := fun A B f m =>
  match m with inl e => inl e | inr a => f a end.
Definition throw {A} (e : string) : exc A := inl e.
Definition throw_if (b : bool) (e : string) : exc unit := if b then throw e else mret tt.

(** [for (x in l) s = f(s, x)] with a body that may throw. *)
Fixpoint exc_fold {A S} (f : S -> A -> exc S) (s : S) (l : list A) : exc S :=
  match l with [] => mret s | a :: l => s ← f s a; exc_fold f s l end.
Fixpoint exc_map {A B} (f : A -> exc B) (l : list A) : exc (list B) :=
  match l with [] => mret [] | a :: l => b ← f a; bs ← exc_map f l; mret (b :: bs) end.

(** [v.at(i)]; a negative [int] becomes a huge [size_t]. *)
Definition OUT_OF_RANGE : string := "std::out_of_range".
Definition at_ {A} (v : list A) (i : Z) : exc A :=
  if i <? 0 then throw OUT_OF_RANGE
  else match v !! Z.to_nat i with Some a => mret a | None => throw OUT_OF_RANGE end.
(** [v.at(i) = a] *)
Definition set_at {A} (v : list A) (i : Z) (a : A) : exc (list A) :=
  _ ← at_ v i; mret (<[Z.to_nat i := a]> v).

(** [lo, lo+1, ..., hi-1], the values of [for (int i = lo; i < hi; i++)]. *)
Definition range (lo hi : Z) : list Z := (fun k => lo + Z.of_nat k) <$> seq 0 (Z.to_nat (hi - lo)).
Definition zlen {A} (v : list A) : Z := Z.of_nat (length v).

(** ** Lemmas *)

Lemma exc_bind_inr {A B} (m : exc A) (f : A -> exc B) a : m = inr a -> (m ≫= f) = f a.
Proof. by intros ->. Qed.
Lemma exc_bind_inv {A B} (m : exc A) (f : A -> exc B) b :
  (m ≫= f) = inr b -> exists a, m = inr a /\ f a = inr b.
Proof. destruct m as [e|a]; [done|]. intros H. by exists a. Qed.
Lemma throw_if_inv b e u : throw_if b e = inr u -> b = false.
Proof. by destruct b. Qed.

Lemma at_Some {A} (v : list A) i a : 0 <= i -> v !! Z.to_nat i = Some a -> at_ v i = inr a.
Proof. intros H0 E. unfold at_. destruct (Z.ltb_spec i 0); [lia|]. by rewrite E. Qed.
Lemma at_inv {A} (v : list A) i a : at_ v i = inr a -> 0 <= i /\ v !! Z.to_nat i = Some a.
Proof.
  unfold at_. destruct (Z.ltb_spec i 0); [done|]. destruct (v !! _) eqn:E; [|done]. by intros [= ->].
Qed.
Lemma at_lt {A} (v : list A) i : 0 <= i < zlen v -> exists a, at_ v i = inr a /\ v !! Z.to_nat i = Some a.
Proof.
  intros H. unfold zlen in H. destruct (lookup_lt_is_Some_2 v (Z.to_nat i)) as [a E]; [lia|].
  exists a. split; [apply at_Some; [lia|done]|done].
Qed.
Lemma set_at_lt {A} (v : list A) i a : 0 <= i < zlen v -> set_at v i a = inr (<[Z.to_nat i := a]> v).
Proof. intros H. unfold set_at. by destruct (at_lt v i H) as (b & -> & _). Qed.

Lemma zlen_app {A} (v w : list A) : zlen (v ++ w) = zlen v + zlen w.
Proof. unfold zlen. rewrite length_app. lia. Qed.
Lemma zlen_cons {A} (a : A) v : zlen (a :: v) = 1 + zlen v.
Proof. unfold zlen. cbn [length]. lia. Qed.
Lemma zlen_nonneg {A} (v : list A) : 0 <= zlen v.
Proof. unfold zlen. lia. Qed.
Lemma zlen_insert {A} (v : list A) i a : zlen (<[i := a]> v) = zlen v.
Proof. unfold zlen. by rewrite length_insert. Qed.

Lemma range_nil lo hi : hi <= lo -> range lo hi = [].
Proof. intros H. unfold range. by replace (Z.to_nat (hi - lo)) with 0%nat by lia. Qed.
Lemma range_cons lo hi : lo < hi -> range lo hi = lo :: range (lo + 1) hi.
Proof.
  intros H. unfold range. replace (Z.to_nat (hi - lo)) with (S (Z.to_nat (hi - (lo + 1)))) by lia.
  cbn [seq fmap list_fmap]. f_equal; [lia|]. rewrite <- fmap_S_seq, <- list_fmap_compose.
  apply list_fmap_ext. intros k x _. cbn. lia.
Qed.
Lemma range_snoc lo hi : lo <= hi -> range lo (hi + 1) = range lo hi ++ [hi].
Proof.
  intros H. unfold range. replace (Z.to_nat (hi + 1 - lo)) with (S (Z.to_nat (hi - lo))) by lia.
  rewrite seq_S, fmap_app. cbn. do 2 f_equal. lia.
Qed.
Lemma elem_of_range lo hi i : i ∈ range lo hi <-> lo <= i < hi.
Proof.
  unfold range. rewrite list_elem_of_fmap. split.
  - intros (k & -> & Hk). apply elem_of_seq in Hk. lia.
  - intros Hi. exists (Z.to_nat (i - lo)). split; [lia|]. apply elem_of_seq. lia.
Qed.
Lemma length_range lo hi : length (range lo hi) = Z.to_nat (hi - lo).
Proof. unfold range. by rewrite length_fmap, length_seq. Qed.

(** The round of a counting loop is the number of rounds before it. *)
Lemma lookup_range lo hi i : (i < Z.to_nat (hi - lo))%nat -> range lo hi !! i = Some (lo + Z.of_nat i).
Proof. intros Hi. unfold range. rewrite list_lookup_fmap, lookup_seq_lt by done. done. Qed.
Lemma lookup_range_ge lo hi i : (Z.to_nat (hi - lo) <= i)%nat -> range lo hi !! i = None.
Proof. intros Hi. apply lookup_ge_None. by rewrite length_range. Qed.
Lemma range_split n pre i todo : range 0 (Z.of_nat n) = pre ++ i :: todo ->
  i = Z.of_nat (length pre) /\ (length pre < n)%nat.
Proof.
  intros H. pose proof (f_equal length H) as Hl. rewrite length_range, length_app in Hl. cbn in Hl.
  assert (Hx : range 0 (Z.of_nat n) !! length pre = Some i) by (rewrite H; by apply list_lookup_middle).
  unfold range in Hx. rewrite list_lookup_fmap, lookup_seq_lt in Hx by lia. cbn in Hx.
  injection Hx as <-. split; [done|lia].
Qed.

(** A loop that keeps an invariant of the rounds done does not throw. *)
Lemma exc_fold_inv {A S} (f : S -> A -> exc S) (I : list A -> S -> Prop) (l : list A) s :
  I [] s ->
  (forall done a todo s, l = done ++ a :: todo -> I done s -> exists s', f s a = inr s' /\ I (done ++ [a]) s') ->
  exists s', exc_fold f s l = inr s' /\ I l s'.
Proof.
  intros H0 Hstep.
  cut (forall done todo s, l = done ++ todo -> I done s -> exists s', exc_fold f s todo = inr s' /\ I l s').
  { intros H. by apply (H [] l). }
  clear s H0. intros done todo. revert done. induction todo as [|a todo IH]; intros done s Hl Hi.
  - rewrite app_nil_r in Hl. subst. by exists s.
  - destruct (Hstep done a todo s Hl Hi) as (s' & E & Hi'). cbn. rewrite (exc_bind_inr _ _ _ E).
    apply (IH (done ++ [a])); [|done]. by rewrite <- app_assoc.
Qed.

(** What holds of every state a loop passes holds of its result. *)
Lemma exc_fold_keeps {A S} (f : S -> A -> exc S) (I : S -> Prop) (l : list A) s s' :
  I s -> (forall a s s', a ∈ l -> I s -> f s a = inr s' -> I s') -> exc_fold f s l = inr s' -> I s'.
Proof.
  revert s. induction l as [|a l IH]; intros s Hs Hf; cbn; [by intros [= <-]|].
  intros (s1 & E & H)%exc_bind_inv. apply (IH s1); [|intros b ? ? Hb; apply Hf; by right|done].
  by apply (Hf a s); [left| |].
Qed.
Lemma exc_fold_app {A S} (f : S -> A -> exc S) s l l' :
  exc_fold f s (l ++ l') = (s ← exc_fold f s l; exc_fold f s l').
Proof.
  revert s. induction l as [|a l IH]; intros s; [done|]. cbn.
  destruct (f s a); cbn; [done|]. apply IH.
Qed.
