(* ===== verification/QrBits.v ===== *)
(** Bit strings and segments of the QR encoder: src/recovery/libs/QRCode's
    BitBuffer.cpp and QrSegment.cpp.  A [uint8_t] is a [Z]; a C string is a
    [string] without its closing NUL. *)
From S2P Require Import Prelude CText Exc.

(** ** BitBuffer *)

Record BitBuffer := mkBitBuffer { bb_data : list Z; bb_bitLength : Z }.
Definition newBitBuffer : BitBuffer := mkBitBuffer [] 0.
Definition getBitLength (bb : BitBuffer) : Z := bb_bitLength bb.
Definition getBytes (bb : BitBuffer) : list Z := bb_data bb.

(** [while (data.size() * 8 < newBitLen) data.push_back(0);] *)
Fixpoint grow_fuel (fuel : nat) (data : list Z) (newBitLen : Z) : list Z :=
  match fuel with
  | O => data
  | S fuel => if zlen data * 8 <? newBitLen then grow_fuel fuel (data ++ [0]) newBitLen else data
  end.
Definition grow (data : list Z) (newBitLen : Z) : list Z := grow_fuel (Z.to_nat newBitLen) data newBitLen.

(** [data.at(bitLength >> 3) |= bit << (7 - (bitLength & 7))] and [bitLength++] *)
Definition put_bit (bb : BitBuffer) (bit : Z) : exc BitBuffer :=
  let i := Z.shiftr (bb_bitLength bb) 3 in
  b ← at_ (bb_data bb) i;
  data ← set_at (bb_data bb) i (u8 (Z.lor b (Z.shiftl bit (7 - Z.land (bb_bitLength bb) 7))));
  mret (mkBitBuffer data (bb_bitLength bb + 1)).

(** The rounds [i = n - 1, ..., 0]. *)
Fixpoint append_bits_loop (n : nat) (val : Z) (bb : BitBuffer) : exc BitBuffer :=
  match n with
  | O => mret bb
  | S i => bb ← put_bit bb (Z.land (Z.shiftr val (Z.of_nat i)) 1); append_bits_loop i val bb
  end.

(** [val] is a [uint32_t]: the caller's [int] is converted. *)
Definition appendBits (bb : BitBuffer) (val len : Z) : exc BitBuffer :=
  let val := u32 val in
  throw_if ((len <? 0) || (32 <? len) || ((len <? 32) && negb (Z.shiftr val len =? 0))) "Value out of range";;
  let newBitLen := bb_bitLength bb + len in
  append_bits_loop (Z.to_nat len) val (mkBitBuffer (grow (bb_data bb) newBitLen) (bb_bitLength bb)).

(** ** Modes and segments *)

Record Mode := mkMode { modeBits : Z; numBitsCharCount : list Z }.
Definition NUMERIC : Mode := mkMode 1 [10; 12; 14].
Definition ALPHANUMERIC : Mode := mkMode 2 [9; 11; 13].
Definition BYTE : Mode := mkMode 4 [8; 16; 16].
Definition KANJI : Mode := mkMode 8 [8; 10; 12].

(** [numBitsCharCount] is an array of three. *)
Definition numCharCountBits (m : Mode) (ver : Z) : exc Z :=
  if (1 <=? ver) && (ver <=? 9) then at_ (numBitsCharCount m) 0
  else if (10 <=? ver) && (ver <=? 26) then at_ (numBitsCharCount m) 1
  else if (27 <=? ver) && (ver <=? 40) then at_ (numBitsCharCount m) 2
  else throw "Version number out of range".

Record QrSegment := mkQrSegment { seg_mode : Mode; numChars : Z; seg_data : list Z; seg_bitLength : Z }.

Definition newQrSegment (md : Mode) (numCh : Z) (b : list Z) (bitLen : Z) : exc QrSegment :=
  throw_if ((numCh <? 0) || (bitLen <? 0) || negb (zlen b =? u32 (Z.quot (bitLen + 7) 8))) "Invalid value";;
  mret (mkQrSegment md numCh b bitLen).

Definition appendData_step (seg : QrSegment) (bb : BitBuffer) (i : Z) : exc BitBuffer :=
  b ← at_ (seg_data seg) (Z.shiftr i 3);
  put_bit bb (Z.land (Z.shiftr b (7 - Z.land i 7)) 1).
Definition appendData (bb : BitBuffer) (seg : QrSegment) : exc BitBuffer :=
  let newBitLen := bb_bitLength bb + seg_bitLength seg in
  exc_fold (appendData_step seg) (mkBitBuffer (grow (bb_data bb) newBitLen) (bb_bitLength bb))
    (range 0 (seg_bitLength seg)).

(** The arguments of the constructor are [int]s, the size is a [size_t]. *)
Definition makeBytes (data : list Z) : exc QrSegment :=
  newQrSegment BYTE (i32 (zlen data)) data (i32 (zlen data * 8)).

(** The state of the encoding loops. *)
Record accum := mkAccum { acc_bb : BitBuffer; accumData : Z; accumCount : Z; charCount : Z }.
Definition newAccum : accum := mkAccum newBitBuffer 0 0 0.

Definition numeric_step (a : accum) (c : Ascii.ascii) : exc accum :=
  throw_if ((code c <? 48) || (57 <? code c)) "String contains non-numeric characters";;
  let d := accumData a * 10 + (code c - 48) in
  let n := accumCount a + 1 in
  if n =? 3 then bb ← appendBits (acc_bb a) d 10; mret (mkAccum bb 0 0 (charCount a + 1))
  else mret (mkAccum (acc_bb a) d n (charCount a + 1)).
Definition makeNumeric (digits : string) : exc QrSegment :=
  a ← exc_fold numeric_step newAccum (String.list_ascii_of_string digits);
  bb ← (if 0 <? accumCount a then appendBits (acc_bb a) (accumData a) (accumCount a * 3 + 1) else mret (acc_bb a));
  newQrSegment NUMERIC (charCount a) (getBytes bb) (getBitLength bb).

Definition ALPHANUMERIC_ENCODING_TABLE : list Z :=
  [36; -1; -1; -1; 37; 38; -1; -1; -1; -1; 39; 40; -1; 41; 42; 43; 0; 1; 2; 3; 4; 5; 6; 7; 8; 9; 44;
   -1; -1; -1; -1; -1; -1;
   10; 11; 12; 13; 14; 15; 16; 17; 18; 19; 20; 21; 22; 23; 24; 25; 26; 27; 28; 29; 30; 31; 32; 33; 34; 35].

Definition alphanumeric_step (a : accum) (c : Ascii.ascii) : exc accum :=
  throw_if ((code c <? 32) || (90 <? code c)) "String contains unencodable characters in alphanumeric mode";;
  v ← at_ ALPHANUMERIC_ENCODING_TABLE (code c - 32);
  let d := accumData a * 45 + v in
  let n := accumCount a + 1 in
  if n =? 2 then bb ← appendBits (acc_bb a) d 11; mret (mkAccum bb 0 0 (charCount a + 1))
  else mret (mkAccum (acc_bb a) d n (charCount a + 1)).
Definition makeAlphanumeric (text : string) : exc QrSegment :=
  a ← exc_fold alphanumeric_step newAccum (String.list_ascii_of_string text);
  bb ← (if 0 <? accumCount a then appendBits (acc_bb a) (accumData a) 6 else mret (acc_bb a));
  newQrSegment ALPHANUMERIC (charCount a) (getBytes bb) (getBitLength bb).

Definition isNumeric (text : string) : bool :=
  string_all (fun c => negb ((code c <? 48) || (57 <? code c))) text.
Definition isAlphanumeric (text : string) : bool :=
  string_all (fun c => negb ((code c <? 32) || (90 <? code c) ||
    match at_ ALPHANUMERIC_ENCODING_TABLE (code c - 32) with inr v => v =? -1 | inl _ => true end)) text.

Definition makeSegments (text : string) : exc (list QrSegment) :=
  if (text =? "")%string then mret []
  else if isNumeric text then s ← makeNumeric text; mret [s]
  else if isAlphanumeric text then s ← makeAlphanumeric text; mret [s]
  else s ← makeBytes (code <$> String.list_ascii_of_string text); mret [s].

Fixpoint getTotalBits_loop (segs : list QrSegment) (version result : Z) : exc Z :=
  match segs with
  | [] => mret result
  | seg :: segs =>
      ccbits ← numCharCountBits (seg_mode seg) version;
      if Z.shiftl 1 ccbits <=? numChars seg then mret (-1)
      else getTotalBits_loop segs version (result + (4 + ccbits + seg_bitLength seg))
  end.
Definition getTotalBits (segs : list QrSegment) (version : Z) : exc Z :=
  throw_if ((version <? 1) || (40 <? version)) "Version number out of range";;
  getTotalBits_loop segs version 0.
