(* ===== verification/ReedSolomon.v ===== *)
(** The error correction codes of the QR encoder: class [ReedSolomonGenerator] of
    src/recovery/libs/QRCode/QrCode.cpp. *)
From S2P Require Import Prelude Exc.

(** [(z << 1) ^ ((z >> 7) * 0x11D)] *)
Definition times2 (z : Z) : Z := Z.lxor (Z.shiftl z 1) (Z.shiftr z 7 * 285).

(** The rounds [i = n - 1, ..., 0] of the multiplication. *)
Fixpoint multiply_loop (n : nat) (x y z : Z) : Z :=
  match n with
  | O => z
  | S i => multiply_loop i x y (Z.lxor (times2 z) (Z.land (Z.shiftr y (Z.of_nat i)) 1 * x))
  end.
Definition multiply (x y : Z) : exc Z :=
  let z := multiply_loop 8 x y 0 in
  throw_if (negb (Z.shiftr z 8 =? 0)) "Assertion error";; mret z.

(** Multiply the product so far by [(x - root)]: the round [j] reads
    [coefficients.at(j + 1)] before the next round changes it. *)
Fixpoint times_root (root : Z) (coefficients : list Z) : exc (list Z) :=
  match coefficients with
  | [] => mret []
  | c :: rest =>
      p ← multiply c root;
      let p := match rest with d :: _ => Z.lxor p d | [] => p end in
      rest ← times_root root rest;
      mret (p :: rest)
  end.

Fixpoint generator_loop (n : nat) (root : Z) (coefficients : list Z) : exc (list Z) :=
  match n with
  | O => mret coefficients
  | S n =>
      coefficients ← times_root (u8 root) coefficients;
      generator_loop n (times2 root) coefficients
  end.

Definition ReedSolomonGenerator (degree : Z) : exc (list Z) :=
  throw_if ((degree <? 1) || (255 <? degree)) "Degree out of range";;
  coefficients ← set_at (replicate (Z.to_nat degree) 0) (degree - 1) 1;
  generator_loop (Z.to_nat degree) 1 coefficients.

(** [result.at(j) ^= multiply(coefficients.at(j), factor)] for every [j]. *)
Fixpoint add_multiple (coefficients result : list Z) (factor : Z) : exc (list Z) :=
  match result with
  | [] => mret []
  | r :: result =>
      match coefficients with
      | [] => throw OUT_OF_RANGE
      | c :: coefficients =>
          p ← multiply c factor;
          rest ← add_multiple coefficients result factor;
          mret (Z.lxor r p :: rest)
      end
  end.
(** [result.erase(result.begin()); result.push_back(0);] *)
Definition shift (result : list Z) : list Z := tail result ++ [0].
Definition remainder_step (coefficients result : list Z) (d : Z) : exc (list Z) :=
  r ← at_ result 0;
  add_multiple coefficients (shift result) (Z.lxor d r).
Definition getRemainder (coefficients data : list Z) : exc (list Z) :=
  exc_fold (remainder_step coefficients) (replicate (length coefficients) 0) data.
