(* ===== verification/ReedSolomonFacts.v ===== *)
(** The Reed-Solomon code of the QR symbols over the field of 256 elements. *)
From S2P Require Import Prelude Exc ReedSolomon.
From Stdlib Require Import Eqdep_dec Ring.

Definition gmul (x y : Z) : Z := multiply_loop 8 x y 0.

(** ** Bits that are 0 or 1 *)

Definition is_bit (b : Z) : Prop := b = 0 \/ b = 1.
Lemma bit_scale_r b x y : is_bit b -> b * Z.lxor x y = Z.lxor (b * x) (b * y).
Proof. intros [->| ->]; [done|]. by rewrite !Z.mul_1_l. Qed.
Lemma bit_scale_l a b x : is_bit a -> is_bit b -> Z.lxor a b * x = Z.lxor (a * x) (b * x).
Proof.
  intros [->| ->] [->| ->]; cbn [Z.lxor]; rewrite ?Z.mul_0_l, ?Z.mul_1_l, ?Z.lxor_0_l, ?Z.lxor_0_r, ?Z.lxor_nilpotent; done.
Qed.
Lemma bit_land y i : is_bit (Z.land (Z.shiftr y i) 1).
Proof.
  change 1 with (Z.ones 1). rewrite Z.land_ones by lia. change (2 ^ 1) with 2. unfold is_bit.
  pose proof (Z.mod_pos_bound (Z.shiftr y i) 2 ltac:(lia)). lia.
Qed.
Lemma bit_top z : is_byte z -> is_bit (Z.shiftr z 7).
Proof.
  intros [H0 H1]. rewrite Z.shiftr_div_pow2 by lia. change (2 ^ 7) with 128. unfold is_bit.
  pose proof (Z.div_pos z 128 ltac:(lia) ltac:(lia)). pose proof (Z.div_lt_upper_bound z 128 2 ltac:(lia) ltac:(lia)). lia.
Qed.

Lemma lxor_bound n a b : 0 <= n -> 0 <= a < 2 ^ n -> 0 <= b < 2 ^ n -> 0 <= Z.lxor a b < 2 ^ n.
Proof.
  intros Hn Ha Hb.
  assert (E : Z.lxor a b = Z.lxor a b mod 2 ^ n).
  { rewrite <- !Z.land_ones by lia. apply Z.bits_inj'. intros k Hk.
    rewrite Z.land_spec, Z.lxor_spec, Z.testbit_ones_nonneg by lia.
    destruct (Z.ltb_spec k n); [by rewrite andb_true_r|].
    rewrite <- (Z.mod_small a (2 ^ n)), <- (Z.mod_small b (2 ^ n)) by done.
    rewrite !Z.mod_pow2_bits_high by lia. done. }
  rewrite E. apply Z.mod_pos_bound, Z.pow_pos_nonneg; lia.
Qed.
Lemma byte_lxor a b : is_byte a -> is_byte b -> is_byte (Z.lxor a b).
Proof. apply (lxor_bound 8). lia. Qed.

Lemma lxor_swap a b c d : Z.lxor (Z.lxor a b) (Z.lxor c d) = Z.lxor (Z.lxor a c) (Z.lxor b d).
Proof. rewrite !Z.lxor_assoc. f_equal. rewrite <- !Z.lxor_assoc. f_equal. apply Z.lxor_comm. Qed.

(** ** Doubling and multiplication are linear *)

(** What holds of all bytes by calculation. *)
Lemma all_bytes (p : Z -> bool) : forallb p (range 0 256) = true -> forall z, is_byte z -> p z = true.
Proof. intros H z Hz. rewrite forallb_forall in H. apply H, list_elem_of_In, elem_of_range, Hz. Qed.
Definition byteb (z : Z) : bool := (0 <=? z) && (z <? 256).
Lemma byteb_true z : byteb z = true <-> is_byte z.
Proof. unfold byteb, is_byte. rewrite andb_true_iff, Z.leb_le, Z.ltb_lt. done. Qed.

Lemma times2_byte z : is_byte z -> is_byte (times2 z).
Proof. intros H. apply byteb_true. revert z H. apply all_bytes. vm_compute. reflexivity. Qed.
Lemma times2_lxor a b : is_byte a -> is_byte b -> times2 (Z.lxor a b) = Z.lxor (times2 a) (times2 b).
Proof.
  intros Ha Hb. unfold times2. rewrite Z.shiftl_lxor, Z.shiftr_lxor, bit_scale_l by (by apply bit_top).
  apply lxor_swap.
Qed.

Lemma multiply_loop_byte n x y z : is_byte x -> is_byte z -> is_byte (multiply_loop n x y z).
Proof.
  intros Hx. revert z. induction n as [|n IH]; intros z Hz; [done|]. cbn [multiply_loop]. apply IH, byte_lxor.
  - by apply times2_byte.
  - destruct (bit_land y (Z.of_nat n)) as [->| ->]; rewrite ?Z.mul_1_l; done.
Qed.
Lemma multiply_loop_lin_l n x x' y z z' : is_byte x -> is_byte x' -> is_byte z -> is_byte z' ->
  multiply_loop n (Z.lxor x x') y (Z.lxor z z') = Z.lxor (multiply_loop n x y z) (multiply_loop n x' y z').
Proof.
  intros Hx Hx'. revert z z'. induction n as [|n IH]; intros z z' Hz Hz'; [done|]. cbn [multiply_loop].
  rewrite times2_lxor, bit_scale_r, lxor_swap by (done || apply bit_land).
  apply IH; apply byte_lxor; try (by apply times2_byte);
    destruct (bit_land y (Z.of_nat n)) as [->| ->]; rewrite ?Z.mul_1_l; done.
Qed.
Lemma multiply_loop_lin_r n x y y' z z' : is_byte x -> is_byte z -> is_byte z' ->
  multiply_loop n x (Z.lxor y y') (Z.lxor z z') = Z.lxor (multiply_loop n x y z) (multiply_loop n x y' z').
Proof.
  intros Hx. revert z z'. induction n as [|n IH]; intros z z' Hz Hz'; [done|]. cbn [multiply_loop].
  assert (E : Z.land (Z.shiftr (Z.lxor y y') (Z.of_nat n)) 1
              = Z.lxor (Z.land (Z.shiftr y (Z.of_nat n)) 1) (Z.land (Z.shiftr y' (Z.of_nat n)) 1)).
  { rewrite Z.shiftr_lxor. apply Z.bits_inj'. intros k Hk. rewrite !Z.land_spec, !Z.lxor_spec, !Z.land_spec.
    by destruct (Z.testbit _ _), (Z.testbit _ _), (Z.testbit _ _). }
  rewrite E, times2_lxor, bit_scale_l, lxor_swap by (done || apply bit_land).
  apply IH; apply byte_lxor; try (by apply times2_byte);
    [destruct (bit_land y (Z.of_nat n)) as [->| ->]|destruct (bit_land y' (Z.of_nat n)) as [->| ->]];
    rewrite ?Z.mul_1_l; done.
Qed.

Lemma gmul_byte x y : is_byte x -> is_byte (gmul x y).
Proof. intros H. by apply multiply_loop_byte. Qed.
Lemma gmul_lin_l x x' y : is_byte x -> is_byte x' -> gmul (Z.lxor x x') y = Z.lxor (gmul x y) (gmul x' y).
Proof. intros H H'. by apply (multiply_loop_lin_l 8 x x' y 0 0). Qed.
Lemma gmul_lin_r x y y' : is_byte x -> gmul x (Z.lxor y y') = Z.lxor (gmul x y) (gmul x y').
Proof. intros H. by apply (multiply_loop_lin_r 8 x y y' 0 0). Qed.
(** [multiply] never fails its assertion. *)
Lemma multiply_gmul x y : is_byte x -> multiply x y = inr (gmul x y).
Proof.
  intros Hx. pose proof (gmul_byte x y Hx) as H. revert H. unfold multiply, gmul.
  generalize (multiply_loop 8 x y 0). intros z Hz.
  assert (E : Z.shiftr z 8 = 0) by (rewrite Z.shiftr_div_pow2 by lia; by apply Z.div_small).
  by rewrite E.
Qed.

#[global] Opaque gmul.
Lemma gmul_0_l y : gmul 0 y = 0.
Proof. by rewrite <- (Z.lxor_nilpotent 0), gmul_lin_l, Z.lxor_nilpotent at 1. Qed.
Lemma gmul_0_r x : is_byte x -> gmul x 0 = 0.
Proof. intros H. by rewrite <- (Z.lxor_nilpotent 0), gmul_lin_r, Z.lxor_nilpotent at 1. Qed.

(** What holds of the powers of two and is kept by exclusive or holds of all bytes. *)
Lemma byte_ind (P : Z -> Prop) : P 0 -> (forall i, i ∈ [1; 2; 4; 8; 16; 32; 64; 128] -> P i) ->
  (forall a b, is_byte a -> is_byte b -> P a -> P b -> P (Z.lxor a b)) -> forall z, is_byte z -> P z.
Proof.
  intros H0 H1 H2.
  cut (forall n : nat, (n <= 8)%nat -> forall z, 0 <= z < 2 ^ Z.of_nat n -> P z); [intros H; by apply (H 8%nat)|].
  induction n as [|n IH]; intros Hn z Hz; [change (2 ^ Z.of_nat 0) with 1 in Hz; by replace z with 0 by lia|].
  rewrite Nat2Z.inj_succ, Z.pow_succ_r in Hz by lia. set (p := 2 ^ Z.of_nat n) in *.
  destruct (decide (z < p)) as [Hlt|Hge]; [apply IH; lia|].
  assert (Hp8 : p <= 2 ^ 7) by (apply Z.pow_le_mono_r; lia). change (2 ^ 7) with 128 in Hp8.
  assert (Hx : z = Z.lxor p (z - p)).
  { rewrite <- Z.add_nocarry_lxor; [lia|]. apply Z.bits_inj'. intros k Hk. rewrite Z.land_spec, Z.bits_0.
    unfold p at 1. rewrite Z.pow2_bits_eqb by lia. destruct (Z.eqb_spec (Z.of_nat n) k) as [<-|]; [|done].
    rewrite <- (Z.mod_small (z - p) p) by lia. unfold p at 2. by rewrite Z.mod_pow2_bits_high by lia. }
  rewrite Hx. apply H2; [unfold is_byte; lia|unfold is_byte; lia| |apply IH; lia].
  apply H1. unfold p. do 8 (destruct n as [|n]; [by repeat constructor|]). lia.
Qed.
Definition basis : list Z := [1; 2; 4; 8; 16; 32; 64; 128].
Lemma basis_byte i : i ∈ basis -> is_byte i.
Proof. unfold basis, is_byte. rewrite !elem_of_cons, elem_of_nil. lia. Qed.

Lemma gmul_comm x y : is_byte x -> is_byte y -> gmul x y = gmul y x.
Proof.
  intros Hx. revert y. apply byte_ind.
  - by rewrite gmul_0_r, gmul_0_l.
  - intros j Hj. pose proof (basis_byte j Hj) as Hjb. revert x Hx. apply byte_ind.
    + by rewrite gmul_0_r, gmul_0_l.
    + intros i Hi.
      assert (Hc : forallb (fun i => forallb (fun j => gmul i j =? gmul j i) basis) basis = true) by (vm_compute; reflexivity).
      rewrite forallb_forall in Hc. specialize (Hc i (proj1 (list_elem_of_In _ _) Hi)). rewrite forallb_forall in Hc.
      by apply Z.eqb_eq, Hc, list_elem_of_In.
    + intros a b Ha Hb Ea Eb. by rewrite gmul_lin_l, gmul_lin_r, Ea, Eb.
  - intros a b Ha Hb Ea Eb. by rewrite gmul_lin_l, gmul_lin_r, Ea, Eb.
Qed.
Lemma gmul_1_l x : is_byte x -> gmul 1 x = x.
Proof.
  revert x. refine (byte_ind (fun x => gmul 1 x = x) _ _ _); [by rewrite gmul_0_r| |].
  - intros i Hi. assert (Hc : forallb (fun i => gmul 1 i =? i) basis = true) by (vm_compute; reflexivity).
    rewrite forallb_forall in Hc. by apply Z.eqb_eq, Hc, list_elem_of_In.
  - intros a b Ha Hb Ea Eb. rewrite gmul_lin_r, Ea, Eb; [done|]. unfold is_byte. lia.
Qed.
Lemma gmul_assoc x y z : is_byte x -> is_byte y -> is_byte z -> gmul x (gmul y z) = gmul (gmul x y) z.
Proof.
  intros Hx Hy. revert z. apply byte_ind.
  - by rewrite !gmul_0_r by (by try apply gmul_byte).
  - intros k Hk. pose proof (basis_byte k Hk) as Hkb. revert y Hy. apply byte_ind.
    + by rewrite gmul_0_l, gmul_0_r, gmul_0_l.
    + intros j Hj. pose proof (basis_byte j Hj) as Hjb. revert x Hx. apply byte_ind.
      * by rewrite !gmul_0_l.
      * intros i Hi.
        assert (Hc : forallb (fun i => forallb (fun j => forallb (fun k =>
                      gmul i (gmul j k) =? gmul (gmul i j) k) basis) basis) basis = true) by (vm_compute; reflexivity).
        rewrite forallb_forall in Hc. specialize (Hc i (proj1 (list_elem_of_In _ _) Hi)).
        rewrite forallb_forall in Hc. specialize (Hc j (proj1 (list_elem_of_In _ _) Hj)).
        rewrite forallb_forall in Hc. by apply Z.eqb_eq, Hc, list_elem_of_In.
      * intros a b Ha Hb Ea Eb. by rewrite !gmul_lin_l, Ea, Eb by (by try apply gmul_byte).
    + intros a b Ha Hb Ea Eb.
      by rewrite gmul_lin_l, !gmul_lin_r, gmul_lin_l, Ea, Eb by (by try apply gmul_byte).
  - intros a b Ha Hb Ea Eb. by rewrite !gmul_lin_r, Ea, Eb by (by try apply gmul_byte).
Qed.
Lemma times2_gmul z : is_byte z -> times2 z = gmul 2 z.
Proof.
  revert z. refine (byte_ind (fun z => times2 z = gmul 2 z) _ _ _); [by rewrite gmul_0_r| |].
  - intros i Hi. assert (Hc : forallb (fun i => times2 i =? gmul 2 i) basis = true) by (vm_compute; reflexivity).
    rewrite forallb_forall in Hc. by apply Z.eqb_eq, Hc, list_elem_of_In.
  - intros a b Ha Hb Ea Eb. rewrite times2_lxor, gmul_lin_r, Ea, Eb by done || (unfold is_byte; lia). done.
Qed.

(** ** The product by the book: multiply the polynomials, then divide by
    x^8 + x^4 + x^3 + x^2 + 1. *)

Definition bit_at (v i : Z) : Z := Z.land (Z.shiftr v i) 1.
Definition clmul (x y : Z) : Z :=
  foldr (fun i z => Z.lxor (bit_at y i * Z.shiftl x i) z) 0 [0; 1; 2; 3; 4; 5; 6; 7].
Definition reduce (z : Z) : Z :=
  foldl (fun z i => Z.lxor z (bit_at z (8 + i) * Z.shiftl 285 i)) z [6; 5; 4; 3; 2; 1; 0].
Definition field_mul (x y : Z) : Z := reduce (clmul x y).

Lemma bit_at_lxor x y i : bit_at (Z.lxor x y) i = Z.lxor (bit_at x i) (bit_at y i).
Proof.
  unfold bit_at. rewrite Z.shiftr_lxor. apply Z.bits_inj'. intros k Hk.
  rewrite !Z.land_spec, !Z.lxor_spec, !Z.land_spec.
  by destruct (Z.testbit _ _), (Z.testbit _ _), (Z.testbit _ _).
Qed.
Lemma clmul_lin_l x x' y : clmul (Z.lxor x x') y = Z.lxor (clmul x y) (clmul x' y).
Proof.
  unfold clmul. generalize [0; 1; 2; 3; 4; 5; 6; 7]. intros l.
  induction l as [|i l IH]; [done|]. cbn [foldr].
  by rewrite IH, Z.shiftl_lxor, bit_scale_r, lxor_swap by apply bit_land.
Qed.
Lemma clmul_lin_r x y y' : clmul x (Z.lxor y y') = Z.lxor (clmul x y) (clmul x y').
Proof.
  unfold clmul. generalize [0; 1; 2; 3; 4; 5; 6; 7]. intros l.
  induction l as [|i l IH]; [done|]. cbn [foldr].
  by rewrite IH, bit_at_lxor, bit_scale_l, lxor_swap by apply bit_land.
Qed.
Lemma reduce_lin z z' : reduce (Z.lxor z z') = Z.lxor (reduce z) (reduce z').
Proof.
  unfold reduce. generalize [6; 5; 4; 3; 2; 1; 0]. intros l. revert z z'.
  induction l as [|i l IH]; intros z z'; [done|]. cbn [foldl].
  by rewrite <- IH, bit_at_lxor, bit_scale_l, lxor_swap by apply bit_land.
Qed.
Lemma field_mul_0_r x : reduce (clmul x 0) = 0.
Proof. change 0 with (Z.lxor 0 0) at 1. by rewrite clmul_lin_r, reduce_lin, Z.lxor_nilpotent. Qed.
Lemma field_mul_0_l y : reduce (clmul 0 y) = 0.
Proof. change 0 with (Z.lxor 0 0) at 1. by rewrite clmul_lin_l, reduce_lin, Z.lxor_nilpotent. Qed.
Lemma gmul_field_mul x y : is_byte x -> is_byte y -> gmul x y = field_mul x y.
Proof.
  unfold field_mul. intros Hx. revert y. apply byte_ind.
  - by rewrite gmul_0_r, field_mul_0_r.
  - intros j Hj. pose proof (basis_byte j Hj) as Hjb. revert x Hx. apply byte_ind.
    + by rewrite gmul_0_l, field_mul_0_l.
    + intros i Hi.
      assert (Hc : forallb (fun i => forallb (fun j => gmul i j =? reduce (clmul i j)) basis) basis = true) by (vm_compute; reflexivity).
      rewrite forallb_forall in Hc. specialize (Hc i (proj1 (list_elem_of_In _ _) Hi)). rewrite forallb_forall in Hc.
      by apply Z.eqb_eq, Hc, list_elem_of_In.
    + intros a b Ha Hb Ea Eb. by rewrite gmul_lin_l, clmul_lin_l, reduce_lin, Ea, Eb.
  - intros a b Ha Hb Ea Eb. by rewrite gmul_lin_r, clmul_lin_r, reduce_lin, Ea, Eb.
Qed.

(** ** The ring *)

Record gf := mkgf { gv : Z; gv_ok : byteb gv = true }.
Lemma gf_eq a b : gv a = gv b -> a = b.
Proof. destruct a as [a Ha], b as [b Hb]. cbn. intros <-. f_equal. apply UIP_dec, Bool.bool_dec. Qed.
Lemma gv_byte a : is_byte (gv a).
Proof. apply byteb_true, gv_ok. Qed.
Definition of_byte (z : Z) (H : is_byte z) : gf := mkgf z (proj2 (byteb_true z) H).
Definition g0 : gf := mkgf 0 eq_refl.
Definition g1 : gf := mkgf 1 eq_refl.
Definition gadd (a b : gf) : gf := of_byte _ (byte_lxor _ _ (gv_byte a) (gv_byte b)).
Definition gprod (a b : gf) : gf := of_byte _ (gmul_byte _ (gv b) (gv_byte a)).
Definition gopp (a : gf) : gf := a.
Lemma gf_theory : ring_theory g0 g1 gadd gprod gadd gopp eq.
Proof.
  split; intros; apply gf_eq; cbn.
  - apply Z.lxor_0_l.
  - apply Z.lxor_comm.
  - symmetry. apply Z.lxor_assoc.
  - apply gmul_1_l, gv_byte.
  - apply gmul_comm; apply gv_byte.
  - apply gmul_assoc; apply gv_byte.
  - apply gmul_lin_l; apply gv_byte.
  - done.
  - apply Z.lxor_nilpotent.
Qed.
Add Ring gf_ring : gf_theory.
Lemma gadd_self a : gadd a a = g0.
Proof. apply gf_eq, Z.lxor_nilpotent. Qed.

(** Lists of bytes are lists of field elements. *)
Lemma bytes_gf l : Forall is_byte l -> exists gs, l = gv <$> gs.
Proof.
  induction 1 as [|b l Hb _ [gs ->]]; [by exists []|]. by exists (of_byte b Hb :: gs).
Qed.
Lemma gf_bytes gs : Forall is_byte (gv <$> gs).
Proof. apply Forall_fmap, Forall_forall. intros g _. apply gv_byte. Qed.

#[local] Declare Scope gf_scope.
#[local] Infix "+" := gadd : gf_scope.
#[local] Infix "*" := gprod : gf_scope.
#[local] Delimit Scope gf_scope with G.

(** ** Polynomials, highest power first *)

Definition peval (p : list gf) (x : gf) : gf := foldl (fun a c => (a * x + c)%G) g0 p.
Fixpoint gpow (x : gf) (n : nat) : gf := match n with O => g1 | S n => (x * gpow x n)%G end.

Lemma peval_from a p x : foldl (fun a c => (a * x + c)%G) a p = (a * gpow x (length p) + peval p x)%G.
Proof.
  unfold peval. revert a. induction p as [|c p IH]; intros a; cbn [foldl length gpow]; [ring|].
  rewrite IH, (IH (g0 * x + c)%G). ring.
Qed.
Lemma peval_cons c p x : peval (c :: p) x = (c * gpow x (length p) + peval p x)%G.
Proof. unfold peval at 1. cbn [foldl]. rewrite peval_from. ring. Qed.
Lemma peval_app p q x : peval (p ++ q) x = (peval p x * gpow x (length q) + peval q x)%G.
Proof. unfold peval at 1. rewrite foldl_app. apply peval_from. Qed.
Lemma peval_zeros n x : peval (replicate n g0) x = g0.
Proof. induction n as [|n IH]; [done|]. cbn [replicate]. rewrite peval_cons, IH. ring. Qed.
Lemma peval_snoc p c x : peval (p ++ [c]) x = (peval p x * x + c)%G.
Proof. rewrite peval_app. unfold peval at 2. cbn. ring. Qed.

(** ** The generator *)

Definition head0 (l : list gf) : gf := match l with a :: _ => a | [] => g0 end.
Fixpoint times_root_gf (r : gf) (cs : list gf) : list gf :=
  match cs with [] => [] | c :: rest => (c * r + head0 rest)%G :: times_root_gf r rest end.

Lemma times_root_run r cs : times_root (gv r) (gv <$> cs) = inr (gv <$> times_root_gf r cs).
Proof.
  induction cs as [|c cs IH]; [done|]. rewrite fmap_cons. cbn [times_root].
  rewrite multiply_gmul by apply gv_byte. cbn [mbind exc_bind]. rewrite IH.
  cbn [mbind exc_bind times_root_gf]. destruct cs as [|d cs]; cbn; [|done]. by rewrite Z.lxor_0_r.
Qed.
Lemma length_times_root r cs : length (times_root_gf r cs) = length cs.
Proof. induction cs as [|c cs IH]; cbn; [done|by rewrite IH]. Qed.

(** Multiplied by [x + r], the leading coefficient dropped. *)
Lemma peval_times_root r cs x :
  peval (times_root_gf r cs) x = ((x + r) * peval cs x + head0 cs * gpow x (length cs))%G.
Proof.
  induction cs as [|c cs IH]; [unfold peval; cbn; ring|].
  cbn [times_root_gf]. rewrite !peval_cons, IH, length_times_root. cbn [head0 length gpow].
  set (n := gpow x (length cs)). set (p := peval cs x). set (h := head0 cs).
  transitivity ((c * r * n + (x + r) * p) + (h * n + h * n))%G; [ring|]. rewrite gadd_self.
  transitivity ((c * r * n + (x + r) * p) + (c * x * n + c * x * n))%G; [rewrite gadd_self; ring|ring].
Qed.
Lemma times_root_zeros r m cs : times_root_gf r (replicate (S m) g0 ++ g1 :: cs) =
  replicate m g0 ++ g1 :: times_root_gf r (g1 :: cs).
Proof.
  induction m as [|m IH]; cbn [replicate app times_root_gf head0] in *.
  - f_equal. ring.
  - f_equal; [ring|]. exact IH.
Qed.

(** The roots: the powers of 2. *)
Definition alpha (i : nat) : Z := Nat.iter i times2 1.
Lemma alpha_byte i : is_byte (alpha i).
Proof. induction i as [|i IH]; [unfold alpha, is_byte; cbn; lia|]. by apply times2_byte. Qed.
Definition root (i : nat) : gf := of_byte _ (alpha_byte i).
Fixpoint product (n : nat) (x : gf) : gf :=
  match n with O => g1 | S n => ((x + root n) * product n x)%G end.

Lemma product_root n i : (i < n)%nat -> product n (root i) = g0.
Proof.
  induction n as [|n IH]; intros Hi; [lia|]. cbn [product]. destruct (decide (i = n)) as [->|].
  - rewrite gadd_self. ring.
  - rewrite IH by lia. ring.
Qed.

Lemma generator_loop_run n k cs x :
  peval (g1 :: cs) x = product k x -> length cs = k ->
  exists cs', generator_loop (S n) (alpha k) (gv <$> (replicate n g0 ++ g1 :: cs)) = inr (gv <$> cs') /\
    length cs' = S (n + k) /\ (gpow x (S (n + k)) + peval cs' x)%G = product (S (n + k)) x.
Proof.
  revert k cs. induction n as [|n IH]; intros k cs Hp Hk; cbn [generator_loop replicate app].
  - change (u8 (alpha k)) with (alpha k mod 256). rewrite Z.mod_small by apply alpha_byte.
    change (alpha k) with (gv (root k)). rewrite times_root_run. cbn [mbind exc_bind].
    exists (times_root_gf (root k) (g1 :: cs)). split; [done|]. rewrite length_times_root. cbn [length]. split; [lia|].
    rewrite peval_times_root, Hp. cbn [head0 length plus product]. rewrite Hk.
    transitivity ((x + root k) * product k x + (gpow x (S k) + gpow x (S k)))%G; [ring|]. rewrite gadd_self. ring.
  - change (u8 (alpha k)) with (alpha k mod 256). rewrite Z.mod_small by apply alpha_byte.
    change (g0 :: replicate n g0 ++ g1 :: cs) with (replicate (S n) g0 ++ g1 :: cs).
    assert (E := times_root_run (root k) (replicate (S n) g0 ++ g1 :: cs)). change (gv (root k)) with (alpha k) in E.
    rewrite E, times_root_zeros. cbn [mbind exc_bind].
    destruct (IH (S k) (times_root_gf (root k) (g1 :: cs))) as (cs' & E' & Hl & He).
    + rewrite peval_cons, length_times_root, peval_times_root, Hp. cbn [head0 length product]. rewrite Hk.
      transitivity ((x + root k) * product k x + (gpow x (S k) + gpow x (S k)))%G; [ring|]. rewrite gadd_self. ring.
    + rewrite length_times_root. cbn. by rewrite Hk.
    + exists cs'. replace (S n + k)%nat with (n + S k)%nat by lia. done.
Qed.

(** The constructor never throws for the degrees it accepts. *)
Lemma ReedSolomonGenerator_run degree : 1 <= degree <= 255 ->
  exists cs, ReedSolomonGenerator degree = inr (gv <$> cs) /\ length cs = Z.to_nat degree /\
    forall x, (gpow x (length cs) + peval cs x)%G = product (Z.to_nat degree) x.
Proof.
  intros Hd. unfold ReedSolomonGenerator. destruct (Z.ltb_spec degree 1), (Z.ltb_spec 255 degree); [lia..|].
  cbn [orb throw_if mbind exc_bind mret exc_ret].
  set (n := (Z.to_nat degree - 1)%nat). replace (Z.to_nat degree) with (S n) by lia.
  rewrite set_at_lt by (unfold zlen; rewrite length_replicate; lia). cbn [mbind exc_bind].
  replace (Z.to_nat (degree - 1)) with n by lia.
  assert (Hz : <[n := 1]> (replicate (S n) 0) = gv <$> (replicate n g0 ++ [g1])).
  { rewrite fmap_app, fmap_replicate. replace (S n) with (n + 1)%nat by lia. rewrite replicate_add.
    pose proof (insert_app_r (replicate n 0) [0] 0 1) as Hi. rewrite length_replicate, Nat.add_0_r in Hi. exact Hi. }
  rewrite Hz. destruct (generator_loop_run n 0 [] g0) as (cs & E & Hl & _); [unfold peval; cbn; ring|done|].
  exists cs. split; [exact E|]. rewrite Nat.add_0_r in Hl. split; [done|]. intros x.
  destruct (generator_loop_run n 0 [] x) as (cs' & E' & Hl' & He); [unfold peval; cbn; ring|done|].
  rewrite E in E'. assert (cs' = cs) as ->.
  { assert (Inj (=) (=) gv) by (intros a b; apply gf_eq). apply (inj (fmap (M:=list) gv)). congruence. }
  by rewrite Hl', Nat.add_0_r in *.
Qed.

(** ** The remainder *)

Definition add_multiple_gf (f : gf) (cs res : list gf) : list gf := zip_with (fun r c => (r + c * f)%G) res cs.
Lemma add_multiple_run cs res f : length cs = length res ->
  add_multiple (gv <$> cs) (gv <$> res) (gv f) = inr (gv <$> add_multiple_gf f cs res).
Proof.
  revert cs. induction res as [|r res IH]; intros [|c cs] Hl; try done. rewrite !fmap_cons. cbn [add_multiple].
  rewrite multiply_gmul by apply gv_byte. cbn [mbind exc_bind]. rewrite IH by (cbn in Hl; lia). done.
Qed.
Lemma peval_add_multiple f cs res x : length cs = length res ->
  peval (add_multiple_gf f cs res) x = (peval res x + f * peval cs x)%G.
Proof.
  revert cs. induction res as [|r res IH]; intros [|c cs] Hl; try done; [unfold peval; cbn; ring|].
  cbn in Hl. injection Hl as Hl. unfold add_multiple_gf in *. cbn [zip_with]. rewrite !peval_cons, IH by done.
  rewrite length_zip_with_l_eq by lia. rewrite Hl. ring.
Qed.
Lemma length_add_multiple f cs res : length cs = length res -> length (add_multiple_gf f cs res) = length res.
Proof. intros H. unfold add_multiple_gf. apply length_zip_with_l_eq. lia. Qed.

Definition remainder_step_gf (cs res : list gf) (d : gf) : list gf :=
  add_multiple_gf (d + head0 res)%G cs (tail res ++ [g0]).

Section Remainder.
Context (cs : list gf) (Hcs : cs <> []).

Lemma remainder_step_run res d : length res = length cs ->
  remainder_step (gv <$> cs) (gv <$> res) (gv d) = inr (gv <$> remainder_step_gf cs res d) /\
  length (remainder_step_gf cs res d) = length cs.
Proof using Hcs.
  intros Hl. unfold remainder_step, remainder_step_gf.
  destruct res as [|r res]; [destruct cs; [done|done]|]. cbn in Hl.
  assert (Hs : length cs = length (res ++ [g0])) by (rewrite length_app; cbn; lia).
  split.
  - cbn [fmap list_fmap]. change (at_ (gv r :: _) 0) with (inr (gv r) : exc Z). cbn [mbind exc_bind].
    unfold shift. cbn [tail head0]. change [0] with (gv <$> [g0]). change (list_fmap gf Z gv res) with (gv <$> res).
    rewrite <- fmap_app. change (Z.lxor (gv d) (gv r)) with (gv (d + r)%G). by apply add_multiple_run.
  - cbn [tail]. rewrite length_add_multiple by done. by rewrite <- Hs.
Qed.

(** At a root of the generator, dividing keeps the value. *)
Lemma remainder_step_peval res d x : length res = length cs ->
  (gpow x (length cs) + peval cs x)%G = g0 ->
  peval (remainder_step_gf cs res d) x = (x * peval res x + d * gpow x (length cs))%G.
Proof using Hcs.
  intros Hl Hx. unfold remainder_step_gf. destruct res as [|r res]; [destruct cs; done|]. cbn in Hl.
  rewrite peval_add_multiple by (cbn [tail]; rewrite length_app; cbn; lia). cbn [tail head0].
  rewrite peval_snoc, peval_cons.
  assert (Hc : peval cs x = gpow x (length cs)).
  { transitivity (gpow x (length cs) + peval cs x + gpow x (length cs))%G; [|rewrite Hx; ring].
    transitivity (peval cs x + (gpow x (length cs) + gpow x (length cs)))%G; [rewrite gadd_self; ring|ring]. }
  rewrite Hc. rewrite <- Hl. cbn [gpow]. ring.
Qed.

Lemma getRemainder_run data :
  exists rem, getRemainder (gv <$> cs) (gv <$> data) = inr (gv <$> rem) /\ length rem = length cs /\
    forall x, (gpow x (length cs) + peval cs x)%G = g0 -> peval (data ++ rem) x = g0.
Proof using Hcs.
  unfold getRemainder. rewrite length_fmap.
  cut (forall done res, length res = length cs ->
    (forall x, (gpow x (length cs) + peval cs x)%G = g0 -> peval (done ++ res) x = g0) ->
    exists rem, exc_fold (remainder_step (gv <$> cs)) (gv <$> res) (gv <$> data) = inr (gv <$> rem) /\
      length rem = length cs /\
      forall x, (gpow x (length cs) + peval cs x)%G = g0 -> peval ((done ++ data) ++ rem) x = g0).
  { intros H. destruct (H [] (replicate (length cs) g0)) as (rem & E & Hl & Hx).
    - apply length_replicate.
    - intros x _. apply peval_zeros.
    - exists rem. rewrite fmap_replicate in E. done. }
  induction data as [|d data IH]; intros done res Hl Hx.
  - exists res. rewrite app_nil_r. done.
  - rewrite fmap_cons. cbn [exc_fold]. destruct (remainder_step_run res d Hl) as [-> Hl']. cbn [mbind exc_bind].
    destruct (IH (done ++ [d]) _ Hl') as (rem & E & Hr & He).
    + intros x Hroot. specialize (Hx x Hroot). rewrite peval_app in Hx. rewrite Hl in Hx.
      rewrite peval_app, peval_snoc, Hl', remainder_step_peval by done.
      transitivity (x * (peval done x * gpow x (length cs) + peval res x) +
                    (d * gpow x (length cs) + d * gpow x (length cs)))%G; [ring|]. rewrite Hx, gadd_self. ring.
    + exists rem. rewrite <- (app_assoc done [d] data) in He. done.
Qed.
End Remainder.

(** ** The theorem *)

(** A polynomial over the bytes, with the product by the book. *)
Definition evaluate (p : list Z) (x : Z) : Z := foldl (fun a c => Z.lxor (field_mul a x) c) 0 p.
Lemma evaluate_peval p x : evaluate (gv <$> p) (gv x) = gv (peval p x).
Proof.
  unfold evaluate, peval. change 0 with (gv g0). generalize g0. induction p as [|c p IH]; intros a; [done|].
  rewrite fmap_cons. cbn [foldl]. rewrite <- IH. f_equal. rewrite <- gmul_field_mul by apply gv_byte. done.
Qed.

(** Error correction: for every degree the encoder uses and all data, the
    generator and the remainder are calculated without an assertion failing, the
    remainder has the length of the degree, and the data followed by it is a
    polynomial that vanishes at the powers 2^0, ..., 2^(degree-1) of the field: all
    the syndromes a reader calculates are zero. *)
Lemma reed_solomon_codeword degree data : 1 <= degree <= 255 -> Forall is_byte data ->
  exists cs ecc, ReedSolomonGenerator degree = inr cs /\ getRemainder cs data = inr ecc /\
    zlen ecc = degree /\ Forall is_byte ecc /\
    forall i, (i < Z.to_nat degree)%nat -> evaluate (data ++ ecc) (alpha i) = 0.
Proof.
  intros Hdegree Hdata.
  destruct (bytes_gf data Hdata) as [gs ->].
  destruct (ReedSolomonGenerator_run degree Hdegree) as (cs & E & Hl & Hroots).
  destruct (getRemainder_run cs) with (data := gs) as (rem & Er & Hlr & Hx); [intros ->; cbn in Hl; lia|].
  exists (gv <$> cs), (gv <$> rem). split_and!; [done|done| |apply gf_bytes|].
  - unfold zlen. rewrite length_fmap, Hlr, Hl. lia.
  - intros i Hi. rewrite <- fmap_app. change (alpha i) with (gv (root i)). rewrite evaluate_peval, Hx; [done|].
    rewrite Hroots. by apply product_root.
Qed.
