(* ===== verification/QrCode.v ===== *)
(** The QR encoder: src/recovery/libs/QRCode/QrCode.cpp.  The grids are vectors of
    rows; every access goes through [at], as in the code. *)
From S2P Require Import Prelude CText Exc QrBits ReedSolomon.
Local Open Scope list_scope.
Local Open Scope Z_scope.

(** ** Error correction levels *)

Record Ecc := mkEcc { ordinal : Z; formatBits : Z }.
Definition LOW : Ecc := mkEcc 0 1.
Definition MEDIUM : Ecc := mkEcc 1 0.
Definition QUARTILE : Ecc := mkEcc 2 3.
Definition HIGH : Ecc := mkEcc 3 2.

(** ** Tables *)

Definition PENALTY_N1 : Z := 3.
Definition PENALTY_N2 : Z := 3.
Definition PENALTY_N3 : Z := 40.
Definition PENALTY_N4 : Z := 10.

Definition NUM_ERROR_CORRECTION_CODEWORDS : list (list Z) := [
  [-1;  7; 10; 15; 20; 26;  36;  40;  48;  60;  72;  80;  96; 104; 120; 132; 144; 168; 180; 196; 224; 224; 252; 270; 300;  312;  336;  360;  390;  420;  450;  480;  510;  540;  570;  570;  600;  630;  660;  720;  750];
  [-1; 10; 16; 26; 36; 48;  64;  72;  88; 110; 130; 150; 176; 198; 216; 240; 280; 308; 338; 364; 416; 442; 476; 504; 560;  588;  644;  700;  728;  784;  812;  868;  924;  980; 1036; 1064; 1120; 1204; 1260; 1316; 1372];
  [-1; 13; 22; 36; 52; 72;  96; 108; 132; 160; 192; 224; 260; 288; 320; 360; 408; 448; 504; 546; 600; 644; 690; 750; 810;  870;  952; 1020; 1050; 1140; 1200; 1290; 1350; 1440; 1530; 1590; 1680; 1770; 1860; 1950; 2040];
  [-1; 17; 28; 44; 64; 88; 112; 130; 156; 192; 224; 264; 308; 352; 384; 432; 480; 532; 588; 650; 700; 750; 816; 900; 960; 1050; 1110; 1200; 1260; 1350; 1440; 1530; 1620; 1710; 1800; 1890; 1980; 2100; 2220; 2310; 2430]].
Definition NUM_ERROR_CORRECTION_BLOCKS : list (list Z) := [
  [-1; 1; 1; 1; 1; 1; 2; 2; 2; 2; 4;  4;  4;  4;  4;  6;  6;  6;  6;  7;  8;  8;  9;  9; 10; 12; 12; 12; 13; 14; 15; 16; 17; 18; 19; 19; 20; 21; 22; 24; 25];
  [-1; 1; 1; 1; 2; 2; 4; 4; 4; 5; 5;  5;  8;  9;  9; 10; 10; 11; 13; 14; 16; 17; 17; 18; 20; 21; 23; 25; 26; 28; 29; 31; 33; 35; 37; 38; 40; 43; 45; 47; 49];
  [-1; 1; 1; 2; 2; 4; 4; 6; 6; 8; 8;  8; 10; 12; 16; 12; 17; 16; 18; 21; 20; 23; 23; 25; 27; 29; 34; 34; 35; 38; 40; 43; 45; 48; 51; 53; 56; 59; 62; 65; 68];
  [-1; 1; 1; 2; 4; 4; 4; 5; 6; 8; 8; 11; 11; 16; 16; 18; 16; 19; 21; 25; 25; 25; 34; 30; 32; 35; 37; 40; 42; 45; 48; 51; 54; 57; 60; 63; 66; 70; 74; 77; 81]].
(** [table[ecl.ordinal][ver]] of an array; the arguments are in range. *)
Definition table (t : list (list Z)) (ecl : Ecc) (ver : Z) : exc Z :=
  row ← at_ t (ordinal ecl); at_ row ver.

Definition getNumRawDataModules (ver : Z) : exc Z :=
  throw_if ((ver <? 1) || (40 <? ver)) "Version number out of range";;
  let result := (16 * ver + 128) * ver + 64 in
  if 2 <=? ver then
    let numAlign := Z.quot ver 7 + 2 in
    let result := result - ((25 * numAlign - 10) * numAlign - 55) in
    mret (if 7 <=? ver then result - 18 * 2 else result)
  else mret result.

Definition getNumDataCodewords (ver : Z) (ecl : Ecc) : exc Z :=
  throw_if ((ver <? 1) || (40 <? ver)) "Version number out of range";;
  raw ← getNumRawDataModules ver;
  ecc ← table NUM_ERROR_CORRECTION_CODEWORDS ecl ver;
  mret (Z.quot raw 8 - ecc).

(** The rounds [i = 0, ..., n - 1]: positions are inserted in front. *)
Fixpoint align_loop (n : nat) (pos step : Z) (result : list Z) : list Z :=
  match n with O => result | S n => align_loop n (pos - step) step (pos :: result) end.
Definition getAlignmentPatternPositions (ver : Z) : exc (list Z) :=
  if (ver <? 1) || (40 <? ver) then throw "Version number out of range"
  else if ver =? 1 then mret []
  else
    let numAlign := Z.quot ver 7 + 2 in
    let step := if negb (ver =? 32) then Z.quot (ver * 4 + numAlign * 2 + 1) (2 * numAlign - 2) * 2 else 26 in
    let size := ver * 4 + 17 in
    mret (6 :: align_loop (Z.to_nat (numAlign - 1)) (size - 7) step []).

(** ** The symbol *)

Abbreviation grid := (list (list bool)).
Record QrCode := mkQrCode {
  version : Z; size : Z; errorCorrectionLevel : Ecc; qr_mask : Z; modules : grid; isFunction : grid }.
Definition set_modules (m : grid) (qr : QrCode) : QrCode :=
  mkQrCode (version qr) (size qr) (errorCorrectionLevel qr) (qr_mask qr) m (isFunction qr).
Definition set_grids (m f : grid) (qr : QrCode) : QrCode :=
  mkQrCode (version qr) (size qr) (errorCorrectionLevel qr) (qr_mask qr) m f.
Definition set_qr_mask (k : Z) (qr : QrCode) : QrCode :=
  mkQrCode (version qr) (size qr) (errorCorrectionLevel qr) k (modules qr) (isFunction qr).

(** [g.at(y).at(x)] and [g.at(y).at(x) = b] *)
Definition grid_at (g : grid) (x y : Z) : exc bool := row ← at_ g y; at_ row x.
Definition grid_set (g : grid) (x y : Z) (b : bool) : exc grid :=
  row ← at_ g y; row ← set_at row x b; set_at g y row.

Definition setFunctionModule (qr : QrCode) (x y : Z) (isBlack : bool) : exc QrCode :=
  m ← grid_set (modules qr) x y isBlack;
  f ← grid_set (isFunction qr) x y true;
  mret (set_grids m f qr).

Definition getMask (qr : QrCode) : Z := qr_mask qr.
Definition getModule (qr : QrCode) (x y : Z) : exc Z :=
  if (0 <=? x) && (x <? size qr) && (0 <=? y) && (y <? size qr)
  then b ← grid_at (modules qr) x y; mret (if (b : bool) then 1 else 0)
  else mret 0.

(** ** Function patterns *)

Definition for_range (lo hi : Z) (qr : QrCode) (f : QrCode -> Z -> exc QrCode) : exc QrCode :=
  exc_fold f qr (range lo hi).

Definition drawFinderPattern (qr : QrCode) (x y : Z) : exc QrCode :=
  for_range (-4) 5 qr (fun qr i =>
    for_range (-4) 5 qr (fun qr j =>
      let dist := Z.max (Z.abs i) (Z.abs j) in
      let xx := x + j in let yy := y + i in
      if (0 <=? xx) && (xx <? size qr) && (0 <=? yy) && (yy <? size qr)
      then setFunctionModule qr xx yy (negb (dist =? 2) && negb (dist =? 4))
      else mret qr)).

Definition drawAlignmentPattern (qr : QrCode) (x y : Z) : exc QrCode :=
  for_range (-2) 3 qr (fun qr i =>
    for_range (-2) 3 qr (fun qr j =>
      setFunctionModule qr (x + j) (y + i) (negb (Z.max (Z.abs i) (Z.abs j) =? 1)))).

(** [rem = (rem << 1) ^ ((rem >> top) * poly)], [n] times. *)
Fixpoint bch_loop (n : nat) (top poly rem : Z) : Z :=
  match n with
  | O => rem
  | S n => bch_loop n top poly (Z.lxor (Z.shiftl rem 1) (Z.shiftr rem top * poly))
  end.
Definition bit_of (data i : Z) : bool := negb (Z.land (Z.shiftr data i) 1 =? 0).

Definition format_data (ecl : Ecc) (mask : Z) : Z :=
  let data := Z.lor (Z.shiftl (formatBits ecl) 3) mask in
  let rem := bch_loop 10 9 1335 data in
  Z.lxor (Z.lor (Z.shiftl data 10) rem) 21522.

Definition drawFormatBits (qr : QrCode) (mask : Z) : exc QrCode :=
  let data := format_data (errorCorrectionLevel qr) mask in
  throw_if (negb (Z.shiftr data 15 =? 0)) "Assertion error";;
  qr ← for_range 0 6 qr (fun qr i => setFunctionModule qr 8 i (bit_of data i));
  qr ← setFunctionModule qr 8 7 (bit_of data 6);
  qr ← setFunctionModule qr 8 8 (bit_of data 7);
  qr ← setFunctionModule qr 7 8 (bit_of data 8);
  qr ← for_range 9 15 qr (fun qr i => setFunctionModule qr (14 - i) 8 (bit_of data i));
  qr ← for_range 0 8 qr (fun qr i => setFunctionModule qr (size qr - 1 - i) 8 (bit_of data i));
  qr ← for_range 8 15 qr (fun qr i => setFunctionModule qr 8 (size qr - 15 + i) (bit_of data i));
  setFunctionModule qr 8 (size qr - 8) true.

Definition version_data (ver : Z) : Z := Z.lor (Z.shiftl ver 12) (bch_loop 12 11 7973 ver).
Definition drawVersion (qr : QrCode) : exc QrCode :=
  if version qr <? 7 then mret qr
  else
    let data := version_data (version qr) in
    throw_if (negb (Z.shiftr data 18 =? 0)) "Assertion error";;
    for_range 0 18 qr (fun qr i =>
      let bit := bit_of data i in
      let a := size qr - 11 + Z.rem i 3 in
      let b := Z.quot i 3 in
      qr ← setFunctionModule qr a b bit;
      setFunctionModule qr b a bit).

Definition drawFunctionPatterns (qr : QrCode) : exc QrCode :=
  qr ← for_range 0 (size qr) qr (fun qr i =>
    qr ← setFunctionModule qr 6 i (Z.rem i 2 =? 0);
    setFunctionModule qr i 6 (Z.rem i 2 =? 0));
  qr ← drawFinderPattern qr 3 3;
  qr ← drawFinderPattern qr (size qr - 4) 3;
  qr ← drawFinderPattern qr 3 (size qr - 4);
  alignPatPos ← getAlignmentPatternPositions (version qr);
  let numAlign := zlen alignPatPos in
  qr ← for_range 0 numAlign qr (fun qr i =>
    for_range 0 numAlign qr (fun qr j =>
      if ((i =? 0) && (j =? 0)) || ((i =? 0) && (j =? numAlign - 1)) || ((i =? numAlign - 1) && (j =? 0))
      then mret qr
      else x ← at_ alignPatPos i; y ← at_ alignPatPos j; drawAlignmentPattern qr x y));
  qr ← drawFormatBits qr 0;
  drawVersion qr.

(** ** Codewords *)

(** [dat.insert(dat.begin(), data.begin() + k, data.begin() + k + n)]; leaving the
    vector is undefined. *)
Definition slice (data : list Z) (k n : Z) : exc (list Z) :=
  throw_if ((k <? 0) || (n <? 0) || (zlen data <? k + n)) "undefined behaviour";;
  mret (take (Z.to_nat n) (drop (Z.to_nat k) data)).

(** One round of the first loop; [k] is where the next block's data begins. *)
Definition block_step (rs data : list Z) (numShortBlocks shortBlockLen blockEccLen : Z)
    (st : Z * list (list Z)) (i : Z) : exc (Z * list (list Z)) :=
  let '(k, blocks) := st in
  dat ← slice data k (shortBlockLen - blockEccLen + (if i <? numShortBlocks then 0 else 1));
  ecc ← getRemainder rs dat;
  let k := k + zlen dat in
  let dat := if i <? numShortBlocks then dat ++ [0] else dat in
  mret (k, blocks ++ [dat ++ ecc]).

Definition interleave_step (blocks : list (list Z)) (padding numShortBlocks i : Z)
    (result : list Z) (j : Z) : exc (list Z) :=
  if negb (i =? padding) || (numShortBlocks <=? j)
  then block ← at_ blocks j; b ← at_ block i; mret (result ++ [b])
  else mret result.
Definition interleave (blocks : list (list Z)) (padding numShortBlocks : Z) : exc (list Z) :=
  b0 ← at_ blocks 0;
  exc_fold (fun result i => exc_fold (interleave_step blocks padding numShortBlocks i) result (range 0 (zlen blocks)))
    [] (range 0 (zlen b0)).

Definition appendErrorCorrection (version : Z) (ecl : Ecc) (data : list Z) : exc (list Z) :=
  numData ← getNumDataCodewords version ecl;
  throw_if (negb (zlen data =? u32 numData)) "Invalid argument";;
  numBlocks ← table NUM_ERROR_CORRECTION_BLOCKS ecl version;
  totalEcc ← table NUM_ERROR_CORRECTION_CODEWORDS ecl version;
  throw_if (negb (Z.rem totalEcc numBlocks =? 0)) "Assertion error";;
  raw ← getNumRawDataModules version;
  let blockEccLen := Z.quot totalEcc numBlocks in
  let numShortBlocks := numBlocks - Z.rem (Z.quot raw 8) numBlocks in
  let shortBlockLen := Z.quot (Z.quot raw 8) numBlocks in
  rs ← ReedSolomonGenerator blockEccLen;
  '(_, blocks) ← exc_fold (block_step rs data numShortBlocks shortBlockLen blockEccLen) (0, []) (range 0 numBlocks);
  result ← interleave blocks (shortBlockLen - blockEccLen) numShortBlocks;
  throw_if (negb (zlen result =? u32 (Z.quot raw 8))) "Assertion error";;
  mret result.

(** The columns [right] takes: [size - 1], then two less each time, 5 instead of 6. *)
Fixpoint zigzag_columns (fuel : nat) (right : Z) : list Z :=
  match fuel with
  | O => []
  | S fuel =>
      if 1 <=? right then
        let right := if right =? 6 then 5 else right in
        right :: zigzag_columns fuel (right - 2)
      else []
  end.

(** The body of the three loops; the state is the grid and the bit index [i]. *)
Definition codeword_step (qr : QrCode) (data : list Z) (right vert : Z) (st : grid * Z) (j : Z) : exc (grid * Z) :=
  let '(m, i) := st in
  let x := right - j in
  let upwards := xorb (Z.land right 2 =? 0) (x <? 6) in
  let y := if upwards then size qr - 1 - vert else vert in
  f ← grid_at (isFunction qr) x y;
  if negb f && (i <? zlen data * 8) then
    b ← at_ data (Z.shiftr i 3);
    m ← grid_set m x y (bit_of b (7 - Z.land i 7));
    mret (m, i + 1)
  else mret (m, i).
Definition drawCodewords (qr : QrCode) (data : list Z) : exc QrCode :=
  raw ← getNumRawDataModules (version qr);
  throw_if (negb (zlen data =? u32 (Z.quot raw 8))) "Invalid argument";;
  '(m, i) ← exc_fold (fun st right =>
      exc_fold (fun st vert => exc_fold (codeword_step qr data right vert) st (range 0 2)) st (range 0 (size qr)))
    (modules qr, 0) (zigzag_columns (Z.to_nat (size qr)) (size qr - 1));
  throw_if (negb (u32 i =? zlen data * 8)) "Assertion error";;
  mret (set_modules m qr).

(** ** Masks *)

(** The [switch] over the mask, whose value the caller has checked. *)
Definition mask_invert (mask x y : Z) : bool :=
  match mask with
  | 0 => Z.rem (x + y) 2 =? 0
  | 1 => Z.rem y 2 =? 0
  | 2 => Z.rem x 3 =? 0
  | 3 => Z.rem (x + y) 3 =? 0
  | 4 => Z.rem (Z.quot x 3 + Z.quot y 2) 2 =? 0
  | 5 => Z.rem (x * y) 2 + Z.rem (x * y) 3 =? 0
  | 6 => Z.rem (Z.rem (x * y) 2 + Z.rem (x * y) 3) 2 =? 0
  | _ => Z.rem (Z.rem (x + y) 2 + Z.rem (x * y) 3) 2 =? 0
  end.
Definition mask_step (isFunction : grid) (mask y : Z) (m : grid) (x : Z) : exc grid :=
  b ← grid_at m x y;
  f ← grid_at isFunction x y;
  grid_set m x y (xorb b (mask_invert mask x y && negb f)).
Definition applyMask (qr : QrCode) (mask : Z) : exc QrCode :=
  throw_if ((mask <? 0) || (7 <? mask)) "Mask value out of range";;
  m ← exc_fold (fun m y => exc_fold (mask_step (isFunction qr) mask y) m (range 0 (size qr)))
        (modules qr) (range 0 (size qr));
  mret (set_modules m qr).

(** ** The penalty of a symbol *)

(** A run of modules of one colour: the colour, its length, the penalty so far. *)
Definition run_step (st : bool * Z * Z) (b : bool) : bool * Z * Z :=
  let '(color, run, result) := st in
  if negb (Bool.eqb b color) then (b, 1, result)
  else
    let run := run + 1 in
    (color, run, if run =? 5 then result + PENALTY_N1 else if 5 <? run then result + 1 else result).
(** The line whose modules are read by [line]. *)
Definition run_penalty (size : Z) (line : Z -> exc bool) (result : Z) : exc Z :=
  color ← line 0;
  '(_, _, result) ← exc_fold (fun st k => b ← line k; mret (run_step st b)) (color, 1, result) (range 1 size);
  mret result.

Definition block_penalty (g : grid) (y result x : Z) : exc Z :=
  color ← grid_at g x y;
  b1 ← grid_at g (x + 1) y;
  if Bool.eqb color b1 then
    b2 ← grid_at g x (y + 1);
    if Bool.eqb color b2 then
      b3 ← grid_at g (x + 1) (y + 1);
      mret (if Bool.eqb color b3 then result + PENALTY_N2 else result)
    else mret result
  else mret result.

(** [bits] holds the last eleven modules. *)
Definition finder_step (line : Z -> exc bool) (st : Z * Z) (k : Z) : exc (Z * Z) :=
  let '(bits, result) := st in
  b ← line k;
  let bits := Z.lor (Z.land (Z.shiftl bits 1) 2047) (if (b : bool) then 1 else 0) in
  mret (bits, if (10 <=? k) && ((bits =? 93) || (bits =? 1488)) then result + PENALTY_N3 else result).
Definition finder_penalty (size : Z) (line : Z -> exc bool) (result : Z) : exc Z :=
  '(_, result) ← exc_fold (finder_step line) (0, result) (range 0 size);
  mret result.

(** [for (int k = 0; black*20 < (9-k)*total || black*20 > (11+k)*total; k++)] *)
Fixpoint balance_loop (fuel : nat) (black total k result : Z) : Z :=
  match fuel with
  | O => result
  | S fuel =>
      if (black * 20 <? (9 - k) * total) || ((11 + k) * total <? black * 20)
      then balance_loop fuel black total (k + 1) (result + PENALTY_N4)
      else result
  end.

Definition count_black (g : grid) (size : Z) : exc Z :=
  exc_fold (fun black y => exc_fold (fun black x => b ← grid_at g x y; mret (if (b : bool) then black + 1 else black))
    black (range 0 size)) 0 (range 0 size).

Definition getPenaltyScore (qr : QrCode) : exc Z :=
  let g := modules qr in
  let n := size qr in
  result ← exc_fold (fun r y => run_penalty n (fun x => grid_at g x y) r) 0 (range 0 n);
  result ← exc_fold (fun r x => run_penalty n (fun y => grid_at g x y) r) result (range 0 n);
  result ← exc_fold (fun r y => exc_fold (block_penalty g y) r (range 0 (n - 1))) result (range 0 (n - 1));
  result ← exc_fold (fun r y => finder_penalty n (fun x => grid_at g x y) r) result (range 0 n);
  result ← exc_fold (fun r x => finder_penalty n (fun y => grid_at g x y) r) result (range 0 n);
  black ← count_black g n;
  mret (balance_loop 10 black (n * n) 0 result).

(** ** Choosing the mask *)

Definition INT32_MAX : Z := 2147483647.
Definition try_mask (st : QrCode * Z * Z) (i : Z) : exc (QrCode * Z * Z) :=
  let '(qr, mask, minPenalty) := st in
  qr ← drawFormatBits qr i;
  qr ← applyMask qr i;
  penalty ← getPenaltyScore qr;
  let '(mask, minPenalty) := if penalty <? minPenalty then (i, penalty) else (mask, minPenalty) in
  qr ← applyMask qr i;
  mret (qr, mask, minPenalty).
Definition handleConstructorMasking (qr : QrCode) (mask : Z) : exc (QrCode * Z) :=
  '(qr, mask) ← (if mask =? -1
                 then '(qr, mask, _) ← exc_fold try_mask (qr, mask, INT32_MAX) (range 0 8); mret (qr, mask)
                 else mret (qr, mask));
  throw_if ((mask <? 0) || (7 <? mask)) "Assertion error";;
  qr ← drawFormatBits qr mask;
  qr ← applyMask qr mask;
  mret (qr, mask).

(** ** Constructors *)

Definition white (size : Z) : grid := replicate (Z.to_nat size) (replicate (Z.to_nat size) false).

Definition newQrCode (ver : Z) (ecl : Ecc) (dataCodewords : list Z) (mask : Z) : exc QrCode :=
  let size := if (1 <=? ver) && (ver <=? 40) then ver * 4 + 17 else -1 in
  throw_if ((ver <? 1) || (40 <? ver) || (mask <? -1) || (7 <? mask)) "Value out of range";;
  qr ← drawFunctionPatterns (mkQrCode ver size ecl 0 (white size) (white size));
  allCodewords ← appendErrorCorrection ver ecl dataCodewords;
  qr ← drawCodewords qr allCodewords;
  '(qr, mask) ← handleConstructorMasking qr mask;
  mret (set_qr_mask mask qr).

Definition remaskQrCode (qr : QrCode) (mask : Z) : exc QrCode :=
  throw_if ((mask <? -1) || (7 <? mask)) "Mask value out of range";;
  qr ← applyMask qr (qr_mask qr);
  '(qr, mask) ← handleConstructorMasking qr mask;
  mret (set_qr_mask mask qr).

(** ** Encoding *)

(** The rounds from [version] on; [fuel] is the number of versions left. *)
Fixpoint find_version (fuel : nat) (segs : list QrSegment) (ecl : Ecc) (version maxVersion : Z) : exc (Z * Z) :=
  numData ← getNumDataCodewords version ecl;
  dataUsedBits ← getTotalBits segs version;
  if negb (dataUsedBits =? -1) && (dataUsedBits <=? numData * 8) then mret (version, dataUsedBits)
  else if maxVersion <=? version then throw "Data too long"
  else match fuel with O => throw "Data too long" | S fuel => find_version fuel segs ecl (version + 1) maxVersion end.

Definition boost_step (version dataUsedBits : Z) (newEcl ecl : Ecc) : exc Ecc :=
  numData ← getNumDataCodewords version ecl;
  mret (if dataUsedBits <=? numData * 8 then ecl else newEcl).

Definition append_segment (version : Z) (bb : BitBuffer) (seg : QrSegment) : exc BitBuffer :=
  bb ← appendBits bb (modeBits (seg_mode seg)) 4;
  n ← numCharCountBits (seg_mode seg) version;
  bb ← appendBits bb (numChars seg) n;
  appendData bb seg.

(** [for (padByte = 0xEC; bb.getBitLength() < capacity; padByte ^= 0xEC ^ 0x11)] *)
Fixpoint pad_loop (fuel : nat) (bb : BitBuffer) (dataCapacityBits padByte : Z) : exc BitBuffer :=
  if getBitLength bb <? dataCapacityBits then
    match fuel with
    | O => mret bb
    | S fuel =>
        bb ← appendBits bb padByte 8;
        pad_loop fuel bb dataCapacityBits (u8 (Z.lxor padByte (Z.lxor 236 17)))
    end
  else mret bb.

(** The arguments [encodeSegments] gives the constructor. *)
Definition encode_codewords (segs : list QrSegment) (ecl : Ecc) (minVersion maxVersion mask : Z) (boostEcl : bool)
    : exc (Z * Ecc * list Z) :=
  throw_if (negb ((1 <=? minVersion) && (minVersion <=? maxVersion) && (maxVersion <=? 40)) || (mask <? -1) || (7 <? mask))
    "Invalid value";;
  '(version, dataUsedBits) ← find_version 40 segs ecl minVersion maxVersion;
  throw_if (dataUsedBits =? -1) "Assertion error";;
  newEcl ← (if boostEcl then
              e ← boost_step version dataUsedBits ecl MEDIUM;
              e ← boost_step version dataUsedBits e QUARTILE;
              boost_step version dataUsedBits e HIGH
            else mret ecl);
  numData ← getNumDataCodewords version newEcl;
  let dataCapacityBits := numData * 8 in
  bb ← exc_fold (append_segment version) newBitBuffer segs;
  bb ← appendBits bb 0 (Z.min 4 (dataCapacityBits - getBitLength bb));
  bb ← appendBits bb 0 (Z.rem (8 - Z.rem (getBitLength bb) 8) 8);
  bb ← pad_loop (Z.to_nat dataCapacityBits) bb dataCapacityBits 236;
  throw_if (negb (Z.rem (getBitLength bb) 8 =? 0)) "Assertion error";;
  mret (version, newEcl, getBytes bb).

Definition encodeSegments (segs : list QrSegment) (ecl : Ecc) (minVersion maxVersion mask : Z) (boostEcl : bool)
    : exc QrCode :=
  '(version, newEcl, bytes) ← encode_codewords segs ecl minVersion maxVersion mask boostEcl;
  newQrCode version newEcl bytes mask.

(** The defaults of the header: versions 1 to 40, automatic mask, boosting. *)
Definition encodeText (text : string) (ecl : Ecc) : exc QrCode :=
  segs ← makeSegments text; encodeSegments segs ecl 1 40 (-1) true.
Definition encodeBinary (data : list Z) (ecl : Ecc) : exc QrCode :=
  seg ← makeBytes data; encodeSegments [seg] ecl 1 40 (-1) true.
