(* ===== verification/QrBitsFacts.v ===== *)
(** The bit buffer implements bit strings; the segments decode to their text. *)
From S2P Require Import Prelude CText Exc QrBits.
Local Open Scope list_scope.
Local Open Scope Z_scope.

(** ** Bits of numbers, most significant first *)

Fixpoint be_bits (n : nat) (v : Z) : list bool :=
  match n with O => [] | S i => Z.testbit v (Z.of_nat i) :: be_bits i v end.
Definition all_bits (data : list Z) : list bool := data ≫= be_bits 8.
(** The number a bit string stands for. *)
Definition value_of (bs : list bool) : Z := foldl (fun v b => 2 * v + Z.b2z b) 0 bs.

Lemma length_be_bits n v : length (be_bits n v) = n.
Proof. induction n as [|n IH]; cbn; [done|by rewrite IH]. Qed.
Lemma length_all_bits data : length (all_bits data) = (8 * length data)%nat.
Proof.
  induction data as [|b data IH]; [done|]. unfold all_bits in *.
  rewrite bind_cons, length_app, IH, length_be_bits. cbn [length]. lia.
Qed.
Lemma all_bits_app d d' : all_bits (d ++ d') = all_bits d ++ all_bits d'.
Proof. apply bind_app. Qed.
Lemma all_bits_cons b d : all_bits (b :: d) = be_bits 8 b ++ all_bits d.
Proof. done. Qed.

Lemma be_bits_lookup n v i : (i < n)%nat -> be_bits n v !! i = Some (Z.testbit v (Z.of_nat (n - 1 - i))).
Proof.
  revert i. induction n as [|n IH]; intros i Hi; [lia|]. destruct i as [|i]; cbn.
  - do 3 f_equal. lia.
  - rewrite IH by lia. do 3 f_equal. lia.
Qed.
Lemma all_bits_lookup data i :
  all_bits data !! i = (fun b => Z.testbit b (Z.of_nat (7 - i mod 8))) <$> data !! (i / 8)%nat.
Proof.
  revert i. induction data as [|b data IH]; intros i; [by rewrite lookup_nil|].
  rewrite all_bits_cons. destruct (decide (i < 8)%nat) as [Hi|Hi].
  - rewrite lookup_app_l by (rewrite length_be_bits; lia). rewrite be_bits_lookup by done.
    rewrite Nat.div_small, Nat.mod_small by done. cbn. do 3 f_equal.
  - rewrite lookup_app_r, length_be_bits, IH by (rewrite length_be_bits; lia).
    assert (Hd : (i / 8 = S ((i - 8) / 8))%nat).
    { rewrite <- (Nat.add_1_r ((i - 8) / 8)), <- (Nat.div_add _ 1) by lia. f_equal. lia. }
    assert (Hm : (i mod 8 = (i - 8) mod 8)%nat).
    { rewrite <- (Nat.Div0.mod_add (i - 8) 1 8). f_equal. lia. }
    by rewrite Hd, Hm.
Qed.

Lemma value_of_snoc bs b : value_of (bs ++ [b]) = 2 * value_of bs + Z.b2z b.
Proof. unfold value_of. by rewrite foldl_app. Qed.
Lemma value_of_cons b bs : value_of (b :: bs) = Z.b2z b * 2 ^ Z.of_nat (length bs) + value_of bs.
Proof.
  induction bs as [|c bs IH] using rev_ind; [cbn; lia|].
  rewrite app_comm_cons, !value_of_snoc, IH, length_app. cbn [length].
  rewrite Nat2Z.inj_add, Z.pow_add_r by lia. change (2 ^ Z.of_nat 1) with 2. lia.
Qed.
Lemma value_be_bits n v : value_of (be_bits n v) = v mod 2 ^ Z.of_nat n.
Proof.
  induction n as [|n IH]; [by rewrite Z.mod_1_r|]. cbn [be_bits].
  rewrite value_of_cons, IH, length_be_bits. rewrite Nat2Z.inj_succ, Z.pow_succ_r by lia.
  rewrite Z.testbit_spec' by lia. pose proof (Z.pow_pos_nonneg 2 (Z.of_nat n) ltac:(lia) ltac:(lia)) as Hp.
  rewrite (Z.mul_comm 2), Z.rem_mul_r by lia. lia.
Qed.
Lemma value_be_bits_small n v : 0 <= v < 2 ^ Z.of_nat n -> value_of (be_bits n v) = v.
Proof. intros H. rewrite value_be_bits. by apply Z.mod_small. Qed.

(** ** The buffer *)

(** [padded bb bs k]: the buffer holds the bits [bs], and [k] zero bits follow. *)
Definition padded (bb : BitBuffer) (bs : list bool) (k : nat) : Prop :=
  bb_bitLength bb = Z.of_nat (length bs) /\ Forall is_byte (bb_data bb) /\
  all_bits (bb_data bb) = bs ++ replicate k false.
(** The buffer implements the bit string [bs]: the last byte is filled with zeros. *)
Definition holds (bb : BitBuffer) (bs : list bool) : Prop := exists k, (k < 8)%nat /\ padded bb bs k.

Lemma holds_new : holds newBitBuffer [].
Proof. exists 0%nat. split; [lia|]. by split_and!. Qed.
Lemma holds_length bb bs : holds bb bs -> getBitLength bb = Z.of_nat (length bs).
Proof. by intros (k & _ & H & _). Qed.
Lemma holds_size bb bs : holds bb bs -> zlen (getBytes bb) = (Z.of_nat (length bs) + 7) / 8.
Proof.
  intros (k & Hk & H & _ & E). apply (f_equal length) in E.
  rewrite length_all_bits, length_app, length_replicate in E. unfold zlen, getBytes.
  apply (Z.div_unique _ _ _ (Z.of_nat (7 - k))); lia.
Qed.

Lemma b2z_bit b : Z.b2z b = 0 \/ Z.b2z b = 1.
Proof. destruct b; cbn; lia. Qed.
Lemma land1_b2z v i : 0 <= i -> Z.land (Z.shiftr v i) 1 = Z.b2z (Z.testbit v i).
Proof.
  intros Hi. change 1 with (Z.ones 1) at 1. rewrite Z.land_ones, Z.shiftr_div_pow2 by lia.
  by rewrite Z.testbit_spec'.
Qed.
Lemma testbit_high b n m : 0 <= b < 2 ^ n -> 0 <= n <= m -> Z.testbit b m = false.
Proof.
  intros Hb Hm. rewrite <- (Z.mod_small b (2 ^ n)) by done. apply Z.mod_pow2_bits_high. lia.
Qed.
Lemma lor_bound a b n : 0 <= n -> 0 <= a < 2 ^ n -> 0 <= b < 2 ^ n -> 0 <= Z.lor a b < 2 ^ n.
Proof.
  intros Hn Ha Hb. assert (H0 : 0 <= Z.lor a b) by (apply Z.lor_nonneg; lia). split; [done|].
  destruct (Z.eq_dec n 0) as [->|].
  { change (2 ^ 0) with 1 in *. replace a with 0 by lia. by replace b with 0 by lia. }
  apply Z.log2_lt_cancel. rewrite Z.log2_lor, Z.log2_pow2 by lia.
  apply Z.max_lub_lt.
  - destruct (Z.eq_dec a 0) as [->|]; [cbn; lia|]. apply Z.log2_lt_pow2; lia.
  - destruct (Z.eq_dec b 0) as [->|]; [cbn; lia|]. apply Z.log2_lt_pow2; lia.
Qed.

Section PutBit.
Context (x : Z) (bit : bool) (p : nat) (Hx : is_byte x) (Hp : (p < 8)%nat).
Let y := u8 (Z.lor x (Z.shiftl (Z.b2z bit) (Z.of_nat (7 - p)))).

Lemma put_bit_range : 0 <= Z.lor x (Z.shiftl (Z.b2z bit) (Z.of_nat (7 - p))) < 2 ^ 8.
Proof using Hx Hp.
  apply lor_bound; [lia|exact Hx|]. rewrite Z.shiftl_mul_pow2 by lia.
  pose proof (Z.pow_le_mono_r 2 (Z.of_nat (7 - p)) 7 ltac:(lia) ltac:(lia)) as H.
  pose proof (Z.pow_pos_nonneg 2 (Z.of_nat (7 - p)) ltac:(lia) ltac:(lia)).
  change (2 ^ 7) with 128 in H. change (2 ^ 8) with 256. destruct (b2z_bit bit) as [->| ->]; lia.
Qed.
Lemma put_bit_byte : is_byte y.
Proof using Hx Hp. pose proof put_bit_range as H. unfold y, u8. by rewrite Z.mod_small. Qed.
Lemma put_bit_testbit q : (q < 8)%nat ->
  Z.testbit y (Z.of_nat (7 - q)) =
  Z.testbit x (Z.of_nat (7 - q)) || (bit && bool_decide (p = q)).
Proof using Hx Hp.
  intros Hq. pose proof put_bit_range as H. unfold y, u8. rewrite Z.mod_small by done.
  rewrite Z.lor_spec. f_equal. rewrite Z.shiftl_spec by lia.
  destruct (decide (p = q)) as [->|Hn].
  - rewrite Z.sub_diag, bool_decide_eq_true_2 by done. by destruct bit.
  - rewrite bool_decide_eq_false_2, andb_false_r by done.
    destruct (decide (Z.of_nat (7 - q) < Z.of_nat (7 - p))); [apply Z.testbit_neg_r; lia|].
    apply (testbit_high _ 1); [|lia]. change (2 ^ 1) with 2. destruct (b2z_bit bit) as [->| ->]; lia.
Qed.
End PutBit.

Lemma all_bits_set data j x bit p :
  data !! j = Some x -> is_byte x -> (p < 8)%nat -> Z.testbit x (Z.of_nat (7 - p)) = false ->
  all_bits (<[j := u8 (Z.lor x (Z.shiftl (Z.b2z bit) (Z.of_nat (7 - p))))]> data)
  = <[(8 * j + p)%nat := bit]> (all_bits data).
Proof.
  intros E Hx Hp Hz. apply list_eq. intros i. rewrite all_bits_lookup.
  assert (Hj : (j < length data)%nat) by (by eapply lookup_lt_Some).
  pose proof (Nat.div_mod_eq i 8) as Hdm. pose proof (Nat.mod_upper_bound i 8 ltac:(lia)) as Hm.
  destruct (decide (i / 8 = j)%nat) as [Hij|Hij].
  - rewrite Hij, list_lookup_insert_eq by done. cbn [fmap option_fmap option_map].
    rewrite put_bit_testbit by done. destruct (decide (p = i mod 8)%nat) as [->|Hne].
    + rewrite bool_decide_eq_true_2, andb_true_r, Hz by done.
      replace (8 * j + i mod 8)%nat with i by lia.
      rewrite list_lookup_insert_eq by (rewrite length_all_bits; lia). done.
    + rewrite bool_decide_eq_false_2, andb_false_r, orb_false_r by done.
      rewrite list_lookup_insert_ne, all_bits_lookup, Hij, E by lia. done.
  - rewrite !list_lookup_insert_ne by lia. symmetry. apply all_bits_lookup.
Qed.

(** Writing a bit over the padding appends it. *)
Lemma put_bit_spec bb bs k bit : padded bb bs (S k) ->
  exists bb', put_bit bb (Z.b2z bit) = inr bb' /\ padded bb' (bs ++ [bit]) k.
Proof.
  intros (Hlen & Hbytes & E). set (n := length bs).
  assert (Hn : length (all_bits (bb_data bb)) = (n + S k)%nat) by (rewrite E, length_app, length_replicate; done).
  rewrite length_all_bits in Hn.
  pose proof (Nat.div_mod_eq n 8) as Hdm. pose proof (Nat.mod_upper_bound n 8 ltac:(lia)) as Hm.
  assert (Hi : Z.shiftr (bb_bitLength bb) 3 = Z.of_nat (n / 8)).
  { rewrite Hlen, Z.shiftr_div_pow2 by lia. change (2 ^ 3) with (Z.of_nat 8). by rewrite <- Nat2Z.inj_div. }
  assert (Hr : 7 - Z.land (bb_bitLength bb) 7 = Z.of_nat (7 - n mod 8)).
  { rewrite Hlen. change 7 with (Z.ones 3) at 2. rewrite Z.land_ones by lia. change (2 ^ 3) with (Z.of_nat 8).
    rewrite <- Nat2Z.inj_mod. fold n. lia. }
  unfold put_bit. rewrite Hi, Hr.
  destruct (at_lt (bb_data bb) (Z.of_nat (n / 8))) as (x & -> & Ex); [unfold zlen; lia|].
  cbn [mbind exc_bind]. rewrite set_at_lt by (unfold zlen; lia). rewrite Nat2Z.id in *.
  assert (Hx : is_byte x) by (by eapply Forall_lookup_1 in Hbytes).
  eexists. split; [done|]. split_and!.
  - cbn. rewrite Hlen, length_app. cbn. lia.
  - cbn. apply Forall_insert; [done|]. apply put_bit_byte; [done|lia].
  - cbn [bb_data]. assert (Hfree : all_bits (bb_data bb) !! n = Some false).
    { rewrite E, lookup_app_r, Nat.sub_diag by done. done. }
    rewrite all_bits_lookup, Ex in Hfree. injection Hfree as Hfree.
    rewrite all_bits_set, E by done. rewrite <- Hdm.
    replace n with (length bs + 0)%nat by (unfold n; lia).
    rewrite insert_app_r. cbn. by rewrite <- app_assoc.
Qed.

Lemma grow_fuel_spec fuel data n : n <= zlen data * 8 + 8 * Z.of_nat fuel ->
  exists m, grow_fuel fuel data n = data ++ replicate m 0 /\
    n <= 8 * (zlen data + Z.of_nat m) /\ (m = 0%nat \/ 8 * (zlen data + Z.of_nat m) < n + 8).
Proof.
  revert data. induction fuel as [|fuel IH]; intros data Hn; cbn [grow_fuel].
  { exists 0%nat. rewrite app_nil_r. split_and!; [done|lia|by left]. }
  destruct (Z.ltb_spec (zlen data * 8) n) as [Hlt|Hge].
  - destruct (IH (data ++ [0])) as (m & -> & H1 & H2). { rewrite zlen_app. unfold zlen in *. cbn. lia. }
    rewrite zlen_app in *. change (zlen [0]) with 1 in *.
    exists (S m). rewrite <- app_assoc. split_and!; [done|lia|]. right.
    destruct H2 as [->|]; lia.
  - exists 0%nat. rewrite app_nil_r. split_and!; [done|lia|by left].
Qed.
Lemma all_bits_zeros m : all_bits (replicate m 0) = replicate (8 * m) false.
Proof.
  induction m as [|m IH]; [done|]. cbn [replicate]. rewrite all_bits_cons, IH.
  by replace (8 * S m)%nat with (8 + 8 * m)%nat by lia.
Qed.

(** The buffer after making room for [len] more bits. *)
Lemma grow_padded bb bs len : holds bb bs ->
  exists k, (k < 8)%nat /\
    padded (mkBitBuffer (grow (bb_data bb) (bb_bitLength bb + Z.of_nat len)) (bb_bitLength bb)) bs (len + k).
Proof.
  intros (k & Hk & Hlen & Hbytes & E). assert (El := f_equal length E).
  rewrite length_all_bits, length_app, length_replicate in El.
  destruct (grow_fuel_spec (Z.to_nat (bb_bitLength bb + Z.of_nat len)) (bb_data bb)
              (bb_bitLength bb + Z.of_nat len)) as (m & Eg & H1 & H2); [unfold zlen; lia|].
  fold (grow (bb_data bb) (bb_bitLength bb + Z.of_nat len)) in Eg. unfold zlen in *.
  exists (k + 8 * m - len)%nat. split; [lia|]. split_and!; [done| |].
  - cbn. rewrite Eg. apply Forall_app. split; [done|]. apply Forall_replicate. by unfold is_byte.
  - cbn. rewrite Eg, all_bits_app, E, all_bits_zeros, <- app_assoc, <- replicate_add.
    do 2 f_equal. lia.
Qed.

Lemma append_bits_loop_spec n val bb bs k : padded bb bs (n + k) ->
  exists bb', append_bits_loop n val bb = inr bb' /\ padded bb' (bs ++ be_bits n val) k.
Proof.
  revert bb bs. induction n as [|n IH]; intros bb bs H; cbn [append_bits_loop].
  { exists bb. by rewrite app_nil_r. }
  rewrite land1_b2z by lia. destruct (put_bit_spec bb bs (n + k) (Z.testbit val (Z.of_nat n)) H) as (bb1 & -> & H1).
  cbn [mbind exc_bind]. destruct (IH bb1 _ H1) as (bb2 & -> & H2). exists bb2.
  by rewrite <- app_assoc in H2.
Qed.

(** What [appendBits] promises: a value that fits is appended as a bit string, most
    significant bit first; anything else is refused and nothing changes. *)
Lemma appendBits_spec bb bs val len : holds bb bs -> 0 <= len <= 32 -> 0 <= val < 2 ^ len ->
  exists bb', appendBits bb val len = inr bb' /\ holds bb' (bs ++ be_bits (Z.to_nat len) val).
Proof.
  intros H Hlen Hval. unfold appendBits.
  pose proof (Z.pow_le_mono_r 2 len 32 ltac:(lia) ltac:(lia)) as Hp.
  rewrite u32_id by (unfold is_u32; change 4294967296 with (2 ^ 32); lia).
  assert (Hs : Z.shiftr val len = 0) by (rewrite Z.shiftr_div_pow2 by lia; by apply Z.div_small).
  rewrite Hs. replace (_ || _ || _) with false by (symmetry; destruct (Z.ltb_spec len 0), (Z.ltb_spec 32 len), (len <? 32); done || lia).
  cbn [throw_if mbind exc_bind mret exc_ret].
  destruct (grow_padded bb bs (Z.to_nat len) H) as (k & Hk & Hg). rewrite Z2Nat.id in Hg by lia.
  destruct (append_bits_loop_spec (Z.to_nat len) val _ bs k Hg) as (bb' & E & Hb).
  exists bb'. split; [done|]. by exists k.
Qed.

(** A segment whose data is a bit string of the announced length. *)
Definition seg_holds (seg : QrSegment) (bs : list bool) : Prop :=
  holds (mkBitBuffer (seg_data seg) (seg_bitLength seg)) bs.

Lemma appendData_spec bb bs seg ss : holds bb bs -> seg_holds seg ss ->
  exists bb', appendData bb seg = inr bb' /\ holds bb' (bs ++ ss).
Proof.
  intros H (k & Hk & Hlen & Hbytes & E). cbn [bb_data bb_bitLength] in Hlen, Hbytes, E. unfold appendData. rewrite Hlen.
  destruct (grow_padded bb bs (length ss) H) as (k' & Hk' & Hg).
  destruct (exc_fold_inv (appendData_step seg)
              (fun done bb => padded bb (bs ++ take (length done) ss) (length ss - length done + k'))
              (range 0 (Z.of_nat (length ss)))
              (mkBitBuffer (grow (bb_data bb) (bb_bitLength bb + Z.of_nat (length ss))) (bb_bitLength bb)))
    as (bb' & Hrun & Hb).
  - rewrite take_0, app_nil_r. by rewrite Nat.sub_0_r.
  - intros pre i todo b Hr Hp. set (n := length pre) in *.
    destruct (range_split _ _ _ _ Hr) as [-> Hn]. fold n in Hn |- *.
    destruct (lookup_lt_is_Some_2 ss n Hn) as [bit Ebit].
    assert (Eb : all_bits (seg_data seg) !! n = Some bit) by (rewrite E; by apply lookup_app_l_Some).
    rewrite all_bits_lookup in Eb. destruct (seg_data seg !! (n / 8)%nat) as [x|] eqn:Ex; [|done].
    apply (inj Some) in Eb. unfold appendData_step.
    assert (Hsh : Z.shiftr (Z.of_nat n) 3 = Z.of_nat (n / 8)).
    { rewrite Z.shiftr_div_pow2 by lia. change (2 ^ 3) with (Z.of_nat 8). by rewrite <- Nat2Z.inj_div. }
    assert (Hr7 : 7 - Z.land (Z.of_nat n) 7 = Z.of_nat (7 - n mod 8)).
    { change (Z.land (Z.of_nat n) 7) with (Z.land (Z.of_nat n) (Z.ones 3)).
      rewrite Z.land_ones by lia. change (2 ^ 3) with (Z.of_nat 8).
      rewrite <- Nat2Z.inj_mod. pose proof (Nat.mod_upper_bound n 8 ltac:(lia)). lia. }
    rewrite Hsh, (at_Some _ _ x) by (rewrite ?Nat2Z.id; done || lia). cbn [mbind exc_bind].
    rewrite Hr7, land1_b2z, Eb by lia.
    replace (length ss - n + k')%nat with (S (length ss - S n + k')) in Hp by lia.
    destruct (put_bit_spec _ _ _ bit Hp) as (b' & -> & Hp'). exists b'. split; [done|].
    rewrite length_app, Nat.add_1_r. fold n. by rewrite (take_S_r _ _ bit), app_assoc.
  - exists bb'. split; [done|]. exists k'. split; [done|].
    rewrite length_range, Z.sub_0_r, Nat2Z.id, firstn_all, Nat.sub_diag in Hb. done.
Qed.
