(* ===== verification/QrRead.v ===== *)
(** Reading a QR symbol, by the rules of ISO/IEC 18004: the specification the
    encoder of src/recovery/libs/QRCode is proved against.  Nothing here is code of
    the repository. *)
From S2P Require Import Prelude CText Exc QrBits QrCode QrBitsFacts.
Local Open Scope list_scope.
Local Open Scope Z_scope.

(** ** The bit stream *)

Definition take_bits (n : nat) (bs : list bool) : option (Z * list bool) :=
  if decide (n <= length bs)%nat then Some (value_of (take n bs), drop n bs) else None.

Definition digit (v : Z) : Ascii.ascii := chr (48 + v).
(** Three digits are ten bits, two are seven, one is four. *)
Fixpoint read_numeric (count : nat) (bs : list bool) : option (list Ascii.ascii * list bool) :=
  match count with
  | O => Some ([], bs)
  | 1%nat => '(v, bs) ← take_bits 4 bs; Some ([digit v], bs)
  | 2%nat => '(v, bs) ← take_bits 7 bs; Some ([digit (v / 10); digit (v mod 10)], bs)
  | S (S (S count)) =>
      '(v, bs) ← take_bits 10 bs;
      '(cs, bs) ← read_numeric count bs;
      Some (digit (v / 100) :: digit (v / 10 mod 10) :: digit (v mod 10) :: cs, bs)
  end.

(** The 45 characters of the alphanumeric mode, in the order of their values. *)
Definition ALPHANUMERIC_CHARSET : list Ascii.ascii :=
  String.list_ascii_of_string "0123456789ABCDEFGHIJKLMNOPQRSTUVWXYZ $%*+-./:".
Definition alphanumeric (v : Z) : option Ascii.ascii := ALPHANUMERIC_CHARSET !! Z.to_nat v.
(** Two characters are eleven bits, one is six. *)
Fixpoint read_alphanumeric (count : nat) (bs : list bool) : option (list Ascii.ascii * list bool) :=
  match count with
  | O => Some ([], bs)
  | 1%nat => '(v, bs) ← take_bits 6 bs; c ← alphanumeric v; Some ([c], bs)
  | S (S count) =>
      '(v, bs) ← take_bits 11 bs;
      c ← alphanumeric (v / 45); d ← alphanumeric (v mod 45);
      '(cs, bs) ← read_alphanumeric count bs;
      Some (c :: d :: cs, bs)
  end.

Fixpoint read_bytes (count : nat) (bs : list bool) : option (list Ascii.ascii * list bool) :=
  match count with
  | O => Some ([], bs)
  | S count =>
      '(v, bs) ← take_bits 8 bs; '(cs, bs) ← read_bytes count bs; Some (chr v :: cs, bs)
  end.

(** The width of the character count for versions up to 9, up to 26, up to 40. *)
Definition by_version (ver : Z) (a b c : nat) : nat :=
  if ver <=? 9 then a else if ver <=? 26 then b else c.

(** One segment; [None] in the result is the terminator. *)
Definition read_segment (ver : Z) (bs : list bool) : option (option (list Ascii.ascii) * list bool) :=
  '(m, bs) ← take_bits 4 bs;
  if m =? 0 then Some (None, bs)
  else if m =? 1 then
    '(n, bs) ← take_bits (by_version ver 10 12 14) bs;
    '(cs, bs) ← read_numeric (Z.to_nat n) bs; Some (Some cs, bs)
  else if m =? 2 then
    '(n, bs) ← take_bits (by_version ver 9 11 13) bs;
    '(cs, bs) ← read_alphanumeric (Z.to_nat n) bs; Some (Some cs, bs)
  else if m =? 4 then
    '(n, bs) ← take_bits (by_version ver 8 16 16) bs;
    '(cs, bs) ← read_bytes (Z.to_nat n) bs; Some (Some cs, bs)
  else None.

(** The segments up to the terminator, or up to where fewer than four bits are left. *)
Fixpoint read_stream (fuel : nat) (ver : Z) (bs : list bool) : option (list Ascii.ascii) :=
  match fuel with
  | O => None
  | S fuel =>
      if decide (length bs < 4)%nat then Some []
      else '(seg, bs) ← read_segment ver bs;
           match seg with
           | None => Some []
           | Some cs => cs' ← read_stream fuel ver bs; Some (cs ++ cs')
           end
  end.
Definition read_text (ver : Z) (bs : list bool) : option string :=
  String.string_of_list_ascii <$> read_stream (S (length bs)) ver bs.

(** ** Codewords *)

(** How the codewords of a symbol are divided: the number of blocks, how many of
    them are short, the data bytes of a short block (a long one has one more), the
    error correction bytes of a block. *)
Record layout := mkLayout { l_blocks : nat; l_short : nat; l_data : nat; l_ecc : nat }.

(** The codewords come column by column: first those the short blocks have, then
    the last data byte of the long ones, then the error correction. *)
Definition block_data (l : layout) (codewords : list Z) (j : nat) : list Z :=
  ((fun i => codewords !!! (i * l_blocks l + j)%nat) <$> seq 0 (l_data l)) ++
  (if decide (j < l_short l)%nat then [] else [codewords !!! (l_data l * l_blocks l + (j - l_short l))%nat]).
Definition block_ecc (l : layout) (codewords : list Z) (j : nat) : list Z :=
  (fun i => codewords !!! (l_data l * l_blocks l + (l_blocks l - l_short l) + i * l_blocks l + j)%nat)
    <$> seq 0 (l_ecc l).
Definition data_codewords (l : layout) (codewords : list Z) : list Z :=
  seq 0 (l_blocks l) ≫= block_data l codewords.

(** The parameters of a version and a level, from the tables of the encoder. *)
Record params := mkParams { p_raw : Z; p_data : Z; p_blocks : Z; p_ecc : Z }.
Definition params_of (v : Z) (e : Ecc) : exc params :=
  raw ← getNumRawDataModules v; data ← getNumDataCodewords v e;
  blocks ← table NUM_ERROR_CORRECTION_BLOCKS e v; ecc ← table NUM_ERROR_CORRECTION_CODEWORDS e v;
  mret (mkParams raw data blocks ecc).
(** How a version and a level divide the codewords. *)
Definition layout_of (p : params) : layout :=
  let k := p_raw p / 8 in
  mkLayout (Z.to_nat (p_blocks p)) (Z.to_nat (p_blocks p - k mod p_blocks p))
    (Z.to_nat (k / p_blocks p - p_ecc p / p_blocks p)) (Z.to_nat (p_ecc p / p_blocks p)).


(** ** The symbol *)

(** The module in column [x] of row [y]. *)
Definition cell (g : list (list bool)) (x y : Z) : bool := (g !!! Z.to_nat y) !!! Z.to_nat x.

(** The centres of the alignment patterns (annex E). *)
Definition alignment_centres : list (list Z) := [
  []; []; [6; 18]; [6; 22]; [6; 26]; [6; 30]; [6; 34];
  [6; 22; 38]; [6; 24; 42]; [6; 26; 46]; [6; 28; 50]; [6; 30; 54]; [6; 32; 58]; [6; 34; 62];
  [6; 26; 46; 66]; [6; 26; 48; 70]; [6; 26; 50; 74]; [6; 30; 54; 78]; [6; 30; 56; 82]; [6; 30; 58; 86]; [6; 34; 62; 90];
  [6; 28; 50; 72; 94]; [6; 26; 50; 74; 98]; [6; 30; 54; 78; 102]; [6; 28; 54; 80; 106]; [6; 32; 58; 84; 110];
  [6; 30; 58; 86; 114]; [6; 34; 62; 90; 118];
  [6; 26; 50; 74; 98; 122]; [6; 30; 54; 78; 102; 126]; [6; 26; 52; 78; 104; 130]; [6; 30; 56; 82; 108; 134];
  [6; 34; 60; 86; 112; 138]; [6; 30; 58; 86; 114; 142]; [6; 34; 62; 90; 118; 146];
  [6; 30; 54; 78; 102; 126; 150]; [6; 24; 50; 76; 102; 128; 154]; [6; 28; 54; 80; 106; 132; 158];
  [6; 32; 58; 84; 110; 136; 162]; [6; 26; 54; 82; 110; 138; 166]; [6; 30; 58; 86; 114; 142; 170]].

(** The modules of the rectangle with the corner [(x, y)]. *)
Definition rectangle (x y w h : Z) : list (Z * Z) :=
  range y (y + h) ≫= fun y => (fun x => (x, y)) <$> range x (x + w).
(** The function patterns of version [v]: the three corners with the finder patterns,
    their separators and the format information; the timing patterns; the version
    information from version 7 on; the alignment patterns outside the corners. *)
Definition function_regions (v : Z) : list (Z * Z) :=
  let n := 4 * v + 17 in
  let centres := alignment_centres !!! Z.to_nat v in
  let last := List.last centres 0 in
  rectangle 0 0 9 9 ++ rectangle (n - 8) 0 8 9 ++ rectangle 0 (n - 8) 9 8 ++
  rectangle 0 6 n 1 ++ rectangle 6 0 1 n ++
  (if 7 <=? v then rectangle (n - 11) 0 3 6 ++ rectangle 0 (n - 11) 6 3 else []) ++
  (centres ≫= fun cx => centres ≫= fun cy =>
     if ((cx =? 6) && (cy =? 6)) || ((cx =? 6) && (cy =? last)) || ((cx =? last) && (cy =? 6)) then []
     else rectangle (cx - 2) (cy - 2) 5 5).

Definition blank (n : Z) : list (list bool) := replicate (Z.to_nat n) (replicate (Z.to_nat n) false).
Definition mark (g : list (list bool)) (p : Z * Z) : list (list bool) :=
  alter (<[Z.to_nat p.1 := true]>) (Z.to_nat p.2) g.
Definition function_grid (v : Z) : list (list bool) := foldl mark (blank (4 * v + 17)) (function_regions v).

(** The order of the data modules: pairs of columns from the right, without column
    6, upwards and downwards in turn. *)
Definition column_pairs (n : Z) : list Z := ((fun k => n - 1 - 2 * k) <$> range 0 ((n - 7) / 2)) ++ [5; 3; 1].
Definition pair_path (n : Z) (k : nat) (right : Z) : list (Z * Z) :=
  range 0 n ≫= fun i => let y := if Nat.even k then n - 1 - i else i in [(right, y); (right - 1, y)].
Definition data_path (n : Z) : list (Z * Z) := concat (imap (pair_path n) (column_pairs n)).
Definition data_modules (v : Z) : list (Z * Z) :=
  let f := function_grid v in
  filter (fun p => cell f p.1 p.2 = false) (data_path (4 * v + 17)).

(** The mask patterns, for row [i] and column [j]. *)
Definition mask_at (mask i j : Z) : bool :=
  match mask with
  | 0 => (i + j) mod 2 =? 0
  | 1 => i mod 2 =? 0
  | 2 => j mod 3 =? 0
  | 3 => (i + j) mod 3 =? 0
  | 4 => (i / 2 + j / 3) mod 2 =? 0
  | 5 => (i * j) mod 2 + (i * j) mod 3 =? 0
  | 6 => ((i * j) mod 2 + (i * j) mod 3) mod 2 =? 0
  | _ => ((i + j) mod 2 + (i * j) mod 3) mod 2 =? 0
  end.

(** The format information beside the upper left corner, most significant bit first:
    unmasked, its first five bits are the level and the mask. *)
Definition format_path : list (Z * Z) :=
  [(0, 8); (1, 8); (2, 8); (3, 8); (4, 8); (5, 8); (7, 8); (8, 8); (8, 7); (8, 5); (8, 4); (8, 3); (8, 2); (8, 1); (8, 0)].
Definition read_format (g : list (list bool)) : Z * Z :=
  let data := Z.shiftr (Z.lxor (value_of ((fun p => cell g p.1 p.2) <$> format_path)) 21522) 10 in
  (data / 8, data mod 8).
(** 01 is L, 00 is M, 11 is Q, 10 is H. *)
Definition level_of (indicator : Z) : Ecc :=
  if indicator =? 1 then LOW else if indicator =? 0 then MEDIUM else if indicator =? 3 then QUARTILE else HIGH.

Fixpoint bytes_of (n : nat) (bs : list bool) : list Z :=
  match n with O => [] | S n => value_of (take 8 bs) :: bytes_of n (drop 8 bs) end.
Definition read_codewords (g : list (list bool)) (v mask : Z) : list Z :=
  let bits := (fun p => xorb (cell g p.1 p.2) (mask_at mask p.2 p.1)) <$> data_modules v in
  bytes_of (length bits / 8) bits.

(** Reading a symbol: its modules give the text. *)
Definition read_symbol (g : list (list bool)) : option string :=
  let v := (zlen g - 17) / 4 in
  let '(indicator, mask) := read_format g in
  match params_of v (level_of indicator) with
  | inr p => read_text v (all_bits (data_codewords (layout_of p) (read_codewords g v mask)))
  | inl _ => None
  end.
