(* ===== verification/QrSegFacts.v ===== *)
(** Segments read back as the text they were made from. *)
From S2P Require Import Prelude CText Exc QrBits QrBitsFacts QrRead.
Local Open Scope list_scope.
Local Open Scope Z_scope.

Lemma take_bits_be n v rest : 0 <= v < 2 ^ Z.of_nat n -> take_bits n (be_bits n v ++ rest) = Some (v, rest).
Proof.
  intros Hv. unfold take_bits. rewrite length_app, length_be_bits. rewrite decide_True by lia.
  rewrite take_app_length', drop_app_length' by (by rewrite length_be_bits).
  by rewrite value_be_bits_small.
Qed.

#[local] Opaque be_bits take_bits appendBits.

(** [reads seg_bits read cs]: whatever follows, [read] takes exactly these bits and
    gives the characters. *)
Definition reads (read : list bool -> option (list Ascii.ascii * list bool)) (bs : list bool)
    (cs : list Ascii.ascii) : Prop :=
  forall rest, read (bs ++ rest) = Some (cs, rest).

Lemma two_digits x y b : 0 <= y < b -> (x * b + y) / b = x /\ (x * b + y) mod b = y.
Proof.
  intros Hy. rewrite Z.div_add_l, Z.div_small by lia. split; [lia|].
  by rewrite Z.add_comm, Z.mod_add, Z.mod_small by lia.
Qed.

(** ** Digits *)

Definition is_digit (c : Ascii.ascii) : Prop := 48 <= code c <= 57.
Lemma digit_of c : is_digit c -> digit (code c - 48) = c.
Proof. intros _. unfold digit. replace (48 + (code c - 48)) with (code c) by lia. apply chr_code. Qed.

(** The bits of groups of three digits, of two and of one. *)
Fixpoint numeric_bits (cs : list Ascii.ascii) : list bool :=
  match cs with
  | [] => []
  | [a] => be_bits 4 (code a - 48)
  | [a; b] => be_bits 7 ((code a - 48) * 10 + (code b - 48))
  | a :: b :: c :: cs =>
      be_bits 10 (((code a - 48) * 10 + (code b - 48)) * 10 + (code c - 48)) ++ numeric_bits cs
  end.

Lemma numeric_ind (P : list Ascii.ascii -> Prop) :
  P [] -> (forall a, P [a]) -> (forall a b, P [a; b]) -> (forall a b c cs, P cs -> P (a :: b :: c :: cs)) ->
  forall cs, P cs.
Proof.
  intros H0 H1 H2 H3. fix IH 1. intros [|a [|b [|c cs]]]; [done|apply H1|apply H2|apply H3, IH].
Qed.

Lemma numeric_reads cs : Forall is_digit cs -> reads (read_numeric (length cs)) (numeric_bits cs) cs.
Proof.
  induction cs as [|a|a b|a b c cs IH] using numeric_ind; intros H rest; decompose_Forall_hyps;
    unfold is_digit in *; cbn [length read_numeric numeric_bits].
  - done.
  - rewrite take_bits_be by (cbn; lia). cbn. by rewrite digit_of.
  - rewrite take_bits_be by (cbn; lia). cbn [mbind option_bind].
    destruct (two_digits (code a - 48) (code b - 48) 10) as [-> ->]; [lia|]. by rewrite !digit_of.
  - rewrite <- app_assoc, take_bits_be by (change (2 ^ Z.of_nat 10) with 1024; lia). cbn [mbind option_bind].
    rewrite IH by done. cbn [mbind option_bind]. set (x := code a - 48) in *. set (y := code b - 48) in *. set (z := code c - 48) in *.
    destruct (two_digits (x * 10 + y) z 10) as [E1 E2]; [lia|].
    destruct (two_digits x y 10) as [E3 E4]; [lia|].
    change 100 with (10 * 10). rewrite <- Z.div_div, E1, E2, E3, E4 by lia.
    unfold x, y, z. by rewrite !digit_of.
Qed.

(** The loop from a state between two groups, and what is left over. *)
Definition numeric_finish (a : accum) : exc (BitBuffer * Z) :=
  bb ← (if 0 <? accumCount a then appendBits (acc_bb a) (accumData a) (accumCount a * 3 + 1) else mret (acc_bb a));
  mret (bb, charCount a).

Lemma numeric_step_more bb d k n c : is_digit c -> k + 1 <> 3 ->
  numeric_step (mkAccum bb d k n) c = inr (mkAccum bb (d * 10 + (code c - 48)) (k + 1) (n + 1)).
Proof.
  intros [H1 H2] Hk. unfold numeric_step. cbn [accumData accumCount acc_bb charCount].
  destruct (Z.ltb_spec (code c) 48), (Z.ltb_spec 57 (code c)), (Z.eqb_spec (k + 1) 3); done || lia.
Qed.
Lemma numeric_step_full bb bb' d n c : is_digit c -> appendBits bb (d * 10 + (code c - 48)) 10 = inr bb' ->
  numeric_step (mkAccum bb d 2 n) c = inr (mkAccum bb' 0 0 (n + 1)).
Proof.
  intros [H1 H2] E. unfold numeric_step. cbn [accumData accumCount acc_bb charCount].
  destruct (Z.ltb_spec (code c) 48), (Z.ltb_spec 57 (code c)); [lia..|].
  cbn [orb throw_if mbind exc_bind]. rewrite E. done.
Qed.

Lemma numeric_finish_left bb bb' d k n : 0 < k -> appendBits bb d (k * 3 + 1) = inr bb' ->
  numeric_finish (mkAccum bb d k n) = inr (bb', n).
Proof.
  intros Hk E. unfold numeric_finish. cbn [accumData accumCount acc_bb charCount].
  destruct (Z.ltb_spec 0 k); [|lia]. by rewrite E.
Qed.

Lemma numeric_run cs : forall bb bs n, Forall is_digit cs -> holds bb bs ->
  exists bb', (a ← exc_fold numeric_step (mkAccum bb 0 0 n) cs; numeric_finish a) = inr (bb', n + zlen cs) /\
    holds bb' (bs ++ numeric_bits cs).
Proof.
  induction cs as [|a|a b|a b c cs IH] using numeric_ind; intros bb bs n Hd Hbb; decompose_Forall_hyps;
    unfold is_digit in *; cbn [exc_fold numeric_bits].
  - exists bb. rewrite app_nil_r. split; [|done]. cbn. unfold zlen. cbn. do 3 f_equal. lia.
  - rewrite numeric_step_more by done. destruct (appendBits_spec bb bs (code a - 48) 4) as (bb' & E & H'); [done|lia|lia|].
    exists bb'. split; [|done]. apply numeric_finish_left; [lia|exact E].
  - rewrite numeric_step_more by done. cbn [mbind exc_bind]. rewrite numeric_step_more by done.
    destruct (appendBits_spec bb bs ((code a - 48) * 10 + (code b - 48)) 7) as (bb' & E & H'); [done|lia|lia|].
    exists bb'. split; [|done]. cbn [mbind exc_bind mret exc_ret].
    rewrite (numeric_finish_left bb bb') by (lia || exact E). do 2 f_equal. unfold zlen. cbn. lia.
  - destruct (appendBits_spec bb bs (((code a - 48) * 10 + (code b - 48)) * 10 + (code c - 48)) 10)
      as (bb' & E & H'); [done|lia|change (2 ^ 10) with 1024; lia|].
    rewrite numeric_step_more by done. cbn [mbind exc_bind]. rewrite numeric_step_more by done. cbn [mbind exc_bind].
    rewrite (numeric_step_full bb bb') by (done || exact E). cbn [mbind exc_bind].
    destruct (IH bb' _ (n + 1 + 1 + 1) ltac:(done) H') as (bb2 & E2 & Hbb2). exists bb2. split.
    + rewrite E2. do 2 f_equal. unfold zlen. cbn [length]. lia.
    + by rewrite <- app_assoc in Hbb2.
Qed.

(** ** The alphanumeric mode *)

(** [v] is the value of the character [c]. *)
Definition alnum_value (c : Ascii.ascii) (v : Z) : Prop :=
  32 <= code c <= 90 /\ at_ ALPHANUMERIC_ENCODING_TABLE (code c - 32) = inr v /\ 0 <= v < 45 /\
  alphanumeric v = Some c.

Definition table_ok (k : Z) : bool :=
  match at_ ALPHANUMERIC_ENCODING_TABLE k with
  | inr v => (v =? -1) || ((0 <=? v) && (v <? 45) && bool_decide (alphanumeric v = Some (chr (k + 32))))
  | inl _ => false
  end.
Lemma table_ok_all : forallb table_ok (range 0 59) = true.
Proof. vm_compute. reflexivity. Qed.

Lemma isAlphanumeric_value c :
  negb ((code c <? 32) || (90 <? code c) ||
    match at_ ALPHANUMERIC_ENCODING_TABLE (code c - 32) with inr v => v =? -1 | inl _ => true end) = true ->
  exists v, alnum_value c v.
Proof.
  intros H. bool_to_prop.
  assert (Ht : table_ok (code c - 32) = true).
  { pose proof table_ok_all as Ha. rewrite forallb_forall in Ha. apply Ha.
    apply list_elem_of_In, elem_of_range. lia. }
  unfold table_ok in Ht. destruct (at_ _ _) as [|v] eqn:E; [done|].
  rewrite H0 in Ht. cbn [orb] in Ht. bool_to_prop. exists v. split_and!; [lia|lia|done|lia|lia|].
  replace (code c - 32 + 32) with (code c) in * by lia. by rewrite chr_code in *.
Qed.

(** The bits of groups of two characters and of one, from their values. *)
Fixpoint alphanumeric_bits (vs : list Z) : list bool :=
  match vs with
  | [] => []
  | [v] => be_bits 6 v
  | v :: w :: vs => be_bits 11 (v * 45 + w) ++ alphanumeric_bits vs
  end.

Lemma pair_ind {A B} (R : A -> B -> Prop) (P : list A -> list B -> Prop) :
  P [] [] -> (forall a b, R a b -> P [a] [b]) ->
  (forall a a' b b' l l', R a b -> R a' b' -> Forall2 R l l' -> P l l' -> P (a :: a' :: l) (b :: b' :: l')) ->
  forall l l', Forall2 R l l' -> P l l'.
Proof.
  intros H0 H1 H2. fix IH 3. intros l l' [|a b ? ? Hab Hl]; [done|].
  destruct Hl as [|a' b' l2 l2' Hab' Hl]; [by apply H1|by apply H2; auto].
Qed.

Lemma choose_list {A B} (R : A -> B -> Prop) l : Forall (fun a => exists b, R a b) l -> exists l', Forall2 R l l'.
Proof.
  induction 1 as [|a l [b Hb] _ [l' IH]]; [by exists []|]. exists (b :: l'). by constructor.
Qed.

Lemma alphanumeric_reads cs vs : Forall2 alnum_value cs vs ->
  reads (read_alphanumeric (length cs)) (alphanumeric_bits vs) cs.
Proof.
  revert cs vs. apply (pair_ind alnum_value); [done| |].
  - intros c v (_ & _ & Hv & Hc) rest. cbn [length read_alphanumeric alphanumeric_bits].
    rewrite take_bits_be by (change (2 ^ Z.of_nat 6) with 64; lia). cbn. by rewrite Hc.
  - intros a b v w cs vs (_ & _ & Hv & Ha) (_ & _ & Hw & Hb) _ IH rest.
    cbn [length read_alphanumeric alphanumeric_bits].
    rewrite <- app_assoc, take_bits_be by (change (2 ^ Z.of_nat 11) with 2048; lia). cbn [mbind option_bind].
    destruct (two_digits v w 45) as [-> ->]; [lia|]. rewrite Ha, Hb. cbn [mbind option_bind]. by rewrite IH.
Qed.

Definition alphanumeric_finish (a : accum) : exc (BitBuffer * Z) :=
  bb ← (if 0 <? accumCount a then appendBits (acc_bb a) (accumData a) 6 else mret (acc_bb a));
  mret (bb, charCount a).

Lemma alphanumeric_finish_left bb bb' d k n : 0 < k -> appendBits bb d 6 = inr bb' ->
  alphanumeric_finish (mkAccum bb d k n) = inr (bb', n).
Proof.
  intros Hk E. unfold alphanumeric_finish. cbn [accumData accumCount acc_bb charCount].
  destruct (Z.ltb_spec 0 k); [|lia]. by rewrite E.
Qed.
Lemma alphanumeric_step_value bb d k n c v : alnum_value c v ->
  alphanumeric_step (mkAccum bb d k n) c =
  (if k + 1 =? 2 then bb' ← appendBits bb (d * 45 + v) 11; mret (mkAccum bb' 0 0 (n + 1))
   else mret (mkAccum bb (d * 45 + v) (k + 1) (n + 1))).
Proof.
  intros (Hc & Ev & _). unfold alphanumeric_step. cbn [accumData accumCount acc_bb charCount].
  destruct (Z.ltb_spec (code c) 32), (Z.ltb_spec 90 (code c)); [lia..|].
  cbn [orb throw_if mbind exc_bind]. by rewrite Ev.
Qed.
Lemma alphanumeric_step_more bb n c v : alnum_value c v ->
  alphanumeric_step (mkAccum bb 0 0 n) c = inr (mkAccum bb v 1 (n + 1)).
Proof. intros H. by rewrite (alphanumeric_step_value _ _ _ _ _ _ H). Qed.
Lemma alphanumeric_step_full bb bb' d n c v : alnum_value c v -> appendBits bb (d * 45 + v) 11 = inr bb' ->
  alphanumeric_step (mkAccum bb d 1 n) c = inr (mkAccum bb' 0 0 (n + 1)).
Proof. intros H E. rewrite (alphanumeric_step_value _ _ _ _ _ _ H). cbn [Z.add Z.eqb]. by rewrite E. Qed.

Lemma alphanumeric_run cs vs : Forall2 alnum_value cs vs -> forall bb bs n, holds bb bs ->
  exists bb', (a ← exc_fold alphanumeric_step (mkAccum bb 0 0 n) cs; alphanumeric_finish a) = inr (bb', n + zlen cs) /\
    holds bb' (bs ++ alphanumeric_bits vs).
Proof.
  revert cs vs. match goal with |- forall cs vs, _ -> @?P cs vs => apply (pair_ind alnum_value P); cbv beta end.
  - intros bb bs n Hbb. exists bb. rewrite app_nil_r. split; [|done]. cbn. do 2 f_equal. unfold zlen. cbn. lia.
  - intros c v Hc bb bs n Hbb. cbn [exc_fold]. rewrite (alphanumeric_step_more _ _ _ _ Hc).
    destruct Hc as (_ & _ & Hv & _).
    destruct (appendBits_spec bb bs v 6) as (bb' & E & H'); [done|lia|change (2 ^ 6) with 64; lia|].
    exists bb'. split; [|done]. by apply alphanumeric_finish_left.
  - intros a b v w cs vs Ha Hb _ IH bb bs n Hbb. cbn [exc_fold].
    rewrite (alphanumeric_step_more _ _ _ _ Ha). cbn [mbind exc_bind].
    destruct (appendBits_spec bb bs (v * 45 + w) 11) as (bb' & E & H');
      [done|lia|destruct Ha as (_ & _ & ? & _), Hb as (_ & _ & ? & _); change (2 ^ 11) with 2048; lia|].
    rewrite (alphanumeric_step_full _ _ _ _ _ _ Hb E). cbn [mbind exc_bind].
    destruct (IH bb' _ (n + 1 + 1) H') as (bb2 & E2 & Hbb2). exists bb2. split.
    + rewrite E2. do 2 f_equal. unfold zlen. cbn [length]. lia.
    + by rewrite <- app_assoc in Hbb2.
Qed.

(** ** Bytes *)

Lemma bytes_reads cs : reads (read_bytes (length cs)) (all_bits (code <$> cs)) cs.
Proof.
  induction cs as [|c cs IH]; intros rest; [done|]. cbn [length read_bytes fmap list_fmap].
  rewrite all_bits_cons, <- app_assoc, take_bits_be by apply code_range. cbn [mbind option_bind].
  rewrite IH. cbn [mbind option_bind]. by rewrite chr_code.
Qed.

(** ** Segments *)

Lemma newQrSegment_holds md n bb bs : 0 <= n -> holds bb bs -> Z.of_nat (length bs) < 2 ^ 31 ->
  exists seg, newQrSegment md n (getBytes bb) (getBitLength bb) = inr seg /\
    seg_mode seg = md /\ numChars seg = n /\ seg_holds seg bs /\ seg_bitLength seg = Z.of_nat (length bs).
Proof.
  intros Hn H Hlen. change (2 ^ 31) with 2147483648 in Hlen. unfold newQrSegment.
  rewrite (holds_size bb bs H), (holds_length bb bs H). rewrite Z.quot_div_nonneg by lia.
  rewrite u32_id by (unfold is_u32; split; [apply Z.div_pos; lia|apply Z.div_lt_upper_bound; lia]).
  rewrite Z.eqb_refl. destruct (Z.ltb_spec n 0), (Z.ltb_spec (Z.of_nat (length bs)) 0); [lia..|].
  eexists. split; [done|]. cbn. split_and!; [done|done| |done]. unfold seg_holds. cbn.
  by rewrite <- (holds_length bb bs H); destruct bb.
Qed.

(** What a segment of a text is to a reader: its mode says how to read it, its bits
    give the characters. *)
Definition read_mode (md : Mode) (n : nat) : list bool -> option (list Ascii.ascii * list bool) :=
  if modeBits md =? 1 then read_numeric n else if modeBits md =? 2 then read_alphanumeric n else read_bytes n.
Definition segment_of (seg : QrSegment) (cs : list Ascii.ascii) : Prop :=
  (seg_mode seg = NUMERIC \/ seg_mode seg = ALPHANUMERIC \/ seg_mode seg = BYTE) /\
  numChars seg = zlen cs /\
  exists bs, seg_holds seg bs /\ seg_bitLength seg = Z.of_nat (length bs) /\ (length bs <= 8 * length cs)%nat /\
    reads (read_mode (seg_mode seg) (length cs)) bs cs.

Lemma string_all_Forall f s : string_all f s = true -> Forall (fun c => f c = true) (String.list_ascii_of_string s).
Proof.
  induction s as [|c s IH]; cbn; [done|]. intros [H1 H2]%andb_true_iff. constructor; [done|by apply IH].
Qed.
Lemma length_list_ascii s : length (String.list_ascii_of_string s) = String.length s.
Proof. induction s as [|c s IH]; cbn; [done|by rewrite IH]. Qed.

Lemma numeric_bits_length cs : (length (numeric_bits cs) <= 7 * length cs)%nat.
Proof.
  induction cs as [|a|a b|a b c cs IH] using numeric_ind; cbn [numeric_bits length]; rewrite ?length_app, ?length_be_bits; lia.
Qed.
Lemma alphanumeric_bits_length cs vs : Forall2 alnum_value cs vs -> (length (alphanumeric_bits vs) <= 7 * length cs)%nat.
Proof.
  revert cs vs. apply (pair_ind alnum_value); [cbn; lia| |]; intros; cbn [alphanumeric_bits length];
    rewrite ?length_app, ?length_be_bits; lia.
Qed.

Lemma makeNumeric_spec text : isNumeric text = true -> Z.of_nat (String.length text) < 2 ^ 28 ->
  exists seg, makeNumeric text = inr seg /\ segment_of seg (String.list_ascii_of_string text).
Proof.
  intros Hn Hlen. set (cs := String.list_ascii_of_string text).
  assert (Hd : Forall is_digit cs).
  { eapply Forall_impl; [apply (string_all_Forall _ _ Hn)|]. cbn. intros c Hc. bool_to_prop. unfold is_digit. lia. }
  destruct (numeric_run cs newBitBuffer [] 0 Hd holds_new) as (bb & E & H). cbn [app] in H.
  pose proof (numeric_bits_length cs) as Hl. unfold cs in Hl at 2. rewrite length_list_ascii in Hl.
  change (2 ^ 28) with 268435456 in Hlen.
  destruct (newQrSegment_holds NUMERIC (zlen cs) bb (numeric_bits cs)) as (seg & Es & Hm & Hc & Hh & Hb);
    [apply zlen_nonneg|done|lia|].
  exists seg. split.
  - unfold makeNumeric. fold cs. fold newAccum in E. apply exc_bind_inv in E as (a & -> & Ef).
    cbn [mbind exc_bind]. unfold numeric_finish in Ef. apply exc_bind_inv in Ef as (bb1 & -> & [= -> ->]). done.
  - split; [by left|]. split; [done|]. exists (numeric_bits cs). split_and!; [done|done|pose proof (numeric_bits_length cs); lia|].
    rewrite Hm. by apply numeric_reads.
Qed.

Lemma makeAlphanumeric_spec text : isAlphanumeric text = true -> Z.of_nat (String.length text) < 2 ^ 28 ->
  exists seg, makeAlphanumeric text = inr seg /\ segment_of seg (String.list_ascii_of_string text).
Proof.
  intros Hn Hlen. set (cs := String.list_ascii_of_string text).
  assert (exists vs, Forall2 alnum_value cs vs) as [vs Hv].
  { apply choose_list. eapply Forall_impl; [apply (string_all_Forall _ _ Hn)|]. apply isAlphanumeric_value. }
  destruct (alphanumeric_run cs vs Hv newBitBuffer [] 0 holds_new) as (bb & E & H). cbn [app] in H.
  pose proof (alphanumeric_bits_length cs vs Hv) as Hl. unfold cs in Hl at 1. rewrite length_list_ascii in Hl.
  change (2 ^ 28) with 268435456 in Hlen.
  destruct (newQrSegment_holds ALPHANUMERIC (zlen cs) bb (alphanumeric_bits vs)) as (seg & Es & Hm & Hc & Hh & Hb);
    [apply zlen_nonneg|done|lia|].
  exists seg. split.
  - unfold makeAlphanumeric. fold cs. fold newAccum in E. apply exc_bind_inv in E as (a & -> & Ef).
    cbn [mbind exc_bind]. unfold alphanumeric_finish in Ef. apply exc_bind_inv in Ef as (bb1 & -> & [= -> ->]). done.
  - split; [right; by left|]. split; [done|]. exists (alphanumeric_bits vs). split_and!; [done|done|pose proof (alphanumeric_bits_length cs vs Hv); lia|].
    rewrite Hm. by apply alphanumeric_reads.
Qed.

Lemma makeBytes_spec cs : zlen cs < 2 ^ 28 ->
  exists seg, makeBytes (code <$> cs) = inr seg /\ segment_of seg cs.
Proof.
  intros Hlen. change (2 ^ 28) with 268435456 in Hlen. pose proof (zlen_nonneg cs) as H0. unfold makeBytes.
  assert (El : zlen (code <$> cs) = zlen cs) by (unfold zlen; by rewrite length_fmap). rewrite El.
  rewrite !i32_id by (unfold is_i32; lia).
  set (bb := mkBitBuffer (code <$> cs) (zlen cs * 8)).
  assert (Hbb : holds bb (all_bits (code <$> cs))).
  { exists 0%nat. split; [lia|]. split_and!.
    - cbn. rewrite length_all_bits, length_fmap. unfold zlen. lia.
    - cbn. apply Forall_fmap, Forall_forall. intros c _. apply code_range.
    - by rewrite app_nil_r. }
  assert (Hb8 : Z.of_nat (length (all_bits (code <$> cs))) = zlen cs * 8)
    by (rewrite length_all_bits, length_fmap; unfold zlen; lia).
  destruct (newQrSegment_holds BYTE (zlen cs) bb _ H0 Hbb) as (seg & Es & Hm & Hc & Hh & Hb); [rewrite Hb8; lia|].
  exists seg. split; [done|]. split; [right; by right|]. split; [done|].
  exists (all_bits (code <$> cs)). split_and!; [done|done|rewrite length_all_bits, length_fmap; lia|]. rewrite Hm. apply bytes_reads.
Qed.

(** [makeSegments] never throws: a text becomes no segment, if it is empty, or one. *)
Lemma makeSegments_spec text : Z.of_nat (String.length text) < 2 ^ 28 ->
  (text = ""%string /\ makeSegments text = inr []) \/
  (exists seg, makeSegments text = inr [seg] /\ segment_of seg (String.list_ascii_of_string text)).
Proof.
  intros Hlen. unfold makeSegments. destruct (String.eqb_spec text "") as [->|Hne]; [by left|]. right.
  destruct (isNumeric text) eqn:En.
  { destruct (makeNumeric_spec text En Hlen) as (seg & -> & H). by exists seg. }
  destruct (isAlphanumeric text) eqn:Ea.
  { destruct (makeAlphanumeric_spec text Ea Hlen) as (seg & -> & H). by exists seg. }
  destruct (makeBytes_spec (String.list_ascii_of_string text)) as (seg & -> & H).
  { unfold zlen. by rewrite length_list_ascii. }
  by exists seg.
Qed.
