(* ===== verification/QrStreamFacts.v ===== *)
(** The data codewords of a symbol read back as the text. *)
From S2P Require Import Prelude CText Exc QrBits QrCode QrBitsFacts QrRead QrSegFacts.
Local Open Scope list_scope.
Local Open Scope Z_scope.

(** ** The tables *)

Definition levels : list Ecc := [LOW; MEDIUM; QUARTILE; HIGH].

(** What the tables promise. *)
Definition params_ok (p : params) : bool :=
  let k := p_raw p / 8 in let short := k / p_blocks p in let n := p_blocks p - k mod p_blocks p in
  let e := p_ecc p / p_blocks p in
  (208 <=? p_raw p) && (p_raw p <=? 29648) && (1 <=? p_data p) && (k =? p_data p + p_ecc p) && (1 <=? p_blocks p) &&
  (p_ecc p mod p_blocks p =? 0) && (1 <=? e) && (e <=? 255) && (1 <=? short - e) &&
  (p_data p =? n * (short - e) + (p_blocks p - n) * (short - e + 1)).
Definition params_checked (v : Z) (e : Ecc) : bool :=
  match params_of v e with inr p => params_ok p | inl _ => false end.

Lemma tables_checked : forallb (fun v => forallb (params_checked v) levels) (range 1 41) = true.
Proof. vm_compute. reflexivity. Qed.

Lemma params_spec v e : 1 <= v <= 40 -> e ∈ levels ->
  exists p, getNumRawDataModules v = inr (p_raw p) /\ getNumDataCodewords v e = inr (p_data p) /\
    table NUM_ERROR_CORRECTION_BLOCKS e v = inr (p_blocks p) /\
    table NUM_ERROR_CORRECTION_CODEWORDS e v = inr (p_ecc p) /\ params_ok p = true.
Proof.
  intros Hv He. pose proof tables_checked as H. rewrite forallb_forall in H.
  specialize (H v). rewrite <- list_elem_of_In, elem_of_range in H. specialize (H ltac:(lia)).
  rewrite forallb_forall in H. specialize (H e). rewrite <- list_elem_of_In in H. specialize (H He).
  unfold params_checked in H. destruct (params_of v e) as [|p] eqn:E; [done|].
  unfold params_of in E. apply exc_bind_inv in E as (raw & E1 & E). apply exc_bind_inv in E as (data & E2 & E).
  apply exc_bind_inv in E as (b & E3 & E). apply exc_bind_inv in E as (ecc & E4 & E). injection E as <-.
  by exists (mkParams raw data b ecc).
Qed.
Lemma data_codewords_spec v e : 1 <= v <= 40 -> e ∈ levels ->
  exists n, getNumDataCodewords v e = inr n /\ 1 <= n <= 3706.
Proof.
  intros Hv He. destruct (params_spec v e Hv He) as (p & _ & E & _ & _ & H). exists (p_data p). split; [done|].
  unfold params_ok in H. bool_to_prop.
  assert (0 <= p_ecc p) by (pose proof (Z.div_mod (p_ecc p) (p_blocks p) ltac:(lia)); nia).
  assert (p_raw p / 8 <= 3706) by (apply Z.div_le_upper_bound; lia). lia.
Qed.

(** ** One segment *)

(** A segment, its bits and its characters. *)
Definition carries (seg : QrSegment) (bs : list bool) (cs : list Ascii.ascii) : Prop :=
  (seg_mode seg = NUMERIC \/ seg_mode seg = ALPHANUMERIC \/ seg_mode seg = BYTE) /\
  numChars seg = zlen cs /\ seg_holds seg bs /\ seg_bitLength seg = Z.of_nat (length bs) /\
  reads (read_mode (seg_mode seg) (length cs)) bs cs.
Lemma segment_carries seg cs : segment_of seg cs -> exists bs, carries seg bs cs /\ (length bs <= 8 * length cs)%nat.
Proof. intros (H1 & H2 & bs & H3 & H4 & H5 & H6). exists bs. by split_and!. Qed.

Definition count_width (md : Mode) (v : Z) : nat :=
  if modeBits md =? 1 then by_version v 10 12 14 else if modeBits md =? 2 then by_version v 9 11 13
  else by_version v 8 16 16.
Lemma count_width_16 md v : (count_width md v <= 16)%nat.
Proof. unfold count_width, by_version. repeat case_match; lia. Qed.
Lemma numCharCountBits_spec seg bs cs v : carries seg bs cs -> 1 <= v <= 40 ->
  numCharCountBits (seg_mode seg) v = inr (Z.of_nat (count_width (seg_mode seg) v)).
Proof.
  intros (Hm & _) Hv. unfold numCharCountBits, count_width, by_version.
  destruct (Z.leb_spec 1 v), (Z.leb_spec v 9), (Z.leb_spec 10 v), (Z.leb_spec v 26), (Z.leb_spec 27 v), (Z.leb_spec v 40); try lia;
    by destruct Hm as [->|[->| ->]].
Qed.

(** The bits of a segment in the stream. *)
Definition stream_of (v : Z) (seg : QrSegment) (bs : list bool) : list bool :=
  be_bits 4 (modeBits (seg_mode seg)) ++ be_bits (count_width (seg_mode seg) v) (numChars seg) ++ bs.

Lemma append_segment_spec v bb pre seg bs cs : 1 <= v <= 40 -> carries seg bs cs -> holds bb pre ->
  numChars seg < 2 ^ Z.of_nat (count_width (seg_mode seg) v) ->
  exists bb', append_segment v bb seg = inr bb' /\ holds bb' (pre ++ stream_of v seg bs).
Proof.
  intros Hv Hc Hbb Hn. unfold append_segment. rewrite (numCharCountBits_spec seg bs cs v Hc Hv).
  destruct Hc as (Hm & Hlen & Hs & _). pose proof (zlen_nonneg cs).
  destruct (appendBits_spec bb pre (modeBits (seg_mode seg)) 4 Hbb) as (b1 & -> & H1);
    [lia|change (2 ^ 4) with 16; destruct Hm as [->|[->| ->]]; cbn; lia|].
  cbn [mbind exc_bind]. pose proof (count_width_16 (seg_mode seg) v).
  destruct (appendBits_spec b1 _ (numChars seg) (Z.of_nat (count_width (seg_mode seg) v)) H1) as (b2 & -> & H2);
    [lia|lia|]. cbn [mbind exc_bind].
  destruct (appendData_spec b2 _ seg bs H2 Hs) as (b3 & E & H3). exists b3. split; [done|].
  unfold stream_of. rewrite Nat2Z.id, <- !app_assoc in H3. exact H3.
Qed.

Lemma read_segment_spec v seg bs cs rest : carries seg bs cs ->
  numChars seg < 2 ^ Z.of_nat (count_width (seg_mode seg) v) ->
  read_segment v (stream_of v seg bs ++ rest) = Some (Some cs, rest).
Proof.
  intros (Hm & Hlen & _ & _ & Hr) Hn. pose proof (zlen_nonneg cs).
  unfold read_segment, stream_of. rewrite <- !app_assoc.
  rewrite take_bits_be by (change (2 ^ Z.of_nat 4) with 16; destruct Hm as [->|[->| ->]]; cbn; lia).
  cbn [mbind option_bind]. specialize (Hr rest).
  destruct Hm as [Em|[Em|Em]]; rewrite Em in *; cbn [modeBits NUMERIC ALPHANUMERIC BYTE Z.eqb Pos.eqb];
    unfold count_width in *; cbn [modeBits NUMERIC ALPHANUMERIC BYTE Z.eqb Pos.eqb] in *;
    rewrite take_bits_be by lia; cbn [mbind option_bind]; rewrite Hlen; unfold zlen; rewrite Nat2Z.id;
    unfold read_mode in Hr; cbn [modeBits NUMERIC ALPHANUMERIC BYTE Z.eqb Pos.eqb] in Hr; by rewrite Hr.
Qed.

(** ** All segments *)

Definition stream (v : Z) (segs : list (QrSegment * list bool * list Ascii.ascii)) : list bool :=
  segs ≫= fun '(seg, bs, _) => stream_of v seg bs.
Definition carried (t : QrSegment * list bool * list Ascii.ascii) : Prop :=
  let '(seg, bs, cs) := t in carries seg bs cs.
Definition count_fits (v : Z) (t : QrSegment * list bool * list Ascii.ascii) : Prop :=
  numChars t.1.1 < 2 ^ Z.of_nat (count_width (seg_mode t.1.1) v).

Lemma getTotalBits_spec v segs used : 1 <= v <= 40 -> Forall carried segs ->
  getTotalBits ((fun t => t.1.1) <$> segs) v = inr used -> used <> -1 ->
  Forall (count_fits v) segs /\ used = Z.of_nat (length (stream v segs)).
Proof.
  intros Hv Hc. unfold getTotalBits. destruct (Z.ltb_spec v 1), (Z.ltb_spec 40 v); [lia..|].
  cbn [orb throw_if mbind exc_bind mret exc_ret].
  cut (forall r, getTotalBits_loop ((fun t => t.1.1) <$> segs) v r = inr used -> used <> -1 ->
    Forall (count_fits v) segs /\ used = r + Z.of_nat (length (stream v segs))).
  { intros Hx. by apply Hx. }
  induction Hc as [|[[seg bs] cs] segs Hs Hc IH]; intros r.
  { cbn. intros [= ->] _. split; [constructor|lia]. }
  rewrite fmap_cons. cbn [getTotalBits_loop fst carried] in *.
  rewrite (numCharCountBits_spec seg bs cs v) by done. cbn [mbind exc_bind].
  rewrite Z.shiftl_1_l. case_match; [by intros [= <-]|]. bool_to_prop. intros E Hu.
  destruct (IH _ E Hu) as [Hf ->]. split; [constructor; done|].
  unfold stream. rewrite bind_cons, length_app. fold (stream v segs). unfold stream_of.
  rewrite !length_app, !length_be_bits. destruct Hs as (_ & _ & _ & -> & _). lia.
Qed.

Lemma append_all_spec v segs bb pre : 1 <= v <= 40 -> Forall carried segs -> Forall (count_fits v) segs -> holds bb pre ->
  exists bb', exc_fold (append_segment v) bb ((fun t => t.1.1) <$> segs) = inr bb' /\ holds bb' (pre ++ stream v segs).
Proof.
  intros Hv Hc. revert bb pre. induction Hc as [|[[seg bs] cs] segs Hs Hc IH]; intros bb pre Hf Hbb.
  { exists bb. unfold stream. cbn. by rewrite app_nil_r. }
  rewrite fmap_cons. cbn [exc_fold fst carried] in *. apply Forall_cons in Hf as [Hf1 Hf].
  destruct (append_segment_spec v bb pre seg bs cs Hv Hs Hbb Hf1) as (b1 & -> & H1). cbn [mbind exc_bind].
  destruct (IH b1 _ Hf H1) as (b2 & E & H2). exists b2. split; [done|]. by rewrite <- app_assoc in H2.
Qed.

(** Reading ends at the terminator, or where fewer than four bits are left. *)
Definition ends_stream (rest : list bool) : Prop := (length rest < 4)%nat \/ take 4 rest = replicate 4 false.

Lemma read_stream_spec v segs rest fuel : Forall carried segs -> Forall (count_fits v) segs -> ends_stream rest ->
  (length (stream v segs ++ rest) < fuel)%nat ->
  read_stream fuel v (stream v segs ++ rest) = Some (segs ≫= fun t => t.2).
Proof.
  intros Hc. revert fuel. induction Hc as [|[[seg bs] cs] segs Hs Hc IH]; intros fuel Hf Hr Hfuel;
    (destruct fuel as [|fuel]; [lia|]).
  - unfold stream. cbn [mbind list_bind app]. cbn [read_stream]. case_decide as Hd; [done|].
    destruct Hr as [Hr|Hr]; [done|]. unfold read_segment, take_bits. rewrite decide_True by lia.
    rewrite Hr. done.
  - apply Forall_cons in Hf as [Hf1 Hf]. cbn [carried] in Hs.
    unfold stream in *. rewrite bind_cons in *. fold (stream v segs) in *. rewrite <- app_assoc in *.
    cbn [read_stream]. rewrite decide_False by (unfold stream_of; rewrite !length_app, length_be_bits; lia).
    rewrite (read_segment_spec v seg bs cs) by done. cbn [mbind option_bind].
    rewrite IH; [|done|done|unfold stream_of in Hfuel; rewrite !length_app, length_be_bits in *; lia].
    cbn [mbind option_bind]. by rewrite bind_cons.
Qed.

Abbreviation segments segs := ((fun t => t.1.1) <$> segs).

Lemma getTotalBits_total v segs : 1 <= v <= 40 -> Forall carried segs ->
  exists used, getTotalBits (segments segs) v = inr used.
Proof.
  intros Hv Hc. unfold getTotalBits. destruct (Z.ltb_spec v 1), (Z.ltb_spec 40 v); [lia..|].
  cbn [orb throw_if mbind exc_bind mret exc_ret]. generalize 0.
  induction Hc as [|[[seg bs] cs] segs Hs Hc IH]; intros r; [by eexists|].
  rewrite fmap_cons. cbn [getTotalBits_loop fst carried] in *.
  rewrite (numCharCountBits_spec seg bs cs v) by done. cbn [mbind exc_bind]. case_match; [by eexists|apply IH].
Qed.

Lemma getTotalBits_fits v segs : 1 <= v <= 40 -> Forall carried segs -> Forall (count_fits v) segs ->
  getTotalBits (segments segs) v = inr (Z.of_nat (length (stream v segs))).
Proof.
  intros Hv Hc Hf. unfold getTotalBits. destruct (Z.ltb_spec v 1), (Z.ltb_spec 40 v); [lia..|].
  cbn [orb throw_if mbind exc_bind mret exc_ret].
  cut (forall r, getTotalBits_loop (segments segs) v r = inr (r + Z.of_nat (length (stream v segs)))); [intros Hx; by rewrite Hx|].
  induction Hc as [|[[seg bs] cs] segs Hs Hc IH]; intros r; [cbn; f_equal; lia|].
  apply Forall_cons in Hf as [Hf1 Hf]. rewrite fmap_cons. cbn [getTotalBits_loop fst carried] in *.
  rewrite (numCharCountBits_spec seg bs cs v) by done. cbn [mbind exc_bind]. unfold count_fits in Hf1. cbn [fst] in Hf1.
  rewrite Z.shiftl_1_l. destruct (Z.leb_spec (2 ^ Z.of_nat (count_width (seg_mode seg) v)) (numChars seg)); [lia|].
  rewrite IH by done. f_equal. unfold stream. rewrite bind_cons, length_app. fold (stream v segs). unfold stream_of.
  rewrite !length_app, !length_be_bits. destruct Hs as (_ & _ & _ & -> & _). lia.
Qed.

(** ** The version and the level *)

Definition fits (v : Z) (e : Ecc) segs : Prop :=
  exists n, getNumDataCodewords v e = inr n /\ Z.of_nat (length (stream v segs)) <= 8 * n.

Lemma find_version_spec fuel segs e v maxv : Forall carried segs -> e ∈ levels -> 1 <= v <= maxv -> maxv <= 40 ->
  maxv - v < Z.of_nat fuel ->
  find_version fuel (segments segs) e v maxv = inl "Data too long"%string /\
    ~ (Forall (count_fits maxv) segs /\ fits maxv e segs) \/
  exists v', find_version fuel (segments segs) e v maxv = inr (v', Z.of_nat (length (stream v' segs))) /\
    v <= v' <= maxv /\ Forall (count_fits v') segs /\ fits v' e segs.
Proof.
  intros Hc He. revert v. induction fuel as [|fuel IH]; intros v Hv Hmax Hfuel; [lia|]. cbn [find_version].
  destruct (data_codewords_spec v e ltac:(lia) He) as (n & En & _). rewrite En. cbn [mbind exc_bind].
  destruct (getTotalBits_total v segs ltac:(lia) Hc) as (used & Eu). rewrite Eu. cbn [mbind exc_bind].
  destruct (negb (used =? -1) && (used <=? n * 8)) eqn:Ef.
  - right. bool_to_prop. destruct (getTotalBits_spec v segs used ltac:(lia) Hc Eu) as [Hf ->]; [done|].
    exists v. split_and!; [done|lia|lia|done|]. exists n. split; [done|lia].
  - destruct (Z.leb_spec maxv v).
    { left. split; [done|]. intros [Hf (n' & En' & Hn')]. assert (v = maxv) as -> by lia.
      rewrite (getTotalBits_fits maxv segs) in Eu by (done || lia). injection Eu as <-.
      assert (n' = n) as -> by congruence.
      destruct (Z.eqb_spec (Z.of_nat (length (stream maxv segs))) (-1)); [lia|].
      destruct (Z.leb_spec (Z.of_nat (length (stream maxv segs))) (n * 8)); [done|lia]. }
    destruct (IH (v + 1)) as [E|(v' & E & Hv' & Hr)]; [lia|lia|lia|by left|].
    right. exists v'. split_and!; [done|lia|lia|apply Hr|apply Hr].
Qed.

Lemma boost_step_spec v segs newEcl e : 1 <= v <= 40 -> e ∈ levels -> newEcl ∈ levels -> fits v newEcl segs ->
  exists e', boost_step v (Z.of_nat (length (stream v segs))) newEcl e = inr e' /\ e' ∈ levels /\ fits v e' segs.
Proof.
  intros Hv He Hn Hf. unfold boost_step. destruct (data_codewords_spec v e Hv He) as (n & En & _).
  rewrite En. cbn [mbind exc_bind]. destruct (Z.leb_spec (Z.of_nat (length (stream v segs))) (n * 8)).
  - exists e. split_and!; [done|done|]. exists n. split; [done|lia].
  - by exists newEcl.
Qed.
Definition boost (v used : Z) (e : Ecc) (boostEcl : bool) : exc Ecc :=
  if boostEcl then
    e ← boost_step v used e MEDIUM; e ← boost_step v used e QUARTILE; boost_step v used e HIGH
  else mret e.
Lemma boost_spec v segs e b : 1 <= v <= 40 -> e ∈ levels -> fits v e segs ->
  exists e', boost v (Z.of_nat (length (stream v segs))) e b = inr e' /\ e' ∈ levels /\ fits v e' segs.
Proof.
  intros Hv He Hf. unfold boost. destruct b; [|by exists e].
  destruct (boost_step_spec v segs e MEDIUM) as (e1 & -> & H1 & F1); [done|by repeat constructor|done..|]. cbn [mbind exc_bind].
  destruct (boost_step_spec v segs e1 QUARTILE) as (e2 & -> & H2 & F2); [done|by repeat constructor|done..|]. cbn [mbind exc_bind].
  apply boost_step_spec; [done|by repeat constructor|done..].
Qed.

(** ** Padding *)

Lemma pad_loop_spec fuel bb bs cap b : holds bb bs -> is_byte b ->
  8 * Z.of_nat fuel >= cap - Z.of_nat (length bs) -> Z.of_nat (length bs) <= cap ->
  (cap - Z.of_nat (length bs)) mod 8 = 0 ->
  exists bb' pads, pad_loop fuel bb cap b = inr bb' /\ holds bb' (bs ++ pads) /\
    Z.of_nat (length (bs ++ pads)) = cap.
Proof.
  revert bb bs b. induction fuel as [|fuel IH]; intros bb bs b Hbb Hb Hfuel Hle Hmod; cbn [pad_loop];
    rewrite (holds_length bb bs Hbb).
  - exists bb, []. rewrite app_nil_r. destruct (Z.ltb_spec (Z.of_nat (length bs)) cap); [lia|]. split_and!; [done|done|lia].
  - destruct (Z.ltb_spec (Z.of_nat (length bs)) cap).
    + destruct (appendBits_spec bb bs b 8 Hbb) as (b1 & -> & H1); [lia|exact Hb|]. cbn [mbind exc_bind].
      assert (Hlt : 8 <= cap - Z.of_nat (length bs)).
      { pose proof (Z.div_mod (cap - Z.of_nat (length bs)) 8 ltac:(lia)). lia. }
      change (Z.to_nat 8) with 8%nat in H1.
      destruct (IH b1 (bs ++ be_bits 8 b) (u8 (Z.lxor b (Z.lxor 236 17))) H1) as (bb' & pads & E & H2 & H3).
      * unfold is_byte, u8. apply Z.mod_pos_bound. lia.
      * rewrite length_app, length_be_bits. lia.
      * rewrite length_app, length_be_bits. lia.
      * rewrite length_app, length_be_bits. rewrite <- Hmod.
        replace (cap - Z.of_nat (length bs + 8)) with (cap - Z.of_nat (length bs) + (-1) * 8) by lia.
        by rewrite Z.mod_add.
      * exists bb', (be_bits 8 b ++ pads). rewrite app_assoc. done.
    + exists bb, []. rewrite app_nil_r. split_and!; [done|done|lia].
Qed.

Lemma be_bits_zero n : be_bits n 0 = replicate n false.
Proof. induction n as [|n IH]; cbn; [done|]. by rewrite IH, Z.testbit_0_l. Qed.

(** The terminator, the bits up to a whole byte, the pad bytes. *)
Definition close_stream (bb : BitBuffer) (cap : Z) : exc BitBuffer :=
  bb ← appendBits bb 0 (Z.min 4 (cap - getBitLength bb));
  bb ← appendBits bb 0 (Z.rem (8 - Z.rem (getBitLength bb) 8) 8);
  pad_loop (Z.to_nat cap) bb cap 236.

Lemma close_stream_spec bb bs n : holds bb bs -> 0 <= n -> Z.of_nat (length bs) <= 8 * n ->
  exists bb' rest, close_stream bb (n * 8) = inr bb' /\ holds bb' (bs ++ rest) /\
    Z.of_nat (length (bs ++ rest)) = 8 * n /\ ends_stream rest.
Proof.
  intros Hbb Hn Hle. unfold close_stream. rewrite (holds_length bb bs Hbb).
  set (t := Z.min 4 (n * 8 - Z.of_nat (length bs))).
  destruct (appendBits_spec bb bs 0 t Hbb) as (b1 & -> & H1); [lia|pose proof (Z.pow_pos_nonneg 2 t); lia|].
  cbn [mbind exc_bind]. rewrite be_bits_zero in H1. rewrite (holds_length b1 _ H1).
  rewrite length_app, length_replicate. set (L := Z.of_nat (length bs + Z.to_nat t)).
  rewrite !rem_nonneg by (rewrite ?rem_nonneg by lia; pose proof (Z.mod_pos_bound L 8); lia).
  set (p := (8 - L mod 8) mod 8).
  assert (Hp : 0 <= p < 8) by (apply Z.mod_pos_bound; lia).
  assert (Hlp : (L + p) mod 8 = 0).
  { unfold p. rewrite Z.add_mod_idemp_r by lia. pose proof (Z.div_mod L 8 ltac:(lia)).
    replace (L + (8 - L mod 8)) with ((L / 8 + 1) * 8) by lia. apply Z.mod_mul. lia. }
  assert (Hpn : L + p <= 8 * n).
  { assert (L <= 8 * n) by lia. pose proof (Z.div_mod (L + p) 8 ltac:(lia)). lia. }
  destruct (appendBits_spec b1 _ 0 p H1) as (b2 & -> & H2); [lia|pose proof (Z.pow_pos_nonneg 2 p); lia|].
  cbn [mbind exc_bind]. rewrite be_bits_zero, <- app_assoc, <- replicate_add in H2.
  destruct (pad_loop_spec (Z.to_nat (n * 8)) b2 _ (n * 8) 236 H2) as (b3 & pads & E & H3 & Hl).
  - unfold is_byte. lia.
  - lia.
  - rewrite length_app, length_replicate. lia.
  - rewrite length_app, length_replicate.
    replace (n * 8 - Z.of_nat (length bs + (Z.to_nat t + Z.to_nat p))) with (- (L + p) + n * 8) by lia.
    rewrite Z.mod_add by lia. apply Z.mod_opp_l_z; [lia|done].
  - rewrite <- app_assoc in H3, Hl.
    exists b3, (replicate (Z.to_nat t + Z.to_nat p) false ++ pads). split_and!; [done|done|lia|].
    destruct (decide (t = 4)) as [E4|N4].
    + right. rewrite E4, replicate_add, <- app_assoc. by rewrite take_app_length'.
    + left. rewrite !length_app, length_replicate in *. lia.
Qed.

(** ** Encoding *)

(** The data codewords of a symbol: encoding segments fails with "Data too long"
    or gives a version in the asked range, a level, and exactly as many bytes as the
    version and the level hold, from which the standard's rules read the characters
    of the segments, in order.  No assertion fails. *)
Lemma encode_codewords_read segs e minv maxv mask boostEcl :
  Forall carried segs -> e ∈ levels -> 1 <= minv <= maxv -> maxv <= 40 -> -1 <= mask <= 7 ->
  encode_codewords (segments segs) e minv maxv mask boostEcl = inl "Data too long"%string /\
    ~ (Forall (count_fits maxv) segs /\ fits maxv e segs) \/
  exists v e' bytes, encode_codewords (segments segs) e minv maxv mask boostEcl = inr (v, e', bytes) /\
    minv <= v <= maxv /\ e' ∈ levels /\ Forall is_byte bytes /\ getNumDataCodewords v e' = inr (zlen bytes) /\
    read_stream (S (length (all_bits bytes))) v (all_bits bytes) = Some (segs ≫= fun t => t.2).
Proof.
  intros Hsegs He Hmin Hmax Hmask. unfold encode_codewords.
  destruct (Z.leb_spec 1 minv), (Z.leb_spec minv maxv), (Z.leb_spec maxv 40), (Z.ltb_spec mask (-1)), (Z.ltb_spec 7 mask); try lia.
  cbn [negb andb orb throw_if mbind exc_bind mret exc_ret].
  destruct (find_version_spec 40 segs e minv maxv) as [[-> Hno]|(v & -> & Hv & Hfit & Hn)]; [done|done|lia|lia|lia|by left|].
  right. cbn [mbind exc_bind]. destruct (Z.eqb_spec (Z.of_nat (length (stream v segs))) (-1)) as [?|Hne]; [lia|].
  cbn [throw_if mbind exc_bind mret exc_ret].
  destruct (boost_spec v segs e boostEcl) as (e' & Eb & He' & n & En & Hle); [lia|done..|].
  unfold boost in Eb. rewrite (exc_bind_inr _ _ _ Eb), (exc_bind_inr _ _ _ En).
  destruct (append_all_spec v segs newBitBuffer [] ltac:(lia) Hsegs Hfit holds_new) as (b1 & E1 & Hb1).
  rewrite (exc_bind_inr _ _ _ E1). cbn [app] in Hb1.
  destruct (data_codewords_spec v e' ltac:(lia) He') as (n' & En' & Hn'). assert (n' = n) as -> by congruence.
  destruct (close_stream_spec b1 _ n Hb1) as (b2 & rest & E2 & Hb2 & Hl & Hr); [lia|lia|].
  unfold close_stream in E2. apply exc_bind_inv in E2 as (b11 & E11 & E2). apply exc_bind_inv in E2 as (b12 & E12 & E2).
  rewrite (exc_bind_inr _ _ _ E11), (exc_bind_inr _ _ _ E12), (exc_bind_inr _ _ _ E2).
  rewrite (holds_length b2 _ Hb2), Hl.
  rewrite rem_nonneg, (Z.mul_comm 8), Z.mod_mul by lia. cbn [Z.eqb negb throw_if mbind exc_bind mret exc_ret].
  exists v, e', (getBytes b2).
  assert (Hsz : zlen (getBytes b2) = n).
  { rewrite (holds_size b2 _ Hb2), Hl. symmetry. apply (Z.div_unique _ _ _ 7); lia. }
  assert (Hbits : all_bits (getBytes b2) = stream v segs ++ rest).
  { destruct Hb2 as (k & Hk & Hlen & _ & Ebits). unfold getBytes in *. rewrite Ebits.
    apply (f_equal length) in Ebits. rewrite length_all_bits, length_app, length_replicate in Ebits.
    unfold zlen in Hsz. assert (k = 0%nat) as -> by lia. by rewrite app_nil_r. }
  split_and!; [done|lia|lia|done|by destruct Hb2 as (? & _ & _ & ? & _)|by rewrite Hsz|].
  rewrite Hbits. apply read_stream_spec; [done..|lia].
Qed.
