(* ===== verification/QrBlocksFacts.v ===== *)
(** Blocks and error correction: the codewords of a symbol read back as the data. *)
From S2P Require Import Prelude CText Exc QrBits ReedSolomon ReedSolomonFacts QrCode QrBitsFacts QrRead QrSegFacts QrStreamFacts.
Local Open Scope list_scope.
Local Open Scope Z_scope.

(** ** The blocks *)

(** The block [i] before it is interleaved: short blocks have a byte of padding. *)
Definition mk_block (n i : nat) (p : list Z * list Z) : list Z :=
  p.1 ++ (if decide (i < n)%nat then [0] else []) ++ p.2.
(** What a block is: its data and error correction have their lengths and form a
    codeword. *)
Definition block_ok (l : layout) (i : nat) (p : list Z * list Z) : Prop :=
  length p.1 = (l_data l + if decide (i < l_short l) then 0 else 1)%nat /\ length p.2 = l_ecc l /\
  Forall is_byte (p.1 ++ p.2) /\ forall k, (k < l_ecc l)%nat -> evaluate (p.1 ++ p.2) (alpha k) = 0.

Lemma slice_spec data k n : 0 <= k -> 0 <= n -> k + n <= zlen data ->
  slice data k n = inr (take (Z.to_nat n) (drop (Z.to_nat k) data)).
Proof.
  intros. unfold slice. destruct (Z.ltb_spec k 0), (Z.ltb_spec n 0), (Z.ltb_spec (zlen data) (k + n)); done || lia.
Qed.

Lemma imap_snoc {A B} (f : nat -> A -> B) l a : imap f (l ++ [a]) = imap f l ++ [f (length l) a].
Proof. by rewrite imap_app; cbn; rewrite Nat.add_0_r. Qed.

Section Blocks.
Context (l : layout) (data rs : list Z).
Context (Hecc : (1 <= l_ecc l <= 255)%nat) (Hd : (1 <= l_data l)%nat) (Hn : (l_short l <= l_blocks l)%nat).
Context (Hbytes : Forall is_byte data).
Context (Hlen : length data = (l_blocks l * l_data l + (l_blocks l - l_short l))%nat).
Context (Hrs : ReedSolomonGenerator (Z.of_nat (l_ecc l)) = inr rs).

Let start (i : nat) : nat := (i * l_data l + (i - l_short l))%nat.

Lemma block_step_spec i ps : (i < l_blocks l)%nat -> length ps = i -> concat ps.*1 = take (start i) data ->
  exists p, block_ok l i p /\ concat (ps ++ [p]).*1 = take (start (S i)) data /\
    block_step rs data (Z.of_nat (l_short l)) (Z.of_nat (l_data l + l_ecc l)) (Z.of_nat (l_ecc l))
      (Z.of_nat (start i), imap (mk_block (l_short l)) ps) (Z.of_nat i)
    = inr (Z.of_nat (start (S i)), imap (mk_block (l_short l)) (ps ++ [p])).
Proof using Hecc Hd Hn Hbytes Hlen Hrs.
  intros Hi Hps Hc. unfold block_step.
  set (w := (l_data l + if decide (i < l_short l) then 0 else 1)%nat).
  assert (Hw : Z.of_nat (l_data l + l_ecc l) - Z.of_nat (l_ecc l) + (if Z.of_nat i <? Z.of_nat (l_short l) then 0 else 1) = Z.of_nat w).
  { unfold w. destruct (Z.ltb_spec (Z.of_nat i) (Z.of_nat (l_short l))); case_decide; lia. }
  assert (Hs : start (S i) = (start i + w)%nat) by (unfold start, w; case_decide; lia).
  assert (Hle : (start i + w <= length data)%nat).
  { rewrite <- Hs, Hlen. unfold start. pose proof (Nat.mul_le_mono_r (S i) (l_blocks l) (l_data l) Hi). lia. }
  rewrite Hw, slice_spec by (unfold zlen; lia). rewrite !Nat2Z.id. cbn [mbind exc_bind].
  set (dat := take w (drop (start i) data)).
  assert (Hdat : length dat = w) by (unfold dat; rewrite length_take, length_drop; lia).
  assert (Hdb : Forall is_byte dat) by (by apply Forall_take, Forall_drop).
  destruct (reed_solomon_codeword (Z.of_nat (l_ecc l)) dat) as (cs & ecc & E1 & E2 & Hl & Hb & Hz); [lia|done|].
  rewrite Hrs in E1. injection E1 as <-. rewrite E2. cbn [mbind exc_bind mret exc_ret].
  exists (dat, ecc). split_and!.
  - split_and!; cbn; [done|unfold zlen in Hl; lia|by apply Forall_app|]. intros k Hk. apply Hz. lia.
  - rewrite fmap_app, concat_app, Hc, Hs. cbn. rewrite app_nil_r. unfold dat.
    apply take_take_drop.
  - rewrite imap_snoc, Hps. unfold mk_block at 3. cbn [fst snd]. do 2 f_equal.
    + rewrite Hs. unfold zlen. rewrite Hdat. lia.
    + do 2 f_equal. destruct (Z.ltb_spec (Z.of_nat i) (Z.of_nat (l_short l))); case_decide; try lia; [|done].
      by rewrite <- app_assoc.
Qed.

(** All blocks: their data is the data, in order. *)
Lemma blocks_spec : exists ps,
  exc_fold (block_step rs data (Z.of_nat (l_short l)) (Z.of_nat (l_data l + l_ecc l)) (Z.of_nat (l_ecc l)))
    (0, []) (range 0 (Z.of_nat (l_blocks l))) = inr (zlen data, imap (mk_block (l_short l)) ps) /\
  length ps = l_blocks l /\ concat ps.*1 = data /\ forall i p, ps !! i = Some p -> block_ok l i p.
Proof using Hecc Hd Hn Hbytes Hlen Hrs.
  destruct (exc_fold_inv (block_step rs data (Z.of_nat (l_short l)) (Z.of_nat (l_data l + l_ecc l)) (Z.of_nat (l_ecc l)))
    (fun pre st => exists ps, st = (Z.of_nat (start (length pre)), imap (mk_block (l_short l)) ps) /\
      length ps = length pre /\ concat ps.*1 = take (start (length pre)) data /\
      forall i p, ps !! i = Some p -> block_ok l i p)
    (range 0 (Z.of_nat (l_blocks l))) (0, [])) as (st & E & ps & -> & Hl & Hc & Hok).
  - exists []. by split_and!.
  - intros pre a todo st Hr (ps & -> & Hl & Hc & Hok).
    destruct (range_split _ _ _ _ Hr) as [-> Hi].
    destruct (block_step_spec (length pre) ps Hi Hl Hc) as (p & Hp & Hc' & E). exists (Z.of_nat (start (S (length pre))), imap (mk_block (l_short l)) (ps ++ [p])).
    split; [done|]. exists (ps ++ [p]). rewrite !length_app, Hl. cbn [length]. rewrite Nat.add_1_r.
    split_and!; [done|done|done|]. intros i q. destruct (decide (i < length ps)%nat).
    + rewrite lookup_app_l by done. apply Hok.
    + rewrite lookup_app_r by lia. intros Hq%list_lookup_singleton_Some. destruct Hq as [Hz <-].
      by replace i with (length pre) by lia.
  - rewrite length_range, Z.sub_0_r, Nat2Z.id in *.
    assert (Hs : start (l_blocks l) = length data) by (unfold start; lia).
    exists ps. rewrite E, Hs. split_and!; [done|done| |done]. by rewrite Hc, Hs, firstn_all.
Qed.
End Blocks.

(** ** Interleaving *)

Definition column (blocks : list (list Z)) (i : nat) : list Z := (fun b => b !!! i) <$> blocks.

Lemma interleave_row blocks pad n i w res : Forall (fun b => length b = w) blocks -> (i < w)%nat ->
  exc_fold (interleave_step blocks (Z.of_nat pad) (Z.of_nat n) (Z.of_nat i)) res (range 0 (zlen blocks))
  = inr (res ++ if decide (i = pad) then column (drop n blocks) i else column blocks i).
Proof.
  intros Hw Hi.
  cut (forall pre suf res, blocks = pre ++ suf ->
    exc_fold (interleave_step blocks (Z.of_nat pad) (Z.of_nat n) (Z.of_nat i)) res (range (zlen pre) (zlen blocks))
    = inr (res ++ if decide (i = pad) then column (drop (n - length pre) suf) i else column suf i)).
  { intros H. specialize (H [] blocks res eq_refl). cbn [length] in H. rewrite Nat.sub_0_r in H. exact H. }
  intros pre suf. revert pre. induction suf as [|b suf IH]; intros pre r Hb.
  - rewrite Hb, app_nil_r, range_nil by lia. cbn. unfold column. rewrite drop_nil. case_decide; by rewrite app_nil_r.
  - rewrite range_cons by (rewrite Hb, zlen_app, zlen_cons; pose proof (zlen_nonneg suf); lia). cbn [exc_fold].
    assert (Hlb : blocks !! length pre = Some b) by (rewrite Hb; by apply list_lookup_middle).
    assert (Hbw : length b = w) by (eapply Forall_lookup_1 in Hw; [|exact Hlb]; done).
    destruct (lookup_lt_is_Some_2 b i) as [x Hx]; [lia|].
    specialize (IH (pre ++ [b])). rewrite zlen_app in IH. change (zlen [b]) with 1 in IH.
    assert (Hx' : b !!! i = x) by (by apply list_lookup_total_correct).
    assert (Hstep : interleave_step blocks (Z.of_nat pad) (Z.of_nat n) (Z.of_nat i) r (zlen pre)
      = inr (r ++ if decide (i = pad) then if decide (n <= length pre)%nat then [x] else [] else [x])).
    { unfold interleave_step.
      rewrite (at_Some blocks (zlen pre) b) by (unfold zlen; rewrite ?Nat2Z.id; lia || done).
      cbn [mbind exc_bind]. rewrite (at_Some b (Z.of_nat i) x) by (rewrite ?Nat2Z.id; lia || done).
      unfold zlen. destruct (Z.eqb_spec (Z.of_nat i) (Z.of_nat pad)), (Z.leb_spec (Z.of_nat n) (Z.of_nat (length pre)));
        repeat case_decide; cbn; try lia; by rewrite ?app_nil_r. }
    rewrite Hstep. cbn [mbind exc_bind]. rewrite IH by (by rewrite <- app_assoc). rewrite length_app. cbn [length].
    unfold column. rewrite <- app_assoc, fmap_cons, Hx'. repeat case_decide; try done.
    + replace (n - length pre)%nat with 0%nat by lia. replace (n - (length pre + 1))%nat with 0%nat by lia.
      by rewrite !drop_0, fmap_cons, Hx'.
    + by replace (n - length pre)%nat with (S (n - (length pre + 1))) by lia.
Qed.

Lemma interleave_spec blocks pad n w : Forall (fun b => length b = w) blocks -> blocks <> [] -> (pad < w)%nat ->
  interleave blocks (Z.of_nat pad) (Z.of_nat n)
  = inr ((seq 0 pad ≫= column blocks) ++ column (drop n blocks) pad ++ (seq (S pad) (w - S pad) ≫= column blocks)).
Proof.
  intros Hw Hne Hp. unfold interleave. destruct blocks as [|b0 bs]; [done|]. set (blocks := b0 :: bs) in *.
  assert (Hb0 : length b0 = w) by (by apply Forall_cons in Hw as [? _]).
  change (at_ blocks 0) with (inr b0 : exc (list Z)). cbn [mbind exc_bind]. unfold zlen at 2. rewrite Hb0.
  set (row i := if decide (i = pad) then column (drop n blocks) i else column blocks i).
  assert (H : forall m s res, (s + m <= w)%nat ->
    exc_fold (fun result i => exc_fold (interleave_step blocks (Z.of_nat pad) (Z.of_nat n) i) result (range 0 (zlen blocks)))
      res (range (Z.of_nat s) (Z.of_nat (s + m))) = inr (res ++ (seq s m ≫= row))).
  { induction m as [|m IH]; intros s res Hm.
    - rewrite (range_nil (Z.of_nat s)) by lia. cbn. by rewrite app_nil_r.
    - rewrite (range_cons (Z.of_nat s)) by lia. cbn [exc_fold]. rewrite (interleave_row blocks pad n s w) by (done || lia).
      cbn [mbind exc_bind]. replace (Z.of_nat s + 1) with (Z.of_nat (S s)) by lia.
      replace (s + S m)%nat with (S s + m)%nat by lia. rewrite IH by lia. cbn [seq]. rewrite bind_cons.
      by rewrite <- app_assoc. }
  specialize (H w 0%nat [] ltac:(lia)). cbn [Nat.add app] in H. change (Z.of_nat 0) with 0 in H. rewrite H. f_equal.
  replace w with (pad + S (w - S pad))%nat at 1 by lia. rewrite seq_app, bind_app. f_equal.
  - apply Forall_bind_ext, Forall_forall. intros i' Hi. apply elem_of_seq in Hi. unfold row. by rewrite decide_False by lia.
  - cbn [seq Nat.add]. rewrite bind_cons. f_equal; [unfold row; by rewrite decide_True|].
    apply Forall_bind_ext, Forall_forall. intros i' Hi. apply elem_of_seq in Hi. unfold row. by rewrite decide_False by lia.
Qed.

(** ** Reading the blocks back *)

Lemma seq_bind_length {A} (f : nat -> list A) k s m : (forall i, length (f i) = k) -> length (seq s m ≫= f) = (m * k)%nat.
Proof.
  intros Hf. revert s. induction m as [|m IH]; intros s; [done|]. cbn [seq]. rewrite bind_cons, length_app, IH, Hf. lia.
Qed.
Lemma seq_bind_lookup {A} (f : nat -> list A) k s m i j : (forall i, length (f i) = k) -> (i < m)%nat -> (j < k)%nat ->
  (seq s m ≫= f) !! (i * k + j)%nat = f (s + i)%nat !! j.
Proof.
  intros Hf. revert s i. induction m as [|m IH]; intros s i Hi Hj; [lia|]. cbn [seq]. rewrite bind_cons.
  destruct i as [|i].
  - rewrite lookup_app_l by (rewrite Hf; lia). by rewrite Nat.add_0_r.
  - rewrite lookup_app_r, Hf by (rewrite Hf; lia). replace (S i * k + j - k)%nat with (i * k + j)%nat by lia.
    rewrite IH by lia. by replace (S s + i)%nat with (s + S i)%nat by lia.
Qed.
Lemma fmap_seq_lookup (f : nat -> Z) xs : (forall i x, xs !! i = Some x -> f i = x) -> f <$> seq 0 (length xs) = xs.
Proof.
  intros H. apply list_eq. intros i. rewrite list_lookup_fmap. destruct (decide (i < length xs)%nat) as [Hi|Hi].
  - rewrite lookup_seq_lt by done. destruct (lookup_lt_is_Some_2 xs i Hi) as [x Hx]. rewrite Hx. cbn. by rewrite (H i x Hx).
  - rewrite lookup_seq_ge by lia. by rewrite lookup_ge_None_2 by lia.
Qed.

Section Reading.
Context (l : layout) (ps : list (list Z * list Z)) (Hps : length ps = l_blocks l).
Context (Hok : forall i p, ps !! i = Some p -> block_ok l i p) (Hn : (l_short l <= l_blocks l)%nat).
Let blocks := imap (mk_block (l_short l)) ps.
Let R := (seq 0 (l_data l) ≫= column blocks) ++ column (drop (l_short l) blocks) (l_data l) ++
         (seq (S (l_data l)) (l_ecc l) ≫= column blocks).

Lemma column_length i : length (column blocks i) = l_blocks l.
Proof using Hps Hok Hn. unfold column, blocks. by rewrite length_fmap, length_imap. Qed.
Lemma column_lookup i j p : ps !! j = Some p -> column blocks i !! j = Some (mk_block (l_short l) j p !!! i).
Proof using Hps Hok Hn. intros Hj. unfold column, blocks. by rewrite list_lookup_fmap, list_lookup_imap, Hj. Qed.
Lemma mk_block_length i p : ps !! i = Some p -> length (mk_block (l_short l) i p) = (l_data l + 1 + l_ecc l)%nat.
Proof using Hps Hok Hn.
  intros Hi. destruct (Hok i p Hi) as (H1 & H2 & _). unfold mk_block. rewrite !length_app, H1, H2. case_decide; cbn; lia.
Qed.
Lemma R_head i j p : ps !! j = Some p -> (i < l_data l)%nat -> R !! (i * l_blocks l + j)%nat = Some (mk_block (l_short l) j p !!! i).
Proof using Hps Hok Hn.
  intros Hj Hi. assert (j < l_blocks l)%nat by (rewrite <- Hps; by eapply lookup_lt_Some). unfold R.
  pose proof (seq_bind_length (column blocks) (l_blocks l) 0 (l_data l) column_length).
  pose proof (Nat.mul_le_mono_r (S i) (l_data l) (l_blocks l) Hi).
  rewrite lookup_app_l by lia. rewrite seq_bind_lookup by (done || apply column_length). by apply column_lookup.
Qed.
Lemma R_middle j p : ps !! j = Some p -> (l_short l <= j)%nat ->
  R !! (l_data l * l_blocks l + (j - l_short l))%nat = Some (mk_block (l_short l) j p !!! l_data l).
Proof using Hps Hok Hn.
  intros Hj Hs. assert (j < l_blocks l)%nat by (rewrite <- Hps; by eapply lookup_lt_Some). unfold R.
  pose proof (seq_bind_length (column blocks) (l_blocks l) 0 (l_data l) column_length) as Hl.
  rewrite lookup_app_r, Hl by lia.
  replace (l_data l * l_blocks l + (j - l_short l) - l_data l * l_blocks l)%nat with (j - l_short l)%nat by lia.
  rewrite lookup_app_l by (unfold column, blocks; rewrite length_fmap, length_drop, length_imap; lia).
  unfold column. rewrite fmap_drop, lookup_drop. replace (l_short l + (j - l_short l))%nat with j by lia.
  by apply column_lookup.
Qed.
Lemma R_tail i j p : ps !! j = Some p -> (i < l_ecc l)%nat ->
  R !! (l_data l * l_blocks l + (l_blocks l - l_short l) + i * l_blocks l + j)%nat
  = Some (mk_block (l_short l) j p !!! (S (l_data l) + i)%nat).
Proof using Hps Hok Hn.
  intros Hj Hi. assert (j < l_blocks l)%nat by (rewrite <- Hps; by eapply lookup_lt_Some). unfold R.
  pose proof (seq_bind_length (column blocks) (l_blocks l) 0 (l_data l) column_length) as Hl.
  assert (Hm : length (column (drop (l_short l) blocks) (l_data l)) = (l_blocks l - l_short l)%nat)
    by (unfold column, blocks; rewrite length_fmap, length_drop, length_imap; lia).
  rewrite lookup_app_r, Hl by lia. rewrite lookup_app_r, Hm by lia.
  match goal with |- _ !! ?k = _ => replace k with (i * l_blocks l + j)%nat by lia end.
  rewrite seq_bind_lookup by (done || apply column_length). by apply column_lookup.
Qed.

Lemma block_data_read j p : ps !! j = Some p -> block_data l R j = p.1.
Proof using Hps Hok Hn.
  intros Hj. destruct (Hok j p Hj) as (H1 & H2 & _). unfold block_data.
  assert (Hin : forall i x, p.1 !! i = Some x -> mk_block (l_short l) j p !!! i = x).
  { intros i x Hx. apply list_lookup_total_correct. unfold mk_block. by apply lookup_app_l_Some. }
  case_decide.
  - rewrite app_nil_r. rewrite Nat.add_0_r in H1. rewrite <- H1. apply fmap_seq_lookup. intros i x Hx.
    apply list_lookup_total_correct. rewrite (R_head i j p Hj), (Hin i x Hx); [done|].
    rewrite <- H1. by eapply lookup_lt_Some.
  - destruct (lookup_lt_is_Some_2 p.1 (l_data l)) as [x Hx]; [lia|].
    transitivity (take (l_data l) p.1 ++ drop (l_data l) p.1); [f_equal|by rewrite take_drop].
    + assert (Hlt : length (take (l_data l) p.1) = l_data l) by (rewrite length_take; lia).
      rewrite <- Hlt at 1. apply fmap_seq_lookup. intros i y Hy. pose proof (lookup_lt_Some _ _ _ Hy).
      rewrite lookup_take_lt in Hy by lia.
      apply list_lookup_total_correct. rewrite (R_head i j p Hj), (Hin i y Hy); [done|lia].
    + rewrite (drop_S _ x (l_data l) Hx), drop_ge by lia. f_equal.
      apply list_lookup_total_correct. rewrite (R_middle j p Hj) by lia. by rewrite (Hin _ x Hx).
Qed.
Lemma block_ecc_read j p : ps !! j = Some p -> block_ecc l R j = p.2.
Proof using Hps Hok Hn.
  intros Hj. destruct (Hok j p Hj) as (H1 & H2 & _). unfold block_ecc. rewrite <- H2.
  apply fmap_seq_lookup. intros i x Hx. apply list_lookup_total_correct.
  rewrite (R_tail i j p Hj) by (rewrite <- H2; by eapply lookup_lt_Some). f_equal.
  apply list_lookup_total_correct. unfold mk_block. rewrite app_assoc, lookup_app_r by (rewrite length_app, H1; case_decide; cbn; lia).
  rewrite length_app, H1. rewrite <- Hx. f_equal. case_decide; cbn; lia.
Qed.
Lemma data_codewords_read : data_codewords l R = concat ps.*1.
Proof using Hps Hok Hn.
  unfold data_codewords. rewrite <- Hps.
  assert (H : seq 0 (length ps) ≫= block_data l R = concat ((fun i => (block_data l R i)) <$> seq 0 (length ps))).
  { generalize (seq 0 (length ps)). intros xs. induction xs as [|x xs IH]; [done|]. by rewrite bind_cons, IH. }
  rewrite H. f_equal. rewrite <- (length_fmap fst ps).
  apply list_eq. intros i. rewrite !list_lookup_fmap. destruct (ps !! i) as [p|] eqn:Hi.
  - rewrite lookup_seq_lt by (rewrite length_fmap; by eapply lookup_lt_Some). cbn. by rewrite (block_data_read i p Hi).
  - rewrite lookup_seq_ge by (rewrite length_fmap; by apply lookup_ge_None_1). done.
Qed.
Lemma R_length : length R = (l_data l * l_blocks l + (l_blocks l - l_short l) + l_ecc l * l_blocks l)%nat.
Proof using Hps Hok Hn.
  unfold R. rewrite !length_app, !(seq_bind_length _ (l_blocks l)) by apply column_length.
  unfold column at 1, blocks. rewrite length_fmap, length_drop, length_imap, Hps. lia.
Qed.
End Reading.

Lemma column_bytes blocks i : Forall (Forall is_byte) blocks -> Forall is_byte (column blocks i).
Proof.
  intros H. apply Forall_fmap. eapply Forall_impl; [exact H|]. intros b Hb. cbn.
  destruct (b !! i) as [x|] eqn:Ex.
  - rewrite (list_lookup_total_correct _ _ _ Ex). by eapply Forall_lookup_1 in Hb.
  - rewrite list_lookup_total_alt, Ex. unfold is_byte. cbn. lia.
Qed.
Lemma seq_bind_bytes (f : nat -> list Z) xs : (forall i, Forall is_byte (f i)) -> Forall is_byte (xs ≫= f).
Proof. intros H. induction xs as [|x xs IH]; [constructor|]. rewrite bind_cons. by apply Forall_app. Qed.
Lemma interleave_bytes l ps : (forall i p, ps !! i = Some p -> block_ok l i p) ->
  let blocks := imap (mk_block (l_short l)) ps in
  Forall is_byte ((seq 0 (l_data l) ≫= column blocks) ++ column (drop (l_short l) blocks) (l_data l) ++
                  (seq (S (l_data l)) (l_ecc l) ≫= column blocks)).
Proof.
  intros Hok blocks. assert (H : Forall (Forall is_byte) blocks).
  { apply Forall_lookup_2. intros i b. unfold blocks. rewrite list_lookup_imap_Some. intros (p & Hp & ->).
    destruct (Hok i p Hp) as (_ & _ & [H1 H2]%Forall_app & _). unfold mk_block. rewrite !Forall_app. split_and!; [done| |done].
    case_decide; [apply Forall_singleton; unfold is_byte; lia|done]. }
  rewrite !Forall_app. split_and!; [apply seq_bind_bytes; intros i|..|apply seq_bind_bytes; intros i]; apply column_bytes;
    [done|by apply Forall_drop|done].
Qed.

(** ** The codewords of a symbol *)

Lemma params_of_inv v e p : params_of v e = inr p ->
  getNumRawDataModules v = inr (p_raw p) /\ getNumDataCodewords v e = inr (p_data p) /\
  table NUM_ERROR_CORRECTION_BLOCKS e v = inr (p_blocks p) /\ table NUM_ERROR_CORRECTION_CODEWORDS e v = inr (p_ecc p).
Proof.
  unfold params_of. intros (r & -> & E)%exc_bind_inv. apply exc_bind_inv in E as (d & -> & E).
  apply exc_bind_inv in E as (b & -> & E). apply exc_bind_inv in E as (c & -> & E). by injection E as <-.
Qed.
Lemma params_of_ok v e : 1 <= v <= 40 -> e ∈ levels -> exists p, params_of v e = inr p /\ params_ok p = true.
Proof.
  intros Hv He. destruct (params_spec v e Hv He) as (p & E1 & E2 & E3 & E4 & Hp). exists p. split; [|done].
  unfold params_of. rewrite E1, E2, E3, E4. by destruct p.
Qed.

(** What the checked tables say in terms of the layout. *)
Lemma layout_facts p : params_ok p = true -> let l := layout_of p in
  1 <= p_data p /\ 1 <= p_blocks p /\ p_blocks p = Z.of_nat (l_blocks l) /\
  p_ecc p = Z.of_nat (l_blocks l) * Z.of_nat (l_ecc l) /\
  (1 <= l_ecc l <= 255)%nat /\ (1 <= l_data l)%nat /\ (l_short l <= l_blocks l)%nat /\
  p_data p = Z.of_nat (l_blocks l * l_data l + (l_blocks l - l_short l)) /\
  p_raw p / 8 = p_data p + p_ecc p /\
  p_raw p / 8 / p_blocks p = Z.of_nat (l_data l + l_ecc l) /\
  p_blocks p - (p_raw p / 8) mod p_blocks p = Z.of_nat (l_short l) /\ 208 <= p_raw p <= 29648.
Proof.
  intros H. unfold params_ok in H. bool_to_prop. cbn [layout_of l_blocks l_short l_data l_ecc].
  set (k := p_raw p / 8) in *. set (b := p_blocks p) in *.
  pose proof (Z.mod_pos_bound k b ltac:(lia)) as Hm. pose proof (Z.div_mod (p_ecc p) b ltac:(lia)) as He.
  assert (Hd : p_data p = (b - (b - k mod b)) + b * (k / b - p_ecc p / b)) by lia.
  split_and!; try lia.
Qed.

(** See [appendErrorCorrection_read] below. *)
Lemma appendErrorCorrection_run v e data p :
  1 <= v <= 40 -> e ∈ levels -> params_of v e = inr p -> Forall is_byte data -> getNumDataCodewords v e = inr (zlen data) ->
  exists result, appendErrorCorrection v e data = inr result /\ zlen result = p_raw p / 8 /\ Forall is_byte result /\
    data_codewords (layout_of p) result = data /\
    forall j, (j < l_blocks (layout_of p))%nat ->
      length (block_ecc (layout_of p) result j) = Z.to_nat (p_ecc p / p_blocks p) /\
      forall k, (k < Z.to_nat (p_ecc p / p_blocks p))%nat ->
        evaluate (block_data (layout_of p) result j ++ block_ecc (layout_of p) result j) (alpha k) = 0.
Proof.
  intros Hv He Hp Hbytes Hlen.
  destruct (params_of_ok v e Hv He) as (p' & Hp' & Hok). assert (p' = p) as -> by congruence.
  destruct (params_of_inv v e p Hp) as (E1 & E2 & E3 & E4).
  assert (Ed : p_data p = zlen data) by congruence.
  destruct (layout_facts p Hok) as (F1 & F2 & F3 & F4 & F5 & F6 & F7 & F8 & F9 & F10 & F11 & F12).
  set (l := layout_of p) in *.
  destruct (ReedSolomonGenerator_run (Z.of_nat (l_ecc l))) as (cs & Ers & _); [lia|].
  destruct (blocks_spec l data (gv <$> cs)) as (ps & Eb & Hps & Hc & Hbk);
    [done|done|done|done|unfold zlen in Ed; lia|done|].
  assert (Hw : Forall (fun b => length b = (l_data l + 1 + l_ecc l)%nat) (imap (mk_block (l_short l)) ps)).
  { apply Forall_lookup_2. intros i b. rewrite list_lookup_imap_Some. intros (q & Hq & ->).
    by apply (mk_block_length l ps Hps Hbk F7). }
  pose proof (interleave_bytes l ps Hbk) as Hrb. cbv zeta in Hrb.
  set (R := (seq 0 (l_data l) ≫= column (imap (mk_block (l_short l)) ps)) ++
            column (drop (l_short l) (imap (mk_block (l_short l)) ps)) (l_data l) ++
            (seq (S (l_data l)) (l_ecc l) ≫= column (imap (mk_block (l_short l)) ps))) in *.
  assert (HR : zlen R = p_raw p / 8).
  { unfold zlen, R. rewrite (R_length l ps Hps Hbk F7). lia. }
  assert (Hecc0 : 0 <= p_ecc p) by (rewrite F4; lia).
  assert (Hk : 0 <= p_raw p / 8 <= 3706) by (split; [apply Z.div_pos; lia|apply Z.div_le_upper_bound; lia]).
  assert (Hdl : 0 <= zlen data <= 3706) by (clear - Ed F1 F9 Hecc0 Hk; lia).
  exists R. split_and!; [|done|done| |].
  - unfold appendErrorCorrection. rewrite E2. cbn [mbind exc_bind]. rewrite Ed.
    rewrite u32_id by (unfold is_u32; lia). rewrite Z.eqb_refl. cbn [negb throw_if mbind exc_bind mret exc_ret].
    rewrite E3, E4. cbn [mbind exc_bind]. rewrite rem_nonneg by lia.
    rewrite F4 at 1. rewrite F3 at 1. rewrite (Z.mul_comm (Z.of_nat (l_blocks l))), Z.mod_mul by lia.
    rewrite E1. cbn [Z.eqb negb throw_if mbind exc_bind mret exc_ret].
    rewrite !(quot_nonneg (p_raw p)) by lia. rewrite rem_nonneg, !quot_nonneg by lia.
    assert (Hecc : p_ecc p / p_blocks p = Z.of_nat (l_ecc l)) by (rewrite F4, F3, Z.mul_comm; apply Z.div_mul; lia).
    rewrite Hecc, F11, F10, Ers. cbn [mbind exc_bind]. rewrite F3, Eb. cbn [mbind exc_bind].
    replace (Z.of_nat (l_data l + l_ecc l) - Z.of_nat (l_ecc l)) with (Z.of_nat (l_data l)) by lia.
    rewrite (interleave_spec _ (l_data l) (l_short l) (l_data l + 1 + l_ecc l)) by
      (done || lia || (intros E0; apply (f_equal length) in E0; rewrite length_imap, Hps in E0; cbn in E0; lia)).
    replace (l_data l + 1 + l_ecc l - S (l_data l))%nat with (l_ecc l) by lia. fold R. cbn [mbind exc_bind].
    rewrite u32_id by (unfold is_u32; lia). by rewrite HR, Z.eqb_refl.
  - rewrite <- Hc. exact (data_codewords_read l ps Hps Hbk F7).
  - intros j Hj. destruct (lookup_lt_is_Some_2 ps j) as [q Hq]; [lia|].
    assert (B1 := block_data_read l ps Hps Hbk F7 j q Hq). assert (B2 := block_ecc_read l ps Hps Hbk F7 j q Hq).
    fold R in B1, B2. rewrite B1, B2.
    destruct (Hbk j q Hq) as (_ & H2 & _ & Hz). split; [exact H2|]. intros k Hk2. by apply Hz.
Qed.

(** C27. Error correction: for every version and level and as many data bytes as they
    hold, adding the error correction fails no assertion; it fills the symbol; the
    standard's way of reading the blocks gives the data back; and every block, data
    and error correction together, is a Reed-Solomon codeword: the polynomial of its
    bytes vanishes at as many powers of 2 as it has error correction bytes, with the
    product of the field taken by the book. *)
Theorem appendErrorCorrection_read v e data p
    (Hv : 1 <= v <= 40) (He : e ∈ levels) (Hp : params_of v e = inr p)
    (Hbytes : Forall is_byte data) (Hlen : getNumDataCodewords v e = inr (zlen data)) :
  exists result, appendErrorCorrection v e data = inr result /\ zlen result = p_raw p / 8 /\ Forall is_byte result /\
    data_codewords (layout_of p) result = data /\
    forall j, (j < l_blocks (layout_of p))%nat ->
      length (block_ecc (layout_of p) result j) = Z.to_nat (p_ecc p / p_blocks p) /\
      forall k, (k < Z.to_nat (p_ecc p / p_blocks p))%nat ->
        evaluate (block_data (layout_of p) result j ++ block_ecc (layout_of p) result j) (alpha k) = 0.
Proof. exact (appendErrorCorrection_run v e data p Hv He Hp Hbytes Hlen). Qed.
