(* ===== verification/QrDrawFacts.v ===== *)
(** Drawing: every drawing routine of the encoder sets the modules of a list of
    points, and the function patterns are the regions of the standard. *)
From S2P Require Import Prelude CText Exc QrBits QrCode QrBitsFacts QrRead QrStreamFacts.
Local Open Scope list_scope.
Local Open Scope Z_scope.

(** ** Grids *)

Definition square (n : Z) (g : grid) : Prop := zlen g = n /\ Forall (fun r => zlen r = n) g.
Definition inside (n x y : Z) : Prop := 0 <= x < n /\ 0 <= y < n.
#[export] Instance inside_dec n x y : Decision (inside n x y).
Proof. unfold inside. apply _. Defined.

Lemma square_row n g y : square n g -> 0 <= y < n -> exists r, g !! Z.to_nat y = Some r /\ zlen r = n.
Proof.
  intros [Hl Hr] Hy. unfold zlen in Hl. destruct (lookup_lt_is_Some_2 g (Z.to_nat y)) as [r E]; [lia|].
  exists r. split; [done|]. by eapply Forall_lookup_1 in Hr.
Qed.
Lemma grid_at_inside n g x y : square n g -> inside n x y -> grid_at g x y = inr (cell g x y).
Proof.
  intros Hg [Hx Hy]. destruct (square_row n g y Hg Hy) as (r & E & Hr). unfold grid_at.
  rewrite (at_Some g y r) by (done || lia). cbn [mbind exc_bind]. unfold zlen in Hr.
  destruct (lookup_lt_is_Some_2 r (Z.to_nat x)) as [b Eb]; [lia|]. rewrite (at_Some r x b) by (done || lia).
  unfold cell. by rewrite (list_lookup_total_correct _ _ _ E), (list_lookup_total_correct _ _ _ Eb).
Qed.

(** [g.at(y).at(x) = b] as a function. *)
Definition put (g : grid) (x y : Z) (b : bool) : grid := alter (<[Z.to_nat x := b]>) (Z.to_nat y) g.
Lemma grid_set_inside n g x y b : square n g -> inside n x y -> grid_set g x y b = inr (put g x y b).
Proof.
  intros Hg [Hx Hy]. destruct (square_row n g y Hg Hy) as (r & E & Hr). unfold grid_set.
  rewrite (at_Some g y r) by (done || lia). cbn [mbind exc_bind].
  rewrite set_at_lt by lia. cbn [mbind exc_bind]. destruct Hg as [Hl _]. rewrite set_at_lt by lia.
  unfold put. f_equal. symmetry. apply list_eq. intros i. rewrite list_lookup_alter.
  destruct (decide (Z.to_nat y = i)) as [<-|Hne].
  - rewrite list_lookup_insert_eq by (eapply lookup_lt_Some; exact E). by rewrite E.
  - by rewrite list_lookup_insert_ne.
Qed.
Lemma put_square n g x y b : square n g -> square n (put g x y b).
Proof.
  intros [Hl Hr]. split; [unfold zlen, put; by rewrite length_alter|].
  unfold put. apply Forall_alter; [done|]. intros r _ Hz. unfold zlen in *. by rewrite length_insert.
Qed.
Lemma put_cell n g x y b x' y' : square n g -> inside n x y -> inside n x' y' ->
  cell (put g x y b) x' y' = if decide (x = x' /\ y = y') then b else cell g x' y'.
Proof.
  intros Hg Hin [Hx' Hy']. destruct (square_row n g y' Hg Hy') as (r & E & Hr). unfold cell, put, zlen in *.
  destruct Hin as [Hx Hy]. rewrite (list_lookup_total_alt _ (Z.to_nat y')), list_lookup_alter, E.
  rewrite (list_lookup_total_correct _ _ _ E).
  destruct (decide (Z.to_nat y = Z.to_nat y')) as [Hyy|Hyy]; [rewrite Hyy, E|]; cbn.
  - destruct (decide (x = x' /\ y = y')) as [[-> _]|Hne].
    + rewrite list_lookup_total_insert_eq; [done|lia].
    + rewrite list_lookup_total_insert_ne; [done|]. intros Hxx. apply Hne. lia.
  - rewrite decide_False by (intros [_ ->]; done). done.
Qed.
Lemma blank_square n : 0 <= n -> square n (blank n).
Proof.
  intros Hn. unfold blank. split; [unfold zlen; rewrite length_replicate; lia|].
  apply Forall_replicate. unfold zlen. rewrite length_replicate. lia.
Qed.
Lemma blank_cell n x y : inside n x y -> cell (blank n) x y = false.
Proof.
  intros [Hx Hy]. unfold cell, blank.
  rewrite (list_lookup_total_correct _ _ (replicate (Z.to_nat n) false)) by (apply lookup_replicate_2; lia).
  apply list_lookup_total_correct, lookup_replicate_2. lia.
Qed.

(** ** Drawing points *)

Definition point : Type := Z * Z * bool.
Definition draw_point (qr : QrCode) (p : point) : exc QrCode := setFunctionModule qr p.1.1 p.1.2 p.2.
Definition draw_points (qr : QrCode) (ps : list point) : exc QrCode := exc_fold draw_point qr ps.
Definition coords (ps : list point) : list (Z * Z) := ps.*1.

Definition put_point (g : grid) (p : point) : grid := put g p.1.1 p.1.2 p.2.
(** A symbol whose grids are squares of the size of its version. *)
Definition well_formed (qr : QrCode) : Prop :=
  size qr = 4 * version qr + 17 /\ 1 <= version qr <= 40 /\ square (size qr) (modules qr) /\ square (size qr) (isFunction qr).
Definition points_in (n : Z) (cs : list (Z * Z)) : Prop := Forall (fun c => inside n c.1 c.2) cs.

(** Points inside are drawn: the modules get the colours, in order; the function
    grid gets the marks. *)
Lemma draw_points_spec ps qr : well_formed qr -> points_in (size qr) (coords ps) ->
  draw_points qr ps = inr (set_grids (foldl put_point (modules qr) ps) (foldl mark (isFunction qr) (coords ps)) qr) /\
  square (size qr) (foldl put_point (modules qr) ps) /\ square (size qr) (foldl mark (isFunction qr) (coords ps)).
Proof.
  revert qr. induction ps as [|p ps IH]; intros qr Hwf Hin.
  - destruct Hwf as (_ & _ & Hm & Hf). split; [by destruct qr|done].
  - cbn [coords fmap list_fmap] in Hin. apply Forall_cons in Hin as [Hp Hin]. cbv beta in Hp.
    pose proof Hwf as (Hs & Hv & Hm & Hf).
    assert (Hd : draw_point qr p = inr (set_grids (put_point (modules qr) p) (mark (isFunction qr) p.1) qr)).
    { unfold draw_point, setFunctionModule. rewrite (grid_set_inside _ _ _ _ _ Hm Hp). cbn [mbind exc_bind].
      by rewrite (grid_set_inside _ _ _ _ _ Hf Hp). }
    unfold draw_points. cbn [exc_fold]. rewrite (exc_bind_inr _ _ _ Hd).
    destruct (IH (set_grids (put_point (modules qr) p) (mark (isFunction qr) p.1) qr)) as (E & H1 & H2).
    + split_and!; [done|apply Hv|apply Hv|by apply put_square|by apply put_square].
    + exact Hin.
    + split; [exact E|]. done.
Qed.

(** ** Loops of points *)

(** [is_points v n f g]: on a symbol of version [v] and size [n], [f] draws [ps]. *)
Definition is_points (v n : Z) (e : Ecc) (f : QrCode -> exc QrCode) (ps : list point) : Prop :=
  forall qr, version qr = v -> size qr = n -> errorCorrectionLevel qr = e -> f qr = draw_points qr ps.

Lemma setFunctionModule_points v n e x y b : is_points v n e (fun qr => setFunctionModule qr x y b) [(x, y, b)].
Proof.
  intros qr _ _ _. unfold draw_points. cbn. unfold draw_point. cbn [fst snd]. by destruct (setFunctionModule qr x y b).
Qed.
Lemma ret_points v n e : is_points v n e (fun qr => mret qr) [].
Proof. by intros qr _ _ _. Qed.

Lemma draw_points_scalars ps qr qr' : draw_points qr ps = inr qr' ->
  version qr' = version qr /\ size qr' = size qr /\ errorCorrectionLevel qr' = errorCorrectionLevel qr /\ qr_mask qr' = qr_mask qr.
Proof.
  revert qr. induction ps as [|p ps IH]; intros qr; [by intros [= ->]|]. unfold draw_points. cbn [exc_fold].
  intros (q & E & H)%exc_bind_inv. apply IH in H as (-> & -> & -> & ->). unfold draw_point, setFunctionModule in E.
  apply exc_bind_inv in E as (m & _ & E). apply exc_bind_inv in E as (f & _ & E). injection E as <-. done.
Qed.
Lemma bind_points v n e f g ps qs : is_points v n e f ps -> is_points v n e g qs ->
  is_points v n e (fun qr => qr ← f qr; g qr) (ps ++ qs).
Proof.
  intros Hf Hg qr Hv Hn He. rewrite (Hf qr Hv Hn He). unfold draw_points at 2. rewrite exc_fold_app.
  fold (draw_points qr ps). destruct (draw_points qr ps) as [|q] eqn:E; [done|]. cbn [mbind exc_bind].
  destruct (draw_points_scalars ps qr q E) as (? & ? & ? & _). apply Hg; congruence.
Qed.
Lemma range_points v n e lo hi (f : QrCode -> Z -> exc QrCode) (ps : Z -> list point) :
  (forall i, lo <= i < hi -> is_points v n e (fun qr => f qr i) (ps i)) ->
  is_points v n e (fun qr => for_range lo hi qr f) (range lo hi ≫= ps).
Proof.
  intros H. unfold for_range. assert (Hr : forall i, i ∈ range lo hi -> lo <= i < hi) by (intros i; apply elem_of_range).
  revert Hr. generalize (range lo hi). intros l Hr. induction l as [|i l IH]; [by intros qr _ _ _|].
  rewrite bind_cons. refine (bind_points v n e _ _ _ _ (H i _) _); [apply Hr; left|].
  apply IH. intros j Hj. apply Hr. by right.
Qed.

(** ** The points of the routines *)

Definition finder_points (n x y : Z) : list point :=
  range (-4) 5 ≫= fun i => range (-4) 5 ≫= fun j =>
    let dist := Z.max (Z.abs i) (Z.abs j) in
    if (0 <=? x + j) && (x + j <? n) && (0 <=? y + i) && (y + i <? n)
    then [(x + j, y + i, negb (dist =? 2) && negb (dist =? 4))] else [].
Definition alignment_points (x y : Z) : list point :=
  range (-2) 3 ≫= fun i => range (-2) 3 ≫= fun j => [(x + j, y + i, negb (Z.max (Z.abs i) (Z.abs j) =? 1))].
Definition format_points (n data : Z) : list point :=
  (range 0 6 ≫= fun i => [(8, i, bit_of data i)]) ++
  [(8, 7, bit_of data 6)] ++ [(8, 8, bit_of data 7)] ++ [(7, 8, bit_of data 8)] ++
  (range 9 15 ≫= fun i => [(14 - i, 8, bit_of data i)]) ++
  (range 0 8 ≫= fun i => [(n - 1 - i, 8, bit_of data i)]) ++
  (range 8 15 ≫= fun i => [(8, n - 15 + i, bit_of data i)]) ++ [(8, n - 8, true)].
Definition version_points (v n : Z) : list point :=
  if v <? 7 then [] else range 0 18 ≫= fun i =>
    let bit := bit_of (version_data v) i in
    let a := n - 11 + Z.rem i 3 in let b := Z.quot i 3 in [(a, b, bit)] ++ [(b, a, bit)].
Definition all_alignment_points (pos : list Z) : list point :=
  range 0 (zlen pos) ≫= fun i => range 0 (zlen pos) ≫= fun j =>
    if ((i =? 0) && (j =? 0)) || ((i =? 0) && (j =? zlen pos - 1)) || ((i =? zlen pos - 1) && (j =? 0)) then []
    else alignment_points (pos !!! Z.to_nat i) (pos !!! Z.to_nat j).
Definition positions (v : Z) : list Z := match getAlignmentPatternPositions v with inr pos => pos | inl _ => [] end.
Definition pattern_points (v : Z) (e : Ecc) : list point :=
  let n := 4 * v + 17 in
  (range 0 n ≫= fun i => [(6, i, Z.rem i 2 =? 0)] ++ [(i, 6, Z.rem i 2 =? 0)]) ++
  finder_points n 3 3 ++ finder_points n (n - 4) 3 ++ finder_points n 3 (n - 4) ++
  all_alignment_points (positions v) ++ format_points n (format_data e 0) ++ version_points v n.

Lemma format_checked e mask : e ∈ levels -> 0 <= mask <= 7 -> Z.shiftr (format_data e mask) 15 = 0.
Proof.
  intros He Hm. assert (H : forallb (fun e => forallb (fun m => Z.shiftr (format_data e m) 15 =? 0) (range 0 8)) levels = true)
    by (vm_compute; reflexivity).
  rewrite forallb_forall in H. specialize (H e (proj1 (list_elem_of_In _ _) He)). rewrite forallb_forall in H.
  apply Z.eqb_eq, H, list_elem_of_In, elem_of_range. lia.
Qed.
Lemma version_checked v : 7 <= v <= 40 -> Z.shiftr (version_data v) 18 = 0.
Proof.
  intros Hv. assert (H : forallb (fun v => Z.shiftr (version_data v) 18 =? 0) (range 7 41) = true) by (vm_compute; reflexivity).
  rewrite forallb_forall in H. apply Z.eqb_eq, H, list_elem_of_In, elem_of_range. lia.
Qed.

Section Points.
Context (v : Z) (e : Ecc) (Hv : 1 <= v <= 40) (He : e ∈ levels).
Let n := 4 * v + 17.

(** One call of [setFunctionModule], whose coordinates may mention the size. *)
Ltac draw_one :=
  first [apply setFunctionModule_points
        |intros qr H1 H2 H3; rewrite H2; by apply (setFunctionModule_points _ _ _ _ _ _ _ H1 H2 H3)].

Lemma drawFinderPattern_points x y : is_points v n e (fun qr => drawFinderPattern qr x y) (finder_points n x y).
Proof using.
  unfold drawFinderPattern, finder_points. apply range_points. intros i _. apply range_points. intros j _ qr H1 H2 H3.
  rewrite H2. cbv zeta. case_match; [by apply (setFunctionModule_points v n e)|done].
Qed.
Lemma drawAlignmentPattern_points x y : is_points v n e (fun qr => drawAlignmentPattern qr x y) (alignment_points x y).
Proof using.
  unfold drawAlignmentPattern, alignment_points. apply range_points. intros i _. apply range_points. intros j _.
  apply setFunctionModule_points.
Qed.
Lemma drawFormatBits_points mask : 0 <= mask <= 7 ->
  is_points v n e (fun qr => drawFormatBits qr mask) (format_points n (format_data e mask)).
Proof using He.
  intros Hm qr H1 H2 H3. unfold drawFormatBits. rewrite H3, format_checked by done. cbn [Z.eqb negb throw_if mbind exc_bind mret exc_ret].
  revert qr H1 H2 H3. change (is_points v n e (fun qr =>
    qr ← for_range 0 6 qr (fun qr i => setFunctionModule qr 8 i (bit_of (format_data e mask) i));
    qr ← setFunctionModule qr 8 7 (bit_of (format_data e mask) 6);
    qr ← setFunctionModule qr 8 8 (bit_of (format_data e mask) 7);
    qr ← setFunctionModule qr 7 8 (bit_of (format_data e mask) 8);
    qr ← for_range 9 15 qr (fun qr i => setFunctionModule qr (14 - i) 8 (bit_of (format_data e mask) i));
    qr ← for_range 0 8 qr (fun qr i => setFunctionModule qr (size qr - 1 - i) 8 (bit_of (format_data e mask) i));
    qr ← for_range 8 15 qr (fun qr i => setFunctionModule qr 8 (size qr - 15 + i) (bit_of (format_data e mask) i));
    setFunctionModule qr 8 (size qr - 8) true) (format_points n (format_data e mask))).
  unfold format_points.
  do 7 (apply bind_points;
    [solve [draw_one|apply range_points; intros i _; draw_one]|]); draw_one.
Qed.
Lemma drawVersion_points : is_points v n e drawVersion (version_points v n).
Proof using Hv.
  intros qr H1 H2 H3. unfold drawVersion, version_points. rewrite H1. destruct (Z.ltb_spec v 7); [done|].
  rewrite version_checked by lia. cbn [Z.eqb negb throw_if mbind exc_bind mret exc_ret].
  revert qr H1 H2 H3. match goal with |- forall qr, _ -> _ -> _ -> @?f qr = draw_points qr ?ps => change (is_points v n e f ps) end.
  apply range_points. intros i _ qr H1 H2 H3. rewrite H2. cbv zeta.
  by apply (bind_points v n e _ _ _ _ (setFunctionModule_points v n e _ _ _) (setFunctionModule_points v n e _ _ _)).
Qed.
Lemma positions_run : getAlignmentPatternPositions v = inr (positions v).
Proof using Hv.
  unfold positions, getAlignmentPatternPositions. destruct (Z.ltb_spec v 1), (Z.ltb_spec 40 v); [lia..|]. cbn [orb].
  by destruct (v =? 1).
Qed.
Lemma drawFunctionPatterns_points : is_points v n e drawFunctionPatterns (pattern_points v e).
Proof using Hv He.
  unfold drawFunctionPatterns, pattern_points. fold n.
  intros qr H1 H2 H3. rewrite H2. revert qr H1 H2 H3.
  match goal with |- forall qr, _ -> _ -> _ -> @?f qr = draw_points qr ?ps => change (is_points v n e f ps) end.
  apply bind_points; [apply range_points; intros i _; apply bind_points; apply setFunctionModule_points|].
  apply bind_points; [apply drawFinderPattern_points|].
  apply bind_points. { intros qr H1 H2 H3. rewrite H2. by apply drawFinderPattern_points. }
  apply bind_points. { intros qr H1 H2 H3. rewrite H2. by apply drawFinderPattern_points. }
  intros qr H1 H2 H3. rewrite H1, positions_run. cbn [mbind exc_bind]. revert qr H1 H2 H3.
  match goal with |- forall qr, _ -> _ -> _ -> @?f qr = draw_points qr ?ps => change (is_points v n e f ps) end.
  apply bind_points; [|apply bind_points; [by apply drawFormatBits_points|apply drawVersion_points]].
  apply range_points. intros i Hi. apply range_points. intros j Hj. cbv zeta.
  case_match; [by intros qr _ _ _|]. unfold zlen in Hi, Hj.
  destruct (lookup_lt_is_Some_2 (positions v) (Z.to_nat i)) as [a Ha]; [lia|].
  destruct (lookup_lt_is_Some_2 (positions v) (Z.to_nat j)) as [b Hb]; [lia|].
  rewrite (list_lookup_total_correct _ _ _ Ha), (list_lookup_total_correct _ _ _ Hb).
  intros qr H1 H2 H3. rewrite (at_Some _ i a), (at_Some _ j b) by (done || lia). by apply drawAlignmentPattern_points.
Qed.
End Points.

(** ** The function patterns are the standard's *)

Fixpoint list_eqb {A} (eqb : A -> A -> bool) (l l' : list A) : bool :=
  match l, l' with [], [] => true | a :: l, b :: l' => eqb a b && list_eqb eqb l l' | _, _ => false end.
Lemma list_eqb_eq {A} (eqb : A -> A -> bool) : (forall a b, eqb a b = true -> a = b) -> forall l l', list_eqb eqb l l' = true -> l = l'.
Proof.
  intros H l. induction l as [|a l IH]; intros [|b l']; cbn; try done. intros [H1 H2]%andb_true_iff.
  by rewrite (H a b H1), (IH l' H2).
Qed.
Definition count_white (g : grid) : Z := foldr (fun r n => foldr (fun (b : bool) n => if b then n else n + 1) n r) 0 g.

Definition insideb (n : Z) (c : Z * Z) : bool := (0 <=? c.1) && (c.1 <? n) && (0 <=? c.2) && (c.2 <? n).
(** The points of the encoder are inside, and cover exactly the standard's regions;
    column 6 belongs to them; and the other modules are as many as the formula says. *)
Definition patterns_ok (v : Z) : bool :=
  let n := 4 * v + 17 in
  let cs := coords (pattern_points v LOW) in
  let f := function_grid v in
  forallb (insideb n) cs && list_eqb (list_eqb Bool.eqb) (foldl mark (blank n) cs) f &&
  forallb (fun y => cell f 6 y) (range 0 n) &&
  match getNumRawDataModules v with inr raw => count_white f =? raw | inl _ => false end.
Lemma patterns_checked : forallb patterns_ok (range 1 41) = true.
Proof. vm_compute. reflexivity. Qed.

Lemma patterns_spec v : 1 <= v <= 40 ->
  points_in (4 * v + 17) (coords (pattern_points v LOW)) /\
  foldl mark (blank (4 * v + 17)) (coords (pattern_points v LOW)) = function_grid v /\
  (forall y, 0 <= y < 4 * v + 17 -> cell (function_grid v) 6 y = true) /\
  getNumRawDataModules v = inr (count_white (function_grid v)).
Proof.
  intros Hv. assert (H : patterns_ok v = true).
  { pose proof patterns_checked as H. rewrite forallb_forall in H. apply H, list_elem_of_In, elem_of_range. lia. }
  unfold patterns_ok in H. apply andb_true_iff in H as [H Hc]. apply andb_true_iff in H as [H H6].
  apply andb_true_iff in H as [Hin Hg]. split_and!.
  - apply Forall_forall. intros c Hc'. rewrite forallb_forall in Hin. specialize (Hin c (proj1 (list_elem_of_In _ _) Hc')).
    unfold insideb in Hin. bool_to_prop. unfold inside. lia.
  - apply (list_eqb_eq (list_eqb Bool.eqb)); [|done]. apply list_eqb_eq. intros a b. apply Bool.eqb_prop.
  - intros y Hy. rewrite forallb_forall in H6. apply H6, list_elem_of_In, elem_of_range. done.
  - destruct (getNumRawDataModules v); [done|]. by apply Z.eqb_eq in Hc as ->.
Qed.
Lemma format_coords n d d' : coords (format_points n d) = coords (format_points n d').
Proof. reflexivity. Qed.
Lemma pattern_coords v e e' : coords (pattern_points v e) = coords (pattern_points v e').
Proof.
  unfold pattern_points, coords. rewrite !fmap_app. repeat (f_equal; []). by rewrite (format_coords _ _ (format_data e' 0)).
Qed.

(** What the constructor starts from. *)
Definition new_symbol (v : Z) (e : Ecc) : QrCode := mkQrCode v (4 * v + 17) e 0 (white (4 * v + 17)) (white (4 * v + 17)).
Lemma new_symbol_wf v e : 1 <= v <= 40 -> well_formed (new_symbol v e).
Proof. intros Hv. pose proof (blank_square (4 * v + 17) ltac:(lia)) as H. exact (conj eq_refl (conj Hv (conj H H))). Qed.

(** The symbol with its function patterns. *)
Lemma drawFunctionPatterns_spec v e : 1 <= v <= 40 -> e ∈ levels ->
  exists m, drawFunctionPatterns (new_symbol v e) = inr (set_grids m (function_grid v) (new_symbol v e)) /\
    square (4 * v + 17) m /\ square (4 * v + 17) (function_grid v).
Proof.
  intros Hv He. destruct (patterns_spec v Hv) as (Hin & Hg & _).
  rewrite (drawFunctionPatterns_points v e Hv He) by done.
  destruct (draw_points_spec (pattern_points v e) (new_symbol v e) (new_symbol_wf v e Hv)) as (E & H1 & H2).
  { by rewrite (pattern_coords v e LOW). }
  rewrite (pattern_coords v e LOW) in E, H2. change (isFunction (new_symbol v e)) with (blank (4 * v + 17)) in *.
  rewrite Hg in *. by eexists.
Qed.
