(* ===== verification/QrGridFacts.v ===== *)
(** Codewords and masks in the grid: where they are put, and that they are found
    there. *)
From S2P Require Import Prelude CText Exc QrBits QrCode QrBitsFacts QrRead QrStreamFacts QrDrawFacts.
Local Open Scope list_scope.
Local Open Scope Z_scope.

(** ** The path of the codewords *)

Definition zigzag (n : Z) : list (Z * Z) :=
  zigzag_columns (Z.to_nat n) (n - 1) ≫= fun right => range 0 n ≫= fun vert => (fun j =>
    (right - j, if xorb (Z.land right 2 =? 0) (right - j <? 6) then n - 1 - vert else vert)) <$> range 0 2.

Lemma zigzag_columns_spec m fuel : (m + 4 <= fuel)%nat ->
  zigzag_columns fuel (6 + 2 * Z.of_nat m) = ((fun k => 6 + 2 * Z.of_nat m - 2 * k) <$> range 0 (Z.of_nat m)) ++ [5; 3; 1].
Proof.
  revert fuel. induction m as [|m IH]; intros fuel Hf; (destruct fuel as [|fuel]; [lia|]).
  - do 3 (destruct fuel as [|fuel]; [lia|]). by destruct fuel.
  - cbn [zigzag_columns]. destruct (Z.leb_spec 1 (6 + 2 * Z.of_nat (S m))); [|lia].
    destruct (Z.eqb_spec (6 + 2 * Z.of_nat (S m)) 6); [lia|].
    replace (6 + 2 * Z.of_nat (S m) - 2) with (6 + 2 * Z.of_nat m) by lia. rewrite IH by lia.
    rewrite (range_cons 0 (Z.of_nat (S m))) by lia. rewrite fmap_cons. cbn [app]. cbv beta zeta. change (2 * 0) with 0. rewrite Z.sub_0_r. do 2 f_equal.
    unfold range. replace (Z.to_nat (Z.of_nat (S m) - (0 + 1))) with (Z.to_nat (Z.of_nat m - 0)) by lia.
    rewrite <- !list_fmap_compose. apply list_fmap_ext. intros i x _. cbn. lia.
Qed.
Lemma zigzag_columns_pairs v : 1 <= v -> zigzag_columns (Z.to_nat (4 * v + 17)) (4 * v + 17 - 1) = column_pairs (4 * v + 17).
Proof.
  intros Hv. unfold column_pairs. replace ((4 * v + 17 - 7) / 2) with (2 * v + 5) by (apply (Z.div_unique _ _ _ 0); lia).
  rewrite <- (Z2Nat.id (2 * v + 5)) by lia. set (m := Z.to_nat (2 * v + 5)).
  replace (4 * v + 17 - 1) with (6 + 2 * Z.of_nat m) by lia. by rewrite zigzag_columns_spec by lia.
Qed.

(** The encoder's direction is the standard's. *)
Lemma column_pairs_lookup v k right : 1 <= v -> column_pairs (4 * v + 17) !! k = Some right ->
  (right = 4 * v + 16 - 2 * Z.of_nat k /\ 8 <= right) \/
  (right < 6 /\ 1 <= right /\ right = 4 * v + 15 - 2 * Z.of_nat k).
Proof.
  intros Hv. unfold column_pairs. replace ((4 * v + 17 - 7) / 2) with (2 * v + 5) by (apply (Z.div_unique _ _ _ 0); lia).
  set (l := _ <$> range 0 (2 * v + 5)).
  assert (Hl : length l = Z.to_nat (2 * v + 5)) by (unfold l; rewrite length_fmap, length_range; lia).
  destruct (decide (k < length l)%nat) as [Hk|Hk].
  - rewrite lookup_app_l by done. unfold l, range. rewrite !list_lookup_fmap, lookup_seq_lt by lia. cbn.
    intros [= <-]. lia.
  - rewrite lookup_app_r by lia. intros Hr. right. pose proof (lookup_lt_Some _ _ _ Hr) as Hlt. cbn in Hlt.
    destruct (k - length l)%nat as [|[|[|]]] eqn:E; cbn in Hr; [injection Hr as <-..|lia]; lia.
Qed.
Lemma even_land2 z : Z.land (4 * z) 2 = 0.
Proof.
  apply Z.bits_inj'. intros k Hk. rewrite Z.land_spec, Z.bits_0. change 2 with (2 ^ 1) at 1.
  rewrite Z.pow2_bits_eqb by lia. destruct (Z.eqb_spec 1 k) as [<-|]; [|apply andb_false_r].
  change 4 with (2 ^ 2). rewrite Z.mul_comm, Z.mul_pow2_bits by lia. by rewrite Z.testbit_neg_r by lia.
Qed.
Lemma land2 r : (Z.land r 2 =? 0) = (r mod 4 <? 2).
Proof.
  assert (E : Z.land r 2 = Z.land (r mod 4) 2).
  { change 4 with (2 ^ 2). rewrite <- Z.land_ones by lia. change 2 with (Z.land (Z.ones 2) 2) at 1. by rewrite Z.land_assoc. }
  rewrite E. pose proof (Z.mod_pos_bound r 4 ltac:(lia)).
  assert (Hc : r mod 4 = 0 \/ r mod 4 = 1 \/ r mod 4 = 2 \/ r mod 4 = 3) by lia.
  by destruct Hc as [->|[->|[->| ->]]].
Qed.
Lemma upwards_parity v k right j : 1 <= v -> column_pairs (4 * v + 17) !! k = Some right -> 0 <= j < 2 ->
  xorb (Z.land right 2 =? 0) (right - j <? 6) = Nat.even k.
Proof.
  intros Hv Hk Hj. rewrite land2.
  destruct (column_pairs_lookup v k right Hv Hk) as [[-> H8]|(H6 & H1 & ->)], (Nat.Even_or_Odd k) as [[a ->]|[a ->]];
    rewrite ?Nat.even_even, ?Nat.even_odd.
  - replace (4 * v + 16 - 2 * Z.of_nat (2 * a)) with (0 + (v + 4 - Z.of_nat a) * 4) at 1 by lia.
    rewrite Z.mod_add by lia. destruct (Z.ltb_spec (4 * v + 16 - 2 * Z.of_nat (2 * a) - j) 6); [lia|done].
  - replace (4 * v + 16 - 2 * Z.of_nat (2 * a + 1)) with (2 + (v + 3 - Z.of_nat a) * 4) at 1 by lia.
    rewrite Z.mod_add by lia. destruct (Z.ltb_spec (4 * v + 16 - 2 * Z.of_nat (2 * a + 1) - j) 6); [lia|done].
  - replace (4 * v + 15 - 2 * Z.of_nat (2 * a)) with (3 + (v + 3 - Z.of_nat a) * 4) at 1 by lia.
    rewrite Z.mod_add by lia. destruct (Z.ltb_spec (4 * v + 15 - 2 * Z.of_nat (2 * a) - j) 6); [done|lia].
  - replace (4 * v + 15 - 2 * Z.of_nat (2 * a + 1)) with (1 + (v + 3 - Z.of_nat a) * 4) at 1 by lia.
    rewrite Z.mod_add by lia. destruct (Z.ltb_spec (4 * v + 15 - 2 * Z.of_nat (2 * a + 1) - j) 6); [done|lia].
Qed.

Lemma concat_imap_bind {A B} (f : nat -> A -> list B) (g : A -> list B) l :
  (forall k a, l !! k = Some a -> f k a = g a) -> concat (imap f l) = (l ≫= g).
Proof.
  revert f. induction l as [|a l IH]; intros f H; [done|]. rewrite imap_cons, bind_cons. cbn [concat].
  rewrite (H 0%nat a eq_refl). f_equal. apply IH. intros k b Hk. by apply (H (S k)).
Qed.
(** The encoder's order is the standard's. *)
Lemma zigzag_data_path v : 1 <= v -> zigzag (4 * v + 17) = data_path (4 * v + 17).
Proof.
  intros Hv. unfold zigzag, data_path. rewrite zigzag_columns_pairs by done. symmetry. apply concat_imap_bind.
  intros k right Hk. unfold pair_path. apply Forall_bind_ext, Forall_forall. intros i _.
  change (range 0 2) with [0; 1]. cbn [fmap list_fmap]. rewrite !(upwards_parity v k right) by (done || lia).
  by rewrite Z.sub_0_r.
Qed.

(** ** Every module outside column 6 is on the path once *)

Lemma column_pairs_range v : 1 <= v -> Forall (fun r => 1 <= r < 4 * v + 17) (column_pairs (4 * v + 17)).
Proof.
  intros Hv. apply Forall_lookup_2. intros k r Hk. destruct (column_pairs_lookup v k r Hv Hk); lia.
Qed.
Lemma column_pairs_inj v k k' r r' x : 1 <= v -> column_pairs (4 * v + 17) !! k = Some r -> column_pairs (4 * v + 17) !! k' = Some r' ->
  r - 1 <= x <= r -> r' - 1 <= x <= r' -> k = k' /\ r = r'.
Proof.
  intros Hv Hk Hk' H H'. destruct (column_pairs_lookup v k r Hv Hk), (column_pairs_lookup v k' r' Hv Hk'); lia.
Qed.
Lemma column_pairs_cover v x : 1 <= v -> 0 <= x < 4 * v + 17 -> x <> 6 -> exists r, r ∈ column_pairs (4 * v + 17) /\ r - 1 <= x <= r.
Proof.
  intros Hv Hx H6. unfold column_pairs.
  replace ((4 * v + 17 - 7) / 2) with (2 * v + 5) by (apply (Z.div_unique _ _ _ 0); lia).
  destruct (decide (x < 6)) as [Hlt|Hge].
  - destruct (decide (x < 2)); [exists 1|destruct (decide (x < 4)); [exists 3|exists 5]];
      (split; [|lia]); apply elem_of_app; right; by repeat constructor.
  - set (k := (4 * v + 16 - x) / 2). pose proof (Z.div_mod (4 * v + 16 - x) 2 ltac:(lia)).
    pose proof (Z.mod_pos_bound (4 * v + 16 - x) 2 ltac:(lia)).
    exists (4 * v + 16 - 2 * k). split; [|lia]. apply elem_of_app. left. apply list_elem_of_fmap.
    exists k. split; [lia|]. apply elem_of_range. lia.
Qed.

Lemma elem_of_pair_path n k r x y : (x, y) ∈ pair_path n k r <-> (x = r \/ x = r - 1) /\ 0 <= y < n.
Proof.
  unfold pair_path. rewrite list_elem_of_bind. split.
  - intros (i & Hin & Hi%elem_of_range). cbv zeta in Hin. rewrite !elem_of_cons, elem_of_nil in Hin.
    destruct (Nat.even k), Hin as [[= -> ->]|[[= -> ->]|[]]]; lia.
  - intros [Hx Hy]. exists (if Nat.even k then n - 1 - y else y). split; [|apply elem_of_range; destruct (Nat.even k); lia].
    cbv zeta. rewrite !elem_of_cons, elem_of_nil. destruct (Nat.even k), Hx as [-> | ->]; 
      [left|right; left|left|right; left]; f_equal; lia.
Qed.
Lemma elem_of_data_path v x y : 1 <= v -> (x, y) ∈ data_path (4 * v + 17) <-> inside (4 * v + 17) x y /\ x <> 6.
Proof.
  intros Hv. unfold data_path. rewrite list_elem_of_In, in_concat. split.
  - intros (l & Hl & Hin). apply list_elem_of_In in Hl, Hin. apply elem_of_lookup_imap_1 in Hl as (k & r & -> & Hk).
    apply elem_of_pair_path in Hin as [Hx Hy]. unfold inside.
    destruct (column_pairs_lookup v k r Hv Hk); lia.
  - intros [[Hx Hy] H6]. destruct (column_pairs_cover v x Hv Hx H6) as (r & Hr & Hxr).
    apply list_elem_of_lookup in Hr as [k Hk]. exists (pair_path (4 * v + 17) k r). split.
    + apply list_elem_of_In, list_elem_of_lookup. exists k. by rewrite list_lookup_imap, Hk.
    + apply list_elem_of_In, elem_of_pair_path. lia.
Qed.
Lemma pair_path_NoDup n k r : NoDup (pair_path n k r).
Proof.
  unfold pair_path. apply NoDup_bind; [| |unfold range; apply NoDup_fmap_2; [intros a b; lia|apply NoDup_seq]].
  - intros i i' [x y] _ _. cbv zeta. rewrite !elem_of_cons, !elem_of_nil.
    destruct (Nat.even k); intros [[= -> ->]|[[= -> ->]|[]]] [[= ?]|[[= ?]|[]]]; lia.
  - intros i _. cbv zeta. apply NoDup_cons. split; [|apply NoDup_singleton]. rewrite list_elem_of_singleton. intros [= ?]. lia.
Qed.
Lemma data_path_NoDup v : 1 <= v -> NoDup (data_path (4 * v + 17)).
Proof.
  intros Hv. unfold data_path.
  assert (H : forall l s, (forall k r, l !! k = Some r -> column_pairs (4 * v + 17) !! (s + k)%nat = Some r) ->
    NoDup (concat (imap (fun k => pair_path (4 * v + 17) (s + k)) l))).
  { induction l as [|r l IH]; intros s H; [constructor|]. rewrite imap_cons. cbn [concat]. apply NoDup_app. split_and!.
    - apply pair_path_NoDup.
    - intros [x y] Hxy Hin. rewrite Nat.add_0_r in Hxy. apply elem_of_pair_path in Hxy as [Hx _].
      apply list_elem_of_In, in_concat in Hin as (q & Hq & Hin). apply list_elem_of_In in Hq, Hin.
      apply elem_of_lookup_imap_1 in Hq as (k & r' & -> & Hk). cbn in Hin. apply elem_of_pair_path in Hin as [Hx' _].
      pose proof (H 0%nat r eq_refl) as E1. pose proof (H (S k) r' Hk) as E2.
      destruct (column_pairs_inj v _ _ r r' x Hv E1 E2); lia.
    - assert (E : imap ((fun k => pair_path (4 * v + 17) (s + k)) ∘ S) l = imap (fun k => pair_path (4 * v + 17) (S s + k)) l).
      { apply imap_ext. intros i x _. cbn. by rewrite Nat.add_succ_r. }
      rewrite E. apply IH. intros k r' Hk. rewrite Nat.add_succ_comm. by apply (H (S k)). }
  apply (H (column_pairs (4 * v + 17)) 0%nat). done.
Qed.

(** ** How many data modules there are *)

Definition all_cells (n : Z) : list (Z * Z) := range 0 n ≫= fun y => (fun x => (x, y)) <$> range 0 n.
Lemma elem_of_all_cells n x y : (x, y) ∈ all_cells n <-> inside n x y.
Proof.
  unfold all_cells, inside. rewrite list_elem_of_bind. split.
  - intros (y' & Hin & Hy%elem_of_range). apply list_elem_of_fmap in Hin as (x' & [= -> ->] & Hx%elem_of_range). done.
  - intros [Hx Hy]. exists y. split; [|by apply elem_of_range]. apply list_elem_of_fmap. exists x.
    split; [done|by apply elem_of_range].
Qed.
Lemma range_NoDup lo hi : NoDup (range lo hi).
Proof. unfold range. apply NoDup_fmap_2; [intros a b; lia|apply NoDup_seq]. Qed.
Lemma all_cells_NoDup n : NoDup (all_cells n).
Proof.
  unfold all_cells. apply NoDup_bind; [| |apply range_NoDup].
  - intros y y' p _ _ H1 H2. apply list_elem_of_fmap in H1 as (x & -> & _), H2 as (x' & [= _ ->] & _). done.
  - intros y _. apply NoDup_fmap_2; [intros a b [=]; done|apply range_NoDup].
Qed.

Lemma rows_range {A} `{!Inhabited A} (l : list A) : (fun i => l !!! Z.to_nat i) <$> range 0 (zlen l) = l.
Proof.
  unfold range, zlen. rewrite Z.sub_0_r, Nat2Z.id, <- list_fmap_compose. apply list_eq. intros i.
  rewrite list_lookup_fmap. destruct (l !! i) as [a|] eqn:E.
  - rewrite lookup_seq_lt by (by eapply lookup_lt_Some). cbn -[Z.add Z.of_nat]. rewrite Z.add_0_l, Nat2Z.id.
    by rewrite (list_lookup_total_correct _ _ _ E).
  - rewrite lookup_seq_ge by (by apply lookup_ge_None_1). done.
Qed.
Definition row_white (r : list bool) : nat := length (filter (fun b => b = false) r).
Lemma row_white_foldr r : foldr (fun (b : bool) n => if b then n else n + 1) 0 r = Z.of_nat (row_white r).
Proof.
  unfold row_white. induction r as [|b r IH]; [done|]. cbn [foldr]. rewrite IH, filter_cons. destruct b.
  - by rewrite decide_False.
  - rewrite decide_True by done. cbn [length]. lia.
Qed.
Lemma count_white_rows g : count_white g = Z.of_nat (sum_list (row_white <$> g)).
Proof.
  unfold count_white. induction g as [|r g IH]; [done|]. cbn [foldr]. rewrite IH. cbn.
  rewrite Nat2Z.inj_add, <- row_white_foldr.
  assert (H : forall c, foldr (fun (b : bool) n => if b then n else n + 1) c r = foldr (fun (b : bool) n => if b then n else n + 1) 0 r + c).
  { intros c. induction r as [|b r IHr]; [cbn; lia|]. cbn [foldr]. destruct b; rewrite IHr; lia. }
  rewrite H. lia.
Qed.

Lemma filter_fmap_length {A B} (h : A -> B) (P : B -> Prop) `{!forall b, Decision (P b)} l :
  length (filter P (h <$> l)) = length (filter (fun a => P (h a)) l).
Proof.
  induction l as [|a l IH]; [done|]. rewrite fmap_cons, !filter_cons. repeat case_decide; cbn; try done; by rewrite IH.
Qed.
Lemma filter_bind_length {A B} (f : A -> list B) (P : B -> Prop) `{!forall b, Decision (P b)} l :
  length (filter P (l ≫= f)) = sum_list ((fun a => length (filter P (f a))) <$> l).
Proof.
  induction l as [|a l IH]; [done|]. rewrite bind_cons, filter_app, length_app, IH. done.
Qed.
Lemma white_cells n g : square n g -> length (filter (fun p : Z * Z => cell g p.1 p.2 = false) (all_cells n)) = Z.to_nat (count_white g).
Proof.
  intros [Hn Hg]. rewrite count_white_rows, Nat2Z.id. unfold all_cells. rewrite filter_bind_length. f_equal.
  transitivity (row_white <$> ((fun i => g !!! Z.to_nat i) <$> range 0 (zlen g))); [|by rewrite rows_range].
  rewrite Hn, <- list_fmap_compose. apply list_fmap_ext. intros k y Hy%list_elem_of_lookup_2%elem_of_range. cbn.
  rewrite filter_fmap_length. cbn. unfold cell.
  destruct (lookup_lt_is_Some_2 g (Z.to_nat y)) as [r Hr]; [unfold zlen in Hn; lia|].
  rewrite (list_lookup_total_correct _ _ _ Hr). assert (Hrl : zlen r = n) by (by eapply Forall_lookup_1 in Hg).
  transitivity (row_white ((fun i => r !!! Z.to_nat i) <$> range 0 (zlen r))); [|by rewrite rows_range].
  unfold row_white. by rewrite filter_fmap_length, Hrl.
Qed.

(** The data modules are as many as [getNumRawDataModules] says. *)
Lemma data_modules_length v : 1 <= v <= 40 -> getNumRawDataModules v = inr (Z.of_nat (length (data_modules v))).
Proof.
  intros Hv. destruct (patterns_spec v Hv) as (Hin & Hg & H6 & ->). f_equal.
  assert (Hsq : square (4 * v + 17) (function_grid v)).
  { rewrite <- Hg. destruct (draw_points_spec (pattern_points v LOW) (new_symbol v LOW) (new_symbol_wf v LOW Hv)) as (_ & _ & H); done. }
  assert (Hp : data_modules v ≡ₚ filter (fun p => cell (function_grid v) p.1 p.2 = false) (all_cells (4 * v + 17))).
  { apply NoDup_Permutation.
    - unfold data_modules. apply NoDup_filter, data_path_NoDup. lia.
    - apply NoDup_filter, all_cells_NoDup.
    - intros [x y]. unfold data_modules. rewrite !list_elem_of_filter, elem_of_data_path, elem_of_all_cells by lia. cbn.
      split; [tauto|]. intros [Hc Hxy]. split_and!; [done|done|]. intros ->. rewrite H6 in Hc by apply Hxy. done. }
  rewrite Hp, (white_cells (4 * v + 17)) by done. rewrite Z2Nat.id; [done|]. rewrite count_white_rows. lia.
Qed.
Lemma data_modules_inside v : 1 <= v -> points_in (4 * v + 17) (data_modules v).
Proof.
  intros Hv. apply Forall_forall. intros [x y] H. unfold data_modules in H. apply list_elem_of_filter in H as [_ H].
  apply elem_of_data_path in H as [H _]; [exact H|lia].
Qed.
Lemma data_modules_NoDup v : 1 <= v -> NoDup (data_modules v).
Proof. intros Hv. unfold data_modules. by apply NoDup_filter, data_path_NoDup. Qed.

(** ** Putting bits along a path *)

Definition put_bits (g : grid) (l : list ((Z * Z) * bool)) : grid := foldl (fun g '(p, b) => put g p.1 p.2 b) g l.
Lemma put_bits_square n g l : square n g -> square n (put_bits g l).
Proof. revert g. induction l as [|[p b] l IH]; intros g Hg; [done|]. cbn. by apply IH, put_square. Qed.
Lemma put_bits_other n g l x y : square n g -> points_in n l.*1 -> inside n x y -> (x, y) ∉ l.*1 ->
  cell (put_bits g l) x y = cell g x y.
Proof.
  revert g. induction l as [|[[a c] b] l IH]; intros g Hg Hin Hxy Hni; [done|].
  rewrite fmap_cons in Hin, Hni. apply Forall_cons in Hin as [Hp Hin]. apply not_elem_of_cons in Hni as [Hne Hni].
  cbn [put_bits foldl] in *. rewrite IH; [|by apply put_square|done..]. cbn in *.
  rewrite (put_cell n) by done. rewrite decide_False; [done|]. intros [-> ->]. done.
Qed.
Lemma fst_zip_take {A B} (l : list A) (k : list B) : (length k <= length l)%nat -> (zip l k).*1 = take (length k) l.
Proof.
  revert k. induction l as [|a l IH]; intros [|b k] H; cbn in *; try (done || lia). f_equal. apply IH. lia.
Qed.
Lemma put_bits_read n g ps bs : square n g -> points_in n ps -> NoDup ps -> (length bs <= length ps)%nat ->
  take (length bs) ((fun p => cell (put_bits g (zip ps bs)) p.1 p.2) <$> ps) = bs.
Proof.
  revert g bs. induction ps as [|[x y] ps IH]; intros g bs Hg Hin Hnd Hl.
  - destruct bs; [done|cbn in Hl; lia].
  - destruct bs as [|b bs]; [done|]. apply Forall_cons in Hin as [Hp Hin]. apply NoDup_cons in Hnd as [Hni Hnd].
    rewrite fmap_cons. cbn [zip zip_with put_bits foldl length take]. cbn in Hl.
    f_equal; [|apply (IH _ bs); [by apply put_square|done|done|lia]].
    change (foldl _ ?g0 ?l) with (put_bits g0 l).
    assert (Hz : (zip ps bs).*1 = take (length bs) ps) by (apply fst_zip_take; lia).
    rewrite (put_bits_other n); [|by apply put_square|rewrite Hz; by apply Forall_take|done|].
    + rewrite (put_cell n) by done. by rewrite decide_True.
    + rewrite Hz. intros (i & Hi & _)%elem_of_take. by eapply Hni, list_elem_of_lookup_2.
Qed.
