(* ===== verification/QrMaskFacts.v ===== *)
(** The constructor of a symbol: codewords, masks, and the choice of the mask. *)
From S2P Require Import Prelude CText Exc QrBits QrCode QrBitsFacts QrRead QrStreamFacts QrDrawFacts QrGridFacts.
Local Open Scope list_scope.
Local Open Scope Z_scope.

(** ** Codewords *)

Definition path_step (qr : QrCode) (data : list Z) (st : grid * Z) (p : Z * Z) : exc (grid * Z) :=
  let '(m, i) := st in
  f ← grid_at (isFunction qr) p.1 p.2;
  if negb f && (i <? zlen data * 8) then
    b ← at_ data (Z.shiftr i 3);
    m ← grid_set m p.1 p.2 (bit_of b (7 - Z.land i 7));
    mret (m, i + 1)
  else mret (m, i).

Lemma exc_fold_bind {A B S} (f : S -> B -> exc S) (g : A -> list B) s l :
  exc_fold f s (l ≫= g) = exc_fold (fun s a => exc_fold f s (g a)) s l.
Proof.
  revert s. induction l as [|a l IH]; intros s; [done|]. rewrite bind_cons, exc_fold_app. cbn [exc_fold].
  destruct (exc_fold f s (g a)); [done|]. apply IH.
Qed.
Lemma exc_fold_fmap {A B S} (f : S -> B -> exc S) (h : A -> B) s l :
  exc_fold f s (h <$> l) = exc_fold (fun s a => f s (h a)) s l.
Proof.
  revert s. induction l as [|a l IH]; intros s; [done|]. rewrite fmap_cons. cbn [exc_fold].
  destruct (f s (h a)); [done|]. apply IH.
Qed.
Lemma exc_fold_ext {A S} (f g : S -> A -> exc S) s l : (forall s a, f s a = g s a) -> exc_fold f s l = exc_fold g s l.
Proof.
  intros H. revert s. induction l as [|a l IH]; intros s; [done|]. cbn [exc_fold]. rewrite H.
  destruct (g s a); [done|]. apply IH.
Qed.

Lemma bit_of_testbit d i : 0 <= i -> bit_of d i = Z.testbit d i.
Proof. intros Hi. unfold bit_of. rewrite land1_b2z by done. by destruct (Z.testbit d i). Qed.
Lemma codeword_bit data i : (i < length (all_bits data))%nat ->
  exists b, at_ data (Z.shiftr (Z.of_nat i) 3) = inr b /\ all_bits data !! i = Some (bit_of b (7 - Z.land (Z.of_nat i) 7)).
Proof.
  intros Hi. destruct (lookup_lt_is_Some_2 _ _ Hi) as [c Hc]. rewrite all_bits_lookup in Hc.
  destruct (data !! (i / 8)%nat) as [b|] eqn:Eb; [|done]. exists b.
  assert (Hsh : Z.shiftr (Z.of_nat i) 3 = Z.of_nat (i / 8)).
  { rewrite Z.shiftr_div_pow2 by lia. change (2 ^ 3) with (Z.of_nat 8). by rewrite <- Nat2Z.inj_div. }
  assert (Hr : 7 - Z.land (Z.of_nat i) 7 = Z.of_nat (7 - i mod 8)).
  { change (Z.land (Z.of_nat i) 7) with (Z.land (Z.of_nat i) (Z.ones 3)).
    rewrite Z.land_ones by lia. change (2 ^ 3) with (Z.of_nat 8).
    rewrite <- Nat2Z.inj_mod. pose proof (Nat.mod_upper_bound i 8 ltac:(lia)). lia. }
  rewrite Hsh. split; [apply at_Some; [lia|by rewrite Nat2Z.id]|].
  by rewrite all_bits_lookup, Eb, Hr, bit_of_testbit by lia.
Qed.

Lemma path_steps n qr data path : square n (isFunction qr) -> points_in n path -> forall m i,
  square n m -> (i <= length (all_bits data))%nat ->
  let free := filter (fun p => cell (isFunction qr) p.1 p.2 = false) path in
  exc_fold (path_step qr data) (m, Z.of_nat i) path
  = inr (put_bits m (zip free (drop i (all_bits data))), Z.of_nat (Nat.min (i + length free) (length (all_bits data)))).
Proof.
  intros Hf Hin. induction Hin as [|p path Hp Hin IH]; intros m i Hm Hi free.
  - cbn. do 2 f_equal. lia.
  - assert (Hlen : zlen data * 8 = Z.of_nat (length (all_bits data))) by (rewrite length_all_bits; unfold zlen; lia).
    cbn [exc_fold]. unfold free. rewrite filter_cons.
    assert (Hstep : path_step qr data (m, Z.of_nat i) p =
      if cell (isFunction qr) p.1 p.2 then inr (m, Z.of_nat i)
      else match all_bits data !! i with Some b => inr (put m p.1 p.2 b, Z.of_nat (S i)) | None => inr (m, Z.of_nat i) end).
    { unfold path_step. rewrite (grid_at_inside n) by done. cbn [mbind exc_bind]. rewrite Hlen.
      destruct (cell (isFunction qr) p.1 p.2); cbn [negb andb]; [done|].
      destruct (Z.ltb_spec (Z.of_nat i) (Z.of_nat (length (all_bits data)))) as [Hlt|Hge].
      - destruct (codeword_bit data i) as (b & Eb & Hb); [lia|]. rewrite Eb, Hb. cbn [mbind exc_bind].
        rewrite (grid_set_inside n) by done. cbn [mbind exc_bind mret exc_ret]. do 2 f_equal. lia.
      - by rewrite lookup_ge_None_2 by lia. }
    rewrite Hstep. destruct (cell (isFunction qr) p.1 p.2) eqn:Ec.
    + rewrite decide_False by done. cbn [mbind exc_bind]. by apply IH.
    + rewrite decide_True by done. destruct (all_bits data !! i) as [b|] eqn:Eb; cbn [mbind exc_bind].
      * pose proof (lookup_lt_Some _ _ _ Eb). rewrite IH by (done || lia || by apply put_square).
        rewrite (drop_S _ _ _ Eb). cbn [zip zip_with put_bits foldl length]. do 2 f_equal. lia.
      * apply lookup_ge_None_1 in Eb. rewrite IH by done. rewrite drop_ge by lia.
        assert (Hz : forall l : list (Z * Z), zip l (@nil bool) = []) by (by intros []). rewrite !Hz.
        cbn [length]. do 2 f_equal. lia.
Qed.

Lemma drawCodewords_spec qr data : well_formed qr -> isFunction qr = function_grid (version qr) ->
  zlen data = Z.of_nat (length (data_modules (version qr))) / 8 ->
  drawCodewords qr data = inr (set_modules (put_bits (modules qr) (zip (data_modules (version qr)) (all_bits data))) qr).
Proof.
  intros (Hs & Hv & Hm & Hf) Hfun Hlen. unfold drawCodewords.
  set (raw := length (data_modules (version qr))) in *.
  rewrite data_modules_length by lia. fold raw. cbn [mbind exc_bind].
  assert (Hraw : 208 <= Z.of_nat raw <= 29648).
  { destruct (params_spec (version qr) LOW Hv) as (p & E & _ & _ & _ & Hp); [by repeat constructor|].
    rewrite data_modules_length in E by lia. fold raw in E. injection E as E. unfold params_ok in Hp. bool_to_prop. lia. }
  pose proof (Z.div_mod (Z.of_nat raw) 8 ltac:(lia)) as Hdm. pose proof (Z.mod_pos_bound (Z.of_nat raw) 8 ltac:(lia)) as Hmb.
  rewrite quot_nonneg, u32_id, Hlen, Z.eqb_refl by (unfold is_u32; lia). cbn [negb throw_if mbind exc_bind mret exc_ret].
  rewrite <- Hlen.
  assert (Hloop : exc_fold (fun st right => exc_fold (fun st vert => exc_fold (codeword_step qr data right vert) st (range 0 2))
        st (range 0 (size qr))) (modules qr, 0) (zigzag_columns (Z.to_nat (size qr)) (size qr - 1))
      = exc_fold (path_step qr data) (modules qr, Z.of_nat 0) (zigzag (size qr))).
  { unfold zigzag. rewrite exc_fold_bind. apply exc_fold_ext. intros st right.
    rewrite exc_fold_bind. apply exc_fold_ext. intros st' vert. rewrite exc_fold_fmap. apply exc_fold_ext.
    intros [m i] j. reflexivity. }
  rewrite Hloop, Hs, zigzag_data_path by lia.
  rewrite (path_steps (size qr)); [|done| |done|lia].
  2: { rewrite Hs. apply Forall_forall. intros [x y] Hxy. apply elem_of_data_path in Hxy as [H _]; [exact H|lia]. }
  rewrite Hfun. fold (data_modules (version qr)). fold raw. rewrite drop_0. cbn [mbind exc_bind].
  assert (Hbits : length (all_bits data) = Z.to_nat (8 * zlen data)) by (rewrite length_all_bits; unfold zlen; lia).
  rewrite Hbits, u32_id by (unfold is_u32; lia).
  replace (Z.of_nat (Nat.min (0 + raw) (Z.to_nat (8 * zlen data)))) with (zlen data * 8) by lia.
  by rewrite Z.eqb_refl.
Qed.

(** ** Masks *)

Lemma mask_invert_at mask x y : 0 <= x -> 0 <= y -> mask_invert mask x y = mask_at mask y x.
Proof.
  intros Hx Hy. unfold mask_invert, mask_at.
  assert (Hxy : 0 <= x * y) by lia.
  assert (H2 : 0 <= (x * y) mod 2) by (apply Z.mod_pos_bound; lia).
  assert (H3 : 0 <= (x * y) mod 3) by (apply Z.mod_pos_bound; lia).
  assert (H4 : 0 <= (x + y) mod 2) by (apply Z.mod_pos_bound; lia).
  assert (H5 : 0 <= x / 3) by (apply Z.div_pos; lia). assert (H6 : 0 <= y / 2) by (apply Z.div_pos; lia).
  rewrite !(rem_nonneg (x * y)), !(rem_nonneg (x + y)), !(rem_nonneg x), !(rem_nonneg y), !quot_nonneg by lia.
  rewrite !rem_nonneg by lia. rewrite (Z.mul_comm y x), (Z.add_comm y x), (Z.add_comm (y / 2)). done.
Qed.

(** One cell of a row, then a row, then the grid. *)
Definition masked (f g : grid) (mask x y : Z) : bool := xorb (cell g x y) (mask_at mask y x && negb (cell f x y)).

Lemma mask_cells n f mask cells : square n f -> points_in n cells -> NoDup cells -> forall m,
  square n m ->
  exists m', exc_fold (fun m p => mask_step f mask p.2 m p.1) m cells = inr m' /\ square n m' /\
    forall x y, inside n x y -> cell m' x y = if decide ((x, y) ∈ cells) then masked f m mask x y else cell m x y.
Proof.
  intros Hf Hin. induction Hin as [|[x0 y0] cells Hp Hin IH]; intros Hnd m Hm.
  - exists m. split_and!; [done|done|]. intros x y Hxy. by rewrite decide_False by apply not_elem_of_nil.
  - apply NoDup_cons in Hnd as [Hni Hnd]. cbn [exc_fold fst snd]. cbn [fst snd] in Hp.
    assert (Hstep : mask_step f mask y0 m x0 = inr (put m x0 y0 (masked f m mask x0 y0))).
    { unfold mask_step. rewrite !(grid_at_inside n) by done. cbn [mbind exc_bind]. rewrite (grid_set_inside n) by done.
      by rewrite mask_invert_at by (destruct Hp; lia). }
    rewrite Hstep. cbn [mbind exc_bind].
    destruct (IH Hnd (put m x0 y0 (masked f m mask x0 y0))) as (m' & E & Hm' & Hc); [by apply put_square|].
    exists m'. split_and!; [done|done|]. intros x y Hxy. rewrite Hc by done.
    rewrite (put_cell n) by done. destruct (decide ((x, y) ∈ cells)) as [Hxc|Hxc].
    + rewrite (decide_True (P := (x, y) ∈ (x0, y0) :: cells)) by (by right). unfold masked at 1.
      rewrite (put_cell n) by done. rewrite decide_False; [done|]. intros [-> ->]. done.
    + destruct (decide (x0 = x /\ y0 = y)) as [[-> ->]|Hne].
      * by rewrite decide_True by left.
      * rewrite decide_False; [done|]. intros [[= -> ->]|]%elem_of_cons; [by apply Hne|done].
Qed.

(** [applyMask] inverts the data modules of the pattern, and nothing else. *)
Lemma applyMask_spec qr mask : well_formed qr -> 0 <= mask <= 7 ->
  exists m, applyMask qr mask = inr (set_modules m qr) /\ square (size qr) m /\
    forall x y, inside (size qr) x y -> cell m x y = masked (isFunction qr) (modules qr) mask x y.
Proof.
  intros (Hs & Hv & Hm & Hf) Hmask. unfold applyMask. destruct (Z.ltb_spec mask 0), (Z.ltb_spec 7 mask); [lia..|].
  cbn [orb throw_if mbind exc_bind mret exc_ret].
  destruct (mask_cells (size qr) (isFunction qr) mask (all_cells (size qr)) Hf) with (m := modules qr) as (m & E & Hsq & Hc);
    [|apply all_cells_NoDup|done|].
  { apply Forall_forall. intros [x y] Hxy. by apply elem_of_all_cells in Hxy. }
  exists m. split_and!; [|done|].
  - unfold all_cells in E. rewrite exc_fold_bind in E.
    assert (E' : exc_fold (fun m y => exc_fold (mask_step (isFunction qr) mask y) m (range 0 (size qr))) (modules qr) (range 0 (size qr)) = inr m).
    { rewrite <- E. apply exc_fold_ext. intros s y. by rewrite exc_fold_fmap. }
    by rewrite E'.
  - intros x y Hxy. rewrite Hc by done. by rewrite decide_True by (by apply elem_of_all_cells).
Qed.

(** Applying a mask twice undoes it. *)
Lemma masked_twice f g m mask x y : cell m x y = masked f g mask x y -> masked f m mask x y = cell g x y.
Proof. unfold masked. intros ->. by destruct (cell g x y), (mask_at mask y x), (cell f x y). Qed.

(** ** The penalty is calculated and small *)

Lemma fold_bounded {A} (f : Z -> A -> exc Z) c l r : (forall r a, a ∈ l -> exists r', f r a = inr r' /\ r <= r' <= r + c) ->
  exists r', exc_fold f r l = inr r' /\ r <= r' <= r + c * Z.of_nat (length l).
Proof.
  revert r. induction l as [|a l IH]; intros r H; [exists r; split; [done|cbn; lia]|]. cbn [exc_fold].
  destruct (H r a) as (r1 & -> & H1); [left|]. cbn [mbind exc_bind].
  destruct (IH r1) as (r2 & E & H2); [intros r' b Hb; apply H; by right|]. exists r2. split; [done|]. cbn [length]. lia.
Qed.
Lemma range_bounded (f : Z -> Z -> exc Z) c lo hi r : lo <= hi ->
  (forall r i, lo <= i < hi -> exists r', f r i = inr r' /\ r <= r' <= r + c) ->
  exists r', exc_fold f r (range lo hi) = inr r' /\ r <= r' <= r + c * (hi - lo).
Proof.
  intros Hl H. destruct (fold_bounded f c (range lo hi) r) as (r' & E & Hr).
  - intros r1 i Hi%elem_of_range. by apply H.
  - exists r'. split; [done|]. rewrite length_range, Z2Nat.id in Hr by lia. done.
Qed.

Section Penalty.
Context (n : Z) (g : grid) (Hg : square n g) (Hn : 1 <= n).

(** A row or a column. *)
Definition readable (line : Z -> exc bool) : Prop := forall k, 0 <= k < n -> exists b, line k = inr b.
Lemma readable_row y : 0 <= y < n -> readable (fun x => grid_at g x y).
Proof using Hg. intros Hy x Hx. eexists. by apply (grid_at_inside n). Qed.
Lemma readable_column x : 0 <= x < n -> readable (fun y => grid_at g x y).
Proof using Hg. intros Hx y Hy. eexists. by apply (grid_at_inside n). Qed.

Lemma run_penalty_bounded line r : readable line -> exists r', run_penalty n line r = inr r' /\ r <= r' <= r + 3 * n.
Proof using Hn.
  intros H. unfold run_penalty. destruct (H 0) as [c ->]; [lia|]. cbn [mbind exc_bind].
  assert (Hl : forall l st, (forall k, k ∈ l -> 0 <= k < n) -> exists c k r',
    exc_fold (fun st k => b ← line k; mret (run_step st b)) st l = inr (c, k, r') /\ st.2 <= r' <= st.2 + 3 * Z.of_nat (length l)).
  { induction l as [|k l IH]; intros [[c0 run] r0] Hk.
    - exists c0, run, r0. split; [done|cbn; lia].
    - cbn [exc_fold]. destruct (H k) as [b ->]; [apply Hk; left|]. cbn [mbind exc_bind mret exc_ret].
      destruct (IH (run_step (c0, run, r0) b)) as (c1 & k1 & r1 & E & Hr); [intros k' Hk'; apply Hk; by right|].
      exists c1, k1, r1. split; [done|]. cbn [snd length] in *.
      assert (Hs : r0 <= (run_step (c0, run, r0) b).2 <= r0 + 3).
      { unfold run_step, PENALTY_N1. repeat case_match; cbn; lia. }
      lia. }
  destruct (Hl (range 1 n) (c, 1, r)) as (c1 & k1 & r1 & E & Hr); [intros k Hk%elem_of_range; lia|].
  rewrite E. cbn [mbind exc_bind]. exists r1. split; [done|]. rewrite length_range in Hr. cbn [snd] in Hr. lia.
Qed.
Lemma finder_penalty_bounded line r : readable line -> exists r', finder_penalty n line r = inr r' /\ r <= r' <= r + 40 * n.
Proof using Hn.
  intros H. unfold finder_penalty.
  assert (Hstep : forall st k, 0 <= k < n -> exists b r1, finder_step line st k = inr (b, r1) /\ st.2 <= r1 <= st.2 + 40).
  { intros [bits r0] k Hk. unfold finder_step. destruct (H k Hk) as [b ->]. cbn [mbind exc_bind mret exc_ret].
    eexists _, _. split; [done|]. cbn [snd]. unfold PENALTY_N3. case_match; lia. }
  assert (Hl : forall l st, (forall k, k ∈ l -> 0 <= k < n) -> exists b r',
    exc_fold (finder_step line) st l = inr (b, r') /\ st.2 <= r' <= st.2 + 40 * Z.of_nat (length l)).
  { induction l as [|k l IH]; intros st Hk.
    - exists st.1, st.2. split; [by destruct st|cbn; lia].
    - cbn [exc_fold]. destruct (Hstep st k) as (b1 & r1 & -> & Hr1); [apply Hk; left|]. cbn [mbind exc_bind].
      destruct (IH (b1, r1)) as (b2 & r2 & E & Hr); [intros k' Hk'; apply Hk; by right|].
      exists b2, r2. split; [done|]. cbn [snd length] in *. lia. }
  destruct (Hl (range 0 n) (0, r)) as (b & r1 & E & Hr); [intros k Hk%elem_of_range; lia|].
  rewrite E. cbn [mbind exc_bind]. exists r1. split; [done|]. rewrite length_range in Hr. cbn [snd] in Hr. lia.
Qed.
Lemma block_penalty_bounded x y r : 0 <= x < n - 1 -> 0 <= y < n - 1 -> exists r', block_penalty g y r x = inr r' /\ r <= r' <= r + 3.
Proof using Hg.
  intros Hx Hy. unfold block_penalty, PENALTY_N2.
  rewrite !(grid_at_inside n) by (done || (unfold inside; lia)). cbn [mbind exc_bind].
  repeat case_match; eexists; split; (done || lia).
Qed.
Lemma count_black_bounded : exists b, count_black g n = inr b /\ 0 <= b <= n * n.
Proof using Hg Hn.
  unfold count_black. destruct (range_bounded (fun black y => exc_fold (fun black x => b ← grid_at g x y;
    mret (if (b : bool) then black + 1 else black)) black (range 0 n)) n 0 n 0) as (b & E & Hb); [lia| |exists b; split; [done|lia]].
  intros r y Hy. destruct (range_bounded (fun black x => b ← grid_at g x y; mret (if (b : bool) then black + 1 else black)) 1 0 n r)
    as (b & E & Hb); [lia| |exists b; split; [done|lia]].
  intros r' x Hx. rewrite (grid_at_inside n) by done. cbn [mbind exc_bind mret exc_ret]. eexists. split; [done|]. case_match; lia.
Qed.
End Penalty.

Lemma balance_loop_bounded fuel black total k r : r <= balance_loop fuel black total k r <= r + 10 * Z.of_nat fuel.
Proof.
  revert k r. induction fuel as [|fuel IH]; intros k r; cbn [balance_loop]; [lia|]. case_match; [|lia].
  specialize (IH (k + 1) (r + PENALTY_N4)). unfold PENALTY_N4 in *. lia.
Qed.
(** The loop over [k] ends by itself: ten rounds are enough. *)
Lemma balance_loop_ends black total fuel r : 0 <= black <= total ->
  balance_loop (10 + fuel) black total 0 r = balance_loop 10 black total 0 r.
Proof.
  intros Hb. cbn [Nat.add balance_loop]. repeat (case_match; [|done]).
  destruct fuel as [|fuel]; [done|]. cbn [balance_loop]. rewrite (proj2 (Z.ltb_ge _ _)) by lia. 
  by rewrite (proj2 (Z.ltb_ge _ _)) by lia.
Qed.

Lemma getPenaltyScore_total qr : well_formed qr -> exists p, getPenaltyScore qr = inr p /\ 0 <= p < INT32_MAX.
Proof.
  intros (Hs & Hv & Hm & _). set (n := size qr) in *. set (g := modules qr) in *.
  assert (Hn : 21 <= n <= 177) by lia. unfold getPenaltyScore. fold n g.
  destruct (range_bounded (fun r y => run_penalty n (fun x => grid_at g x y) r) (3 * n) 0 n 0) as (r1 & -> & H1); [lia| |].
  { intros r y Hy. apply run_penalty_bounded; [lia|by apply readable_row]. }
  cbn [mbind exc_bind].
  destruct (range_bounded (fun r x => run_penalty n (fun y => grid_at g x y) r) (3 * n) 0 n r1) as (r2 & -> & H2); [lia| |].
  { intros r x Hx. apply run_penalty_bounded; [lia|by apply readable_column]. }
  cbn [mbind exc_bind].
  destruct (range_bounded (fun r y => exc_fold (block_penalty g y) r (range 0 (n - 1))) (3 * n) 0 (n - 1) r2) as (r3 & -> & H3); [lia| |].
  { intros r y Hy. destruct (range_bounded (block_penalty g y) 3 0 (n - 1) r) as (r' & E & Hr'); [lia| |].
    - intros r0 x Hx. by apply (block_penalty_bounded n).
    - exists r'. split; [done|lia]. }
  cbn [mbind exc_bind].
  destruct (range_bounded (fun r y => finder_penalty n (fun x => grid_at g x y) r) (40 * n) 0 n r3) as (r4 & -> & H4); [lia| |].
  { intros r y Hy. apply finder_penalty_bounded; [lia|by apply readable_row]. }
  cbn [mbind exc_bind].
  destruct (range_bounded (fun r x => finder_penalty n (fun y => grid_at g x y) r) (40 * n) 0 n r4) as (r5 & -> & H5); [lia| |].
  { intros r x Hx. apply finder_penalty_bounded; [lia|by apply readable_column]. }
  cbn [mbind exc_bind]. destruct (count_black_bounded n g Hm) as (b & -> & Hb); [lia|]. cbn [mbind exc_bind mret exc_ret].
  eexists. split; [done|]. pose proof (balance_loop_bounded 10 b (n * n) 0 r5) as Hbal. unfold INT32_MAX.
  assert (Hn2 : n * n <= 177 * 177) by (apply Z.mul_le_mono_nonneg; lia). nia.
Qed.

(** ** Grids by their cells *)

Lemma grid_ext n g g' : square n g -> square n g' -> (forall x y, inside n x y -> cell g x y = cell g' x y) -> g = g'.
Proof.
  intros [Hn Hg] [Hn' Hg'] H. apply list_eq_same_length with (n := length g); [unfold zlen in *; lia|done|].
  intros i r r' Hi Hr Hr'. pose proof (Forall_lookup_1 _ _ _ _ Hg Hr) as Hl. pose proof (Forall_lookup_1 _ _ _ _ Hg' Hr') as Hl'.
  cbv beta in Hl, Hl'. apply list_eq_same_length with (n := length r); [unfold zlen in *; lia|done|].
  intros j b b' Hj Hb Hb'. specialize (H (Z.of_nat j) (Z.of_nat i)). unfold cell in H. rewrite !Nat2Z.id in H.
  rewrite (list_lookup_total_correct _ _ _ Hr), (list_lookup_total_correct _ _ _ Hr') in H.
  rewrite (list_lookup_total_correct _ _ _ Hb), (list_lookup_total_correct _ _ _ Hb') in H.
  apply H. unfold inside, zlen in *. lia.
Qed.
Lemma put_bits_ext n g g' l : square n g -> square n g' -> points_in n l.*1 ->
  (forall x y, inside n x y -> (x, y) ∉ l.*1 -> cell g x y = cell g' x y) -> put_bits g l = put_bits g' l.
Proof.
  revert g g'. induction l as [|[[a c] b] l IH]; intros g g' Hg Hg' Hin H.
  - apply (grid_ext n); [done..|]. intros x y Hxy. apply H; [done|apply not_elem_of_nil].
  - rewrite fmap_cons in Hin. apply Forall_cons in Hin as [Hp Hin]. cbn in Hp. cbn [put_bits foldl].
    apply IH; [by apply put_square..|done|]. intros x y Hxy Hni. cbn. rewrite !(put_cell n) by done.
    case_decide as Hd; [done|]. apply H; [done|]. rewrite fmap_cons. apply not_elem_of_cons. split; [|done].
    intros [= -> ->]. by apply Hd.
Qed.
Lemma put_points_bits g ps : foldl put_point g ps = put_bits g ps.
Proof. revert g. induction ps as [|[p b] ps IH]; intros g; [done|]. apply IH. Qed.

Lemma marks_cell n cs g x y : square n g -> points_in n cs -> inside n x y ->
  cell (foldl mark g cs) x y = (cell g x y || bool_decide ((x, y) ∈ cs)).
Proof.
  revert g. induction cs as [|[a c] cs IH]; intros g Hg Hin Hxy.
  - cbn. by rewrite orb_false_r.
  - apply Forall_cons in Hin as [Hp Hin]. cbn in Hp. cbn [foldl]. change (mark g (a, c)) with (put g a c true).
    rewrite IH by (done || by apply put_square). rewrite (put_cell n) by done. destruct (decide (a = x /\ c = y)) as [Hd|Hd].
    + destruct Hd as [-> ->]. rewrite (bool_decide_eq_true_2 ((x, y) ∈ (x, y) :: cs)) by left. by rewrite orb_true_r.
    + f_equal. apply bool_decide_ext. rewrite elem_of_cons. split; [by right|].
      intros [[= -> ->]|Hc]; [by destruct Hd|done].
Qed.

(** ** Format information *)

Definition format_coords_of (n : Z) : list (Z * Z) := coords (format_points n 0).
Lemma format_in_pattern v c : c ∈ format_coords_of (4 * v + 17) -> c ∈ coords (pattern_points v LOW).
Proof.
  intros H. unfold pattern_points, coords. rewrite !fmap_app, !elem_of_app. do 5 right. left. exact H.
Qed.

(** A symbol with the function patterns of its version. *)
Definition patterned (qr : QrCode) : Prop :=
  well_formed qr /\ errorCorrectionLevel qr ∈ levels /\ isFunction qr = function_grid (version qr).

Lemma patterned_modules qr m : patterned qr -> square (size qr) m -> patterned (set_modules m qr).
Proof. by intros ((Hs & Hv & _ & Hf) & He & Hfun) Hm. Qed.

Lemma function_cell v x y : 1 <= v <= 40 -> (x, y) ∈ format_coords_of (4 * v + 17) -> cell (function_grid v) x y = true.
Proof.
  intros Hv Hc. destruct (patterns_spec v Hv) as (Hin & <- & _). apply format_in_pattern in Hc.
  rewrite (marks_cell (4 * v + 17)); [|apply blank_square; lia|done|].
  - rewrite (bool_decide_eq_true_2 _ Hc). apply orb_true_r.
  - unfold points_in in Hin. rewrite Forall_forall in Hin. exact (Hin _ Hc).
Qed.
Lemma format_inside v d : 1 <= v <= 40 -> points_in (4 * v + 17) (coords (format_points (4 * v + 17) d)).
Proof.
  intros Hv. rewrite (format_coords _ d 0). destruct (patterns_spec v Hv) as (Hin & _). unfold points_in in *.
  rewrite Forall_forall in *. intros c Hc. by apply Hin, format_in_pattern.
Qed.

Lemma drawFormatBits_spec qr mask : patterned qr -> 0 <= mask <= 7 ->
  let ps := format_points (size qr) (format_data (errorCorrectionLevel qr) mask) in
  drawFormatBits qr mask = inr (set_modules (put_bits (modules qr) ps) qr) /\
  patterned (set_modules (put_bits (modules qr) ps) qr).
Proof.
  intros (Hwf & He & Hf) Hm ps. pose proof Hwf as (Hs & Hv & Hsq & Hsqf).
  rewrite (drawFormatBits_points (version qr) (errorCorrectionLevel qr) He mask Hm) by done.
  rewrite <- Hs. fold ps.
  assert (Hin : points_in (size qr) (coords ps)) by (unfold ps; rewrite Hs; by apply format_inside).
  destruct (draw_points_spec ps qr Hwf Hin) as (-> & H1 & H2). rewrite put_points_bits in *.
  assert (Hmark : foldl mark (isFunction qr) (coords ps) = isFunction qr).
  { apply (grid_ext (size qr)); [done..|]. intros x y Hxy. rewrite (marks_cell (size qr)) by done.
    destruct (bool_decide ((x, y) ∈ coords ps)) eqn:Ed; [|apply orb_false_r].
    apply bool_decide_eq_true in Ed. rewrite Hf, function_cell; [done|done|]. rewrite <- Hs. exact Ed. }
  rewrite Hmark. split; [by destruct qr|]. split_and!; try done.
Qed.
Lemma applyMask_patterned qr mask : patterned qr -> 0 <= mask <= 7 ->
  exists m, applyMask qr mask = inr (set_modules m qr) /\ patterned (set_modules m qr) /\
    forall x y, inside (size qr) x y -> cell m x y = masked (isFunction qr) (modules qr) mask x y.
Proof.
  intros (Hwf & He & Hf) Hm. destruct (applyMask_spec qr mask Hwf Hm) as (m & E & Hsq & Hc).
  exists m. split_and!; [done| |done]. destruct Hwf as (Hs & Hv & _ & Hsf). done.
Qed.

(** ** The choice *)

(** The symbol with the format information of a mask and the mask applied. *)
Definition masked_symbol (qr : QrCode) (mask : Z) : exc QrCode := qr ← drawFormatBits qr mask; applyMask qr mask.

(** Two symbols that differ in nothing but the format information. *)
Definition same_but_format (qr0 qr : QrCode) : Prop :=
  patterned qr /\ set_modules (modules qr0) qr = qr0 /\
  forall x y, inside (size qr0) x y -> (x, y) ∉ format_coords_of (size qr0) -> cell (modules qr) x y = cell (modules qr0) x y.

Lemma same_but_format_refl qr : patterned qr -> same_but_format qr qr.
Proof. intros H. split_and!; [done|by destruct qr|done]. Qed.
Lemma same_draw qr0 qr mask : patterned qr0 -> same_but_format qr0 qr -> 0 <= mask <= 7 ->
  drawFormatBits qr mask = drawFormatBits qr0 mask.
Proof.
  intros H0 (H & Heq & Hc) Hm.
  destruct (drawFormatBits_spec qr0 mask H0 Hm) as [-> _], (drawFormatBits_spec qr mask H Hm) as [-> _].
  rewrite <- Heq at 1 2 3 4. cbn [size errorCorrectionLevel set_modules modules].
  assert (Hs : size qr = size qr0) by (rewrite <- Heq; done). f_equal.
  transitivity (set_modules (put_bits (modules qr0) (format_points (size qr) (format_data (errorCorrectionLevel qr) mask))) qr);
    [|by rewrite <- Heq at 2]. f_equal.
  destruct H as ((Hsz & Hv & Hsq & _) & _). destruct H0 as ((_ & _ & Hsq0 & _) & _). rewrite <- Hs in Hsq0.
  apply (put_bits_ext (size qr)); [done..| |].
  - rewrite Hsz. by apply format_inside.
  - intros x y Hxy Hni. apply Hc; rewrite <- Hs; [done|]. exact Hni.
Qed.

Lemma masked_symbol_spec qr mask : patterned qr -> 0 <= mask <= 7 ->
  exists q, masked_symbol qr mask = inr q /\ patterned q /\ set_modules (modules qr) q = qr /\
    exists p, getPenaltyScore q = inr p /\ 0 <= p < INT32_MAX.
Proof.
  intros H Hm. unfold masked_symbol. destruct (drawFormatBits_spec qr mask H Hm) as [-> Hd]. cbn [mbind exc_bind].
  destruct (applyMask_patterned _ mask Hd Hm) as (m & E & Hp & _). eexists. split_and!; [exact E|exact Hp|by destruct qr|].
  apply getPenaltyScore_total, Hp.
Qed.

(** One round of the search: the symbol is as before but for its format bits. *)
Lemma try_mask_spec qr0 qr mask minP i : patterned qr0 -> same_but_format qr0 qr -> 0 <= i <= 7 ->
  exists qr' q p, try_mask (qr, mask, minP) i = inr (qr', (if p <? minP then i else mask), (if p <? minP then p else minP)) /\
    same_but_format qr0 qr' /\ masked_symbol qr0 i = inr q /\ getPenaltyScore q = inr p.
Proof.
  intros H0 Hs Hi. unfold try_mask. rewrite (same_draw qr0 qr i H0 Hs Hi).
  destruct (masked_symbol_spec qr0 i H0 Hi) as (q & Eq & Hq & Hm & p & Ep & _).
  pose proof Eq as Eq'. unfold masked_symbol in Eq'. destruct (drawFormatBits_spec qr0 i H0 Hi) as [Ed Hd].
  set (ps := format_points (size qr0) (format_data (errorCorrectionLevel qr0) i)) in *.
  set (d := set_modules (put_bits (modules qr0) ps) qr0) in *. rewrite Ed in *. cbn [mbind exc_bind] in *.
  rewrite Eq'. cbn [mbind exc_bind]. rewrite Ep. cbn [mbind exc_bind].
  destruct (applyMask_patterned d i Hd Hi) as (m1 & E1 & P1 & C1). rewrite E1 in Eq'. injection Eq' as <-.
  destruct (applyMask_patterned _ i P1 Hi) as (m2 & E2 & P2 & C2). cbn [set_modules] in *.
  exists (set_modules m2 (set_modules m1 d)), (set_modules m1 d), p. split_and!; [|..|done|done].
  - destruct (p <? minP); rewrite E2; done.
  - split_and!; [exact P2|by unfold d; destruct qr0|]. cbn [modules set_modules]. intros x y Hxy Hni.
    rewrite C2 by exact Hxy. rewrite (masked_twice _ (modules d)) by (apply C1, Hxy).
    cbn [modules set_modules d]. destruct H0 as ((Hsz & Hv & Hsq & _) & _).
    apply (put_bits_other (size qr0)); [done| |done|exact Hni].
    unfold ps. rewrite Hsz. by apply format_inside.
Qed.

(** The mask asked for, or the one with the least penalty: the first of them. *)
Definition chosen (qr : QrCode) (mask : Z) (q : QrCode) (k : Z) : Prop :=
  0 <= k <= 7 /\ masked_symbol qr k = inr q /\
  (mask <> -1 -> k = mask) /\
  (mask = -1 -> forall p, getPenaltyScore q = inr p -> forall j qj pj, 0 <= j <= 7 ->
     masked_symbol qr j = inr qj -> getPenaltyScore qj = inr pj -> p <= pj /\ (j < k -> p < pj)).

Lemma search_spec qr : patterned qr ->
  exists qr' k minP, exc_fold try_mask (qr, -1, INT32_MAX) (range 0 8) = inr (qr', k, minP) /\ same_but_format qr qr' /\
    0 <= k <= 7 /\ exists q, masked_symbol qr k = inr q /\ getPenaltyScore q = inr minP /\
      forall j qj pj, 0 <= j <= 7 -> masked_symbol qr j = inr qj -> getPenaltyScore qj = inr pj -> minP <= pj /\ (j < k -> minP < pj).
Proof.
  intros H0.
  destruct (exc_fold_inv try_mask (fun pre st => let '(q1, k, minP) := st in same_but_format qr q1 /\
      (pre = [] /\ minP = INT32_MAX \/
       0 <= k < Z.of_nat (length pre) /\ exists q, masked_symbol qr k = inr q /\ getPenaltyScore q = inr minP /\
        forall j qj pj, 0 <= j < Z.of_nat (length pre) -> masked_symbol qr j = inr qj -> getPenaltyScore qj = inr pj ->
          minP <= pj /\ (j < k -> minP < pj)))
    (range 0 (Z.of_nat 8)) (qr, -1, INT32_MAX)) as ([[q1 k] minP] & E & Hsame & Hk).
  - split; [by apply same_but_format_refl|by left].
  - intros pre i todo [[q1 k] minP] Hr [Hsame Hk]. destruct (range_split _ _ _ _ Hr) as [-> Hlt].
    destruct (try_mask_spec qr q1 k minP (Z.of_nat (length pre)) H0 Hsame) as (q2 & q & p & E & Hs2 & Eq & Ep); [lia|].
    eexists. split; [exact E|]. split; [done|]. right. rewrite length_app. cbn [length].
    destruct (masked_symbol_spec qr (Z.of_nat (length pre)) H0) as (q' & Eq' & _ & _ & p' & Ep' & Hp'); [lia|].
    assert (q' = q) as -> by congruence. assert (p' = p) as -> by congruence.
    destruct (Z.ltb_spec p minP) as [Hp|Hp].
    + split; [lia|]. exists q. split_and!; [done|done|]. intros j qj pj Hj Ej Epj.
      destruct (decide (j = Z.of_nat (length pre))) as [->|Hne].
      { assert (qj = q) as -> by congruence. assert (pj = p) as -> by congruence. lia. }
      destruct Hk as [[-> _]|(Hk & q0 & _ & _ & Hmin)]; [cbn in *; lia|].
      destruct (Hmin j qj pj) as [? _]; [lia|done|done|]. lia.
    + destruct Hk as [[-> ->]|(Hk & q0 & E0 & Ep0 & Hmin)]; [lia|]. split; [lia|]. exists q0. split_and!; [done|done|].
      intros j qj pj Hj Ej Epj. destruct (decide (j = Z.of_nat (length pre))) as [->|Hne].
      { assert (qj = q) as -> by congruence. assert (pj = p) as -> by congruence. lia. }
      apply (Hmin j qj pj); [lia|done|done].
  - change (range 0 (Z.of_nat 8)) with (range 0 8) in *. rewrite length_range in Hk.
    exists q1, k, minP. split_and!; [done|done|destruct Hk as [[? _]|[? _]]; [done|lia]..|].
    destruct Hk as [[? _]|(Hk & q & E1 & E2 & Hmin)]; [done|]. exists q. split_and!; [done|done|].
    intros j qj pj Hj. apply Hmin. lia.
Qed.

Lemma handleConstructorMasking_spec qr mask : patterned qr -> -1 <= mask <= 7 ->
  exists q k, handleConstructorMasking qr mask = inr (q, k) /\ chosen qr mask q k /\ patterned q.
Proof.
  intros H0 Hm. unfold handleConstructorMasking. destruct (Z.eqb_spec mask (-1)) as [->|Hne].
  - destruct (search_spec qr H0) as (q1 & k & minP & E & Hsame & Hk & q & Eq & Ep & Hmin).
    rewrite E. cbn [mbind exc_bind mret exc_ret]. destruct (Z.ltb_spec k 0), (Z.ltb_spec 7 k); [lia..|].
    cbn [orb throw_if mbind exc_bind mret exc_ret]. rewrite (same_draw qr q1 k H0 Hsame Hk).
    destruct (masked_symbol_spec qr k H0 Hk) as (q' & Eq' & Hq & _). assert (q' = q) as -> by congruence.
    exists q, k. pose proof Eq as Eq2. unfold masked_symbol in Eq2. apply exc_bind_inv in Eq2 as (d & -> & Ed).
    cbn [mbind exc_bind]. rewrite Ed. split_and!; [done| |done]. split_and!; [lia|lia|done|lia|].
    intros _ p Ep2 j qj pj Hj Ej Epj. assert (p = minP) as -> by congruence. by apply (Hmin j qj pj).
  - cbn [mbind exc_bind mret exc_ret]. destruct (Z.ltb_spec mask 0), (Z.ltb_spec 7 mask); [lia..|].
    cbn [orb throw_if mbind exc_bind mret exc_ret].
    destruct (masked_symbol_spec qr mask H0) as (q & Eq & Hq & _); [lia|].
    exists q, mask. pose proof Eq as Eq2. unfold masked_symbol in Eq2. apply exc_bind_inv in Eq2 as (d & -> & Ed).
    cbn [mbind exc_bind]. rewrite Ed. split_and!; [done| |done]. split_and!; [lia|lia|done|done|done].
Qed.
