(* ===== verification/QrCodeFacts.v ===== *)
(** Every symbol the encoder makes reads back as its text. *)
From S2P Require Import Prelude CText Exc QrBits QrCode QrBitsFacts QrRead QrSegFacts QrStreamFacts QrBlocksFacts QrDrawFacts QrGridFacts QrMaskFacts.
Local Open Scope list_scope.
Local Open Scope Z_scope.

(** ** The format information *)

(** The points of the first copy, and those drawn after it. *)
Definition first_copy (n data : Z) : list point := take 15 (format_points n data).
Definition second_copy (n data : Z) : list point := drop 15 (format_points n data).

Lemma first_copy_coords n data : coords (first_copy n data) = reverse format_path.
Proof. reflexivity. Qed.
Lemma first_copy_bits n data : (first_copy n data).*2 = reverse (bit_of data <$> reverse (range 0 15)).
Proof. reflexivity. Qed.
Lemma second_copy_away n data c : 21 <= n -> c ∈ coords (second_copy n data) -> c ∉ reverse format_path.
Proof.
  intros Hn Hc Hf. assert (H : 13 <= c.1 \/ 13 <= c.2).
  { assert (Hall : Forall (fun c => 13 <= c.1 \/ 13 <= c.2) (coords (second_copy n data))).
    { cbn. repeat (constructor; [cbn; lia|]). constructor. }
    rewrite Forall_forall in Hall. by apply Hall. }
  assert (Hsm : Forall (fun c => c.1 <= 8 /\ c.2 <= 8) (reverse format_path)).
  { cbn. repeat (constructor; [cbn; lia|]). constructor. }
  rewrite Forall_forall in Hsm. specialize (Hsm c Hf). lia.
Qed.

Lemma format_cells n g data : square n g -> 21 <= n -> points_in n (coords (format_points n data)) ->
  (fun p => cell (put_bits g (format_points n data)) p.1 p.2) <$> format_path = be_bits 15 data.
Proof.
  intros Hg Hn Hin.
  assert (Hsplit : format_points n data = first_copy n data ++ second_copy n data) by (symmetry; apply take_drop).
  assert (Hin12 : points_in n (coords (first_copy n data)) /\ points_in n (coords (second_copy n data))).
  { unfold points_in, coords in *. rewrite Hsplit, fmap_app in Hin. by apply Forall_app in Hin. }
  destruct Hin12 as [Hin1 Hin2].
  assert (Hzip : first_copy n data = zip (coords (first_copy n data)) (first_copy n data).*2) by (symmetry; apply zip_fst_snd).
  pose proof (put_bits_read n g (coords (first_copy n data)) (first_copy n data).*2 Hg Hin1) as Hread.
  rewrite <- Hzip in Hread.
  assert (Hlen : length (coords (first_copy n data)) = 15%nat) by reflexivity.
  assert (Hlen2 : length (first_copy n data).*2 = 15%nat) by reflexivity.
  rewrite take_ge in Hread by (rewrite length_fmap, Hlen, Hlen2; lia).
  assert (Hcells : (fun p => cell (put_bits g (format_points n data)) p.1 p.2) <$> reverse format_path = (first_copy n data).*2).
  { rewrite <- Hread; [|rewrite first_copy_coords; apply (bool_decide_unpack _); by vm_compute|lia].
    rewrite first_copy_coords. apply list_fmap_ext. intros i p Hp. apply list_elem_of_lookup_2 in Hp.
    rewrite Hsplit. unfold put_bits at 1. rewrite foldl_app. fold (put_bits g (first_copy n data)).
    change (foldl _ ?g0 (second_copy n data)) with (put_bits g0 (second_copy n data)).
    apply (put_bits_other n); [by apply put_bits_square|exact Hin2| |].
    - unfold points_in in Hin1. rewrite Forall_forall in Hin1. apply Hin1. by rewrite first_copy_coords.
    - intros Hc. apply (second_copy_away n data (p.1, p.2) Hn Hc). by destruct p. }
  apply (inj reverse). rewrite <- fmap_reverse, Hcells, first_copy_bits. f_equal.
  change (reverse (range 0 15)) with [14; 13; 12; 11; 10; 9; 8; 7; 6; 5; 4; 3; 2; 1; 0].
  cbn [fmap list_fmap]. rewrite !bit_of_testbit by lia. reflexivity.
Qed.

(** The format information of every level and mask is decoded. *)
Definition format_decodes (e : Ecc) (mask : Z) : bool :=
  let w := format_data e mask in
  let data := Z.shiftr (Z.lxor w 21522) 10 in
  (0 <=? w) && (w <? 2 ^ 15) && (data mod 8 =? mask) && (ordinal (level_of (data / 8)) =? ordinal e) &&
  (formatBits (level_of (data / 8)) =? formatBits e).
Lemma format_decodes_all : forallb (fun e => forallb (format_decodes e) (range 0 8)) levels = true.
Proof. vm_compute. reflexivity. Qed.

Lemma read_format_spec g e mask : e ∈ levels -> 0 <= mask <= 7 ->
  (fun p => cell g p.1 p.2) <$> format_path = be_bits 15 (format_data e mask) ->
  exists indicator, read_format g = (indicator, mask) /\ level_of indicator = e.
Proof.
  intros He Hm Hbits. pose proof format_decodes_all as H. rewrite forallb_forall in H.
  specialize (H e (proj1 (list_elem_of_In _ _) He)). rewrite forallb_forall in H.
  specialize (H mask). rewrite <- list_elem_of_In, elem_of_range in H. specialize (H ltac:(lia)).
  unfold format_decodes in H. cbv zeta in H. bool_to_prop.
  unfold read_format. rewrite Hbits, value_be_bits_small by (change (2 ^ Z.of_nat 15) with (2 ^ 15); lia).
  eexists. split; [f_equal; assumption|].
  destruct (level_of _) as [o b] eqn:El, e as [o' b']. cbn in *. by subst.
Qed.

(** ** The codewords *)

Lemma bytes_of_bits data rest : Forall is_byte data -> bytes_of (length data) (all_bits data ++ rest) = data.
Proof.
  induction 1 as [|b data Hb Hd IH]; [done|]. cbn [length bytes_of]. rewrite all_bits_cons, <- app_assoc.
  rewrite take_app_length', drop_app_length' by (by rewrite length_be_bits). by rewrite IH, value_be_bits_small.
Qed.

(** ** The constructor *)

(** See [newQrCode_read] below. *)
Lemma newQrCode_run v e data mask p : 1 <= v <= 40 -> e ∈ levels -> -1 <= mask <= 7 ->
  params_of v e = inr p -> Forall is_byte data -> getNumDataCodewords v e = inr (zlen data) ->
  exists q indicator, newQrCode v e data mask = inr q /\ size q = 4 * v + 17 /\ square (4 * v + 17) (modules q) /\
    read_format (modules q) = (indicator, getMask q) /\ level_of indicator = e /\
    data_codewords (layout_of p) (read_codewords (modules q) v (getMask q)) = data /\
    exists drawn q0, chosen drawn mask q0 (getMask q) /\ modules q0 = modules q.
Proof.
  intros Hv He Hmask Hp Hdata Hlen.
  unfold newQrCode. destruct (Z.leb_spec 1 v), (Z.leb_spec v 40); [|lia..]. cbn [andb].
  destruct (Z.ltb_spec v 1), (Z.ltb_spec 40 v), (Z.ltb_spec mask (-1)), (Z.ltb_spec 7 mask); try lia.
  cbn [orb throw_if mbind exc_bind mret exc_ret]. replace (v * 4 + 17) with (4 * v + 17) by lia.
  change (mkQrCode v (4 * v + 17) e 0 (white (4 * v + 17)) (white (4 * v + 17))) with (new_symbol v e).
  destruct (drawFunctionPatterns_spec v e Hv He) as (m0 & -> & Hm0 & Hf). cbn [mbind exc_bind].
  set (q0 := set_grids m0 (function_grid v) (new_symbol v e)).
  assert (Hq0 : patterned q0) by (split_and!; done).
  destruct (appendErrorCorrection_run v e data p Hv He Hp Hdata Hlen) as (cw & -> & Hcwl & Hcwb & Hcwd & _).
  cbn [mbind exc_bind].
  assert (Hraw : p_raw p = Z.of_nat (length (data_modules v))).
  { destruct (params_of_inv v e p Hp) as (Er & _). rewrite data_modules_length in Er by done. by injection Er. }
  rewrite (drawCodewords_spec q0 cw) by (try apply Hq0; cbn [version q0 set_grids new_symbol]; by rewrite Hcwl, Hraw).
  cbn [mbind exc_bind version modules q0 set_grids new_symbol].
  set (q1 := set_modules (put_bits m0 (zip (data_modules v) (all_bits cw))) q0).
  assert (Hq1 : patterned q1) by (apply patterned_modules; [done|by apply put_bits_square]).
  destruct (handleConstructorMasking_spec q1 mask Hq1 Hmask) as (q2 & k & E & Hch & Hq2). fold q1. rewrite E.
  cbn [mbind exc_bind mret exc_ret].
  pose proof Hch as (Hk & Hms & _). unfold masked_symbol in Hms.
  destruct (drawFormatBits_spec q1 k Hq1 Hk) as [Ed Hd]. rewrite Ed in Hms. cbn [mbind exc_bind] in Hms.
  destruct (applyMask_patterned _ k Hd Hk) as (m2 & E2 & _ & Hc2). rewrite E2 in Hms. injection Hms as <-.
  cbn [set_modules modules isFunction size q1 q0 set_grids new_symbol errorCorrectionLevel] in *.
  set (md := put_bits (put_bits m0 (zip (data_modules v) (all_bits cw))) (format_points (4 * v + 17) (format_data e k))) in *.
  assert (Hfin : points_in (4 * v + 17) (coords (format_points (4 * v + 17) (format_data e k)))) by (by apply format_inside).
  assert (Hsq1 : square (4 * v + 17) (put_bits m0 (zip (data_modules v) (all_bits cw)))) by (by apply put_bits_square).
  assert (Hsqm2 : square (4 * v + 17) m2) by apply Hq2.
  destruct (read_format_spec m2 e k He Hk) as (ind & Er & El).
  { rewrite <- (format_cells (4 * v + 17) _ (format_data e k) Hsq1) by (done || lia). fold md.
    apply list_fmap_ext. intros i c Hci. apply list_elem_of_lookup_2 in Hci.
    assert (Hcf : c ∈ coords (format_points (4 * v + 17) (format_data e k))).
    { rewrite <- (take_drop 15 (format_points (4 * v + 17) (format_data e k))). unfold coords. rewrite fmap_app, elem_of_app. left.
      change (c ∈ coords (first_copy (4 * v + 17) (format_data e k))). by rewrite first_copy_coords, elem_of_reverse. }
    assert (Hin : inside (4 * v + 17) c.1 c.2) by (unfold points_in in Hfin; rewrite Forall_forall in Hfin; by apply Hfin).
    rewrite Hc2 by done. unfold masked. rewrite function_cell; [by rewrite andb_false_r, xorb_false_r|done|].
    destruct c. exact Hcf. }
  exists (set_qr_mask k (set_modules m2 (set_modules md q1))), ind. cbn [modules getMask set_qr_mask set_modules qr_mask].
  split_and!; [done|done|apply Hsqm2|done|done| |].
  - transitivity (data_codewords (layout_of p) cw); [|exact Hcwd]. f_equal. unfold read_codewords.
    assert (Hbits : (fun c => xorb (cell m2 c.1 c.2) (mask_at k c.2 c.1)) <$> data_modules v
                  = (fun c => cell (put_bits m0 (zip (data_modules v) (all_bits cw))) c.1 c.2) <$> data_modules v).
    { apply list_fmap_ext. intros i c Hci. apply list_elem_of_lookup_2 in Hci.
      pose proof (data_modules_inside v ltac:(lia)) as Hdin. unfold points_in in Hdin. rewrite Forall_forall in Hdin.
      specialize (Hdin c Hci). cbn in Hdin. unfold data_modules in Hci. apply list_elem_of_filter in Hci as [Hfc _].
      rewrite Hc2 by done. unfold masked. rewrite Hfc. cbn [negb]. rewrite andb_true_r, xorb_assoc, xorb_nilpotent, xorb_false_r.
      apply (put_bits_other (4 * v + 17)); [done|exact Hfin|done|]. intros Hcf.
      rewrite function_cell in Hfc; [done|done|exact Hcf]. }
    rewrite Hbits. clear Hbits.
    assert (Hle : (length (all_bits cw) <= length (data_modules v))%nat).
    { rewrite length_all_bits. unfold zlen in Hcwl. rewrite Hraw in Hcwl.
      pose proof (Z.div_mod (Z.of_nat (length (data_modules v))) 8 ltac:(lia)).
      pose proof (Z.mod_pos_bound (Z.of_nat (length (data_modules v))) 8 ltac:(lia)). lia. }
    pose proof (put_bits_read (4 * v + 17) m0 (data_modules v) (all_bits cw) Hm0 (data_modules_inside v ltac:(lia))
      (data_modules_NoDup v ltac:(lia)) Hle) as Hread.
    set (bits := (fun c => _) <$> data_modules v) in *.
    assert (Hn : (length bits / 8)%nat = length cw).
    { unfold bits. rewrite length_fmap. unfold zlen in Hcwl. rewrite Hraw in Hcwl.
      change 8 with (Z.of_nat 8) in Hcwl. rewrite <- Nat2Z.inj_div in Hcwl. lia. }
    rewrite Hn, <- (take_drop (length (all_bits cw)) bits), Hread. by apply bytes_of_bits.
  - exists q1, (set_modules m2 (set_modules md q1)). done.
Qed.

(** ** Texts *)

(** The capacity of the largest symbol at the lowest level. *)
Definition LARGEST_TEXT : Z := 2953.

Lemma short_text_fits text seg bs : carries seg bs (String.list_ascii_of_string text) ->
  (length bs <= 8 * String.length text)%nat -> Z.of_nat (String.length text) <= LARGEST_TEXT ->
  Forall (count_fits 40) [(seg, bs, String.list_ascii_of_string text)] /\ fits 40 LOW [(seg, bs, String.list_ascii_of_string text)].
Proof.
  unfold LARGEST_TEXT. intros (Hm & Hn & _) Hl Hlen. split.
  - apply Forall_singleton. unfold count_fits. cbn [fst]. rewrite Hn. unfold zlen. rewrite length_list_ascii.
    assert (Hp : 2 ^ 13 <= 2 ^ Z.of_nat (count_width (seg_mode seg) 40)).
    { apply Z.pow_le_mono_r; [lia|]. destruct Hm as [->|[->| ->]]; cbn; lia. }
    change (2 ^ 13) with 8192 in Hp. lia.
  - exists 2956. split; [by vm_compute|]. unfold stream. cbn [mbind list_bind]. rewrite app_nil_r.
    unfold stream_of. rewrite !length_app, !length_be_bits. pose proof (count_width_16 (seg_mode seg) 40). lia.
Qed.

(** See [encodeText_read] below. *)
Lemma encodeText_run text e : e ∈ levels -> Z.of_nat (String.length text) < 2 ^ 28 ->
  match encodeText text e with
  | inr q => square (size q) (modules q) /\ 21 <= size q <= 177 /\ read_symbol (modules q) = Some text
  | inl err => err = "Data too long"%string /\ ~ (e = LOW /\ Z.of_nat (String.length text) <= LARGEST_TEXT)
  end.
Proof.
  intros He Hlen.
  assert (Hsegs : exists segs, makeSegments text = inr (segments segs) /\ Forall carried segs /\
    segs ≫= (fun t => t.2) = String.list_ascii_of_string text /\
    (Z.of_nat (String.length text) <= LARGEST_TEXT -> Forall (count_fits 40) segs /\ fits 40 LOW segs)).
  { destruct (makeSegments_spec text Hlen) as [[-> ->]|(seg & -> & Hseg)].
    - exists []. split_and!; [done|constructor|done|]. intros _. split; [constructor|]. exists 2956. split; [by vm_compute|]. cbn. lia.
    - destruct (segment_carries _ _ Hseg) as (bs & Hc & Hb). exists [(seg, bs, String.list_ascii_of_string text)].
      rewrite length_list_ascii in Hb. split_and!; [done|by apply Forall_singleton|cbn; by rewrite app_nil_r|].
      by apply short_text_fits. }
  destruct Hsegs as (segs & Es & Hc & Hcs & Hfit). unfold encodeText. rewrite Es. cbn [mbind exc_bind]. unfold encodeSegments.
  destruct (encode_codewords_read segs e 1 40 (-1) true Hc He) as [[-> Hno]|(v & e' & bytes & -> & Hv & He' & Hb & Hn & Hread)];
    [lia|lia|lia| |]; cbn [mbind exc_bind].
  - split; [done|]. intros [-> Hs]. by apply Hno, Hfit.
  - destruct (params_of_ok v e' Hv He') as (p & Hp & _).
    destruct (newQrCode_run v e' bytes (-1) p Hv He' ltac:(lia) Hp Hb Hn) as (q & ind & -> & Hs & Hz & Hfm & Hl & Hd & _).
    rewrite Hs. split; [done|]. split; [lia|]. unfold read_symbol. rewrite (proj1 Hz). replace ((4 * v + 17 - 17) / 4) with v by (apply (Z.div_unique _ _ _ 0); lia).
    rewrite Hfm, Hl, Hp, Hd. unfold read_text. rewrite Hread, Hcs. cbn. by rewrite String.string_of_list_ascii_of_string.
Qed.

(** C7. The encoder as a whole: a text at any level either gives a symbol whose
    modules, read by the rules of the standard without knowing anything else, are
    the text; or it is refused as too long, which never happens at the lowest level
    up to 2953 characters.  No other exception is possible. *)
Theorem encodeText_read text e (He : e ∈ levels) (Hlen : Z.of_nat (String.length text) < 2 ^ 28) :
  match encodeText text e with
  | inr q => read_symbol (modules q) = Some text
  | inl err => err = "Data too long"%string /\ ~ (e = LOW /\ Z.of_nat (String.length text) <= LARGEST_TEXT)
  end.
Proof.
  pose proof (encodeText_run text e He Hlen) as H. destruct (encodeText text e); [done|]. by destruct H as (_ & _ & H).
Qed.

(** C18. A symbol: for every version, level, mask (or the automatic choice) and as
    many data bytes as version and level hold, the constructor fails no assertion
    and leaves no grid; the symbol it makes has the size of the version, and reading
    its modules alone, by the standard's rules, gives back the level, the mask and
    the data.  The automatic mask is the first of those with the least penalty. *)
Theorem newQrCode_read v e data mask p (Hv : 1 <= v <= 40) (He : e ∈ levels) (Hmask : -1 <= mask <= 7)
    (Hp : params_of v e = inr p) (Hdata : Forall is_byte data) (Hlen : getNumDataCodewords v e = inr (zlen data)) :
  exists q indicator, newQrCode v e data mask = inr q /\ size q = 4 * v + 17 /\ square (4 * v + 17) (modules q) /\
    read_format (modules q) = (indicator, getMask q) /\ level_of indicator = e /\
    data_codewords (layout_of p) (read_codewords (modules q) v (getMask q)) = data /\
    exists drawn q0, chosen drawn mask q0 (getMask q) /\ modules q0 = modules q.
Proof. exact (newQrCode_run v e data mask p Hv He Hmask Hp Hdata Hlen). Qed.
