(* ===== verification/QrPrint.v ===== *)
(** Pictures of a symbol: [toSvgString] of src/recovery/libs/QRCode/QrCode.cpp and
    [Utility::printQrCode] of src/recovery/Utility.cpp, which shows the address of
    the server on the console.  What is written to a stream is a [string]. *)
From S2P Require Import Prelude CText Exc QrBits ReedSolomon ReedSolomonFacts QrCode QrBitsFacts QrRead QrStreamFacts QrBlocksFacts QrDrawFacts QrMaskFacts QrCodeFacts.
Local Open Scope list_scope.
Local Open Scope Z_scope.

(** ** The SVG file *)

(** [name=, a quote, value, a quote] of an XML attribute. *)
Definition attribute (name value : string) : string := name +:+ "=" +:+ str1 quote +:+ value +:+ str1 quote.
Definition svg_number (z : Z) : string := fmt_d z.

Definition svg_head (side : Z) : string :=
  "<?xml " +:+ attribute "version" "1.0" +:+ " " +:+ attribute "encoding" "UTF-8" +:+ "?>" +:+ NL +:+
  "<!DOCTYPE svg PUBLIC " +:+ str1 quote +:+ "-//W3C//DTD SVG 1.1//EN" +:+ str1 quote +:+ " " +:+
  str1 quote +:+ "http://www.w3.org/Graphics/SVG/1.1/DTD/svg11.dtd" +:+ str1 quote +:+ ">" +:+ NL +:+
  "<svg " +:+ attribute "xmlns" "http://www.w3.org/2000/svg" +:+ " " +:+ attribute "version" "1.1" +:+ " " +:+
  attribute "viewBox" ("0 0 " +:+ svg_number side +:+ " " +:+ svg_number side) +:+ ">" +:+ NL +:+
  str1 (chr 9) +:+ "<rect " +:+ attribute "width" "100%" +:+ " " +:+ attribute "height" "100%" +:+ " " +:+
  attribute "fill" "#FFFFFF" +:+ " " +:+ attribute "stroke-width" "0" +:+ "/>" +:+ NL +:+
  str1 (chr 9) +:+ "<path d=" +:+ str1 quote.
Definition svg_tail : string :=
  str1 quote +:+ " " +:+ attribute "fill" "#000000" +:+ " " +:+ attribute "stroke-width" "0" +:+ "/>" +:+ NL +:+
  "</svg>" +:+ NL.

(** The body of the two loops; the state is [head] and the stream. *)
Definition svg_step (qr : QrCode) (border y : Z) (st : bool * string) (x : Z) : exc (bool * string) :=
  let '(head, sb) := st in
  m ← getModule qr x y;
  if m =? 1 then
    let sb := if (head : bool) then sb else sb +:+ " " in
    mret (false, sb +:+ "M" +:+ svg_number (x + border) +:+ "," +:+ svg_number (y + border) +:+ "h1v1h-1z")
  else mret (head, sb).
Definition toSvgString (qr : QrCode) (border : Z) : exc string :=
  throw_if (border <? 0) "Border must be non-negative";;
  '(_, sb) ← exc_fold (fun st y => exc_fold (svg_step qr border y) st (range (- border) (size qr + border)))
    (true, svg_head (size qr + border * 2)) (range (- border) (size qr + border));
  mret (sb +:+ svg_tail).

(** ** The console *)

(** U+2588 twice, in UTF-8, and two blanks. *)
Definition FULL_BLOCK : string := str1 (chr 226) +:+ str1 (chr 150) +:+ str1 (chr 136).
Definition BLACK : string := FULL_BLOCK +:+ FULL_BLOCK.
Definition WHITE : string := "  ".

Definition print_module (qr : QrCode) (y : Z) (out : string) (x : Z) : exc string :=
  m ← getModule qr x y; mret (out +:+ (if m =? 1 then BLACK else WHITE)).
Definition print_row (qr : QrCode) (border : Z) (out : string) (y : Z) : exc string :=
  out ← exc_fold (print_module qr y) out (range (- border) (size qr + border)); mret (out +:+ NL).
Definition printQrCode (qr : QrCode) : exc string :=
  let border := 4 in
  exc_fold (print_row qr border) EmptyString (range (- border) (size qr + border)).

(** ** Reading the console *)

(** The modules a camera sees, line by line: two columns are a module. *)
Fixpoint see (fuel : nat) (out : string) (row : list bool) : option (list (list bool)) :=
  match fuel with
  | O => None
  | S fuel =>
      match strip_prefix BLACK out, strip_prefix WHITE out, strip_prefix NL out with
      | Some out, _, _ => see fuel out (row ++ [true])
      | None, Some out, _ => see fuel out (row ++ [false])
      | None, None, Some out => cons row <$> see fuel out []
      | None, None, None => match out, row with EmptyString, [] => Some [] | _, _ => None end
      end
  end.
(** A symbol stands in a quiet zone of four modules. *)
Definition without_border {A} (l : list A) : list A := take (length l - 8) (drop 4 l).
Definition read_console (out : string) : option string :=
  g ← see (S (String.length out)) out [];
  read_symbol (without_border (without_border <$> g)).

(** ** What is printed *)

Fixpoint join (l : list string) : string := match l with [] => EmptyString | s :: l => s +:+ join l end.
Definition picture_row (row : list bool) : string := join ((fun b : bool => if b then BLACK else WHITE) <$> row) +:+ NL.
Definition picture (g : list (list bool)) : string := join (picture_row <$> g).

Lemma see_cell fuel (b : bool) out acc :
  see (S fuel) ((if b then BLACK else WHITE) +:+ out) acc = see fuel out (acc ++ [b]).
Proof. by destruct b. Qed.
Lemma see_row row : forall fuel out acc, (String.length (picture_row row +:+ out) < fuel)%nat ->
  exists fuel', see fuel (picture_row row +:+ out) acc = cons (acc ++ row) <$> see fuel' out [] /\ (String.length out < fuel')%nat.
Proof.
  induction row as [|b row IH]; intros [|fuel] out acc Hf; [cbn in Hf; lia| |cbn in Hf; lia|].
  - exists fuel. cbn in Hf. rewrite app_nil_r. split; [done|lia].
  - assert (E : picture_row (b :: row) +:+ out = (if b then BLACK else WHITE) +:+ (picture_row row +:+ out))
      by (unfold picture_row; cbn [fmap list_fmap join]; by rewrite <- !app_assoc_s).
    rewrite E in Hf |- *. rewrite see_cell. destruct (IH fuel out (acc ++ [b])) as (f' & -> & H).
    { destruct b; cbn [BLACK WHITE FULL_BLOCK str1 String.append String.length] in Hf; lia. }
    exists f'. by rewrite <- app_assoc.
Qed.
Lemma see_picture g : forall fuel, (String.length (picture g) < fuel)%nat -> see fuel (picture g) [] = Some g.
Proof.
  induction g as [|row g IH]; intros fuel Hf.
  - destruct fuel; [cbn in Hf; lia|done].
  - unfold picture in *. cbn [fmap list_fmap join] in *. destruct (see_row row fuel (join (picture_row <$> g)) [] Hf) as (f' & -> & H).
    by rewrite IH.
Qed.

(** A loop that only writes writes what its rounds write, in order. *)
Lemma exc_fold_writes {A} (f : string -> A -> exc string) (g : A -> string) l s :
  (forall a s, a ∈ l -> f s a = inr (s +:+ g a)) -> exc_fold f s l = inr (s +:+ join (g <$> l)).
Proof.
  revert s. induction l as [|a l IH]; intros s Hf; cbn; [by rewrite app_nil_s|].
  rewrite Hf by left. cbn [mbind exc_bind]. rewrite IH by (intros; apply Hf; by right). by rewrite app_assoc_s.
Qed.

(** The module at a point, white outside. *)
Definition seen (qr : QrCode) (x y : Z) : bool := bool_decide (inside (size qr) x y) && cell (modules qr) x y.
Lemma getModule_seen qr x y : square (size qr) (modules qr) ->
  getModule qr x y = inr (if seen qr x y then 1 else 0).
Proof.
  intros Hg. unfold getModule, seen. destruct (bool_decide_reflect (inside (size qr) x y)) as [Hin|Hout].
  - rewrite (grid_at_inside (size qr)) by done. destruct Hin as [Hx Hy].
    destruct (Z.leb_spec 0 x), (Z.ltb_spec x (size qr)), (Z.leb_spec 0 y), (Z.ltb_spec y (size qr)); try lia. done.
  - destruct (Z.leb_spec 0 x), (Z.ltb_spec x (size qr)), (Z.leb_spec 0 y), (Z.ltb_spec y (size qr)); try done.
    exfalso. apply Hout. done.
Qed.
Definition view (qr : QrCode) (border : Z) : list (list bool) :=
  (fun y => (fun x => seen qr x y) <$> range (- border) (size qr + border)) <$> range (- border) (size qr + border).

Lemma printQrCode_picture qr : square (size qr) (modules qr) -> printQrCode qr = inr (picture (view qr 4)).
Proof.
  intros Hg. unfold printQrCode. rewrite (exc_fold_writes _ (fun y => picture_row ((fun x => seen qr x y) <$> range (- (4)) (size qr + 4)))).
  - cbn [String.append]. unfold picture, view. by rewrite <- list_fmap_compose.
  - intros y s _. unfold print_row. rewrite (exc_fold_writes _ (fun x => if seen qr x y then BLACK else WHITE)).
    + cbn [mbind exc_bind mret exc_ret]. unfold picture_row. rewrite <- app_assoc_s. by rewrite <- list_fmap_compose.
    + intros x s' _. unfold print_module. rewrite getModule_seen by done. by destruct (seen qr x y).
Qed.

Lemma without_border_range {A} (f : Z -> A) n : 0 <= n -> without_border (f <$> range (-4) (n + 4)) = f <$> range 0 n.
Proof.
  intros Hn. unfold without_border. rewrite length_fmap, length_range, <- fmap_drop, <- fmap_take. f_equal.
  do 4 (rewrite range_cons by lia). cbn [drop]. replace (-4 + 1 + 1 + 1 + 1) with 0 by lia.
  replace (n + 4) with (n + 1 + 1 + 1 + 1) by lia. do 4 (rewrite range_snoc by lia). rewrite <- !app_assoc.
  apply take_app_length'. rewrite length_range. lia.
Qed.
Lemma view_modules qr : 0 <= size qr -> square (size qr) (modules qr) ->
  without_border (without_border <$> view qr 4) = modules qr.
Proof.
  intros Hn Hg. unfold view. change (- (4)) with (-4).
  rewrite <- (list_fmap_compose _ without_border), (without_border_range _ (size qr)) by done.
  apply list_eq. intros i. rewrite list_lookup_fmap.
  destruct (decide (i < Z.to_nat (size qr - 0))%nat) as [Hi|Hi].
  2: { rewrite lookup_range_ge by lia. symmetry. apply lookup_ge_None. destruct Hg as [Hz _]. unfold zlen in Hz. lia. }
  rewrite lookup_range by lia. cbn [fmap option_fmap option_map compose]. rewrite (without_border_range _ (size qr)) by done.
  destruct (square_row (size qr) (modules qr) (0 + Z.of_nat i) Hg) as (r & E & Hr); [lia|].
  replace (Z.to_nat (0 + Z.of_nat i)) with i in E by lia. rewrite E. f_equal.
  apply list_eq. intros k. rewrite list_lookup_fmap. unfold zlen in Hr.
  destruct (decide (k < Z.to_nat (size qr - 0))%nat) as [Hk|Hk].
  2: { rewrite lookup_range_ge by lia. symmetry. apply lookup_ge_None. lia. }
  rewrite lookup_range by lia. cbn [fmap option_fmap option_map].
  destruct (lookup_lt_is_Some_2 r k) as [b Eb]; [lia|]. rewrite Eb. f_equal. unfold seen.
  rewrite bool_decide_true by (unfold inside; lia). unfold cell. cbn [andb].
  replace (Z.to_nat (0 + Z.of_nat i)) with i by lia. replace (Z.to_nat (0 + Z.of_nat k)) with k by lia.
  by rewrite (list_lookup_total_correct _ _ _ E), (list_lookup_total_correct _ _ _ Eb).
Qed.

(** C3. What the recovery system shows: for an address of at most 2953 characters
    the encoder makes a symbol, it is printed, and whoever scans the console (two
    columns are a module, four modules of quiet zone around the symbol) reads the
    address. *)
Theorem printed_address_read ip (Hlen : Z.of_nat (String.length ip) <= LARGEST_TEXT) :
  exists qr out, encodeText ip LOW = inr qr /\ printQrCode qr = inr out /\ read_console out = Some ip.
Proof.
  pose proof (encodeText_run ip LOW ltac:(left) ltac:(unfold LARGEST_TEXT in Hlen; lia)) as H.
  destruct (encodeText ip LOW) as [err|qr]; [by destruct H as [_ []]|]. destruct H as (Hsq & Hsz & Hread).
  exists qr, (picture (view qr 4)). split; [done|]. split; [by apply printQrCode_picture|].
  unfold read_console. rewrite see_picture by lia. cbn [mbind option_bind]. by rewrite view_modules by (done || lia).
Qed.

Definition hello_data : list Z := [32; 91; 11; 120; 209; 114; 220; 77; 67; 64; 236; 17; 236].
Definition hello_params : params := mkParams 208 13 1 13.

(** The level is raised to Q, the data and the error correction are the book's. *)
Example hello_codewords :
  (segs ← makeSegments "HELLO WORLD"; encode_codewords segs LOW 1 40 (-1) true) = inr (1, QUARTILE, hello_data) /\
  appendErrorCorrection 1 QUARTILE hello_data =
    inr (hello_data ++ [168; 72; 22; 82; 217; 54; 156; 0; 46; 15; 180; 122; 16]).
Proof. split; by vm_compute. Qed.

Lemma hello_bytes : Forall is_byte hello_data.
Proof. unfold hello_data. repeat constructor; cbn; lia. Qed.

Lemma appendErrorCorrection_read_witness :
  params_of 1 QUARTILE = inr hello_params /\
  exists result, appendErrorCorrection 1 QUARTILE hello_data = inr result /\ zlen result = 26.
Proof.
  split; [by vm_compute|].
  destruct (appendErrorCorrection_read 1 QUARTILE hello_data hello_params) as (r & E & Hl & _);
    [lia|unfold levels; set_solver|by vm_compute|apply hello_bytes|by vm_compute|].
  exists r. exact (conj E Hl).
Defined.

Lemma newQrCode_read_witness :
  exists q indicator, newQrCode 1 QUARTILE hello_data (-1) = inr q /\ square 21 (modules q) /\
    read_format (modules q) = (indicator, getMask q) /\ level_of indicator = QUARTILE.
Proof.
  destruct (newQrCode_read 1 QUARTILE hello_data (-1) hello_params) as (q & ind & E & _ & Hz & Hf & Hl & _);
    [lia|unfold levels; set_solver|lia|by vm_compute|apply hello_bytes|by vm_compute|].
  exists q, ind. exact (conj E (conj Hz (conj Hf Hl))).
Defined.

(** The automatic mask of the example is 6. *)
Example hello_mask : (q ← newQrCode 1 QUARTILE hello_data (-1); mret (getMask q)) = inr 6.
Proof. by vm_compute. Qed.

(** The symbol is made and read. *)
Lemma encodeText_read_witness :
  exists q, encodeText "HELLO WORLD" LOW = inr q /\ read_symbol (modules q) = Some "HELLO WORLD"%string.
Proof.
  pose proof (encodeText_read "HELLO WORLD" LOW ltac:(left) ltac:(cbn; lia)) as H.
  destruct (encodeText "HELLO WORLD" LOW) as [err|q].
  - exfalso. apply (proj2 H). split; [reflexivity|]. unfold LARGEST_TEXT. cbn. lia.
  - exists q. exact (conj eq_refl H).
Defined.

Lemma printed_address_read_witness :
  exists qr out, encodeText "192.168.178.42" LOW = inr qr /\ printQrCode qr = inr out /\
    read_console out = Some "192.168.178.42"%string.
Proof. apply (printed_address_read "192.168.178.42"). cbn. unfold LARGEST_TEXT. lia. Defined.

(** The comment of [encodeText] promises success for 738 code points at any level;
    the highest level holds 1273 bytes, and 738 code points may be 2952 bytes. *)
Example high_level_too_long :
  match encodeText (String.string_of_list_ascii (replicate 1274 (chr 226))) HIGH with
  | inl err => err = "Data too long"%string | inr _ => False
  end.
Proof. by vm_compute. Qed.
