(* ===== verification/Md5.v ===== *)
(** The cookie generator src/buildroot/package/x11r7/mcookie/mcookie.c: MD5 over
    what the machine offers as random data.  Bytes and [uint32] are [Z]; the machine
    is little-endian, where [byteReverse] is nothing, and its [long] has 32 bits. *)
From S2P Require Import Prelude CText.
Local Open Scope list_scope.
Local Open Scope Z_scope.

(** ** The core *)

Inductive md5_fun := F1 | F2 | F3 | F4.
Definition apply_F1 (x y z : Z) : Z := Z.lxor z (Z.land x (Z.lxor y z)).
Definition apply_fun (f : md5_fun) (x y z : Z) : Z :=
  match f with
  | F1 => apply_F1 x y z
  | F2 => apply_F1 z x y
  | F3 => Z.lxor (Z.lxor x y) z
  | F4 => Z.lxor y (Z.lor x (u32 (Z.lnot z)))
  end.

(** The local variables [a], [b], [c], [d]. *)
Inductive reg := Ra | Rb | Rc | Rd.
Record regs := mkRegs { ra : Z; rb : Z; rc : Z; rd : Z }.
Definition get_reg (r : reg) (s : regs) : Z :=
  match r with Ra => ra s | Rb => rb s | Rc => rc s | Rd => rd s end.
Definition set_reg (r : reg) (v : Z) (s : regs) : regs :=
  match r with
  | Ra => mkRegs v (rb s) (rc s) (rd s)
  | Rb => mkRegs (ra s) v (rc s) (rd s)
  | Rc => mkRegs (ra s) (rb s) v (rd s)
  | Rd => mkRegs (ra s) (rb s) (rc s) v
  end.

(** [MD5STEP(f, w, x, y, z, in[k] + t, s)] *)
Record md5_step := MD5STEP {
  st_f : md5_fun; st_w : reg; st_x : reg; st_y : reg; st_z : reg; st_k : Z; st_t : Z; st_s : Z }.
Definition run_step (inw : list Z) (s : regs) (st : md5_step) : regs :=
  let data := u32 (inw !!! Z.to_nat (st_k st) + st_t st) in
  let w := u32 (get_reg (st_w st) s + u32 (apply_fun (st_f st) (get_reg (st_x st) s) (get_reg (st_y st) s) (get_reg (st_z st) s) + data)) in
  let w := Z.lor (u32 (Z.shiftl w (st_s st))) (Z.shiftr w (32 - st_s st)) in
  let w := u32 (w + get_reg (st_x st) s) in
  set_reg (st_w st) w s.

Definition transform_steps : list md5_step := [
  MD5STEP F1 Ra Rb Rc Rd 0 0xd76aa478 7;
  MD5STEP F1 Rd Ra Rb Rc 1 0xe8c7b756 12;
  MD5STEP F1 Rc Rd Ra Rb 2 0x242070db 17;
  MD5STEP F1 Rb Rc Rd Ra 3 0xc1bdceee 22;
  MD5STEP F1 Ra Rb Rc Rd 4 0xf57c0faf 7;
  MD5STEP F1 Rd Ra Rb Rc 5 0x4787c62a 12;
  MD5STEP F1 Rc Rd Ra Rb 6 0xa8304613 17;
  MD5STEP F1 Rb Rc Rd Ra 7 0xfd469501 22;
  MD5STEP F1 Ra Rb Rc Rd 8 0x698098d8 7;
  MD5STEP F1 Rd Ra Rb Rc 9 0x8b44f7af 12;
  MD5STEP F1 Rc Rd Ra Rb 10 0xffff5bb1 17;
  MD5STEP F1 Rb Rc Rd Ra 11 0x895cd7be 22;
  MD5STEP F1 Ra Rb Rc Rd 12 0x6b901122 7;
  MD5STEP F1 Rd Ra Rb Rc 13 0xfd987193 12;
  MD5STEP F1 Rc Rd Ra Rb 14 0xa679438e 17;
  MD5STEP F1 Rb Rc Rd Ra 15 0x49b40821 22;
  MD5STEP F2 Ra Rb Rc Rd 1 0xf61e2562 5;
  MD5STEP F2 Rd Ra Rb Rc 6 0xc040b340 9;
  MD5STEP F2 Rc Rd Ra Rb 11 0x265e5a51 14;
  MD5STEP F2 Rb Rc Rd Ra 0 0xe9b6c7aa 20;
  MD5STEP F2 Ra Rb Rc Rd 5 0xd62f105d 5;
  MD5STEP F2 Rd Ra Rb Rc 10 0x02441453 9;
  MD5STEP F2 Rc Rd Ra Rb 15 0xd8a1e681 14;
  MD5STEP F2 Rb Rc Rd Ra 4 0xe7d3fbc8 20;
  MD5STEP F2 Ra Rb Rc Rd 9 0x21e1cde6 5;
  MD5STEP F2 Rd Ra Rb Rc 14 0xc33707d6 9;
  MD5STEP F2 Rc Rd Ra Rb 3 0xf4d50d87 14;
  MD5STEP F2 Rb Rc Rd Ra 8 0x455a14ed 20;
  MD5STEP F2 Ra Rb Rc Rd 13 0xa9e3e905 5;
  MD5STEP F2 Rd Ra Rb Rc 2 0xfcefa3f8 9;
  MD5STEP F2 Rc Rd Ra Rb 7 0x676f02d9 14;
  MD5STEP F2 Rb Rc Rd Ra 12 0x8d2a4c8a 20;
  MD5STEP F3 Ra Rb Rc Rd 5 0xfffa3942 4;
  MD5STEP F3 Rd Ra Rb Rc 8 0x8771f681 11;
  MD5STEP F3 Rc Rd Ra Rb 11 0x6d9d6122 16;
  MD5STEP F3 Rb Rc Rd Ra 14 0xfde5380c 23;
  MD5STEP F3 Ra Rb Rc Rd 1 0xa4beea44 4;
  MD5STEP F3 Rd Ra Rb Rc 4 0x4bdecfa9 11;
  MD5STEP F3 Rc Rd Ra Rb 7 0xf6bb4b60 16;
  MD5STEP F3 Rb Rc Rd Ra 10 0xbebfbc70 23;
  MD5STEP F3 Ra Rb Rc Rd 13 0x289b7ec6 4;
  MD5STEP F3 Rd Ra Rb Rc 0 0xeaa127fa 11;
  MD5STEP F3 Rc Rd Ra Rb 3 0xd4ef3085 16;
  MD5STEP F3 Rb Rc Rd Ra 6 0x04881d05 23;
  MD5STEP F3 Ra Rb Rc Rd 9 0xd9d4d039 4;
  MD5STEP F3 Rd Ra Rb Rc 12 0xe6db99e5 11;
  MD5STEP F3 Rc Rd Ra Rb 15 0x1fa27cf8 16;
  MD5STEP F3 Rb Rc Rd Ra 2 0xc4ac5665 23;
  MD5STEP F4 Ra Rb Rc Rd 0 0xf4292244 6;
  MD5STEP F4 Rd Ra Rb Rc 7 0x432aff97 10;
  MD5STEP F4 Rc Rd Ra Rb 14 0xab9423a7 15;
  MD5STEP F4 Rb Rc Rd Ra 5 0xfc93a039 21;
  MD5STEP F4 Ra Rb Rc Rd 12 0x655b59c3 6;
  MD5STEP F4 Rd Ra Rb Rc 3 0x8f0ccc92 10;
  MD5STEP F4 Rc Rd Ra Rb 10 0xffeff47d 15;
  MD5STEP F4 Rb Rc Rd Ra 1 0x85845dd1 21;
  MD5STEP F4 Ra Rb Rc Rd 8 0x6fa87e4f 6;
  MD5STEP F4 Rd Ra Rb Rc 15 0xfe2ce6e0 10;
  MD5STEP F4 Rc Rd Ra Rb 6 0xa3014314 15;
  MD5STEP F4 Rb Rc Rd Ra 13 0x4e0811a1 21;
  MD5STEP F4 Ra Rb Rc Rd 4 0xf7537e82 6;
  MD5STEP F4 Rd Ra Rb Rc 11 0xbd3af235 10;
  MD5STEP F4 Rc Rd Ra Rb 2 0x2ad7d2bb 15;
  MD5STEP F4 Rb Rc Rd Ra 9 0xeb86d391 21].

Definition MD5Transform (buf : regs) (inw : list Z) : regs :=
  let s := foldl (run_step inw) buf transform_steps in
  mkRegs (u32 (ra buf + ra s)) (u32 (rb buf + rb s)) (u32 (rc buf + rc s)) (u32 (rd buf + rd s)).

(** ** The context *)

(** [buf], [bits[0]], [bits[1]] and the 64 bytes [in]. *)
Record MD5Context := mkMD5Context { ctx_buf : regs; ctx_bits0 : Z; ctx_bits1 : Z; ctx_in : list Z }.

(** [memcpy(dst + off, src, length src)] *)
Definition memcpy (dst : list Z) (off : Z) (src : list Z) : list Z :=
  take (Z.to_nat off) dst ++ src ++ drop (Z.to_nat off + length src) dst.
(** The bytes read and written as [uint32]s. *)
Definition word_of (b0 b1 b2 b3 : Z) : Z := b0 + 256 * b1 + 65536 * b2 + 16777216 * b3.
Fixpoint words_of (l : list Z) : list Z :=
  match l with b0 :: b1 :: b2 :: b3 :: l => word_of b0 b1 b2 b3 :: words_of l | _ => [] end.
Definition bytes_of_word (w : Z) : list Z :=
  [u8 w; u8 (Z.shiftr w 8); u8 (Z.shiftr w 16); u8 (Z.shiftr w 24)].

Definition MD5Init (ctx : MD5Context) : MD5Context :=
  mkMD5Context (mkRegs 0x67452301 0xefcdab89 0x98badcfe 0x10325476) 0 0 (ctx_in ctx).

Definition set_in (inb : list Z) (ctx : MD5Context) : MD5Context :=
  mkMD5Context (ctx_buf ctx) (ctx_bits0 ctx) (ctx_bits1 ctx) inb.
Definition set_buf (b : regs) (ctx : MD5Context) : MD5Context :=
  mkMD5Context b (ctx_bits0 ctx) (ctx_bits1 ctx) (ctx_in ctx).
(** [MD5Transform(ctx->buf, (uint32 * ) ctx->in)] *)
Definition transform_in (ctx : MD5Context) : MD5Context :=
  set_buf (MD5Transform (ctx_buf ctx) (words_of (ctx_in ctx))) ctx.

Definition update_bitcount (ctx : MD5Context) (len : Z) : MD5Context :=
  let t := ctx_bits0 ctx in
  let b0 := u32 (t + u32 (Z.shiftl len 3)) in
  let b1 := if b0 <? t then u32 (ctx_bits1 ctx + 1) else ctx_bits1 ctx in
  let b1 := u32 (b1 + Z.shiftr len 29) in
  mkMD5Context (ctx_buf ctx) b0 b1 (ctx_in ctx).

(** [while (len >= 64)] and the last [memcpy]. *)
Fixpoint update_chunks (fuel : nat) (ctx : MD5Context) (buf : list Z) : MD5Context :=
  if 64 <=? Z.of_nat (length buf) then
    match fuel with
    | O => ctx
    | S fuel => update_chunks fuel (transform_in (set_in (memcpy (ctx_in ctx) 0 (take 64 buf)) ctx)) (drop 64 buf)
    end
  else set_in (memcpy (ctx_in ctx) 0 buf) ctx.

Definition MD5Update (ctx : MD5Context) (buf : list Z) : MD5Context :=
  let len := Z.of_nat (length buf) in
  let t := Z.land (Z.shiftr (ctx_bits0 ctx) 3) 63 in
  let ctx := update_bitcount ctx len in
  if negb (t =? 0) then
    let p := t in
    let t := 64 - t in
    if len <? t then set_in (memcpy (ctx_in ctx) p buf) ctx
    else
      let ctx := transform_in (set_in (memcpy (ctx_in ctx) p (take (Z.to_nat t) buf)) ctx) in
      update_chunks (length buf) ctx (drop (Z.to_nat t) buf)
  else update_chunks (length buf) ctx buf.

Definition memset0 (dst : list Z) (off n : Z) : list Z := memcpy dst off (replicate (Z.to_nat n) 0).

(** The padding, up to 56 bytes of a block. *)
Definition final_padding (ctx : MD5Context) : MD5Context :=
  let count := Z.land (Z.shiftr (ctx_bits0 ctx) 3) 63 in
  let p := count + 1 in
  let ctx := set_in (memcpy (ctx_in ctx) count [128]) ctx in
  let count := 64 - 1 - count in
  if count <? 8
  then let ctx := transform_in (set_in (memset0 (ctx_in ctx) p count) ctx) in
       set_in (memset0 (ctx_in ctx) 0 56) ctx
  else set_in (memset0 (ctx_in ctx) p (count - 8)) ctx.
(** The digest, and the context behind: [memset(ctx, 0, sizeof(ctx))] clears as
    many bytes as a pointer has, four. *)
Definition MD5Final (ctx : MD5Context) : list Z * MD5Context :=
  let ctx := final_padding ctx in
  let ctx := set_in (memcpy (ctx_in ctx) 56 (bytes_of_word (ctx_bits0 ctx))) ctx in
  let ctx := set_in (memcpy (ctx_in ctx) 60 (bytes_of_word (ctx_bits1 ctx))) ctx in
  let ctx := transform_in ctx in
  let b := ctx_buf ctx in
  let digest := bytes_of_word (ra b) ++ bytes_of_word (rb b) ++ bytes_of_word (rc b) ++ bytes_of_word (rd b) in
  (digest, set_buf (set_reg Ra 0 b) ctx).

(** ** The program *)

(** What the machine offers: the bytes of the time and of the two process ids, the
    answers of [read] on the file of [-f] (an empty one ends or fails), and the
    contents of devices that can be opened. *)
Record machine := mkMachine {
  mc_tv : list Z; mc_ppid : list Z; mc_pid : list Z;
  mc_file : option (option (list (list Z)));
  mc_device : string -> option (list Z) }.

Fixpoint hash_file (ctx : MD5Context) (reads : list (list Z)) : MD5Context :=
  match reads with
  | [] | [] :: _ => MD5Update ctx [0]
  | r :: reads => hash_file (MD5Update ctx r) reads
  end.

Definition BUFFERSIZE : Z := 4096.
Record rngs := mkRngs { path : string; minlength : Z; maxlength : Z }.
Definition RNGS : list rngs := [
  mkRngs "/dev/random" 16 16; mkRngs "/proc/interrupts" 0 0; mkRngs "/proc/slabinfo" 0 0;
  mkRngs "/proc/stat" 0 0; mkRngs "/dev/urandom" 32 64].

Fixpoint read_rngs (dev : string -> option (list Z)) (l : list rngs) (ctx : MD5Context) : MD5Context :=
  match l with
  | [] => ctx
  | g :: l =>
      match dev (path g) with
      | None => read_rngs dev l ctx
      | Some content =>
          let count := if negb (maxlength g =? 0) && (maxlength g <? BUFFERSIZE) then maxlength g else BUFFERSIZE in
          let r := take (Z.to_nat count) content in
          let ctx := if 0 <? Z.of_nat (length r) then MD5Update ctx r else ctx in
          if negb (minlength g =? 0) && (minlength g <=? Z.of_nat (length r)) then ctx else read_rngs dev l ctx
      end
  end.

(** [printf("%02x", b)] *)
Definition hex2 (b : Z) : string := str1 (digit_char (Z.shiftr b 4)) +:+ str1 (digit_char (Z.land b 15)).
Definition print_digest (digest : list Z) : string := foldr (fun b s => hex2 b +:+ s) NL digest.

(** [main]; [ctx] is what lies on the stack. *)
Definition main (mc : machine) (ctx : MD5Context) : string :=
  let ctx := MD5Init ctx in
  let ctx := MD5Update ctx (mc_tv mc) in
  let ctx := MD5Update ctx (mc_ppid mc) in
  let ctx := MD5Update ctx (mc_pid mc) in
  let ctx := match mc_file mc with Some (Some reads) => hash_file ctx reads | _ => ctx end in
  let ctx := read_rngs (mc_device mc) RNGS ctx in
  print_digest (fst (MD5Final ctx)).
