(* ===== verification/Md5Spec.v ===== *)
(** MD5 as RFC 1321 describes it: padding, the loop of 64 operations on rotating
    words with the table of sines, blocks one after another; and that one
    [MD5Transform] is one block of it. *)
From S2P Require Import Prelude CText Md5.
Local Open Scope list_scope.
Local Open Scope Z_scope.

(** ** The auxiliary functions, on words *)

Definition word_not (x : Z) : Z := u32 (Z.lnot x).
Definition F (x y z : Z) : Z := Z.lor (Z.land x y) (Z.land (word_not x) z).
Definition G (x y z : Z) : Z := Z.lor (Z.land x z) (Z.land y (word_not z)).
Definition H (x y z : Z) : Z := Z.lxor (Z.lxor x y) z.
Definition I (x y z : Z) : Z := Z.lxor y (Z.lor x (word_not z)).
(** "Circularly shifting X left by s bit positions." *)
Definition rotate_left (x s : Z) : Z := (x * 2 ^ s) mod 2 ^ 32 + x / 2 ^ (32 - s).

(** ** The table of sines *)

(** Fixed point numbers with 128 binary digits; the sine and the cosine of 1 by
    their series, those of the other integers by the addition theorems. *)
Definition ONE : Z := 2 ^ 128.
Fixpoint series (n : nat) (k term : Z) : Z :=
  match n with O => 0 | S n => term + series n (k + 2) (- (term / (k * (k + 1)))) end.
Definition sin1 : Z := series 25 2 ONE.
Definition cos1 : Z := series 25 1 ONE.
Fixpoint sines (n : nat) (s c : Z) : list Z :=
  match n with O => [] | S n => s :: sines n ((s * cos1 + c * sin1) / ONE) ((c * cos1 - s * sin1) / ONE) end.
(** "T[i] equals the integer part of 4294967296 times abs(sin(i)), where i is in
    radians", from i = 1. *)
Definition T : list Z := (fun s => Z.abs s * 4294967296 / ONE) <$> sines 64 sin1 cos1.

(** ** The operations *)

Definition round_function (i : nat) : Z -> Z -> Z -> Z :=
  match (i / 16)%nat with 0%nat => F | 1%nat => G | 2%nat => H | _ => I end.
Definition message_index (i : nat) : nat :=
  match (i / 16)%nat with 0%nat => i | 1%nat => (5 * i + 1) mod 16 | 2%nat => (3 * i + 5) mod 16 | _ => (7 * i) mod 16 end.
Definition shift_amounts : list (list Z) := [[7; 12; 17; 22]; [5; 9; 14; 20]; [4; 11; 16; 23]; [6; 10; 15; 21]].
Definition shift_amount (i : nat) : Z := (shift_amounts !!! (i / 16)%nat) !!! (i mod 4)%nat.

(** [a = b + ((a + F(b,c,d) + X[k] + T[i]) <<< s)] and the rotation of the names. *)
Definition operation (X : list Z) (s : regs) (i : nat) : regs :=
  let '(mkRegs a b c d) := s in
  let sum := (a + round_function i b c d + X !!! message_index i + T !!! i) mod 2 ^ 32 in
  mkRegs d ((b + rotate_left sum (shift_amount i)) mod 2 ^ 32) b c.
Definition process_block (s : regs) (X : list Z) : regs :=
  let r := foldl (operation X) s (seq 0 64) in
  mkRegs ((ra s + ra r) mod 2 ^ 32) ((rb s + rb r) mod 2 ^ 32) ((rc s + rc r) mod 2 ^ 32) ((rd s + rd r) mod 2 ^ 32).

(** ** The digest *)

Definition initial_state : regs := mkRegs 0x67452301 0xefcdab89 0x98badcfe 0x10325476.
(** The full blocks of [l], and what is left. *)
Fixpoint absorb_fuel (fuel : nat) (s : regs) (l : list Z) : regs * list Z :=
  match fuel with
  | O => (s, l)
  | S fuel => if decide (64 <= length l)%nat then absorb_fuel fuel (process_block s (words_of (take 64 l))) (drop 64 l) else (s, l)
  end.
Definition absorb (s : regs) (l : list Z) : regs * list Z := absorb_fuel (length l) s l.
(** A one, zeros up to 56 bytes modulo 64, the number of bits modulo 2^64. *)
Definition bit_length (m : list Z) : list Z :=
  let b := 8 * Z.of_nat (length m) in bytes_of_word (b mod 2 ^ 32) ++ bytes_of_word (b / 2 ^ 32 mod 2 ^ 32).
Definition pad (m : list Z) : list Z :=
  m ++ [128] ++ replicate (Z.to_nat ((55 - Z.of_nat (length m)) mod 64)) 0 ++ bit_length m.
Definition md5 (m : list Z) : list Z :=
  let s := fst (absorb initial_state (pad m)) in
  bytes_of_word (ra s) ++ bytes_of_word (rb s) ++ bytes_of_word (rc s) ++ bytes_of_word (rd s).

(** ** A transform is a block *)

Lemma u32_pow z : u32 z = z mod 2 ^ 32.
Proof. done. Qed.
Lemma u32_testbit z n : 0 <= n -> Z.testbit (u32 z) n = (n <? 32) && Z.testbit z n.
Proof. intros Hn. rewrite u32_pow. by rewrite Z.testbit_mod_pow2 by lia. Qed.
Lemma word_high z n : is_u32 z -> 32 <= n -> Z.testbit z n = false.
Proof. intros Hz Hn. rewrite <- (u32_id z Hz), u32_testbit by lia. by destruct (Z.ltb_spec n 32); [lia|]. Qed.

Lemma apply_F1_F x y z : is_u32 x -> is_u32 y -> is_u32 z -> apply_F1 x y z = F x y z.
Proof.
  intros Hx Hy Hz. apply Z.bits_inj'. intros n Hn. unfold apply_F1, F, word_not.
  rewrite !Z.lxor_spec, Z.lor_spec, !Z.land_spec, Z.lxor_spec, u32_testbit, Z.lnot_spec by done.
  destruct (Z.ltb_spec n 32); [|by rewrite !word_high by done].
  by destruct (Z.testbit x n), (Z.testbit y n), (Z.testbit z n).
Qed.
Lemma G_F x y z : G x y z = F z x y.
Proof. unfold G, F. f_equal; apply Z.land_comm. Qed.
Lemma rotate_left_or w s : 0 <= s <= 32 -> is_u32 w ->
  Z.lor (u32 (Z.shiftl w s)) (Z.shiftr w (32 - s)) = rotate_left w s.
Proof.
  intros Hs Hw. unfold rotate_left. rewrite <- (Z.shiftl_mul_pow2 w s), <- Z.shiftr_div_pow2, <- u32_pow by lia.
  rewrite <- Z.add_lor_land.
  assert (Z.land (u32 (Z.shiftl w s)) (Z.shiftr w (32 - s)) = 0) as ->; [|lia].
  apply Z.bits_inj'. intros n Hn. rewrite Z.land_spec, u32_testbit, Z.shiftl_spec, Z.shiftr_spec, Z.bits_0 by lia.
  destruct (Z.ltb_spec n 32); [|done]. destruct (Z.ltb_spec n s).
  - by rewrite Z.testbit_neg_r by lia.
  - by rewrite (word_high w (n + (32 - s))), andb_false_r by (done || lia).
Qed.

Definition words (s : regs) : Prop := is_u32 (ra s) /\ is_u32 (rb s) /\ is_u32 (rc s) /\ is_u32 (rd s).

(** The line [i] of the transform by the rules of the RFC. *)
Definition fun_of (i : nat) : md5_fun := match (i / 16)%nat with 0%nat => F1 | 1%nat => F2 | 2%nat => F3 | _ => F4 end.
Definition line (i : nat) : md5_step :=
  let '(w, x, y, z) := match (i mod 4)%nat with
    | 0%nat => (Ra, Rb, Rc, Rd) | 1%nat => (Rd, Ra, Rb, Rc) | 2%nat => (Rc, Rd, Ra, Rb) | _ => (Rb, Rc, Rd, Ra) end in
  MD5STEP (fun_of i) w x y z (Z.of_nat (message_index i)) (T !!! i) (shift_amount i).
Lemma steps_are_lines : transform_steps = line <$> seq 0 64.
Proof. by vm_compute. Qed.

(** The names of the RFC's words after [i] operations. *)
Definition rotated (i : nat) (s : regs) : regs :=
  match (i mod 4)%nat with
  | 0%nat => s
  | 1%nat => mkRegs (rd s) (ra s) (rb s) (rc s)
  | 2%nat => mkRegs (rc s) (rd s) (ra s) (rb s)
  | _ => mkRegs (rb s) (rc s) (rd s) (ra s)
  end.
Lemma round_function_spec i x y z : is_u32 x -> is_u32 y -> is_u32 z -> apply_fun (fun_of i) x y z = round_function i x y z.
Proof.
  intros Hx Hy Hz. unfold fun_of, round_function. destruct (i / 16)%nat as [|[|[|?]]]; cbn [apply_fun]; [by apply apply_F1_F| |done..].
  rewrite G_F. by apply apply_F1_F.
Qed.
Lemma sum_mod w f x t : u32 (w + u32 (f + u32 (x + t))) = (w + f + x + t) mod 2 ^ 32.
Proof.
  unfold u32. change 4294967296 with (2 ^ 32). rewrite Zplus_mod_idemp_r.
  replace (w + (f + (x + t) mod 2 ^ 32)) with (w + f + (x + t) mod 2 ^ 32) by lia.
  rewrite Zplus_mod_idemp_r. by rewrite Z.add_assoc.
Qed.
Lemma line_operation X s i : words s -> (i < 64)%nat ->
  rotated (S i) (run_step X s (line i)) = operation X (rotated i s) i.
Proof.
  destruct s as [a b c d]. intros (Ha & Hb & Hc & Hd) Hi. cbn [ra rb rc rd] in *.
  assert (Hshift : 0 <= shift_amount i <= 32).
  { assert (Hall : forallb (fun i => (0 <=? shift_amount i) && (shift_amount i <=? 32)) (seq 0 64) = true) by (by vm_compute).
    rewrite forallb_forall in Hall. specialize (Hall i ltac:(apply in_seq; lia)). lia. }
  assert (Hmod : (S i mod 4 = match i mod 4 with 3 => 0 | n => S n end)%nat).
  { pose proof (Nat.mod_upper_bound i 4 ltac:(lia)). rewrite <- Nat.add_1_r, Nat.Div0.add_mod.
    destruct (i mod 4)%nat as [|[|[|[|?]]]]; [done..|lia]. }
  unfold rotated. rewrite Hmod. unfold line, operation.
  assert (Hstep : forall w x y z, is_u32 w -> is_u32 x -> is_u32 y -> is_u32 z ->
    u32 (Z.lor (u32 (Z.shiftl (u32 (w + u32 (apply_fun (fun_of i) x y z + u32 (X !!! Z.to_nat (Z.of_nat (message_index i)) + T !!! i)))) (shift_amount i)))
      (Z.shiftr (u32 (w + u32 (apply_fun (fun_of i) x y z + u32 (X !!! Z.to_nat (Z.of_nat (message_index i)) + T !!! i)))) (32 - shift_amount i)) + x) =
    (x + rotate_left ((w + round_function i x y z + X !!! message_index i + T !!! i) mod 2 ^ 32) (shift_amount i)) mod 2 ^ 32).
  { intros w x y z Hw Hx Hy Hz. rewrite rotate_left_or by (done || apply u32_range).
    rewrite sum_mod, round_function_spec, Nat2Z.id by done. rewrite u32_pow. f_equal. apply Z.add_comm. }
  clear Hmod. pose proof (Nat.mod_upper_bound i 4 ltac:(lia)).
  destruct (i mod 4)%nat as [|[|[|[|?]]]]; [..|lia]; cbn [run_step st_f st_w st_x st_y st_z st_k st_t st_s get_reg set_reg ra rb rc rd];
    unfold run_step; cbn [st_f st_w st_x st_y st_z st_k st_t st_s get_reg set_reg ra rb rc rd]; rewrite Hstep by done; done.
Qed.
Lemma run_step_words X s i : words s -> words (run_step X s (line i)).
Proof.
  intros (Ha & Hb & Hc & Hd). unfold run_step. set (v := u32 (_ + get_reg (st_x (line i)) s)).
  assert (Hv : is_u32 v) by apply u32_range. clearbody v. by destruct (st_w (line i)).
Qed.
Lemma lines_operations X n s : (n <= 64)%nat -> words s ->
  let r := foldl (run_step X) s (line <$> seq 0 n) in
  words r /\ rotated n r = foldl (operation X) s (seq 0 n).
Proof.
  intros Hn Hs. cbn zeta. induction n as [|n IH]; [done|].
  destruct (IH ltac:(lia)) as [Hw Hr]. rewrite seq_S, fmap_app, !foldl_app, Nat.add_0_l. cbn [fmap list_fmap foldl].
  split; [by apply run_step_words|]. rewrite line_operation by (done || lia). by rewrite Hr.
Qed.

(** One transform of the code is one block of the RFC. *)
Lemma MD5Transform_block s X : words s -> MD5Transform s X = process_block s X.
Proof.
  intros Hs. unfold MD5Transform, process_block. rewrite steps_are_lines.
  destruct (lines_operations X 64 s ltac:(lia) Hs) as [_ Hr]. cbn zeta in Hr.
  assert (Hid : forall r, rotated 64 r = r) by done. rewrite Hid in Hr. rewrite Hr.
  generalize (foldl (operation X) s (seq 0 64)). done.
Qed.
Lemma process_block_words s X : words (process_block s X).
Proof. unfold words. repeat split; apply Z.mod_pos_bound; lia. Qed.
