(* ===== verification/Md5Facts.v ===== *)
(** The context of MD5 stands for the bytes given so far; its digest is the one of
    RFC 1321, in whatever pieces the bytes come; and the cookie is the digest of what
    the program gathers. *)
From S2P Require Import Prelude CText Md5 Md5Spec.
Local Open Scope list_scope.
Local Open Scope Z_scope.

(** ** Absorbing *)

Lemma absorb_fuel_enough n : forall m s l, (length l <= n)%nat -> (length l <= m)%nat ->
  absorb_fuel n s l = absorb_fuel m s l.
Proof.
  induction n as [|n IH]; intros [|m] s l Hn Hm; [done| |cbn..].
  - cbn. rewrite decide_False by lia. done.
  - rewrite decide_False by lia. done.
  - case_decide; [|done]. apply IH; rewrite length_drop; lia.
Qed.
Lemma absorb_short s l : (length l < 64)%nat -> absorb s l = (s, l).
Proof. intros Hl. unfold absorb. destruct (length l) eqn:E; [done|]. cbn. rewrite decide_False by lia. done. Qed.
Lemma absorb_block s l : (64 <= length l)%nat -> absorb s l = absorb (process_block s (words_of (take 64 l))) (drop 64 l).
Proof.
  intros Hl. unfold absorb at 1. destruct (length l) eqn:E; [lia|]. cbn [absorb_fuel]. rewrite decide_True by lia.
  apply absorb_fuel_enough; rewrite length_drop; lia.
Qed.
Lemma absorb_app n : forall s l r, (length l <= n)%nat ->
  absorb s (l ++ r) = let '(s', l') := absorb s l in absorb s' (l' ++ r).
Proof.
  induction n as [|n IH]; intros s l r Hn.
  - rewrite (absorb_short s l) by lia. done.
  - destruct (decide (length l < 64)%nat) as [Hl|Hl]; [by rewrite (absorb_short s l)|].
    rewrite (absorb_block s l), (absorb_block s (l ++ r)) by (rewrite ?length_app; lia).
    rewrite take_app_le, drop_app_le by lia. apply IH. rewrite length_drop. lia.
Qed.
Lemma absorb_rest n : forall s l, (length l <= n)%nat -> words s ->
  words (fst (absorb s l)) /\ length (snd (absorb s l)) = (length l mod 64)%nat.
Proof.
  induction n as [|n IH]; intros s l Hn Hs.
  - rewrite absorb_short by lia. cbn. destruct l; [done|cbn in Hn; lia].
  - destruct (decide (length l < 64)%nat) as [Hl|Hl]; [rewrite absorb_short, Nat.mod_small by lia; done|].
    rewrite absorb_block by lia. destruct (IH (process_block s (words_of (take 64 l))) (drop 64 l)) as [Hw Hr];
      [rewrite length_drop; lia|apply process_block_words|].
    split; [done|]. rewrite Hr, length_drop. replace (length l) with ((length l - 64) + 1 * 64)%nat at 2 by lia.
    by rewrite Nat.Div0.mod_add.
Qed.

(** ** Copying *)

Lemma length_memcpy dst off src : 0 <= off -> (Z.to_nat off + length src <= length dst)%nat ->
  length (memcpy dst off src) = length dst.
Proof. intros Ho Hl. unfold memcpy. rewrite !length_app, length_take, length_drop. lia. Qed.
(** The first bytes after a copy behind the first [off]. *)
Lemma take_memcpy dst off src n : (n = Z.to_nat off + length src)%nat -> (n <= length dst)%nat ->
  take n (memcpy dst off src) = take (Z.to_nat off) dst ++ src.
Proof.
  intros -> Hl. unfold memcpy. rewrite app_assoc, take_app_length'; [done|].
  rewrite length_app, length_take. lia.
Qed.
Lemma memcpy_full dst off src : length dst = (Z.to_nat off + length src)%nat ->
  memcpy dst off src = take (Z.to_nat off) dst ++ src.
Proof. intros Hl. rewrite <- (take_memcpy dst off src (length dst)) by lia. rewrite firstn_all2; [done|]. unfold memcpy. rewrite !length_app, length_take, length_drop. lia. Qed.

(** ** What a context stands for *)

Definition represents (ctx : MD5Context) (m : list Z) : Prop :=
  exists rest, absorb initial_state m = (ctx_buf ctx, rest) /\ take (length rest) (ctx_in ctx) = rest /\
    length (ctx_in ctx) = 64%nat /\
    ctx_bits0 ctx = u32 (8 * Z.of_nat (length m)) /\ ctx_bits1 ctx = u32 (8 * Z.of_nat (length m) / 4294967296).

Lemma initial_words : words initial_state.
Proof. by repeat split. Qed.
Lemma represents_facts ctx m rest : absorb initial_state m = (ctx_buf ctx, rest) ->
  words (ctx_buf ctx) /\ length rest = (length m mod 64)%nat.
Proof.
  intros E. destruct (absorb_rest (length m) initial_state m) as [Hw Hr]; [lia|apply initial_words|].
  by rewrite E in Hw, Hr.
Qed.
(** The number of bytes waiting, from the count of bits. *)
Lemma waiting n : Z.land (Z.shiftr (u32 (8 * Z.of_nat n)) 3) 63 = Z.of_nat (n mod 64).
Proof.
  change 63 with (Z.ones 6). rewrite Z.land_ones, Z.shiftr_div_pow2 by lia.
  rewrite Nat2Z.inj_mod. change (2 ^ 3) with 8. change (2 ^ 6) with 64. unfold u32.
  change (Z.of_nat 64) with 64. Z.to_euclidean_division_equations. lia.
Qed.
Lemma bitcount n len : 0 <= n -> 0 <= len < 4294967296 ->
  let t := u32 (8 * n) in let b0 := u32 (t + u32 (Z.shiftl len 3)) in
  b0 = u32 (8 * (n + len)) /\
  u32 ((if b0 <? t then u32 (u32 (8 * n / 4294967296) + 1) else u32 (8 * n / 4294967296)) + Z.shiftr len 29) =
    u32 (8 * (n + len) / 4294967296).
Proof.
  intros Hn Hl. cbn zeta. rewrite Z.shiftl_mul_pow2, Z.shiftr_div_pow2 by lia. change (2 ^ 3) with 8. change (2 ^ 29) with 536870912.
  unfold u32. destruct (Z.ltb_spec ((((8 * n) mod 4294967296) + (len * 8) mod 4294967296) mod 4294967296) ((8 * n) mod 4294967296)); Z.to_euclidean_division_equations; lia.
Qed.

(** ** Updating *)

(** [r] is [ctx] after absorbing [l] into its state. *)
Definition absorbed (ctx : MD5Context) (l : list Z) (r : MD5Context) : Prop :=
  exists rest, absorb (ctx_buf ctx) l = (ctx_buf r, rest) /\ take (length rest) (ctx_in r) = rest /\
    length (ctx_in r) = 64%nat /\ ctx_bits0 r = ctx_bits0 ctx /\ ctx_bits1 r = ctx_bits1 ctx.

(** The transform of the block that has just been copied. *)
Lemma transform_block ctx block : words (ctx_buf ctx) ->
  ctx_buf (transform_in (set_in block ctx)) = process_block (ctx_buf ctx) (words_of block).
Proof. intros Hw. unfold transform_in. cbn. by apply MD5Transform_block. Qed.

Lemma update_chunks_spec fuel : forall ctx l, (length l <= fuel)%nat -> words (ctx_buf ctx) ->
  length (ctx_in ctx) = 64%nat -> absorbed ctx l (update_chunks fuel ctx l).
Proof.
  assert (Hlast : forall ctx l, (length l < 64)%nat -> length (ctx_in ctx) = 64%nat ->
    absorbed ctx l (set_in (memcpy (ctx_in ctx) 0 l) ctx)).
  { intros ctx l Hl Hin. exists l. rewrite absorb_short by done. split_and!; try done; cbn [set_in ctx_in].
    - by rewrite take_memcpy by (cbn; lia).
    - rewrite length_memcpy by (cbn; lia). done. }
  induction fuel as [|fuel IH]; intros ctx l Hf Hw Hin.
  - cbn [update_chunks]. destruct (Z.leb_spec 64 (Z.of_nat (length l))); [lia|]. by apply Hlast; [lia|].
  - cbn [update_chunks]. destruct (Z.leb_spec 64 (Z.of_nat (length l))); [|by apply Hlast; [lia|]].
    assert (Hblock : memcpy (ctx_in ctx) 0 (take 64 l) = take 64 l).
    { rewrite memcpy_full; [done|]. rewrite length_take. lia. }
    rewrite Hblock. set (ctx' := transform_in (set_in (take 64 l) ctx)).
    destruct (IH ctx' (drop 64 l)) as (rest & E & Hr).
    + rewrite length_drop. lia.
    + unfold ctx'. rewrite transform_block by done. apply process_block_words.
    + cbn. rewrite length_take. lia.
    + exists rest. rewrite absorb_block by lia. unfold ctx' in E. by rewrite transform_block in E.
Qed.

Lemma take_prefix_memcpy (rest l inb : list Z) : take (length rest) inb = rest -> length inb = 64%nat ->
  (length rest + length l < 64)%nat ->
  take (length (rest ++ l)) (memcpy inb (Z.of_nat (length rest)) l) = rest ++ l.
Proof. intros Ht Hin Hl. rewrite take_memcpy by (rewrite ?length_app; lia). by rewrite Nat2Z.id, Ht. Qed.

(** See [MD5Update_streams] below. *)
Lemma MD5Update_represents ctx m l : represents ctx m -> Z.of_nat (length l) < 4294967296 ->
  represents (MD5Update ctx l) (m ++ l).
Proof.
  intros (rest & E & Ht & Hin & Hb0 & Hb1) Hlen. destruct (represents_facts _ _ _ E) as [Hw Hrest].
  destruct (bitcount (Z.of_nat (length m)) (Z.of_nat (length l))) as [B0 B1]; [lia|lia|].
  rewrite <- Nat2Z.inj_add, <- length_app in B0, B1.
  set (ctx1 := update_bitcount ctx (Z.of_nat (length l))).
  assert (Hc1 : ctx_buf ctx1 = ctx_buf ctx /\ ctx_in ctx1 = ctx_in ctx /\
    ctx_bits0 ctx1 = u32 (8 * Z.of_nat (length (m ++ l))) /\ ctx_bits1 ctx1 = u32 (8 * Z.of_nat (length (m ++ l)) / 4294967296)).
  { unfold ctx1, update_bitcount. cbn [ctx_buf ctx_in ctx_bits0 ctx_bits1]. rewrite Hb0, Hb1. split_and!; done. }
  destruct Hc1 as (C1 & C2 & C3 & C4).
  assert (Habs : forall r, absorb initial_state (m ++ l) = absorb (ctx_buf ctx) (rest ++ l) ->
    absorbed ctx1 (rest ++ l) r -> represents r (m ++ l)).
  { intros r Ha (rest' & E' & Hr & Hl & H0 & H1). exists rest'. rewrite Ha, <- C1. split_and!; congruence. }
  assert (Ha : absorb initial_state (m ++ l) = absorb (ctx_buf ctx) (rest ++ l))
    by (rewrite (absorb_app (length m)) by lia; by rewrite E).
  apply Habs; [done|]. clear Habs Ha. unfold MD5Update. fold ctx1. rewrite Hb0, waiting, <- Hrest. rewrite <- C2 in Ht, Hin. rewrite <- C1 in Hw.
  destruct (Z.eqb_spec (Z.of_nat (length rest)) 0) as [Hz|Hz]; cbn [negb].
  - destruct rest; [|cbn in Hz; lia]. cbn [app]. by apply update_chunks_spec.
  - pose proof (Nat.mod_upper_bound (length m) 64 ltac:(lia)).
    destruct (Z.ltb_spec (Z.of_nat (length l)) (64 - Z.of_nat (length rest))).
    + exists (rest ++ l). rewrite absorb_short by (rewrite length_app; lia). split_and!; try done; cbn [set_in ctx_in].
      * by apply take_prefix_memcpy; [| |lia].
      * rewrite length_memcpy by lia. done.
    + set (n := Z.to_nat (64 - Z.of_nat (length rest))).
      assert (Hblock : memcpy (ctx_in ctx1) (Z.of_nat (length rest)) (take n l) = take 64 (rest ++ l)).
      { rewrite memcpy_full by (rewrite length_take; lia). rewrite Nat2Z.id, Ht, take_app.
        rewrite (take_ge rest 64) by lia. do 2 f_equal. lia. }
      rewrite Hblock. set (ctx' := transform_in (set_in (take 64 (rest ++ l)) ctx1)).
      destruct (update_chunks_spec (length l) ctx' (drop n l)) as (rest' & E' & Hr').
      * rewrite length_drop. lia.
      * unfold ctx'. rewrite transform_block by done. apply process_block_words.
      * cbn. rewrite length_take, length_app. lia.
      * exists rest'. rewrite absorb_block by (rewrite length_app; lia).
        rewrite drop_app_ge by lia. replace (64 - length rest)%nat with n by lia.
        unfold ctx' in E'. by rewrite transform_block in E'.
Qed.

(** ** The digest *)

(** The length written behind 56 bytes completes a block. *)
Lemma final_block inb pre w0 w1 : length inb = 64%nat -> length pre = 56%nat -> take 56 inb = pre ->
  memcpy (memcpy inb 56 (bytes_of_word w0)) 60 (bytes_of_word w1) = pre ++ bytes_of_word w0 ++ bytes_of_word w1.
Proof.
  intros Hin Hpre Ht. rewrite memcpy_full by (rewrite length_memcpy; cbn [length bytes_of_word]; lia).
  rewrite take_memcpy by (cbn [length bytes_of_word]; lia). change (Z.to_nat 56) with 56%nat. rewrite Ht. by rewrite app_assoc.
Qed.
Lemma memset0_full inb off n : length inb = 64%nat -> 0 <= off -> 0 <= n -> off + n = 64 ->
  memset0 inb off n = take (Z.to_nat off) inb ++ replicate (Z.to_nat n) 0.
Proof. intros Hin Ho Hn Hs. apply memcpy_full. rewrite length_replicate. lia. Qed.

Definition zeros (n : nat) : list Z := replicate (Z.to_nat ((55 - Z.of_nat n) mod 64)) 0.
Lemma zeros_mod n : zeros n = zeros (n mod 64).
Proof. unfold zeros. do 2 f_equal. rewrite Nat2Z.inj_mod. change (Z.of_nat 64) with 64. Z.to_euclidean_division_equations. lia. Qed.

Lemma final_padding_spec ctx m rest bl : represents ctx m -> absorb initial_state m = (ctx_buf ctx, rest) -> length bl = 8%nat ->
  let ctx' := final_padding ctx in
  exists pre, length (ctx_in ctx') = 64%nat /\ length pre = 56%nat /\ take 56 (ctx_in ctx') = pre /\ words (ctx_buf ctx') /\
    ctx_bits0 ctx' = ctx_bits0 ctx /\ ctx_bits1 ctx' = ctx_bits1 ctx /\
    absorb (ctx_buf ctx) (rest ++ [128] ++ zeros (length rest) ++ bl) = absorb (ctx_buf ctx') (pre ++ bl).
Proof.
  intros (rest0 & E0 & Ht & Hin & Hb0 & _) E Hbl. assert (rest0 = rest) as -> by congruence.
  destruct (represents_facts _ _ _ E) as [Hw Hrest]. pose proof (Nat.mod_upper_bound (length m) 64 ltac:(lia)) as Hlt.
  cbn zeta. unfold final_padding. rewrite Hb0, waiting, <- Hrest. cbn [set_in ctx_in].
  set (inb1 := memcpy (ctx_in ctx) (Z.of_nat (length rest)) [128]).
  assert (Hin1 : length inb1 = 64%nat) by (unfold inb1; rewrite length_memcpy; cbn [length]; lia).
  assert (Ht1 : take (Z.to_nat (Z.of_nat (length rest) + 1)) inb1 = rest ++ [128]).
  { unfold inb1. rewrite take_memcpy by (cbn [length]; lia). by rewrite Nat2Z.id, Ht. }
  unfold zeros. destruct (Z.ltb_spec (64 - 1 - Z.of_nat (length rest)) 8).
  - set (block := memset0 inb1 _ _).
    assert (Hblock : block = (rest ++ [128]) ++ replicate (Z.to_nat (64 - 1 - Z.of_nat (length rest))) 0)
      by (unfold block; rewrite memset0_full by lia; by rewrite Ht1).
    assert (Hl : length block = 64%nat) by (rewrite Hblock, !length_app, length_replicate; cbn [length]; lia).
    exists (replicate 56 0). cbn [set_in ctx_in ctx_buf ctx_bits0 ctx_bits1 transform_in set_buf]. split_and!; try done.
    + unfold memset0. rewrite length_memcpy; rewrite ?length_replicate; lia.
    + rewrite MD5Transform_block by done. apply process_block_words.
    + rewrite MD5Transform_block by done.
      replace (Z.to_nat ((55 - Z.of_nat (length rest)) mod 64)) with (Z.to_nat (64 - 1 - Z.of_nat (length rest)) + 56)%nat
        by (rewrite <- (Z.mod_unique (55 - Z.of_nat (length rest)) 64 (-1) (119 - Z.of_nat (length rest))); lia).
      rewrite replicate_add. rewrite !app_assoc, <- Hblock, <- app_assoc.
      rewrite absorb_block by (rewrite length_app; lia).
      rewrite take_app_length', drop_app_length' by done. done.
  - set (n := 64 - 1 - Z.of_nat (length rest) - 8). set (inb2 := memset0 inb1 _ _).
    exists ((rest ++ [128]) ++ replicate (Z.to_nat n) 0). cbn [set_in ctx_in ctx_buf ctx_bits0 ctx_bits1]. split_and!; try done.
    + unfold inb2, memset0. rewrite length_memcpy; rewrite ?length_replicate; lia.
    + rewrite !length_app, length_replicate. cbn [length]. lia.
    + unfold inb2, memset0. rewrite take_memcpy by (rewrite ?length_replicate; lia). by rewrite Ht1.
    + rewrite (Z.mod_small (55 - Z.of_nat (length rest))) by lia. rewrite <- !app_assoc. do 4 f_equal. do 2 f_equal. lia.
Qed.

(** See [MD5Final_digest] below. *)
Lemma MD5Final_represents ctx m : represents ctx m -> fst (MD5Final ctx) = md5 m.
Proof.
  intros Hr. pose proof Hr as (rest & E & _ & _ & Hb0 & Hb1). destruct (represents_facts _ _ _ E) as [_ Hrest].
  destruct (final_padding_spec ctx m rest (bit_length m) Hr E) as (pre & Hin & Hpre & Ht & Hw & H0 & H1 & Ha); [done|].
  unfold md5. assert (absorb initial_state (pad m) = absorb (ctx_buf (final_padding ctx)) (pre ++ bit_length m)) as ->.
  { unfold pad. rewrite (absorb_app (length m)) by lia. rewrite E, <- Ha. fold (zeros (length m)). by rewrite (zeros_mod (length m)), <- Hrest. }
  unfold MD5Final. cbn [set_in ctx_in ctx_bits0 ctx_bits1]. rewrite H0, H1, Hb0, Hb1.
  rewrite (final_block _ pre) by done. change (?a ++ bytes_of_word (u32 ?x) ++ bytes_of_word (u32 ?y)) with (a ++ bit_length m).
  rewrite absorb_block, take_ge, drop_ge by (rewrite length_app, Hpre; cbn; lia).
  rewrite absorb_short by (cbn; lia). cbn [fst]. unfold transform_in. cbn [set_in set_buf ctx_in ctx_buf fst].
  by rewrite MD5Transform_block by done.
Qed.

Lemma MD5Init_represents ctx : length (ctx_in ctx) = 64%nat -> represents (MD5Init ctx) [].
Proof. intros Hin. exists []. split_and!; done. Qed.

(** What an [unsigned] can count. *)
Definition short (l : list Z) : Prop := Z.of_nat (length l) < 4294967296.
Lemma MD5Update_all pieces : forall ctx m, represents ctx m -> Forall short pieces ->
  represents (foldl MD5Update ctx pieces) (m ++ concat pieces).
Proof.
  induction pieces as [|l pieces IH]; intros ctx m Hr Hs; cbn; [by rewrite app_nil_r|].
  inversion Hs; subst. rewrite app_assoc. apply IH; [|done]. by apply MD5Update_represents.
Qed.

(** C40. MD5: whatever a context held before, after [MD5Init] and any number of
    [MD5Update]s, each of fewer than 2^32 bytes, [MD5Final] gives the digest RFC 1321
    defines for all the bytes together: padding, number of bits, 64 operations a
    block with the table of sines.  The lengths of the pieces do not matter, nor
    does the total length wrap anything but the 64 bits the RFC keeps. *)
Theorem MD5_streams ctx pieces (Hin : length (ctx_in ctx) = 64%nat) (Hshort : Forall short pieces) :
  fst (MD5Final (foldl MD5Update (MD5Init ctx) pieces)) = md5 (concat pieces).
Proof. apply MD5Final_represents. apply (MD5Update_all pieces _ []); [|done]. by apply MD5Init_represents. Qed.

(** ** The cookie *)

(** The bytes of a file read in pieces up to the first empty answer, and the byte
    behind it. *)
Fixpoint file_bytes (reads : list (list Z)) : list Z :=
  match reads with [] | [] :: _ => [0] | r :: reads => r ++ file_bytes reads end.
(** The beginnings of the devices, up to the first that gives enough. *)
Definition beginning (g : rngs) (content : list Z) : list Z :=
  take (Z.to_nat (if decide (0 < maxlength g) then Z.min 4096 (maxlength g) else 4096)) content.
Definition enough (g : rngs) (content : list Z) : Prop :=
  minlength g <> 0 /\ minlength g <= Z.of_nat (length (beginning g content)).
#[export] Instance enough_dec g content : Decision (enough g content).
Proof. unfold enough. apply _. Defined.
Fixpoint device_bytes (dev : string -> option (list Z)) (l : list rngs) : list Z :=
  match l with
  | [] => []
  | g :: l =>
      match dev (path g) with
      | None => device_bytes dev l
      | Some content => beginning g content ++ if decide (enough g content) then [] else device_bytes dev l
      end
  end.
Definition gathered (mc : machine) : list Z :=
  mc_tv mc ++ mc_ppid mc ++ mc_pid mc ++
  match mc_file mc with Some (Some reads) => file_bytes reads | _ => [] end ++
  device_bytes (mc_device mc) RNGS.

Lemma hash_file_represents reads : forall ctx m, represents ctx m -> Forall short reads ->
  represents (hash_file ctx reads) (m ++ file_bytes reads).
Proof.
  induction reads as [|r reads IH]; intros ctx m Hr Hs; cbn; [by apply MD5Update_represents|].
  inversion Hs; subst. destruct r as [|b r]; [by apply MD5Update_represents|].
  rewrite app_assoc. apply IH; [|done]. by apply MD5Update_represents.
Qed.
Lemma read_rngs_represents dev l : forall ctx m, represents ctx m -> Forall (fun g => 0 <= maxlength g) l ->
  represents (read_rngs dev l ctx) (m ++ device_bytes dev l).
Proof.
  induction l as [|g l IH]; intros ctx m Hr Hs; cbn [read_rngs device_bytes]; [by rewrite app_nil_r|].
  inversion Hs; subst. destruct (dev (path g)) as [content|]; [|by apply IH].
  set (count := if negb (maxlength g =? 0) && (maxlength g <? BUFFERSIZE) then maxlength g else BUFFERSIZE).
  assert (Hc : take (Z.to_nat count) content = beginning g content /\ count <= 4096).
  { unfold count, beginning, BUFFERSIZE. destruct (Z.eqb_spec (maxlength g) 0); [rewrite decide_False by lia; done|].
    cbn [negb andb]. rewrite decide_True by lia. destruct (Z.ltb_spec (maxlength g) 4096); split; try lia; do 2 f_equal; lia. }
  destruct Hc as [Hc Hle]. rewrite Hc.
  assert (Hr' : represents (if 0 <? Z.of_nat (length (beginning g content)) then MD5Update ctx (beginning g content) else ctx)
    (m ++ beginning g content)).
  { destruct (Z.ltb_spec 0 (Z.of_nat (length (beginning g content)))).
    - apply MD5Update_represents; [done|]. rewrite <- Hc, length_take. lia.
    - destruct (beginning g content); [by rewrite app_nil_r|cbn in *; lia]. }
  rewrite app_assoc. unfold enough. destruct (Z.eqb_spec (minlength g) 0); cbn [negb andb].
  - rewrite decide_False by tauto. by apply IH.
  - destruct (Z.leb_spec (minlength g) (Z.of_nat (length (beginning g content)))).
    + rewrite decide_True by done. by rewrite app_nil_r.
    + rewrite decide_False by lia. by apply IH.
Qed.

(** The cookie generator prints, in hexadecimal, the RFC's digest of what it
    gathers: the time, the process ids, the file with a byte 0 behind it, and of the
    devices the first 16 bytes of /dev/random, or as much of the others as they
    give.  The contents of the stack do not matter. *)
Theorem mcookie_digest mc ctx (Hin : length (ctx_in ctx) = 64%nat)
    (Htime : short (mc_tv mc)) (Hpids : short (mc_ppid mc) /\ short (mc_pid mc))
    (Hfile : forall reads, mc_file mc = Some (Some reads) -> Forall short reads) :
  main mc ctx = print_digest (md5 (gathered mc)).
Proof.
  unfold main. f_equal. apply MD5Final_represents. unfold gathered. rewrite !app_assoc.
  apply read_rngs_represents; [|unfold RNGS; repeat constructor; cbn; lia].
  pose proof (MD5Init_represents ctx Hin) as H0.
  apply (MD5Update_represents _ _ (mc_tv mc)) in H0; [|done].
  apply (MD5Update_represents _ _ (mc_ppid mc)) in H0; [|apply Hpids].
  apply (MD5Update_represents _ _ (mc_pid mc)) in H0; [|apply Hpids].
  destruct (mc_file mc) as [[reads|]|]; [apply hash_file_represents; [done|by apply Hfile]|by rewrite app_nil_r..].
Qed.

(** ** Examples *)

Definition stack : MD5Context := mkMD5Context (mkRegs 1 2 3 4) 5 6 (replicate 64 7).
Definition text (s : string) : list Z := code <$> String.list_ascii_of_string s.
(** From the test suite of the RFC. *)
Example md5_suite :
  print_digest (md5 []) = "d41d8cd98f00b204e9800998ecf8427e" +:+ NL /\
  print_digest (md5 (text "message digest")) = "f96b697d7cb7938d525a2f31aaf161d0" +:+ NL /\
  print_digest (md5 (text "12345678901234567890123456789012345678901234567890123456789012345678901234567890")) =
    "57edf4a22be3c955ac49da2e2107b67a" +:+ NL.
Proof. split_and!; by vm_compute. Qed.

(** [MD5Final] is to clear the context, and clears one word of it. *)
Example MD5Final_leaves : take 4 (ctx_in (snd (MD5Final (MD5Update (MD5Init stack) (text "seed"))))) = text "seed".
Proof. by vm_compute. Qed.

Lemma MD5_streams_witness :
  length (ctx_in stack) = 64%nat /\
  fst (MD5Final (foldl MD5Update (MD5Init stack) [text "message "; []; text "digest"])) = md5 (text "message digest").
Proof.
  split; [reflexivity|]. apply (MD5_streams stack [text "message "; []; text "digest"]); [reflexivity|].
  unfold short. repeat constructor; cbn; lia.
Defined.

Definition board : machine := mkMachine [1; 2; 3; 4] [5; 0; 0; 0] [6; 0; 0; 0] (Some (Some [text "seed"; []]))
  (fun p => if (p =? "/dev/urandom")%string then Some (replicate 100 9) else None).
Lemma mcookie_digest_witness :
  main board stack = print_digest (md5 ([1; 2; 3; 4; 5; 0; 0; 0; 6; 0; 0; 0] ++ text "seed" ++ [0] ++ replicate 64 9)).
Proof.
  apply (mcookie_digest board stack); [reflexivity|unfold short; cbn; lia|unfold short; cbn; lia|].
  intros reads [= <-]. unfold short. repeat constructor; cbn; lia.
Defined.
