(* ===== verification/MakeDevs.v ===== *)
(** The device table interpreter makedevs (src/buildroot/package/makedevs/makedevs.c):
    lines are read from the table, taken apart by [sscanf] and turned into the system
    calls that make directories, device nodes and their owners.

    The kernel is a parameter: its answers may depend on everything asked before. *)
From S2P Require Import Prelude CText Exc.

(** ** System calls *)

Inductive call :=
| Chdir (path : string)
| Mkdir (path : string) (mode : Z)
| Mknod (path : string) (mode major minor : Z)
| Chown (path : string) (uid gid : Z)
| Chmod (path : string) (mode : Z)
| Stat (path : string).

(** The calls so far, the last one being asked: 0 or an error number, and the mode
    [stat] finds; the numbers of users and groups known by name. *)
Class Kernel := {
  reply : list call -> Z;
  st_mode : list call -> Z;
  getpwnam : string -> option Z;
  getgrnam : string -> option Z;
}.

(** Messages with and without the text of [errno]. *)
Inductive message := Error_msg (text : string) | Perror_msg (text : string) (err : Z).

(** The process: its [umask], the calls made, the messages, and the exit status
    [ret] collected in [main]. *)
Record process := mkProcess { umask : Z; calls : list call; said : list message; ret : Z }.
Definition set_umask (m : Z) (p : process) : process := mkProcess m (calls p) (said p) (ret p).
Definition add_call (c : call) (p : process) : process := mkProcess (umask p) (calls p ++ [c])%list (said p) (ret p).
Definition add_said (m : message) (p : process) : process := mkProcess (umask p) (calls p) (said p ++ [m])%list (ret p).
Definition set_ret (r : Z) (p : process) : process := mkProcess (umask p) (calls p) (said p) r.

(** A routine may end the process: [inl] is the exit code. *)
Definition MM (A : Type) : Type := PM process (Z + A).
#[export] Instance MM_ret : MRet MM := fun A a s => Ok (inr a) s.
#[export] Instance MM_bind : MBind MM := fun A B f m s =>
  match m s with
  | Ok (inr a) s' => f a s'
  | Ok (inl code) s' => Ok (inl code) s'
  | Fault => Fault
  | NoFuel => NoFuel
  end.
Definition mexit {A} (code : Z) : MM A := fun s => Ok (inl code) s.
Definition mupdate (f : process -> process) : MM unit := fun s => Ok (inr tt) (f s).
Definition mread : MM process := fun s => Ok (inr s) s.
Definition mundef {A} : MM A := fun _ => Fault.
Definition mlift {A} (o : option A) : MM A := fun s => match o with Some a => Ok (inr a) s | None => Fault end.
Definition mwhen (b : bool) (m : MM unit) : MM unit := if b then m else mret tt.
Fixpoint mforeach {A} (f : A -> MM unit) (l : list A) : MM unit :=
  match l with [] => mret tt | a :: l => f a;; mforeach f l end.

Definition EXIT_SUCCESS : Z := 0.
Definition EXIT_FAILURE : Z := 1.
Definition EEXIST : Z := 17.
Definition EISDIR : Z := 21.
Definition S_IFMT : Z := 61440.
Definition S_IFIFO : Z := 4096.
Definition S_IFCHR : Z := 8192.
Definition S_IFDIR : Z := 16384.
Definition S_IFBLK : Z := 24576.
Definition S_IFREG : Z := 32768.
Definition is_mode (kind mode : Z) : bool := Z.land mode S_IFMT =? kind.

Definition bb_error_msg (text : string) : MM unit := mupdate (add_said (Error_msg text)).
Definition bb_perror_msg (text : string) (err : Z) : MM unit := mupdate (add_said (Perror_msg text err)).
Definition bb_error_msg_and_die {A} (text : string) : MM A := bb_error_msg text;; mexit 1.
Definition bb_perror_msg_and_die {A} (text : string) (err : Z) : MM A := bb_perror_msg text err;; mexit 1.

(** ** Lines *)

(** [private_get_line_from_file]; [buf] holds [linebuf[0 .. idx-1]].  The outer
    [None] is a write behind the [size] bytes allocated; the inner one a null
    pointer.  Read errors are not modelled. *)
Definition GROWBY : Z := 80.
Definition end_line (size : Z) (buf : option string) (rest : string) : option (option string * string) :=
  match buf with
  | None => Some (None, rest)
  | Some s => if Z.of_nat (String.length s) <? size then Some (Some s, rest) else None
  end.
Fixpoint private_get_line (c size : Z) (buf : option string) (file : string) : option (option string * string) :=
  match file with
  | EmptyString => end_line size buf EmptyString
  | String ch rest =>
      let text := default EmptyString buf in
      let idx := Z.of_nat (String.length text) in
      let '(size, buf) := if size - 2 <? idx then (i32 (size + GROWBY), Some text) else (size, buf) in
      if negb (idx <? size) then None
      else if code ch =? 0 then Some (Some text, rest)
      else if (c <? 2) && char_eqb ch nl then
        end_line size (Some (if c =? 0 then text +:+ NL else text)) rest
      else private_get_line c size (Some (text +:+ str1 ch)) rest
  end.
Definition bb_get_chomped_line_from_file (file : string) : option (option string * string) :=
  private_get_line 1 0 None file.

(** ** [sscanf] *)

Definition ULONG_MAX : Z := 18446744073709551615.
Definition starts_digit (base : Z) (s : string) : bool :=
  match s with
  | String c _ => match digit_value c with Some d => d <? base | None => false end
  | EmptyString => false
  end.
(** [strtoul] for the bases 8 and 10, with what is behind the number; [None] when
    there is none. *)
Definition strtoul (base : Z) (s : string) : option (Z * string) :=
  let s := skip_space s in
  let '(neg, s) := match s with
                   | String c t => if char_eqb c "-" then (true, t)
                                   else if char_eqb c "+" then (false, t) else (false, s)
                   | EmptyString => (false, s)
                   end in
  if starts_digit base s then
    let '(v, rest) := scan_digits base 0 s in
    Some (if ULONG_MAX <? v then ULONG_MAX else u64 (if neg : bool then - v else v), rest)
  else None.

(** What the conversions have assigned; [None] is not initialised. *)
Record fields := mkFields {
  f_name : option string; f_type : option Ascii.ascii; f_mode : Z;
  f_user : option string; f_group : option string;
  f_major : Z; f_minor : Z; f_start : Z; f_increment : Z; f_count : Z }.
Definition no_fields : fields := mkFields None None 493 None None 0 0 0 0 0.

(** The first [n] characters of a word, and the rest. *)
Fixpoint take_word (n : nat) (s : string) : string * string :=
  match n, s with
  | S n, String c t => if isspace c then (EmptyString, s) else let '(a, b) := take_word n t in (String c a, b)
  | _, _ => (EmptyString, s)
  end.
Definition conversion : Type := fields -> string -> option (fields * string).
(** [%<n>s] *)
Definition scan_word (n : nat) (set : string -> fields -> fields) : conversion := fun f s =>
  match take_word n (skip_space s) with
  | (EmptyString, _) => None
  | (w, rest) => Some (set w f, rest)
  end.
(** A blank and [%c]. *)
Definition scan_char (set : Ascii.ascii -> fields -> fields) : conversion := fun f s =>
  match skip_space s with String c rest => Some (set c f, rest) | EmptyString => None end.
(** [%o] and [%u] *)
Definition scan_unsigned (base : Z) (set : Z -> fields -> fields) : conversion := fun f s =>
  '(v, rest) ← strtoul base s; Some (set (u32 v) f, rest).

(** The number of conversions made, and the fields. *)
Fixpoint sscanf (cs : list conversion) (n : nat) (f : fields) (s : string) : nat * fields :=
  match cs with
  | [] => (n, f)
  | c :: cs => match c f s with None => (n, f) | Some (f, rest) => sscanf cs (S n) f rest end
  end.
(** "%4095s %c %o %40s %40s %u %u %u %u %u" *)
Definition line_format : list conversion := [
  scan_word 4095 (fun w f => mkFields (Some w) (f_type f) (f_mode f) (f_user f) (f_group f) (f_major f) (f_minor f) (f_start f) (f_increment f) (f_count f));
  scan_char (fun c f => mkFields (f_name f) (Some c) (f_mode f) (f_user f) (f_group f) (f_major f) (f_minor f) (f_start f) (f_increment f) (f_count f));
  scan_unsigned 8 (fun v f => mkFields (f_name f) (f_type f) v (f_user f) (f_group f) (f_major f) (f_minor f) (f_start f) (f_increment f) (f_count f));
  scan_word 40 (fun w f => mkFields (f_name f) (f_type f) (f_mode f) (Some w) (f_group f) (f_major f) (f_minor f) (f_start f) (f_increment f) (f_count f));
  scan_word 40 (fun w f => mkFields (f_name f) (f_type f) (f_mode f) (f_user f) (Some w) (f_major f) (f_minor f) (f_start f) (f_increment f) (f_count f));
  scan_unsigned 10 (fun v f => mkFields (f_name f) (f_type f) (f_mode f) (f_user f) (f_group f) v (f_minor f) (f_start f) (f_increment f) (f_count f));
  scan_unsigned 10 (fun v f => mkFields (f_name f) (f_type f) (f_mode f) (f_user f) (f_group f) (f_major f) v (f_start f) (f_increment f) (f_count f));
  scan_unsigned 10 (fun v f => mkFields (f_name f) (f_type f) (f_mode f) (f_user f) (f_group f) (f_major f) (f_minor f) v (f_increment f) (f_count f));
  scan_unsigned 10 (fun v f => mkFields (f_name f) (f_type f) (f_mode f) (f_user f) (f_group f) (f_major f) (f_minor f) (f_start f) v (f_count f));
  scan_unsigned 10 (fun v f => mkFields (f_name f) (f_type f) (f_mode f) (f_user f) (f_group f) (f_major f) (f_minor f) (f_start f) (f_increment f) v)].
Definition scan_line (line : string) : nat * fields := sscanf line_format 0 no_fields line.
(** The numbers or-ed and compared with 0xfffff. *)
Definition too_big (f : fields) : bool :=
  1048575 <? Z.lor (Z.lor (Z.lor (Z.lor (f_major f) (f_minor f)) (f_start f)) (f_count f)) (f_increment f).

(** ** Names *)

(** [strrchr]: the text behind the last [c]. *)
Fixpoint strrchr (c : Ascii.ascii) (s : string) : option string :=
  match s with
  | EmptyString => None
  | String d t => match strrchr c t with Some r => Some r | None => if char_eqb d c then Some t else None end
  end.
Definition last_char_is (s : string) (c : Ascii.ascii) : bool :=
  match strrchr c s with Some EmptyString => true | _ => false end.
Fixpoint skip_slashes (s : string) : string :=
  match s with String c t => if char_eqb c "/" then skip_slashes t else s | EmptyString => s end.
Definition concat_path_file (path filename : string) : string :=
  path +:+ (if last_char_is path "/" then "" else "/") +:+ skip_slashes filename.

Section MakeDevs.
Context `{Kernel}.

Definition ask (c : call) : MM Z :=
  mupdate (add_call c);; p ← mread; mret (reply (calls p)).
Definition stat (path : string) : MM (Z * Z) :=
  e ← ask (Stat path); p ← mread; mret (e, st_mode (calls p)).
(** [umask(m)] returns the old mask. *)
Definition swap_umask (m : Z) : MM Z := p ← mread; mupdate (set_umask m);; mret (umask p).

Definition my_getpwnam (name : string) : MM Z :=
  match getpwnam name with Some u => mret u | None => bb_error_msg_and_die ("unknown user name: " +:+ name) end.
Definition my_getgrnam (name : string) : MM Z :=
  match getgrnam name with Some g => mret g | None => bb_error_msg_and_die ("unknown group name: " +:+ name) end.
Definition get_ug_id (s : string) (my_getxxnam : string -> MM Z) : MM Z :=
  match strtoul 10 s with
  | Some (r, EmptyString) => mret r
  | _ => r ← my_getxxnam s; mret (u64 r)
  end.

(** ** Directories *)

(** Up to and with the next run of slashes, and the rest. *)
Definition is_slash (c : Ascii.ascii) : bool := char_eqb c "/".
Fixpoint next_parent (s : string) : string * string :=
  match s with
  | EmptyString => (EmptyString, EmptyString)
  | String c t => if is_slash c then span is_slash s else let '(a, b) := next_parent t in (String c a, b)
  end.

Definition has_errno (e : Z) (l : list Z) : bool := bool_decide (e ∈ l).
(** The loop of [bb_make_directory]: [front] is the path up to [s], [s] the rest.
    [bad] is the [errno] of a directory that is not there afterwards. *)
Fixpoint make_parents (n : nat) (front s : string) (mode : Z) (recur : bool) (mask : Z) : MM Z :=
  match n with
  | O => fun _ => NoFuel
  | S n =>
      let '(a, rest) := if recur then next_parent s else (s, EmptyString) in
      let path := front +:+ a in
      let c := negb (bool_decide (rest = EmptyString)) in
      let fail what err := bb_perror_msg ("Cannot " +:+ what +:+ " directory `" +:+ path +:+ "'") err;; mret (-1) in
      e ← ask (Mkdir path 511);
      bad ← (if e =? 0 then mret None
             else if negb (has_errno e [EEXIST; EISDIR]) || negb recur then mret (Some e)
             else st ← stat path;
                  mret (if negb (st.1 =? 0) then Some st.1 else if is_mode S_IFDIR st.2 then None else Some e));
      match bad with Some err => swap_umask mask;; fail "create" err | None =>
      if negb (e =? 0) && negb c then swap_umask mask;; mret 0
      else if negb c then
        swap_umask mask;;
        if mode =? -1 then mret 0
        else
          e ← ask (Chmod path mode);
          if e =? 0 then mret 0 else fail "set permissions of" e
      else make_parents n path rest mode recur mask
      end
  end.
Definition bb_make_directory (path : string) (mode : Z) (recur : bool) : MM Z :=
  mask ← swap_umask 0;
  mode ← (if mode =? -1 then swap_umask mask;; mret (Z.land 511 (Z.lnot mask))
          else swap_umask (Z.land mask (Z.lnot 192));; mret mode);
  make_parents (S (String.length path)) EmptyString path mode recur mask.

(** ** Table entries *)

Definition fail_line (linenum : Z) (text : string) (err : Z) : MM unit :=
  bb_perror_msg ("line " +:+ fmt_d linenum +:+ ": " +:+ text) err;; mupdate (set_ret EXIT_FAILURE).
(** [mode] is unsigned, so [mode != -1] is a comparison with [UINT_MAX]. *)
Definition chmod_line (linenum : Z) (path : string) (mode : Z) : MM unit :=
  if mode =? 4294967295 then mret tt else
  e ← ask (Chmod path mode);
  mwhen (negb (e =? 0)) (fail_line linenum ("chmod failed for " +:+ path) e).

(** One node: [mknod], [chown] when it worked, [chmod] in any case. *)
Definition make_node (linenum : Z) (path : string) (mode major minor uid gid : Z) : MM unit :=
  e ← ask (Mknod path mode major minor);
  (if negb (e =? 0) then fail_line linenum ("Couldnt create node " +:+ path) e
   else
     e ← ask (Chown path uid gid);
     mwhen (negb (e =? 0)) (fail_line linenum ("chown failed for " +:+ path) e));;
  chmod_line linenum path mode.

(** The owner, then the mode of what exists. *)
Definition own (linenum : Z) (path : string) (mode uid gid : Z) : MM unit :=
  e ← ask (Chown path uid gid);
  if negb (e =? 0) then fail_line linenum ("chown failed for " +:+ path) e
  else chmod_line linenum path mode.

Definition node_kind (type : Ascii.ascii) : option Z :=
  if char_eqb type "p" then Some S_IFIFO
  else if char_eqb type "c" then Some S_IFCHR
  else if char_eqb type "b" then Some S_IFBLK
  else None.

(** [full_name_inc] has room for the name and 8 bytes more. *)
Definition numbered (name : string) (k : Z) : option string :=
  let text := name +:+ fmt_d (i32 k) in
  if (String.length text <? String.length name + 8)%nat then Some text else None.
Definition make_nodes (linenum : Z) (name : string) (mode uid gid : Z) (f : fields) : MM unit :=
  if 0 <? f_count f then
    mforeach (fun i =>
      path ← mlift (numbered name (u32 (f_start f + i)));
      make_node linenum path mode (f_major f) (u32 (f_minor f + u32 (i * f_increment f))) uid gid)
      (range 0 (f_count f))
  else make_node linenum name mode (f_major f) (f_minor f) uid gid.

(** No word is empty, so [getgid()] and [getuid()] are never reached; a file that
    is there but not regular is reported with the [errno] of before, here 0. *)
Definition run_entry (linenum : Z) (rootdir : string) (f : fields) (name : string) (type : Ascii.ascii) : MM unit :=
  group ← mlift (f_group f);
  gid ← get_ug_id group my_getgrnam;
  user ← mlift (f_user f);
  uid ← get_ug_id user my_getpwnam;
  let uid := u32 uid in let gid := u32 gid in
  let full_name := concat_path_file rootdir name in
  let mode := f_mode f in
  if char_eqb type "d" then
    bb_make_directory full_name (Z.lor mode S_IFDIR) true;;
    own linenum full_name mode uid gid
  else if char_eqb type "f" then
    st ← stat full_name;
    if negb (st.1 =? 0) || negb (is_mode S_IFREG st.2)
    then fail_line linenum ("regular file '" +:+ full_name +:+ "' does not exist") st.1
    else own linenum full_name mode uid gid
  else
    match node_kind type with
    | Some kind => make_nodes linenum full_name (Z.lor mode kind) uid gid f
    | None =>
        bb_error_msg ("line " +:+ fmt_d linenum +:+ ": Unsupported file type " +:+ str1 type);;
        mupdate (set_ret EXIT_FAILURE)
    end.

Definition run_line (linenum : Z) (rootdir line : string) : MM unit :=
  let '(n, f) := scan_line line in
  if (n <? 2)%nat || too_big f then
    match line with
    | EmptyString => mret tt
    | String c _ =>
        if char_eqb c "#" || isspace c then mret tt
        else bb_error_msg ("line " +:+ fmt_d linenum +:+ " invalid: '" +:+ line +:+ "'" +:+ NL);; mupdate (set_ret EXIT_FAILURE)
    end
  else
    name ← mlift (f_name f);
    type ← mlift (f_type f);
    match name with
    | String c _ => if char_eqb c "#" then mret tt else run_entry linenum rootdir f name type
    | EmptyString => run_entry linenum rootdir f name type
    end.

(** The loop over the lines of the table. *)
Fixpoint run_table (n : nat) (linenum : Z) (rootdir table : string) : MM unit :=
  match n with
  | O => fun _ => NoFuel
  | S n =>
      '(line, rest) ← mlift (bb_get_chomped_line_from_file table);
      match line with
      | None => mret tt
      | Some line => run_line (i32 (linenum + 1)) rootdir line;; run_table n (i32 (linenum + 1)) rootdir rest
      end
  end.

(** [main] behind the options: the text of the table and the directory.  What it
    prints on the standard output is left out. *)
Definition main (rootdir : option string) (table : string) : MM Z :=
  match rootdir with
  | None => bb_error_msg_and_die "root directory not speficied"
  | Some rootdir =>
      e ← ask (Chdir rootdir);
      if negb (e =? 0) then bb_perror_msg_and_die ("Couldnt chdir to " +:+ rootdir) e
      else
        swap_umask 0;;
        run_table (S (String.length table)) 0 rootdir table;;
        p ← mread; mret (ret p)
  end.
End MakeDevs.
