(* ===== verification/MakeDevsFacts.v ===== *)
(** What makedevs makes of a device table: the lines it reads, the nodes it asks the
    kernel for, its exit status, and that it stays inside its buffers. *)
From S2P Require Import Prelude CText Exc MakeDevs.
Local Open Scope list_scope.

(** ** Lines *)

(** The line [acc] has been begun, [begun] with at least one character. *)
Definition ends_line (c : Ascii.ascii) : bool := (code c =? 0) || char_eqb c nl.
Fixpoint next_line (acc : string) (begun : bool) (s : string) : option string * string :=
  match s with
  | EmptyString => (if begun then Some acc else None, EmptyString)
  | String c t => if ends_line c then (Some acc, t) else next_line (acc +:+ str1 c) true t
  end.
Fixpoint lines_from (acc : string) (begun : bool) (s : string) : list string :=
  match s with
  | EmptyString => if begun then [acc] else []
  | String c t => if ends_line c then acc :: lines_from EmptyString false t else lines_from (acc +:+ str1 c) true t
  end.
(** The table cut at line ends and NULs. *)
Definition table_lines (s : string) : list string := lines_from EmptyString false s.

(** Enough for the sizes of the buffer to be [int]s. *)
Definition short (s : string) : Prop := Z.of_nat (String.length s) < 2147483400.

Lemma lines_next s : forall acc begun, lines_from acc begun s =
  match next_line acc begun s with (None, _) => [] | (Some l, rest) => l :: table_lines rest end.
Proof.
  induction s as [|c s IH]; intros acc begun; cbn; [by destruct begun|]. by destruct (ends_line c); [|rewrite IH].
Qed.
Lemma next_line_shorter s : forall acc begun l rest, next_line acc begun s = (Some l, rest) ->
  (String.length rest < String.length s \/ (s = EmptyString /\ begun = true /\ rest = EmptyString))%nat.
Proof.
  induction s as [|c s IH]; intros acc begun l rest; cbn.
  - destruct begun; [|done]. intros [= _ <-]. by right.
  - destruct (ends_line c); [intros [= _ <-]; left; cbn; lia|].
    intros [?|(-> & _ & ->)]%IH; left; cbn; lia.
Qed.

Lemma get_line_next file : forall size buf,
  (buf = None /\ size = 0 \/ exists s, buf = Some s /\ Z.of_nat (String.length s) < size <= Z.of_nat (String.length s) + 81) ->
  Z.of_nat (String.length (default EmptyString buf)) + Z.of_nat (String.length file) < 2147483400 ->
  private_get_line 1 size buf file = Some (next_line (default EmptyString buf) (bool_decide (buf <> None)) file).
Proof.
  induction file as [|c file IH]; intros size buf Hb Hl; cbn [private_get_line next_line].
  - destruct Hb as [[-> ->]|(s & -> & Hs)]; [done|]. unfold end_line.
    destruct (Z.ltb_spec (Z.of_nat (String.length s)) size); [done|lia].
  - set (text := default EmptyString buf) in *. set (n := Z.of_nat (String.length text)) in *. cbn [String.length] in Hl.
    assert (H : exists size', (if size - 2 <? n then (i32 (size + GROWBY), Some text) else (size, buf)) = (size', Some text)
      /\ n + 1 < size' <= n + 81).
    { unfold GROWBY. destruct Hb as [[-> ->]|(s & -> & Hs)].
      - exists 80. split; [done|]. cbn in n. lia.
      - cbn in text, n. subst text. destruct (Z.ltb_spec (size - 2) n).
        + exists (i32 (size + 80)). split; [done|]. rewrite i32_id by (unfold is_i32; lia). lia.
        + exists size. split; [done|lia]. }
    destruct H as (size' & -> & Hs). destruct (Z.ltb_spec n size'); [|lia]. cbn [negb].
    unfold ends_line. destruct (code c =? 0); [done|]. cbn [orb]. change (1 <? 2) with true. cbn [andb].
    destruct (char_eqb c nl).
    + change (1 =? 0) with false. cbn iota. unfold end_line. fold n. destruct (Z.ltb_spec n size'); [done|lia].
    + rewrite IH; [done| |].
      * right. eexists. split; [done|]. rewrite length_app_s. cbn [String.length str1]. lia.
      * change (default EmptyString (Some (text +:+ str1 c))) with (text +:+ str1 c). rewrite length_app_s. cbn [String.length str1]. lia.
Qed.
Lemma chomped_line file : short file -> bb_get_chomped_line_from_file file = Some (next_line EmptyString false file).
Proof. intros Hs. unfold bb_get_chomped_line_from_file. rewrite get_line_next; [done|by left|cbn; unfold short in Hs; lia]. Qed.

Section Facts.
Context `{Kernel}.

(** Binds in the monad of the process. *)
Lemma mrun_bind {A B} (m : MM A) (f : A -> MM B) p a p' : m p = Ok (inr a) p' -> (m ≫= f) p = f a p'.
Proof. unfold mbind, MM_bind. by intros ->. Qed.

(** The table, line by line. *)
Fixpoint run_lines (linenum : Z) (rootdir : string) (lines : list string) : MM unit :=
  match lines with
  | [] => mret tt
  | line :: lines => run_line (i32 (linenum + 1)) rootdir line;; run_lines (i32 (linenum + 1)) rootdir lines
  end.
Lemma run_table_lines n : forall linenum rootdir table p, short table -> (String.length table < n)%nat ->
  run_table n linenum rootdir table p = run_lines linenum rootdir (table_lines table) p.
Proof.
  induction n as [|n IH]; intros linenum rootdir table p Hs Hn; [lia|]. cbn [run_table].
  rewrite chomped_line by done. unfold table_lines. rewrite lines_next.
  destruct (next_line EmptyString false table) as [[l|] rest] eqn:E; [|done].
  apply next_line_shorter in E as [Hlt|(_ & [=] & _)]. cbn [run_lines mlift]. unfold mbind, MM_bind, mlift.
  destruct (run_line _ rootdir l p) as [[code|u] p'| |]; try done. apply IH; [unfold short in *; lia|lia].
Qed.

(** ** No undefined behaviour *)

(** [safe m]: [m] ends without undefined behaviour. *)
Definition safe {A} (m : MM A) : Prop := forall p, match m p with Ok _ _ => True | _ => False end.
Lemma safe_bind {A B} (m : MM A) (f : A -> MM B) : safe m -> (forall a, safe (f a)) -> safe (m ≫= f).
Proof.
  intros Hm Hf p. unfold mbind, MM_bind. specialize (Hm p). destruct (m p) as [[code|a] p'| |]; [done| |done..]. apply Hf.
Qed.
Lemma safe_ret {A} (a : A) : safe (mret a).
Proof. done. Qed.
Lemma safe_exit {A} code : safe (mexit code : MM A).
Proof. done. Qed.
Lemma safe_update f : safe (mupdate f).
Proof. done. Qed.
Lemma safe_read : safe mread.
Proof. done. Qed.
Lemma safe_lift {A} (a : A) : safe (mlift (Some a)).
Proof. done. Qed.
Lemma safe_foreach {A} (f : A -> MM unit) l : (forall a, a ∈ l -> safe (f a)) -> safe (mforeach f l).
Proof.
  induction l as [|a l IH]; intros Hf; [apply safe_ret|]. cbn. apply safe_bind; [apply Hf; left|]. intros _.
  apply IH. intros b Hb. apply Hf. by right.
Qed.
Create HintDb safe discriminated.
#[local] Hint Resolve safe_ret safe_exit safe_update safe_read safe_lift : safe.
Ltac safe_step :=
  match goal with
  | |- safe (_ ≫= _) => apply safe_bind; [|intros ?]
  | |- safe (match ?x with _ => _ end) => destruct x
  | |- safe _ => solve [eauto with safe nocore]
  end.
Ltac safely := repeat (safe_step; cbn beta zeta).

Lemma safe_ask c : safe (ask c).
Proof. unfold ask. safely. Qed.
Lemma safe_stat path : safe (stat path).
Proof. unfold stat. apply safe_bind; [apply safe_ask|]. intros. safely. Qed.
Lemma safe_swap m : safe (swap_umask m).
Proof. unfold swap_umask. safely. Qed.
Lemma safe_perror t e : safe (bb_perror_msg t e).
Proof. apply safe_update. Qed.
Lemma safe_error t : safe (bb_error_msg t).
Proof. apply safe_update. Qed.
#[local] Hint Resolve safe_ask safe_stat safe_swap safe_perror safe_error : safe.
Lemma safe_ug_id s get : (forall n, safe (get n)) -> safe (get_ug_id s get).
Proof. intros Hg. unfold get_ug_id. pose proof (Hg s). safely. Qed.
Lemma safe_user n : safe (my_getpwnam n).
Proof. unfold my_getpwnam, bb_error_msg_and_die. safely. Qed.
Lemma safe_group n : safe (my_getgrnam n).
Proof. unfold my_getgrnam, bb_error_msg_and_die. safely. Qed.
Lemma safe_fail l t e : safe (fail_line l t e).
Proof. unfold fail_line. safely. Qed.
#[local] Hint Resolve safe_fail : safe.
Lemma safe_when b m : safe m -> safe (mwhen b m).
Proof. by destruct b. Qed.
#[local] Hint Resolve safe_when : safe.
Lemma safe_chmod l path mode : safe (chmod_line l path mode).
Proof. unfold chmod_line. safely. Qed.
#[local] Hint Resolve safe_chmod : safe.
Lemma safe_own l path mode u g : safe (own l path mode u g).
Proof. unfold own. safely. Qed.
Lemma safe_node l path mode ma mi u g : safe (make_node l path mode ma mi u g).
Proof. unfold make_node. safely. Qed.
#[local] Hint Resolve safe_own safe_node : safe.

(** Every round of [bb_make_directory] moves on. *)
Lemma next_parent_shorter s : s <> EmptyString -> (String.length (next_parent s).2 < String.length s)%nat.
Proof.
  induction s as [|c s IH]; [done|]. intros _. cbn [next_parent]. destruct (is_slash c) eqn:Ec.
  - cbn [span]. rewrite Ec. pose proof (span_length is_slash s). destruct (span is_slash s). cbn in *. lia.
  - destruct s as [|d s]; [cbn; lia|]. specialize (IH ltac:(done)). destruct (next_parent (String d s)). cbn in *. lia.
Qed.
Lemma parent_moves (recur : bool) (s a rest : string) n : (if recur then next_parent s else (s, EmptyString)) = (a, rest) -> rest <> EmptyString ->
  (String.length s < S n)%nat -> (String.length rest < n)%nat.
Proof.
  intros E Hr Hn. destruct recur; [|injection E as _ <-; done].
  assert (s <> EmptyString) by (intros ->; cbn in E; injection E as _ <-; done).
  pose proof (next_parent_shorter s) as Hlt. rewrite E in Hlt. specialize (Hlt ltac:(done)). cbn in Hlt. lia.
Qed.
Lemma safe_parents n : forall front s mode recur mask, (String.length s < n)%nat -> safe (make_parents n front s mode recur mask).
Proof.
  induction n as [|n IH]; intros front s mode recur mask Hn; [lia|]. cbn [make_parents].
  destruct (if recur then next_parent s else (s, EmptyString)) as [a rest] eqn:E. cbn zeta.
  apply safe_bind; [apply safe_ask|intros e]. apply safe_bind; [safely|intros bad].
  destruct bad; [safely|]. destruct (negb (e =? 0) && _); [safely|].
  case_bool_decide as Hr; [cbn [negb]; safely|]. cbn [negb]. apply IH. by eapply parent_moves.
Qed.
Lemma safe_directory path mode recur : safe (bb_make_directory path mode recur).
Proof.
  unfold bb_make_directory. apply safe_bind; [apply safe_swap|intros mask]. apply safe_bind; [safely|intros m].
  apply safe_parents. lia.
Qed.
#[local] Hint Resolve safe_directory : safe.

(** The number behind a name has at most seven digits. *)
Lemma write_digits_bound f base : 2 <= base -> forall n acc k, 0 <= n < base ^ Z.of_nat k -> (0 < k)%nat ->
  (String.length (write_digits f base n acc) <= k + String.length acc)%nat.
Proof.
  intros Hb. induction f as [|f IH]; intros n acc k Hn Hk; cbn [write_digits]; [lia|].
  destruct (Z.eqb_spec (n / base) 0) as [E|E]; [cbn; lia|]. destruct k as [|[|k]]; [lia| |].
  - rewrite Z.pow_1_r in Hn. rewrite Z.div_small in E by lia. done.
  - specialize (IH (n / base) (String (digit_char (n mod base)) acc) (S k)).
    cbn [String.length] in IH. enough (0 <= n / base < base ^ Z.of_nat (S k)) by (specialize (IH ltac:(done) ltac:(lia)); lia).
    split; [apply Z.div_pos; lia|]. apply Z.div_lt_upper_bound; [lia|].
    rewrite <- Z.pow_succ_r, <- Nat2Z.inj_succ by lia. apply Hn.
Qed.
Lemma digits_length base n k : 2 <= base -> 0 <= n < base ^ Z.of_nat k -> (0 < k)%nat -> (String.length (digits base n) <= k)%nat.
Proof. intros Hb Hn Hk. pose proof (write_digits_bound (S (Z.to_nat (Z.log2 n))) base Hb n EmptyString k Hn Hk). cbn in *. unfold digits. lia. Qed.
Lemma numbered_fits name k : 0 <= k < 10000000 -> numbered name k = Some (name +:+ fmt_d k).
Proof.
  intros Hk. unfold numbered. rewrite i32_id by (unfold is_i32; lia). rewrite length_app_s.
  pose proof (digits_length 10 k 7 ltac:(lia) ltac:(cbn; lia) ltac:(lia)) as Hl. unfold fmt_d in *.
  destruct (Z.ltb_spec k 0); [lia|]. by destruct (Nat.ltb_spec (String.length name + String.length (digits 10 k)) (String.length name + 8)); [|lia].
Qed.

(** The numbers that pass the check. *)
Lemma lor_small a b : is_u32 a -> is_u32 b -> Z.lor a b <= 1048575 -> a <= 1048575 /\ b <= 1048575.
Proof.
  unfold is_u32. intros Ha Hb Hl.
  assert (Hmono : forall x y, 0 <= x -> 0 <= y -> x <= Z.lor x y).
  { intros x y Hx Hy. apply Z.ldiff_le; [by apply Z.lor_nonneg|].
    apply Z.bits_inj'. intros i Hi. rewrite Z.ldiff_spec, Z.lor_spec, Z.bits_0. by destruct (Z.testbit x i). }
  pose proof (Hmono a b ltac:(lia) ltac:(lia)). pose proof (Hmono b a ltac:(lia) ltac:(lia)) as H2. rewrite Z.lor_comm in H2. lia.
Qed.

(** ** What the conversions assign *)

Definition assigned (n : nat) (f : fields) : Prop :=
  (1 <= n -> is_Some (f_name f))%nat /\ (2 <= n -> is_Some (f_type f))%nat /\
  (4 <= n -> is_Some (f_user f))%nat /\ (5 <= n -> is_Some (f_group f))%nat /\
  is_u32 (f_major f) /\ is_u32 (f_minor f) /\ is_u32 (f_start f) /\ is_u32 (f_increment f) /\ is_u32 (f_count f).
Lemma scan_word_inv n set f s f' rest : scan_word n set f s = Some (f', rest) -> exists w, f' = set w f.
Proof. unfold scan_word. destruct (take_word n (skip_space s)) as [[|c w] r]; [done|]. intros [= <- _]. eauto. Qed.
Lemma scan_char_inv set f s f' rest : scan_char set f s = Some (f', rest) -> exists c, f' = set c f.
Proof. unfold scan_char. destruct (skip_space s); [done|]. intros [= <- _]. eauto. Qed.
Lemma scan_unsigned_inv base set f s f' rest : scan_unsigned base set f s = Some (f', rest) -> exists v, f' = set v f /\ is_u32 v.
Proof.
  unfold scan_unsigned. destruct (strtoul base s) as [[v r]|]; [|done]. cbn. intros [= <- _].
  exists (u32 v). split; [done|apply u32_range].
Qed.
Lemma sscanf_assigned cs : forall n f s m f', (exists pre, line_format = pre ++ cs /\ length pre = n) -> assigned n f ->
  sscanf cs n f s = (m, f') -> assigned m f'.
Proof.
  induction cs as [|c cs IH]; intros n f s m f' (pre & Hpre & Hlen) Ha; cbn [sscanf]; [by intros [= <- <-]|].
  destruct (c f s) as [[f1 rest]|] eqn:Ec; [|by intros [= <- <-]].
  apply IH; [exists (pre ++ [c]); rewrite <- app_assoc, length_app; cbn; split; [done|lia]|].
  assert (Hc : line_format !! n = Some c) by (rewrite Hpre, lookup_app_r, Hlen, Nat.sub_diag by lia; done).
  destruct Ha as (H1 & H2 & H3 & H4 & H5 & H6 & H7 & H8 & H9). unfold line_format in Hc.
  do 10 (destruct n as [|n]; [cbn in Hc; injection Hc as <-;
    (apply scan_word_inv in Ec as [w ->] || apply scan_char_inv in Ec as [w ->] || apply scan_unsigned_inv in Ec as (w & -> & ?));
    unfold assigned; cbn; split_and!; intros;
    first [done | lia | by eexists | apply H1; lia | apply H2; lia | apply H3; lia | apply H4; lia]|]).
  done.
Qed.
Lemma scan_assigned line n f : scan_line line = (n, f) -> assigned n f.
Proof.
  apply sscanf_assigned; [by exists []|]. unfold assigned, is_u32. cbn. split_and!; lia || done.
Qed.
Lemma too_big_small n f : assigned n f -> too_big f = false ->
  f_major f <= 1048575 /\ f_minor f <= 1048575 /\ 0 <= f_start f <= 1048575 /\ 0 <= f_count f <= 1048575 /\ f_increment f <= 1048575.
Proof.
  intros (_ & _ & _ & _ & Ma & Mi & St & In & Co) Hb. unfold too_big in Hb. apply Z.ltb_ge in Hb.
  assert (Hlor : forall a b, is_u32 a -> is_u32 b -> is_u32 (Z.lor a b)).
  { unfold is_u32. intros a b Ha Hb'. split; [apply Z.lor_nonneg; lia|]. change 4294967296 with (2 ^ 32).
    destruct (Z.eq_dec (Z.lor a b) 0) as [->|Hn]; [lia|]. assert (0 <= Z.lor a b) by (apply Z.lor_nonneg; lia).
    apply Z.log2_lt_pow2; [lia|]. rewrite Z.log2_lor by lia.
    apply Z.max_lub_lt; (destruct (Z.eq_dec a 0), (Z.eq_dec b 0); subst; try (cbn; lia); apply Z.log2_lt_pow2; lia). }
  apply lor_small in Hb as [Hb ?]; [|by repeat apply Hlor|done].
  apply lor_small in Hb as [Hb ?]; [|by repeat apply Hlor|done].
  apply lor_small in Hb as [Hb ?]; [|by repeat apply Hlor|done].
  apply lor_small in Hb as [Hb ?]; [|done..]. unfold is_u32 in *. lia.
Qed.

(** ** Lines with an owner *)

(** The line is skipped, reported, or names a user and a group. *)
Definition has_owner (line : string) : bool :=
  let '(n, f) := scan_line line in
  (n <? 2)%nat || too_big f || (5 <=? n)%nat
  || match f_name f with Some (String c _) => char_eqb c "#" | _ => false end.

Lemma safe_nodes l name mode u g f n : assigned n f -> too_big f = false -> safe (make_nodes l name mode u g f).
Proof.
  intros Ha Hb. pose proof (too_big_small n f Ha Hb) as Hs. unfold make_nodes. destruct (0 <? f_count f); [|apply safe_node].
  apply safe_foreach. intros i Hi. apply elem_of_range in Hi. rewrite (u32_id (f_start f + i)) by (unfold is_u32; lia).
  rewrite numbered_fits by lia. apply safe_bind; [apply safe_lift|]. intros path. apply safe_node.
Qed.
Lemma safe_entry l root f name type n : assigned n f -> too_big f = false -> (5 <= n)%nat -> safe (run_entry l root f name type).
Proof.
  intros Ha Hb Hn. pose proof Ha as (_ & _ & Hu & Hg & _). destruct (Hu ltac:(lia)) as [user Eu]. destruct (Hg ltac:(lia)) as [group Eg].
  unfold run_entry. rewrite Eu, Eg. apply safe_bind; [apply safe_lift|intros g].
  apply safe_bind; [apply safe_ug_id, safe_group|intros gid]. apply safe_bind; [apply safe_lift|intros u].
  apply safe_bind; [apply safe_ug_id, safe_user|intros uid]. cbn zeta.
  destruct (char_eqb type "d"); [safely|]. destruct (char_eqb type "f"); [safely|].
  destruct (node_kind type); [by eapply safe_nodes|safely].
Qed.
Lemma safe_line l root line : has_owner line = true -> safe (run_line l root line).
Proof.
  unfold has_owner, run_line. destruct (scan_line line) as [n f] eqn:E. intros Ho.
  apply scan_assigned in E as Ha. destruct ((n <? 2)%nat) eqn:En; cbn [orb] in *; [safely|].
  destruct (too_big f) eqn:Eb; cbn [orb] in *; [safely|]. apply Nat.ltb_ge in En.
  pose proof Ha as (Hn & Ht & _). destruct (Hn ltac:(lia)) as [name Ename]. destruct (Ht ltac:(lia)) as [type Etype].
  rewrite Ename, Etype in *. cbn [mlift] in *.
  change (safe (match name with
    | String c _ => if char_eqb c "#" then mret tt else run_entry l root f name type
    | EmptyString => run_entry l root f name type
    end)).
  destruct name as [|c name].
  - apply orb_true_iff in Ho as [Ho|[=]]. apply Nat.leb_le in Ho. by eapply safe_entry.
  - destruct (char_eqb c "#"); [safely|]. apply orb_true_iff in Ho as [Ho|[=]]. apply Nat.leb_le in Ho. by eapply safe_entry.
Qed.

Lemma safe_lines root lines : Forall (fun l => has_owner l = true) lines -> forall n, safe (run_lines n root lines).
Proof.
  induction 1 as [|line lines Hl _ IH]; intros n; [apply safe_ret|]. cbn [run_lines].
  apply safe_bind; [by apply safe_line|intros _]. apply IH.
Qed.
Lemma main_ends root table p : short table -> Forall (fun l => has_owner l = true) (table_lines table) ->
  exists r p', main root table p = Ok r p'.
Proof.
  intros Hs Hl. assert (Hsafe : match main root table p with Ok _ _ => True | _ => False end).
  2: { destruct (main root table p) as [r p'| |]; [by exists r, p'|done..]. }
  unfold main. destruct root as [root|]; [|done].
  unfold mbind at 1, MM_bind at 1. destruct (ask (Chdir root) p) as [[?|e] p1| |] eqn:E; [done| |by pose proof (safe_ask (Chdir root) p) as Hf; rewrite E in Hf..].
  destruct (negb (e =? 0)); [done|]. unfold mbind at 1, MM_bind at 1.
  pose proof (safe_swap 0 p1) as Hf. destruct (swap_umask 0 p1) as [[?|m] p2| |]; [done| |done..].
  unfold mbind, MM_bind. rewrite run_table_lines by (done || lia).
  pose proof (safe_lines root _ Hl 0 p2) as Hr. destruct (run_lines 0 root (table_lines table) p2) as [[?|?] p3| |]; done.
Qed.

(** C35. Whatever a table contains, makedevs comes to an end without leaving its line
    and name buffers or reading a name, type or owner it has not scanned, provided
    that every line it takes as an entry has at least five columns. *)
Theorem makedevs_in_bounds root table p : short table -> Forall (fun l => has_owner l = true) (table_lines table) ->
  exists r p', main root table p = Ok r p'.
Proof. apply main_ends. Qed.
End Facts.
