(* ===== verification/MakeDevsTable.v ===== *)
(** Device tables as data: what makedevs asks the kernel for when it reads the text
    of a table of entries. *)
From S2P Require Import Prelude CText Exc MakeDevs MakeDevsFacts.
Local Open Scope list_scope.

(** ** Entries and their text *)

Inductive node_type := Directory | Regular | Fifo | Character | Block.
#[export] Instance node_type_dec : EqDecision node_type.
Proof. solve_decision. Defined.
Definition type_char (t : node_type) : Ascii.ascii :=
  match t with Directory => "d" | Regular => "f" | Fifo => "p" | Character => "c" | Block => "b" end%char.
Record entry := mkEntry {
  e_name : string; e_type : node_type; e_mode : Z; e_uid : Z; e_gid : Z;
  e_major : Z; e_minor : Z; e_start : Z; e_inc : Z; e_count : Z }.

(** A word without white space and NUL, of at most 4095 characters, no comment. *)
Definition plain_char (c : Ascii.ascii) : bool := negb (isspace c) && negb (code c =? 0).
Definition plain_name (s : string) : bool :=
  match s with
  | EmptyString => false
  | String c _ => negb (char_eqb c "#") && string_all plain_char s && (String.length s <=? 4095)%nat
  end.
Definition small (z : Z) : Prop := 0 <= z <= 1048575.
Definition valid (e : entry) : Prop :=
  plain_name (e_name e) = true /\ 0 <= e_mode e <= 4095 /\ is_u32 (e_uid e) /\ is_u32 (e_gid e) /\
  small (e_major e) /\ small (e_minor e) /\ small (e_start e) /\ small (e_inc e) /\ small (e_count e).

Definition blank (s : string) : string := String " " s.
(** The entry in the columns of the table. *)
Definition show_entry (e : entry) : string :=
  e_name e +:+ blank (String (type_char (e_type e)) (blank (digits 8 (e_mode e) +:+
    blank (digits 10 (e_uid e) +:+ blank (digits 10 (e_gid e) +:+ blank (digits 10 (e_major e) +:+
    blank (digits 10 (e_minor e) +:+ blank (digits 10 (e_start e) +:+ blank (digits 10 (e_inc e) +:+
    blank (digits 10 (e_count e))))))))))).
Definition show_table (es : list entry) : string := foldr (fun e t => show_entry e +:+ NL +:+ t) EmptyString es.

(** The nodes of an entry: numbered ones when it has a count. *)
Definition nodes_of (root : string) (e : entry) : list call :=
  let path := concat_path_file root (e_name e) in
  let nodes kind :=
    if decide (e_count e = 0) then [Mknod path (Z.lor (e_mode e) kind) (e_major e) (e_minor e)]
    else (fun i => Mknod (path +:+ fmt_d (e_start e + i)) (Z.lor (e_mode e) kind) (e_major e)
                     (u32 (e_minor e + i * e_inc e))) <$> range 0 (e_count e) in
  match e_type e with
  | Directory | Regular => []
  | Fifo => nodes S_IFIFO
  | Character => nodes S_IFCHR
  | Block => nodes S_IFBLK
  end.

(** ** Reading the text back *)

Lemma write_digits_app f base : forall n acc t, write_digits f base n (acc +:+ t) = write_digits f base n acc +:+ t.
Proof.
  induction f as [|f IH]; intros n acc t; [done|]. cbn [write_digits]. destruct (_ =? 0); [done|].
  by rewrite <- (IH _ (String _ acc)).
Qed.
Definition no_digit (base : Z) (s : string) : Prop := starts_digit base s = false.
Lemma scan_digits_rest base n t : 2 <= base <= 16 -> 0 <= n -> no_digit base t ->
  scan_digits base 0 (digits base n +:+ t) = (n, t).
Proof.
  intros Hb Hn Ht. unfold digits. rewrite <- write_digits_app. change (EmptyString +:+ t) with t.
  destruct (scan_write _ base n t Hb (fuel_enough n Hn)) as (k & _ & H). rewrite H.
  replace (0 * base ^ k + n) with n by lia. unfold no_digit in Ht. destruct t as [|c t]; [done|].
  cbn in *. destruct (digit_value c); [|done]. by rewrite Ht.
Qed.
Lemma strtoul_digits base n t : 2 <= base <= 16 -> is_u32 n -> no_digit base t ->
  strtoul base (digits base n +:+ t) = Some (n, t).
Proof.
  intros Hb Hn Ht. unfold is_u32 in Hn. destruct (digits_head base n Hb) as (d & u & Hd & E).
  pose proof (digit_char_plain d ltac:(lia)) as Hp. apply orb_false_iff in Hp as [Hp P3]. apply orb_false_iff in Hp as [P1 P2].
  unfold strtoul. pose proof (scan_digits_rest base n t Hb ltac:(lia) Ht) as Hs. rewrite E in *. cbn [String.append] in *.
  cbn [skip_space]. rewrite P1, P2, P3. cbn [starts_digit]. rewrite digit_value_char by lia.
  destruct (Z.ltb_spec d base); [|lia]. rewrite Hs. unfold ULONG_MAX. destruct (Z.ltb_spec 18446744073709551615 n); [lia|].
  unfold u64. by rewrite Z.mod_small by lia.
Qed.

Lemma digits_all (P : Ascii.ascii -> bool) base n : 2 <= base <= 16 -> (forall d, 0 <= d < 16 -> P (digit_char d) = true) ->
  string_all P (digits base n) = true.
Proof.
  intros Hb HP. unfold digits. generalize (S (Z.to_nat (Z.log2 n))) as f. intros f.
  assert (H : string_all P EmptyString = true) by done. revert n H. generalize EmptyString as acc.
  induction f as [|f IH]; intros acc n Ha; [done|]. cbn [write_digits]. pose proof (Z.mod_pos_bound n base ltac:(lia)).
  assert (string_all P (String (digit_char (n mod base)) acc) = true) by (cbn; rewrite HP by lia; done).
  destruct (_ =? 0); [done|]. by apply IH.
Qed.
Lemma digit_plain d : 0 <= d < 16 -> plain_char (digit_char d) = true.
Proof. apply (base_digits (fun d => plain_char (digit_char d) = true)). intros k Hk. each_digit. Qed.
Lemma digits_plain_char base n : 2 <= base <= 16 -> string_all plain_char (digits base n) = true.
Proof. intros Hb. apply digits_all; [done|apply digit_plain]. Qed.
Lemma blank_no_digit base t : no_digit base (blank t).
Proof. done. Qed.

(** ** Conversions *)

Lemma skip_plain s t : string_all plain_char s = true -> s <> EmptyString -> skip_space (s +:+ t) = s +:+ t.
Proof.
  destruct s as [|c s]; [done|]. cbn. intros H _. apply andb_true_iff in H as [H _]. unfold plain_char in H.
  apply andb_true_iff in H as [H _]. by apply negb_true_iff in H as ->.
Qed.
Lemma take_word_plain w : forall n t, string_all plain_char w = true -> (String.length w <= n)%nat ->
  take_word n (w +:+ blank t) = (w, blank t).
Proof.
  induction w as [|c w IH]; intros n t Hw Hn; [by destruct n|]. destruct n as [|n]; [cbn in Hn; lia|].
  cbn in Hw. apply andb_true_iff in Hw as [Hc Hw]. unfold plain_char in Hc. apply andb_true_iff in Hc as [Hc _].
  apply negb_true_iff in Hc. cbn [String.append take_word]. rewrite Hc, IH by (done || (cbn in Hn; lia)). done.
Qed.
Lemma scan_word_plain n set f s w t : skip_space s = skip_space (w +:+ blank t) -> string_all plain_char w = true -> w <> EmptyString ->
  (String.length w <= n)%nat -> scan_word n set f s = Some (set w f, blank t).
Proof.
  intros Hs Hw Hne Hn. unfold scan_word. rewrite Hs, skip_plain by done. rewrite take_word_plain by done. by destruct w.
Qed.
Lemma scan_word_blank n set f w t : string_all plain_char w = true -> w <> EmptyString -> (String.length w <= n)%nat ->
  scan_word n set f (blank (w +:+ blank t)) = Some (set w f, blank t).
Proof. by apply scan_word_plain. Qed.
Lemma scan_char_blank set f c r : skip_space (String c r) = String c r -> scan_char set f (blank (String c r)) = Some (set c f, r).
Proof. intros Hc. unfold scan_char. change (skip_space (blank (String c r))) with (skip_space (String c r)). by rewrite Hc. Qed.
Lemma scan_number base set f n t : 2 <= base <= 16 -> is_u32 n -> no_digit base t ->
  scan_unsigned base set f (blank (digits base n +:+ t)) = Some (set n f, t).
Proof.
  intros Hb Hn Ht. unfold scan_unsigned. change (strtoul base (blank (digits base n +:+ t))) with (strtoul base (digits base n +:+ t)).
  rewrite strtoul_digits by done. cbn. by rewrite u32_id.
Qed.
Lemma digits_not_nil base n : 2 <= base <= 16 -> digits base n <> EmptyString.
Proof. intros Hb. by destruct (digits_head base n Hb) as (d & u & _ & ->). Qed.
Lemma scan_number_end base set f n : 2 <= base <= 16 -> is_u32 n ->
  scan_unsigned base set f (blank (digits base n)) = Some (set n f, EmptyString).
Proof. intros Hb Hn. rewrite <- (app_nil_s (digits base n)) at 1. by apply scan_number. Qed.

Definition fields_of (e : entry) : fields :=
  mkFields (Some (e_name e)) (Some (type_char (e_type e))) (e_mode e) (Some (digits 10 (e_uid e))) (Some (digits 10 (e_gid e)))
    (e_major e) (e_minor e) (e_start e) (e_inc e) (e_count e).
Lemma u32_digits n : is_u32 n -> (String.length (digits 10 n) <= 40)%nat.
Proof. unfold is_u32. intros Hn. pose proof (digits_length 10 n 10 ltac:(lia) ltac:(cbn; lia) ltac:(lia)). lia. Qed.
(** The fields of a record just updated. *)
Ltac fields := cbn [f_name f_type f_mode f_user f_group f_major f_minor f_start f_increment f_count].
Lemma scan_shown e : valid e -> scan_line (show_entry e) = (10%nat, fields_of e).
Proof.
  intros (Hname & Hm & Hu & Hg & Ma & Mi & St & In & Co). unfold small, is_u32 in *.
  assert (Hn : string_all plain_char (e_name e) = true /\ e_name e <> EmptyString /\ (String.length (e_name e) <= 4095)%nat).
  { unfold plain_name in Hname. destruct (e_name e); [done|]. apply andb_true_iff in Hname as [Hn Hl].
    apply andb_true_iff in Hn as [_ Hn]. apply Nat.leb_le in Hl. done. }
  destruct Hn as (Hn & Hne & Hl). unfold scan_line, line_format, show_entry. cbn [sscanf].
  rewrite (scan_word_plain _ _ _ _ (e_name e) _ eq_refl) by done. fields.
  rewrite scan_char_blank by (by destruct (e_type e)). fields.
  rewrite scan_number by (done || unfold is_u32; lia). fields.
  rewrite (scan_word_blank _ _ _ (digits 10 (e_uid e))); [|by apply digits_plain_char|by apply digits_not_nil|by apply u32_digits]. fields.
  rewrite (scan_word_blank _ _ _ (digits 10 (e_gid e))); [|by apply digits_plain_char|by apply digits_not_nil|by apply u32_digits]. fields.
  do 4 (rewrite scan_number by (done || unfold is_u32; lia); fields).
  rewrite scan_number_end by (done || unfold is_u32; lia). reflexivity.
Qed.

(** ** The lines of a shown table *)

Definition in_line (c : Ascii.ascii) : bool := negb (ends_line c).
Lemma plain_in_line s : string_all plain_char s = true -> string_all in_line s = true.
Proof.
  induction s as [|c s IH]; [done|]. cbn. intros [Hc Hs]%andb_true_iff. rewrite IH by done. rewrite andb_true_r.
  unfold plain_char in Hc. apply andb_true_iff in Hc as [Hc Hz]. unfold in_line, ends_line. apply negb_true_iff in Hz as ->. cbn [orb].
  destruct (char_eqb_spec c nl) as [->|]; [done|done].
Qed.
Lemma shown_in_line e : valid e -> string_all in_line (show_entry e) = true.
Proof.
  intros (Hname & _). assert (Hn : string_all plain_char (e_name e) = true).
  { unfold plain_name in Hname. destruct (e_name e); [done|]. apply andb_true_iff in Hname as [Hn _]. by apply andb_true_iff in Hn as [_ Hn]. }
  assert (Hd : forall base n, 2 <= base <= 16 -> string_all in_line (digits base n) = true)
    by (intros; by apply plain_in_line, digits_plain_char).
  assert (Hb : forall t, string_all in_line (blank t) = string_all in_line t) by done.
  assert (Ht : forall t, string_all in_line (String (type_char (e_type e)) t) = string_all in_line t) by (intros t; by destruct (e_type e)).
  unfold show_entry. repeat first [rewrite string_all_app|rewrite Hb|rewrite Ht|rewrite Hd by lia]. by rewrite (plain_in_line _ Hn).
Qed.
Lemma next_line_app s : forall acc begun t, string_all in_line s = true ->
  next_line acc begun (s +:+ NL +:+ t) = (Some (acc +:+ s), t).
Proof.
  induction s as [|c s IH]; intros acc begun t Hs; [by rewrite app_nil_s|].
  cbn in Hs. apply andb_true_iff in Hs as [Hc Hs]. cbn [String.append next_line]. apply negb_true_iff in Hc as ->.
  rewrite IH by done. by rewrite <- app_assoc_s.
Qed.
Lemma shown_lines es : Forall valid es -> table_lines (show_table es) = show_entry <$> es.
Proof.
  induction 1 as [|e es He _ IH]; [done|]. unfold table_lines. rewrite lines_next. cbn [show_table foldr].
  rewrite next_line_app by (by apply shown_in_line). cbn [fmap list_fmap]. f_equal. exact IH.
Qed.

(** ** The nodes a routine asks for *)

Section Nodes.
Context `{Kernel}.

Definition is_mknod (c : call) : bool := match c with Mknod _ _ _ _ => true | _ => false end.
Definition mknods (p : process) : list call := List.filter is_mknod (calls p).
(** Whatever the kernel answers, [m] goes on after asking for the nodes [l]. *)
Definition makes {A} (m : MM A) (l : list call) : Prop :=
  forall p, exists a p', m p = Ok (inr a) p' /\ mknods p' = mknods p ++ l.

Lemma makes_bind {A B} (m : MM A) (f : A -> MM B) l1 l2 : makes m l1 -> (forall a, makes (f a) l2) -> makes (m ≫= f) (l1 ++ l2).
Proof.
  intros Hm Hf p. destruct (Hm p) as (a & p1 & E1 & N1). destruct (Hf a p1) as (b & p2 & E2 & N2).
  exists b, p2. rewrite (mrun_bind _ _ _ _ _ E1), N2, N1, app_assoc. done.
Qed.
Lemma makes_then {A B} (m : MM A) (f : A -> MM B) l : makes m [] -> (forall a, makes (f a) l) -> makes (m ≫= f) l.
Proof. intros Hm Hf. by apply (makes_bind m f [] l). Qed.
Lemma makes_ret {A} (a : A) : makes (mret a) [].
Proof. intros p. exists a, p. by rewrite app_nil_r. Qed.
Lemma makes_update f : (forall p, calls (f p) = calls p) -> makes (mupdate f) [].
Proof. intros Hf p. exists tt, (f p). unfold mknods. by rewrite Hf, app_nil_r. Qed.
Lemma makes_read : makes mread [].
Proof. intros p. exists p, p. by rewrite app_nil_r. Qed.
Lemma makes_lift {A} (a : A) : makes (mlift (Some a)) [].
Proof. intros p. exists a, p. by rewrite app_nil_r. Qed.
Lemma makes_ask c : makes (ask c) (if is_mknod c then [c] else []).
Proof.
  intros p. eexists _, _. split; [reflexivity|]. unfold mknods. cbn [calls add_call]. rewrite List.filter_app. cbn. by destruct (is_mknod c).
Qed.
Lemma makes_some {A B} (a : A) (f : A -> MM B) l : makes (f a) l -> makes (mlift (Some a) ≫= f) l.
Proof. done. Qed.
Lemma makes_mret {A B} (a : A) (f : A -> MM B) l : makes (f a) l -> makes (mret a ≫= f) l.
Proof. done. Qed.
Lemma makes_foreach {A} (f : A -> MM unit) (g : A -> call) l : (forall a, a ∈ l -> makes (f a) [g a]) -> makes (mforeach f l) (g <$> l).
Proof.
  induction l as [|a l IH]; intros Hf; [apply makes_ret|]. 
  change (makes (f a;; mforeach f l) ([g a] ++ (g <$> l))). apply makes_bind; [apply Hf; left|]. intros _. apply IH. intros b Hb. apply Hf. by right.
Qed.
Create HintDb makes discriminated.
#[local] Hint Resolve makes_ret makes_read makes_lift : makes.
#[local] Hint Extern 1 (makes (mupdate _) []) => apply makes_update; done : makes.
Ltac makes_step :=
  match goal with
  | |- makes (_ ≫= _) [] => apply makes_then; [|intros ?]
  | |- makes (match ?x with _ => _ end) [] => destruct x
  | |- makes _ [] => solve [eauto with makes nocore]
  end.
Ltac makesly := repeat (makes_step; cbn beta zeta).

Lemma makes_stat path : makes (stat path) [].
Proof. unfold stat. apply makes_then; [apply (makes_ask (Stat path))|]. intros e. makesly. Qed.
Lemma makes_other c : is_mknod c = false -> makes (ask c) [].
Proof. intros E. pose proof (makes_ask c) as Hc. by rewrite E in Hc. Qed.
#[local] Hint Extern 1 (makes (ask _) []) => apply makes_other; reflexivity : makes.
#[local] Hint Resolve makes_stat : makes.
Lemma makes_swap m : makes (swap_umask m) [].
Proof. unfold swap_umask. makesly. Qed.
Lemma makes_perror t e : makes (bb_perror_msg t e) [].
Proof. by apply makes_update. Qed.
#[local] Hint Resolve makes_swap makes_perror : makes.
Lemma makes_fail l t e : makes (fail_line l t e) [].
Proof. unfold fail_line. makesly. Qed.
#[local] Hint Resolve makes_fail : makes.
Lemma makes_when b m : makes m [] -> makes (mwhen b m) [].
Proof. destruct b; [done|]. intros _. apply makes_ret. Qed.
#[local] Hint Resolve makes_when : makes.
Lemma makes_chmod l path mode : makes (chmod_line l path mode) [].
Proof. unfold chmod_line. makesly. Qed.
#[local] Hint Resolve makes_chmod : makes.
Lemma makes_own l path mode u g : makes (own l path mode u g) [].
Proof. unfold own. makesly. Qed.
#[local] Hint Resolve makes_own : makes.
Lemma makes_parents n : forall front s mode recur mask, (String.length s < n)%nat -> makes (make_parents n front s mode recur mask) [].
Proof.
  induction n as [|n IH]; intros front s mode recur mask Hn; [lia|]. cbn [make_parents].
  destruct (if recur then next_parent s else (s, EmptyString)) as [a rest] eqn:E. cbn zeta.
  apply makes_then; [makesly|intros e]. apply makes_then; [makesly|intros bad].
  destruct bad; [makesly|]. destruct (negb (e =? 0) && _); [makesly|].
  case_bool_decide as Hr; [cbn [negb]; makesly|]. cbn [negb]. apply IH. by eapply parent_moves.
Qed.
Lemma makes_directory path mode recur : makes (bb_make_directory path mode recur) [].
Proof.
  unfold bb_make_directory. apply makes_then; [makesly|intros mask]. apply makes_then; [makesly|intros m].
  apply makes_parents. lia.
Qed.
#[local] Hint Resolve makes_directory : makes.
Lemma makes_node l path mode ma mi u g : makes (make_node l path mode ma mi u g) [Mknod path mode ma mi].
Proof.
  unfold make_node. apply (makes_bind _ _ [_] []); [apply (makes_ask (Mknod path mode ma mi))|intros e]. makesly.
Qed.

Lemma range_fmap_ext {B} (f g : Z -> B) n : (forall i, 0 <= i < n -> f i = g i) -> f <$> range 0 n = g <$> range 0 n.
Proof. intros Hfg. apply list_fmap_ext. intros i x Hx. apply Hfg. apply elem_of_range. by eapply list_elem_of_lookup_2. Qed.
Lemma makes_nodes l e path mode u g : valid e ->
  makes (make_nodes l path mode u g (fields_of e))
    (if decide (e_count e = 0) then [Mknod path mode (e_major e) (e_minor e)]
     else (fun i => Mknod (path +:+ fmt_d (e_start e + i)) mode (e_major e) (u32 (e_minor e + i * e_inc e))) <$> range 0 (e_count e)).
Proof.
  intros (_ & _ & _ & _ & _ & _ & St & _ & Co). unfold small in *. unfold make_nodes. cbn [f_count f_start f_increment f_major f_minor fields_of].
  destruct (Z.ltb_spec 0 (e_count e)); destruct (decide (e_count e = 0)); [lia| |apply makes_node|lia].
  apply makes_foreach. intros i Hi%elem_of_range. rewrite (u32_id (e_start e + i)) by (unfold is_u32; lia). rewrite numbered_fits by lia.
  apply makes_some.
  replace (u32 (e_minor e + i * e_inc e)) with (u32 (e_minor e + u32 (i * e_inc e))); [apply makes_node|].
  unfold u32. by rewrite Z.add_mod_idemp_r.
Qed.

(** A shown entry is run as such. *)
Lemma shown_small e : valid e -> too_big (fields_of e) = false.
Proof.
  intros (_ & _ & _ & _ & Ma & Mi & St & In & Co). unfold small in *. unfold too_big. cbn [f_major f_minor f_start f_count f_increment fields_of].
  apply Z.ltb_ge. assert (Hlor : forall a b, 0 <= a <= 1048575 -> 0 <= b <= 1048575 -> 0 <= Z.lor a b <= 1048575).
  { intros a b Ha Hb. assert (0 <= Z.lor a b) by (apply Z.lor_nonneg; lia). split; [done|].
    destruct (Z.eq_dec (Z.lor a b) 0) as [->|]; [lia|]. apply Z.lt_succ_r. change (Z.succ 1048575) with (2 ^ 20).
    apply Z.log2_lt_pow2; [lia|]. rewrite Z.log2_lor by lia.
    apply Z.max_lub_lt; [destruct (Z.eq_dec a 0) as [->|]; [cbn; lia|]|destruct (Z.eq_dec b 0) as [->|]; [cbn; lia|]]; apply Z.log2_lt_pow2; lia. }
  by repeat apply Hlor.
Qed.
Lemma run_shown l root e p : valid e -> run_line l root (show_entry e) p = run_entry l root (fields_of e) (e_name e) (type_char (e_type e)) p.
Proof.
  intros Hv. unfold run_line. rewrite scan_shown by done. change (10 <? 2)%nat with false. rewrite shown_small by done. cbn [orb].
  cbn [f_name f_type fields_of]. unfold mbind, MM_bind, mlift. destruct Hv as (Hn & _). unfold plain_name in Hn.
  destruct (e_name e) as [|c name]; [done|]. apply andb_true_iff in Hn as [Hn _]. apply andb_true_iff in Hn as [Hn _].
  by apply negb_true_iff in Hn as ->.
Qed.
Lemma ug_id_digits n get : is_u32 n -> get_ug_id (digits 10 n) get = mret n.
Proof.
  intros Hn. unfold get_ug_id. rewrite <- (app_nil_s (digits 10 n)), strtoul_digits; [done|lia|done|done].
Qed.
Lemma makes_line l root e : valid e -> makes (run_line l root (show_entry e)) (nodes_of root e).
Proof.
  intros Hv p. rewrite run_shown by done. revert p. change (makes (run_entry l root (fields_of e) (e_name e) (type_char (e_type e))) (nodes_of root e)).
  pose proof Hv as (_ & _ & Hu & Hg & _). unfold run_entry. cbn [f_user f_group f_mode fields_of].
  apply makes_some. rewrite ug_id_digits by done. apply makes_mret, makes_some. rewrite ug_id_digits by done. apply makes_mret.
  cbn beta zeta. unfold nodes_of.
  destruct (e_type e); cbn [type_char node_kind]; cbn -[u32 concat_path_file make_nodes fields_of Z.lor nodes_of fmt_d range];
    [makesly|makesly|by apply makes_nodes..].
Qed.
Lemma makes_lines root es : Forall valid es -> forall n, makes (run_lines n root (show_entry <$> es)) (es ≫= nodes_of root).
Proof.
  induction 1 as [|e es He _ IH]; intros n; [apply makes_ret|].
  change (makes (run_line (i32 (n + 1)) root (show_entry e);; run_lines (i32 (n + 1)) root (show_entry <$> es)) (nodes_of root e ++ (es ≫= nodes_of root))).
  apply makes_bind; [by apply makes_line|intros _; apply IH].
Qed.
Lemma main_shown root es p : short (show_table es) -> Forall valid es -> reply (calls p ++ [Chdir root]) = 0 ->
  main (Some root) (show_table es) p =
    (run_lines 0 root (show_entry <$> es);; q ← mread; mret (ret q)) (set_umask 0 (add_call (Chdir root) p)).
Proof.
  intros Hs Hv Hr. unfold main, ask, swap_umask, mbind, MM_bind, mupdate, mread, mret, MM_ret. cbn [calls add_call]. rewrite Hr.
  change (negb (0 =? 0)) with false. cbn iota beta. rewrite run_table_lines by (done || lia). by rewrite shown_lines.
Qed.

(** C24. A device table, read as text, makes makedevs ask for exactly the nodes its
    entries describe, in their order and with their numbers, when it can change to the
    root directory, and whatever the kernel answers to the other calls; it never stops
    in between. *)
Theorem device_table_nodes root es p : short (show_table es) -> Forall valid es -> reply (calls p ++ [Chdir root]) = 0 ->
  exists r p', main (Some root) (show_table es) p = Ok (inr r) p' /\ mknods p' = mknods p ++ (es ≫= nodes_of root).
Proof.
  intros Hs Hv Hr. rewrite main_shown by done.
  destruct (makes_lines root es Hv 0 (set_umask 0 (add_call (Chdir root) p))) as (a & p' & E & N).
  exists (ret p'), p'. rewrite (mrun_bind _ _ _ _ _ E). split; [done|]. rewrite N. f_equal. unfold mknods. cbn.
  rewrite List.filter_app. cbn. by rewrite app_nil_r.
Qed.

(** ** The exit status *)

(** Every call so far was answered by 0. *)
Definition answered (l : list call) : Prop := forall k, (k < length l)%nat -> reply (take (S k) l) = 0.
Definition honest (p : process) : Prop :=
  (ret p = EXIT_SUCCESS /\ answered (calls p)) \/ (ret p = EXIT_FAILURE /\ ~ answered (calls p)).
Definition leads_to {A} (P : process -> Prop) (m : MM A) (Q : A -> process -> Prop) : Prop :=
  forall p, P p -> exists a p', m p = Ok (inr a) p' /\ Q a p'.

Lemma answered_snoc l c : answered (l ++ [c]) <-> answered l /\ reply (l ++ [c]) = 0.
Proof.
  unfold answered. rewrite length_app. cbn [length]. split.
  - intros Ha. split.
    + intros k Hk. rewrite <- (Ha k) by lia. f_equal. by rewrite take_app_le by lia.
    + rewrite <- (Ha (length l)) by lia. f_equal. rewrite firstn_all2; [done|rewrite length_app; cbn; lia].
  - intros [Ha Hr] k Hk. destruct (decide (k < length l)%nat).
    + rewrite take_app_le by lia. by apply Ha.
    + rewrite firstn_all2; [done|rewrite length_app; cbn; lia].
Qed.
Lemma leads_to_bind {A B} P (m : MM A) Q (f : A -> MM B) R :
  leads_to P m Q -> (forall a, leads_to (Q a) (f a) R) -> leads_to P (m ≫= f) R.
Proof.
  intros Hm Hf p Hp. destruct (Hm p Hp) as (a & p1 & E & Hq). destruct (Hf a p1 Hq) as (b & p2 & E2 & Hr).
  exists b, p2. by rewrite (mrun_bind _ _ _ _ _ E).
Qed.
Lemma honest_ask c : leads_to honest (ask c)
  (fun e p => if e =? 0 then honest p else ~ answered (calls p)).
Proof.
  intros p Hp. eexists _, _. split; [reflexivity|]. cbn [calls add_call]. destruct (Z.eqb_spec (reply (calls p ++ [c])) 0) as [E|E].
  - destruct Hp as [[Hr Ha]|[Hr Ha]]; [left|right]; (split; [done|]); cbn [calls add_call]; rewrite answered_snoc; tauto.
  - rewrite answered_snoc. tauto.
Qed.
Lemma honest_fail l t e : leads_to (fun p => ~ answered (calls p)) (fail_line l t e) (fun _ => honest).
Proof. intros p Hp. eexists _, _. split; [reflexivity|]. right. by split. Qed.
(** A call whose failure is reported. *)
Lemma honest_when l t e : leads_to (fun p => if e =? 0 then honest p else ~ answered (calls p))
  (mwhen (negb (e =? 0)) (fail_line l t e)) (fun _ => honest).
Proof. intros p Hp. destruct (e =? 0); [by eexists _, _|by apply honest_fail]. Qed.
Lemma honest_chmod l path mode : leads_to honest (chmod_line l path mode) (fun _ => honest).
Proof.
  unfold chmod_line. destruct (mode =? 4294967295); [intros p Hp; by eexists _, _|].
  eapply leads_to_bind; [apply honest_ask|intros e; apply honest_when].
Qed.
Lemma honest_node l path mode ma mi u g : leads_to honest (make_node l path mode ma mi u g) (fun _ => honest).
Proof.
  unfold make_node. eapply leads_to_bind; [apply honest_ask|intros e].
  apply (leads_to_bind _ _ (fun _ => honest)); [|intros _; apply honest_chmod].
  intros p Hp. destruct (e =? 0); cbn [negb]; [|by apply honest_fail]. revert p Hp.
  change (leads_to honest (e ← ask (Chown path u g); mwhen (negb (e =? 0)) (fail_line l ("chown failed for " +:+ path) e)) (fun _ => honest)).
  eapply leads_to_bind; [apply honest_ask|intros e'; apply honest_when].
Qed.
Lemma honest_foreach {A} (f : A -> MM unit) l : (forall a, a ∈ l -> leads_to honest (f a) (fun _ => honest)) ->
  leads_to honest (mforeach f l) (fun _ => honest).
Proof.
  induction l as [|a l IH]; intros Hf; [intros p Hp; by eexists _, _|].
  apply (leads_to_bind _ (f a) (fun _ => honest)); [apply Hf; left|]. intros _. apply IH. intros b Hb. apply Hf. by right.
Qed.
Lemma honest_nodes l e path mode u g : valid e -> leads_to honest (make_nodes l path mode u g (fields_of e)) (fun _ => honest).
Proof.
  intros (_ & _ & _ & _ & _ & _ & St & _ & Co). unfold small in *. unfold make_nodes. cbn [f_count f_start f_increment f_major f_minor fields_of].
  destruct (Z.ltb_spec 0 (e_count e)); [|apply honest_node].
  apply honest_foreach. intros i Hi%elem_of_range. rewrite (u32_id (e_start e + i)) by (unfold is_u32; lia). rewrite numbered_fits by lia.
  exact (honest_node _ _ _ _ _ _ _).
Qed.
Definition is_device (e : entry) : Prop := e_type e <> Directory /\ e_type e <> Regular.
Lemma honest_line l root e : valid e -> is_device e -> leads_to honest (run_line l root (show_entry e)) (fun _ => honest).
Proof.
  intros Hv [Hd Hf] p Hp. rewrite run_shown by done. unfold run_entry. pose proof Hv as (_ & _ & Hu & Hg & _).
  cbn [f_user f_group f_mode fields_of]. unfold mbind, MM_bind, mlift. rewrite !ug_id_digits by done. unfold mret, MM_ret.
  destruct (e_type e); [done|done|by apply honest_nodes..].
Qed.
Lemma honest_lines root es : Forall valid es -> Forall is_device es ->
  forall n, leads_to honest (run_lines n root (show_entry <$> es)) (fun _ => honest).
Proof.
  induction 1 as [|e es He _ IH]; intros Hd n; [intros p Hp; by eexists _, _|]. inversion_clear Hd.
  apply (leads_to_bind _ (run_line (i32 (n + 1)) root (show_entry e)) (fun _ => honest)); [by apply honest_line|].
  intros _. by apply IH.
Qed.

(** On a table of device nodes the exit status is 0 if every system call has
    succeeded, and 1 as soon as one has failed. *)
Theorem device_table_status root es um : short (show_table es) -> Forall valid es -> Forall is_device es ->
  reply [Chdir root] = 0 ->
  exists r p', main (Some root) (show_table es) (mkProcess um [] [] 0) = Ok (inr r) p' /\
    (r = EXIT_SUCCESS /\ answered (calls p') \/ r = EXIT_FAILURE /\ ~ answered (calls p')).
Proof.
  intros Hs Hv Hd Hr. rewrite main_shown by done.
  destruct (honest_lines root es Hv Hd 0 (set_umask 0 (add_call (Chdir root) (mkProcess um [] [] 0)))) as (a & p' & E & Hp).
  - left. split; [done|]. intros [|k] Hk; [done|cbn in Hk; lia].
  - exists (ret p'), p'. rewrite (mrun_bind _ _ _ _ _ E). split; [done|exact Hp].
Qed.
End Nodes.

(** Directories are there already; everything else works. *)
#[local] Instance demo_kernel : Kernel := {|
  reply l := match last l with Some (Mkdir _ _) => EEXIST | _ => 0 end;
  st_mode _ := Z.lor S_IFDIR 493;
  getpwnam n := if String.eqb n "root" then Some 0 else None;
  getgrnam n := if String.eqb n "disk" then Some 6 else None |}.
Definition fresh : process := mkProcess 18 [] [] 0.

Definition text : string := "# comment" +:+ NL +:+ NL +:+ "/dev/hda b 640 root disk 3 1 1 2 3" +:+ NL +:+ "/dev/null c 666 0 0 1 3 0 0 -".
Example text_calls :
  match main (Some "/target") text fresh with Ok (inr 0) p => calls p | _ => [] end = [
    Chdir "/target";
    Mknod "/target/dev/hda1" 24992 3 1; Chown "/target/dev/hda1" 0 6; Chmod "/target/dev/hda1" 24992;
    Mknod "/target/dev/hda2" 24992 3 3; Chown "/target/dev/hda2" 0 6; Chmod "/target/dev/hda2" 24992;
    Mknod "/target/dev/hda3" 24992 3 5; Chown "/target/dev/hda3" 0 6; Chmod "/target/dev/hda3" 24992;
    Mknod "/target/dev/null" 8630 1 3; Chown "/target/dev/null" 0 0; Chmod "/target/dev/null" 8630].
Proof. vm_compute. reflexivity. Qed.

(** A directory given relative to the working directory is looked up twice. *)
Example relative_root :
  match main (Some "out") ("/dev/null c 666 0 0 1 3" +:+ NL) fresh with Ok (inr 0) p => firstn 2 (calls p) | _ => [] end
  = [Chdir "out"; Mknod "out/dev/null" 8630 1 3].
Proof. vm_compute. reflexivity. Qed.

(** A line of two to four columns reads a user that was never scanned. *)
Example no_owner : main (Some "/target") ("/dev/null c" +:+ NL) fresh = Fault.
Proof. vm_compute. reflexivity. Qed.

Definition entries : list entry := [
  mkEntry "/dev" Directory 493 0 0 0 0 0 0 0;
  mkEntry "/dev/uio" Block 416 0 6 252 1 6 2 5].
Definition devices : list entry := [
  mkEntry "/dev/console" Character 438 0 0 5 1 0 0 0;
  mkEntry "/dev/gps" Block 416 0 0 251 0 1 1 2].
Ltac valid_entry := unfold valid, small, is_u32; cbn; repeat split; (reflexivity || lia).

Lemma makedevs_in_bounds_witness : exists r p', main (Some "/target") text fresh = Ok r p'.
Proof.
  apply makedevs_in_bounds; [unfold short; vm_compute; reflexivity|].
  apply Forall_forall. intros l Hl. assert (Hall : forallb has_owner (table_lines text) = true) by (vm_compute; reflexivity).
  rewrite forallb_forall in Hall. by apply Hall, list_elem_of_In.
Defined.

(** The second group of nodes named by the usage text: [uio6] to [uio10]. *)
Lemma device_table_nodes_witness :
  exists r p', main (Some "/target") (show_table entries) fresh = Ok (inr r) p' /\ mknods p' =
    [Mknod "/target/dev/uio6" 24992 252 1; Mknod "/target/dev/uio7" 24992 252 3; Mknod "/target/dev/uio8" 24992 252 5;
     Mknod "/target/dev/uio9" 24992 252 7; Mknod "/target/dev/uio10" 24992 252 9].
Proof.
  apply (device_table_nodes "/target" entries fresh); [unfold short; vm_compute; reflexivity| |reflexivity].
  repeat (constructor; [valid_entry|]). constructor.
Defined.

Lemma device_table_status_witness :
  exists r p', main (Some "/target") (show_table devices) (mkProcess 18 [] [] 0) = Ok (inr r) p' /\
    (r = EXIT_SUCCESS /\ answered (calls p') \/ r = EXIT_FAILURE /\ ~ answered (calls p')).
Proof.
  apply (device_table_status "/target" devices 18); [unfold short; vm_compute; reflexivity| | |reflexivity].
  - repeat (constructor; [valid_entry|]). constructor.
  - repeat (constructor; [by split|]). constructor.
Defined.
