(* ===== verification/Wrapper.v ===== *)
(** The wrapper of external toolchains
    (src/buildroot/toolchain/toolchain-external/ext-toolchain-wrapper.c): from the
    arguments of the compiler driver to the arguments of the real compiler.

    The options chosen at build time are a record; the file system, the environment
    and [execv] are parameters.  [malloc] is taken to succeed. *)
From S2P Require Import Prelude CText.
Local Open Scope list_scope.

(** ** Configuration and surroundings *)

(** [BR_CROSS_PATH_REL] or [BR_CROSS_PATH_ABS]. *)
Inductive cross_path := Relative (dir : string) | Absolute (dir : string).
Record config := {
  BR_CROSS_PATH : cross_path;
  BR_SYSROOT : string;
  BR_ABI : option string;
  BR_FPU : option string;
  BR_SOFTFLOAT : bool;
  BR_MODE : option string;
  BR_64 : bool;
  BR_BINFMT_FLAT : bool;
  BR_MIPS_TARGET_LITTLE_ENDIAN : bool;
  BR_MIPS_TARGET_BIG_ENDIAN : bool;
  BR_ADDITIONAL_CFLAGS : list string;
  BR_FLOAT_ABI : option string;
  BR_ARCH : option string;
  BR_CPU : option string;
}.

(** [realpath]; what /proc/self/exe points to; [getenv]; whether [execv] replaces
    the process. *)
Class Machine := {
  realpath : string -> option string;
  self_exe : option string;
  getenv : string -> option string;
  execs : string -> list string -> bool;
}.

Definition PATH_MAX : nat := 4096.
Definition EXCLUSIVE_ARGS : nat := 3.

(** How the wrapper ends, with its messages: a return or exit code, or the real
    compiler in its place. *)
Inductive ending :=
| Returned (code : Z) (stderr : list string)
| Executed (path : string) (args : list string) (stderr : list string).

Section Wrapper.
Context (cfg : config) `{Machine}.

Definition flag (b : bool) (a : string) : list string := if b then [a] else [].
Definition option_arg (prefix : string) (o : option string) : list string :=
  match o with Some v => [prefix +:+ v] | None => [] end.
Definition predef_args (path sysroot : string) : list string :=
  [path; "--sysroot"; sysroot] ++ option_arg "-mabi=" (BR_ABI cfg) ++ option_arg "-mfpu=" (BR_FPU cfg) ++
  flag (BR_SOFTFLOAT cfg) "-msoft-float" ++ option_arg "-m" (BR_MODE cfg) ++ flag (BR_64 cfg) "-m64" ++
  flag (BR_BINFMT_FLAT cfg) "-Wl,-elf2flt" ++ flag (BR_MIPS_TARGET_LITTLE_ENDIAN cfg) "-EL" ++
  flag (BR_MIPS_TARGET_BIG_ENDIAN cfg) "-EB" ++ BR_ADDITIONAL_CFLAGS cfg.

(** ** Where the toolchain is *)

Definition is_sep (c : Ascii.ascii) : bool := char_eqb c "/".
(** The text before the last slash and the text behind it. *)
Fixpoint split_last (s : string) : option (string * string) :=
  match s with
  | EmptyString => None
  | String c t =>
      match split_last t with
      | Some (a, b) => Some (String c a, b)
      | None => if is_sep c then Some (EmptyString, t) else None
      end
  end.
(** The loop over the target of /proc/self/exe: cut at slashes from the end, three at
    most, never at the first character. *)
Fixpoint cut_components (i count : nat) (s : string) : string :=
  match i with
  | O => s
  | S j =>
      if match String.get i s with Some c => is_sep c | None => false end then
        let s := String.substring 0 i s in
        if (S count =? 3)%nat then s else cut_components j (S count) s
      else cut_components j count s
  end.
(** The base directory and the name of the program; [inl] is the message of
    [perror]. *)
Definition find_base (progpath : string) : string + (string * string) :=
  match split_last progpath with
  | Some (dir, basename) =>
      match realpath (dir +:+ "/../..") with Some b => inr (b, basename) | None => inl "realpath" end
  | None =>
      match self_exe with
      | None => inl "readlink"
      | Some exe =>
          let exe := String.substring 0 PATH_MAX exe in
          inr (cut_components (String.length exe) 0 exe, progpath)
      end
  end.
Definition compiler_path (absbasedir basename : string) : string :=
  match BR_CROSS_PATH cfg with
  | Relative dir => absbasedir +:+ "/" +:+ dir +:+ "/" +:+ basename
  | Absolute dir => dir +:+ "/" +:+ basename
  end.
Definition sysroot_path (absbasedir : string) : string := absbasedir +:+ "/" +:+ BR_SYSROOT cfg.
(** [snprintf] into an array of [PATH_MAX] characters; [None] when it was cut. *)
Definition snprintf_path (s : string) : option string := if (PATH_MAX <=? String.length s)%nat then None else Some s.

(** ** Unsafe directories *)

Definition unsafe_paths : list string := ["/lib"; "/usr/include"; "/usr/lib"; "/usr/local/include"; "/usr/local/lib"].
(** The messages for one directory; a message ends the program when paranoid. *)
Definition unsafe (path : string) : bool := existsb (fun c => starts_with c path) unsafe_paths.
Definition check_unsafe_path (name : string) (paranoid : bool) (path : string) : list string :=
  (fun _ => name +:+ ": " +:+ (if paranoid then "ERROR" else "WARNING")
     +:+ ": unsafe header/library path used in cross-compilation: '" +:+ path +:+ "'")
    <$> List.filter (fun c => starts_with c path) unsafe_paths.
Definition is_dir_option (a : string) : bool := starts_with "-I" a || starts_with "-L" a.
(** The directories the loop checks, the path joined to the option or behind it. *)
Fixpoint search_dirs (args : list string) : list string :=
  match args with
  | [] => []
  | a :: rest =>
      if negb (is_dir_option a) then search_dirs rest
      else
        match String.substring 2 (String.length a) a with
        | EmptyString => match rest with [] => [] | p :: rest => p :: search_dirs rest end
        | p => p :: search_dirs rest
        end
  end.
(** [inl]: exit with the messages up to there. *)
Fixpoint check_dirs (name : string) (paranoid : bool) (dirs said : list string) : list string + list string :=
  match dirs with
  | [] => inr said
  | d :: dirs =>
      match check_unsafe_path name paranoid d with
      | [] => check_dirs name paranoid dirs said
      | m :: ms => if paranoid then inl (said ++ [m]) else check_dirs name paranoid dirs (said ++ m :: ms)
      end
  end.

(** ** The arguments *)

(** Storing behind what is there, in an array of [cap] pointers. *)
Definition store (cap : nat) (cur more : list string) : option (list string) :=
  if (length (cur ++ more) <=? cap)%nat then Some (cur ++ more) else None.
Definition is_float_option (a : string) : bool :=
  starts_with "-mfloat-abi=" a || String.eqb a "-msoft-float" || String.eqb a "-mhard-float".
Definition is_arch_option (a : string) : bool := starts_with "-march=" a || starts_with "-mcpu=" a.
Definition float_args (args : list string) : list string :=
  if existsb is_float_option args then [] else option_arg "-mfloat-abi=" (BR_FLOAT_ABI cfg).
Definition arch_args (args : list string) : list string :=
  if existsb is_arch_option args then []
  else option_arg "-march=" (BR_ARCH cfg) ++ option_arg "-mcpu=" (BR_CPU cfg).

Definition nonempty (o : option string) : bool := match o with Some (String _ _) => true | _ => false end.
(** [atoi] *)
Definition debug_level : Z := match getenv "BR2_DEBUG_WRAPPER" with Some s => i32 (strtoll 10 s) | None => 0 end.
Definition trace (args : list string) : list string :=
  if 0 <? debug_level then
    ["Toolchain wrapper executing:" +:+
     foldr (fun a t => (if debug_level =? 2 then NL +:+ "    " else " ") +:+ "'" +:+ a +:+ "'" +:+ t) EmptyString args]
  else [].

(** [main]; the outer [None] is undefined behaviour: no program name, or a write
    behind the end of [args]. *)
Definition main (argv : list string) : option ending :=
  match argv with
  | [] => None
  | progpath :: user =>
      match find_base progpath with
      | inl what => Some (Returned 2 [what])
      | inr (absbasedir, basename) =>
          match snprintf_path (compiler_path absbasedir basename), snprintf_path (sysroot_path absbasedir) with
          | Some path, Some sysroot =>
              let predef := predef_args path sysroot in
              let cap := (length predef + (length argv + EXCLUSIVE_ARGS))%nat in
              cur ← store cap [] predef;
              cur ← store cap cur (float_args user);
              cur ← store cap cur (arch_args user);
              let paranoid := nonempty (getenv "BR_COMPILER_PARANOID_UNSAFE_PATH") in
              match check_dirs basename paranoid (search_dirs user) [] with
              | inl said => Some (Returned 1 said)
              | inr said =>
                  cur ← store cap cur user;
                  if (length cur <? cap)%nat then
                    let said := said ++ trace cur in
                    Some (if execs path cur then Executed path cur said else Returned 2 (said ++ [path]))
                  else None
              end
          | _, _ => Some (Returned 3 ["overflow"])
          end
      end
  end.
End Wrapper.
