(* ===== verification/WrapperFacts.v ===== *)
(** What the toolchain wrapper passes to the real compiler, and what it refuses. *)
From S2P Require Import Prelude CText Wrapper.
Local Open Scope list_scope.

Section Facts.
Context (cfg : config) `{Machine}.

(** The options that do not depend on the arguments. *)
Definition fixed_args : list string := drop 3 (predef_args cfg EmptyString EmptyString).
Definition neutral (a : string) : Prop := is_arch_option a = false /\ is_float_option a = false.

Lemma predef_split path sysroot : predef_args cfg path sysroot = path :: "--sysroot"%string :: sysroot :: fixed_args.
Proof. done. Qed.
Lemma float_short user : (length (float_args cfg user) <= 1)%nat.
Proof. unfold float_args, option_arg. destruct (existsb _ _), (BR_FLOAT_ABI cfg); cbn; lia. Qed.
Lemma arch_short user : (length (arch_args cfg user) <= 2)%nat.
Proof. unfold arch_args, option_arg. destruct (existsb _ _), (BR_ARCH cfg), (BR_CPU cfg); cbn; lia. Qed.
Lemma store_fits cap cur more : (length cur + length more <= cap)%nat -> store cap cur more = Some (cur ++ more).
Proof. intros Hl. unfold store. rewrite length_app. by destruct (Nat.leb_spec (length cur + length more) cap); [|lia]. Qed.

(** The array of arguments is always large enough, and holds the fixed options, the
    exclusive ones and the arguments given. *)
Lemma main_args progpath user : exists e, main cfg (progpath :: user) = Some e /\
  match e with
  | Executed path args _ => exists sysroot,
      args = path :: "--sysroot"%string :: sysroot :: fixed_args ++ float_args cfg user ++ arch_args cfg user ++ user
  | Returned _ _ => True
  end.
Proof.
  unfold main. destruct (find_base progpath) as [what|[base name]]; [by eexists|].
  destruct (snprintf_path (compiler_path cfg base name)) as [path|]; [|by eexists].
  destruct (snprintf_path (sysroot_path cfg base)) as [sysroot|]; [|by eexists]. cbn zeta.
  pose proof (float_short user). pose proof (arch_short user). unfold EXCLUSIVE_ARGS. set (cap := (_ + _)%nat).
  assert (Hcap : cap = (length (predef_args cfg path sysroot) + S (length user) + 3)%nat) by (subst cap; cbn [length]; lia).
  clearbody cap. rewrite store_fits by (cbn [length app]; lia). cbn [mbind option_bind].
  rewrite store_fits by (rewrite app_nil_l; lia). cbn [mbind option_bind].
  rewrite store_fits by (rewrite !length_app; cbn [length]; lia). cbn [mbind option_bind].
  destruct (check_dirs _ _ _ _) as [said|said]; [by eexists|].
  rewrite store_fits by (rewrite !length_app; cbn [length]; lia). cbn [mbind option_bind].
  destruct (Nat.ltb_spec (length (((([] ++ predef_args cfg path sysroot) ++ float_args cfg user) ++ arch_args cfg user) ++ user)) cap) as [Hlt|Hge];
    [|rewrite !length_app in Hge; cbn [length] in Hge; lia].
  eexists. split; [reflexivity|]. destruct (execs _ _); [|done]. exists sysroot. by rewrite predef_split, <- !app_assoc.
Qed.

Lemma filter_none {A} (f : A -> bool) l : Forall (fun a => f a = false) l -> List.filter f l = [].
Proof. induction 1 as [|a l Ha _ IH]; [done|]. cbn. by rewrite Ha. Qed.
Lemma existsb_false {A} (f : A -> bool) l : existsb f l = false -> List.filter f l = [].
Proof.
  induction l as [|a l IH]; [done|]. cbn. intros [-> Hl]%orb_false_iff. by apply IH.
Qed.
Lemma filter_option_arg f prefix o : (forall v, f (prefix +:+ v) = false) -> List.filter f (option_arg prefix o) = [].
Proof. intros Hf. destruct o as [v|]; [|done]. cbn. by rewrite Hf. Qed.
Lemma filter_option_all f prefix o : (forall v, f (prefix +:+ v) = true) -> List.filter f (option_arg prefix o) = option_arg prefix o.
Proof. intros Hf. destruct o as [v|]; [|done]. cbn. by rewrite Hf. Qed.

(** The wrapper never leaves its array of arguments.  What it executes gets the
    sysroot, the fixed options and all arguments given, in their order and last; the
    configured architecture and floating point options are added exactly when the
    arguments choose none. *)
Theorem wrapper_options progpath user : Forall neutral fixed_args ->
  exists e, main cfg (progpath :: user) = Some e /\
  forall path args said, e = Executed path args said ->
  exists sysroot opts, args = path :: "--sysroot"%string :: sysroot :: opts ++ user /\
    List.filter is_arch_option (opts ++ user) =
      (if existsb is_arch_option user then List.filter is_arch_option user
       else option_arg "-march=" (BR_ARCH cfg) ++ option_arg "-mcpu=" (BR_CPU cfg)) /\
    List.filter is_float_option (opts ++ user) =
      (if existsb is_float_option user then List.filter is_float_option user
       else option_arg "-mfloat-abi=" (BR_FLOAT_ABI cfg)).
Proof.
  intros Hn. destruct (main_args progpath user) as (e & E & He). exists e. split; [done|]. intros path args said ->.
  destruct He as [sysroot ->]. exists sysroot, (fixed_args ++ float_args cfg user ++ arch_args cfg user). split; [by rewrite <- !app_assoc|].
  assert (Fa : List.filter is_arch_option fixed_args = []) by (apply filter_none; eapply Forall_impl; [exact Hn|]; by intros a [? _]).
  assert (Ff : List.filter is_float_option fixed_args = []) by (apply filter_none; eapply Forall_impl; [exact Hn|]; by intros a [_ ?]).
  rewrite !List.filter_app, Fa, Ff. unfold float_args, arch_args. split.
  - assert (Hf : List.filter is_arch_option (if existsb is_float_option user then [] else option_arg "-mfloat-abi=" (BR_FLOAT_ABI cfg)) = [])
      by (destruct (existsb _ _); [done|apply filter_option_arg; intros v; reflexivity]). rewrite Hf. cbn [app].
    destruct (existsb is_arch_option user) eqn:Eu; [done|]. rewrite (existsb_false _ _ Eu), app_nil_r, List.filter_app.
    rewrite !filter_option_all; [reflexivity|intros v; reflexivity..].
  - assert (Ha : List.filter is_float_option (if existsb is_arch_option user then [] else option_arg "-march=" (BR_ARCH cfg) ++ option_arg "-mcpu=" (BR_CPU cfg)) = []).
    { destruct (existsb _ _); [done|]. rewrite List.filter_app, !filter_option_arg; [done|intros v; reflexivity..]. }
    rewrite Ha. cbn [app]. destruct (existsb is_float_option user) eqn:Eu; [done|]. rewrite (existsb_false _ _ Eu), app_nil_r.
    rewrite filter_option_all; [by rewrite ?app_nil_r|intros v; reflexivity].
Qed.

(** ** Unsafe directories *)

Definition bare (a : string) : Prop := a = "-I"%string \/ a = "-L"%string.
Lemma check_dirs_safe name dirs : forall said said', check_dirs name true dirs said = inr said' ->
  forall d, d ∈ dirs -> unsafe d = false.
Proof.
  induction dirs as [|d dirs IH]; intros said said' E x Hx; [by apply elem_of_nil in Hx|]. cbn [check_dirs] in E.
  unfold check_unsafe_path in E. destruct (List.filter _ _) as [|c cs] eqn:Ef; [|done]. cbn in E.
  apply elem_of_cons in Hx as [->|Hx]; [|by eapply IH]. unfold unsafe. clear -Ef. induction unsafe_paths as [|c l IH]; [done|].
  cbn in *. destruct (starts_with c d); [done|]. by apply IH.
Qed.
Lemma strip_two a : is_dir_option a = true -> exists d, (a = "-I" +:+ d \/ a = "-L" +:+ d)%string /\ String.substring 2 (String.length a) a = d.
Proof.
  unfold is_dir_option, starts_with.
  assert (Hsub : forall d n, (String.length d <= n)%nat -> String.substring 0 n d = d).
  { induction d as [|c d IH]; intros [|n] Hn; try done; [cbn in Hn; lia|]. cbn. rewrite IH; [done|cbn in Hn; lia]. }
  intros [Ha|Ha]%orb_true_iff; [destruct (strip_prefix "-I" a) as [d|] eqn:E|destruct (strip_prefix "-L" a) as [d|] eqn:E]; try done;
    apply strip_prefix_Some in E as ->; exists d; (split; [auto|]); cbn; apply Hsub; lia.
Qed.
Lemma joined_option f d : f = "-I"%string \/ f = "-L"%string ->
  is_dir_option (f +:+ d) = true /\ String.substring 2 (String.length (f +:+ d)) (f +:+ d) = d.
Proof.
  intros Hf. assert (Ho : is_dir_option (f +:+ d) = true) by (destruct Hf as [-> | ->]; done). split; [done|].
  destruct (strip_two _ Ho) as (d' & Hd & ->). by destruct Hf as [-> | ->], Hd as [[= ->]|[= ->]].
Qed.
Lemma not_bare a : is_dir_option a = true -> String.substring 2 (String.length a) a = EmptyString -> bare a.
Proof. intros Ha Hs. destruct (strip_two a Ha) as (d & Hd & E). rewrite Hs in E. subst d. unfold bare. by destruct Hd as [-> | ->]; [left|right]. Qed.

(** The loop sees every option that is not the operand of the one before. *)
Lemma search_reaches n : forall pre a post, (length pre <= n)%nat -> (forall x, last pre = Some x -> ~ bare x) ->
  exists ds, search_dirs (pre ++ a :: post) = ds ++ search_dirs (a :: post).
Proof.
  induction n as [|n IH]; intros pre a post Hn Hl; (destruct pre as [|x pre]; [by exists []|]); [cbn in Hn; lia|].
  cbn in Hn. change ((x :: pre) ++ a :: post) with (x :: (pre ++ a :: post)). cbn [search_dirs].
  assert (Htail : exists ds, search_dirs (pre ++ a :: post) = ds ++ search_dirs (a :: post)).
  { apply IH; [lia|]. intros y Hy. apply Hl. destruct pre; [done|]. by rewrite last_cons_cons. }
  destruct (is_dir_option x) eqn:Ex; cbn [negb]; [|done].
  destruct (String.substring 2 (String.length x) x) as [|c s] eqn:Es.
  - pose proof (not_bare x Ex Es) as Hb. destruct pre as [|y pre].
    + by destruct (Hl x eq_refl).
    + cbn [app]. destruct (IH pre a post) as (ds & ->); [cbn in Hn; lia| |by exists (y :: ds)].
      intros z Hz. apply Hl. destruct pre; [done|]. by rewrite !last_cons_cons.
  - destruct Htail as (ds & ->). by exists (String c s :: ds).
Qed.

Lemma main_checked progpath user path args said v : main cfg (progpath :: user) = Some (Executed path args said) ->
  getenv "BR_COMPILER_PARANOID_UNSAFE_PATH" = Some v -> v <> EmptyString -> forall d, d ∈ search_dirs user -> unsafe d = false.
Proof.
  unfold main. intros E Hv Hne. destruct (find_base progpath) as [what|[base name]]; [done|].
  destruct (snprintf_path (compiler_path cfg base name)) as [path'|]; [|done].
  destruct (snprintf_path (sysroot_path cfg base)) as [sysroot|]; [|done]. cbn zeta in E.
  destruct (store _ [] _) as [c1|]; [|done]. cbn [mbind option_bind] in E.
  destruct (store _ c1 _) as [c2|]; [|done]. cbn [mbind option_bind] in E.
  destruct (store _ c2 _) as [c3|]; [|done]. cbn [mbind option_bind] in E.
  rewrite Hv in E. assert (Hp : nonempty (Some v) = true) by (by destruct v). rewrite Hp in E.
  destruct (check_dirs _ true _ _) as [s|s] eqn:Ec; [done|]. by eapply check_dirs_safe.
Qed.

(** The places of the host's headers and libraries. *)
Definition host_places : list string := ["/lib"; "/usr/include"; "/usr/lib"; "/usr/local/include"; "/usr/local/lib"]%string.
Lemma safe_prefix d : unsafe d = false -> forall p rest, p ∈ host_places -> d <> p +:+ rest.
Proof.
  intros Hd p rest Hp ->. assert (Ht : unsafe (p +:+ rest) = true); [|congruence].
  unfold host_places in Hp. rewrite !elem_of_cons, elem_of_nil in Hp. by destruct Hp as [->|[->|[->|[->|[->|[]]]]]].
Qed.

(** C31. With BR_COMPILER_PARANOID_UNSAFE_PATH set the real compiler is never executed
    with a directory among its -I and -L options whose text begins with /lib,
    /usr/include, /usr/lib, /usr/local/include or /usr/local/lib, whether the directory
    is joined to the option or follows it. *)
Theorem paranoid_refuses progpath user path args said v pre f d post :
  main cfg (progpath :: user) = Some (Executed path args said) ->
  getenv "BR_COMPILER_PARANOID_UNSAFE_PATH" = Some v -> v <> EmptyString -> bare f -> d <> EmptyString ->
  (forall x, last pre = Some x -> ~ bare x) ->
  user = pre ++ (f +:+ d)%string :: post \/ user = pre ++ f :: d :: post ->
  forall p rest, p ∈ host_places -> d <> p +:+ rest.
Proof.
  intros E Hv Hne Hf Hd Hl Hu. apply safe_prefix. eapply main_checked; [exact E|exact Hv|exact Hne|].
  destruct Hu as [-> | ->].
  - destruct (search_reaches (length pre) pre (f +:+ d)%string post ltac:(lia) Hl) as (ds & ->). apply elem_of_app. right.
    cbn [search_dirs]. destruct (joined_option f d Hf) as [-> ->]. cbn [negb]. destruct d; [done|]. by left.
  - destruct (search_reaches (length pre) pre f (d :: post) ltac:(lia) Hl) as (ds & ->). apply elem_of_app. right.
    cbn [search_dirs]. rewrite <- (app_nil_s f). destruct (joined_option f EmptyString Hf) as [-> ->]. cbn [negb]. by left.
Qed.

(** ** The two ways to the toolchain *)

Definition no_sep (s : string) : bool := string_all (fun c => negb (is_sep c)) s.
Lemma get_app p s k : String.get (String.length p + k) (p +:+ s) = String.get k s.
Proof. induction p as [|c p IH]; [done|]. cbn. apply IH. Qed.
Lemma substring_prefix p s : String.substring 0 (String.length p) (p +:+ s) = p.
Proof. induction p as [|c p IH]; [by destruct s|]. cbn. by rewrite IH. Qed.
Lemma get_no_sep s : no_sep s = true -> forall k, match String.get k s with Some c => is_sep c | None => false end = false.
Proof.
  induction s as [|c s IH]; [by intros _ [|k]|]. cbn. intros [Hc Hs]%andb_true_iff [|k]; cbn; [by apply negb_true_iff|by apply IH].
Qed.
(** Nothing happens behind the last slash; there the text is cut. *)
Lemma cut_behind p t n : no_sep t = true -> forall k, cut_components (String.length p + k) n (p +:+ String "/" t)
  = cut_components (String.length p) n (p +:+ String "/" t).
Proof.
  intros Ht. induction k as [|k IH]; [by rewrite Nat.add_0_r|]. rewrite Nat.add_succ_r. cbn [cut_components].
  replace (S (String.length p + k)) with (String.length p + S k)%nat by lia. rewrite get_app. cbn [String.get].
  by rewrite (get_no_sep t Ht k).
Qed.
Lemma cut_at p t n : p <> EmptyString -> cut_components (String.length p) n (p +:+ String "/" t) =
  (if (S n =? 3)%nat then p else cut_components (Nat.pred (String.length p)) (S n) p).
Proof.
  intros Hp. destruct p as [|c p]; [done|]. cbn [String.length Nat.pred]. cbn [cut_components].
  pose proof (get_app (String c p) (String "/" t) 0) as Hg. rewrite Nat.add_0_r in Hg. cbn [String.length] in Hg. rewrite Hg. cbn [String.get].
  change (is_sep "/") with true. cbn iota. change (S (String.length p)) with (String.length (String c p)). by rewrite substring_prefix.
Qed.
Lemma cut_component p t n : p <> EmptyString -> no_sep t = true -> forall k, (String.length p <= k)%nat ->
  cut_components k n (p +:+ String "/" t) = (if (S n =? 3)%nat then p else cut_components (Nat.pred (String.length p)) (S n) p).
Proof.
  intros Hp Ht k Hk. replace k with (String.length p + (k - String.length p))%nat by lia. by rewrite cut_behind, cut_at.
Qed.
Lemma cut_three base a b c : base <> EmptyString -> no_sep a = true -> no_sep b = true -> no_sep c = true ->
  let exe := base +:+ String "/" (a +:+ String "/" (b +:+ String "/" c)) in cut_components (String.length exe) 0 exe = base.
Proof.
  intros Hb Ha Hb' Hc. cbn zeta.
  assert (Hne : forall (x : string) t, x +:+ String "/" t <> EmptyString) by (intros [|? ?] t; done).
  replace (base +:+ String "/" (a +:+ String "/" (b +:+ String "/" c)))
    with (((base +:+ String "/" a) +:+ String "/" b) +:+ String "/" c) by (by rewrite <- !app_assoc_s).
  rewrite cut_component by (done || rewrite !length_app_s; lia). change (1 =? 3)%nat with false. cbn iota.
  rewrite cut_component by (done || rewrite !length_app_s; cbn; lia). change (2 =? 3)%nat with false. cbn iota.
  by rewrite cut_component by (done || rewrite !length_app_s; cbn; lia).
Qed.
Lemma split_last_none s : no_sep s = true -> split_last s = None.
Proof. induction s as [|c s IH]; [done|]. cbn. intros [Hc Hs]%andb_true_iff. rewrite IH by done. by apply negb_true_iff in Hc as ->. Qed.
Lemma split_last_app p s : no_sep s = true -> split_last (p +:+ String "/" s) = Some (p, s).
Proof. intros Hs. induction p as [|c p IH]; cbn; [by rewrite split_last_none|]. by rewrite IH. Qed.

(** Called by its name alone, found through PATH, the wrapper does the same as when
    called by its path, three directories below the toolchain's base. *)
Theorem found_through_path base a b name user :
  base <> EmptyString -> no_sep a = true -> no_sep b = true -> no_sep name = true ->
  let dir := base +:+ String "/" (a +:+ String "/" b) in let exe := dir +:+ String "/" name in
  (String.length exe <= PATH_MAX)%nat -> self_exe = Some exe -> realpath (dir +:+ "/../..") = Some base ->
  main cfg (name :: user) = main cfg (exe :: user).
Proof.
  intros Hne Ha Hb Hn dir exe Hl He Hr. unfold main.
  assert (Hexe : find_base exe = inr (base, name)).
  { unfold find_base, exe. rewrite split_last_app by done. by rewrite Hr. }
  assert (Hname : find_base name = inr (base, name)).
  { unfold find_base. rewrite split_last_none by done. rewrite He.
    assert (Hs : String.substring 0 PATH_MAX exe = exe).
    { generalize PATH_MAX Hl. generalize exe as s. induction s as [|c s IH]; intros [|n] Hs; try done; [cbn in Hs; lia|].
      cbn. rewrite IH; [done|cbn in Hs; lia]. }
    rewrite Hs. pose proof (cut_three base a b name Hne Ha Hb Hn) as Hc. cbn zeta in Hc.
    replace (base +:+ String "/" (a +:+ String "/" (b +:+ String "/" name))) with exe in Hc by (unfold exe, dir; rewrite <- !app_assoc_s; cbn; by rewrite <- !app_assoc_s).
    by rewrite Hc. }
  by rewrite Hexe, Hname.
Qed.
End Facts.

Definition arm : config := {|
  BR_CROSS_PATH := Relative "usr/bin"; BR_SYSROOT := "usr/arm/sysroot"; BR_ABI := Some "aapcs-linux"%string; BR_FPU := None;
  BR_SOFTFLOAT := false; BR_MODE := Some "arm"%string; BR_64 := false; BR_BINFMT_FLAT := false;
  BR_MIPS_TARGET_LITTLE_ENDIAN := false; BR_MIPS_TARGET_BIG_ENDIAN := false; BR_ADDITIONAL_CFLAGS := [];
  BR_FLOAT_ABI := Some "hard"%string; BR_ARCH := Some "armv6"%string; BR_CPU := Some "arm1176jzf-s"%string |}.
#[local] Instance host : Machine := {|
  realpath s := if String.eqb s "/opt/host/usr/bin/../.." then Some "/opt/host"%string else Some s;
  self_exe := Some "/opt/host/usr/bin/gcc"%string;
  getenv v := if String.eqb v "BR_COMPILER_PARANOID_UNSAFE_PATH" then Some "1"%string else None;
  execs _ _ := true |}.

Definition line : list string := ["-c"; "-I"; "inc"; "-march=armv5"; "x.c"]%string.
Example line_executed : main arm ("gcc"%string :: line) = Some (Executed "/opt/host/usr/bin/gcc"
  ["/opt/host/usr/bin/gcc"; "--sysroot"; "/opt/host/usr/arm/sysroot"; "-mabi=aapcs-linux"; "-marm"; "-mfloat-abi=hard";
   "-c"; "-I"; "inc"; "-march=armv5"; "x.c"]%string []).
Proof. reflexivity. Qed.
Example refused : main arm ["gcc"; "-L/usr/lib"; "x.c"]%string
  = Some (Returned 1 ["gcc: ERROR: unsafe header/library path used in cross-compilation: '/usr/lib'"%string]).
Proof. reflexivity. Qed.
(** The loop over /proc/self/exe stops in front of the first character: a toolchain
    in the root directory is looked for below /usr. *)
Example root_toolchain : cut_components 12 0 "/usr/bin/gcc" = "/usr"%string.
Proof. reflexivity. Qed.

Lemma wrapper_options_witness : exists e, main arm ("gcc"%string :: line) = Some e /\
  forall path args said, e = Executed path args said ->
  exists sysroot opts, args = path :: "--sysroot"%string :: sysroot :: opts ++ line /\
    List.filter is_arch_option (opts ++ line) = ["-march=armv5"%string] /\
    List.filter is_float_option (opts ++ line) = ["-mfloat-abi=hard"%string].
Proof. apply (wrapper_options arm "gcc" line). repeat constructor. Defined.
Lemma paranoid_refuses_witness : "/usr/lib"%string ∈ host_places /\ ~ "inc"%string = "/usr/lib" +:+ "x".
Proof.
  assert (Hp : "/usr/lib"%string ∈ host_places) by (right; right; left). split; [exact Hp|].
  eapply (paranoid_refuses arm "gcc" line _ _ _ "1"%string ["-c"%string] "-I"%string "inc"%string ["-march=armv5"; "x.c"]%string);
    [exact line_executed|reflexivity|discriminate|left; reflexivity|discriminate|intros x [= <-] [H|H]; discriminate H|right; reflexivity|exact Hp].
Defined.
Lemma found_through_path_witness : main arm ("gcc"%string :: line) = main arm ("/opt/host/usr/bin/gcc"%string :: line).
Proof.
  apply (found_through_path arm "/opt/host" "usr" "bin" "gcc" line); try reflexivity; [discriminate|].
  apply Nat.leb_le. vm_compute. reflexivity.
Defined.
