(* ===== verification/Mkpasswd.v ===== *)
(** The password hasher of Buildroot (src/buildroot/package/mkpasswd/mkpasswd.c,
    utils.c): the options, the salt, the password, and what [crypt] is asked; as it is
    built with glibc, which has SHA methods, [getopt_long] and [/dev/urandom]. *)
From S2P Require Import Prelude CText.
Local Open Scope list_scope.

(** ** Output *)

Record console := { out : string; err : string }.
Abbreviation PW := (EM console).
Definition printf (t : string) : PW unit := emodify (fun c => {| out := out c +:+ t; err := err c |}).
Definition eprintf (t : string) : PW unit := emodify (fun c => {| out := out c; err := err c +:+ t |}).
(** A message, then [exit]. *)
Definition quit {A} (status : Z) (t : string) : PW A := eprintf t;; eexit status.

(** ** Arguments (utils.c) *)

(** An element of [argv]: never written, [NULL], or a text. *)
Inductive cell := Garbage | Null | Arg (s : string).
(** [realloc] to [n] elements. *)
Definition resize (n : nat) (a : list cell) : list cell := take n (a ++ repeat Garbage n).
Definition put (i : nat) (x : cell) (a : list cell) : option (list cell) :=
  if (i <? length a)%nat then Some (<[i:=x]> a) else None.
Definition cell_at (i : nat) (a : list cell) : option cell := a !! i.

(** [strtok] with blanks. *)
Definition not_blank (c : Ascii.ascii) : bool := negb (char_eqb c " ").
Fixpoint skip_blanks (s : string) : string :=
  match s with String c t => if char_eqb c " " then skip_blanks t else s | EmptyString => "" end.
Fixpoint tokens (n : nat) (s : string) : list string :=
  match n with
  | O => []
  | S n =>
      match skip_blanks s with
      | EmptyString => []
      | s => let '(w, rest) := span not_blank s in w :: tokens n rest
      end
  end.

(** The words of the environment, from the element 1. *)
Fixpoint take_words (words : list string) (argc num_env : nat) (newargs : list cell) : option (list cell * nat) :=
  match words with
  | [] => Some (newargs, num_env)
  | w :: words =>
      let num_env := S num_env in
      newargs ← put num_env (Arg w) (resize (num_env + argc + 1) newargs);
      take_words words argc num_env newargs
  end.
(** [for (i = 1; i <= *argc; i++)] with [k] rounds left. *)
Fixpoint append_args (k i num_env : nat) (argv newargs : list cell) : option (list cell) :=
  match k with
  | O => Some newargs
  | S k =>
      x ← cell_at i argv;
      newargs ← put (num_env + i) x newargs;
      append_args k (S i) num_env argv newargs
  end.
(** The new [argv] and [argc]; [None]: an access outside of an array. *)
Definition merge_args (args : option string) (argv : list cell) (argc : nat) : option (list cell * nat) :=
  match args with
  | None => Some (argv, argc)
  | Some args =>
      match tokens (S (String.length args)) args with
      | [] => Some (argv, argc)
      | words =>
          '(newargs, num_env) ← take_words words argc 0 [];
          x ← cell_at 0 argv;
          newargs ← put 0 x newargs;
          newargs ← append_args argc 1 num_env argv newargs;
          Some (newargs, (argc + num_env)%nat)
      end
  end.

(** ** Methods *)

Record crypt_method := { method : string; prefix : string; minlen : Z; maxlen : Z; rounds_ok : bool; desc : string }.
Definition methods : list crypt_method := [
  {| method := "des"; prefix := ""; minlen := 2; maxlen := 2; rounds_ok := false; desc := "standard 56 bit DES-based crypt(3)" |};
  {| method := "md5"; prefix := "$1$"; minlen := 8; maxlen := 8; rounds_ok := false; desc := "MD5" |};
  {| method := "sha-256"; prefix := "$5$"; minlen := 8; maxlen := 16; rounds_ok := true; desc := "SHA-256" |};
  {| method := "sha-512"; prefix := "$6$"; minlen := 8; maxlen := 16; rounds_ok := true; desc := "SHA-512" |} ].
Definition default_method : crypt_method :=
  {| method := "des"; prefix := ""; minlen := 2; maxlen := 2; rounds_ok := false; desc := "standard 56 bit DES-based crypt(3)" |}.
Definition strcaseeq (a b : string) : bool := String.eqb (string_map tolower a) (string_map tolower b).
Definition find_method (nm : string) : option crypt_method := List.find (fun m => strcaseeq (method m) nm) methods.

Definition valid_salts : string := "abcdefghijklmnopqrstuvwxyzABCDEFGHIJKLMNOPQRSTUVWXYZ0123456789./".
Definition valid_char (c : Ascii.ascii) : bool := bool_decide (is_Some (strchr c valid_salts)).
Definition salt_char (n : Z) : Ascii.ascii := default (chr 0) (String.get (Z.to_nat (n mod 64)) valid_salts).

(** ** The program *)

Section Program.
(** What [getopt_long] makes of the arguments: the options with [optarg] ([?] for
    errors) and the arguments behind them. *)
Variable getopt : list cell -> nat -> list (Ascii.ascii * option string) * list string.
Variable progname : string.
Variable environment : option string.
(** [read] of /dev/urandom, when it can be opened; the clock and the process; the
    first [rand()] of a seed. *)
Variable urandom : Z -> option (list Z).
Variables time pid : Z.
Variable rand : Z -> Z.
(** Whether a descriptor is a terminal, and its text when [fdopen] takes it. *)
Variable isatty : Z -> bool.
Variable fdopen : Z -> option string.
Variable getpass : option string.
Variable crypt : string -> string -> option string.

Definition display_methods : PW unit :=
  printf ("Available methods:" +:+ NL);;
  printf (foldr (fun m t => method m +:+ str1 (chr 9) +:+ desc m +:+ NL +:+ t) "" methods).
Definition display_version : PW unit :=
  printf ("mkpasswd 5.0.26" +:+ NL +:+ NL);;
  printf ("Copyright (C) 2001-2008 Marco d'Itri" +:+ NL
          +:+ "This is free software; see the source for copying conditions.  There is NO" +:+ NL
          +:+ "warranty; not even for MERCHANTABILITY or FITNESS FOR A PARTICULAR PURPOSE." +:+ NL).
Definition help_text : string :=
  "      -m, --method=TYPE     select method TYPE" +:+ NL
  +:+ "      -5                    like --method=md5" +:+ NL
  +:+ "      -S, --salt=SALT       use the specified SALT" +:+ NL
  +:+ "      -R, --rounds=NUMBER   use the specified NUMBER of rounds" +:+ NL
  +:+ "      -P, --password-fd=NUM read the password from file descriptor NUM" +:+ NL
  +:+ "                            instead of /dev/tty" +:+ NL
  +:+ "      -s, --stdin           like --password-fd=0" +:+ NL
  +:+ "      -h, --help            display this help and exit" +:+ NL
  +:+ "      -V, --version         output version information and exit" +:+ NL
  +:+ NL
  +:+ "If PASSWORD is missing then it is asked interactively." +:+ NL
  +:+ "If no SALT is specified, a random one is generated." +:+ NL
  +:+ "If TYPE is 'help', available methods are printed." +:+ NL
  +:+ NL
  +:+ "Report bugs to <md+whois@linux.it>." +:+ NL.
Definition display_help {A} (error : Z) : PW A :=
  (let usage := "Usage: mkpasswd [OPTIONS]... [PASSWORD [SALT]]" +:+ NL
                +:+ "Crypts the PASSWORD using crypt(3)." +:+ NL +:+ NL in
   if error =? 0 then printf usage else eprintf usage);;
  eprintf help_text;;
  eexit error.

(** *** Options *)

(** [salt_prefix], [salt_minlen], [salt_maxlen] and [rounds_support] are those of a
    method. *)
Record settings := {
  chosen : option crypt_method;
  rounds : Z;
  salt_arg : option string;
  password_fd : Z;
}.
Definition no_settings : settings := {| chosen := None; rounds := 0; salt_arg := None; password_fd := -1 |}.
Definition set_chosen (m : crypt_method) (o : settings) : settings :=
  {| chosen := Some m; rounds := rounds o; salt_arg := salt_arg o; password_fd := password_fd o |}.
Definition set_rounds (n : Z) (o : settings) : settings :=
  {| chosen := chosen o; rounds := n; salt_arg := salt_arg o; password_fd := password_fd o |}.
Definition set_salt (s : option string) (o : settings) : settings :=
  {| chosen := chosen o; rounds := rounds o; salt_arg := s; password_fd := password_fd o |}.
Definition set_fd (fd : Z) (o : settings) : settings :=
  {| chosen := chosen o; rounds := rounds o; salt_arg := salt_arg o; password_fd := fd |}.

(** [-m]: an unknown method is an error only when none was chosen before. *)
Definition method_option (optarg : option string) (o : settings) : PW settings :=
  match optarg with
  | None => display_methods;; eexit 0
  | Some nm =>
      if strcaseeq "help" nm then display_methods;; eexit 0
      else
        match find_method nm, chosen o with
        | Some m, _ => mret (set_chosen m o)
        | None, Some _ => mret o
        | None, None => quit 1 ("Invalid method '" +:+ nm +:+ "'." +:+ NL)
        end
  end.
Definition invalid_number {A} (s : string) : PW A := quit 1 ("Invalid number '" +:+ s +:+ "'." +:+ NL).
Definition fd_option (s : string) (o : settings) : PW settings :=
  let '(v, p) := strtol_end s in
  if negb (String.eqb p "") || (i32 v <? 0) then invalid_number s else mret (set_fd (i32 v) o).
(** [rounds] is unsigned: [rounds < 0] is never true. *)
Definition rounds_option (s : string) (o : settings) : PW settings :=
  let '(v, p) := strtol_end s in
  if negb (String.eqb p "") || (u32 v <? 0) then invalid_number s else mret (set_rounds (u32 v) o).
Definition option_step (ch : Ascii.ascii) (optarg : option string) (o : settings) : PW settings :=
  if char_eqb ch "5" then method_option (Some "md5") o
  else if char_eqb ch "m" || char_eqb ch "H" then method_option optarg o
  else if char_eqb ch "P" then s ← elift optarg; fd_option s o
  else if char_eqb ch "R" then s ← elift optarg; rounds_option s o
  else if char_eqb ch "s" then mret (set_fd 0 o)
  else if char_eqb ch "S" then mret (set_salt optarg o)
  else if char_eqb ch "V" then display_version;; eexit 0
  else if char_eqb ch "h" then display_help 0
  else quit 1 ("Try '" +:+ progname +:+ " --help' for more information." +:+ NL).
Fixpoint options (l : list (Ascii.ascii * option string)) (o : settings) : PW settings :=
  match l with [] => mret o | (ch, a) :: l => o ← option_step ch a o; options l o end.

(** *** The salt *)

(** [snprintf] into [size] bytes. *)
Definition snprintf (size : nat) (t : string) : string := String.substring 0 (size - 1) t.
Definition rounds_string (m : crypt_method) (n : Z) : string :=
  if rounds_ok m && negb (n =? 0) then snprintf 30 ("rounds=" +:+ fmt_d n +:+ "$") else "".

(** Which characters are checked: from the last to the first. *)
Fixpoint bad_char (s : string) : option Ascii.ascii :=
  match s with
  | EmptyString => None
  | String c t => match bad_char t with Some d => Some d | None => if valid_char c then None else Some c end
  end.
Definition wrong_length (m : crypt_method) (c : Z) : string :=
  "Wrong salt length: " +:+ fmt_d (i32 c) +:+ (if c =? 1 then " byte" else " bytes") +:+ " when "
  +:+ (if minlen m =? maxlen m then fmt_d (maxlen m) else fmt_d (minlen m) +:+ " <= n <= " +:+ fmt_d (maxlen m))
  +:+ " expected." +:+ NL.
Definition given_salt (m : crypt_method) (s : string) : PW string :=
  let c := u32 (Z.of_nat (String.length s)) in
  if (c <? minlen m) || (maxlen m <? c) then quit 1 (wrong_length m c)
  else
    match bad_char (String.substring 0 (Z.to_nat c) s) with
    | Some d => quit 1 ("Illegal salt character '" +:+ str1 d +:+ "'." +:+ NL)
    | None => mret s
    end.

Definition get_random_bytes (count : Z) : PW (list Z) :=
  match urandom count with
  | None => quit 2 ("open(/dev/urandom): " +:+ NL)
  | Some bytes =>
      if Z.of_nat (length bytes) =? count then mret bytes else quit 2 ("Short read of /dev/urandom." +:+ NL)
  end.
Definition generate_salt (len : Z) : PW string :=
  entropy ← get_random_bytes len;
  mret (foldr (fun b s => String (salt_char b) s) "" entropy).
Definition random_length (m : crypt_method) : Z :=
  if minlen m =? maxlen m then maxlen m
  else u32 (u32 (rand (u32 (time + pid))) mod u32 (maxlen m - minlen m + 1) + minlen m).
Definition make_salt (m : crypt_method) (o : settings) : PW string :=
  s ← match salt_arg o with Some s => given_salt m s | None => generate_salt (random_length m) end;
  mret (prefix m +:+ rounds_string m (rounds o) +:+ s).

(** *** The password *)

Definition end_of_line (c : Ascii.ascii) : bool := char_eqb c nl || char_eqb c cr.
(** The line as [fgets] and [strpbrk] leave it. *)
Definition first_line (t : string) : string :=
  (span (fun c => negb (end_of_line c)) (until_nul (fgets 127 t).1)).1.
Definition ask_password (o : settings) : PW string :=
  if negb (password_fd o =? -1) then
    ewhen (isatty (password_fd o)) (eprintf "Password: ");;
    match fdopen (password_fd o) with
    | None => quit 2 ("fdopen: " +:+ NL)
    | Some "" => quit 2 ("fgets: " +:+ NL)
    | Some t => mret (first_line t)
    end
  else match getpass with Some p => mret p | None => quit 2 ("getpass: " +:+ NL) end.

(** [PASSWORD [SALT]] *)
Definition operands (args : list string) (o : settings) : PW (option string * settings) :=
  match args, salt_arg o with
  | [p; s], None => mret (Some p, set_salt (Some s) o)
  | [p], _ => mret (Some p, o)
  | [], _ => mret (None, o)
  | _, _ => display_help 1
  end.

Definition starts_with (p s : string) : bool := bool_decide (is_Some (strip_prefix p s)).
Definition hash (m : crypt_method) (password salt : string) : PW unit :=
  match crypt password salt with
  | None => quit 2 ("crypt failed." +:+ NL)
  | Some r =>
      if head_is (char_eqb "*") r then quit 2 ("crypt failed." +:+ NL)
      else if negb (starts_with (prefix m) r) then quit 2 ("Method not supported by crypt(3)." +:+ NL)
      else printf (r +:+ NL)
  end.

(** Behind the options. *)
Definition run (args : list string) (o : settings) : PW unit :=
  '(given, o) ← operands args o;
  let m := default default_method (chosen o) in
  salt ← make_salt m o;
  password ← match given with Some p => mret p | None => ask_password o end;
  hash m password salt;;
  eexit 0.
Definition main (argv : list cell) (argc : nat) : PW unit :=
  '(argv, argc) ← elift (merge_args environment argv argc);
  let '(opts, args) := getopt argv argc in
  o ← options opts no_settings;
  run args o.
End Program.
