(* ===== verification/MkpasswdFacts.v ===== *)
(** What mkpasswd does: the arguments of the environment come first, a hash that is
    printed was made with a well-formed salt of its method, and the program always ends,
    without output when it fails. *)
From S2P Require Import Prelude CText Mkpasswd.
Local Open Scope list_scope.
Local Open Scope nat_scope.

(** ** Arguments *)

Definition blank (c : Ascii.ascii) : bool := char_eqb c " ".
(** A text is the words [ws] with blanks between them. *)
Inductive spells : list string -> string -> Prop :=
| spells_nil b : string_all blank b = true -> spells [] b
| spells_cons b w r ws : string_all blank b = true -> w <> ""%string -> string_all not_blank w = true ->
    head_is not_blank r = false -> spells ws r -> spells (w :: ws) (b +:+ w +:+ r).

Lemma skip_blanks_app b s : string_all blank b = true -> skip_blanks (b +:+ s) = skip_blanks s.
Proof. induction b as [|c b IH]; [done|]. cbn. unfold blank at 1. intros [-> Hb]%andb_true_iff. by apply IH. Qed.
Lemma skip_blanks_word w r : w <> ""%string -> string_all not_blank w = true -> skip_blanks (w +:+ r) = w +:+ r.
Proof.
  destruct w as [|c w]; [done|]. intros _. cbn. unfold not_blank at 1. intros [H _]%andb_true_iff.
  apply negb_true_iff in H. by rewrite H.
Qed.
Lemma span_word w r : string_all not_blank w = true -> head_is not_blank r = false -> span not_blank (w +:+ r) = (w, r).
Proof.
  intros Hw Hr. induction w as [|c w IH].
  - destruct r as [|c r]; [done|]. cbn in *. by rewrite Hr.
  - cbn in *. apply andb_true_iff in Hw as [-> Hw]. by rewrite IH.
Qed.
Lemma tokens_spells ws t : spells ws t -> forall n, String.length t < n -> tokens n t = ws.
Proof.
  induction 1 as [b Hb|b w r ws Hb Hne Hw Hr _ IH]; intros [|n] Hn; try lia; cbn [tokens].
  - rewrite <- (app_nil_s b), skip_blanks_app by done. done.
  - rewrite skip_blanks_app, skip_blanks_word by done. destruct w as [|c w]; [done|].
    change (String c w +:+ r) with (String c (w +:+ r)). cbn iota. change (String c (w +:+ r)) with (String c w +:+ r).
    rewrite span_word by done. f_equal. apply IH.
    rewrite !length_app_s in Hn. cbn in Hn. lia.
Qed.

Lemma resize_length n a : length (resize n a) = n.
Proof. unfold resize. rewrite length_take, length_app, repeat_length. lia. Qed.
Lemma put_ok i x a : i < length a -> put i x a = Some (<[i:=x]> a).
Proof. intros H. unfold put. apply Nat.ltb_lt in H. by rewrite H. Qed.
(** The array begins with [pre], behind the element 0. *)
Definition holds (pre : list cell) (a : list cell) : Prop := exists x post, a = x :: pre ++ post.
Lemma holds_put pre a x : holds pre a -> S (length pre) < length a -> put (S (length pre)) x a = Some (<[S (length pre) := x]> a) /\
  holds (pre ++ [x]) (<[S (length pre) := x]> a).
Proof.
  intros (y & post & ->) Hn. split; [by apply put_ok|]. cbn in Hn. rewrite length_app in Hn.
  destruct post as [|z post]; [cbn in Hn; lia|]. exists y, post. change (y :: pre ++ z :: post) with ((y :: pre) ++ z :: post).
  rewrite insert_app_r_alt by done. cbn [length]. rewrite Nat.sub_diag. cbn. by rewrite <- app_assoc.
Qed.
Lemma holds_resize pre a n : holds pre a -> S (length pre) <= n -> holds pre (resize n a).
Proof.
  intros (x & post & ->) Hn. destruct n as [|n]; [lia|]. exists x, (take (n - length pre) (post ++ repeat Garbage (S n))).
  unfold resize. cbn [app take]. f_equal. rewrite <- app_assoc, take_app_ge by lia. done.
Qed.
Lemma take_words_run ws argc : forall pre a, (pre = [] /\ a = [] \/ holds pre a) ->
  exists a', take_words ws argc (length pre) a = Some (a', length pre + length ws) /\
    (ws = [] /\ a' = a \/ (holds (pre ++ map Arg ws) a' /\ length a' = length pre + length ws + argc + 1)).
Proof.
  induction ws as [|w ws IH]; intros pre a Ha; cbn [take_words].
  - exists a. rewrite Nat.add_0_r. auto.
  - assert (Hr : holds pre (resize (S (length pre) + argc + 1) a)).
    { destruct Ha as [[-> ->]|Ha]; [|apply holds_resize; [done|lia]]. exists Garbage, (repeat Garbage (argc + 1)).
      unfold resize. cbn. f_equal. by rewrite firstn_all2 by (rewrite repeat_length; lia). }
    destruct (holds_put _ _ (Arg w) Hr) as [-> Hp]; [rewrite resize_length; lia|]. cbn [option_bind mbind].
    destruct (IH (pre ++ [Arg w]) _ (or_intror Hp)) as (a' & E & H). rewrite length_app in E. cbn in E. rewrite Nat.add_1_r in E.
    exists a'. cbn. rewrite E. split; [f_equal; f_equal; lia|right].
    destruct H as [[-> ->]|[H Hl]].
    + split; [done|]. rewrite length_insert, resize_length. cbn. lia.
    + rewrite <- app_assoc in H. cbn in H. split; [exact H|]. rewrite length_app in Hl. cbn in Hl. lia.
Qed.
(** The rest of [argv] goes behind the words. *)
Lemma append_args_run k : forall i n argv a, length argv = i + k -> length a = n + i + k ->
  exists a', append_args k i n argv a = Some a' /\ take (n + i) a' = take (n + i) a /\ drop (n + i) a' = drop i argv.
Proof.
  induction k as [|k IH]; intros i n argv a Hv Ha; cbn [append_args].
  - exists a. split; [done|]. split; [done|]. rewrite !skipn_all2 by lia. done.
  - destruct (lookup_lt_is_Some_2 argv i) as [x Ex]; [lia|]. unfold cell_at. rewrite Ex. cbn [option_bind mbind].
    rewrite put_ok by lia. cbn [option_bind mbind].
    destruct (IH (S i) n argv (<[n + i := x]> a)) as (a' & E & Ht & Hd); [lia|rewrite length_insert; lia|].
    exists a'. split; [exact E|]. replace (n + S i) with (S (n + i)) in * by lia. split.
    + apply (f_equal (take (n + i))) in Ht. rewrite !take_take, Nat.min_l in Ht by lia. by rewrite Ht, take_insert_ge by lia.
    + rewrite (drop_S argv x i Ex), <- Hd. apply drop_S.
      assert (El : take (S (n + i)) a' !! (n + i) = Some x).
      { rewrite Ht, lookup_take_lt by lia. apply list_lookup_insert_eq. lia. }
      by rewrite lookup_take_lt in El by lia.
Qed.
Lemma holds_put_0 pre a x : holds pre a -> exists post, put 0 x a = Some (x :: pre ++ post) /\ length (x :: pre ++ post) = length a.
Proof. intros (y & post & ->). exists post. rewrite put_ok by (cbn; lia). done. Qed.
Lemma merge_args_run t argv argc : length argv = S argc -> exists ws, ws = tokens (S (String.length t)) t /\
  merge_args (Some t) argv argc = Some (take 1 argv ++ map Arg ws ++ drop 1 argv, argc + length ws).
Proof.
  intros Hl. eexists. split; [reflexivity|]. unfold merge_args. destruct (tokens _ t) as [|w ws].
  { cbn [map app length]. by rewrite take_drop, Nat.add_0_r. }
  destruct (take_words_run (w :: ws) argc [] [] (or_introl (conj eq_refl eq_refl))) as (a & E & H).
  cbn [length Nat.add] in E. rewrite E. cbn [option_bind mbind]. destruct H as [[? _]|[H Hn]]; [done|].
  change ([] ++ map Arg (w :: ws)) with (map Arg (w :: ws)) in H.
  destruct argv as [|x argv]; [done|]. unfold cell_at at 1. cbn [lookup list_lookup option_bind mbind].
  destruct (holds_put_0 _ _ x H) as (post & -> & Hp). cbn [option_bind mbind].
  destruct (append_args_run argc 1 (length (w :: ws)) (x :: argv) (x :: map Arg (w :: ws) ++ post)) as (a' & Ea & Ht & Hd);
    [cbn in *; lia|rewrite Hp; cbn in *; lia|].
  cbn [length] in Ea. rewrite Ea. cbn [option_bind mbind]. f_equal. f_equal. rewrite <- (take_drop (length (w :: ws) + 1) a').
  assert (Et : take (length (w :: ws) + 1) (x :: map Arg (w :: ws) ++ post) = x :: map Arg (w :: ws)).
  { rewrite Nat.add_1_r, <- (length_map Arg).
    change (x :: take (length (map Arg (w :: ws))) (map Arg (w :: ws) ++ post) = x :: map Arg (w :: ws)). by rewrite take_app_length. }
  rewrite Ht, Hd, Et. reflexivity.
Qed.

(** ** How parts of the program end *)

Definition ends {A} (m : PW A) (Q : ended A -> console -> Prop) (c : console) : Prop :=
  match m c with Ok r c' => Q r c' | _ => False end.
(** An error: a status, and nothing printed. *)
Definition failed (n : Z) (c c' : console) : Prop := (n = 1 \/ n = 2)%Z /\ out c' = out c.
(** [m] gives a value in [P], without output, or fails. *)
Definition gives {A} (m : PW A) (P : A -> Prop) : Prop :=
  forall c, ends m (fun r c' => match r with Returned a => out c' = out c /\ P a | Exited n => failed n c c' end) c.

Lemma bind_ends {A B} (m : PW A) (f : A -> PW B) Q c :
  ends m (fun r c' => match r with Returned a => ends (f a) Q c' | Exited n => Q (Exited n) c' end) c -> ends (m ≫= f) Q c.
Proof. unfold ends, mbind, EM_bind. by destruct (m c) as [[a|n] c'| |]. Qed.
Lemma mono_ends {A} (m : PW A) (Q Q' : ended A -> console -> Prop) c : ends m Q c -> (forall r c', Q r c' -> Q' r c') -> ends m Q' c.
Proof. unfold ends. destruct (m c); auto. Qed.
(** Behind a part that gives a value. *)
Lemma ends_gives {A B} (m : PW A) P (f : A -> PW B) Q c : gives m P ->
  (forall a c', out c' = out c -> P a -> ends (f a) Q c') -> (forall n c', failed n c c' -> Q (Exited n) c') -> ends (m ≫= f) Q c.
Proof.
  intros Hm Hf He. apply bind_ends. eapply mono_ends; [apply Hm|]. intros [a|n] c'; [intros [E Ha]; by apply Hf|by apply He].
Qed.
Lemma gives_bind {A B} (m : PW A) (f : A -> PW B) P Q : gives m P -> (forall a, P a -> gives (f a) Q) -> gives (m ≫= f) Q.
Proof.
  intros Hm Hf c. eapply ends_gives; [exact Hm| |done]. intros a c' E Ha. eapply mono_ends; [by apply Hf|].
  intros [b|n] c''; [intros [E' Hb]; split; [congruence|done]|intros [Hn E']; split; [done|congruence]].
Qed.
Lemma gives_ret {A} (a : A) (P : A -> Prop) : P a -> gives (mret a) P.
Proof. intros H c. by split. Qed.
Lemma gives_err t (P : unit -> Prop) : P tt -> gives (eprintf t) P.
Proof. intros H c. by split. Qed.
Lemma gives_quit {A} n t (P : A -> Prop) : n = 1%Z \/ n = 2%Z -> gives (quit n t) P.
Proof. intros H c. by split. Qed.
Lemma gives_help {A} (P : A -> Prop) : gives (display_help 1) P.
Proof. intros c. split; [by left|done]. Qed.

Section Program.
Context (getopt : list cell -> nat -> list (Ascii.ascii * option string) * list string) (progname : string)
  (environment : option string) (urandom : Z -> option (list Z)) (time pid : Z) (rand : Z -> Z) (isatty : Z -> bool)
  (fdopen : Z -> option string) (getpass : option string) (crypt : string -> string -> option string).

(** *** Options *)

(** Arguments are shorter than 4 GiB. *)
Definition short (s : string) : Prop := (Z.of_nat (String.length s) < 4294967296)%Z.
(** An option that asks for no information; [getopt_long] gives an argument to those
    that need one. *)
Definition plain (o : Ascii.ascii * option string) : Prop :=
  let '(ch, a) := o in
  char_eqb ch "V" = false /\ char_eqb ch "h" = false /\
  (char_eqb ch "m" || char_eqb ch "H" = true -> exists nm, a = Some nm /\ strcaseeq "help" nm = false) /\
  (char_eqb ch "P" || char_eqb ch "R" = true -> is_Some a) /\ (forall s, a = Some s -> short s).
Record sound (o : settings) : Prop := {
  so_method : forall m, chosen o = Some m -> m ∈ methods;
  so_rounds : is_u32 (rounds o);
  so_salt : forall s, salt_arg o = Some s -> short s;
}.

Lemma find_method_in nm m : find_method nm = Some m -> m ∈ methods.
Proof. intros H%List.find_some. apply list_elem_of_In, H. Qed.
Lemma gives_method nm o : strcaseeq "help" nm = false -> sound o -> gives (method_option (Some nm) o) sound.
Proof.
  intros Hh Ho. unfold method_option. rewrite Hh. destruct (find_method nm) as [m|] eqn:E.
  - apply gives_ret. destruct Ho. split; [|done..]. intros m' [= <-]. by eapply find_method_in.
  - destruct (chosen o); [by apply gives_ret|apply gives_quit; auto].
Qed.
Lemma gives_option o opt : plain opt -> sound o -> gives (option_step progname opt.1 opt.2 o) sound.
Proof.
  destruct opt as [ch a]. intros (HV & Hh & Hm & Hp & Hs) Ho. cbn [fst snd]. unfold option_step. rewrite HV, Hh.
  destruct (char_eqb ch "5"); [by apply gives_method|].
  destruct (char_eqb ch "m" || char_eqb ch "H") eqn:Em.
  { destruct (Hm eq_refl) as (nm & -> & Hnm). by apply gives_method. }
  destruct (char_eqb ch "P") eqn:EP; [|destruct (char_eqb ch "R") eqn:ER].
  - destruct (Hp eq_refl) as [s ->]. eapply (gives_bind _ _ (fun x => x = s)); [by apply gives_ret|]. intros ? ->.
    unfold fd_option, invalid_number. destruct (strtol_end s) as [v p]. destruct (negb _ || _); [apply gives_quit; auto|]. apply gives_ret. by destruct Ho.
  - destruct (Hp eq_refl) as [s ->]. eapply (gives_bind _ _ (fun x => x = s)); [by apply gives_ret|]. intros ? ->.
    unfold rounds_option, invalid_number. destruct (strtol_end s) as [v p]. destruct (negb _ || _); [apply gives_quit; auto|]. apply gives_ret. destruct Ho.
    split; [done| |done]. cbn. by apply Z.mod_pos_bound.
  - destruct (char_eqb ch "s"); [apply gives_ret; by destruct Ho|].
    destruct (char_eqb ch "S"); [apply gives_ret; by destruct Ho|]. apply gives_quit; auto.
Qed.
(** The options that ask for information, with the beginning of what they print. *)
Inductive asks : Ascii.ascii * option string -> string -> Prop :=
| asks_version a : asks ("V"%char, a) ("mkpasswd 5.0.26" +:+ NL)
| asks_usage a : asks ("h"%char, a) ("Usage: mkpasswd [OPTIONS]... [PASSWORD [SALT]]" +:+ NL)
| asks_methods ch a : ch ∈ ["m"; "H"]%char -> (forall nm, a = Some nm -> string_map tolower nm = "help") ->
    asks (ch, a) ("Available methods:" +:+ NL).
Definition informed (opts : list (Ascii.ascii * option string)) (c c' : console) : Prop :=
  exists o t rest, o ∈ opts /\ asks o t /\ out c' = out c +:+ t +:+ rest.
(** [getopt_long] gives an argument to the options that need one. *)
Definition well_given (o : Ascii.ascii * option string) : Prop :=
  (char_eqb o.1 "P" || char_eqb o.1 "R" = true -> is_Some o.2) /\ (forall s, o.2 = Some s -> short s).
Lemma plain_or_asks o : well_given o -> plain o \/ exists t, asks o t.
Proof.
  destruct o as [ch a]. intros [Hp Hs]. cbn [fst snd] in *. unfold plain.
  destruct (char_eqb_spec ch "V") as [->|_]; [right; by eexists; apply asks_version|].
  destruct (char_eqb_spec ch "h") as [->|_]; [right; by eexists; apply asks_usage|].
  destruct (char_eqb ch "m" || char_eqb ch "H") eqn:Em; [|by left].
  assert (Hch : ch ∈ ["m"; "H"]%char).
  { rewrite !elem_of_cons. destruct (char_eqb_spec ch "m"); [by left|]. destruct (char_eqb_spec ch "H"); [by right; left|done]. }
  destruct a as [nm|]; [|right; by eexists; apply asks_methods].
  destruct (strcaseeq "help" nm) eqn:E; [|left; split_and!; eauto].
  right. eexists. apply asks_methods; [done|]. intros ? [= <-]. by apply String.eqb_eq in E.
Qed.
Local Ltac printed c :=
  unfold ends; cbn -[help_text String.append]; split; [reflexivity|]; cbn [out]; rewrite <- ?app_assoc_s;
  match goal with |- exists r, out c +:+ ?p = out c +:+ ?t +:+ r =>
    exists (String.substring (String.length t) 3000 p); f_equal; vm_compute; reflexivity end.
Lemma asks_ends ch a t o c : asks (ch, a) t ->
  ends (option_step progname ch a o) (fun r c' => r = Exited 0 /\ exists rest, out c' = out c +:+ t +:+ rest) c.
Proof.
  inversion 1 as [| |? ? Hch Ha]; subst; [printed c..|].
  assert (E : option_step progname ch a o = method_option a o).
  { rewrite !elem_of_cons, elem_of_nil in Hch. by destruct Hch as [->|[->|[]]]. }
  rewrite E. unfold method_option. destruct a as [nm|].
  - unfold strcaseeq. rewrite (Ha nm eq_refl). printed c.
  - printed c.
Qed.
Lemma ends_assoc {A B C} (m : PW A) (g : A -> PW B) (f : B -> PW C) Q c :
  ends (m ≫= (fun a => g a ≫= f)) Q c -> ends ((m ≫= g) ≫= f) Q c.
Proof. unfold ends, mbind, EM_bind. by destruct (m c) as [[a|n] c'| |]. Qed.
(** Behind the options. *)
Lemma ends_options {B} (f : settings -> PW B) Q l : forall o c, Forall well_given l -> sound o ->
  (forall o c', out c' = out c -> sound o -> ends (f o) Q c') -> (forall n c', failed n c c' -> Q (Exited n) c') ->
  (forall c', informed l c c' -> Q (Exited 0) c') -> ends (options progname l o ≫= f) Q c.
Proof.
  induction l as [|[ch a] l IH]; intros o c Hl Ho Hf He Hi; cbn [options]; [by apply Hf|].
  apply Forall_cons in Hl as [Hw Hl]. apply ends_assoc. destruct (plain_or_asks _ Hw) as [Hp|[t Ht]].
  - eapply (ends_gives _ sound); [by apply (gives_option o (ch, a))| |done]. intros o' c1 E1 Ho'. apply IH; try done.
    + intros o2 c2 E2. apply Hf. congruence.
    + intros n c2 [Hn E2]. apply He. split; [done|congruence].
    + intros c2 (x & t & rest & Hx & Ht & E2). apply Hi. exists x, t, rest. split; [by right|]. split; [done|congruence].
  - apply bind_ends. eapply mono_ends; [by apply asks_ends|]. intros r c' [-> [rest E]]. apply Hi.
    exists (ch, a), t, rest. split; [left|done].
Qed.

(** *** The salt *)

Lemma digits_short fuel n acc : forall k, (0 <= n < 10 ^ Z.of_nat (S k))%Z -> String.length (write_digits fuel 10 n acc) <= S k + String.length acc.
Proof.
  revert n acc. induction fuel as [|fuel IH]; intros n acc k Hn; cbn [write_digits]; [lia|].
  destruct (Z.eqb_spec (n / 10) 0) as [|Hq]; [cbn; lia|]. destruct k as [|k].
  - exfalso. apply Hq. apply Z.div_small. cbn in Hn. lia.
  - etransitivity; [apply (IH (n / 10)%Z _ k)|cbn; lia]. rewrite Nat2Z.inj_succ, Z.pow_succ_r in Hn by lia.
    split; [apply Z.div_pos; lia|]. apply Z.div_lt_upper_bound; lia.
Qed.
Definition rounds_text (m : crypt_method) (n : Z) : string :=
  if rounds_ok m && negb (n =? 0)%Z then "rounds=" +:+ fmt_d n +:+ "$" else "".
(** The number of rounds fits its buffer. *)
Lemma rounds_untruncated m n : is_u32 n -> rounds_string m n = rounds_text m n.
Proof.
  intros Hn. unfold rounds_string, rounds_text. destruct (_ && _); [|done]. unfold snprintf. apply substring_long.
  rewrite !length_app_s. assert (String.length (fmt_d n) <= 10).
  { unfold fmt_d, is_u32 in *. destruct (Z.ltb_spec n 0); [lia|]. unfold digits. etransitivity; [apply (digits_short _ _ _ 9)|cbn; lia].
    change (10 ^ Z.of_nat 10)%Z with 10000000000%Z. lia. }
  cbn. lia.
Qed.

Definition valid (m : crypt_method) (s : string) : Prop :=
  string_all valid_char s = true /\ (minlen m <= Z.of_nat (String.length s) <= maxlen m)%Z.
Lemma bad_char_none s : bad_char s = None -> string_all valid_char s = true.
Proof.
  induction s as [|c s IH]; [done|]. cbn. destruct (bad_char s); [done|]. destruct (valid_char c); [|done]. by intros; apply IH.
Qed.
Lemma gives_given m s : short s -> gives (given_salt m s) (fun s' => s' = s /\ valid m s).
Proof.
  intros Hs. unfold given_salt. unfold short in Hs. assert (u32 (Z.of_nat (String.length s)) = Z.of_nat (String.length s)) as ->.
  { unfold u32. apply Z.mod_small. lia. }
  destruct (Z.ltb_spec (Z.of_nat (String.length s)) (minlen m)); [apply gives_quit; auto|].
  destruct (Z.ltb_spec (maxlen m) (Z.of_nat (String.length s))); [apply gives_quit; auto|]. cbn [orb].
  rewrite Nat2Z.id, substring_all. destruct (bad_char s) eqn:E; [apply gives_quit; auto|].
  apply gives_ret. split; [done|]. split; [by apply bad_char_none|lia].
Qed.
Lemma salt_char_valid n : valid_char (salt_char n) = true.
Proof.
  assert (H : forallb (fun k => valid_char (salt_char (Z.of_nat k))) (seq 0 64) = true) by (vm_compute; reflexivity).
  rewrite forallb_forall in H. pose proof (Z.mod_pos_bound n 64 eq_refl). specialize (H (Z.to_nat (n mod 64))).
  rewrite in_seq in H. unfold salt_char in *. rewrite Z2Nat.id, Z.mod_mod in H by lia. apply H. lia.
Qed.
Lemma gives_generated m len : (minlen m <= len <= maxlen m)%Z -> gives (generate_salt urandom len) (valid m).
Proof.
  intros Hl. eapply (gives_bind _ _ (fun b => Z.of_nat (length b) = len)).
  - unfold get_random_bytes. destruct (urandom len) as [b|]; [|apply gives_quit; auto].
    destruct (Z.eqb_spec (Z.of_nat (length b)) len); [by apply gives_ret|apply gives_quit; auto].
  - intros b Hb. apply gives_ret. split.
    + clear. induction b as [|x b IH]; [done|]. cbn [foldr string_all]. by rewrite salt_char_valid.
    + assert (Ef : String.length (foldr (fun x s => String (salt_char x) s) "" b) = length b); [|by rewrite Ef, Hb].
      clear. induction b as [|x b IH]; [done|]. cbn [foldr String.length length]. by rewrite IH.
Qed.
Lemma random_length_ok m : m ∈ methods -> (minlen m <= random_length time pid rand m <= maxlen m)%Z.
Proof.
  intros Hm. unfold random_length. destruct (Z.eqb_spec (minlen m) (maxlen m)); [lia|].
  assert (minlen m = 8 /\ maxlen m = 16)%Z as [-> ->].
  { unfold methods in Hm. rewrite !elem_of_cons, elem_of_nil in Hm. destruct_or?; subst m; cbn in *; try done. }
  change (u32 (16 - 8 + 1)) with 9%Z. generalize (u32 (rand (u32 (time + pid)))). intros r.
  pose proof (Z.mod_pos_bound r 9 eq_refl). unfold u32. rewrite Z.mod_small; lia.
Qed.
(** The salt: the prefix, the rounds, and a text that is the salt when one is given. *)
Definition salted (m : crypt_method) (n : Z) (given : option string) (salt : string) : Prop :=
  exists body, salt = prefix m +:+ rounds_text m n +:+ body /\ valid m body /\ (forall s, given = Some s -> body = s).
Lemma gives_salt m o : m ∈ methods -> sound o -> gives (make_salt urandom time pid rand m o) (salted m (rounds o) (salt_arg o)).
Proof.
  intros Hm [_ Hn Hs]. unfold make_salt. destruct (salt_arg o) as [s|].
  - eapply gives_bind; [apply gives_given, Hs; done|]. intros ? [-> Hv]. apply gives_ret. exists s.
    rewrite rounds_untruncated by done. split; [done|]. split; [done|]. by intros s' [= ->].
  - eapply gives_bind; [apply (gives_generated m), random_length_ok, Hm|]. intros s Hv. apply gives_ret. exists s.
    rewrite rounds_untruncated by done. done.
Qed.

(** *** The password and the hash *)

(** Where a password comes from. *)
Definition supplied (args : list string) (p : string) : Prop :=
  (exists rest, args = p :: rest) \/
  args = [] /\ ((exists fd t, fdopen fd = Some t /\ p = first_line t) \/ getpass = Some p).
Lemma gives_operands args o : Forall short args -> sound o ->
  gives (operands args o) (fun r => (r.1 = None /\ args = [] \/ exists p rest, r.1 = Some p /\ args = p :: rest) /\
    chosen r.2 = chosen o /\ sound r.2 /\ (forall p s, args = [p; s] -> salt_arg r.2 = Some s)).
Proof.
  intros Ha Ho. unfold operands. destruct args as [|p [|s [|? ?]]]; [| | |apply gives_help].
  - apply gives_ret. split; [by left|done].
  - apply gives_ret. split; [right; by exists p, []|done].
  - destruct (salt_arg o) eqn:E; [apply gives_help|]. apply gives_ret. split; [right; by exists p, [s]|]. split; [done|].
    apply Forall_cons in Ha as [_ [Hs _]%Forall_cons]. destruct Ho. split; [|by intros p' s' [= <- <-]]. split; [done..|].
    by intros s' [= <-].
Qed.
Lemma gives_password o : gives (ask_password isatty fdopen getpass o) (supplied []).
Proof.
  unfold ask_password. destruct (negb _).
  - eapply (gives_bind _ _ (fun _ => True)); [destruct (isatty _); [by apply gives_err|by apply gives_ret]|]. intros _ _.
    destruct (fdopen (password_fd o)) as [t|] eqn:E; [|apply gives_quit; auto].
    destruct t as [|c t]; [apply gives_quit; auto|]. apply gives_ret. right. split; [done|left]. by eexists _, _.
  - destruct getpass eqn:E; [|apply gives_quit; auto]. apply gives_ret. right. auto.
Qed.

(** The methods of crypt(3): the prefix of the salt, the bounds of its length, and
    whether it may name the rounds; and the characters of a salt. *)
Definition crypt_methods : list (string * Z * Z * bool) :=
  [("", 2, 2, false); ("$1$", 8, 8, false); ("$5$", 8, 16, true); ("$6$", 8, 16, true)]%Z.
Definition crypt_char (c : Ascii.ascii) : bool :=
  let n := code c in
  ((97 <=? n) && (n <=? 122) || (65 <=? n) && (n <=? 90) || (48 <=? n) && (n <=? 57) || (n =? 46) || (n =? 47))%Z.
(** A well-formed salt; [given]: the one that was asked for. *)
Definition well_formed (given : option string) (pre salt : string) : Prop := exists lo hi rd n body,
  (pre, lo, hi, rd) ∈ crypt_methods /\ is_u32 n /\
  salt = pre +:+ (if rd && negb (n =? 0)%Z then "rounds=" +:+ fmt_d n +:+ "$" else "") +:+ body /\
  string_all crypt_char body = true /\ (lo <= Z.of_nat (String.length body) <= hi)%Z /\
  (forall s, given = Some s -> body = s).
Lemma valid_char_crypt c : valid_char c = true -> crypt_char c = true.
Proof.
  assert (H : forallb (fun n => implb (valid_char (chr (Z.of_nat n))) (crypt_char (chr (Z.of_nat n)))) (seq 0 256) = true) by (vm_compute; reflexivity).
  rewrite forallb_forall in H. pose proof (code_range c). specialize (H (Z.to_nat (code c))).
  rewrite in_seq, Z2Nat.id, chr_code in H by lia. specialize (H ltac:(lia)). destruct (valid_char c); [done|by intros].
Qed.
Lemma salted_well_formed m n given salt : m ∈ methods -> is_u32 n -> salted m n given salt -> well_formed given (prefix m) salt.
Proof.
  intros Hm Hn (body & -> & [Hv Hl] & Hg). exists (minlen m), (maxlen m), (rounds_ok m), n, body.
  split; [|split; [done|split; [done|split; [eapply string_all_impl, Hv; exact valid_char_crypt|done]]]].
  unfold methods in Hm. rewrite !elem_of_cons, elem_of_nil in Hm. unfold crypt_methods.
  destruct Hm as [->|[->|[->|[->|[]]]]]; cbn; set_solver.
Qed.

(** A hash that was made as it should be, and printed. *)
Definition hashed (args : list string) (c c' : console) : Prop := exists pre salt password h,
  well_formed (match args with [_; s] => Some s | _ => None end) pre salt /\ supplied args password /\
  crypt password salt = Some h /\ starts_with pre h = true /\ out c' = out c +:+ h +:+ NL.
(** Status 0 with the hash, or an error without output. *)
Definition outcome_ok (args : list string) (c : console) (r : ended unit) (c' : console) : Prop :=
  r = Exited 0 /\ hashed args c c' \/ exists n, r = Exited n /\ failed n c c'.

Lemma failed_trans n c1 c c' : out c1 = out c -> failed n c1 c' -> failed n c c'.
Proof. intros E [Hn E']. split; [done|congruence]. Qed.
Lemma run_ends args o c : Forall short args -> sound o ->
  ends (run urandom time pid rand isatty fdopen getpass crypt args o) (outcome_ok args c) c.
Proof.
  intros Ha Ho. unfold run. eapply ends_gives; [by apply gives_operands| |intros n c' H; right; eauto].
  intros [given o'] c1 E1 (Hg & Hc & Ho' & Hs). cbn [fst snd] in *. set (m := default default_method (chosen o')).
  assert (Hm : m ∈ methods).
  { unfold m. destruct (chosen o') eqn:E; [by apply (so_method _ Ho')|]. by left. }
  eapply ends_gives; [by apply gives_salt| |intros n c' H; right; exists n; split; [done|by eapply failed_trans]].
  intros salt c2 E2 Hsalt.
  assert (Hp : gives (match given with Some p => mret p | None => ask_password isatty fdopen getpass o' end) (supplied args)).
  { destruct Hg as [[-> ->]|(p & rest & -> & ->)]; [apply gives_password|]. apply gives_ret. left. by exists rest. }
  eapply ends_gives; [exact Hp| |intros n c' H; right; exists n; split; [done|]; eapply failed_trans; [|exact H]; congruence].
  intros password c3 E3 Hsup. unfold hash. destruct (crypt password salt) as [h|] eqn:Eh.
  2: { right. exists 2%Z. split; [done|]. split; [by right|cbn; congruence]. }
  destruct (head_is _ h). { right. exists 2%Z. split; [done|]. split; [by right|cbn; congruence]. }
  destruct (starts_with (prefix m) h) eqn:Es; [|right; exists 2%Z; split; [done|]; split; [by right|cbn; congruence]].
  left. split; [done|]. exists (prefix m), salt, password, h. split_and!; [|done..|cbn; congruence].
  apply (salted_well_formed m (rounds o')); [done|apply Ho'|]. destruct Hsalt as (body & -> & Hv & Hb). exists body.
  split; [done|]. split; [done|]. destruct args as [|p [|s [|? ?]]]; try done. intros s' [= <-]. apply Hb. by eapply Hs.
Qed.

(** The options in the environment come first: the new argument vector is the name
    of the program, the words of MKPASSWD_OPTIONS in their order, then the arguments
    of the command line and what is behind them, and the growing array is never left,
    however many words and arguments there are. *)
Theorem merge_args_prepends ws t argv argc : spells ws t -> length argv = S argc ->
  merge_args (Some t) argv argc = Some (take 1 argv ++ map Arg ws ++ drop 1 argv, argc + length ws).
Proof.
  intros Hw Hl. destruct (merge_args_run t argv argc Hl) as (ws' & -> & E).
  rewrite (tokens_spells ws t Hw) in E by lia. exact E.
Qed.

(** C28. mkpasswd always ends: with status 0 and one line, the result of crypt for the
    password and a salt that has the prefix of a method of crypt, its rounds in decimal,
    and only letters, digits, points and slashes in a number the method allows, the given ones if a salt was
    given; with status 0 and the version, the usage or the list of the methods, when
    an option asks for it; or with status 1 or 2 and nothing on the standard output. *)
Theorem mkpasswd_hashes argv argc argv' argc' opts args c : merge_args environment argv argc = Some (argv', argc') ->
  getopt argv' argc' = (opts, args) -> Forall well_given opts -> Forall short args ->
  exists n c', main getopt progname environment urandom time pid rand isatty fdopen getpass crypt argv argc c = Ok (Exited n) c' /\
    (n = 0%Z /\ (hashed args c c' \/ informed opts c c') \/ failed n c c').
Proof.
  intros Hm Hg Hp Ha. set (Q := fun (r : ended unit) c' => exists n, r = Exited n /\ (n = 0%Z /\ (hashed args c c' \/ informed opts c c') \/ failed n c c')).
  assert (H : ends (main getopt progname environment urandom time pid rand isatty fdopen getpass crypt argv argc) Q c).
  { unfold main. rewrite Hm. unfold elift. unfold ends, mbind at 1, EM_bind at 1. rewrite Hg.
    assert (Ho : sound no_settings) by (split; [done|unfold is_u32; cbn; lia|done]).
    apply ends_options; [done|done| |intros n c' H; exists n; auto|intros c' H; exists 0%Z; auto].
    intros o c1 E1 So. eapply mono_ends; [by apply run_ends|]. intros r c' [[-> H]|(n & -> & H)].
    - exists 0%Z. split; [done|]. left. split; [done|left]. destruct H as (pre & salt & p & h & H). exists pre, salt, p, h. by rewrite <- E1.
    - exists n. split; [done|]. right. by eapply failed_trans. }
  unfold ends in H. destruct (main _ _ _ _ _ _ _ _ _ _ _ _ _ c) as [r c'| |]; [|done..]. destruct H as (n & -> & H). by exists n, c'.
Qed.
End Program.

(** ** Runs *)

(** A [crypt] that shows its arguments. *)
Definition show_crypt (p s : string) : option string := Some (s +:+ "$" +:+ p).
Definition zeros (n : Z) : option (list Z) := Some (repeat 0%Z (Z.to_nat n)).
Definition run_with (opts : list (Ascii.ascii * option string)) (args : list string) : outcome console (ended unit) :=
  main (fun _ _ => (opts, args)) "mkpasswd" None zeros 0 0 (fun _ => 3%Z) (fun _ => false)
    (fun _ => Some ("from a file" +:+ NL)) (Some "typed") show_crypt [Arg "mkpasswd"; Null] 1 {| out := ""; err := "" |}.
Lemma merge_args_prepends_witness :
  merge_args (Some "  -m  md5 ") [Arg "mkpasswd"; Arg "secret"; Null] 2 =
  Some ([Arg "mkpasswd"; Arg "-m"; Arg "md5"; Arg "secret"; Null], 4).
Proof.
  apply (merge_args_prepends ["-m"; "md5"] "  -m  md5 " [Arg "mkpasswd"; Arg "secret"; Null] 2); [|reflexivity].
  change "  -m  md5 "%string with ("  " +:+ "-m" +:+ "  " +:+ "md5" +:+ " ").
  apply spells_cons; [reflexivity|discriminate|reflexivity..|]. apply spells_cons; [reflexivity|discriminate|reflexivity..|].
  apply spells_nil. reflexivity.
Defined.
Lemma mkpasswd_hashes_witness : exists r c', run_with [("m"%char, Some "SHA-512"%string); ("R"%char, Some "5000"%string)] ["secret"%string] = Ok r c' /\
  out c' = "$6$rounds=5000$aaaaaaaaaaa$secret" +:+ NL.
Proof.
  destruct (mkpasswd_hashes (fun _ _ => ([("m"%char, Some "SHA-512"%string); ("R"%char, Some "5000"%string)], ["secret"%string])) "mkpasswd" None zeros 0 0
    (fun _ => 3%Z) (fun _ => false) (fun _ => Some ("from a file" +:+ NL)) (Some "typed"%string) show_crypt [Arg "mkpasswd"; Null] 1
    [Arg "mkpasswd"; Null] 1 [("m"%char, Some "SHA-512"%string); ("R"%char, Some "5000"%string)] ["secret"%string] {| out := ""; err := "" |}
    eq_refl eq_refl) as (r & c' & E & _).
  - repeat constructor; try discriminate; try (intros; eexists; split; reflexivity); intros s [= <-]; unfold short; reflexivity.
  - repeat constructor.
  - exists (Exited r), c'. split; [exact E|]. vm_compute in E. injection E as _ <-. reflexivity.
Defined.
(** The list of the methods. *)
Example methods_listed : exists c', run_with [("m"%char, Some "HELP"%string)] ["secret"%string] = Ok (Exited 0) c' /\
  CText.starts_with "Available methods:" (out c') = true.
Proof. eexists. vm_compute. split; reflexivity. Qed.
(** A wrong method behind a right one is not noticed. *)
Example wrong_method_kept : run_with [("m"%char, Some "md5"%string); ("m"%char, Some "sha512"%string)] ["secret"%string; "saltsalt"%string] =
  Ok (Exited 0) {| out := "$1$saltsalt$secret" +:+ NL; err := "" |}.
Proof. vm_compute. reflexivity. Qed.
(** A negative number of rounds is a large one. *)
Example negative_rounds : run_with [("m"%char, Some "sha-256"%string); ("R"%char, Some "-1"%string)] ["secret"%string; "saltsalt"%string] =
  Ok (Exited 0) {| out := "$5$rounds=4294967295$saltsalt$secret" +:+ NL; err := "" |}.
Proof. vm_compute. reflexivity. Qed.
(** A password of more than 127 characters that is not an argument is cut. *)
Example long_line : String.length (first_line (String.concat "" (repeat "0123456789" 20) +:+ NL)) = 127.
Proof. vm_compute. reflexivity. Qed.
