(* ===== verification/LxDialog.v ===== *)
(** The dialogs of the menu-driven configuration tool
    (src/buildroot/support/kconfig/lxdialog): the list of items (util.c), the menu
    (menubox.c), the radio list (checklist.c), the input line (inputbox.c), the
    question (yesno.c) and the text viewer (textbox.c).

    curses is not in the repository.  What it does for a dialog is a sequence of
    events to come, which [wgetch] returns one after the other, the size of the
    screen, and the contents of the window that is scrolled or edited; frames, titles,
    prompts, buttons and colours are left out.  A run that would wait for a further
    event is [NoFuel]. *)
From S2P Require Import Prelude CText.

(** ** The terminal *)

(** What [wgetch] returns next: a key (or [ERR]), or the news that the screen has
    another size. *)
Inductive event := Got (key : Z) | Resized (lines columns : Z).

(** Keys as <curses.h> numbers them. *)
Definition ERR : Z := -1.
Definition KEY_DOWN : Z := 258.
Definition KEY_UP : Z := 259.
Definition KEY_LEFT : Z := 260.
Definition KEY_RIGHT : Z := 261.
Definition KEY_HOME : Z := 262.
Definition KEY_BACKSPACE : Z := 263.
Definition KEY_NPAGE : Z := 338.
Definition KEY_PPAGE : Z := 339.
Definition KEY_END : Z := 360.
Definition KEY_RESIZE : Z := 410.
Definition KEY_MAX : Z := 511.

(** dialog.h *)
Definition KEY_ESC : Z := 27.
Definition TAB : Z := 9.
Definition MAX_LEN : Z := 2048.
Definition MAXITEMSTR : nat := 200.
Definition ERRDISPLAYTOOSMALL : Z := KEY_MAX + 1.
Definition CHECKLIST_HEIGTH_MIN : Z := 6.
Definition CHECKLIST_WIDTH_MIN : Z := 6.
Definition INPUTBOX_HEIGTH_MIN : Z := 2.
Definition INPUTBOX_WIDTH_MIN : Z := 2.
Definition MENUBOX_HEIGTH_MIN : Z := 15.
Definition MENUBOX_WIDTH_MIN : Z := 65.
Definition TEXTBOX_HEIGTH_MIN : Z := 8.
Definition TEXTBOX_WIDTH_MIN : Z := 8.
Definition YESNO_HEIGTH_MIN : Z := 4.
Definition YESNO_WIDTH_MIN : Z := 4.
Definition WINDOW_HEIGTH_MIN : Z := 19.
Definition WINDOW_WIDTH_MIN : Z := 80.

(** [data] is the entry of the menu tree an item stands for. *)
Record dialog_item := { str : string; tag : Ascii.ascii; data : option nat; selected : Z }.
Definition no_item : dialog_item := {| str := ""; tag := chr 0; data := None; selected := 0 |}.

(** [item_cur]: a node of the list, [&item_nil], or the null pointer. *)
Inductive cursor := At (i : nat) | Nil | Null.

(** A row of a window: what stands before the text, the text, the place of its
    highlighted letter, and whether the row is the current one. *)
Record row := { r_mark : string; r_text : string; r_hot : option nat; r_sel : bool }.
Definition blank_row : row := {| r_mark := ""; r_text := ""; r_hot := None; r_sel := false |}.

(** [window]: the rows of the list or text; [field]: the cells of the input line;
    [instr]: the array [dialog_input_result]. *)
Record ui := {
  events : list event;
  lines : Z;
  columns : Z;
  item_head : list dialog_item;
  item_cur : cursor;
  item_nil : dialog_item;
  instr : list Ascii.ascii;
  window : list row;
  field : list Ascii.ascii;
}.
Definition set_events (l : list event) (u : ui) : ui :=
  {| events := l; lines := lines u; columns := columns u; item_head := item_head u; item_cur := item_cur u;
     item_nil := item_nil u; instr := instr u; window := window u; field := field u |}.
Definition set_size (h w : Z) (u : ui) : ui :=
  {| events := events u; lines := h; columns := w; item_head := item_head u; item_cur := item_cur u;
     item_nil := item_nil u; instr := instr u; window := window u; field := field u |}.
Definition set_items (l : list dialog_item) (u : ui) : ui :=
  {| events := events u; lines := lines u; columns := columns u; item_head := l; item_cur := item_cur u;
     item_nil := item_nil u; instr := instr u; window := window u; field := field u |}.
Definition set_cur (c : cursor) (u : ui) : ui :=
  {| events := events u; lines := lines u; columns := columns u; item_head := item_head u; item_cur := c;
     item_nil := item_nil u; instr := instr u; window := window u; field := field u |}.
Definition set_nil (d : dialog_item) (u : ui) : ui :=
  {| events := events u; lines := lines u; columns := columns u; item_head := item_head u; item_cur := item_cur u;
     item_nil := d; instr := instr u; window := window u; field := field u |}.
Definition set_instr (s : list Ascii.ascii) (u : ui) : ui :=
  {| events := events u; lines := lines u; columns := columns u; item_head := item_head u; item_cur := item_cur u;
     item_nil := item_nil u; instr := s; window := window u; field := field u |}.
Definition set_window (l : list row) (u : ui) : ui :=
  {| events := events u; lines := lines u; columns := columns u; item_head := item_head u; item_cur := item_cur u;
     item_nil := item_nil u; instr := instr u; window := l; field := field u |}.
Definition set_field (l : list Ascii.ascii) (u : ui) : ui :=
  {| events := events u; lines := lines u; columns := columns u; item_head := item_head u; item_cur := item_cur u;
     item_nil := item_nil u; instr := instr u; window := window u; field := l |}.

Abbreviation LM := (PM ui).

Definition wgetch : LM Z :=
  u ← pget;
  match events u with
  | [] => pnofuel
  | Got key :: l => pmodify (set_events l);; mret key
  | Resized h w :: l => pmodify (set_events l);; pmodify (set_size h w);; mret KEY_RESIZE
  end.
Definition ungetch (key : Z) : LM unit := u ← pget; pmodify (set_events (Got key :: events u)).

(** The number of events to come, with which a loop that reads one in each round
    is run. *)
Definition coming : LM nat := u ← pget; mret (S (length (events u))).

(** [do key3 = wgetch(win); while (key3 != ERR);] *)
Fixpoint drain (n : nat) : LM unit :=
  match n with
  | O => pnofuel
  | S n => key3 ← wgetch; if key3 =? ERR then mret tt else drain n
  end.
(** Behind an escape: a second one, alone, leaves the dialog; another key alone is
    read again; everything else was the sequence of a function key. *)
Definition on_key_esc : LM Z :=
  key ← wgetch;
  key2 ← wgetch;
  n ← coming;
  drain n;;
  if (key =? KEY_ESC) && (key2 =? ERR) then mret KEY_ESC
  else if negb (key =? ERR) && negb (key =? KEY_ESC) && (key2 =? ERR) then ungetch key;; mret (-1)
  else mret (-1).

(** [key == 'c'] *)
Definition is_key (c : Ascii.ascii) (key : Z) : bool := key =? code c.
Arguments is_key _%_char _.
Definition one_of (cs : string) (key : Z) : bool := existsb (fun c => is_key c key) (String.list_ascii_of_string cs).
(** [strchr(cs, key)]: the number is cut to a [char], and the closing NUL is found,
    too. *)
Definition strchr_key (cs : string) (key : Z) : bool := (key mod 256 =? 0) || one_of cs (key mod 256).
Definition isalpha (c : Ascii.ascii) : bool := in_range 65 90 c || in_range 97 122 c.
(** [tolower] and [toupper] of an [int], and a [char] as an [int]. *)
Definition lower_key (key : Z) : Z := if (65 <=? key) && (key <=? 90) then key + 32 else key.
Definition upper_key (key : Z) : Z := if (97 <=? key) && (key <=? 122) then key - 32 else key.
Definition signed_char (c : Ascii.ascii) : Z := if code c <? 128 then code c else code c - 256.

(** ** Items (util.c) *)

Definition item_reset : LM unit := pmodify (set_items []);; pmodify (set_cur Nil).

(** [snprintf] into the 200 bytes of an item. *)
Definition item_make (text : string) : LM unit :=
  u ← pget;
  let p := {| str := String.substring 0 (MAXITEMSTR - 1) text; tag := chr 0; data := None; selected := 0 |} in
  match item_head u with
  | [] => pmodify (set_items [p]);; pmodify (set_cur (At 0))
  | l =>
      (* [item_cur->next = p]: what followed the current node is lost; [&item_nil] is
         only current while there is no node *)
      match item_cur u with
      | At i => pmodify (set_items (take (S i) l ++ [p]));; pmodify (set_cur (At (S i)))
      | Nil | Null => pfault
      end
  end.

Definition cur_item : LM dialog_item :=
  u ← pget;
  match item_cur u with At i => plift (item_head u !! i) | Nil => mret (item_nil u) | Null => pfault end.
Definition mod_item (f : dialog_item -> dialog_item) : LM unit :=
  u ← pget;
  match item_cur u with
  | At i => d ← plift (item_head u !! i); pmodify (set_items (<[i := f d]> (item_head u)))
  | Nil => pmodify (set_nil (f (item_nil u)))
  | Null => pfault
  end.
Definition with_str (s : string) (d : dialog_item) : dialog_item :=
  {| str := s; tag := tag d; data := data d; selected := selected d |}.
Definition with_tag (t : Ascii.ascii) (d : dialog_item) : dialog_item :=
  {| str := str d; tag := t; data := data d; selected := selected d |}.
Arguments with_tag _%_char _.
Definition with_data (p : option nat) (d : dialog_item) : dialog_item :=
  {| str := str d; tag := tag d; data := p; selected := selected d |}.
Definition with_selected (v : Z) (d : dialog_item) : dialog_item :=
  {| str := str d; tag := tag d; data := data d; selected := v |}.

Definition item_add_str (text : string) : LM unit :=
  mod_item (fun d => with_str (str d +:+ String.substring 0 (MAXITEMSTR - String.length (str d) - 1) text) d).
Definition item_set_tag (t : Ascii.ascii) : LM unit := mod_item (with_tag t).
Arguments item_set_tag _%_char.
Definition item_set_data (p : option nat) : LM unit := mod_item (with_data p).
Definition item_set_selected (v : Z) : LM unit := mod_item (with_selected v).
Definition item_data : LM (option nat) := d ← cur_item; mret (data d).
Definition item_tag : LM Ascii.ascii := d ← cur_item; mret (tag d).
Definition item_str : LM string := d ← cur_item; mret (str d).
Definition item_is_tag (t : Ascii.ascii) : LM bool := d ← cur_item; mret (char_eqb (tag d) t).
Arguments item_is_tag _%_char.
Definition item_is_selected : LM bool := d ← cur_item; mret (negb (selected d =? 0)).
Definition item_count : LM Z := u ← pget; mret (Z.of_nat (length (item_head u))).

(** [item_foreach()]: the body with the current item at each node from the [i]-th
    on, until it asks to leave ([Some]).  Behind the last node [item_cur] is null;
    without nodes it is left as it is. *)
Fixpoint foreach_from {A} (body : LM (option A)) (n i : nat) : LM (option A) :=
  match n with
  | O => pmodify (set_cur Null);; mret None
  | S n =>
      pmodify (set_cur (At i));;
      r ← body;
      match r with Some a => mret (Some a) | None => foreach_from body n (S i) end
  end.
Definition item_foreach {A} (body : LM (option A)) : LM (option A) :=
  u ← pget;
  match item_head u with [] => mret None | l => foreach_from body (length l) 0 end.

Definition item_activate_selected : LM bool :=
  r ← item_foreach (s ← item_is_selected; mret (if s : bool then Some tt else None));
  mret (match r with Some _ => true | None => false end).
(** [item_set]: the [n]-th node becomes current. *)
Definition item_set (n : Z) : LM unit :=
  u ← pget;
  match item_head u with
  | [] => mret tt
  | l => pmodify (set_cur (if (0 <=? n) && (n <? Z.of_nat (length l)) then At (Z.to_nat n) else Null))
  end.
Definition item_n : LM Z :=
  u ← pget; mret (match item_cur u with At i => Z.of_nat i | Nil | Null => 0 end).

(** The position of the first letter outside brackets that is not exempt. *)
Definition bracket (d : Z) (c : Ascii.ascii) : Z :=
  let d := if one_of "<[(" (code c) then d + 1 else d in
  if one_of ">])" (code c) && (0 <? d) then d - 1 else d.
Fixpoint first_alpha_from (i : nat) (in_paren : Z) (s exempt : string) : nat :=
  match s with
  | EmptyString => O
  | String x t =>
      let c := tolower x in
      let in_paren := bracket in_paren c in
      if (in_paren =? 0) && isalpha c && negb (one_of exempt (code c)) then i
      else first_alpha_from (S i) in_paren t exempt
  end.
Definition first_alpha (s exempt : string) : nat := first_alpha_from 0 0 s exempt.

(** ** The scrolled list of a dialog *)

(** Which part of the list is shown, and which row is current. *)
Record view := { scroll : Z; choice : Z }.
Definition at_view (s c : Z) : view := {| scroll := s; choice := c |}.

(** A row beyond the window is not drawn. *)
Definition put_row (y : Z) (r : row) : LM unit :=
  u ← pget; if 0 <=? y then pmodify (set_window (<[Z.to_nat y := r]> (window u))) else mret tt.
(** [wscrl]: the rows move up by [n], or down by [-n]. *)
Definition scroll_rows (n : Z) (w : list row) : list row :=
  if 0 <=? n then drop (Z.to_nat n) w ++ replicate (Nat.min (Z.to_nat n) (length w)) blank_row
  else replicate (Nat.min (Z.to_nat (- n)) (length w)) blank_row ++ take (length w - Z.to_nat (- n)) w.
Definition wscrl (n : Z) : LM unit := u ← pget; pmodify (set_window (scroll_rows n (window u))).
(** A new window of [height] rows. *)
Definition newwin (height : Z) : LM unit := pmodify (set_window (replicate (Z.to_nat height) blank_row)).

(** How a turn of an event loop ends: with another turn, with the value of the dialog,
    or with everything drawn anew. *)
Inductive turn (S R : Type) := Next (s : S) | Return (r : R) | Resize (s : S).
Arguments Next {S R} s.
Arguments Return {S R} r.
Arguments Resize {S R} s.

(** The body of a dialog from [do_resize] on, and its [while] loop. *)
Section Loop.
Context {S R : Type}.
Variable draw : S -> LM (S + R).
Variable step : S -> LM (turn S R).
Fixpoint event_loop (n : nat) (drawn : bool) (s : S) : LM R :=
  match n with
  | O => pnofuel
  | Datatypes.S n =>
      r ← (if drawn then mret (inl s) else draw s);
      match r with
      | inr r => mret r
      | inl s =>
          t ← step s;
          match t with
          | Next s => event_loop n true s
          | Return r => mret r
          | Resize s => event_loop n false s
          end
      end
  end.
Definition dialog_loop (s : S) : LM R := n ← coming; event_loop n false s.
End Loop.

(** ** The menu (menubox.c) *)

Module Menubox.

(** What the static variables [menu_width] and [item_x] and the size of the window
    come to on a screen; [None]: too small. *)
Record geometry := { menu_height : Z; menu_width : Z; item_x : Z }.
Definition layout (lines columns : Z) : option geometry :=
  if (lines <? MENUBOX_HEIGTH_MIN) || (columns <? MENUBOX_WIDTH_MIN) then None
  else
    let height := lines - 4 in
    let width := columns - 5 in
    let menu_width := width - 6 in
    Some {| menu_height := height - 10; menu_width := menu_width;
            item_x := if 80 <=? menu_width then Z.quot (menu_width - 70) 2 else 4 |}.

Definition HOT : string := "YyNnMmHh".
Definition item_row (g : geometry) (sel : bool) (d : dialog_item) : row :=
  let text := String.substring 0 (Z.to_nat (menu_width g - item_x g)) (str d) in
  {| r_mark := ""; r_text := text;
     r_hot := if char_eqb (tag d) ":" then None else Some (first_alpha text HOT); r_sel := sel |}.

(** The locals of [dialog_menu]. *)
Record mbox := { view_of : view; button : Z; first_item : Z; max_choice : Z; geo : geometry }.
Definition set_view (v : view) (b : mbox) : mbox :=
  {| view_of := v; button := button b; first_item := first_item b; max_choice := max_choice b; geo := geo b |}.
Definition set_button (n : Z) (b : mbox) : mbox :=
  {| view_of := view_of b; button := n; first_item := first_item b; max_choice := max_choice b; geo := geo b |}.

Definition print_item (g : geometry) (index choice : Z) (sel : bool) : LM unit :=
  item_set index;;
  d ← cur_item;
  put_row choice (item_row g sel d).

Definition do_scroll (v : view) (n : Z) : LM view := wscrl n;; mret (at_view (scroll v + n) (choice v)).

(** [for (i = 0; i < max_choice; i++) print_item(first_item + i, i, i == choice);] *)
Fixpoint print_items (g : geometry) (first choice : Z) (n : nat) (i : Z) : LM unit :=
  match n with
  | O => mret tt
  | S n => print_item g (first + i) i (i =? choice);; print_items g first choice n (i + 1)
  end.

(** The part of the list shown first: the one saved if the default item is in it. *)
Definition start_view (count max_choice choice first_item s_scroll : Z) : view * Z :=
  let '(v, first_item) :=
    if (s_scroll <=? choice) && (choice <? s_scroll + max_choice) && (0 <=? s_scroll)
       && (s_scroll + max_choice <=? count)
    then (at_view s_scroll (choice - s_scroll), s_scroll)
    else (at_view 0 choice, first_item) in
  let c := LxDialog.choice v in
  if max_choice <=? c then
    let s := if count - Z.quot max_choice 2 <=? c then count - max_choice else c - Z.quot max_choice 2 in
    (at_view s (c - s), s)
  else (v, first_item).

(** [Set choice to default item]: the last one with the data. *)
Fixpoint default_choice (sel : option nat) (i : nat) (l : list dialog_item) (choice : Z) : Z :=
  match l with
  | [] => choice
  | d :: l =>
      default_choice sel (S i) l (if bool_decide (sel <> None) && bool_decide (sel = data d) then Z.of_nat i else choice)
  end.

(** From [do_resize] on; [key], [button], [choice] and [first_item] are kept. *)
Definition draw (selected : option nat) (s_scroll : Z) (b : mbox) : LM (mbox + Z * Z) :=
  u ← pget;
  match layout (lines u) (columns u) with
  | None => mret (inr (- ERRDISPLAYTOOSMALL, s_scroll))
  | Some g =>
      n ← item_count;
      let max_choice := Z.min (menu_height g) n in
      let choice := default_choice selected 0 (item_head u) (choice (view_of b)) in
      item_foreach (mret (None : option unit));;
      let '(v, first) := start_view n max_choice choice (first_item b) s_scroll in
      newwin (menu_height g);;
      print_items g first (LxDialog.choice v) (Z.to_nat max_choice) 0;;
      mret (inl {| view_of := v; button := button b; first_item := first; max_choice := max_choice; geo := g |})
  end.

(** Whether the item at row [i] is reached by the key. *)
Definition hit (key scroll i : Z) : LM bool :=
  item_set (scroll + i);;
  s ← item_str;
  (* [item_str()[j]], the closing NUL of an empty text *)
  let c := match String.get (first_alpha s HOT) s with Some c => c | None => chr 0 end in
  mret (key =? signed_char (tolower c)).
Fixpoint first_hit (key scroll : Z) (n : nat) (i : Z) : LM Z :=
  match n with
  | O => mret i
  | S n => h ← hit key scroll i; if h : bool then mret i else first_hit key scroll n (i + 1)
  end.
(** The next row the key reaches, from the current one on and then from the top;
    [max_choice] if there is none. *)
Definition find_hit (b : mbox) (key : Z) : LM Z :=
  if strchr_key "ynmh " key then mret (max_choice b)
  else
    let v := view_of b in
    i ← first_hit key (scroll v) (Z.to_nat (max_choice b - (choice v + 1))) (choice v + 1);
    if i =? max_choice b then first_hit key (scroll v) (Z.to_nat (max_choice b)) 0 else mret i.

Definition key_up (g : geometry) (v : view) : LM view :=
  if (choice v <? 2) && negb (scroll v =? 0) then
    v ← do_scroll v (-1); print_item g (scroll v) 0 false;; mret v
  else mret (at_view (scroll v) (Z.max (choice v - 1) 0)).
Definition key_down (g : geometry) (max_choice count : Z) (v : view) : LM view :=
  print_item g (scroll v + choice v) (choice v) false;;
  if (max_choice - 3 <? choice v) && (scroll v + max_choice <? count) then
    v ← do_scroll v 1; print_item g (scroll v + max_choice - 1) (max_choice - 1) false;; mret v
  else mret (at_view (scroll v) (Z.min (choice v + 1) (max_choice - 1))).
Fixpoint page_up (g : geometry) (n : nat) (v : view) : LM view :=
  match n with
  | O => mret v
  | S n =>
      v ← (if 0 <? scroll v then v ← do_scroll v (-1); print_item g (scroll v) 0 false;; mret v
           else mret (if 0 <? choice v then at_view (scroll v) (choice v - 1) else v));
      page_up g n v
  end.
Fixpoint page_down (g : geometry) (max_choice count : Z) (n : nat) (v : view) : LM view :=
  match n with
  | O => mret v
  | S n =>
      v ← (if scroll v + max_choice <? count then
             v ← do_scroll v 1; print_item g (scroll v + max_choice - 1) (max_choice - 1) false;; mret v
           else mret (if choice v + 1 <? max_choice then at_view (scroll v) (choice v + 1) else v));
      page_down g max_choice count n v
  end.

Definition is_up (key : Z) : bool := (key =? KEY_UP) || is_key "-" key.
Definition is_down (key : Z) : bool := (key =? KEY_DOWN) || is_key "+" key.
(** A key that moves in the list; [i] is the row it reaches by its letter. *)
Definition move (b : mbox) (key i count : Z) : LM view :=
  let g := geo b in
  let v := view_of b in
  print_item g (scroll v + choice v) (choice v) false;;
  v ← (if is_up key then key_up g v
       else if is_down key then key_down g (max_choice b) count v
       else if key =? KEY_PPAGE then page_up g (Z.to_nat (max_choice b)) v
       else if key =? KEY_NPAGE then page_down g (max_choice b) count (Z.to_nat (max_choice b)) v
       else mret (at_view (scroll v) i));
  print_item g (scroll v + choice v) (choice v) true;;
  mret v.

(** The value of the dialog for a key that ends it. *)
Definition result_of (key button : Z) : Z :=
  if one_of "h?" key then 2
  else if one_of "sy" key then 5
  else if is_key "n" key then 6
  else if is_key "m" key then 7
  else if is_key " " key then 8
  else if is_key "/" key then 9
  else if is_key "z" key then 10
  else if key =? code nl then button
  else 0.

(** A turn of the loop; the value goes with the saved scroll position. *)
Definition step (s_scroll : Z) (b : mbox) : LM (turn mbox (Z * Z)) :=
  key ← wgetch;
  let key := if (key <? 256) && (((65 <=? key) && (key <=? 90)) || ((97 <=? key) && (key <=? 122)))
             then lower_key key else key in
  i ← find_hit b key;
  count ← item_count;
  if negb (count =? 0) && ((i <? max_choice b) || is_up key || is_down key || (key =? KEY_PPAGE) || (key =? KEY_NPAGE))
  then v ← move b key i count; mret (Next (set_view v b))
  else if (key =? KEY_LEFT) || (key =? TAB) || (key =? KEY_RIGHT) then
    let n := if key =? KEY_LEFT then button b - 1 else button b + 1 in
    mret (Next (set_button (if n <? 0 then 4 else if 4 <? n then 0 else n) b))
  else if one_of " synm/h?z" key || (key =? code nl) then
    let v := view_of b in
    item_set (scroll v + choice v);;
    item_set_selected 1;;
    mret (Return (result_of key (button b), scroll v))
  else if one_of "ex" key then mret (Return (KEY_ESC, s_scroll))
  else if key =? KEY_ESC then
    key ← on_key_esc;
    mret (if key =? KEY_ESC then Return (KEY_ESC, s_scroll) else Next b)
  else if key =? KEY_RESIZE then mret (Resize b)
  else mret (Next b).

Definition no_box : mbox :=
  {| view_of := at_view 0 0; button := 0; first_item := 0; max_choice := 0;
     geo := {| menu_height := 0; menu_width := 0; item_x := 0 |} |}.
(** The value and the scroll position to be saved. *)
Definition dialog_menu (selected : option nat) (s_scroll : Z) : LM (Z * Z) :=
  dialog_loop (draw selected s_scroll) (step s_scroll) no_box.
End Menubox.

(** ** The radio list (checklist.c) *)

Module Checklist.

(** The static variables [list_width] and [item_x]. *)
Record geometry := { list_width : Z; item_x : Z }.
Definition item_row (g : geometry) (sel : bool) (d : dialog_item) : row :=
  {| r_mark := if char_eqb (tag d) ":" then "" else if char_eqb (tag d) "X" then "(X)" else "( )";
     r_text := String.substring 0 (Z.to_nat (list_width g - item_x g)) (str d); r_hot := None; r_sel := sel |}.
Definition print_item (g : geometry) (choice : Z) (sel : bool) : LM unit :=
  d ← cur_item; put_row choice (item_row g sel d).

Record cbox := { view_of : view; button : Z; max_choice : Z; geo : geometry }.
Definition set_view (v : view) (b : cbox) : cbox :=
  {| view_of := v; button := button b; max_choice := max_choice b; geo := geo b |}.
Definition set_button (n : Z) (b : cbox) : cbox :=
  {| view_of := view_of b; button := n; max_choice := max_choice b; geo := geo b |}.

(** Which item to highlight: the first selected one, or the last one marked. *)
Definition highlight_body (choice : Z) : LM (option Z * Z) :=
  x ← item_is_tag "X";
  n ← item_n;
  let choice := if x : bool then n else choice in
  s ← item_is_selected;
  mret (if s : bool then (Some n, n) else (None, choice)).
Fixpoint highlight (n i : nat) (choice : Z) : LM Z :=
  match n with
  | O => pmodify (set_cur Null);; mret choice
  | S n =>
      pmodify (set_cur (At i));;
      '(r, choice) ← highlight_body choice;
      match r with Some c => mret c | None => highlight n (S i) choice end
  end.
Definition initial_choice : LM Z :=
  u ← pget;
  match item_head u with [] => mret 0 | l => highlight (length l) 0 0 end.

Fixpoint print_items (g : geometry) (scroll choice : Z) (n : nat) (i : Z) : LM unit :=
  match n with
  | O => mret tt
  | S n => item_set (scroll + i);; print_item g i (i =? choice);; print_items g scroll choice n (i + 1)
  end.
(** The column of the marks, so that the longest item is centred. *)
Definition check_column (list_width : Z) (l : list dialog_item) : Z :=
  let longest := foldr Z.max 0 ((fun d => Z.of_nat (String.length (str d)) + 4) <$> l) in
  Z.quot (list_width - Z.min longest list_width) 2.

Section Checklist.
Variables height width list_height : Z.

Definition draw (b : cbox) : LM (cbox + Z) :=
  u ← pget;
  if (lines u <? height + CHECKLIST_HEIGTH_MIN) || (columns u <? width + CHECKLIST_WIDTH_MIN)
  then mret (inr (- ERRDISPLAYTOOSMALL))
  else
    n ← item_count;
    let max_choice := Z.min list_height n in
    let list_width := width - 6 in
    newwin list_height;;
    item_foreach (mret (None : option unit));;
    let g := {| list_width := list_width; item_x := check_column list_width (item_head u) + 4 |} in
    let v := view_of b in
    let v := if list_height <=? choice v then
               let s := choice v - list_height + 1 in at_view s (choice v - s)
             else v in
    print_items g (scroll v) (choice v) (Z.to_nat max_choice) 0;;
    mret (inl {| view_of := v; button := button b; max_choice := max_choice; geo := g |}).

(** The row whose item begins with the letter; [max_choice] if there is none. *)
Fixpoint find_hit (key scroll : Z) (n : nat) (i : Z) : LM Z :=
  match n with
  | O => mret i
  | S n =>
      item_set (i + scroll);;
      s ← item_str;
      let c := match s with String c _ => c | EmptyString => chr 0 end in
      if upper_key key =? upper_key (signed_char c) then mret i else find_hit key scroll n (i + 1)
  end.

(** The highlight goes to row [i]. *)
Definition choose (b : cbox) (i : Z) : LM view :=
  let v := view_of b in
  if i =? choice v then mret v
  else
    item_set (scroll v + choice v);;
    print_item (geo b) (choice v) false;;
    item_set (scroll v + i);;
    print_item (geo b) i true;;
    mret (at_view (scroll v) i).

Definition move (b : cbox) (key i count : Z) : LM view :=
  let v := view_of b in
  let g := geo b in
  if (key =? KEY_UP) || is_key "-" key then
    if choice v =? 0 then
      if scroll v =? 0 then mret v
      else
        pwhen (1 <? list_height) (item_set (scroll v);; print_item g 0 false;; wscrl (-1));;
        item_set (scroll v - 1);;
        print_item g 0 true;;
        mret (at_view (scroll v - 1) (choice v))
    else choose b (choice v - 1)
  else if (key =? KEY_DOWN) || is_key "+" key then
    if choice v =? max_choice b - 1 then
      if count - 1 <=? scroll v + choice v then mret v
      else
        pwhen (1 <? list_height)
          (item_set (scroll v + max_choice b - 1);; print_item g (max_choice b - 1) false;; wscrl 1);;
        item_set (scroll v + 1 + max_choice b - 1);;
        print_item g (max_choice b - 1) true;;
        mret (at_view (scroll v + 1) (choice v))
    else choose b (choice v + 1)
  else choose b i.

Definition step (b : cbox) : LM (turn cbox Z) :=
  key ← wgetch;
  let v := view_of b in
  i ← find_hit key (scroll v) (Z.to_nat (max_choice b)) 0;
  count ← item_count;
  if (i <? max_choice b) || (key =? KEY_UP) || (key =? KEY_DOWN) || one_of "+-" key then
    v ← move b key i count; mret (Next (set_view v b))
  else if one_of "Hh?Ss " key || (key =? code nl) then
    let button := if one_of "Hh?" key then 1 else button b in
    item_foreach (item_set_selected 0;; mret (None : option unit));;
    item_set (scroll v + choice v);;
    item_set_selected 1;;
    mret (Return button)
  else if (key =? TAB) || (key =? KEY_LEFT) || (key =? KEY_RIGHT) then
    let n := if key =? KEY_LEFT then button b - 1 else button b + 1 in
    mret (Next (set_button (if n <? 0 then 1 else if 1 <? n then 0 else n) b))
  else if one_of "Xx" key then mret (Return KEY_ESC)
  else if key =? KEY_ESC then
    key ← on_key_esc;
    mret (if key =? KEY_ESC then Return KEY_ESC else Next b)
  else if key =? KEY_RESIZE then mret (Resize b)
  else mret (Next b).

Definition dialog_checklist : LM Z :=
  c ← initial_choice;
  dialog_loop draw step
    {| view_of := at_view 0 c; button := 0; max_choice := 0; geo := {| list_width := 0; item_x := 0 |} |}.
End Checklist.
End Checklist.

(** ** The question (yesno.c) *)

Module Yesno.
Section Yesno.
Variables height width : Z.
Definition draw (button : Z) : LM (Z + Z) :=
  u ← pget;
  mret (if (lines u <? height + YESNO_HEIGTH_MIN) || (columns u <? width + YESNO_WIDTH_MIN)
        then inr (- ERRDISPLAYTOOSMALL) else inl button).
Definition step (button : Z) : LM (turn Z Z) :=
  key ← wgetch;
  if one_of "Yy" key then mret (Return 0)
  else if one_of "Nn" key then mret (Return 1)
  else if (key =? TAB) || (key =? KEY_LEFT) || (key =? KEY_RIGHT) then
    let n := if key =? KEY_LEFT then button - 1 else button + 1 in
    mret (Next (if n <? 0 then 1 else if 1 <? n then 0 else n))
  else if is_key " " key || (key =? code nl) then mret (Return button)
  else if key =? KEY_ESC then
    key ← on_key_esc;
    mret (if key =? KEY_ESC then Return KEY_ESC else Next button)
  else if key =? KEY_RESIZE then mret (Resize button)
  else mret (Next button).
Definition dialog_yesno : LM Z := dialog_loop draw step 0.
End Yesno.
End Yesno.

(** ** The input line (inputbox.c) *)

Module Inputbox.

(** [strlen] of the array; [None]: it has no NUL. *)
Fixpoint strlen (s : list Ascii.ascii) : option nat :=
  match s with
  | [] => None
  | c :: s => if char_eqb c (chr 0) then Some O else S <$> strlen s
  end.
Definition read_at (i : Z) : LM Ascii.ascii := u ← pget; if 0 <=? i then plift (instr u !! Z.to_nat i) else pfault.
Definition write_at (i : Z) (c : Ascii.ascii) : LM unit :=
  read_at i;; u ← pget; pmodify (set_instr (<[Z.to_nat i := c]> (instr u))).

(** [strcpy(instr, init)]: beyond the array if [init] is longer than it. *)
Definition copy_init (init : string) : LM unit :=
  let s := (String.list_ascii_of_string init ++ [chr 0])%list in
  u ← pget;
  if Nat.leb (length s) (length (instr u)) then pmodify (set_instr (s ++ drop (length s) (instr u))%list) else pfault.

(** The characters from [i] on move one place down; those from [i] to [pos] up. *)
Fixpoint shift_down (n : nat) (i : Z) : LM unit :=
  match n with
  | O => mret tt
  | S n => c ← read_at (i + 1); write_at i c;; shift_down n (i + 1)
  end.
Fixpoint shift_up (n : nat) (i : Z) : LM unit :=
  match n with
  | O => mret tt
  | S n => c ← read_at (i - 1); write_at i c;; shift_up n (i - 1)
  end.

Definition put_cell (i : Z) (c : Ascii.ascii) : LM unit :=
  u ← pget; pmodify (set_field (<[Z.to_nat i := c]> (field u))).
(** [for (i = 0; i < box_width; i++)]: the text from [show_x] on, and one blank behind
    its end. *)
Fixpoint print_field (n : nat) (i show_x : Z) : LM unit :=
  match n with
  | O => mret tt
  | S n =>
      c ← read_at (show_x + i);
      if char_eqb c (chr 0) then put_cell i " "%char
      else put_cell i c;; print_field n (i + 1) show_x
  end.
(** [waddch] of the next [n] characters, and [waddstr]. *)
Fixpoint print_chars (n : nat) (i show_x : Z) : LM unit :=
  match n with
  | O => mret tt
  | S n => c ← read_at (show_x + i); put_cell i c;; print_chars n (i + 1) show_x
  end.

(** [button] is -1 while the input line has the keys. *)
Record ibox := { button : Z; len : Z; at_pos : Z; show_x : Z; input_x : Z }.
Definition set_button (n : Z) (b : ibox) : ibox :=
  {| button := n; len := len b; at_pos := at_pos b; show_x := show_x b; input_x := input_x b |}.

Section Inputbox.
Variables height width : Z.
Definition box_width : Z := width - 6.

Definition draw (b : ibox) : LM (ibox + Z) :=
  u ← pget;
  if (lines u <=? height - INPUTBOX_HEIGTH_MIN) || (columns u <=? width - INPUTBOX_WIDTH_MIN)
  then mret (inr (- ERRDISPLAYTOOSMALL))
  else
    pmodify (set_field (replicate (Z.to_nat box_width) " "%char));;
    n ← plift (strlen (instr u));
    let len := Z.of_nat n in
    if box_width <=? len then
      let show_x := len - box_width + 1 in
      print_chars (Z.to_nat (box_width - 1)) 0 show_x;;
      mret (inl {| button := button b; len := len; at_pos := len; show_x := show_x; input_x := box_width - 1 |})
    else
      print_chars n 0 0;;
      mret (inl {| button := button b; len := len; at_pos := len; show_x := 0; input_x := len |}).

Definition redraw (b : ibox) : LM ibox := print_field (Z.to_nat box_width) 0 (show_x b);; mret b.

Definition backspace (b : ibox) : LM ibox :=
  if at_pos b =? 0 then mret b
  else
    let '(show_x, input_x) := if input_x b =? 0 then (show_x b - 1, 0) else (show_x b, input_x b - 1) in
    pwhen (at_pos b <? len b) (shift_down (Z.to_nat (len b - (at_pos b - 1))) (at_pos b - 1));;
    write_at (len b - 1) (chr 0);;
    redraw {| button := button b; len := len b - 1; at_pos := at_pos b - 1; show_x := show_x; input_x := input_x |}.
Definition go_left (b : ibox) : LM ibox :=
  if 0 <? at_pos b then
    let b' show_x input_x :=
      {| button := button b; len := len b; at_pos := at_pos b - 1; show_x := show_x; input_x := input_x |} in
    if 0 <? input_x b then mret (b' (show_x b) (input_x b - 1))
    else if input_x b =? 0 then redraw (b' (show_x b - 1) (input_x b))
    else mret (b' (show_x b) (input_x b))
  else mret b.
Definition go_right (b : ibox) : LM ibox :=
  if at_pos b <? len b then
    let b' show_x input_x :=
      {| button := button b; len := len b; at_pos := at_pos b + 1; show_x := show_x; input_x := input_x |} in
    if input_x b <? box_width - 1 then mret (b' (show_x b) (input_x b + 1))
    else if input_x b =? box_width - 1 then redraw (b' (show_x b + 1) (input_x b))
    else mret (b' (show_x b) (input_x b))
  else mret b.
(** A full line only makes the screen flash. *)
Definition insert (key : Z) (b : ibox) : LM ibox :=
  if len b <? MAX_LEN then
    (if at_pos b <? len b then
       shift_up (Z.to_nat (len b - at_pos b)) (len b);; write_at (at_pos b) (chr key)
     else write_at (len b) (chr key));;
    write_at (len b + 1) (chr 0);;
    let '(show_x, input_x) :=
      if input_x b =? box_width - 1 then (show_x b + 1, input_x b) else (show_x b, input_x b + 1) in
    redraw {| button := button b; len := len b + 1; at_pos := at_pos b + 1; show_x := show_x; input_x := input_x |}
  else mret b.

Definition isprint (key : Z) : bool := (32 <=? key) && (key <=? 126).
(** The key goes to the input line: what it does there. *)
Definition line_key (key : Z) (b : ibox) : option (LM ibox) :=
  if (key =? TAB) || (key =? KEY_UP) || (key =? KEY_DOWN) then None
  else if (key =? KEY_BACKSPACE) || (key =? 127) then Some (backspace b)
  else if key =? KEY_LEFT then Some (go_left b)
  else if key =? KEY_RIGHT then Some (go_right b)
  else if (key <? 256) && isprint key then Some (insert key b)
  else None.

Definition previous (button : Z) : Z := if button =? -1 then 1 else if button =? 0 then -1 else if button =? 1 then 0 else button.
Definition following (button : Z) : Z := if button =? -1 then 0 else if button =? 0 then 1 else if button =? 1 then -1 else button.
(** The key goes to the buttons. *)
Definition button_key (key : Z) (b : ibox) : LM (turn ibox Z) :=
  if one_of "Oo" key then mret (Return 0)
  else if one_of "Hh" key then mret (Return 1)
  else if (key =? KEY_UP) || (key =? KEY_LEFT) then mret (Next (set_button (previous (button b)) b))
  else if (key =? TAB) || (key =? KEY_DOWN) || (key =? KEY_RIGHT) then mret (Next (set_button (following (button b)) b))
  else if is_key " " key || (key =? code nl) then mret (Return (if button b =? -1 then 0 else button b))
  else if one_of "Xx" key then mret (Return KEY_ESC)
  else if key =? KEY_ESC then
    key ← on_key_esc;
    mret (if key =? KEY_ESC then Return KEY_ESC else Next b)
  else if key =? KEY_RESIZE then mret (Resize b)
  else mret (Next b).
Definition step (b : ibox) : LM (turn ibox Z) :=
  key ← wgetch;
  match (if button b =? -1 then line_key key b else None) with
  | Some m => b ← m; mret (Next b)
  | None => button_key key b
  end.

(** The text is left in [dialog_input_result], whatever the value is. *)
Definition dialog_inputbox (init : string) : LM Z :=
  copy_init init;;
  dialog_loop draw step {| button := -1; len := 0; at_pos := 0; show_x := 0; input_x := 0 |}.
End Inputbox.

(** [dialog_input_result] as a text. *)
Definition c_text (s : list Ascii.ascii) : string :=
  String.string_of_list_ascii (take (default (length s) (strlen s)) s).
Definition dialog_input_result : LM string := u ← pget; mret (c_text (instr u)).
End Inputbox.

(** ** The text viewer (textbox.c) *)

Module Textbox.

(** The static variables, with [page] as the distance from [buf], and the sizes the
    locals hold. *)
Record tbox := {
  buf : list Ascii.ascii;
  page : nat;
  begin_reached : bool;
  end_reached : bool;
  page_length : Z;
  hscroll : Z;
  height : Z;
  boxh : Z;
  boxw : Z;
}.
Definition set_page (p : nat) (t : tbox) : tbox :=
  {| buf := buf t; page := p; begin_reached := begin_reached t; end_reached := end_reached t;
     page_length := page_length t; hscroll := hscroll t; height := height t; boxh := boxh t; boxw := boxw t |}.
Definition set_begin (b : bool) (t : tbox) : tbox :=
  {| buf := buf t; page := page t; begin_reached := b; end_reached := end_reached t;
     page_length := page_length t; hscroll := hscroll t; height := height t; boxh := boxh t; boxw := boxw t |}.
Definition set_end (b : bool) (t : tbox) : tbox :=
  {| buf := buf t; page := page t; begin_reached := begin_reached t; end_reached := b;
     page_length := page_length t; hscroll := hscroll t; height := height t; boxh := boxh t; boxw := boxw t |}.
Definition set_length (n : Z) (t : tbox) : tbox :=
  {| buf := buf t; page := page t; begin_reached := begin_reached t; end_reached := end_reached t;
     page_length := n; hscroll := hscroll t; height := height t; boxh := boxh t; boxw := boxw t |}.
Definition set_hscroll (n : Z) (t : tbox) : tbox :=
  {| buf := buf t; page := page t; begin_reached := begin_reached t; end_reached := end_reached t;
     page_length := page_length t; hscroll := n; height := height t; boxh := boxh t; boxw := boxw t |}.
Definition set_buf (l : list Ascii.ascii) (t : tbox) : tbox :=
  {| buf := l; page := page t; begin_reached := begin_reached t; end_reached := end_reached t;
     page_length := page_length t; hscroll := hscroll t; height := height t; boxh := boxh t; boxw := boxw t |}.
Definition set_sizes (h bh bw : Z) (t : tbox) : tbox :=
  {| buf := buf t; page := page t; begin_reached := begin_reached t; end_reached := end_reached t;
     page_length := page_length t; hscroll := hscroll t; height := h; boxh := bh; boxw := bw |}.

(** The text up to the next newline, and whether there is none. *)
Fixpoint to_newline (l : list Ascii.ascii) : list Ascii.ascii * bool :=
  match l with
  | [] => ([], true)
  | c :: l => if char_eqb c nl then ([], false) else let '(a, e) := to_newline l in (c :: a, e)
  end.
(** The line is cut to the 2048 characters of its buffer. *)
Definition get_line (t : tbox) : list Ascii.ascii * tbox :=
  let '(a, e) := to_newline (drop (page t) (buf t)) in
  (take (Z.to_nat MAX_LEN) a,
   set_end e (set_page (page t + length a + (if e then 0 else 1)) t)).

(** [do { if (page == buf) ... page--; } while ( *page != '\n'); page++;] from [p] on;
    the flag: the beginning was reached. *)
Fixpoint line_start (buf : list Ascii.ascii) (p : nat) : nat * bool :=
  match p with
  | O => (O, true)
  | S p =>
      match buf !! p with
      | Some c => if char_eqb c nl then (S p, false) else line_start buf p
      | None => line_start buf p
      end
  end.
Fixpoint lines_back (n : nat) (t : tbox) : tbox :=
  match n with
  | O => t
  | S n =>
      if bool_decide (buf t !! page t = None) && end_reached t then lines_back n (set_end false t)
      else
        match page t with
        | O => set_begin true t
        | S p =>
            let '(p, b) := line_start (buf t) p in
            if b then set_begin true (set_page p t) else lines_back n (set_page p t)
        end
  end.
Definition back_lines (n : Z) (t : tbox) : tbox := lines_back (Z.to_nat n) (set_begin false t).
Fixpoint get_lines (n : nat) (t : tbox) : tbox := match n with O => t | S n => get_lines n (get_line t).2 end.

(** What is shown of a line: [MIN(strlen(line), width - 2)] characters, counted
    without a sign. *)
Definition line_row (hscroll width : Z) (line : list Ascii.ascii) : row :=
  let line := drop (Nat.min (length line) (Z.to_nat hscroll)) line in
  let n := if width - 2 <? 0 then length line else Nat.min (length line) (Z.to_nat (width - 2)) in
  {| r_mark := " "; r_text := String.string_of_list_ascii (take n line); r_hot := None; r_sel := false |}.
Fixpoint print_lines (n : nat) (i : Z) (passed_end : bool) (t : tbox) : LM tbox :=
  match n with
  | O => mret t
  | S n =>
      let '(line, t) := get_line t in
      put_row i (line_row (hscroll t) (boxw t) line);;
      let t := if passed_end then t else set_length (page_length t + 1) t in
      print_lines n (i + 1) (passed_end || end_reached t) t
  end.

Section Textbox.
(** What [update_text] may change besides the text, and the keys in it. *)
Context {D : Type}.
Variable update_text : option (list Ascii.ascii -> Z -> Z -> D -> list Ascii.ascii * D).
Variable keys : D -> list Z.
Variables initial_height initial_width : Z.

Definition print_page (td : tbox * D) : LM (tbox * D) :=
  let '(t, d) := td in
  let '(t, d) :=
    match update_text with
    | Some f =>
        let t := get_lines (Z.to_nat (boxh t)) t in
        let e := Z.of_nat (page t) in
        let t := back_lines (boxh t) t in
        let '(l, d) := f (buf t) (Z.of_nat (page t)) e d in
        (set_buf l t, d)
    | None => (t, d)
    end in
  t ← print_lines (Z.to_nat (boxh t)) 0 false (set_length 0 t);
  mret (t, d).
(** The percentage of an empty text is a division by 0. *)
Definition print_position (t : tbox) : LM unit := match buf t with [] => pfault | _ => mret tt end.
Definition refresh_text_box (td : tbox * D) : LM (tbox * D) :=
  td ← print_page td; print_position td.1;; mret td.
Definition refresh (d : D) (t : tbox) : LM (turn (tbox * D) (Z * (tbox * D))) := td ← refresh_text_box (t, d); mret (Next td).

Definition draw (td : tbox * D) : LM ((tbox * D) + (Z * (tbox * D))) :=
  u ← pget;
  let '(h, w) := (lines u, columns u) in
  if (h <? TEXTBOX_HEIGTH_MIN) || (w <? TEXTBOX_WIDTH_MIN) then mret (inr (- ERRDISPLAYTOOSMALL, td))
  else
    let h := if negb (initial_height =? 0) then initial_height else if 4 <? h then h - 4 else 0 in
    let w := if negb (initial_width =? 0) then initial_width else if 5 <? w then w - 5 else 0 in
    newwin (h - 4);;
    td ← refresh_text_box (set_sizes h (h - 4) (w - 2) td.1, td.2);
    mret (inl td).

(** A turn of the loop. *)
Definition step (td : tbox * D) : LM (turn (tbox * D) (Z * (tbox * D))) :=
  key ← wgetch;
  let '(t, d) := td in
  let stay := mret (Next td) in
  if one_of "EeXxq" key || (key =? code nl) then mret (Return (key, td))
  else if is_key "g" key || (key =? KEY_HOME) then
    if begin_reached t then stay else refresh d (set_page 0 (set_begin true t))
  else if is_key "G" key || (key =? KEY_END) then
    refresh d (back_lines (boxh t) (set_page (length (buf t)) (set_end true t)))
  else if one_of "Kk" key || (key =? KEY_UP) then
    if begin_reached t then stay else refresh d (back_lines (page_length t + 1) t)
  else if one_of "Bbu" key || (key =? KEY_PPAGE) then
    if begin_reached t then stay else refresh d (back_lines (page_length t + boxh t) t)
  else if one_of "Jj" key || (key =? KEY_DOWN) then
    if end_reached t then stay else refresh d (back_lines (page_length t - 1) t)
  else if one_of " d" key || (key =? KEY_NPAGE) then
    if end_reached t then stay else refresh d (set_begin false t)
  else if one_of "0Hh" key || (key =? KEY_LEFT) then
    if hscroll t <=? 0 then stay
    else
      let t := set_hscroll (if is_key "0" key then 0 else hscroll t - 1) t in
      refresh d (back_lines (page_length t) t)
  else if one_of "Ll" key || (key =? KEY_RIGHT) then
    if MAX_LEN <=? hscroll t then stay
    else let t := set_hscroll (hscroll t + 1) t in refresh d (back_lines (page_length t) t)
  else if key =? KEY_ESC then
    k ← on_key_esc; if k =? KEY_ESC then mret (Return (key, td)) else stay
  else if key =? KEY_RESIZE then mret (Resize (back_lines (height t) t, d))
  else if existsb (Z.eqb key) (keys d) then mret (Return (key, td))
  else stay.

(** [while (s < page && (s = strchr(s, '\n')))] *)
Definition newlines (l : list Ascii.ascii) : Z := Z.of_nat (length (filter (fun c => c = nl) l)).
(** The key that ended the dialog, with the scroll positions to be kept. *)
Definition dialog_textbox (tbuf : list Ascii.ascii) (vscroll hscroll : Z) (d : D) : LM (Z * Z * Z * D) :=
  let t := {| buf := tbuf; page := 0; begin_reached := true; end_reached := false; page_length := 0;
              hscroll := hscroll; height := 0; boxh := 0; boxw := 0 |} in
  let t := if vscroll =? 0 then t else get_lines (Z.to_nat vscroll) (set_begin false t) in
  '(key, (t, d)) ← dialog_loop draw step (t, d);
  if key =? - ERRDISPLAYTOOSMALL then mret (key, vscroll, hscroll, d)
  else
    let t := back_lines (page_length t) t in
    mret (key, newlines (take (page t) (buf t)), Textbox.hscroll t, d).
End Textbox.
End Textbox.

(** ** Starting (util.c) *)

(** [init_dialog]: whether the screen is large enough. *)
Definition init_dialog : LM Z :=
  u ← pget;
  mret (if (lines u <? WINDOW_HEIGTH_MIN) || (columns u <? WINDOW_WIDTH_MIN) then - ERRDISPLAYTOOSMALL else 0).
