(* ===== verification/LxDialogFacts.v ===== *)
(** The dialogs of the menu-driven configuration tool: what they show and what they
    give back.

    The menu is drawn piecewise: rows scroll, one is added at the edge, two change
    their highlight.  [picture] is the window drawn at once, [goes] the cursor of a
    plain list; every key keeps the first and follows the second. *)
From S2P Require Import Prelude CText LxDialog.

(** ** Pictures of a list *)

Ltac tstep :=
  first [apply total_bind | apply total_ret | apply total_get | apply total_modify
        | eapply total_lift; [eassumption|]]; cbn beta.

Section Picture.
Context (render : bool -> dialog_item -> row).

(** Row [y] of a window that shows [n] items from the [s]-th on, with row [c]
    current. *)
Definition picture_row (l : list dialog_item) (s c n : Z) (y : nat) : row :=
  match l !! Z.to_nat (s + Z.of_nat y) with
  | Some d => if Z.of_nat y <? n then render (Z.of_nat y =? c) d else blank_row
  | None => blank_row
  end.
Definition picture (l : list dialog_item) (s c n : Z) (h : nat) : list row := picture_row l s c n <$> seq 0 h.

Lemma picture_lookup l s c n h y :
  picture l s c n h !! y = if decide (y < h)%nat then Some (picture_row l s c n y) else None.
Proof.
  unfold picture. rewrite list_lookup_fmap. destruct (decide _) as [H|H].
  - by rewrite lookup_seq_lt.
  - by rewrite lookup_seq_ge by lia.
Qed.
Lemma picture_length l s c n h : length (picture l s c n h) = h.
Proof. unfold picture. by rewrite length_fmap, length_seq. Qed.

(** Drawing the row [y] with a highlight or without. *)
Lemma picture_insert l s c c' n h y d (b : bool) :
  0 <= s -> 0 <= y < n -> n <= Z.of_nat h -> l !! Z.to_nat (s + y) = Some d ->
  (forall z, 0 <= z -> z <> y -> (z =? c) = (z =? c')) -> (y =? c') = b ->
  <[Z.to_nat y := render b d]> (picture l s c n h) = picture l s c' n h.
Proof.
  intros Hs Hy Hn Hl Hc Hb. apply list_eq. intros z. rewrite picture_lookup.
  destruct (decide (z = Z.to_nat y)) as [->|Hz].
  - rewrite list_lookup_insert_eq by (rewrite picture_length; lia). rewrite decide_True by lia.
    unfold picture_row. rewrite Z2Nat.id, Hl, Hb by lia. by rewrite (proj2 (Z.ltb_lt y n)) by lia.
  - rewrite list_lookup_insert_ne, picture_lookup by done. destruct (decide _); [|done]. f_equal. unfold picture_row.
    by rewrite (Hc (Z.of_nat z)) by lia.
Qed.

(** The rows move up by one and the last one is drawn, or down and the first. *)
Lemma picture_up l s n h d :
  0 <= s -> 0 < n -> n = Z.of_nat h -> l !! Z.to_nat (s + n) = Some d ->
  <[Z.to_nat (n - 1) := render false d]> (scroll_rows 1 (picture l s (-1) n h)) = picture l (s + 1) (-1) n h.
Proof.
  intros Hs Hn0 Hn Hl. apply list_eq. intros z. rewrite picture_lookup. unfold scroll_rows.
  rewrite (proj2 (Z.leb_le 0 1)) by lia. change (Z.to_nat 1) with 1%nat. rewrite picture_length.
  replace (Nat.min 1 h) with 1%nat by lia.
  assert (Hlen : length (drop 1 (picture l s (-1) n h) ++ replicate 1 blank_row) = h)
    by (rewrite length_app, length_drop, picture_length, length_replicate; lia).
  destruct (decide (z = Z.to_nat (n - 1))) as [->|Hz].
  - rewrite list_lookup_insert_eq by (rewrite Hlen; lia). rewrite decide_True by lia. f_equal. unfold picture_row.
    replace (s + 1 + Z.of_nat (Z.to_nat (n - 1))) with (s + n) by lia. rewrite Hl.
    rewrite (proj2 (Z.ltb_lt _ _)) by lia. by rewrite (proj2 (Z.eqb_neq _ _)) by lia.
  - rewrite list_lookup_insert_ne by done. destruct (decide _) as [H|H].
    + rewrite lookup_app_l by (rewrite length_drop, picture_length; lia).
      rewrite lookup_drop, picture_lookup, decide_True by lia. f_equal. unfold picture_row.
      replace (s + Z.of_nat (1 + z)) with (s + 1 + Z.of_nat z) by lia. destruct (l !! _); [|done].
      rewrite !(proj2 (Z.ltb_lt _ _)) by lia. by rewrite !(proj2 (Z.eqb_neq _ _)) by lia.
    + apply lookup_ge_None_2. rewrite Hlen. lia.
Qed.
Lemma picture_down l s n h d :
  0 < s -> 0 < n -> n = Z.of_nat h -> l !! Z.to_nat (s - 1) = Some d ->
  <[0%nat := render false d]> (scroll_rows (-1) (picture l s (-1) n h)) = picture l (s - 1) (-1) n h.
Proof.
  intros Hs Hn0 Hn Hl. apply list_eq. intros z. rewrite picture_lookup. unfold scroll_rows.
  rewrite (proj2 (Z.leb_gt 0 (-1))) by lia. change (Z.to_nat (- -1)) with 1%nat. rewrite picture_length.
  replace (Nat.min 1 h) with 1%nat by lia.
  destruct z as [|z].
  - rewrite list_lookup_insert_eq by (rewrite length_app, length_replicate; lia). rewrite decide_True by lia.
    f_equal. unfold picture_row. replace (s - 1 + Z.of_nat 0) with (s - 1) by lia. rewrite Hl.
    by rewrite (proj2 (Z.ltb_lt _ _)) by lia.
  - rewrite list_lookup_insert_ne by done. cbn [replicate app]. rewrite lookup_cons_ne_0 by done. cbn [Nat.pred]. destruct (decide _) as [H|H].
    + rewrite lookup_take_lt, picture_lookup, decide_True by lia. f_equal. unfold picture_row.
      replace (s - 1 + Z.of_nat (S z)) with (s + Z.of_nat z) by lia. destruct (l !! _); [|done].
      rewrite !(proj2 (Z.ltb_lt _ _)) by lia. by rewrite !(proj2 (Z.eqb_neq _ _)) by lia.
    + apply lookup_ge_None_2. rewrite length_take, picture_length. lia.
Qed.
End Picture.

(** ** The list of items *)

Lemma total_run {A} (m : LM A) (Q : A -> ui -> Prop) u a u' : m u = Ok a u' -> Q a u' -> total m Q u.
Proof. unfold total. by intros ->. Qed.
Lemma wgetch_got u key rest : events u = Got key :: rest -> wgetch u = Ok key (set_events rest u).
Proof. intros H. unfold wgetch, mbind, PM_bind. cbn. by rewrite H. Qed.
Lemma wgetch_none u : events u = [] -> wgetch u = NoFuel.
Proof. intros H. unfold wgetch, mbind, PM_bind. cbn. by rewrite H. Qed.

(** What drawing leaves alone. *)
Definition frame (u : ui) := (events u, lines u, columns u, item_nil u, instr u, field u).

(** Behind a piece of drawing: the items are [l] and the window is [w]. *)
Record drew (l : list dialog_item) (w : list row) (u u' : ui) : Prop := {
  drew_frame : frame u' = frame u;
  drew_items : item_head u' = l;
  drew_window : window u' = w;
}.

Lemma drew_trans l w w' u u' u'' : drew l w u u' -> drew l w' u' u'' -> drew l w' u u''.
Proof. intros [F _ _] [F' I' W']. split; [by rewrite F'|done..]. Qed.

Lemma item_set_total n (Q : unit -> ui -> Prop) u :
  0 <= n < Z.of_nat (length (item_head u)) -> Q tt (set_cur (At (Z.to_nat n)) u) -> total (item_set n) Q u.
Proof.
  intros Hn HQ. unfold item_set. apply total_bind, total_get. destruct (item_head u) as [|d l] eqn:E; [cbn in Hn; lia|].
  apply total_modify. rewrite (proj2 (Z.leb_le _ _)), (proj2 (Z.ltb_lt _ _)) by (rewrite ?E; lia). exact HQ.
Qed.
Lemma cur_item_total i d (Q : dialog_item -> ui -> Prop) u :
  item_cur u = At i -> item_head u !! i = Some d -> Q d u -> total cur_item Q u.
Proof.
  intros Hc Hd HQ. unfold cur_item. apply total_bind, total_get. rewrite Hc. by eapply total_lift.
Qed.

Section Menu.
Import Menubox.
Context (l : list dialog_item) (g : geometry) (mc : Z).
Abbreviation count := (Z.of_nat (length l)).
Abbreviation rows s c := (picture (item_row g) l s c mc (Z.to_nat (menu_height g))).

(** The part of the list a menu shows. *)
Record view_ok (v : view) : Prop := {
  vo_scroll : 0 <= scroll v;
  vo_end : scroll v + mc <= count;
  vo_choice : 0 <= choice v < mc;
}.
Hypothesis mc_min : mc = Z.min (menu_height g) count.

Definition pos (v : view) : Z := scroll v + choice v.

Lemma item_at i : 0 <= i < count -> exists d, l !! Z.to_nat i = Some d.
Proof. intros H. apply lookup_lt_is_Some_2. lia. Qed.

Lemma print_item_total i y sel d w u :
  item_head u = l -> window u = w -> 0 <= i -> l !! Z.to_nat i = Some d -> 0 <= y ->
  total (print_item g i y sel) (fun _ => drew l (<[Z.to_nat y := item_row g sel d]> w) u) u.
Proof.
  intros Hl Hw Hi Hd Hy. pose proof (lookup_lt_Some _ _ _ Hd). unfold print_item. apply total_bind.
  apply item_set_total; [rewrite Hl; lia|]. apply total_bind.
  eapply cur_item_total; [reflexivity|cbn; by rewrite Hl|].
  unfold put_row. apply total_bind, total_get. rewrite (proj2 (Z.leb_le 0 y)) by done. apply total_modify.
  split; [done|done|]. cbn. by rewrite Hw.
Qed.

(** The current row loses its highlight, or a row gets it. *)
Lemma unmark_total s c u :
  0 <= s -> s + mc <= count -> 0 <= c < mc -> item_head u = l -> (window u = rows s c \/ window u = rows s (-1)) ->
  total (print_item g (s + c) c false) (fun _ => drew l (rows s (-1)) u) u.
Proof.
  intros Hs He Hc Hl Hw. destruct (item_at (s + c) ltac:(lia)) as [d Hd].
  eapply total_mono; [eapply print_item_total; eauto; lia|]. cbn. intros _ u' [F I W]. split; [done..|]. rewrite W.
  destruct Hw as [-> | ->]; apply picture_insert; intros; lia || done.
Qed.
Lemma mark_total s c u :
  0 <= s -> s + mc <= count -> 0 <= c < mc -> item_head u = l -> window u = rows s (-1) ->
  total (print_item g (s + c) c true) (fun _ => drew l (rows s c) u) u.
Proof.
  intros Hs He Hc Hl Hw. destruct (item_at (s + c) ltac:(lia)) as [d Hd].
  eapply total_mono; [eapply print_item_total; eauto; lia|]. cbn. intros _ u' [F I W]. split; [done..|]. rewrite W, ?Hw.
  apply picture_insert; intros; lia || done.
Qed.

(** The list moves by one row, and the row that comes in is drawn. *)
Lemma scroll_down_total s c u :
  0 <= s -> s + mc < count -> 0 < mc -> item_head u = l -> window u = rows s (-1) ->
  total (v ← do_scroll (at_view s c) 1; print_item g (scroll v + mc - 1) (mc - 1) false;; mret v)
    (fun v u' => v = at_view (s + 1) c /\ drew l (rows (s + 1) (-1)) u u') u.
Proof.
  intros Hs He Hm Hl Hw. unfold do_scroll, wscrl.
  do 3 apply total_bind. apply total_get, total_modify, total_ret. cbn [scroll choice at_view]. apply total_bind.
  destruct (item_at (s + mc) ltac:(lia)) as [d Hd].
  replace (s + 1 + mc - 1) with (s + mc) by lia.
  eapply total_mono; [eapply (print_item_total (s + mc) _ _ d); done || lia|].
  cbn. intros _ u' [F I W]. split; [done|]. split; [done..|]. rewrite W. cbn. rewrite Hw. apply picture_up; lia || done.
Qed.
Lemma scroll_up_total s c u :
  0 < s -> s + mc <= count -> 0 < mc -> item_head u = l -> window u = rows s (-1) ->
  total (v ← do_scroll (at_view s c) (-1); print_item g (scroll v) 0 false;; mret v)
    (fun v u' => v = at_view (s - 1) c /\ drew l (rows (s - 1) (-1)) u u') u.
Proof.
  intros Hs He Hm Hl Hw. unfold do_scroll, wscrl.
  do 3 apply total_bind. apply total_get, total_modify, total_ret. cbn [scroll choice at_view]. apply total_bind.
  destruct (item_at (s - 1) ltac:(lia)) as [d Hd].
  replace (s + -1) with (s - 1) by lia.
  eapply total_mono; [eapply (print_item_total (s - 1) 0 _ d); done || lia|].
  cbn. intros _ u' [F I W]. split; [f_equal; lia|]. split; [done..|]. rewrite W. cbn. rewrite Hw.
  change (Z.to_nat 0) with 0%nat. apply picture_down; lia || done.
Qed.

(** Behind the move of a key: the cursor is at item [p], no row is marked. *)
Record moved (p : Z) (u : ui) (v : view) (u' : ui) : Prop := {
  mv_ok : view_ok v;
  mv_pos : pos v = p;
  mv_drew : drew l (rows (scroll v) (-1)) u u';
}.
Lemma cursor_moved_trans p u v u1 p' v' u' : moved p u v u1 -> moved p' u1 v' u' -> moved p' u v' u'.
Proof. intros [_ _ D] [O P D']. split; [done..|]. by eapply drew_trans. Qed.
Lemma moved_drew p w u u1 v u' : drew l w u u1 -> moved p u1 v u' -> moved p u v u'.
Proof. intros D [O P D']. split; [done..|]. by eapply drew_trans. Qed.
Lemma moved_stay p s c u :
  item_head u = l -> window u = rows s (-1) -> view_ok (at_view s c) -> pos (at_view s c) = p -> moved p u (at_view s c) u.
Proof. by intros. Qed.

Ltac view_lia := cbn [pos scroll choice at_view] in *; unfold pos in *; cbn [scroll choice at_view] in *; lia.

Lemma key_up_moves v u :
  view_ok v -> item_head u = l -> window u = rows (scroll v) (-1) ->
  total (key_up g v) (moved (Z.max (pos v - 1) 0) u) u.
Proof.
  intros [Hs He Hc] Hl Hw. destruct v as [s c]. unfold key_up. cbn [scroll choice] in *.
  destruct (_ && _) eqn:E.
  - apply andb_true_iff in E as [E1 E2]. eapply total_mono; [apply scroll_up_total; done || lia|].
    cbn beta. intros v u' [-> D]. split; [split; view_lia|view_lia|done].
  - apply moved_stay; [done..|split; view_lia|]. view_lia.
Qed.

Lemma key_down_moves v u :
  view_ok v -> item_head u = l -> window u = rows (scroll v) (-1) ->
  total (key_down g mc count v) (moved (Z.min (pos v + 1) (count - 1)) u) u.
Proof.
  intros [Hs He Hc] Hl Hw. destruct v as [s c]. unfold key_down. cbn [scroll choice] in *.
  apply total_bind. eapply total_mono; [apply unmark_total; auto|]. cbn beta. intros _ u1 D1.
  eapply total_mono; [|intros v u'; exact (moved_drew _ _ _ _ _ _ D1)]. destruct D1 as [_ I1 W1].
  destruct (_ && _) eqn:E.
  - apply andb_true_iff in E as [E1 E2]. eapply total_mono; [apply scroll_down_total; done || lia|].
    cbn beta. intros v u' [-> D]. split; [split; view_lia|view_lia|done].
  - apply moved_stay; [done..|split; view_lia|]. view_lia.
Qed.

Lemma page_up_moves n v u :
  view_ok v -> item_head u = l -> window u = rows (scroll v) (-1) ->
  total (page_up g n v) (moved (Z.max (pos v - Z.of_nat n) 0) u) u.
Proof.
  revert v u. induction n as [|n IH]; intros v u Ho Hl Hw; cbn [page_up].
  { destruct v as [s c]. destruct Ho. apply moved_stay; [done..|]. view_lia. }
  apply total_bind. apply (total_mono _ (moved (Z.max (pos v - 1) 0) u)).
  - destruct Ho as [Hs He Hc]. destruct v as [s c]. cbn [scroll choice] in *. destruct (0 <? s) eqn:E.
    + eapply total_mono; [apply scroll_up_total; done || lia|].
      cbn beta. intros v u' [-> D]. split; [split; view_lia|view_lia|done].
    + destruct (0 <? c) eqn:E'; (apply moved_stay; [done..|split; view_lia|]); view_lia.
  - intros v1 u1 M. pose proof M as [O1 P1 D1]. eapply total_mono; [apply IH; [done|apply D1..]|].
    intros v2 u2 M2. rewrite P1 in M2. eapply cursor_moved_trans; [exact M|].
    by replace (Z.max (pos v - Z.of_nat (S n)) 0) with (Z.max (Z.max (pos v - 1) 0 - Z.of_nat n) 0) by lia.
Qed.

Lemma page_down_moves n v u :
  view_ok v -> item_head u = l -> window u = rows (scroll v) (-1) ->
  total (page_down g mc count n v) (moved (Z.min (pos v + Z.of_nat n) (count - 1)) u) u.
Proof.
  revert v u. induction n as [|n IH]; intros v u Ho Hl Hw; cbn [page_down].
  { destruct v as [s c]. destruct Ho. apply moved_stay; [done..|]. view_lia. }
  apply total_bind. apply (total_mono _ (moved (Z.min (pos v + 1) (count - 1)) u)).
  - destruct Ho as [Hs He Hc]. destruct v as [s c]. cbn [scroll choice] in *. destruct (s + mc <? count) eqn:E.
    + eapply total_mono; [apply scroll_down_total; done || lia|].
      cbn beta. intros v u' [-> D]. split; [split; view_lia|view_lia|done].
    + destruct (c + 1 <? mc) eqn:E'; (apply moved_stay; [done..|split; view_lia|]); view_lia.
  - intros v1 u1 M. pose proof M as [O1 P1 D1]. eapply total_mono; [apply IH; [done|apply D1..]|].
    intros v2 u2 M2. rewrite P1 in M2. eapply cursor_moved_trans; [exact M|].
    by replace (Z.min (pos v + Z.of_nat (S n)) (count - 1)) with (Z.min (Z.min (pos v + 1) (count - 1) + Z.of_nat n) (count - 1)) by lia.
Qed.

(** *** The letters of the items *)

(** The key that leads to an item. *)
Definition letter (d : dialog_item) : Z :=
  signed_char (tolower (default (chr 0) (String.get (first_alpha (str d) HOT) (str d)))).
Definition letter_at (i : Z) : Z := default 0 (letter <$> l !! Z.to_nat i).

Lemma hit_total key s i u :
  item_head u = l -> 0 <= s + i < count ->
  total (hit key s i) (fun h u' => h = (key =? letter_at (s + i)) /\ drew l (window u) u u') u.
Proof.
  intros Hl Hi. unfold hit. apply total_bind, item_set_total; [by rewrite Hl|].
  destruct (item_at (s + i) Hi) as [d Hd]. apply total_bind. unfold item_str. apply total_bind.
  eapply cur_item_total; [reflexivity|cbn; by rewrite Hl|]. apply total_ret, total_ret. split; [|done].
  unfold letter_at. rewrite Hd. cbn. unfold letter. by destruct (String.get _ _).
Qed.

(** The first row from [i] on whose item has the letter. *)
Fixpoint first_with (key s : Z) (n : nat) (i : Z) : Z :=
  match n with O => i | S n => if key =? letter_at (s + i) then i else first_with key s n (i + 1) end.
Definition row_with (key s c : Z) : Z :=
  if strchr_key "ynmh " key then mc
  else let i := first_with key s (Z.to_nat (mc - (c + 1))) (c + 1) in
       if i =? mc then first_with key s (Z.to_nat mc) 0 else i.

Lemma first_with_spec key s n i : let j := first_with key s n i in
  i <= j <= i + Z.of_nat n /\ (j < i + Z.of_nat n -> letter_at (s + j) = key) /\
  (forall k, i <= k < j -> letter_at (s + k) <> key).
Proof.
  revert i. induction n as [|n IH]; intros i; cbn [first_with]; [repeat split; lia|].
  destruct (Z.eqb_spec key (letter_at (s + i))) as [E|E]; [repeat split; lia|].
  destruct (IH (i + 1)) as (H1 & H2 & H3). repeat split; [lia..|intros H; apply H2; lia|].
  intros k Hk. destruct (Z.eq_dec k i) as [->|]; [congruence|]. apply H3. lia.
Qed.

Lemma first_hit_total key s n i u :
  item_head u = l -> 0 <= s + i -> s + i + Z.of_nat n <= count ->
  total (first_hit key s n i) (fun j u' => j = first_with key s n i /\ drew l (window u) u u') u.
Proof.
  revert i u. induction n as [|n IH]; intros i u Hl Hi Hn; cbn [first_hit first_with]; [by apply total_ret|].
  apply total_bind. eapply total_mono; [apply hit_total; [done|lia]|]. cbn beta. intros h u1 [-> D].
  destruct (key =? letter_at (s + i)); [by apply total_ret|].
  eapply total_mono; [apply IH; [apply D|lia..]|]. cbn beta. intros j u2 [-> D2]. split; [done|].
  eapply drew_trans; [exact D|]. by rewrite (drew_window _ _ _ _ D) in D2.
Qed.

Lemma find_hit_total b key u :
  item_head u = l -> view_ok (view_of b) -> max_choice b = mc ->
  total (find_hit b key)
    (fun i u' => i = row_with key (scroll (view_of b)) (choice (view_of b)) /\ drew l (window u) u u') u.
Proof.
  intros Hl [Hs He Hc] Hm. unfold find_hit, row_with. rewrite Hm. destruct (strchr_key _ _); [by apply total_ret|].
  apply total_bind. eapply total_mono; [apply first_hit_total; [done|lia..]|]. cbn beta. intros i u1 [-> D].
  destruct (_ =? mc); [|by apply total_ret].
  eapply total_mono; [apply first_hit_total; [apply D|lia..]|]. cbn beta. intros j u2 [-> D2]. split; [done|].
  eapply drew_trans; [exact D|]. by rewrite (drew_window _ _ _ _ D) in D2.
Qed.
Lemma row_with_range key s c : 0 <= c < mc -> 0 <= row_with key s c <= mc.
Proof.
  intros Hc. unfold row_with. destruct (strchr_key _ _); [lia|].
  pose proof (first_with_spec key s (Z.to_nat (mc - (c + 1))) (c + 1)) as (H & _).
  pose proof (first_with_spec key s (Z.to_nat mc) 0) as (H' & _). destruct (_ =? mc); lia.
Qed.
(** No item has the code of a function key. *)
Lemma letter_small i : letter_at i < 128.
Proof.
  unfold letter_at. destruct (l !! Z.to_nat i) as [d|]; cbn; [|lia]. unfold letter, signed_char.
  pose proof (code_range (tolower (default (chr 0) (String.get (first_alpha (str d) HOT) (str d))))).
  destruct (_ <? 128) eqn:E; lia.
Qed.
Lemma row_with_none key s c : 0 <= c < mc -> (forall i, letter_at i <> key) -> row_with key s c = mc.
Proof.
  intros Hc Hk. unfold row_with. destruct (strchr_key _ _); [done|].
  pose proof (first_with_spec key s (Z.to_nat (mc - (c + 1))) (c + 1)) as (H1 & H2 & _).
  pose proof (first_with_spec key s (Z.to_nat mc) 0) as (H1' & H2' & _).
  assert (E : first_with key s (Z.to_nat (mc - (c + 1))) (c + 1) = mc).
  { destruct (Z.eq_dec (first_with key s (Z.to_nat (mc - (c + 1))) (c + 1)) mc); [done|].
    destruct (Hk _ (H2 ltac:(lia))). }
  rewrite E, Z.eqb_refl. destruct (Z.eq_dec (first_with key s (Z.to_nat mc) 0) mc); [done|].
  destruct (Hk _ (H2' ltac:(lia))).
Qed.

(** *** A turn of the loop *)

(** The menu at a key: the window shows its part of the list, the cursor marked. *)
Record showing (b : mbox) (u : ui) : Prop := {
  sh_items : item_head u = l;
  sh_geo : geo b = g;
  sh_max : max_choice b = mc;
  sh_view : view_ok (view_of b);
  sh_window : window u = rows (scroll (view_of b)) (choice (view_of b));
}.

(** Where a key leads in a list without a window. *)
Definition goes (key p : Z) : option Z :=
  if (key =? KEY_UP) || (key =? 45) then Some (Z.max (p - 1) 0)
  else if (key =? KEY_DOWN) || (key =? 43) then Some (Z.min (p + 1) (count - 1))
  else if key =? KEY_PPAGE then Some (Z.max (p - mc) 0)
  else if key =? KEY_NPAGE then Some (Z.min (p + mc) (count - 1))
  else None.
Lemma goes_eq key p : goes key p =
  if is_up key then Some (Z.max (p - 1) 0)
  else if is_down key then Some (Z.min (p + 1) (count - 1))
  else if key =? KEY_PPAGE then Some (Z.max (p - mc) 0)
  else if key =? KEY_NPAGE then Some (Z.min (p + mc) (count - 1))
  else None.
Proof. done. Qed.

Lemma move_total b key i u :
  showing b u -> (goes key (pos (view_of b)) = None -> 0 <= i < mc) ->
  total (move b key i count)
    (fun v u' => view_ok v /\ drew l (rows (scroll v) (choice v)) u u' /\
                 pos v = default (scroll (view_of b) + i) (goes key (pos (view_of b)))) u.
Proof.
  intros [Hl Hg Hm Ho Hw] Hi. pose proof Ho as [Hs He Hc]. unfold move. rewrite Hg, Hm. apply total_bind.
  eapply total_mono; [apply unmark_total; auto|]. cbn beta. intros _ u1 D1. pose proof D1 as [_ I1 W1].
  apply total_bind. rewrite (goes_eq key) in *.
  eapply (total_mono _ (fun v => moved (default (scroll (view_of b) + i) (goes key (pos (view_of b)))) u1 v)); rewrite (goes_eq key).
  - destruct (is_up key); [by apply key_up_moves|]. destruct (is_down key); [by apply key_down_moves|].
    pose proof (page_up_moves (Z.to_nat mc) _ _ Ho I1 W1) as Up.
    pose proof (page_down_moves (Z.to_nat mc) _ _ Ho I1 W1) as Down. rewrite Z2Nat.id in Up, Down by lia.
    destruct (key =? KEY_PPAGE); [done|]. destruct (key =? KEY_NPAGE); [done|].
    specialize (Hi eq_refl). apply moved_stay; [done..|split; view_lia|done].
  - intros v u2 [O2 P2 D2]. apply total_bind. pose proof O2 as [Hs2 He2 Hc2].
    eapply total_mono; [apply mark_total; [done..|apply D2|apply D2]|]. cbn beta. intros _ u3 D3. apply total_ret.
    split; [done|]. split; [|done]. eapply drew_trans, D3. by eapply drew_trans.
Qed.

Definition folded (key : Z) : Z :=
  if (key <? 256) && (((65 <=? key) && (key <=? 90)) || ((97 <=? key) && (key <=? 122))) then lower_key key else key.
Definition sideways (key n : Z) : Z :=
  let n := if key =? KEY_LEFT then n - 1 else n + 1 in if n <? 0 then 4 else if 4 <? n then 0 else n.
Definition ends (key : Z) : bool := one_of " synm/h?z" key || (key =? code nl).

(** What a key does, other than an escape or a change of the size. *)
Definition turned (s_scroll key : Z) (b : mbox) (t : turn mbox (Z * Z)) (u' : ui) : Prop :=
  let v := view_of b in
  let i := row_with key (scroll v) (choice v) in
  if (i <? mc) || bool_decide (goes key (pos v) <> None) then
    exists v', t = Next (set_view v' b) /\ showing (set_view v' b) u' /\ pos v' = default (scroll v + i) (goes key (pos v))
  else if (key =? KEY_LEFT) || (key =? TAB) || (key =? KEY_RIGHT) then
    t = Next (set_button (sideways key (button b)) b) /\ showing (set_button (sideways key (button b)) b) u'
  else if ends key then
    t = Return (result_of key (button b), scroll v) /\ item_cur u' = At (Z.to_nat (pos v)) /\
    item_head u' = alter (with_selected 1) (Z.to_nat (pos v)) l /\ window u' = rows (scroll v) (choice v)
  else if one_of "ex" key then t = Return (KEY_ESC, s_scroll) /\ showing b u'
  else t = Next b /\ showing b u'.

Lemma goes_cases key p :
  bool_decide (goes key p <> None) = is_up key || is_down key || (key =? KEY_PPAGE) || (key =? KEY_NPAGE).
Proof. rewrite goes_eq. destruct (is_up key), (is_down key), (key =? KEY_PPAGE), (key =? KEY_NPAGE); done. Qed.

Lemma showing_drew b u u' : showing b u -> drew l (window u) u u' -> showing b u'.
Proof. intros [Hl Hg Hm Ho Hw] [_ I W]. split; [done..|]. by rewrite W. Qed.

Lemma finish_total {A} (r : A) b u :
  showing b u -> let p := Z.to_nat (pos (view_of b)) in
  total (item_set (scroll (view_of b) + choice (view_of b));; item_set_selected 1;; mret r)
    (fun t u' => t = r /\ frame u' = frame u /\ item_cur u' = At p /\ item_head u' = alter (with_selected 1) p l /\
                 window u' = window u) u.
Proof.
  intros [Hl Hg Hm [Hs He Hc] Hw] p. apply total_bind, item_set_total; [rewrite Hl; lia|].
  destruct (item_at (pos (view_of b)) ltac:(unfold pos; lia)) as [d Hd].
  unfold item_set_selected, mod_item. do 2 apply total_bind. apply total_get. cbn. rewrite Hl. change (scroll _ + choice _) with (pos (view_of b)).
  apply total_bind. eapply total_lift; [exact Hd|]. apply total_modify, total_ret. cbn. repeat split.
  apply list_eq. intros z. destruct (decide (z = p)) as [->|Hz].
  - rewrite list_lookup_insert_eq by (by eapply lookup_lt_Some). by rewrite list_lookup_alter_eq, (Hd : l !! p = Some d).
  - by rewrite list_lookup_insert_ne, list_lookup_alter_ne by done.
Qed.

Lemma step_total s_scroll b key rest u :
  showing b u -> events u = Got key :: rest -> folded key <> KEY_ESC -> folded key <> KEY_RESIZE ->
  total (step s_scroll b) (fun t u' => turned s_scroll (folded key) b t u' /\ frame u' = frame (set_events rest u)) u.
Proof.
  intros Hsh Hev Hesc Hres. unfold step, wgetch. do 2 apply total_bind. apply total_get. rewrite Hev.
  apply total_bind, total_modify, total_ret. fold (folded key). set (k := folded key) in *.
  set (u1 := set_events rest u). assert (Hsh1 : showing b u1) by (by destruct Hsh).
  pose proof Hsh1 as [Hl Hg Hm Ho Hw]. pose proof Ho as [Hs He Hc].
  apply total_bind. eapply total_mono; [apply find_hit_total; done|]. cbn beta. intros i u2 [-> D2].
  assert (Hsh2 : showing b u2) by (by eapply showing_drew). unfold item_count. do 2 apply total_bind. apply total_get, total_ret.
  rewrite (sh_items _ _ Hsh2), Hm. assert (Hcount : count <> 0) by lia. rewrite (proj2 (Z.eqb_neq count 0) Hcount). cbn [negb andb].
  unfold turned. rewrite goes_cases, !orb_assoc.
  assert (F2 : frame u2 = frame (set_events rest u)) by (apply D2).
  destruct (_ || is_up k || _ || _ || _) eqn:E.
  - apply total_bind. eapply total_mono; [apply move_total; [done|]|].
    + intros Hn. pose proof (goes_cases k (pos (view_of b))) as G. rewrite Hn, bool_decide_eq_false_2 in G by auto.
      pose proof (row_with_range k (scroll (view_of b)) (choice (view_of b)) Hc).
      symmetry in G. rewrite <- !orb_assoc in G. rewrite <- !orb_assoc, G, orb_false_r in E. lia.
    + cbn beta. intros v u3 (O3 & D3 & P3). apply total_ret. split; [|by rewrite (drew_frame _ _ _ _ D3)].
      exists v. split; [done|]. split; [|done]. by destruct D3.
  - destruct (_ || (k =? TAB) || _); [apply total_ret; split; [split; [done|by destruct Hsh2]|done]|]. fold (ends k). destruct (ends k).
    + eapply total_mono; [apply finish_total, Hsh2|]. cbn beta zeta. intros t u3 (-> & F3 & C3 & I3 & W3).
      by rewrite F3, W3, (sh_window _ _ Hsh2).
    + destruct (one_of "ex" k); [by apply total_ret|]. rewrite (proj2 (Z.eqb_neq _ _) Hesc), (proj2 (Z.eqb_neq _ _) Hres).
      by apply total_ret.
Qed.

(** *** Drawing it all *)

Lemma picture_nothing s c h : picture (item_row g) l s c 0 h = replicate h blank_row.
Proof.
  apply list_eq. intros z. rewrite picture_lookup. destruct (decide _).
  - rewrite lookup_replicate_2 by done. f_equal. unfold picture_row. destruct (l !! _); [|done].
    by rewrite (proj2 (Z.ltb_ge _ _)) by lia.
  - symmetry. apply lookup_replicate_None. lia.
Qed.
Lemma picture_grow s c n h d :
  0 <= s -> 0 <= n < Z.of_nat h -> l !! Z.to_nat (s + n) = Some d ->
  <[Z.to_nat n := item_row g (n =? c) d]> (picture (item_row g) l s c n h) = picture (item_row g) l s c (n + 1) h.
Proof.
  intros Hs Hn Hl. apply list_eq. intros z. rewrite picture_lookup. destruct (decide (z = Z.to_nat n)) as [->|Hz].
  - rewrite list_lookup_insert_eq by (rewrite picture_length; lia). rewrite decide_True by lia. unfold picture_row.
    rewrite Z2Nat.id, Hl by lia. by rewrite (proj2 (Z.ltb_lt _ _)) by lia.
  - rewrite list_lookup_insert_ne, picture_lookup by done. destruct (decide _); [|done]. f_equal. unfold picture_row.
    destruct (l !! _); [|done]. replace (Z.of_nat z <? n + 1) with (Z.of_nat z <? n); [done|]. lia.
Qed.

Lemma print_items_total s c n k u :
  0 <= s -> 0 <= k -> k + Z.of_nat n = mc -> s + mc <= count -> mc <= menu_height g ->
  item_head u = l -> window u = picture (item_row g) l s c k (Z.to_nat (menu_height g)) ->
  total (print_items g s c n k) (fun _ => drew l (rows s c) u) u.
Proof.
  revert k u. induction n as [|n IH]; intros k u Hs Hk Hn He Hh Hl Hw; cbn [print_items].
  { apply total_ret. replace mc with k by lia. done. }
  apply total_bind. destruct (item_at (s + k) ltac:(lia)) as [d Hd].
  eapply total_mono; [eapply print_item_total; [done|exact Hw|lia|exact Hd|lia]|]. cbn beta. intros _ u1 D1.
  rewrite picture_grow in D1 by lia || done.
  eapply total_mono; [apply IH; try apply D1; lia|]. cbn beta. intros _ u2 D2. by eapply drew_trans.
Qed.

Lemma foreach_nothing u : item_head u = l ->
  total (item_foreach (mret (None : option unit))) (fun _ => drew l (window u) u) u.
Proof.
  intros Hl. unfold item_foreach. apply total_bind, total_get.
  assert (H : forall n i u, item_head u = l -> total (foreach_from (mret (None : option unit)) n i) (fun _ => drew l (window u) u) u).
  { induction n as [|n IH]; intros i v Hv; cbn [foreach_from]; [apply total_bind, total_modify, total_ret; by split|].
    apply total_bind, total_modify, total_bind, total_ret. apply (total_mono _ _ _ _ (IH (S i) (set_cur (At i) v) Hv)).
    cbn beta. intros _ v' [? ? ?]. by split. }
  destruct (item_head u) as [|d t] eqn:E; [by apply total_ret; split; rewrite ?E|]. apply H. by rewrite E.
Qed.

Lemma default_choice_range sel i t c : let j := default_choice sel i t c in
  j = c \/ Z.of_nat i <= j < Z.of_nat (i + length t).
Proof.
  revert i c. induction t as [|d t IH]; intros i c; cbn [default_choice length]; [by left|].
  specialize (IH (S i) (if bool_decide (sel <> None) && bool_decide (sel = data d) then Z.of_nat i else c)).
  destruct (_ && _); cbn zeta in *; destruct IH as [-> | IH]; lia.
Qed.

Lemma start_view_ok c ss : 0 < mc -> 0 <= c < count ->
  let '(v, first) := start_view count mc c 0 ss in view_ok v /\ pos v = c /\ first = scroll v.
Proof.
  intros Hm Hc. unfold start_view. rewrite !Z.quot_div_nonneg by lia. pose proof (Z.div_mod mc 2 ltac:(lia)).
  pose proof (Z.mod_pos_bound mc 2 ltac:(lia)).
  destruct (_ && _) eqn:E; cbn [choice at_view]; [|clear E].
  - repeat (apply andb_true_iff in E as [E ?]). rewrite (proj2 (Z.leb_gt _ _)) by lia.
    repeat split; view_lia.
  - destruct (mc <=? c) eqn:E; [|repeat split; view_lia].
    destruct (count - mc / 2 <=? c) eqn:E'; repeat split; view_lia.
Qed.

Lemma draw_total sel ss b u :
  0 < mc -> layout (lines u) (columns u) = Some g -> item_head u = l -> choice (view_of b) = 0 -> first_item b = 0 ->
  total (draw sel ss b) (fun r u' => exists b', r = inl b' /\ showing b' u' /\ button b' = button b /\
    pos (view_of b') = default_choice sel 0 l 0 /\ frame u' = frame u) u.
Proof.
  intros Hm Hg Hl Hc Hf. unfold draw. apply total_bind, total_get. rewrite Hg, Hc, Hf, Hl.
  unfold item_count. do 2 apply total_bind. apply total_get, total_ret. rewrite Hl, <- mc_min.
  pose proof (default_choice_range sel 0 l 0) as R. cbn zeta in R.
  set (dc := default_choice sel 0 l 0) in *. pose proof (start_view_ok dc ss Hm ltac:(lia)) as V.
  apply total_bind. eapply total_mono; [by apply foreach_nothing|]. cbn beta. intros _ u1 D1.
  destruct (start_view _ _ _ _ _) as [v first]. destruct V as (Hv & Hp & ->). pose proof Hv as [Hs He Hc'].
  unfold newwin. apply total_bind, total_modify, total_bind.
  eapply total_mono; [apply print_items_total; try lia; [apply D1|cbn; by rewrite picture_nothing]|].
  cbn beta. intros _ u2 D2. apply total_ret. eexists. split; [done|]. split; [by destruct D2|].
  split; [done|]. split; [done|]. rewrite (drew_frame _ _ _ _ D2). by destruct D1.
Qed.

(** *** Runs *)

(** Keys that move the cursor (45 and 43 are the minus and the plus sign) or change
    the button, in a list without a window. *)
Definition navigation : list Z := [KEY_UP; KEY_DOWN; 45; 43; KEY_PPAGE; KEY_NPAGE; KEY_LEFT; KEY_RIGHT].
Definition walk (key : Z) (s : Z * Z) : Z * Z :=
  match goes key s.1 with Some p => (p, s.2) | None => (s.1, sideways key s.2) end.
Definition walks (ks : list Z) (s : Z * Z) : Z * Z := fold_left (fun s k => walk k s) ks s.

Ltac each_navigation H :=
  unfold navigation in H; repeat (apply elem_of_cons in H as [->|H]; [done|]); by apply elem_of_nil in H.
Lemma navigation_cases key : key ∈ navigation ->
  (exists f, forall p, goes key p = Some (f p)) \/
  256 <= key /\ (forall p, goes key p = None) /\ (key =? KEY_LEFT) || (key =? TAB) || (key =? KEY_RIGHT) = true.
Proof.
  intros H. unfold navigation in H.
  repeat (apply elem_of_cons in H as [->|H]; [first [by left; eexists|by right]|]). by apply elem_of_nil in H.
Qed.
Lemma walk_turned ss key b t u' :
  key ∈ navigation -> view_ok (view_of b) -> turned ss key b t u' ->
  exists b', t = Next b' /\ showing b' u' /\ (pos (view_of b'), button b') = walk key (pos (view_of b), button b).
Proof.
  intros Hk [Hs He Hc]. unfold turned, walk. cbn [fst snd].
  destruct (navigation_cases _ Hk) as [[f G]|(Hbig & G & Hside)]; rewrite G; cbn [default].
  - rewrite bool_decide_eq_true_2, orb_true_r by done. intros (v' & -> & S & P). eexists. split; [done|]. split; [done|].
    cbn. unfold id in P. by rewrite P.
  - rewrite row_with_none by (try done; intros i; pose proof (letter_small i); lia).
    rewrite Z.ltb_irrefl, bool_decide_eq_false_2, Hside by auto. cbn [orb].
    intros [-> S]. eexists. split; [done|]. by split.
Qed.

Lemma navigation_folded key : key ∈ navigation -> folded key = key /\ key <> KEY_ESC /\ key <> KEY_RESIZE.
Proof. intros H. each_navigation H. Qed.

(** What the menu leaves behind when the item [p] was chosen. *)
Record chosen (p s : Z) (rest : list event) (u u' : ui) : Prop := {
  ch_cur : item_cur u' = At (Z.to_nat p);
  ch_items : item_head u' = alter (with_selected 1) (Z.to_nat p) l;
  ch_window : window u' = rows s (p - s);
  ch_frame : frame u' = frame (set_events rest u);
  ch_range : 0 <= s <= p /\ p < s + mc <= count;
}.

Lemma loop_navigates sel ss rest ks n b u :
  (forall i, letter_at i <> code nl) -> Forall (fun k => k ∈ navigation) ks ->
  showing b u -> events u = (map Got ks ++ Got (code nl) :: rest)%list -> (length ks < n)%nat ->
  let '(p, r) := walks ks (pos (view_of b), button b) in
  total (event_loop (draw sel ss) (step ss) n true b) (fun '(v, s) u' => v = r /\ chosen p s rest u u') u.
Proof.
  intros Hnl. revert n b u. induction ks as [|key ks IH]; intros n b u Hks Hsh Hev Hn; (destruct n as [|n]; [cbn in Hn; lia|]).
  - cbn [walks fold_left]. cbn [event_loop]. apply total_bind, total_ret, total_bind.
    eapply total_mono; [by apply (step_total ss b (code nl) rest)|]. cbn beta. intros t u1 [T F].
    pose proof (sh_view _ _ Hsh) as Ho. pose proof Ho as [Hs He Hc].
    change (folded (code nl)) with (code nl) in T. unfold turned in T. rewrite row_with_none, Z.ltb_irrefl in T by done.
    change (goes (code nl) (pos (view_of b))) with (@None Z) in T. rewrite bool_decide_eq_false_2 in T by auto. cbn in T.
    destruct T as (-> & C & I & W). apply total_ret. split; [done|]. split; [done..| |done|unfold pos; lia].
    rewrite W. unfold pos. by replace (scroll _ + choice _ - scroll _) with (choice (view_of b)) by lia.
  - apply Forall_cons in Hks as [Hk Hks]. destruct (navigation_folded key Hk) as (Ek & N1 & N2).
    cbn [walks fold_left]. cbn [event_loop].
    pose proof (step_total ss b key (map Got ks ++ Got (code nl) :: rest)%list u Hsh Hev ltac:(by rewrite Ek) ltac:(by rewrite Ek)) as T.
    rewrite Ek in T. unfold total in T.
    destruct (step ss b u) as [t u1| |] eqn:E; [|done..]. destruct T as [T F].
    destruct (walk_turned _ _ _ _ _ Hk (sh_view _ _ Hsh) T) as (b' & -> & S' & W). rewrite <- W.
    specialize (IH n b' u1 Hks S' ltac:(by injection F) ltac:(cbn in Hn; lia)). cbn zeta in IH. unfold walks in IH.
    destruct (fold_left _ ks _) as [p r]. unfold total in *. unfold mbind, PM_bind. cbn. rewrite E.
    destruct (event_loop _ _ n true b' u1) as [[v s] u2| |]; [|done..]. destruct IH as [-> [C I Wd Fr R]].
    split; [done|]. split; [done..| |done]. rewrite Fr. unfold frame in *. cbn in F |- *. congruence.
Qed.

(** *** Any keys *)

Definition quiet (e : event) : Prop := match e with Got key => key <> KEY_RESIZE | Resized _ _ => False end.

(** No undefined behaviour, and the result satisfies [Q]; the run may wait for ever. *)
Definition safe {A} (m : LM A) (Q : A -> ui -> Prop) (u : ui) : Prop :=
  match m u with Ok a u' => Q a u' | Fault => False | NoFuel => True end.
Lemma keeps_safe_bind {A B} (m : LM A) (f : A -> LM B) Q u : safe m (fun a u' => safe (f a) Q u') u -> safe (m ≫= f) Q u.
Proof. unfold safe, mbind, PM_bind. by destruct (m u). Qed.
Lemma safe_mono {A} (m : LM A) (Q Q' : A -> ui -> Prop) u :
  safe m Q u -> (forall a u', Q a u' -> Q' a u') -> safe m Q' u.
Proof. unfold safe. destruct (m u); auto. Qed.
Lemma total_safe {A} (m : LM A) Q u : total m Q u -> safe m Q u.
Proof. unfold total, safe. by destruct (m u). Qed.
Lemma safe_run {A} (m : LM A) (Q : A -> ui -> Prop) u a u' : m u = Ok a u' -> Q a u' -> safe m Q u.
Proof. unfold safe. by intros ->. Qed.
Lemma safe_coming (Q : nat -> ui -> Prop) u : Q (S (length (events u))) u -> safe coming Q u.
Proof. done. Qed.

(** Only events were read. *)
Definition only_read (u u' : ui) : Prop := exists es, u' = set_events es u /\ Forall quiet es.
Lemma only_read_trans u u' u'' : only_read u u' -> only_read u' u'' -> only_read u u''.
Proof. intros (es & -> & _) (es' & -> & H). by exists es'. Qed.
Lemma only_read_quiet u u' : only_read u u' -> Forall quiet (events u').
Proof. by intros (es & -> & H). Qed.

Lemma wgetch_safe u : Forall quiet (events u) -> safe wgetch (fun key u' => key <> KEY_RESIZE /\ only_read u u' /\ events u = Got key :: events u') u.
Proof.
  intros H. unfold wgetch, safe, mbind, PM_bind. cbn. destruct (events u) as [|[key|h w] es]; [done| |]; apply Forall_cons in H as [Hk H]; [|done].
  cbn. split; [done|]. split; [by exists es|done].
Qed.
Lemma drain_safe n u : Forall quiet (events u) -> safe (drain n) (fun _ => only_read u) u.
Proof.
  revert u. induction n as [|n IH]; intros u H; cbn [drain]; [done|]. apply keeps_safe_bind.
  eapply safe_mono; [by apply wgetch_safe|]. cbn beta. intros key u1 (_ & R & _). destruct (_ =? ERR); [done|].
  eapply safe_mono; [by eapply IH, only_read_quiet|]. cbn beta. intros _ u2. by apply only_read_trans.
Qed.
Lemma on_key_esc_safe u : Forall quiet (events u) -> safe on_key_esc (fun _ => only_read u) u.
Proof.
  intros H. unfold on_key_esc. apply keeps_safe_bind. eapply safe_mono; [by apply wgetch_safe|]. cbn beta. intros key u1 (Hk & R1 & _).
  apply keeps_safe_bind. eapply safe_mono; [by eapply wgetch_safe, only_read_quiet|]. cbn beta. intros key2 u2 (_ & R2 & _).
  apply keeps_safe_bind, safe_coming, keeps_safe_bind. eapply safe_mono; [by eapply drain_safe, only_read_quiet|].
  cbn beta. intros _ u3 R3. assert (R : only_read u u3) by (do 2 (eapply only_read_trans; [eassumption|]); done).
  destruct (_ && (key2 =? ERR)); [done|]. destruct (_ && _); [|done]. unfold safe. cbn. destruct R as (es & -> & He).
  exists (Got key :: es). split; [done|]. by constructor.
Qed.

Lemma showing_only_read b u u' : showing b u -> only_read u u' -> showing b u'.
Proof. intros [] (es & -> & _). by split. Qed.
Lemma frame_only_read u u' u0 : only_read u u' -> (exists es, frame u = frame (set_events es u0)) ->
  exists es, frame u' = frame (set_events es u0).
Proof. intros (es & -> & _) (es0 & H). exists es. unfold frame in *. cbn in *. congruence. Qed.

(** An escape, of which the rest is read: the menu stays or is left. *)
Lemma step_esc ss b rest u :
  showing b u -> events u = Got KEY_ESC :: rest -> Forall quiet rest ->
  safe (step ss b) (fun t u' => Forall quiet (events u') /\ (exists es, frame u' = frame (set_events es u)) /\
    ((exists b', t = Next b' /\ showing b' u') \/ (t = Return (KEY_ESC, ss) /\ item_head u' = l))) u.
Proof.
  intros Hsh Hev Hq. unfold step. apply keeps_safe_bind. eapply safe_run; [by apply wgetch_got|]. cbn beta zeta.
  set (u1 := set_events rest u). assert (Hsh1 : showing b u1) by (by destruct Hsh).
  change (if _ && _ then lower_key KEY_ESC else KEY_ESC) with KEY_ESC.
  apply keeps_safe_bind, total_safe. eapply total_mono; [apply find_hit_total; by apply Hsh1|]. cbn beta. intros i u2 [Hi D2].
  assert (Hsh2 : showing b u2) by (by eapply showing_drew). pose proof (drew_frame _ _ _ _ D2) as F2.
  assert (Hq2 : Forall quiet (events u2)) by (injection F2 as -> _ _ _ _ _; done).
  assert (Hf2 : exists es, frame u2 = frame (set_events es u)) by (by exists rest).
  apply keeps_safe_bind. eapply safe_run; [done|]. rewrite (sh_items _ _ Hsh2), (sh_max _ _ Hsh), !orb_false_r.
  destruct (negb _ && _) eqn:E.
  - pose proof (row_with_range KEY_ESC (scroll (view_of b)) _ (vo_choice _ (sh_view _ _ Hsh))).
    apply keeps_safe_bind, total_safe. eapply total_mono; [apply move_total; [done|]|].
    + intros _. apply andb_true_iff in E as [_ E]. lia.
    + cbn beta. intros v u3 (O3 & D3 & _). unfold safe. cbn.
      pose proof (drew_frame _ _ _ _ D3) as F3. split; [by injection F3 as -> _ _ _ _ _|].
      split; [destruct Hf2 as [es Hes]; exists es; congruence|]. left. eexists. split; [done|]. by destruct Hsh2, D3.
  - apply keeps_safe_bind. eapply safe_mono; [by apply on_key_esc_safe|]. cbn beta. intros key u3 R3. unfold safe. cbn.
    split; [by eapply only_read_quiet|]. split; [by eapply frame_only_read|].
    destruct (key =? KEY_ESC); [right|left]; [split; [done|]|exists b; split; [done|]].
    + destruct R3 as (es & -> & _). apply Hsh2.
    + by eapply showing_only_read.
Qed.

(** How a turn goes on or ends, whatever the key. *)
Definition goes_well (ss : Z) (u : ui) (t : turn mbox (Z * Z)) (u' : ui) : Prop :=
  match t with
  | Next b => showing b u'
  | Return r => (r = (KEY_ESC, ss) /\ item_head u' = l) \/ exists p rest, chosen p r.2 rest u u'
  | Resize _ => False
  end.

Lemma turned_well ss key b t rest u u' :
  showing b u -> turned ss key b t u' -> frame u' = frame (set_events rest u) -> goes_well ss u t u'.
Proof.
  intros [_ _ _ [Hs He Hc] _] T F. unfold turned in T. destruct (_ || bool_decide _).
  { destruct T as (v' & -> & S & _). exact S. }
  destruct (_ || (key =? KEY_RIGHT)); [by destruct T as [-> S]|].
  destruct (ends key).
  - destruct T as (-> & C & I & W). right. exists (pos (view_of b)), rest. cbn [snd].
    split; [done..| |done|unfold pos; lia]. rewrite W. unfold pos.
    by replace (scroll _ + choice _ - scroll _) with (choice (view_of b)) by lia.
  - destruct (one_of _ _); destruct T as [-> S]; [left; split; [done|apply S]|exact S].
Qed.

Lemma step_safe ss b u :
  Forall quiet (events u) -> showing b u ->
  safe (step ss b) (fun t u' => Forall quiet (events u') /\ (exists es, frame u' = frame (set_events es u)) /\
    goes_well ss u t u') u.
Proof.
  intros Hq Hsh. destruct (events u) as [|[key|h w] rest] eqn:Hev.
  - unfold step, safe, mbind, PM_bind. by rewrite wgetch_none.
  - apply Forall_cons in Hq as [Hk Hq]. destruct (decide (folded key = KEY_ESC)) as [Esc|Nesc].
    + assert (key = KEY_ESC) as ->.
      { unfold folded, lower_key, KEY_ESC in *. repeat case_match; lia. }
      eapply safe_mono; [by eapply step_esc|]. cbn beta. intros t u' (H1 & H2 & [(b' & -> & S) | [-> I]]); [done|].
      split; [done|]. split; [done|]. by left.
    + apply total_safe. eapply total_mono; [apply (step_total ss b key rest); try done|].
      * change (key <> KEY_RESIZE) in Hk. unfold folded, lower_key, KEY_RESIZE in *. repeat case_match; lia.
      * cbn beta. intros t u' [T F]. split; [by injection F as -> _ _ _ _ _|]. split; [by exists rest|].
        by eapply turned_well.
  - apply Forall_cons in Hq as [[] _].
Qed.

Lemma chosen_frame p s rest u u0 u' : (exists es, frame u = frame (set_events es u0)) -> chosen p s rest u u' -> chosen p s rest u0 u'.
Proof.
  intros [es H] [C I W F R]. split; [done..| |done]. rewrite F. unfold frame in *. cbn in H |- *. congruence.
Qed.

Lemma loop_safe sel ss n b u :
  Forall quiet (events u) -> showing b u ->
  safe (event_loop (draw sel ss) (step ss) n true b) (fun r => goes_well ss u (Return r)) u.
Proof.
  revert b u. induction n as [|n IH]; intros b u Hq Hsh; [done|].
  cbn [event_loop]. apply keeps_safe_bind. eapply safe_run; [done|]. cbn beta iota. apply keeps_safe_bind.
  eapply safe_mono; [by apply step_safe|]. cbn beta. intros t u1 (Hq1 & Hf & G). destruct t as [b1|r|]; [|exact G|done].
  eapply safe_mono; [by apply IH|]. cbn beta. intros r u2 [Esc | (p & rest & C)]; [by left|right].
  exists p, rest. by eapply chosen_frame.
Qed.

Lemma letter_at_not z : z <> 0 -> Forall (fun d => letter d <> z) l -> forall i, letter_at i <> z.
Proof.
  intros Hz H i. unfold letter_at. destruct (l !! Z.to_nat i) as [d|] eqn:E; [|cbn; congruence].
  by apply (Forall_lookup_1 _ _ _ _ H E).
Qed.
Lemma mc_pos lines columns : layout lines columns = Some g -> l <> [] -> 0 < mc.
Proof.
  unfold layout, MENUBOX_HEIGTH_MIN, MENUBOX_WIDTH_MIN. destruct (_ || _) eqn:E; [done|]. intros [= <-] Hl.
  rewrite mc_min. cbn. destruct l; [done|]. cbn. lia.
Qed.

(** A dialog is drawn and run. *)
Lemma dialog_menu_run sel ss u :
  layout (lines u) (columns u) = Some g -> item_head u = l -> l <> [] ->
  exists b u1, showing b u1 /\ button b = 0 /\ pos (view_of b) = default_choice sel 0 l 0 /\ frame u1 = frame u /\
    dialog_menu sel ss u = event_loop (draw sel ss) (step ss) (S (length (events u))) true b u1.
Proof.
  intros Hg Hl Hn. pose proof (mc_pos _ _ Hg Hn) as Hm.
  pose proof (draw_total sel ss no_box u Hm Hg Hl eq_refl eq_refl) as D. apply total_Ok in D as (r & u1 & E & b & -> & S & B & P & F).
  exists b, u1. split; [done|]. split; [done|]. split; [done|]. split; [done|].
  unfold dialog_menu, dialog_loop. etransitivity; [by apply run_bind|]. cbn [event_loop].
  etransitivity; [by apply run_bind|]. done.
Qed.
End Menu.

Abbreviation page g l := (Z.min (Menubox.menu_height g) (Z.of_nat (length l))).

(** C15. Arrow, page and sign keys lead through the list as they would without a
    window, however it scrolls: up and minus a row back, down and plus a row on; the newline takes the item under the cursor, and the window
    is then the picture of its part of the list. *)
Theorem menu_navigates sel ss g ks rest u :
  Menubox.layout (lines u) (columns u) = Some g -> item_head u <> [] ->
  Forall (fun d => letter d <> code nl) (item_head u) -> Forall (fun k => k ∈ navigation) ks ->
  events u = (map Got ks ++ Got (code nl) :: rest)%list ->
  let l := item_head u in
  let '(p, r) := walks l (page g l) ks (Menubox.default_choice sel 0 l 0, 0) in
  exists s u', Menubox.dialog_menu sel ss u = Ok (r, s) u' /\ chosen l g (page g l) p s rest u u'.
Proof.
  intros Hg Hn Hnl Hks Hev l.
  destruct (dialog_menu_run l g (page g l) eq_refl sel ss u Hg eq_refl Hn) as (b & u1 & S & B & P & F & E).
  pose proof (loop_navigates l g (page g l) eq_refl sel ss rest ks (Datatypes.S (length (events u))) b u1
                (letter_at_not l (code nl) ltac:(discriminate) Hnl) Hks S) as L.
  assert (Hev1 : events u1 = events u) by (injection F as -> _ _ _ _ _; done). rewrite Hev1, Hev in L.
  specialize (L eq_refl). rewrite P, B in L. destruct (walks _ _ _ _) as [p r].
  apply total_Ok in L as ([v s] & u' & L & -> & C).
  - exists s, u'. split; [rewrite E, Hev; exact L|]. eapply chosen_frame, C. exists (events u1). unfold frame in *. cbn. congruence.
  - rewrite length_app, length_map. cbn. lia.
Qed.

(** C23. Whatever the keys, the menu stays in its list as long as the screen keeps its
    size: it is left, with the scroll position as it was, or the item under the
    cursor is marked, and the position saved fits the list. *)
Theorem menu_safe sel ss g u :
  Menubox.layout (lines u) (columns u) = Some g -> item_head u <> [] -> Forall quiet (events u) ->
  let l := item_head u in
  match Menubox.dialog_menu sel ss u with
  | Ok (r, s) u' =>
      (r = KEY_ESC /\ s = ss /\ item_head u' = l) \/ exists p rest, chosen l g (page g l) p s rest u u'
  | Fault => False
  | NoFuel => True
  end.
Proof.
  intros Hg Hn Hq l.
  destruct (dialog_menu_run l g (page g l) eq_refl sel ss u Hg eq_refl Hn) as (b & u1 & S & B & P & F & E).
  rewrite E. pose proof (loop_safe l g (page g l) eq_refl sel ss (Datatypes.S (length (events u))) b u1) as L.
  unfold safe in L. assert (Hev1 : events u1 = events u) by (injection F as -> _ _ _ _ _; done). rewrite Hev1 in L.
  specialize (L Hq S). destruct (event_loop _ _ _ _ _ _) as [[r s] u'| |]; [|done..].
  destruct L as [[[= -> ->] I] | (p & rest & C)]; [by left|right]. exists p, rest. eapply chosen_frame, C.
  exists (events u1). unfold frame in *. cbn. congruence.
Qed.

(** A menu of 32 items on the usual screen. *)
Definition demo_items : list dialog_item :=
  (fun i => {| str := "[ ] option " +:+ fmt_d (Z.of_nat i); tag := chr 116; data := Some (S i); selected := 0 |}) <$> seq 0 32.
Definition demo_ui (es : list event) (l : list dialog_item) : ui := {|
  events := es; lines := 24; columns := 80; item_head := l; item_cur := Null; item_nil := no_item;
  instr := replicate 2049 (chr 0); window := []; field := [] |}.

Lemma menu_navigates_witness :
  let u := demo_ui (map Got [KEY_NPAGE; 43; KEY_DOWN; 45; KEY_RIGHT] ++ [Got (code nl)])%list demo_items in
  exists g s u', Menubox.dialog_menu (Some 26%nat) 20 u = Ok (1, s) u' /\ chosen demo_items g 10 30 s [] u u'.
Proof.
  exists {| Menubox.menu_height := 10; Menubox.menu_width := 69; Menubox.item_x := 4 |}.
  apply (menu_navigates (Some 26%nat) 20 {| Menubox.menu_height := 10; Menubox.menu_width := 69; Menubox.item_x := 4 |}
           [KEY_NPAGE; 43; KEY_DOWN; 45; KEY_RIGHT] []); [reflexivity|discriminate| | |reflexivity].
  - apply (bool_decide_unpack _). vm_compute. exact I.
  - repeat constructor.
Defined.
Definition value_of {A} (o : outcome ui A) : option A := match o with Ok a _ => Some a | _ => None end.
Lemma menu_safe_witness :
  let u := demo_ui [Got KEY_ESC; Got 65; Got ERR; Got ERR; Got (code nl)] demo_items in
  exists g u' p rest, Menubox.dialog_menu None 0 u = Ok (0, 0) u' /\ chosen demo_items g 10 p 0 rest u u'.
Proof.
  intros u. exists {| Menubox.menu_height := 10; Menubox.menu_width := 69; Menubox.item_x := 4 |}.
  pose proof (menu_safe None 0 {| Menubox.menu_height := 10; Menubox.menu_width := 69; Menubox.item_x := 4 |} u
    eq_refl ltac:(discriminate) ltac:(repeat constructor; discriminate)) as H.
  assert (V : value_of (Menubox.dialog_menu None 0 u) = Some (0, 0)) by (vm_compute; reflexivity).
  destruct (Menubox.dialog_menu None 0 u) as [[r s] u'| |]; [|discriminate V..].
  injection V as -> ->. destruct H as [(H & _) | (p & rest & C)]; [discriminate H|].
  exists u', p, rest. split; [reflexivity|exact C].
Defined.

(** A screen that grows while the menu is open: the first item shown is remembered from
    the small screen, and items behind the last one are drawn. *)
Example menu_resized :
  Menubox.dialog_menu (Some 26%nat) 20 (demo_ui [Resized 60 80] demo_items) = Fault.
Proof. vm_compute. reflexivity. Qed.

(** ** The input line *)

Lemma code_chr z : 0 <= z < 256 -> code (chr z) = z.
Proof. intros H. unfold code, chr. rewrite Ascii.N_ascii_embedding by lia. lia. Qed.

Section Input.
Import Inputbox.
Open Scope list_scope.
Context (height width : Z).
Abbreviation w := (box_width width).
Hypothesis w_pos : 0 < w.

(** The array holds the text [s], the field shows it from [x] on. *)
Definition no_nul (s : list Ascii.ascii) : Prop := Forall (fun c => c <> chr 0) s.
Definition holds (s : list Ascii.ascii) (u : ui) : Prop := exists junk, instr u = s ++ chr 0 :: junk.
Definition blank : Ascii.ascii := " "%char.
Definition field_of (s : list Ascii.ascii) (x : Z) : list Ascii.ascii :=
  take (Z.to_nat w) (drop (Z.to_nat x) s ++ replicate (Z.to_nat w) blank).

(** The cursor in the text and in the field. *)
Record editing (s : list Ascii.ascii) (p : Z) (b : ibox) (u : ui) : Prop := {
  ed_size : length (instr u) = 2049%nat;
  ed_holds : holds s u;
  ed_text : no_nul s;
  ed_len : len b = Z.of_nat (length s);
  ed_pos : at_pos b = p /\ 0 <= p <= Z.of_nat (length s);
  ed_cursor : show_x b + input_x b = p /\ 0 <= show_x b /\ 0 <= input_x b < w;
  ed_field : field u = field_of s (show_x b);
}.

(** Only the array or the field is written. *)
Definition rest_of (u : ui) := (events u, lines u, columns u, item_head u, item_cur u, item_nil u, window u).

Lemma read_at_total s junk i c u Q :
  instr u = s ++ junk -> (s ++ junk) !! Z.to_nat i = Some c -> 0 <= i -> Q c u -> total (read_at i) Q u.
Proof.
  intros Hi Hc Hi0 HQ. unfold read_at. apply total_bind, total_get. rewrite (proj2 (Z.leb_le _ _)), Hi by done.
  by eapply total_lift.
Qed.
Lemma write_at_total i c (Q : unit -> ui -> Prop) u :
  0 <= i < Z.of_nat (length (instr u)) -> Q tt (set_instr (<[Z.to_nat i := c]> (instr u)) u) -> total (write_at i c) Q u.
Proof.
  intros Hi HQ. unfold write_at. apply total_bind. destruct (lookup_lt_is_Some_2 (instr u) (Z.to_nat i)) as [d Hd]; [lia|].
  eapply (read_at_total (instr u) []); rewrite ?app_nil_r; [done|exact Hd|lia|].
  apply total_bind, total_get, total_modify. exact HQ.
Qed.

Lemma set_instr_same l u : instr u = l -> u = set_instr l u.
Proof. destruct u. cbn. by intros ->. Qed.

(** Moving the characters behind a place down deletes the one there; moving them up
    leaves a place free. *)
Lemma shift_down_total n i a c d junk u :
  instr u = a ++ c :: d ++ junk -> length d = n -> i = Z.of_nat (length a) ->
  total (shift_down n i) (fun _ u' => exists c', u' = set_instr (a ++ d ++ c' :: junk) u) u.
Proof.
  revert i a c d u. induction n as [|n IH]; intros i a c d u Hu Hn Hi; cbn [shift_down].
  { destruct d; [|done]. apply total_ret. exists c. by apply set_instr_same. }
  destruct d as [|e d]; [done|]. apply total_bind.
  eapply (read_at_total (instr u) []); rewrite ?app_nil_r; [done| |lia|].
  { rewrite Hu, lookup_app_r by lia. by replace (Z.to_nat (i + 1) - length a)%nat with 1%nat by lia. }
  apply total_bind, write_at_total; [rewrite Hu, !length_app; cbn; lia|].
  eapply total_mono; [apply (IH (i + 1) (a ++ [e]) e d)|].
  - cbn. rewrite Hu. replace (Z.to_nat i) with (length a + 0)%nat by lia.
    by rewrite insert_app_r, <- app_assoc.
  - by injection Hn.
  - rewrite length_app. cbn. lia.
  - cbn beta. intros _ u' [c' ->]. exists c'. by rewrite <- app_assoc.
Qed.
Lemma shift_up_total n i a d x junk u :
  instr u = a ++ d ++ x :: junk -> length d = n -> i = Z.of_nat (length a + length d) ->
  total (shift_up n i) (fun _ u' => exists c', u' = set_instr (a ++ c' :: d ++ junk) u) u.
Proof.
  revert i d x junk u. induction n as [|n IH]; intros i d x junk u Hu Hn Hi; cbn [shift_up].
  { destruct d; [|done]. apply total_ret. exists x. by apply set_instr_same. }
  destruct d as [|e d _] using rev_ind; [done|]. rewrite length_app in Hn, Hi. cbn in Hn, Hi. apply total_bind.
  eapply (read_at_total (instr u) []); rewrite ?app_nil_r; [done| |lia|].
  { rewrite Hu, lookup_app_r by lia. replace (Z.to_nat (i - 1) - length a)%nat with (length d) by lia.
    by rewrite <- app_assoc, lookup_app_r, Nat.sub_diag by lia. }
  apply total_bind, write_at_total; [rewrite Hu, !length_app; cbn; lia|].
  eapply total_mono; [apply (IH (i - 1) d e (e :: junk))|].
  - cbn. rewrite Hu. replace (Z.to_nat i) with (length a + (length (d ++ [e]) + 0))%nat by (rewrite length_app; cbn; lia).
    by rewrite !insert_app_r, <- app_assoc.
  - lia.
  - lia.
  - cbn beta. intros _ u' [c' ->]. exists c'. by rewrite <- app_assoc.
Qed.

(** *** The field *)

Lemma field_lookup s x j : (j < Z.to_nat w)%nat ->
  field_of s x !! j = Some (default blank (s !! (Z.to_nat x + j)%nat)).
Proof.
  intros Hj. unfold field_of. rewrite lookup_take_lt by done.
  destruct (decide (Z.to_nat x + j < length s)%nat) as [H|H].
  - rewrite lookup_app_l, lookup_drop by (rewrite length_drop; lia).
    destruct (lookup_lt_is_Some_2 s _ H) as [c Hc]. by rewrite Hc.
  - rewrite lookup_app_r, length_drop by (rewrite length_drop; lia).
    rewrite lookup_replicate_2 by lia. by rewrite (lookup_ge_None_2 s) by lia.
Qed.
Lemma field_length s x : length (field_of s x) = Z.to_nat w.
Proof. unfold field_of. rewrite length_take, length_app, length_replicate. lia. Qed.

(** What a field must show for [print_field] to complete it from cell [i] on. *)
Record partly (s : list Ascii.ascii) (x i : Z) (f : list Ascii.ascii) : Prop := {
  pf_length : length f = Z.to_nat w;
  pf_done : forall j, (j < Z.to_nat i)%nat -> f !! j = field_of s x !! j;
  pf_blank : forall j, Z.of_nat (length s) - x < Z.of_nat j < w -> f !! j = Some blank;
}.

Lemma partly_all s x f : partly s x w f -> f = field_of s x.
Proof.
  intros [L D _]. apply list_eq. intros j. destruct (decide (j < Z.to_nat w)%nat); [by apply D|].
  rewrite !lookup_ge_None_2; [done|rewrite field_length|rewrite L]; lia.
Qed.
Lemma partly_next s x i f c :
  partly s x i f -> 0 <= i < w -> field_of s x !! Z.to_nat i = Some c ->
  partly s x (i + 1) (<[Z.to_nat i := c]> f).
Proof.
  intros [L D B] Hi Hc. split; [by rewrite length_insert| |]; intros j Hj.
  - destruct (decide (j = Z.to_nat i)) as [->|Hne].
    + by rewrite list_lookup_insert_eq by lia.
    + rewrite list_lookup_insert_ne by done. apply D. lia.
  - destruct (decide (j = Z.to_nat i)) as [->|Hne].
    + rewrite list_lookup_insert_eq by lia. rewrite <- Hc, field_lookup by lia. by rewrite lookup_ge_None_2 by lia.
    + rewrite list_lookup_insert_ne by done. by apply B.
Qed.
Lemma partly_blank s x i f : partly s x i f -> 0 <= x -> Z.of_nat (length s) - x = i - 1 -> i <= w -> f = field_of s x.
Proof.
  intros [L D B] Hx Hi Hw. apply list_eq. intros j. destruct (decide (j < Z.to_nat w)%nat).
  - destruct (decide (j < Z.to_nat i)%nat); [by apply D|]. rewrite B, field_lookup by lia.
    by rewrite lookup_ge_None_2 by lia.
  - rewrite !lookup_ge_None_2; [done|rewrite field_length|rewrite L]; lia.
Qed.

Lemma print_field_total s x n i u :
  holds s u -> no_nul s -> 0 <= x <= Z.of_nat (length s) -> 0 <= i -> i + Z.of_nat n = w ->
  i <= Z.of_nat (length s) - x -> partly s x i (field u) ->
  total (print_field n i x) (fun _ u' => field u' = field_of s x /\ rest_of u' = rest_of u /\ instr u' = instr u) u.
Proof.
  intros [junk Hh] Hs Hx. revert i u Hh. induction n as [|n IH]; intros i u Hh Hi Hn Hv Hp; cbn [print_field].
  { apply total_ret. replace i with w in Hp by lia. split; [by apply partly_all|done]. }
  apply total_bind. destruct (decide (x + i < Z.of_nat (length s))) as [Hlt|Hge].
  - destruct (lookup_lt_is_Some_2 s (Z.to_nat (x + i))) as [c Hc]; [lia|].
    eapply read_at_total; [exact Hh|by rewrite lookup_app_l by lia|lia|].
    rewrite (proj2 (Ascii.eqb_neq c (chr 0)) (Forall_lookup_1 _ _ _ _ Hs Hc) : char_eqb c (chr 0) = false).
    unfold put_cell. do 2 apply total_bind. apply total_get, total_modify.
    eapply total_mono; [apply (IH (i + 1)); cbn; [done|lia..|]|cbn; done].
    apply partly_next; [done|lia|]. rewrite field_lookup by lia.
    by replace (Z.to_nat x + Z.to_nat i)%nat with (Z.to_nat (x + i)) by lia; rewrite Hc.
  - eapply read_at_total; [exact Hh| |lia|].
    { rewrite lookup_app_r by lia. by replace (Z.to_nat (x + i) - length s)%nat with 0%nat by lia. }
    rewrite char_eqb_refl. unfold put_cell. apply total_bind, total_get, total_modify. cbn. split; [|done].
    apply (partly_blank s x (i + 1)); [|lia..]. apply partly_next; [done|lia|]. rewrite field_lookup by lia.
    by rewrite lookup_ge_None_2 by lia.
Qed.

(** *** Editing *)

(** A text with a place in it, and what a key makes of them. *)
Definition edit (key : Z) (t : list Ascii.ascii * Z) : list Ascii.ascii * Z :=
  let '(s, p) := t in
  if (key =? KEY_BACKSPACE) || (key =? 127) then
    if p =? 0 then (s, p) else (take (Z.to_nat (p - 1)) s ++ drop (Z.to_nat p) s, p - 1)
  else if key =? KEY_LEFT then (s, Z.max (p - 1) 0)
  else if key =? KEY_RIGHT then (s, Z.min (p + 1) (Z.of_nat (length s)))
  else if Z.of_nat (length s) <? MAX_LEN then (take (Z.to_nat p) s ++ chr key :: drop (Z.to_nat p) s, p + 1)
  else (s, p).
Definition edits (ks : list Z) (t : list Ascii.ascii * Z) : list Ascii.ascii * Z := fold_left (fun t k => edit k t) ks t.
Definition editing_key (key : Z) : Prop := key ∈ [KEY_BACKSPACE; 127; KEY_LEFT; KEY_RIGHT] \/ 32 <= key <= 126.

Lemma redraw_total s s' x b u :
  holds s u -> no_nul s -> 0 <= show_x b <= Z.of_nat (length s) -> 0 <= x -> field u = field_of s' x ->
  Z.of_nat (length s') - x <= Z.of_nat (length s) - show_x b + 1 ->
  total (redraw width b) (fun b' u' => b' = b /\ field u' = field_of s (show_x b) /\ rest_of u' = rest_of u /\ instr u' = instr u) u.
Proof.
  intros Hh Hs Hb Hx Hf Hl. unfold redraw. apply total_bind.
  eapply total_mono; [apply (print_field_total s (show_x b)); try done; try lia|].
  - rewrite Hf. split; [apply field_length|lia|]. intros j Hj. rewrite field_lookup by lia.
    by rewrite lookup_ge_None_2 by lia.
  - cbn beta. by intros _ u' H.
Qed.

(** Writing behind a prefix of the array. *)
Lemma write_end_total s i c x junk (Q : unit -> ui -> Prop) u :
  instr u = s ++ c :: junk -> i = Z.of_nat (length s) -> Q tt (set_instr (s ++ x :: junk) u) -> total (write_at i x) Q u.
Proof.
  intros Hu -> HQ. apply write_at_total; [rewrite Hu, length_app; cbn; lia|]. rewrite Hu.
  replace (Z.to_nat (Z.of_nat (length s))) with (length s + 0)%nat by lia. by rewrite insert_app_r.
Qed.

Definition edited (b : ibox) (u : ui) (t : list Ascii.ascii * Z) (b' : ibox) (u' : ui) : Prop :=
  editing t.1 t.2 b' u' /\ rest_of u' = rest_of u /\ button b' = button b.

(** A field redrawn from a text that the array holds. *)
Lemma redraw_edited s p b b' s' x u u0 :
  length (instr u) = 2049%nat -> holds s u -> no_nul s -> len b' = Z.of_nat (length s) -> at_pos b' = p ->
  0 <= p <= Z.of_nat (length s) -> show_x b' + input_x b' = p -> 0 <= show_x b' -> 0 <= input_x b' < w ->
  0 <= x -> field u = field_of s' x -> Z.of_nat (length s') - x <= Z.of_nat (length s) - show_x b' + 1 ->
  rest_of u = rest_of u0 -> button b' = button b ->
  total (redraw width b') (edited b u0 (s, p)) u.
Proof.
  intros Hsz Hh Hs Hl Ha Hp Hc Hx0 Hi Hx Hf Hle Hr Hbt.
  eapply total_mono; [by apply (redraw_total s s' x); try done; lia|]. cbn beta. intros b1 u' (-> & F & R & I).
  split; [|by rewrite R]. split; cbn [fst snd]; [by rewrite I|unfold holds; by rewrite I|done..].
Qed.

Lemma no_nul_take s n : no_nul s -> no_nul (take n s).
Proof. apply Forall_take. Qed.
Lemma no_nul_drop s n : no_nul s -> no_nul (drop n s).
Proof. apply Forall_drop. Qed.

Lemma backspace_total s p b u : editing s p b u -> total (backspace width b) (edited b u (edit KEY_BACKSPACE (s, p))) u.
Proof.
  intros E. pose proof E as [Hsz [junk Hh] Hs Hl [Ha Hp] (Hc & Hx & Hi) Hf]. unfold backspace. rewrite Ha. cbn [edit].
  change ((KEY_BACKSPACE =? KEY_BACKSPACE) || _) with true. cbn iota.
  destruct (Z.eqb_spec p 0) as [->|Hp0]; [by apply total_ret|].
  set (s1 := take (Z.to_nat (p - 1)) s). set (s2 := drop (Z.to_nat p) s).
  assert (Hlen : length (s1 ++ s2) = (length s - 1)%nat) by (unfold s1, s2; rewrite length_app, length_take, length_drop; lia).
  destruct (lookup_lt_is_Some_2 s (Z.to_nat (p - 1))) as [c Hcs]; [lia|].
  assert (Hsplit : s = s1 ++ c :: s2).
  { unfold s1, s2. replace (Z.to_nat p) with (S (Z.to_nat (p - 1))) by lia. symmetry. by apply take_drop_middle. }
  destruct (if input_x b =? 0 then _ else _) as [x i] eqn:Exi.
  assert (Hxi : x + i = p - 1 /\ 0 <= x /\ 0 <= i < w /\ show_x b - 1 <= x <= show_x b).
  { destruct (Z.eqb_spec (input_x b) 0); injection Exi as <- <-; lia. }
  assert (Hj : (length s + 1 + length junk = 2049)%nat) by (rewrite <- Hsz, Hh, length_app; cbn; lia).
  apply total_bind. apply (total_mono _ (fun _ u' => exists y j, u' = set_instr ((s1 ++ s2) ++ y :: j) u /\
                                                       length j = S (length junk))).
  - rewrite Hl. destruct (Z.ltb_spec p (Z.of_nat (length s))) as [Hlt|Hge]; cbn [pwhen].
    + eapply total_mono; [apply (shift_down_total _ _ s1 c (s2 ++ [chr 0]) junk)|].
      * rewrite Hh, Hsplit at 1. by rewrite <- !app_assoc.
      * unfold s2. rewrite length_app, length_drop. cbn. lia.
      * unfold s1. rewrite length_take. lia.
      * cbn beta. intros _ u' [c' ->]. exists (chr 0), (c' :: junk). by rewrite <- !app_assoc.
    + apply total_ret. exists c, (chr 0 :: junk). split; [|done]. apply set_instr_same. rewrite Hh, Hsplit at 1.
      unfold s2. rewrite drop_ge by lia. by rewrite app_nil_r, <- app_assoc.
  - cbn beta. intros _ u1 (y & j & -> & Hlj).
    apply total_bind. eapply (write_end_total (s1 ++ s2)); [done|lia|].
    eapply (redraw_edited _ _ _ _ s (show_x b)); cbn; try done; try lia.
    + rewrite length_app. cbn. lia.
    + by exists j.
    + apply Forall_app. split; [by apply no_nul_take|by apply no_nul_drop].
Qed.

Lemma insert_total s p b key u : 32 <= key <= 126 ->
  editing s p b u -> total (insert width key b) (edited b u (edit key (s, p))) u.
Proof.
  intros Hk E. pose proof E as [Hsz [junk Hh] Hs Hl [Ha Hp] (Hc & Hx & Hi) Hf].
  unfold insert. rewrite Ha, Hl. cbn [edit].
  rewrite !(proj2 (Z.eqb_neq key _)) by (unfold KEY_BACKSPACE, KEY_LEFT, KEY_RIGHT; lia). cbn [orb].
  destruct (Z.ltb_spec (Z.of_nat (length s)) MAX_LEN) as [Hfull|Hfull]; [|by apply total_ret].
  set (s1 := take (Z.to_nat p) s). set (s2 := drop (Z.to_nat p) s).
  assert (Hsplit : s = s1 ++ s2) by (symmetry; apply take_drop).
  assert (H1 : length s1 = Z.to_nat p) by (unfold s1; rewrite length_take; lia).
  assert (H2 : length s2 = (length s - Z.to_nat p)%nat) by (unfold s2; by rewrite length_drop).
  assert (Hj : (length s + 1 + length junk = 2049)%nat) by (rewrite <- Hsz, Hh, length_app; cbn; lia).
  unfold MAX_LEN in Hfull. destruct junk as [|y junk]; [cbn in Hj; lia|].
  apply total_bind. apply (total_mono _ (fun _ u' => u' = set_instr ((s1 ++ chr key :: s2) ++ y :: junk) u)).
  - destruct (Z.ltb_spec p (Z.of_nat (length s))) as [Hlt|Hge].
    + apply total_bind. eapply total_mono; [apply (shift_up_total _ _ s1 s2 (chr 0) (y :: junk)); [|lia..]|].
      { by rewrite Hh, Hsplit, <- app_assoc at 1. }
      cbn beta. intros _ u1 [c' ->]. eapply (write_end_total s1); [done|lia|]. cbn. by rewrite <- app_assoc.
    + eapply write_end_total; [exact Hh|done|]. rewrite Hsplit. assert (E2 : s2 = []) by (apply length_zero_iff_nil; lia).
      by rewrite E2, app_nil_r, <- app_assoc.
  - cbn beta. intros _ u1 ->. apply total_bind. eapply (write_end_total (s1 ++ chr key :: s2)); [done|rewrite length_app; cbn; lia|].
    destruct (if input_x b =? box_width width - 1 then _ else _) as [x i] eqn:Exi.
    assert (Hxi : x + i = p + 1 /\ 0 <= x /\ 0 <= i < w /\ show_x b <= x <= show_x b + 1).
    { destruct (Z.eqb_spec (input_x b) (w - 1)); injection Exi as <- <-; lia. }
    assert (Hlen : length (s1 ++ chr key :: s2) = S (length s)) by (rewrite length_app; cbn; lia).
    eapply (redraw_edited _ _ _ _ s (show_x b)); cbn; try done; try lia.
    + rewrite length_app. cbn in *. lia.
    + by exists junk.
    + apply Forall_app. split; [by apply no_nul_take|]. constructor; [|by apply no_nul_drop].
      intros H. apply (f_equal code) in H. rewrite !code_chr in H by lia. lia.
Qed.

Lemma go_left_total s p b u : editing s p b u -> total (go_left width b) (edited b u (edit KEY_LEFT (s, p))) u.
Proof.
  intros E. pose proof E as [Hsz [junk Hh] Hs Hl [Ha Hp] (Hc & Hx & Hi) Hf].
  unfold go_left. rewrite Ha. change (edit KEY_LEFT (s, p)) with (s, Z.max (p - 1) 0).
  destruct (Z.ltb_spec 0 p) as [H0|H0].
  - replace (Z.max (p - 1) 0) with (p - 1) by lia. destruct (Z.ltb_spec 0 (input_x b)) as [Hx0|Hx0].
    + apply total_ret. split; [|done]. split; cbn; [done|by exists junk|done..|lia|lia|done].
    + destruct (Z.eqb_spec (input_x b) 0); [|lia].
      eapply (redraw_edited _ _ _ _ s (show_x b)); cbn; try done; try lia. by exists junk.
  - apply total_ret. replace (Z.max (p - 1) 0) with p by lia. by split.
Qed.
Lemma go_right_total s p b u : editing s p b u -> total (go_right width b) (edited b u (edit KEY_RIGHT (s, p))) u.
Proof.
  intros E. pose proof E as [Hsz [junk Hh] Hs Hl [Ha Hp] (Hc & Hx & Hi) Hf].
  unfold go_right. rewrite Ha, Hl. change (edit KEY_RIGHT (s, p)) with (s, Z.min (p + 1) (Z.of_nat (length s))).
  destruct (Z.ltb_spec p (Z.of_nat (length s))) as [H0|H0].
  - replace (Z.min (p + 1) _) with (p + 1) by lia. destruct (Z.ltb_spec (input_x b) (w - 1)) as [Hx0|Hx0].
    + apply total_ret. split; [|done]. split; cbn; [done|by exists junk|done..|lia|lia|done].
    + destruct (Z.eqb_spec (input_x b) (w - 1)); [|lia].
      eapply (redraw_edited _ _ _ _ s (show_x b)); cbn; try done; try lia. by exists junk.
  - apply total_ret. replace (Z.min (p + 1) _) with p by lia. by split.
Qed.

Lemma line_key_total s p b key u : editing_key key -> editing s p b u ->
  exists m, line_key width key b = Some m /\ total m (edited b u (edit key (s, p))) u.
Proof.
  intros [Hk|Hk] E.
  - repeat (apply elem_of_cons in Hk as [->|Hk]); [..|by apply elem_of_nil in Hk]; eexists; (split; [reflexivity|]).
    + by apply backspace_total.
    + by apply backspace_total.
    + by apply go_left_total.
    + by apply go_right_total.
  - exists (insert width key b). split; [|by apply insert_total]. unfold line_key, isprint.
    rewrite !(proj2 (Z.eqb_neq key _)) by (unfold TAB, KEY_UP, KEY_DOWN, KEY_BACKSPACE, KEY_LEFT, KEY_RIGHT; lia). cbn [orb].
    by rewrite (proj2 (Z.ltb_lt key 256)), (proj2 (Z.leb_le 32 key)), (proj2 (Z.leb_le key 126)) by lia.
Qed.

(** *** Runs *)

(** What the dialog leaves behind: the text [s], the field around the place [p]. *)
Record typed (s : list Ascii.ascii) (p : Z) (rest : list event) (u u' : ui) : Prop := {
  ty_size : length (instr u') = 2049%nat;
  ty_holds : holds s u';
  ty_text : no_nul s;
  ty_field : exists x, field u' = field_of s x /\ 0 <= x <= p /\ p < x + w;
  ty_rest : rest_of u' = rest_of (set_events rest u);
}.

Lemma copy_init_total init u :
  length (instr u) = 2049%nat -> Z.of_nat (String.length init) <= MAX_LEN ->
  total (copy_init init) (fun _ u' => exists l, u' = set_instr l u /\ length l = 2049%nat /\
    exists junk, l = String.list_ascii_of_string init ++ chr 0 :: junk) u.
Proof.
  unfold MAX_LEN. intros Hsz Hl. assert (Hn : length (String.list_ascii_of_string init) = String.length init).
  { clear. induction init as [|c t IH]; [done|]. cbn. by rewrite IH. }
  unfold copy_init. apply total_bind, total_get. rewrite Hsz, length_app, Hn. cbn [length].
  rewrite (proj2 (Nat.leb_le _ _)) by lia. apply total_modify. eexists. split; [done|]. split.
  - rewrite !length_app, length_drop, Hsz, Hn. cbn. lia.
  - eexists. by rewrite <- app_assoc.
Qed.

Lemma strlen_text s junk : no_nul s -> strlen (s ++ chr 0 :: junk) = Some (length s).
Proof.
  induction s as [|c s IH]; [done|]. intros [Hc Hs]%Forall_cons. cbn [app strlen].
  rewrite (proj2 (Ascii.eqb_neq c (chr 0)) Hc : char_eqb c (chr 0) = false). by rewrite IH.
Qed.

(** The characters of a text are put into the cells from [i] on. *)
Lemma print_chars_total s x n i u :
  holds s u -> 0 <= x -> x + i + Z.of_nat n <= Z.of_nat (length s) -> 0 <= i -> i + Z.of_nat n <= w ->
  partly s x i (field u) ->
  total (print_chars n i x) (fun _ u' => partly s x (i + Z.of_nat n) (field u') /\
    (forall j, i + Z.of_nat n <= Z.of_nat j -> field u' !! j = field u !! j) /\ rest_of u' = rest_of u /\ instr u' = instr u) u.
Proof.
  intros [junk Hh] Hx. revert i u Hh. induction n as [|n IH]; intros i u Hh Hn Hi Hw Hp; cbn [print_chars].
  { apply total_ret. by replace (i + Z.of_nat 0) with i by lia. }
  apply total_bind. destruct (lookup_lt_is_Some_2 s (Z.to_nat (x + i))) as [c Hc]; [lia|].
  eapply read_at_total; [exact Hh|by rewrite lookup_app_l by lia|lia|].
  unfold put_cell. do 2 apply total_bind. apply total_get, total_modify.
  replace (i + Z.of_nat (S n)) with (i + 1 + Z.of_nat n) by lia.
  eapply total_mono; [apply (IH (i + 1)); cbn; [done|lia..|]|].
  - apply partly_next; [done|lia|]. rewrite field_lookup by lia.
    by replace (Z.to_nat x + Z.to_nat i)%nat with (Z.to_nat (x + i)) by lia; rewrite Hc.
  - cbn. intros _ u' (P & K & R). split; [done|]. split; [|done]. intros j Hj. rewrite K by lia.
    by rewrite list_lookup_insert_ne by lia.
Qed.

Lemma completed s x i f : partly s x i f -> 0 <= x -> 0 <= i <= w -> Z.of_nat (length s) <= x + i ->
  (forall j, i <= Z.of_nat j < w -> f !! j = Some blank) -> f = field_of s x.
Proof.
  intros [L D B] Hx Hi Hl Hb. apply (partly_all s x). split; [done| |done]. intros j Hj.
  destruct (decide (j < Z.to_nat i)%nat); [by apply D|]. rewrite Hb, field_lookup by lia. by rewrite lookup_ge_None_2 by lia.
Qed.
Lemma draw_editing s b u :
  height - INPUTBOX_HEIGTH_MIN < lines u -> width - INPUTBOX_WIDTH_MIN < columns u ->
  length (instr u) = 2049%nat -> holds s u -> no_nul s ->
  total (draw height width b) (fun r u' => exists b', r = inl b' /\ editing s (Z.of_nat (length s)) b' u' /\
    button b' = button b /\ rest_of u' = rest_of u) u.
Proof.
  intros Hh Hw Hsz [junk Hi] Hs. unfold draw. apply total_bind, total_get.
  rewrite (proj2 (Z.leb_gt _ _)), (proj2 (Z.leb_gt _ _)) by lia. cbn [orb].
  apply total_bind, total_modify, total_bind. eapply total_lift; [rewrite Hi; by apply strlen_text|].
  set (u1 := set_field _ u). assert (Hp : forall x, 0 <= x -> partly s x 0 (field u1)).
  { intros x Hx. split; [cbn; by rewrite length_replicate|lia|]. intros j Hj. cbn. apply lookup_replicate_2. lia. }
  assert (Hblank : forall j, Z.of_nat j < w -> field u1 !! j = Some blank) by (intros j Hj; apply lookup_replicate_2; lia).
  destruct (Z.leb_spec w (Z.of_nat (length s))) as [Hlong|Hshort]; apply total_bind.
  - set (x := Z.of_nat (length s) - w + 1).
    eapply total_mono; [apply (print_chars_total s x _ 0 u1); try lia; [by exists junk|apply Hp; lia]|].
    cbn beta. intros _ u2 (P & K & R & I). apply total_ret. eexists. split; [done|].
    split; [|done]. split; cbn; rewrite ?I; try done; [exists junk; by rewrite I|lia|unfold x; lia|].
    by apply (completed s x (0 + Z.of_nat (Z.to_nat (w - 1)))); try (intros; rewrite K by lia; apply Hblank); try lia.
  - eapply total_mono; [apply (print_chars_total s 0 _ 0 u1); try lia; [by exists junk|apply Hp; lia]|].
    cbn beta. intros _ u2 (P & K & R & I). apply total_ret. eexists. split; [done|].
    split; [|done]. split; cbn; rewrite ?I; try done; [exists junk; by rewrite I|lia|lia|].
    by apply (completed s 0 (0 + Z.of_nat (length s))); try (intros; rewrite K by lia; apply Hblank); try lia.
Qed.

Lemma step_line s p b key rest u :
  editing s p b u -> button b = -1 -> editing_key key -> events u = Got key :: rest ->
  total (step width b) (fun t u' => exists b', t = Next b' /\ editing (edit key (s, p)).1 (edit key (s, p)).2 b' u' /\
    button b' = -1 /\ rest_of u' = rest_of (set_events rest u)) u.
Proof.
  intros E Hb Hk Hev. unfold step. apply total_bind. eapply total_run; [by apply wgetch_got|].
  rewrite Hb. assert (E1 : editing s p b (set_events rest u)) by (by destruct E).
  destruct (line_key_total s p b key _ Hk E1) as (m & Hm & T). change (-1 =? -1) with true. cbn iota. rewrite Hm.
  apply total_bind. eapply total_mono; [exact T|]. cbn beta. intros b' u' (E' & R & B). apply total_ret.
  exists b'. split; [done|]. split; [done|]. split; [congruence|done].
Qed.

Lemma loop_edits rest ks n s p b u :
  Forall editing_key ks -> editing s p b u -> button b = -1 ->
  events u = map Got ks ++ Got (code nl) :: rest -> (length ks < n)%nat ->
  let '(s', p') := edits ks (s, p) in
  total (event_loop (draw height width) (step width) n true b) (fun r u' => r = 0 /\ typed s' p' rest u u') u.
Proof.
  revert n s p b u. induction ks as [|key ks IH]; intros n s p b u Hks E Hb Hev Hn; (destruct n as [|n]; [cbn in Hn; lia|]).
  - cbn [edits fold_left event_loop]. apply total_bind, total_ret, total_bind. unfold step. apply total_bind.
    eapply total_run; [apply wgetch_got; exact Hev|]. rewrite Hb. change (-1 =? -1) with true. cbn iota.
    change (line_key width (code nl) b) with (@None (LM ibox)). cbn iota. unfold button_key.
    change (one_of "Oo" (code nl)) with false. change (one_of "Hh" (code nl)) with false. cbn [orb Z.eqb].
    rewrite Hb. apply total_ret, total_ret. split; [done|].
    destruct E as [Hsz Hh Hs Hl [Ha Hp] (Hc & Hx & Hi) Hf]. split; [done|done|done| |done].
    exists (show_x b). split; [done|]. lia.
  - apply Forall_cons in Hks as [Hk Hks]. cbn [edits fold_left event_loop].
    pose proof (step_line s p b key (map Got ks ++ Got (code nl) :: rest) u E Hb Hk Hev) as T.
    unfold edits in IH. destruct (edit key (s, p)) as [s1 p1] eqn:Eed. 
    destruct (fold_left _ ks (s1, p1)) as [s' p'] eqn:Efold.
    apply total_bind, total_ret, total_bind. eapply total_mono; [exact T|]. cbn beta. intros t u1 (b' & -> & E' & B' & R).
    specialize (IH n s1 p1 b' u1 Hks E' B' ltac:(by injection R) ltac:(cbn in Hn; lia)). rewrite Efold in IH.
    eapply total_mono; [exact IH|]. cbn beta. intros r u2 (-> & [Z1 Z2 Zn Z3 Z4]). split; [done|]. split; [done..|].
    rewrite Z4. unfold rest_of in *. cbn in R |- *. congruence.
Qed.
End Input.

(** The dialog from its start to the newline. *)
Lemma inputbox_runs height width init ks rest u :
  6 < width -> height - INPUTBOX_HEIGTH_MIN < lines u -> width - INPUTBOX_WIDTH_MIN < columns u ->
  length (instr u) = 2049%nat -> no_nul (String.list_ascii_of_string init) ->
  Z.of_nat (String.length init) <= MAX_LEN -> Forall editing_key ks ->
  events u = (map Got ks ++ Got (code nl) :: rest)%list ->
  let s := String.list_ascii_of_string init in
  let '(s', p) := edits ks (s, Z.of_nat (length s)) in
  exists u', Inputbox.dialog_inputbox height width init u = Ok 0 u' /\
    Inputbox.c_text (instr u') = String.string_of_list_ascii s' /\ typed width s' p rest u u'.
Proof.
  intros Hw Hh Hc Hsz Hs Hl Hks Hev s.
  assert (w_pos : 0 < Inputbox.box_width width) by (unfold Inputbox.box_width; lia).
  pose proof (copy_init_total init u Hsz Hl) as C. apply total_Ok in C as (? & u1 & E1 & l & -> & Hl1 & Hh1).
  set (b0 := {| Inputbox.button := -1; Inputbox.len := 0; Inputbox.at_pos := 0; Inputbox.show_x := 0; Inputbox.input_x := 0 |}).
  pose proof (draw_editing height width w_pos s b0 (set_instr l u) Hh Hc Hl1 Hh1 Hs) as D.
  apply total_Ok in D as (r & u2 & E2 & b & -> & Ed & Hb & R).
  pose proof (loop_edits height width w_pos rest ks (S (length (events u))) s _ b u2 Hks Ed Hb) as L.
  assert (Hev2 : events u2 = events u) by (by injection R). rewrite Hev2, Hev in L.
  specialize (L eq_refl ltac:(rewrite length_app, length_map; cbn; lia)).
  destruct (edits _ _) as [s' p]. apply total_Ok in L as (v & u3 & E3 & -> & [T1 T2 Tn T3 T4]).
  exists u3. split; [|split].
  - unfold Inputbox.dialog_inputbox. etransitivity; [by apply run_bind|]. unfold dialog_loop.
    etransitivity; [by apply run_bind|]. cbn [event_loop]. etransitivity; [by apply run_bind|]. cbn. rewrite Hev. exact E3.
  - destruct T2 as [junk ->]. unfold Inputbox.c_text. rewrite strlen_text by done. cbn. by rewrite take_app_length.
  - split; [done..|]. rewrite T4. unfold rest_of in *. cbn in R |- *. congruence.
Qed.

(** C21. What is typed into the line is what the editing keys make of the text it starts
    with, and the newline gives it back; the field shows the part around the cursor. *)
Theorem inputbox_edits height width init ks rest u :
  6 < width -> height - INPUTBOX_HEIGTH_MIN < lines u -> width - INPUTBOX_WIDTH_MIN < columns u ->
  length (instr u) = 2049%nat -> no_nul (String.list_ascii_of_string init) ->
  Z.of_nat (String.length init) <= MAX_LEN -> Forall editing_key ks ->
  events u = (map Got ks ++ Got (code nl) :: rest)%list ->
  let s := String.list_ascii_of_string init in
  let '(s', p) := edits ks (s, Z.of_nat (length s)) in
  exists u', Inputbox.dialog_inputbox height width init u = Ok 0 u' /\
    Inputbox.c_text (instr u') = String.string_of_list_ascii s' /\ typed width s' p rest u u'.
Proof. apply inputbox_runs. Qed.

Lemma inputbox_edits_witness :
  let u := demo_ui (map Got [KEY_LEFT; KEY_BACKSPACE; 88] ++ [Got (code nl)])%list [] in
  exists u', Inputbox.dialog_inputbox 10 75 "abc" u = Ok 0 u' /\ Inputbox.c_text (instr u') = "aXc".
Proof.
  assert (Hn : no_nul (String.list_ascii_of_string "abc")) by (apply (bool_decide_unpack _); vm_compute; exact I).
  assert (Hk : Forall editing_key [KEY_LEFT; KEY_BACKSPACE; 88]).
  { apply Forall_cons_2; [|apply Forall_cons_2; [|apply Forall_cons_2; [right; split; discriminate|constructor]]];
      left; apply (bool_decide_unpack _); vm_compute; exact I. }
  destruct (inputbox_edits 10 75 "abc" [KEY_LEFT; KEY_BACKSPACE; 88] []
    (demo_ui (map Got [KEY_LEFT; KEY_BACKSPACE; 88] ++ [Got (code nl)])%list [])
    eq_refl eq_refl eq_refl eq_refl Hn ltac:(discriminate) Hk eq_refl) as (u' & E & T & _).
  exists u'. split; [exact E|]. rewrite T. reflexivity.
Defined.
