(* ===== verification/Mconf.v ===== *)
(** The menu-driven front end of the configuration tool
    (src/buildroot/support/kconfig/mconf.c): the items of a menu, what its keys do to the
    symbols, the questions for texts and files, and the whole program.

    The state is the heap of KSym, the terminal of LxDialog and the globals of mconf.c.
    Messages are not translated.  [conf] and the loops that repeat a dialog run at most
    as often as they are told; a run that would go on, or waits for a key, is
    [NoFuel]. *)
From S2P Require Import Prelude CText KExpr KSym KConf KHelp KMenu KParse KScan KGrammar LxDialog.

(** ** Texts *)

Definition mconf_readme : string :=
  "Overview" +:+ NL
  +:+ "--------" +:+ NL
  +:+ "This interface lets you select features and parameters for the build." +:+ NL
  +:+ "Features can either be built-in, modularized, or ignored. Parameters" +:+ NL
  +:+ "must be entered in as decimal or hexadecimal numbers or text." +:+ NL
  +:+ NL
  +:+ "Menu items beginning with following braces represent features that" +:+ NL
  +:+ "  [ ] can be built in or removed" +:+ NL
  +:+ "  < > can be built in, modularized or removed" +:+ NL
  +:+ "  { } can be built in or modularized (selected by other feature)" +:+ NL
  +:+ "  - - are selected by other feature," +:+ NL
  +:+ "while *, M or whitespace inside braces means to build in, build as" +:+ NL
  +:+ "a module or to exclude the feature respectively." +:+ NL
  +:+ NL
  +:+ "To change any of these features, highlight it with the cursor" +:+ NL
  +:+ "keys and press <Y> to build it in, <M> to make it a module or" +:+ NL
  +:+ "<N> to remove it.  You may also press the <Space Bar> to cycle" +:+ NL
  +:+ "through the available options (i.e. Y->N->M->Y)." +:+ NL
  +:+ NL
  +:+ "Some additional keyboard hints:" +:+ NL
  +:+ NL
  +:+ "Menus" +:+ NL
  +:+ "----------" +:+ NL
  +:+ "o  Use the Up/Down arrow keys (cursor keys) to highlight the item you" +:+ NL
  +:+ "   wish to change or the submenu you wish to select and press <Enter>." +:+ NL
  +:+ "   Submenus are designated by " +:+ str1 quote +:+ "--->" +:+ str1 quote +:+ ", empty ones by " +:+ str1 quote +:+ "----" +:+ str1 quote +:+ "." +:+ NL
  +:+ NL
  +:+ "   Shortcut: Press the option's highlighted letter (hotkey)." +:+ NL
  +:+ "             Pressing a hotkey more than once will sequence" +:+ NL
  +:+ "             through all visible items which use that hotkey." +:+ NL
  +:+ NL
  +:+ "   You may also use the <PAGE UP> and <PAGE DOWN> keys to scroll" +:+ NL
  +:+ "   unseen options into view." +:+ NL
  +:+ NL
  +:+ "o  To exit a menu use the cursor keys to highlight the <Exit> button" +:+ NL
  +:+ "   and press <ENTER>." +:+ NL
  +:+ NL
  +:+ "   Shortcut: Press <ESC><ESC> or <E> or <X> if there is no hotkey" +:+ NL
  +:+ "             using those letters.  You may press a single <ESC>, but" +:+ NL
  +:+ "             there is a delayed response which you may find annoying." +:+ NL
  +:+ NL
  +:+ "   Also, the <TAB> and cursor keys will cycle between <Select>," +:+ NL
  +:+ "   <Exit>, <Help>, <Save>, and <Load>." +:+ NL
  +:+ NL
  +:+ "o  To get help with an item, use the cursor keys to highlight <Help>" +:+ NL
  +:+ "   and press <ENTER>." +:+ NL
  +:+ NL
  +:+ "   Shortcut: Press <H> or <?>." +:+ NL
  +:+ NL
  +:+ "o  To toggle the display of hidden options, press <Z>." +:+ NL
  +:+ NL
  +:+ NL
  +:+ "Radiolists  (Choice lists)" +:+ NL
  +:+ "-----------" +:+ NL
  +:+ "o  Use the cursor keys to select the option you wish to set and press" +:+ NL
  +:+ "   <S> or the <SPACE BAR>." +:+ NL
  +:+ NL
  +:+ "   Shortcut: Press the first letter of the option you wish to set then" +:+ NL
  +:+ "             press <S> or <SPACE BAR>." +:+ NL
  +:+ NL
  +:+ "o  To see available help for the item, use the cursor keys to highlight" +:+ NL
  +:+ "   <Help> and Press <ENTER>." +:+ NL
  +:+ NL
  +:+ "   Shortcut: Press <H> or <?>." +:+ NL
  +:+ NL
  +:+ "   Also, the <TAB> and cursor keys will cycle between <Select> and" +:+ NL
  +:+ "   <Help>" +:+ NL
  +:+ NL
  +:+ NL
  +:+ "Data Entry" +:+ NL
  +:+ "-----------" +:+ NL
  +:+ "o  Enter the requested information and press <ENTER>" +:+ NL
  +:+ "   If you are entering hexadecimal values, it is not necessary to" +:+ NL
  +:+ "   add the '0x' prefix to the entry." +:+ NL
  +:+ NL
  +:+ "o  For help, use the <TAB> or cursor keys to highlight the help option" +:+ NL
  +:+ "   and press <ENTER>.  You can try <TAB><H> as well." +:+ NL
  +:+ NL
  +:+ NL
  +:+ "Text Box    (Help Window)" +:+ NL
  +:+ "--------" +:+ NL
  +:+ "o  Use the cursor keys to scroll up/down/left/right.  The VI editor" +:+ NL
  +:+ "   keys h,j,k,l function here as do <u>, <d>, <SPACE BAR> and <B> for" +:+ NL
  +:+ "   those who are familiar with less and lynx." +:+ NL
  +:+ NL
  +:+ "o  Press <E>, <X>, <q>, <Enter> or <Esc><Esc> to exit." +:+ NL
  +:+ NL
  +:+ NL
  +:+ "Alternate Configuration Files" +:+ NL
  +:+ "-----------------------------" +:+ NL
  +:+ "Menuconfig supports the use of alternate configuration files for" +:+ NL
  +:+ "those who, for various reasons, find it necessary to switch" +:+ NL
  +:+ "between different configurations." +:+ NL
  +:+ NL
  +:+ "The <Save> button will let you save the current configuration to" +:+ NL
  +:+ "a file of your choosing.  Use the <Load> button to load a previously" +:+ NL
  +:+ "saved alternate configuration." +:+ NL
  +:+ NL
  +:+ "Even if you don't use alternate configuration files, but you find" +:+ NL
  +:+ "during a Menuconfig session that you have completely messed up your" +:+ NL
  +:+ "settings, you may use the <Load> button to restore your previously" +:+ NL
  +:+ "saved settings from " +:+ str1 quote +:+ ".config" +:+ str1 quote +:+ " without restarting Menuconfig." +:+ NL
  +:+ NL
  +:+ "Other information" +:+ NL
  +:+ "-----------------" +:+ NL
  +:+ "If you use Menuconfig in an XTERM window, make sure you have your" +:+ NL
  +:+ "$TERM variable set to point to an xterm definition which supports" +:+ NL
  +:+ "color.  Otherwise, Menuconfig will look rather bad.  Menuconfig will" +:+ NL
  +:+ "not display correctly in an RXVT window because rxvt displays only one" +:+ NL
  +:+ "intensity of color, bright." +:+ NL
  +:+ NL
  +:+ "Menuconfig will display larger menus on screens or xterms which are" +:+ NL
  +:+ "set to display more than the standard 25 row by 80 column geometry." +:+ NL
  +:+ "In order for this to work, the " +:+ str1 quote +:+ "stty size" +:+ str1 quote +:+ " command must be able to" +:+ NL
  +:+ "display the screen's current row and column geometry.  I STRONGLY" +:+ NL
  +:+ "RECOMMEND that you make sure you do NOT have the shell variables" +:+ NL
  +:+ "LINES and COLUMNS exported into your environment.  Some distributions" +:+ NL
  +:+ "export those variables via /etc/profile.  Some ncurses programs can" +:+ NL
  +:+ "become confused when those variables (LINES & COLUMNS) don't reflect" +:+ NL
  +:+ "the true screen size." +:+ NL
  +:+ NL
  +:+ "Optional personality available" +:+ NL
  +:+ "------------------------------" +:+ NL
  +:+ "If you prefer to have all of the options listed in a single menu," +:+ NL
  +:+ "rather than the default multimenu hierarchy, run the menuconfig with" +:+ NL
  +:+ "MENUCONFIG_MODE environment variable set to single_menu. Example:" +:+ NL
  +:+ NL
  +:+ "make MENUCONFIG_MODE=single_menu menuconfig" +:+ NL
  +:+ NL
  +:+ "<Enter> will then unroll the appropriate category, or enfold it if it" +:+ NL
  +:+ "is already unrolled." +:+ NL
  +:+ NL
  +:+ "Note that this mode can eventually be a little more CPU expensive" +:+ NL
  +:+ "(especially with a larger number of unrolled categories) than the" +:+ NL
  +:+ "default mode." +:+ NL
  +:+ NL
  +:+ "Different color themes available" +:+ NL
  +:+ "--------------------------------" +:+ NL
  +:+ "It is possible to select different color themes using the variable" +:+ NL
  +:+ "MENUCONFIG_COLOR. To select a theme use:" +:+ NL
  +:+ NL
  +:+ "make MENUCONFIG_COLOR=<theme> menuconfig" +:+ NL
  +:+ NL
  +:+ "Available themes are" +:+ NL
  +:+ " mono       => selects colors suitable for monochrome displays" +:+ NL
  +:+ " blackbg    => selects a color scheme with black background" +:+ NL
  +:+ " classic    => theme with blue background. The classic look" +:+ NL
  +:+ " bluetitle  => an LCD friendly version of classic. (default)" +:+ NL
  +:+ NL.
Definition setmod_text : string :=
  "This feature depends on another which has been configured as a module." +:+ NL
  +:+ "As a result, this feature will be built as a module.".
Definition load_config_help : string :=
  NL
  +:+ "For various reasons, one may wish to keep several different" +:+ NL
  +:+ "configurations available on a single machine." +:+ NL
  +:+ NL
  +:+ "If you have saved a previous configuration in a file other than the" +:+ NL
  +:+ "default one, entering its name here will allow you to modify that" +:+ NL
  +:+ "configuration." +:+ NL
  +:+ NL
  +:+ "If you are uncertain, then you have probably never used alternate" +:+ NL
  +:+ "configuration files. You should therefore leave this blank to abort." +:+ NL.
Definition save_config_help : string :=
  NL
  +:+ "For various reasons, one may wish to keep different configurations" +:+ NL
  +:+ "available on a single machine." +:+ NL
  +:+ NL
  +:+ "Entering a file name here will allow you to later retrieve, modify" +:+ NL
  +:+ "and use the current configuration as an alternate to whatever" +:+ NL
  +:+ "configuration options you have selected at that time." +:+ NL
  +:+ NL
  +:+ "If you are uncertain what all this means then you should probably" +:+ NL
  +:+ "leave this blank." +:+ NL.
Definition search_help : string :=
  NL
  +:+ "Search for symbols and display their relations." +:+ NL
  +:+ "Regular expressions are allowed." +:+ NL
  +:+ "Example: search for " +:+ str1 quote +:+ "^FOO" +:+ str1 quote +:+ NL
  +:+ "Result:" +:+ NL
  +:+ "-----------------------------------------------------------------" +:+ NL
  +:+ "Symbol: FOO [=m]" +:+ NL
  +:+ "Type  : tristate" +:+ NL
  +:+ "Prompt: Foo bus is used to drive the bar HW" +:+ NL
  +:+ "  Location:" +:+ NL
  +:+ "    -> Bus options (PCI, PCMCIA, EISA, ISA)" +:+ NL
  +:+ "      -> PCI support (PCI [=y])" +:+ NL
  +:+ "(1)     -> PCI access mode (<choice> [=y])" +:+ NL
  +:+ "  Defined at drivers/pci/Kconfig:47" +:+ NL
  +:+ "  Depends on: X86_LOCAL_APIC && X86_IO_APIC || IA64" +:+ NL
  +:+ "  Selects: LIBCRC32" +:+ NL
  +:+ "  Selected by: BAR [=n]" +:+ NL
  +:+ "-----------------------------------------------------------------" +:+ NL
  +:+ "o The line 'Type:' shows the type of the configuration option for" +:+ NL
  +:+ "  this symbol (boolean, tristate, string, ...)" +:+ NL
  +:+ "o The line 'Prompt:' shows the text used in the menu structure for" +:+ NL
  +:+ "  this symbol" +:+ NL
  +:+ "o The 'Defined at' line tells at what file / line number the symbol" +:+ NL
  +:+ "  is defined" +:+ NL
  +:+ "o The 'Depends on:' line tells what symbols need to be defined for" +:+ NL
  +:+ "  this symbol to be visible in the menu (selectable)" +:+ NL
  +:+ "o The 'Location:' lines tells where in the menu structure this symbol" +:+ NL
  +:+ "  is located" +:+ NL
  +:+ "    A location followed by a [=y] indicates that this is a" +:+ NL
  +:+ "    selectable menu item - and the current value is displayed inside" +:+ NL
  +:+ "    brackets." +:+ NL
  +:+ "    Press the key in the (#) prefix to jump directly to that" +:+ NL
  +:+ "    location. You will be returned to the current search results" +:+ NL
  +:+ "    after exiting this new menu." +:+ NL
  +:+ "o The 'Selects:' line tells what symbols will be automatically" +:+ NL
  +:+ "  selected if this symbol is selected (y or m)" +:+ NL
  +:+ "o The 'Selected by' line tells what symbol has selected this symbol" +:+ NL
  +:+ NL
  +:+ "Only relevant lines are shown." +:+ NL
  +:+ NL
  +:+ NL
  +:+ "Search examples:" +:+ NL
  +:+ "Examples: USB	=> find all symbols containing USB" +:+ NL
  +:+ "          ^USB => find all symbols starting with USB" +:+ NL
  +:+ "          USB$ => find all symbols ending with USB" +:+ NL
  +:+ NL.

(** ** State *)

(** [menu_data]: the entries whose [data] is set; [trail] and [subtitles]: the texts of
    the lists of these names. *)
Record mstate := {
  kst : kstate;
  tty : ui;
  indent : Z;
  current_menu : option menuref;
  child_count : Z;
  single_menu_mode : bool;
  show_all_options : bool;
  save_and_exit : bool;
  menu_data : list menuref;
  filename : string;
  menu_backtitle : string;
  trail : list (option string);
  subtitles : list string;
  stdout : string;
  stderr : string;
  files : list fsop;
}.
Definition set_kst (k : kstate) (st : mstate) : mstate :=
  {| kst := k; tty := tty st; indent := indent st; current_menu := current_menu st; child_count :=
     child_count st; single_menu_mode := single_menu_mode st; show_all_options := show_all_options
     st; save_and_exit := save_and_exit st; menu_data := menu_data st; filename := filename st;
     menu_backtitle := menu_backtitle st; trail := trail st; subtitles := subtitles st; stdout :=
     stdout st; stderr := stderr st; files := files st |}.
Definition set_tty (u : ui) (st : mstate) : mstate :=
  {| kst := kst st; tty := u; indent := indent st; current_menu := current_menu st; child_count :=
     child_count st; single_menu_mode := single_menu_mode st; show_all_options := show_all_options
     st; save_and_exit := save_and_exit st; menu_data := menu_data st; filename := filename st;
     menu_backtitle := menu_backtitle st; trail := trail st; subtitles := subtitles st; stdout :=
     stdout st; stderr := stderr st; files := files st |}.
Definition add_indent (n : Z) (st : mstate) : mstate :=
  {| kst := kst st; tty := tty st; indent := indent st + n; current_menu := current_menu st;
     child_count := child_count st; single_menu_mode := single_menu_mode st; show_all_options :=
     show_all_options st; save_and_exit := save_and_exit st; menu_data := menu_data st; filename :=
     filename st; menu_backtitle := menu_backtitle st; trail := trail st; subtitles := subtitles st;
     stdout := stdout st; stderr := stderr st; files := files st |}.
Definition set_menu (m : menuref) (st : mstate) : mstate :=
  {| kst := kst st; tty := tty st; indent := indent st; current_menu := Some m; child_count :=
     child_count st; single_menu_mode := single_menu_mode st; show_all_options := show_all_options
     st; save_and_exit := save_and_exit st; menu_data := menu_data st; filename := filename st;
     menu_backtitle := menu_backtitle st; trail := trail st; subtitles := subtitles st; stdout :=
     stdout st; stderr := stderr st; files := files st |}.
Definition count_child (st : mstate) : mstate :=
  {| kst := kst st; tty := tty st; indent := indent st; current_menu := current_menu st; child_count
     := child_count st + 1; single_menu_mode := single_menu_mode st; show_all_options :=
     show_all_options st; save_and_exit := save_and_exit st; menu_data := menu_data st; filename :=
     filename st; menu_backtitle := menu_backtitle st; trail := trail st; subtitles := subtitles st;
     stdout := stdout st; stderr := stderr st; files := files st |}.
Definition set_single (b : bool) (st : mstate) : mstate :=
  {| kst := kst st; tty := tty st; indent := indent st; current_menu := current_menu st; child_count
     := child_count st; single_menu_mode := b; show_all_options := show_all_options st;
     save_and_exit := save_and_exit st; menu_data := menu_data st; filename := filename st;
     menu_backtitle := menu_backtitle st; trail := trail st; subtitles := subtitles st; stdout :=
     stdout st; stderr := stderr st; files := files st |}.
Definition set_all (b : bool) (st : mstate) : mstate :=
  {| kst := kst st; tty := tty st; indent := indent st; current_menu := current_menu st; child_count
     := child_count st; single_menu_mode := single_menu_mode st; show_all_options := b;
     save_and_exit := save_and_exit st; menu_data := menu_data st; filename := filename st;
     menu_backtitle := menu_backtitle st; trail := trail st; subtitles := subtitles st; stdout :=
     stdout st; stderr := stderr st; files := files st |}.
Definition set_saving (st : mstate) : mstate :=
  {| kst := kst st; tty := tty st; indent := indent st; current_menu := current_menu st; child_count
     := child_count st; single_menu_mode := single_menu_mode st; show_all_options :=
     show_all_options st; save_and_exit := true; menu_data := menu_data st; filename := filename st;
     menu_backtitle := menu_backtitle st; trail := trail st; subtitles := subtitles st; stdout :=
     stdout st; stderr := stderr st; files := files st |}.
Definition set_data (l : list menuref) (st : mstate) : mstate :=
  {| kst := kst st; tty := tty st; indent := indent st; current_menu := current_menu st; child_count
     := child_count st; single_menu_mode := single_menu_mode st; show_all_options :=
     show_all_options st; save_and_exit := save_and_exit st; menu_data := l; filename := filename
     st; menu_backtitle := menu_backtitle st; trail := trail st; subtitles := subtitles st; stdout
     := stdout st; stderr := stderr st; files := files st |}.
Definition set_names (title file : string) (st : mstate) : mstate :=
  {| kst := kst st; tty := tty st; indent := indent st; current_menu := current_menu st; child_count
     := child_count st; single_menu_mode := single_menu_mode st; show_all_options :=
     show_all_options st; save_and_exit := save_and_exit st; menu_data := menu_data st; filename :=
     file; menu_backtitle := title; trail := trail st; subtitles := subtitles st; stdout := stdout
     st; stderr := stderr st; files := files st |}.
Definition set_trail (l : list (option string)) (st : mstate) : mstate :=
  {| kst := kst st; tty := tty st; indent := indent st; current_menu := current_menu st; child_count
     := child_count st; single_menu_mode := single_menu_mode st; show_all_options :=
     show_all_options st; save_and_exit := save_and_exit st; menu_data := menu_data st; filename :=
     filename st; menu_backtitle := menu_backtitle st; trail := l; subtitles := subtitles st; stdout
     := stdout st; stderr := stderr st; files := files st |}.
Definition set_subtitles (l : list string) (st : mstate) : mstate :=
  {| kst := kst st; tty := tty st; indent := indent st; current_menu := current_menu st; child_count
     := child_count st; single_menu_mode := single_menu_mode st; show_all_options :=
     show_all_options st; save_and_exit := save_and_exit st; menu_data := menu_data st; filename :=
     filename st; menu_backtitle := menu_backtitle st; trail := trail st; subtitles := l; stdout :=
     stdout st; stderr := stderr st; files := files st |}.
Definition add_out (t : string) (st : mstate) : mstate :=
  {| kst := kst st; tty := tty st; indent := indent st; current_menu := current_menu st; child_count
     := child_count st; single_menu_mode := single_menu_mode st; show_all_options :=
     show_all_options st; save_and_exit := save_and_exit st; menu_data := menu_data st; filename :=
     filename st; menu_backtitle := menu_backtitle st; trail := trail st; subtitles := subtitles st;
     stdout := stdout st +:+ t; stderr := stderr st; files := files st |}.
Definition add_err (t : string) (st : mstate) : mstate :=
  {| kst := kst st; tty := tty st; indent := indent st; current_menu := current_menu st; child_count
     := child_count st; single_menu_mode := single_menu_mode st; show_all_options :=
     show_all_options st; save_and_exit := save_and_exit st; menu_data := menu_data st; filename :=
     filename st; menu_backtitle := menu_backtitle st; trail := trail st; subtitles := subtitles st;
     stdout := stdout st; stderr := stderr st +:+ t; files := files st |}.
Definition add_files (l : list fsop) (st : mstate) : mstate :=
  {| kst := kst st; tty := tty st; indent := indent st; current_menu := current_menu st; child_count
     := child_count st; single_menu_mode := single_menu_mode st; show_all_options :=
     show_all_options st; save_and_exit := save_and_exit st; menu_data := menu_data st; filename :=
     filename st; menu_backtitle := menu_backtitle st; trail := trail st; subtitles := subtitles st;
     stdout := stdout st; stderr := stderr st; files := (files st ++ l)%list |}.

Abbreviation MM := (EM mstate).
(** A routine on the symbols and menus, and a dialog. *)
Definition kern {A} (m : KM A) : MM A := fun st =>
  match m (kst st) with Ok a k => Ok (Returned a) (set_kst k st) | Fault => Fault | NoFuel => NoFuel end.
Definition dialog {A} (m : LM A) : MM A := fun st =>
  match m (tty st) with Ok a u => Ok (Returned a) (set_tty u st) | Fault => Fault | NoFuel => NoFuel end.

Definition printf (t : string) : MM unit := emodify (add_out t).
Definition eprintf (t : string) : MM unit := emodify (add_err t).
(** [%s] of a null pointer. *)
Definition text_of (t : option string) : string := default "(null)" t.
Definition prompt_of (m : menuref) : MM string := t ← kern (menu_get_prompt m); mret (text_of t).
Definition the_menu (m : menuref) : MM menu := kern (get_menu m).
Definition menu_fuel : MM nat := st ← eget; mret (S (size (menus (kst st)))).

(** ** The headings *)

Definition PATH_MAX : nat := 4096.
Definition set_config_filename (config_filename : string) : MM unit :=
  e ← the_menu rootmenu;
  p ← kern (p ← plift (m_prompt e); prompt_prop p);
  emodify (set_names
    (String.substring 0 (PATH_MAX + 127) (config_filename +:+ " - " +:+ text_of (p_text p)))
    (String.substring 0 PATH_MAX config_filename)).
Definition set_subtitle : MM unit := st ← eget; emodify (set_subtitles (omap id (trail st))).
Definition reset_subtitle : MM unit := emodify (set_subtitles []).
(** [list_add_tail] and [list_del(trail.prev)] *)
Definition push_trail (t : option string) : MM unit := st ← eget; emodify (set_trail (trail st ++ [t])%list).
Definition pop_trail : MM unit := st ← eget; emodify (set_trail (removelast (trail st))).

(** ** The items of a menu *)

(** [%*c] of a blank: as wide as [n], and at least itself. *)
Definition pad (n : Z) : string := spaces (Z.max 1 n).
Definition mark_of (v : tristate) : string := match v with Tyes => "*" | Tmod => "M" | Tno => " " end.
Definition star_of (v : tristate) : string := match v with Tno => " " | _ => "*" end.

Definition make_item (text : string) : MM unit := dialog (item_make text).
Definition add_str (text : string) : MM unit := dialog (item_add_str text).
Definition tag_item (t : Ascii.ascii) (m : menuref) : MM unit := dialog (item_set_tag t);; dialog (item_set_data (Some m)).
Arguments tag_item _%_char _.

(** The entries below [m], each after the other. *)
Fixpoint each_entry (f : menuref -> MM unit) (n : nat) (c : option menuref) : MM unit :=
  match n, c with
  | _, None => mret tt
  | O, _ => enofuel
  | S n, Some c => f c;; e ← the_menu c; each_entry f n (m_next e)
  end.
(** From [conf_childs] on; [doint] more columns. *)
Definition conf_childs (build : menuref -> MM unit) (m : menuref) (doint : Z) : MM unit :=
  emodify (add_indent doint);;
  e ← the_menu m;
  k ← menu_fuel;
  each_entry build k (m_list e);;
  emodify (add_indent (- doint)).

(** The visible entry of the chosen symbol. *)
Fixpoint find_def (n : nat) (c : option menuref) (def_sym : sval) (def_menu : option menuref) : MM (option menuref) :=
  match n, c with
  | _, None => mret def_menu
  | O, _ => enofuel
  | S n, Some c =>
      v ← kern (visible_menu c);
      e ← the_menu c;
      let here := v && bool_decide (default VNull (VSym <$> m_sym e) = def_sym) in
      find_def n (m_next e) def_sym (if here then Some c else def_menu)
  end.

Definition empty_mark (m : menuref) : MM string := b ← kern (menu_is_empty m); mret (if b : bool then "----" else "--->").
Definition new_mark (y : symbol) : string := if sym_has_value y || negb (sym_is_changable y) then "" else " (NEW)".

(** An entry without a symbol; the result: whether its children follow, and how
    deep. *)
Definition build_plain (m : menuref) (p : option prompt_ref) : MM (option Z) :=
  st ← eget;
  match p with
  | Some p =>
      if bool_decide (current_menu st = Some m) then mret (Some 0)
      else
        prompt ← kern (menu_get_prompt m);
        q ← kern (prompt_prop p);
        match p_type q with
        | P_MENU =>
            emodify count_child;;
            let t := text_of prompt in
            let open := bool_decide (m ∈ menu_data st) in
            (if single_menu_mode st then make_item ((if open then "-->" else "++>") +:+ pad (indent st + 1) +:+ t)
             else e ← empty_mark m; make_item ("   " +:+ pad (indent st + 1) +:+ t +:+ "  " +:+ e));;
            tag_item "m" m;;
            mret (if single_menu_mode st && open then Some 2 else None)
        | P_COMMENT =>
            match prompt with
            | Some t => emodify count_child;; make_item ("   " +:+ pad (indent st + 1) +:+ "*** " +:+ t +:+ " ***");; tag_item ":" m
            | None => mret tt
            end;;
            mret (Some 2)
        | _ =>
            match prompt with
            | Some t => emodify count_child;; make_item ("---" +:+ pad (indent st + 1) +:+ t);; tag_item ":" m
            | None => mret tt
            end;;
            mret (Some 2)
        end
  | None => mret (Some 0)
  end.

(** The entry of a choice; the result as before. *)
Definition build_choice (build : menuref -> MM unit) (m : menuref) (s : symref) (ty : symbol_type) : MM (option Z) :=
  y ← kern (get_sym s);
  let def_sym := sym_get_choice_value y in
  emodify count_child;;
  e ← the_menu m;
  k ← menu_fuel;
  def_menu ← find_def k (m_list e) def_sym None;
  y ← kern (get_sym s);
  let val := sym_get_tristate_value y in
  (if sym_is_changable y then
     match ty with
     | S_BOOLEAN => make_item ("[" +:+ star_of val +:+ "]")
     | S_TRISTATE => make_item ("<" +:+ mark_of val +:+ ">")
     | _ => mret tt
     end;;
     tag_item "t" m
   else make_item "   ";; tag_item (match def_menu with Some _ => "t" | None => ":" end) m);;
  st ← eget;
  t ← prompt_of m;
  add_str (pad (indent st + 1) +:+ t);;
  if is_tri val Tyes then
    match def_menu with
    | Some d =>
        t ← prompt_of d;
        add_str (" (" +:+ t +:+ ")");;
        add_str "  --->";;
        e ← the_menu d;
        ewhen (bool_decide (m_list e <> None)) (emodify (add_indent 2);; build d;; emodify (add_indent (-2)))
    | None => mret tt
    end;;
    mret None
  else mret (Some 2).

(** The entry of another symbol. *)
Definition build_symbol (m : menuref) (s : symref) (ty : symbol_type) : MM (option Z) :=
  st ← eget;
  y ← kern (get_sym s);
  if bool_decide (current_menu st = Some m) then
    t ← prompt_of m;
    make_item ("---" +:+ pad (indent st + 1) +:+ t);; tag_item ":" m;;
    mret (Some 2)
  else
    emodify count_child;;
    let val := sym_get_tristate_value y in
    let last :=
      t ← prompt_of m;
      add_str (pad (indent st + 1) +:+ t +:+ new_mark y);;
      e ← the_menu m;
      q ← kern (p ← plift (m_prompt e); prompt_prop p);
      match p_type q with
      | P_MENU => x ← empty_mark m; add_str ("  " +:+ x);; mret None
      | _ => mret (Some 2)
      end in
    if sym_is_choice_value y && is_tri val Tyes then make_item "   ";; tag_item ":" m;; last
    else
      match ty with
      | S_BOOLEAN =>
          make_item (if sym_is_changable y then "[" +:+ star_of val +:+ "]" else "-" +:+ star_of val +:+ "-");;
          tag_item "t" m;; last
      | S_TRISTATE =>
          make_item (if sym_is_changable y then
                       if is_tri (rev_dep_tri y) Tmod then "{" +:+ mark_of val +:+ "}" else "<" +:+ mark_of val +:+ ">"
                     else "-" +:+ mark_of val +:+ "-");;
          tag_item "t" m;; last
      | _ =>
          v ← kern (sym_get_string_value s);
          make_item ("(" +:+ v +:+ ")");;
          let tmp := Z.max 0 (indent st - (2 + Z.of_nat (String.length v)) + 4) in
          t ← prompt_of m;
          y ← kern (get_sym s);
          add_str (pad tmp +:+ t +:+ new_mark y);;
          tag_item "s" m;;
          mret (Some 2)
      end.

(** [build_conf], with the entries nested at most [n] deep. *)
Fixpoint build_conf (n : nat) (m : menuref) : MM unit :=
  match n with
  | O => enofuel
  | S n =>
      v ← kern (visible_menu m);
      st ← eget;
      e ← the_menu m;
      if (if show_all_options st then negb (menu_has_prompt e) else negb v) then mret tt
      else
        r ← (match m_sym e with
             | None => build_plain m (m_prompt e)
             | Some s =>
                 ty ← kern (get_type s);
                 y ← kern (get_sym s);
                 if sym_is_choice y then build_choice (build_conf n) m s ty else build_symbol m s ty
             end);
        match r with Some doint => conf_childs (build_conf n) m doint | None => mret tt end
  end.

(** ** Texts, help and questions *)

Section Mconf.
Variable CONFIG_ : string.
Variable place : menuref -> string * Z.
Variable rounds : nat.

(** [while (1)]: until a round gives a value. *)
Fixpoint again {A} (n : nat) (body : MM (option A)) : MM A :=
  match n with
  | O => enofuel
  | S n => r ← body; match r with Some a => mret a | None => again n body end
  end.

Definition chars (t : string) : list Ascii.ascii := String.list_ascii_of_string t.
Definition show_textbox (text : string) (r c : Z) : MM unit :=
  dialog (Textbox.dialog_textbox None (fun _ : unit => []) r c (chars text) 0 0 tt);; mret tt.
Definition show_helptext (text : string) : MM unit := show_textbox text 0 0.
Definition conf_message_callback (text : string) : MM unit :=
  let text := String.substring 0 PATH_MAX text in
  st ← eget;
  if save_and_exit st then printf text else show_textbox text 6 60.
Definition show_help (m : menuref) : MM unit :=
  st ← eget;
  let help := {| gs_len := gs_len str_new; max_width := columns (tty st) - 10; gs_s := gs_s str_new |} in
  help ← kern (menu_get_ext_help CONFIG_ place m help);
  kern (menu_get_prompt m);;
  show_helptext (str_get help).

Definition entry_sym (m : menuref) : MM symref := e ← the_menu m; elift (m_sym e).
Definition input_result : MM string := dialog Inputbox.dialog_input_result.

(** *** Choices *)

(** The items of the entries from [c] on. *)
Fixpoint choice_items (n : nat) (c : option menuref) (cs : symref) (active : sval) : MM unit :=
  match n, c with
  | _, None => mret tt
  | O, _ => enofuel
  | S n, Some c =>
      v ← kern (visible_menu c);
      e ← the_menu c;
      (if v : bool then
         t ← prompt_of c;
         let sym := default VNull (VSym <$> m_sym e) in
         match m_sym e with
         | Some _ => make_item t
         | None => make_item ("*** " +:+ t +:+ " ***");; dialog (item_set_tag ":")
         end;;
         dialog (item_set_data (Some c));;
         ewhen (bool_decide (sym = active)) (dialog (item_set_selected 1));;
         y ← kern (get_sym cs);
         ewhen (bool_decide (sym = sym_get_choice_value y)) (dialog (item_set_tag "X"))
       else mret tt);;
      choice_items n (m_next e) cs active
  end.
(** The entry of the selected item. *)
Definition selected_entry : MM menuref := d ← dialog item_data; elift d.

Inductive choice_turn := Again (active : sval) | Done.
Definition choice_round (m : menuref) (active : sval) : MM choice_turn :=
  dialog item_reset;;
  emodify (set_menu m);;
  e ← the_menu m;
  k ← menu_fuel;
  cs ← entry_sym m;
  choice_items k (m_list e) cs active;;
  res ← dialog (Checklist.dialog_checklist MENUBOX_HEIGTH_MIN MENUBOX_WIDTH_MIN CHECKLIST_HEIGTH_MIN);
  selected ← dialog item_activate_selected;
  if res =? 0 then
    if selected : bool then
      c ← selected_entry;
      e ← the_menu c;
      match m_sym e with
      | None => mret (Again active)
      | Some s => kern (sym_set_tristate_value s Tyes);; mret Done
      end
    else mret Done
  else if res =? 1 then
    if selected : bool then
      c ← selected_entry;
      show_help c;;
      e ← the_menu c;
      mret (Again (default VNull (VSym <$> m_sym e)))
    else show_help m;; mret (Again active)
  else if (res =? KEY_ESC) || (res =? - ERRDISPLAYTOOSMALL) then mret Done
  else mret (Again active).
Fixpoint choice_rounds (n : nat) (m : menuref) (active : sval) : MM unit :=
  match n with
  | O => enofuel
  | S n => r ← choice_round m active; match r with Again a => choice_rounds n m a | Done => mret tt end
  end.
Definition conf_choice (m : menuref) : MM unit :=
  prompt_of m;;
  cs ← entry_sym m;
  y ← kern (get_sym cs);
  choice_rounds rounds m (sym_get_choice_value y).

(** *** Texts *)

Definition string_round (m : menuref) : MM (option unit) :=
  s ← entry_sym m;
  v ← kern (sym_get_string_value s);
  res ← dialog (Inputbox.dialog_inputbox 10 75 v);
  if res =? 0 then
    t ← input_result;
    ok ← kern (sym_set_string_value s t);
    if ok : bool then mret (Some tt) else show_textbox "You have made an invalid entry." 5 43;; mret None
  else if res =? 1 then show_help m;; mret None
  else if res =? KEY_ESC then mret (Some tt)
  else mret None.
Definition conf_string (m : menuref) : MM unit := again rounds (string_round m).

(** ** Files *)

Section Files.
Variable getenv : string -> option string.
(** The text of a file that can be opened, for reading a configuration. *)
Variable zconf_fopen : string -> option string.
Variable sym_defconfig_list : option symref.
Variable can_open : string -> bool.
Variable is_dir : string -> bool.
Variable can_rename : string -> string -> bool.
Variable pid : Z.

Definition load_round : MM (option unit) :=
  st ← eget;
  res ← dialog (Inputbox.dialog_inputbox 11 55 (filename st));
  if res =? 0 then
    t ← input_result;
    if String.eqb t "" then mret (Some tt)
    else
      ok ← kern (conf_read CONFIG_ getenv zconf_fopen sym_defconfig_list (Some t));
      if ok : bool then set_config_filename t;; kern (sym_set_change_count 1);; mret (Some tt)
      else show_textbox "File does not exist!" 5 38;; mret None
  else if res =? 1 then show_helptext load_config_help;; mret None
  else if res =? KEY_ESC then mret (Some tt)
  else mret None.
Definition conf_load : MM unit := again rounds load_round.

(** [conf_write], with the message it gives at its end; [false]: an error. *)
Definition write_config (nm : string) : MM bool :=
  t ← kern (menu_get_prompt rootmenu); t ← elift t;
  r ← kern (conf_write CONFIG_ getenv can_open is_dir can_rename t pid (Some nm));
  match r with
  | Some (ok, ops) =>
      emodify (add_files ops);;
      let '(dir, base) := split_name getenv is_dir nm in
      ewhen ok (conf_message_callback ("configuration written to " +:+ dir +:+ base));;
      mret ok
  | None => mret false
  end.

Definition save_round : MM (option unit) :=
  st ← eget;
  res ← dialog (Inputbox.dialog_inputbox 11 55 (filename st));
  if res =? 0 then
    t ← input_result;
    if String.eqb t "" then mret (Some tt)
    else
      ok ← write_config t;
      if ok : bool then set_config_filename t;; mret (Some tt)
      else show_textbox "Can't create file!  Probably a nonexistent directory." 5 60;; mret None
  else if res =? 1 then show_helptext save_config_help;; mret None
  else if res =? KEY_ESC then mret (Some tt)
  else mret None.
Definition conf_save : MM unit := again rounds save_round.

Definition end_text : string :=
  NL +:+ NL +:+ "*** End of the configuration." +:+ NL
  +:+ "*** Execute 'make' to start the build or try 'make help'." +:+ NL +:+ NL.
Definition not_saved : string := NL +:+ NL +:+ "Your configuration changes were NOT saved." +:+ NL +:+ NL.
Definition write_failed : string :=
  NL +:+ NL +:+ "Error while writing of the configuration." +:+ NL
  +:+ "Your configuration changes were NOT saved." +:+ NL +:+ NL.
Definition handle_exit : MM Z :=
  emodify set_saving;;
  reset_subtitle;;
  ch ← kern conf_get_changed;
  res ← (if ch : bool then dialog (Yesno.dialog_yesno 6 60) else mret (-1));
  if (res =? 0) || (res =? -1) then
    st ← eget;
    ok ← (if res =? 0 then write_config (filename st) else mret true);
    if ok : bool then printf end_text;; mret 0 else eprintf write_failed;; mret 1
  else eprintf not_saved;; mret (if res =? KEY_ESC then res else 0).

(** ** Searching *)

(** [regcomp] of an extended pattern without regard to case, and [regexec]: the first
    match of a text, as its ends. *)
Variable regcomp : string -> option (string -> option (Z * Z)).

Definition search_symbols (pattern : string) : KM (list symref) :=
  if String.eqb pattern "" then mret []
  else match regcomp pattern with None => mret [] | Some regexec => sym_re_search regexec pattern end.

Definition JUMP_NB : nat := 9.
(** The keys in view with their targets; [None]: the arrays were never written. *)
Abbreviation search_data := (option (list Z * list menuref)).
Definition overwrite (o : Z) (t : string) (buf : list Ascii.ascii) : list Ascii.ascii :=
  list_inserts (Z.to_nat o) (chars t) buf.
(** The places between [s] and [e] get the numbers of keys in front, the first nine of
    them. *)
Fixpoint update_places (s e : Z) (l : list jump_key) (buf : list Ascii.ascii) (keys : list Z) (targets : list menuref)
    : list Ascii.ascii * (list Z * list menuref) :=
  match l with
  | [] => (buf, (keys, targets))
  | j :: l =>
      match jk_offset j with
      | Some o =>
          if (s <=? o) && (o <? e) then
            if Nat.ltb (length keys) JUMP_NB then
              let key := 48 + Z.rem (jk_index j) (Z.of_nat JUMP_NB) + 1 in
              update_places s e l (overwrite o ("(" +:+ str1 (chr key) +:+ ")") buf) (keys ++ [key])%list
                (targets ++ [jk_target j])%list
            else update_places s e l (overwrite o "   " buf) keys targets
          else update_places s e l buf keys targets
      | None => update_places s e l buf keys targets
      end
  end.
Definition update_text (l : list jump_key) (buf : list Ascii.ascii) (s e : Z) (_ : search_data) : list Ascii.ascii * search_data :=
  let '(buf, d) := update_places s e l buf [] [] in (buf, Some d).
Definition search_keys (d : search_data) : list Z := match d with Some (keys, _) => keys | None => [] end.

(** [strncasecmp(input, CONFIG_, strlen(CONFIG_)) == 0]: behind the prefix. *)
Definition without_prefix (input : string) : string :=
  let n := String.length CONFIG_ in
  if String.eqb (string_map tolower (String.substring 0 n input)) (string_map tolower CONFIG_)
  then String.substring n (String.length input - n) input else input.

Section Conf.
Variable conf : menuref -> option menuref -> MM unit.

(** [for (i = 0; i < JUMP_NB && keys[i]; i++) if (dres == keys[i]) ...] *)
Fixpoint follow_keys (dres : Z) (l : list (Z * menuref)) : MM bool :=
  match l with
  | [] => mret false
  | (key, target) :: l =>
      if dres =? key then
        e ← the_menu target;
        p ← elift (m_parent e);
        conf p (Some target);;
        follow_keys dres l;;
        mret true
      else follow_keys dres l
  end.
(** [do ... while (again);] *)
Fixpoint show_results (n : nat) (syms : list symref) (vscroll hscroll : Z) : MM unit :=
  match n with
  | O => enofuel
  | S n =>
      '(res, head) ← kern (get_relations_str place syms (Some []));
      set_subtitle;;
      '(dres, vscroll, hscroll, d) ←
        dialog (Textbox.dialog_textbox (Some (update_text (default [] head))) search_keys 0 0
                  (chars (str_get res)) vscroll hscroll None);
      d ← elift d;
      again ← follow_keys dres (zip d.1 d.2);
      if again : bool then show_results n syms vscroll hscroll else mret tt
  end.

(** The input line for the pattern: [None] when it was left. *)
Definition search_round : MM (option (option string)) :=
  res ← dialog (Inputbox.dialog_inputbox 10 75 "");
  if res =? 0 then t ← input_result; mret (Some (Some t))
  else if res =? 1 then show_helptext search_help;; mret None
  else mret (Some None).
Definition search_conf : MM unit :=
  r ← again rounds search_round;
  match r with
  | None => mret tt
  | Some input =>
      push_trail (Some ("Search (" +:+ input +:+ ")"));;
      syms ← kern (search_symbols (without_prefix input));
      show_results rounds syms 0 0;;
      pop_trail
  end.

(** ** Menus *)

(** How a turn of [conf] ends: with the next one, for another default item and scroll
    position, or with the menu left. *)
Inductive menu_turn := Turn (active : option menuref) (s_scroll : Z) | Leave.

Definition prompt_type (m : menuref) : MM prop_type :=
  e ← the_menu m;
  q ← kern (p ← plift (m_prompt e); prompt_prop p);
  mret (p_type q).
Definition select_item (submenu : option menuref) (sym : option symref) : MM unit :=
  t ← dialog item_tag;
  if char_eqb t "m" then
    m ← elift submenu;
    st ← eget;
    if single_menu_mode st then
      emodify (set_data (if bool_decide (m ∈ menu_data st) then filter (fun x => x <> m) (menu_data st) else m :: menu_data st))
    else conf m None
  else if char_eqb t "t" then
    m ← elift submenu;
    s ← elift sym;
    y ← kern (get_sym s);
    if sym_is_choice y && is_tri (sym_get_tristate_value y) Tyes then conf_choice m
    else ty ← prompt_type m; ewhen (bool_decide (ty = P_MENU)) (conf m None)
  else if char_eqb t "s" then m ← elift submenu; conf_string m
  else mret tt.

(** What the value of the menu means. *)
Definition menu_action (res : Z) (submenu : option menuref) (sym : option symref) : MM unit :=
  if res =? 0 then select_item submenu sym
  else if res =? 2 then
    match sym with
    | Some _ => m ← elift submenu; show_help m
    | None => reset_subtitle;; show_helptext mconf_readme
    end
  else if res =? 3 then reset_subtitle;; conf_save
  else if res =? 4 then reset_subtitle;; conf_load
  else
    is_t ← dialog (item_is_tag "t");
    if res =? 5 then
      ewhen is_t
        (s ← elift sym;
         ok ← kern (sym_set_tristate_value s Tyes);
         if ok : bool then mret tt
         else ok ← kern (sym_set_tristate_value s Tmod); ewhen ok (show_textbox setmod_text 6 74))
    else if res =? 6 then ewhen is_t (s ← elift sym; kern (sym_set_tristate_value s Tno);; mret tt)
    else if res =? 7 then ewhen is_t (s ← elift sym; kern (sym_set_tristate_value s Tmod);; mret tt)
    else if res =? 8 then
      if is_t : bool then s ← elift sym; kern (sym_toggle_tristate_value s);; mret tt
      else
        is_m ← dialog (item_is_tag "m");
        ewhen is_m (m ← elift submenu; conf m None)
    else if res =? 9 then search_conf
    else if res =? 10 then st ← eget; emodify (set_all (negb (show_all_options st)))
    else mret tt.

Definition conf_turn (m : menuref) (active : option menuref) (s_scroll : Z) : MM menu_turn :=
  dialog item_reset;;
  emodify (set_menu m);;
  n ← menu_fuel;
  build_conf n m;;
  st ← eget;
  if child_count st =? 0 then mret Leave
  else
    set_subtitle;;
    '(res, s_scroll) ← dialog (Menubox.dialog_menu active s_scroll);
    if (res =? 1) || (res =? KEY_ESC) || (res =? - ERRDISPLAYTOOSMALL) then mret Leave
    else
      count ← dialog item_count;
      ready ← (if count =? 0 then mret true
               else
                 sel ← dialog item_activate_selected;
                 if sel : bool then t ← dialog item_tag; mret (negb (char_eqb t (chr 0))) else mret false);
      if negb ready then mret (Turn active s_scroll)
      else
        submenu ← dialog item_data;
        sym ← (match submenu with Some x => e ← the_menu x; mret (m_sym e) | None => mret None end);
        menu_action res submenu sym;;
        mret (Turn submenu s_scroll).
Fixpoint conf_turns (n : nat) (m : menuref) (active : option menuref) (s_scroll : Z) : MM unit :=
  match n with
  | O => enofuel
  | S n =>
      r ← conf_turn m active s_scroll;
      match r with Turn active s_scroll => conf_turns n m active s_scroll | Leave => mret tt end
  end.
Definition conf_body (m : menuref) (active : option menuref) : MM unit :=
  prompt_of m;;
  t ← (if bool_decide (m = rootmenu) then mret None else kern (menu_get_prompt m));
  push_trail t;;
  conf_turns rounds m active 0;;
  pop_trail.
End Conf.

(** [conf], with the menus opened from each other at most [n] deep. *)
Fixpoint conf (n : nat) (m : menuref) (active : option menuref) : MM unit :=
  match n with O => enofuel | S n => conf_body (conf n) m active end.
End Files.
End Mconf.

(** ** The program *)

Section Main.
Variable CONFIG_ : string.
Variable rounds : nat.
Variable getenv : string -> option string.
Variable release : string.
Variable fopen : string -> option string.
Variable reach : nat.
Variable can_open : string -> bool.
Variable is_dir : string -> bool.
Variable can_rename : string -> string -> bool.
Variable pid : Z.
Variable regcomp : string -> option (string -> option (Z * Z)).

Definition parse_file (nm : string) : MM gstate :=
  st ← eget;
  match conf_parse_file getenv fopen release reach nm (unparsed (kst st)) with
  | Ok r g =>
      printf (said (scn g));;
      emodify (set_kst (heap (pst g)));;
      match r with Returned _ => mret g | Exited n => eexit n end
  | Fault => efault
  | NoFuel => enofuel
  end.

(** [do conf(&rootmenu, NULL); while (res == KEY_ESC);] *)
Fixpoint sessions (conf : MM unit) (exit : MM Z) (n : nat) : MM Z :=
  match n with
  | O => enofuel
  | S n => conf;; res ← exit; if res =? KEY_ESC then sessions conf exit n else mret res
  end.

Definition single_menu (mode : option string) : bool :=
  match mode with Some t => String.eqb (string_map tolower t) "single_menu" | None => false end.
(** [main] behind [conf_parse]. *)
Definition run_parsed (parsed : gstate) : MM Z :=
  let zfopen := KGrammar.zconf_fopen getenv fopen in
  let deflist := sym_defconfig_list (pst parsed) in
  kern (conf_read CONFIG_ getenv zfopen deflist None);;
  ewhen (single_menu (getenv "MENUCONFIG_MODE")) (emodify (set_single true));;
  small ← dialog init_dialog;
  if negb (small =? 0) then
    eprintf ("Your display is too small to run Menuconfig!" +:+ NL);;
    eprintf ("It must be at least 19 lines by 80 columns." +:+ NL);;
    mret 1
  else
    set_config_filename (conf_get_configname getenv);;
    sessions
      (conf CONFIG_ (place_in parsed) rounds getenv zfopen deflist can_open is_dir can_rename pid regcomp rounds rootmenu None)
      (handle_exit CONFIG_ getenv can_open is_dir can_rename pid)
      rounds.
Definition mconf_main (file : string) : MM Z := parsed ← parse_file file; run_parsed parsed.
End Main.
