(* ===== verification/MconfFacts.v ===== *)
(** The menu-driven configuration tool: the items it lists for a menu. *)
From S2P Require Import Prelude CText KMenuDemo ConfAsk ConfDemo LxDialog LxDialogFacts KExpr KSym KSymFacts KSymKeep KConf KConfFacts KHelp KMenu KParse KMenuFacts KParseFacts KVisible Mconf.
Local Open Scope list_scope.

(** ** Triples *)

(** From the states of [P], [m] ends unless it follows a null pointer; it does not leave
    the program, and its end satisfies [Q]. *)
Definition does {A} (P : mstate -> Prop) (m : MM A) (Q : A -> mstate -> Prop) : Prop :=
  forall st, P st -> wp m (fun r st' => exists a, r = Returned a /\ Q a st') st.

Lemma does_bind {A B} P (m : MM A) R (f : A -> MM B) Q : does P m R -> (forall a, does (R a) (f a) Q) -> does P (m ≫= f) Q.
Proof.
  intros Hm Hf st Hst. specialize (Hm st Hst). unfold wp, mbind, EM_bind in *.
  destruct (m st) as [r st'| |]; [|done..]. destruct Hm as (a & -> & Ha). exact (Hf a st' Ha).
Qed.
Lemma does_ret {A} (P : mstate -> Prop) (a : A) Q : (forall st, P st -> Q a st) -> does P (mret a) Q.
Proof. intros H st Hst. exists a. split; [done|by apply H]. Qed.
Lemma does_mono {A} (P P' : mstate -> Prop) (m : MM A) (Q Q' : A -> mstate -> Prop) :
  does P' m Q' -> (forall st, P st -> P' st) -> (forall a st, Q' a st -> Q a st) -> does P m Q.
Proof. intros Hm HP HQ st Hst. eapply wp_mono; [by apply Hm, HP|]. intros r st' (a & -> & Ha). exists a. auto. Qed.
Lemma does_modify (P Q : mstate -> Prop) f : (forall st, P st -> Q (f st)) -> does P (emodify f) (fun _ => Q).
Proof. intros H st Hst. exists tt. split; [done|by apply H]. Qed.
Lemma does_get {B} (P : mstate -> Prop) (f : mstate -> MM B) Q : (forall st, does P (f st) Q) -> does P (eget ≫= f) Q.
Proof. intros H st Hst. exact (H st st Hst). Qed.
Lemma does_lift {A} (P : mstate -> Prop) (o : option A) Q : (forall a, o = Some a -> forall st, P st -> Q a st) -> does P (elift o) Q.
Proof. intros H st Hst. unfold wp, elift. destruct o as [a|]; [|done]. exists a. split; [done|by apply (H a)]. Qed.
Lemma does_dialog {A} (P : mstate -> Prop) (m : LM A) Q :
  (forall st, P st -> wp m (fun a u => Q a (set_tty u st)) (tty st)) -> does P (dialog m) Q.
Proof.
  intros H st Hst. specialize (H st Hst). unfold wp, dialog in *. destruct (m (tty st)); [|done..]. by eexists.
Qed.
Lemma does_pure {A} (P : mstate -> Prop) (phi : Prop) (m : MM A) Q : (phi -> does P m Q) -> does (fun st => P st /\ phi) m Q.
Proof. intros H st [Hst Hphi]. by apply H. Qed.

(** ** The list of items *)

(** What building the list leaves alone: the rest of the terminal, and the globals that
    are not counters. *)
Definition settings (st : mstate) :=
  ((events (tty st), (lines (tty st), columns (tty st)), (instr (tty st), window (tty st), field (tty st))),
   (current_menu st, single_menu_mode st, show_all_options st, save_and_exit st, menu_data st),
   (filename st, menu_backtitle st, trail st, subtitles st, stdout st, stderr st, files st)).

Section Items.
Context (sk : gmap menuref links) (fr : mstate) (i : Z).

(** The items stand for the entries [ns], the last of them is the current one, and
    nothing but the symbols, the count and the items has changed. *)
Record listing (ns : list (option menuref)) (st : mstate) : Prop := {
  li_pointers : pointers (kst st) = sk;
  li_items : data <$> item_head (tty st) = ns;
  li_cur : item_cur (tty st) = match ns with [] => Nil | _ => At (pred (length ns)) end;
  li_indent : indent st = i;
  li_settings : settings st = settings fr;
}.
(** The entries are some of [l], in this order, before those of [o]. *)
Definition shows (o : list (option menuref)) (l : list menuref) (st : mstate) : Prop :=
  exists ns, ns `sublist_of` l /\ listing ((Some <$> ns) ++ o) st.
Abbreviation within := (shows []).
(** Behind them is an item that stands for nothing yet. *)
Abbreviation adding := (shows [None]).

Lemma shows_mono o l l' st : l `sublist_of` l' -> shows o l st -> shows o l' st.
Proof. intros Hl (ns & Hn & H). exists ns. split; [by etrans|done]. Qed.
Lemma shows_step {A} o l (m : MM A) o' l' :
  (forall ns, ns `sublist_of` l -> exists ns', ns' `sublist_of` l' /\ does (listing ((Some <$> ns) ++ o)) m (fun _ => listing ((Some <$> ns') ++ o'))) ->
  does (shows o l) m (fun _ => shows o' l').
Proof.
  intros Hm st (ns & Hn & H). destruct (Hm ns Hn) as (ns' & Hn' & D). eapply wp_mono; [by apply D|].
  cbn beta. intros r st' (a & -> & H'). exists a. split; [done|]. by exists ns'.
Qed.

Lemma listing_kern {A} ns (m : KM A) : ends sk m -> does (listing ns) (kern m) (fun _ => listing ns).
Proof.
  intros Hm st [Hp Hi Hc Hd Hs]. specialize (Hm (kst st) Hp). unfold wp, kern in *.
  destruct (m (kst st)) as [a k| |]; [|done..]. exists a. split; [done|]. by split.
Qed.
Lemma shows_kern {A} o l (m : KM A) : ends sk m -> does (shows o l) (kern m) (fun _ => shows o l).
Proof. intros Hm. apply shows_step. intros ns Hn. exists ns. split; [done|by apply listing_kern]. Qed.

(** [item_make] behind the last item. *)
Lemma listing_make ns t : does (listing ns) (make_item t) (fun _ => listing (ns ++ [None])).
Proof.
  apply does_dialog. intros st [Hp Hi Hc Hd Hs]. unfold item_make. apply wp_bind, wp_get.
  destruct (item_head (tty st)) as [|d l] eqn:E; rewrite ?E in Hi.
  - cbn in Hi. subst ns. apply wp_bind, wp_modify, wp_modify. by split.
  - rewrite Hc. destruct ns as [|x ns]; [done|]. apply (f_equal length) in Hi as Hl. rewrite length_fmap in Hl. cbn [length pred] in *.
    apply wp_bind, wp_modify, wp_modify. rewrite take_ge; [|cbn; rewrite Hl; done]. split; cbn [tty set_tty item_head item_cur set_items set_cur]; try done.
    + rewrite fmap_app, Hi. done.
    + cbn. rewrite length_app. cbn. f_equal. lia.
Qed.
Lemma shows_make l t : does (within l) (make_item t) (fun _ => adding l).
Proof. apply shows_step. intros ns Hn. exists ns. split; [done|]. rewrite app_nil_r. apply listing_make. Qed.

(** A change of the current item. *)
Lemma listing_mod ns f (g : option menuref -> option menuref) : (forall d, data (f d) = g (data d)) ->
  does (listing ns) (dialog (mod_item f)) (fun _ => listing (alter g (pred (length ns)) ns)).
Proof.
  intros Hf. apply does_dialog. intros st [Hp Hi Hc Hd Hs]. unfold mod_item. apply wp_bind, wp_get. rewrite Hc.
  destruct ns as [|x ns].
  - apply wp_modify. by split.
  - apply wp_bind, wp_lift. intros d Ed. apply wp_modify. split; cbn [tty set_tty item_head item_cur set_items]; try done.
    + rewrite list_fmap_insert, Hi, Hf, list_insert_alter. eapply list_alter_ext; [|done].
      intros y Hy. apply (f_equal (fun l => l !! pred (length (x :: ns)))) in Hi.
      rewrite Hy, list_lookup_fmap, Ed in Hi. by injection Hi as <-.
    + destruct (alter g _ _) eqn:E; [by apply (f_equal length) in E; rewrite length_alter in E|].
      by rewrite <- E, length_alter.
Qed.
Lemma shows_mod o l f : (forall d, data (f d) = data d) -> does (shows o l) (dialog (mod_item f)) (fun _ => shows o l).
Proof.
  intros Hf. apply shows_step. intros ns Hn. exists ns. split; [done|].
  eapply does_mono; [apply (listing_mod ((Some <$> ns) ++ o) f id Hf)|done|]. intros a st H. by rewrite list_alter_id in H.
Qed.

(** The item made gets its entry; without one, that of the last item changes. *)
Lemma shows_tag l c m : does (adding l) (tag_item c m) (fun _ => within (l ++ [m])).
Proof.
  unfold tag_item. eapply does_bind; [by apply shows_mod with (f := with_tag c)|intros ?; cbn beta].
  apply shows_step. intros ns Hn. exists (ns ++ [m]). split; [by apply sublist_app|].
  eapply does_mono; [apply listing_mod with (f := with_data (Some m)) (g := fun _ => Some m); done|done|]. intros ? st H.
  rewrite length_app, length_fmap, alter_app_r_alt in H by (rewrite length_fmap; cbn; lia). rewrite length_fmap in H.
  replace (pred (length ns + length [None]) - length ns)%nat with 0%nat in H by (cbn; lia).
  by rewrite fmap_app, app_nil_r.
Qed.
Lemma shows_retag l c m : does (within l) (tag_item c m) (fun _ => within (l ++ [m])).
Proof.
  unfold tag_item. eapply does_bind; [by apply shows_mod with (f := with_tag c)|intros ?; cbn beta].
  apply shows_step. intros ns Hn. rewrite app_nil_r. destruct ns as [|x ns _] using rev_ind.
  - exists []. split; [by apply sublist_nil_l|]. eapply does_mono; [apply listing_mod with (f := with_data (Some m)) (g := fun _ => Some m); done|done..].
  - exists (ns ++ [m]). split.
    + apply sublist_app; [|done]. etrans; [|exact Hn]. by apply sublist_inserts_r.
    + eapply does_mono; [apply listing_mod with (f := with_data (Some m)) (g := fun _ => Some m); done|done|]. intros ? st H.
      rewrite fmap_app, length_app, !length_fmap, alter_app_r_alt in H by (rewrite !length_fmap; cbn; lia). rewrite length_fmap in H.
      replace (pred (length ns + length [x]) - length ns)%nat with 0%nat in H by (cbn; lia).
      by rewrite fmap_app, app_nil_r.
Qed.
End Items.

(** ** Reading the heap *)

Create HintDb ends discriminated.
Lemma ends_get_type sk s : ends sk (get_type s).
Proof. apply ends_settled, settled_bind; [apply settled_get_sym|intros]. apply settled_aside. quietly. Qed.
Lemma ends_get_sym sk s : ends sk (get_sym s).
Proof. apply ends_settled, settled_get_sym. Qed.
Lemma ends_prompt_prop sk (o : option prompt_ref) : ends sk (p ← plift o; prompt_prop p).
Proof. apply ends_settled, settled_bind; [apply settled_lift|intros; apply settled_prompt_prop]. Qed.
Lemma ends_prop sk p : ends sk (prompt_prop p).
Proof. apply ends_settled, settled_prompt_prop. Qed.
Lemma ends_get_prompt sk m : ends sk (menu_get_prompt m).
Proof. apply ends_settled, settled_aside. unfold menu_get_prompt, get_menu, get_sym, prompt_prop. quietly. Qed.
Lemma ends_string_value sk s : ends sk (sym_get_string_value s).
Proof. apply ends_settled, settled_string_value. Qed.
#[local] Hint Resolve ends_get_type ends_get_sym ends_prompt_prop ends_prop ends_get_prompt ends_string_value : ends.

Section Tree.
Context (sk : gmap menuref links) (F : forest).
Hypothesis tree : tree_of sk F.
Abbreviation entries := (rootmenu :: preorder F).

(** [c] is the forest below the entry [m]. *)
Record below (m : menuref) (c : forest) : Prop := {
  be_links : exists p x, sk !! m = Some (mkLinks p (first c) x);
  be_seg : seg sk (Some m) c None;
  be_nodup : NoDup (m :: preorder c);
  be_in : forall y, y ∈ m :: preorder c -> y ∈ entries;
}.

(** The entries right below a forest, each with the forest below it. *)
Fixpoint child_of (f : forest) (m : menuref) (c : forest) : Prop :=
  match f with Leaf => False | Entry m' c' r => (m = m' /\ c = c') \/ child_of r m c end.
Lemma child_sublist f m c : child_of f m c -> m :: preorder c `sublist_of` preorder f.
Proof.
  induction f as [|m' c' _ r IH]; [done|]. cbn. intros [[-> ->]|H].
  - by apply sublist_skip, sublist_inserts_r.
  - apply sublist_cons, sublist_inserts_l. by apply IH.
Qed.
Lemma child_depth f m c : child_of f m c -> (depth c < depth f)%nat.
Proof. induction f as [|m' c' _ r IH]; [done|]. cbn. intros [[-> ->]|H]; [lia|]. specialize (IH H). lia. Qed.
Lemma child_below m c f pp : child_of f m c -> seg sk pp f None -> NoDup (preorder f) -> (forall y, y ∈ preorder f -> y ∈ entries) ->
  below m c.
Proof.
  induction f as [|m' c' _ r IH]; [done|]. cbn [child_of seg preorder]. intros H (E & Hc & Hr) N Hin.
  apply NoDup_cons in N as [Nm N]. apply NoDup_app in N as (Nc & _ & Nr). destruct H as [[-> ->]|H].
  - split; [by eexists _, _|done| |].
    { apply NoDup_cons. split; [|done]. intros H. apply Nm, elem_of_app. by left. }
    intros y [->|Hy]%elem_of_cons; apply Hin; [by left|]. right. apply elem_of_app. by left.
  - apply IH; try done. intros y Hy. apply Hin. right. apply elem_of_app. by right.
Qed.
Lemma below_child m c d cd : below m c -> child_of c d cd -> below d cd.
Proof.
  intros [_ Hs [_ N]%NoDup_cons Hin] H. eapply child_below; [done..|]. intros y Hy. apply Hin. by right.
Qed.

Lemma below_size m c : below m c -> (length (preorder c) <= size sk)%nat.
Proof. intros [_ Hs [_ N]%NoDup_cons _]. by eapply seg_size. Qed.
Lemma visible_ends m c : below m c -> ends sk (visible_menu m).
Proof. intros B. eapply visible_menu_ends; [done|]. apply (be_in _ _ B). by left. Qed.
Lemma size_of k : pointers k = sk -> size (menus k) = size sk.
Proof. intros <-. unfold pointers. by rewrite map_size_fmap. Qed.

Lemma none_visible_ends f : forall n pp, (forall d cd, child_of f d cd -> below d cd) -> seg sk pp f None ->
  (length (preorder f) <= n)%nat -> ends sk (none_visible n (first f)).
Proof.
  induction f as [|m c _ r IH]; intros n pp Hb Hs Hn; [destruct n; apply ends_settled, settled_ret|].
  destruct Hs as (E & Hc & Hr). cbn [preorder length first] in *. rewrite length_app in Hn. destruct n as [|n]; [lia|]. cbn [none_visible].
  apply ends_bind; [apply (visible_ends m c), Hb; by left|]. intros [|]; [apply ends_settled, settled_ret|].
  eapply ends_get_menu; [exact E|]. intros e He. replace (m_next e) with (first r)
    by (apply (f_equal l_next) in He; cbn in He; by rewrite first_or_None in He).
  apply (IH n pp); [|done|lia]. intros d cd H. apply Hb. by right.
Qed.
Lemma empty_ends m c : below m c -> ends sk (menu_is_empty m).
Proof.
  intros B. destruct (be_links _ _ B) as (p & x & E). intros k Hk. unfold menu_is_empty. apply wp_bind, wp_get.
  eapply ends_get_menu; [exact E| |done]. intros e He. replace (m_list e) with (first c) by (by apply (f_equal l_list) in He).
  eapply none_visible_ends; [intros d cd; by apply (below_child m)|apply B|]. rewrite (size_of _ Hk).
  pose proof (below_size _ _ B). lia.
Qed.
(** *** Entries *)

Context (fr : mstate).
Abbreviation W i := (shows sk fr i []).
Abbreviation A i := (shows sk fr i [None]).

Lemma the_menu_does {T} m lk i o l (f : menu -> MM T) Q : sk !! m = Some lk ->
  (forall e, links_of e = lk -> does (shows sk fr i o l) (f e) Q) -> does (shows sk fr i o l) (the_menu m ≫= f) Q.
Proof.
  intros E Hf st Hst. unfold the_menu.
  eapply (does_bind _ _ (fun e st => shows sk fr i o l st /\ links_of e = lk)); [|intros e; apply does_pure, Hf|exact Hst].
  clear st Hst. intros st Hst. pose proof Hst as (ns & _ & H). assert (Hk := li_pointers _ _ _ _ _ H).
  pose proof (shows_kern sk fr i o l (get_menu m) (ends_settled _ _ (settled_get_menu m)) st Hst) as D.
  unfold wp, kern in *. destruct (get_menu m (kst st)) as [e k| |] eqn:Eg; [|done..]. destruct D as (a & [= <-] & D).
  exists e. split; [done|]. split; [done|].
  unfold get_menu, mbind, PM_bind, pget, plift in Eg. destruct (menus (kst st) !! m) as [e'|] eqn:Ee; [|done]. injection Eg as <- _.
  rewrite <- Hk in E. unfold pointers in E. rewrite lookup_fmap, Ee in E. by injection E.
Qed.
Lemma menu_fuel_does {T} i o l (f : nat -> MM T) Q : does (shows sk fr i o l) (f (S (size sk))) Q -> does (shows sk fr i o l) (menu_fuel ≫= f) Q.
Proof.
  intros Hf st Hst. pose proof Hst as (ns & _ & H). specialize (Hf st Hst). unfold wp, menu_fuel, mbind, EM_bind, eget in *. cbn.
  by rewrite (size_of _ (li_pointers _ _ _ _ _ H)).
Qed.
Lemma indent_does i o l d : does (shows sk fr i o l) (emodify (add_indent d)) (fun _ => shows sk fr (i + d) o l).
Proof. apply does_modify. intros st (ns & Hn & []). exists ns. split; [done|]. split; try done. cbn. lia. Qed.
Lemma count_does i o l : does (shows sk fr i o l) (emodify count_child) (fun _ => shows sk fr i o l).
Proof. apply does_modify. intros st (ns & Hn & []). exists ns. by split. Qed.
Lemma add_does i o l t : does (shows sk fr i o l) (add_str t) (fun _ => shows sk fr i o l).
Proof. by apply shows_mod. Qed.
Lemma prompt_does i o l m : does (shows sk fr i o l) (prompt_of m) (fun _ => shows sk fr i o l).
Proof. eapply does_bind; [apply shows_kern, ends_get_prompt|intros t; cbn beta]. by apply does_ret. Qed.
Lemma item_does i l t c m : does (W i l) (make_item t;; tag_item c m) (fun _ => W i (l ++ [m])).
Proof. eapply does_bind; [apply shows_make|intros ?; cbn beta]. apply shows_tag. Qed.
Lemma within_more i l l' st : W i l st -> W i (l ++ l') st.
Proof. apply shows_mono. by apply sublist_inserts_r. Qed.

(** The list of an entry is gone through by [build], which lists entries less than
    [d] deep. *)
Definition building (build : menuref -> MM unit) (d : nat) : Prop :=
  forall m c i l, below m c -> (depth c < d)%nat -> does (W i l) (build m) (fun _ => W i (l ++ m :: preorder c)).

Lemma each_does build d f : forall k i l pp, building build d -> (depth f <= d)%nat ->
  (forall m c, child_of f m c -> below m c) -> seg sk pp f None -> (length (preorder f) <= k)%nat ->
  does (W i l) (each_entry build k (first f)) (fun _ => W i (l ++ preorder f)).
Proof.
  induction f as [|m c _ r IH]; intros k i l pp Hb Hd Hin Hs Hk.
  { destruct k; apply does_ret; intros st; cbn [preorder]; by rewrite app_nil_r. }
  destruct Hs as (E & Hc & Hr). cbn [preorder length first depth] in *. rewrite length_app in Hk. destruct k as [|k]; [lia|].
  cbn [each_entry]. eapply does_bind; [apply (Hb m c); [apply Hin; by left|lia]|intros ?; cbn beta].
  eapply the_menu_does; [exact E|]. intros e He. replace (m_next e) with (first r)
    by (apply (f_equal l_next) in He; cbn in He; by rewrite first_or_None in He).
  replace (l ++ m :: preorder c ++ preorder r) with ((l ++ m :: preorder c) ++ preorder r) by (by rewrite <- app_assoc).
  apply (IH k i _ pp); [done|lia| |done|lia]. intros m' c' H. apply Hin. by right.
Qed.
Lemma childs_does build d m c i l n : building build d -> (depth c <= d)%nat -> below m c ->
  does (W i l) (conf_childs build m n) (fun _ => W i (l ++ preorder c)).
Proof.
  intros Hb Hd B. destruct (be_links _ _ B) as (p & x & E). unfold conf_childs.
  eapply does_bind; [apply indent_does|intros ?; cbn beta]. eapply the_menu_does; [exact E|]. intros e He.
  apply menu_fuel_does. replace (m_list e) with (first c) by (by apply (f_equal l_list) in He).
  eapply does_bind; [eapply each_does; [done|done|intros d' cd; by apply (below_child m)|apply B|]|intros ?; cbn beta].
  { pose proof (below_size _ _ B). lia. }
  eapply does_mono; [apply indent_does|done|]. cbn beta. intros ? st. by replace (i + n + - n) with i by lia.
Qed.

Lemma empty_does m c i o l : below m c -> does (shows sk fr i o l) (empty_mark m) (fun _ => shows sk fr i o l).
Proof. intros B. eapply does_bind; [by eapply shows_kern, empty_ends|intros t; cbn beta]. by apply does_ret. Qed.
Lemma plain_does m c i l p : below m c -> does (W i l) (build_plain m p) (fun _ => W i (l ++ [m])).
Proof.
  intros B. pose proof (within_more i l [m]) as More. unfold build_plain. apply does_get. intros st0. destruct p as [p|]; [|apply does_ret; exact More].
  destruct (bool_decide _); [apply does_ret; exact More|].
  eapply does_bind; [apply shows_kern, ends_get_prompt|intros t; cbn beta].
  eapply does_bind; [apply shows_kern, ends_prop|intros q; cbn beta].
  assert (Hitem : forall t0 (r : option Z), does (W i l) ((emodify count_child;; make_item t0;; tag_item ":" m);; mret r) (fun _ => W i (l ++ [m]))).
  { intros t0 r. eapply does_bind; [eapply does_bind; [apply count_does|intros ?; cbn beta; apply item_does]|intros ?; by apply does_ret]. }
  assert (Hnone : forall r : option Z, does (W i l) (mret tt;; mret r) (fun _ => W i (l ++ [m]))).
  { intros r. apply does_ret. exact More. }
  destruct (p_type q); try (destruct t; [apply Hitem|apply Hnone]).
  eapply does_bind; [apply count_does|intros ?; cbn beta].
  eapply does_bind; [|intros ?; cbn beta; eapply does_bind; [apply shows_tag|intros ?; by apply does_ret]].
  destruct (single_menu_mode st0); [apply shows_make|].
  eapply does_bind; [by apply (empty_does _ c)|intros ?; cbn beta; apply shows_make].
Qed.

Lemma symbol_does m c i l s ty : below m c -> does (W i l) (build_symbol m s ty) (fun _ => W i (l ++ [m])).
Proof.
  intros B. unfold build_symbol. apply does_get. intros st0.
  eapply does_bind; [apply shows_kern, ends_get_sym|intros y; cbn beta].
  destruct (bool_decide _).
  - eapply does_bind; [apply prompt_does|intros t; cbn beta].
    eapply does_bind; [apply shows_make|intros ?; cbn beta]. eapply does_bind; [apply shows_tag|intros ?; by apply does_ret].
  - eapply does_bind; [apply count_does|intros ?; cbn beta].
    set (last := t ← prompt_of m; _). assert (Hlast : does (W i (l ++ [m])) last (fun _ => W i (l ++ [m]))).
    { eapply does_bind; [apply prompt_does|intros t; cbn beta]. eapply does_bind; [apply add_does|intros ?; cbn beta].
      eapply does_bind; [apply shows_kern, ends_settled, settled_get_menu|intros e; cbn beta].
      eapply does_bind; [apply shows_kern, ends_prompt_prop|intros q; cbn beta].
      destruct (p_type q); try by apply does_ret.
      eapply does_bind; [by apply (empty_does _ c)|intros ?; cbn beta].
      eapply does_bind; [apply add_does|intros ?; by apply does_ret]. }
    assert (Hthen : forall t ch, does (W i l) (make_item t;; tag_item ch m;; last) (fun _ => W i (l ++ [m]))).
    { intros t ch. eapply does_bind; [apply shows_make|intros ?; cbn beta]. eapply does_bind; [apply shows_tag|intros ?; exact Hlast]. }
    destruct (sym_is_choice_value y && _); [apply Hthen|].
    destruct ty; try apply Hthen;
      (eapply does_bind; [apply shows_kern, ends_string_value|intros v; cbn beta];
       eapply does_bind; [apply shows_make|intros ?; cbn beta];
       eapply does_bind; [apply prompt_does|intros t; cbn beta];
       eapply does_bind; [apply shows_kern, ends_get_sym|intros y'; cbn beta];
       eapply does_bind; [apply add_does|intros ?; cbn beta];
       eapply does_bind; [apply shows_tag|intros ?; by apply does_ret]).
Qed.

(** What is found is right below. *)
Lemma find_does f : forall k i l pp ds dm, (forall m c, child_of f m c -> below m c) -> seg sk pp f None -> (length (preorder f) <= k)%nat ->
  does (W i l) (find_def k (first f) ds dm) (fun r st => W i l st /\ forall d, r = Some d -> dm = Some d \/ exists cd, child_of f d cd).
Proof.
  induction f as [|m c _ r IH]; intros k i l pp ds dm Hin Hs Hk.
  { destruct k; apply does_ret; intros st Hst; by split; [|left]. }
  destruct Hs as (E & Hc & Hr). cbn [preorder length first] in *. rewrite length_app in Hk. destruct k as [|k]; [lia|]. cbn [find_def].
  eapply does_bind; [apply shows_kern, (visible_ends m c), Hin; by left|intros v; cbn beta].
  eapply the_menu_does; [exact E|]. intros e He. replace (m_next e) with (first r)
    by (apply (f_equal l_next) in He; cbn in He; by rewrite first_or_None in He).
  eapply does_mono; [apply (IH k i l pp); [|done|lia]|done|]; [intros m' c' H; apply Hin; by right|].
  intros d st [Hst Hd]. split; [done|]. intros d' ->. destruct (Hd d' eq_refl) as [H|[cd H]]; [|right; exists cd; by right].
  destruct (v && _); [|by left]. injection H as <-. right. exists c. by left.
Qed.

(** A choice: itself, and if it is made the entries below the chosen one. *)
Lemma choice_does build d m c i l s ty : building build d -> (depth c <= d)%nat -> below m c ->
  does (W i l) (build_choice build m s ty) (fun r st => match r with Some _ => W i (l ++ [m]) st | None => W i (l ++ m :: preorder c) st end).
Proof.
  intros Hb Hd B. destruct (be_links _ _ B) as (p & x & E). unfold build_choice.
  eapply does_bind; [apply shows_kern, ends_get_sym|intros y; cbn beta].
  eapply does_bind; [apply count_does|intros ?; cbn beta].
  eapply the_menu_does; [exact E|]. intros e He. apply menu_fuel_does.
  replace (m_list e) with (first c) by (by apply (f_equal l_list) in He).
  eapply does_bind; [eapply find_does; [intros d' cd; by apply (below_child m)|apply B|]|].
  { pose proof (below_size _ _ B). lia. }
  intros def. apply does_pure. intros Hdef.
  eapply does_bind; [apply shows_kern, ends_get_sym|intros y'; cbn beta].
  eapply (does_bind _ _ (fun _ => W i (l ++ [m]))).
  { destruct (sym_is_changable y'); [|apply item_does].
    destruct ty; try apply item_does; (eapply (does_bind _ _ (fun _ => W i l)); [by apply does_ret|intros ?; cbn beta; apply shows_retag]). }
  intros ?. apply does_get. intros st0. eapply does_bind; [apply prompt_does|intros t; cbn beta].
  eapply does_bind; [apply add_does|intros ?; cbn beta].
  destruct (is_tri _ _); [|by apply does_ret].
  eapply (does_bind _ _ (fun _ => W i (l ++ m :: preorder c))); [|intros ?; by apply does_ret].
  assert (Hmore : forall st, W i (l ++ [m]) st -> W i (l ++ m :: preorder c) st).
  { intros st. apply shows_mono. apply sublist_app; [done|]. apply sublist_skip, sublist_nil_l. }
  destruct def as [def|]; [|by apply does_ret].
  destruct (Hdef def eq_refl) as [[=]|[cd Hcd]]. pose proof (below_child _ _ _ _ B Hcd) as Bd.
  destruct (be_links _ _ Bd) as (pd & xd & Ed).
  eapply does_bind; [apply prompt_does|intros t'; cbn beta]. do 2 (eapply does_bind; [apply add_does|intros ?; cbn beta]).
  eapply the_menu_does; [exact Ed|]. intros ed _. unfold ewhen. destruct (bool_decide _); [|by apply does_ret].
  eapply does_bind; [apply indent_does|intros ?; cbn beta].
  eapply does_bind; [apply (Hb _ _ _ _ Bd); pose proof (child_depth _ _ _ Hcd); lia|intros ?; cbn beta].
  eapply does_mono; [apply indent_does|done|]. intros ? st. cbn beta. replace (i + 2 + -2) with i by lia.
  apply shows_mono. rewrite <- app_assoc. apply sublist_app; [done|]. apply sublist_skip. by apply child_sublist.
Qed.

Lemma conf_does n : building (build_conf n) n.
Proof.
  induction n as [|n IH]; intros m c i l B Hd; [lia|]. cbn [build_conf].
  destruct (be_links _ _ B) as (p & x & E).
  eapply does_bind; [by apply shows_kern, (visible_ends m c)|intros v; cbn beta].
  apply does_get. intros st0. eapply the_menu_does; [exact E|]. intros e He.
  destruct (if show_all_options st0 then _ else _); [apply does_ret; intros st; apply within_more|].
  eapply (does_bind _ _ (fun r st => match r with Some _ => W i (l ++ [m]) st | None => W i (l ++ m :: preorder c) st end)).
  - assert (Hone : forall (r : option Z) st, W i (l ++ [m]) st ->
      match r with Some _ => W i (l ++ [m]) st | None => W i (l ++ m :: preorder c) st end).
    { intros [z|] st; [done|]. apply shows_mono, sublist_app; [done|]. apply sublist_skip, sublist_nil_l. }
    destruct (m_sym e) as [s|].
    + eapply does_bind; [apply shows_kern, ends_get_type|intros ty; cbn beta].
      eapply does_bind; [apply shows_kern, ends_get_sym|intros y; cbn beta].
      destruct (sym_is_choice y); [apply (choice_does _ n); [done|lia|done]|].
      eapply does_mono; [by apply (symbol_does m c)|done|exact Hone].
    + eapply does_mono; [by apply (plain_does m c)|done|exact Hone].
  - intros [n'|]; [|by apply does_ret]. eapply does_mono; [eapply (childs_does _ n); [done| |done]; lia|done|].
    intros ? st. by rewrite <- app_assoc.
Qed.
End Tree.

(** C16. The list [conf] makes for the menu [m]: it is always finished, its items stand for
    entries of the menus below [m], each once and in their order, and nothing else has
    changed. *)
Theorem build_conf_lists F m c st : tree_of (pointers (kst st)) F -> below (pointers (kst st)) F m c ->
  wp (dialog item_reset;; emodify (set_menu m);; n ← menu_fuel; build_conf n m) (fun r st' => r = Returned tt /\
    exists ns, data <$> item_head (tty st') = Some <$> ns /\ ns `sublist_of` m :: preorder c /\ NoDup ns /\
      indent st' = indent st /\ pointers (kst st') = pointers (kst st) /\ settings st' = settings (set_menu m st)) st.
Proof.
  intros T B. set (sk := pointers (kst st)) in *.
  assert (D : does (eq st) (dialog item_reset;; emodify (set_menu m);; n ← menu_fuel; build_conf n m)
    (fun _ => shows sk (set_menu m st) (indent st) [] ([] ++ m :: preorder c))).
  - eapply does_bind; [|intros ?; cbn beta; eapply does_bind; [|intros ?; cbn beta; apply (menu_fuel_does sk F T), (conf_does sk F T); [done|]]].
    + apply (does_dialog _ _ (fun _ st' => exists u, st' = set_tty u st /\ item_head u = [] /\ item_cur u = Nil /\ settings st' = settings st)).
      intros st' <-. unfold item_reset. apply wp_bind, wp_modify, wp_modify. by eexists.
    + apply does_modify. intros st' (u & -> & Hi & Hc & Hs). exists []. split; [done|]. split; try done; [by cbn; rewrite Hi|].
      unfold settings in *. cbn in *. congruence.
    + pose proof (below_size _ _ _ _ B). pose proof (depth_length c). lia.
  - eapply wp_mono; [by apply D|]. cbn beta. intros r st' (a & -> & ns & Hn & []). split; [by destruct a|]. exists ns.
    rewrite app_nil_r in *. split_and!; try done. eapply sublist_NoDup; [apply B|exact Hn].
Qed.

(** ** Texts on the screen *)

Section Text.
Import Textbox.

(** All but the window. *)
Definition outside (u : ui) := (events u, (lines u, columns u), (item_head u, item_cur u, item_nil u), (instr u, field u)).

Lemma put_row_total y r u : total (put_row y r) (fun _ u' => outside u' = outside u) u.
Proof. unfold put_row. apply total_bind, total_get. destruct (0 <=? y); [by apply total_modify|by apply total_ret]. Qed.
Lemma get_line_buf t : buf (get_line t).2 = buf t.
Proof. unfold get_line. by destruct (to_newline _). Qed.
Lemma print_lines_total n i e t u : total (print_lines n i e t) (fun t' u' => buf t' = buf t /\ outside u' = outside u) u.
Proof.
  revert i e t u. induction n as [|n IH]; intros i e t u; cbn [print_lines]; [by apply total_ret|].
  pose proof (get_line_buf t) as Hb. destruct (get_line t) as [line t1]. cbn in Hb.
  apply total_bind. eapply total_mono; [apply put_row_total|]. cbn beta. intros _ u1 H1.
  eapply total_mono; [apply IH|]. cbn beta. intros t2 u2 [H2 H3]. split; [|congruence].
  rewrite H2. by destruct e.
Qed.

(** A text stays on the screen until Enter is pressed. *)
Lemma textbox_read r c text keys d v h rest u : text <> [] -> r <> 0 -> c <> 0 ->
  TEXTBOX_HEIGTH_MIN <= lines u -> TEXTBOX_WIDTH_MIN <= columns u -> events u = Got (code nl) :: rest ->
  total (dialog_textbox (D := unit) None keys r c text v h d) (fun res u' => res.1.1.1 = code nl /\ outside u' = outside (set_events rest u)) u.
Proof.
  intros Ht Hr Hc Hl Hw Hev. unfold dialog_textbox. apply total_bind. unfold dialog_loop. apply total_bind.
  unfold coming. apply total_bind, total_get, total_ret. cbn [event_loop]. apply total_bind.
  set (t0 := if v =? 0 then _ else _). assert (Hb : buf t0 = text).
  { unfold t0. destruct (v =? 0); [done|]. generalize (Z.to_nat v) as n. set (t1 := set_begin _ _).
    intros n. assert (E : buf t1 = text) by done. revert E. generalize t1. clear. induction n as [|n IH]; intros t E; [done|].
    cbn [get_lines]. apply IH. by rewrite get_line_buf. }
  unfold draw. apply total_bind, total_get. rewrite (proj2 (Z.ltb_ge _ _)), (proj2 (Z.ltb_ge (columns u) _)) by done. cbn [orb].
  rewrite (proj2 (Z.eqb_neq r 0)), (proj2 (Z.eqb_neq c 0)) by done. cbn [negb].
  apply total_bind. unfold newwin. apply total_modify, total_bind. unfold refresh_text_box, print_page. do 2 apply total_bind.
  eapply total_mono; [apply print_lines_total|]. cbn beta. intros t1 u1 [B1 O1]. apply total_ret. cbn [fst].
  unfold print_position. apply total_bind.
  assert (B : buf t1 = text) by (rewrite B1; exact Hb). rewrite B. destruct text as [|x text]; [done|]. do 3 apply total_ret.
  apply total_bind. unfold step. apply total_bind. eapply total_run; [apply wgetch_got; injection O1 as -> _ _ _ _ _ _ _; exact Hev|].
  change (one_of "EeXxq" (code nl) || (code nl =? code nl)) with true. cbn iota. do 2 apply total_ret.
  change (code nl =? - ERRDISPLAYTOOSMALL) with false. cbn iota. apply total_ret. split; [done|].
  unfold outside in *. cbn in *. congruence.
Qed.
End Text.

(** ** The question for a text *)

Lemma set_kst_same st : set_kst (kst st) st = st.
Proof. by destruct st. Qed.
Lemma kern_same {A B} (m : KM A) (f : A -> MM B) a st : m (kst st) = Ok a (kst st) -> (kern m ≫= f) st = f a st.
Proof. intros E. apply erun. unfold kern. by rewrite E, set_kst_same. Qed.

Section Texts.
Context (CONFIG_ : string) (place : menuref -> string * Z).

(** The screen and the array are large enough for the input line of a question. *)
Record roomy (u : ui) : Prop := { ro_lines : 8 < lines u; ro_columns : 73 < columns u; ro_array : length (instr u) = 2049%nat }.
(** What the keys make of the text shown first. *)
Definition typed_text (def : string) (ks : list Z) : string :=
  String.string_of_list_ascii (edits ks (chars def, Z.of_nat (length (chars def)))).1.

Lemma input_typed def ks rest st : roomy (tty st) -> no_nul (chars def) -> Z.of_nat (String.length def) <= MAX_LEN ->
  Forall editing_key ks -> events (tty st) = map Got ks ++ Got (code nl) :: rest ->
  exists u, dialog (Inputbox.dialog_inputbox 10 75 def) st = Ok (Returned 0) (set_tty u st) /\
    roomy u /\ events u = rest /\ Inputbox.c_text (instr u) = typed_text def ks.
Proof.
  intros [Hl Hc Hi] Hn Hm Hk Hev.
  pose proof (inputbox_runs 10 75 def ks rest (tty st) eq_refl Hl Hc Hi Hn Hm Hk Hev) as H. cbn zeta in H.
  unfold typed_text, chars. destruct (edits _ _) as [s' p]. destruct H as (u & E & T & [Hs _ _ _ R]).
  injection R as He Hh Hw _ _ _ _. exists u. split; [unfold dialog; by rewrite E|].
  split; [split; [by rewrite Hh|by rewrite Hw|done]|by rewrite He, T].
Qed.

Context (m : menuref) (s : symref) (y : symbol) (l : loc) (def : string).
Hypothesis text : textual y.
Hypothesis value : val (curr y) = VStr l def.
Hypothesis plain : no_nul (chars def).
Hypothesis short : Z.of_nat (String.length def) <= MAX_LEN.

(** The entry asked for. *)
Definition asked (k : kstate) : Prop := syms k !! s = Some y /\ exists e, menus k !! m = Some e /\ m_sym e = Some s.

Lemma run_this_menu x e k : menus k !! x = Some e -> get_menu x k = Ok e k.
Proof. intros E. unfold get_menu, mbind, PM_bind, pget, plift. by rewrite E. Qed.
Lemma run_entry e st : menus (kst st) !! m = Some e -> m_sym e = Some s -> entry_sym m st = Ok (Returned s) st.
Proof. intros Em Es. unfold entry_sym, the_menu. erewrite kern_same; [|by apply run_this_menu]. by rewrite Es. Qed.
(** One question, up to what is done with the answer. *)
Lemma string_round_typed ks rest st : asked (kst st) -> roomy (tty st) ->
  Forall editing_key ks -> events (tty st) = map Got ks ++ Got (code nl) :: rest ->
  exists u, roomy u /\ events u = rest /\ string_round CONFIG_ place m st = (ok ← kern (sym_set_string_value s (typed_text def ks));
     if ok : bool then mret (Some tt) else show_textbox "You have made an invalid entry." 5 43;; mret None) (set_tty u st).
Proof.
  intros [Ey (e & Em & Es)] Hr Hk Hev. destruct (input_typed def ks rest st Hr plain short Hk Hev) as (u & E & Hu & He & Ht).
  exists u. split; [done|]. split; [done|]. unfold string_round.
  erewrite erun by (by eapply run_entry). erewrite kern_same by (by eapply run_textual). erewrite erun by exact E.
  change (0 =? 0) with true. cbn iota. by rewrite <- Ht.
Qed.

(** The message about an entry that is not valid. *)
Lemma message_read rest st : roomy (tty st) -> events (tty st) = Got (code nl) :: rest ->
  exists u, show_textbox "You have made an invalid entry." 5 43 st = Ok (Returned tt) (set_tty u st) /\ roomy u /\ events u = rest.
Proof.
  intros [Hl Hw Hi] Hev.
  pose proof (textbox_read 5 43 (chars "You have made an invalid entry.") (fun _ => []) tt 0 0 rest (tty st)) as T.
  apply total_Ok in T as (r & u & E & _ & O); try done; try (unfold TEXTBOX_HEIGTH_MIN, TEXTBOX_WIDTH_MIN; lia).
  exists u. split; [|injection O as He Hh Hc _ _ _ Hf _; split; [split; [by rewrite Hh|by rewrite Hc|by rewrite Hf]|by rewrite He]].
  unfold show_textbox. erewrite erun; [reflexivity|]. unfold dialog. by rewrite E.
Qed.

(** The keys of answers that are refused: each is followed by the one that puts the
    message away. *)
Definition tried (tries : list (list Z)) (es : list event) : list event :=
  foldr (fun ks es => map Got ks ++ Got (code nl) :: Got (code nl) :: es) es tries.

(** C22. The question for a text or a number: an answer that is no number of the type
    changes nothing and the question is put again with the value it had; the first
    that is accepted becomes the user's value, as it stands in the field (a
    hexadecimal number without [0x] is given it). *)
Theorem conf_string_typed tries ks k' rounds rest st : asked (kst st) -> sym_is_choice y = false -> roomy (tty st) ->
  events (tty st) = tried tries (map Got ks ++ Got (code nl) :: rest) ->
  Forall (Forall editing_key) tries -> Forall editing_key ks ->
  Forall (fun ks => no_number (type y) (typed_text def ks)) tries ->
  sym_set_string_value s (typed_text def ks) (kst st) = Ok true k' -> (length tries < rounds)%nat ->
  exists u, conf_string CONFIG_ place rounds m st = Ok (Returned tt) (set_kst k' (set_tty u st)) /\ events u = rest /\
            given_text s (stored_text (type y) (typed_text def ks)) k'.
Proof.
  intros Ha Hch Hr Hev Ht Hk Hno Hs Hn.
  assert (Hu : given_text s (stored_text (type y) (typed_text def ks)) k') by (eapply user_text_stored; eauto; apply Ha).
  cut (exists u, conf_string CONFIG_ place rounds m st = Ok (Returned tt) (set_kst k' (set_tty u st)) /\ events u = rest).
  { intros (u & E & He). by exists u. }
  assert (Hf : Forall (fun ks => sym_set_string_value s (typed_text def ks) (kst st) = Ok false (kst st)) tries).
  { eapply Forall_impl; [exact Hno|]. intros k0 Hk0. eapply no_number_refused; [apply Ha|exact Hk0]. }
  clear Hno Hu. revert rounds st Ha Hr Hev Hf Hs Hn.
  induction tries as [|ks1 tries IH]; intros rounds st Ha Hr Hev Hf Hs Hn; (destruct rounds as [|rounds]; [cbn in Hn; lia|]);
    unfold conf_string in *; cbn [again].
  - destruct (string_round_typed ks rest st Ha Hr Hk Hev) as (u & Hu & He & E). exists u. split; [|done].
    assert (R : string_round CONFIG_ place m st = Ok (Returned (Some tt)) (set_kst k' (set_tty u st))).
    { rewrite E. unfold mbind, EM_bind, kern. cbn. by rewrite Hs. }
    by rewrite (erun _ _ _ _ _ R).
  - apply Forall_cons in Ht as [Hk1 Ht], Hf as [Hf1 Hf]. cbn in Hn.
    destruct (string_round_typed ks1 _ st Ha Hr Hk1 Hev) as (u & Hu & He & E).
    destruct (message_read _ (set_tty u st) Hu He) as (u1 & E1 & Hu1 & He1).
    destruct (IH Ht rounds (set_tty u1 st)) as (u2 & E2 & He2); try done; [lia|].
    exists u2. split; [|done].
    assert (R : string_round CONFIG_ place m st = Ok (Returned None) (set_tty u1 st)).
    { rewrite E, (kern_same _ _ false) by exact Hf1. cbn iota. by rewrite (erun _ _ _ _ _ E1). }
    rewrite (erun _ _ _ _ _ R). exact E2.
Qed.

End Texts.

(** ** Runs *)

Definition started (k : kstate) (u : ui) : mstate := {|
  kst := k; tty := u; indent := 0; current_menu := None; child_count := 0; single_menu_mode := false;
  show_all_options := false; save_and_exit := false; menu_data := []; filename := ".config"; menu_backtitle := "";
  trail := []; subtitles := []; stdout := ""; stderr := ""; files := [] |}.

(** The menus of the file in KMenuDemo. *)
Definition demo_forest : forest :=
  (Entry 1 (Entry 2 Leaf (Entry 3 Leaf (Entry 4 Leaf Leaf))) (Entry 5 (Entry 6 Leaf Leaf) Leaf))%nat.
Definition list_root (p : pstate) : outcome mstate (ended unit) :=
  (dialog item_reset;; emodify (set_menu rootmenu);; n ← menu_fuel; build_conf n rootmenu) (started (heap p) (demo_ui [] [])).
Lemma final_links : match final with
  | Some p => Some ((fun m => pointers (heap p) !! m) <$> seq 0 7, match list_root p with Ok _ st => str <$> item_head (tty st) | _ => [] end)
  | None => None
  end = Some (Some <$> [mkLinks None (Some 1) None; mkLinks (Some 0) (Some 2) (Some 5); mkLinks (Some 1) None (Some 3);
    mkLinks (Some 1) None (Some 4); mkLinks (Some 1) None None; mkLinks (Some 0) (Some 6) None; mkLinks (Some 5) None None]%nat,
    ["[ ] a (NEW)  ----"; "    pick (d)  --->"]%string).
Proof. vm_compute. reflexivity. Qed.
Lemma demo_tree : exists p, final = Some p /\ tree_of (pointers (heap p)) demo_forest /\
  match list_root p with Ok _ st => str <$> item_head (tty st) = ["[ ] a (NEW)  ----"; "    pick (d)  --->"]%string | _ => False end.
Proof.
  pose proof final_links as H. destruct final as [p|]; [|discriminate H]. exists p. split; [reflexivity|].
  cbn [fmap list_fmap seq] in H. injection H as H0 H1 H2 H3 H4 H5 H6 Hi. split.
  - split; [cbn; tauto|]. apply (bool_decide_unpack _). vm_compute. exact I.
  - destruct (list_root p); [exact Hi|discriminate Hi..].
Qed.
Lemma below_root sk F : tree_of sk F -> below sk F rootmenu F.
Proof. intros [(E & Hc & _) N]. split; [by eexists _, _|done..]. Qed.
Lemma build_conf_lists_witness : exists p st ns, final = Some p /\ list_root p = Ok (Returned tt) st /\
  str <$> item_head (tty st) = ["[ ] a (NEW)  ----"; "    pick (d)  --->"]%string /\
  data <$> item_head (tty st) = Some <$> ns /\ ns `sublist_of` seq 0 7.
Proof.
  destruct demo_tree as (p & E & T & R).
  pose proof (build_conf_lists demo_forest rootmenu demo_forest (started (heap p) (demo_ui [] [])) T (below_root _ _ T)) as H.
  change (wp _ ?Q _) with (match list_root p with Ok a s => Q a s | Fault => True | NoFuel => False end) in H.
  destruct (list_root p) as [r st| |] eqn:L; [|destruct R..]. destruct H as (-> & ns & Hd & Hs & _).
  exists p, st, ns. exact (conj E (conj L (conj R (conj Hd Hs)))).
Defined.

(** "7x" is no number, "8" is one. *)
Lemma conf_string_typed_witness : exists u k', sym_set_string_value 4%nat "8" (asking "7") = Ok true k' /\
  conf_string "BR2_" nowhere 5%nat 2%nat (started (asking "7") (demo_ui (map Got [120; 10; 10; KEY_BACKSPACE; 56; 10]) [])) =
    Ok (Returned tt) (set_kst k' (set_tty u (started (asking "7") (demo_ui (map Got [120; 10; 10; KEY_BACKSPACE; 56; 10]) [])))) /\
  given_text 4%nat "8" k'.
Proof.
  eassert (Hset : sym_set_string_value 4%nat "8" (asking "7") = Ok true _) by (vm_compute; reflexivity).
  destruct (conf_string_typed "BR2_" nowhere 2%nat 4%nat (asked_int (LHeap 0) "7") (LHeap 0) "7" ltac:(left; reflexivity) eq_refl
    ltac:(repeat constructor; discriminate) ltac:(discriminate) [[120]] [KEY_BACKSPACE; 56] _ 5%nat []
    (started (asking "7") (demo_ui (map Got [120; 10; 10; KEY_BACKSPACE; 56; 10]) []))
    ltac:(split; [reflexivity|exists (entry_for 4%nat); split; reflexivity]) eq_refl ltac:(split; reflexivity) eq_refl
    ltac:(constructor; [constructor; [right; split; discriminate|constructor]|constructor])
    ltac:(constructor; [left; apply (bool_decide_unpack _); vm_compute; exact I|constructor; [right; split; discriminate|constructor]])
    ltac:(constructor; [apply invalid_no_number; [left; reflexivity|reflexivity]|constructor]) Hset ltac:(cbn; lia)) as (u & E & _ & Hu).
  exists u. eexists. exact (conj Hset (conj E Hu)).
Defined.
